(* ===== verification/_CoqProject ===== *)
-Q . S2P
Prelude.v
Bytes.v
Double.v
Wire.v
MemBuf.v
Unpacker.v
Packer.v
OldPacker.v
MemSlice.v
MemSliceSpan.v
Codec.v
UnorderedCodec.v
Packet.v
Structs.v
Protocols.v
Outcome.v
CJson.v
CJsonProofs.v
CJsonParse.v
CJsonProperties.v
JsonWrapper.v
JsonWrapperProofs.v
JsonFile.v
JsonHeap.v
JsonHeapProofs.v
JsonPrograms.v
JsonWrapperHeap.v
JsonWrapperHeapProofs.v
Addresses.v
AddressUnion.v
Interfaces.v
TcpConnection.v
TcpClient.v
TcpClientReentry.v
UniLbsConnection.v
UniLbsClient.v
UniLbsInterface.v
WorkerSocket.v
ElbsConnection.v
Worker.v
MemoryBuffer.v
CompactProtocol.v
CompactSpec.v
CompactProofs.v
CompactSkip.v
CompactSafe.v
ThriftStruct.v
ThriftStructProofs.v
ThriftCode.v
ThriftSafe.v
ReportTypes.v
ReportCopies.v
ReportSchema.v
Reports.v
Timer.v
TcpServer.v
LogFile.v
UniLbsWorker.v
TurnServerMain.v
Logging.v
Utility.v
Identifiers.v
Reflection.v
CompileTime.v
TypeList.v
MemProxy.v
