(* ===== verification/Prelude.v ===== *)
(** * turnserver: a verification development

    The program (sources under src/turnserver/) is a TURN relay that registers itself with
    a fleet of load-balancing servers.  turnserver_main.cc keeps one connection to every
    unified LBS (lbs/), asks an edge LBS where its manager is and sends it reports
    (new_elbs/, thrift/), and answers a worker manager on its own machine with JSON
    messages.  What it says and hears goes through buffers (memory/), a binary packet
    format (base/), JSON (new_elbs/cJSON, json_wrapper) and thrift's compact protocol,
    over framed connections and reconnecting clients on libevent (network/).  This
    development models these parts and proves what makes them correct; the TURN relay
    itself is libjingle and is not in the repository.

    ** The files, bottom up

    The foundations.
    - [Prelude] (this file): faults as values ([result]), machine integers as [Z] with
      their wrap-around written out ([u8] ... [i64]), lists of cells with [read_at] and
      [write_at], the tactics ([width] ...) and the databases of rewriting hints.
    - [Bytes]: bytes, little-endian images, [htonl] and [htons], C strings.  [Double]: the
      C++ type double, its image and decimal forms.  [Outcome]: computations that may
      fault or run out of fuel.
    - [Wire]: the abstract wire format: the length prefix ([var_enc]), [frame].

    Buffers and packets.
    - [MemBuf], [MemSlice], [MemSliceSpan] (memory/mem_buf, mem_slice, mem_slice_span): the
      reference-counted buffer, windows on shared buffers over a heap, up to four windows
      read as one sequence.  [MemProxy] (memory/mem_proxy.h): structs laid over them.
    - [Unpacker], [Packer] (base/unpacker, packer.h): input cursor and output buffer.
      [OldPacker] (thrift/turnserver/packer.h): the older packer, and what a client may
      rely on of either one (class [PackerLaws]).
    - [Codec], [UnorderedCodec] (the stream operators), [Packet] (base/packet.h,
      packet_helper.h), [Structs] (base/declare_struct.h), [Protocols] (protocol/uni_lbs_protocol.h,
      new_elbs/new_elbs_protocol.h): the declaration macros and every message; the class
      [CodecOk] is what a packable type promises to what is built of it.
    - [Identifiers] (base/city_hash.h, channel_type), [Reflection] and [CompileTime]
      (base/const_utility.h, compile_time_utility.h, reflection.hpp), [TypeList] (base/type_traits.hpp): what the
      compiler computes, as functions.

    JSON.
    - [CJson] (new_elbs/cJSON.cc): items, reader, printers, minifier; [CJsonProofs],
      [CJsonParse] and [CJsonProperties]: the printed text against a reference, the reader
      as its inverse, safety and termination on any text.
    - [JsonWrapper], [JsonWrapperProofs] (new_elbs/json_wrapper.cc): the wrapper as a map
      from names, merging.  [JsonFile]: its files.
    - [JsonHeap] (new_elbs/cJSON.cc again): items as they lie in memory, with their
      pointers; [JsonHeapProofs] and [JsonPrograms]: the pointers implement the trees.
      [JsonWrapperHeap], [JsonWrapperHeapProofs]: wrappers that own a tree or look into one.

    The network.
    - [Addresses] (network/address_types, network_utility.cpp): socket addresses as a sum
      type; [AddressUnion]: the C++ union that implements it, with the lifetimes of its
      members; [Interfaces]: the addresses of the host.
    - [TcpConnection]: the framed connection, over the class [Bufferevent] of the libevent
      operations it calls, whose documented behaviour is [BuffereventOk].  [TcpClient]:
      connect, ping, back off and reconnect; [TcpClientReentry]: the same client when its
      callbacks connect it again or replace themselves.  [TcpServer]: the listening socket, over a
      class of the system calls.  [Timer] (base/timer): timers whose callables may touch
      the timer that runs them, over a class of the event base.
    - [Utility] (base/time_util, event_loop, string_utility.h, logging/log_args.h) and
      [Logging] (logging/): clocks, the event loop, which messages are logged.

    The load balancers.
    - [UniLbsConnection], [UniLbsClient], [UniLbsInterface] (lbs/): the conversation with
      one LBS as an implementation of the client's callback class; the set of
      connections, kept in step with the addresses of a host name; the class in front of
      it and the client as it runs.

    The report items.
    - [MemoryBuffer] (thrift/transport/TBufferTransports), [CompactProtocol]
      (thrift/protocol/TCompactProtocol.tcc, TProtocol.h): transport and protocol.
      [CompactSpec], [CompactProofs], [CompactSkip], [CompactSafe]: its values and bytes,
      over any transport that keeps [TransportOk]; reading what was written, passing over
      unknown fields, reading any bytes at all.
    - [ThriftStruct], [ThriftStructProofs], [ThriftCode], [ThriftSafe]: the code that the
      thrift compiler writes, once for all classes; [ReportTypes], [ReportCopies]
      (thrift/gen-cpp/report_item_types): the classes as they are written; [ReportSchema]:
      each class against its schema.  [Reports]: the items turnserver_main.cc sends.

    The program (turnserver_main.cc).
    - [WorkerSocket] (WorkerTCPSocket), [ElbsConnection], [Worker], [UniLbsWorker],
      [LogFile] (the classes of these names), [TurnServerMain] (the functions and [main]).

    ** How the code is rendered

    Undefined behaviour, null dereferences, failing assertions (they are on) and uses of
    freed objects are values ([fault]): an operation that may reach one returns a
    [result].  Objects that are shared or deleted live in a store indexed by location or
    number, so an alias and a dangling pointer are what they are in C++.  A callback is a
    pair of functions on a state the caller does not see; what it does to the object that
    runs it is part of what it returns, so re-entrant calls are modelled.  What the outside
    answers (clock, resolver, [connect], random jitter, [popen]) is an argument of the step
    that asks.  Objects that run are step functions or relations with the events that can
    happen ([TcpClient.step], [MemSlice.reachable], [UniLbsInterface.reached] ...).

    Parameters, for code that is not in the repository: libevent ([Bufferevent],
    [EventBase], [LoopSystem]), the sockets and files of the system ([Sockets], [Files]),
    [pow] and the conversion of a double that does not fit an int ([pow10], [overflow]),
    [CityHash64], [inet_aton], [malloc] ([JsonHeap.Allocator]), the order in which an
    unordered container is iterated, what lies beyond a buffer.  Where a theorem needs their documented behaviour it is a class of laws,
    with an instance that shows it can hold.

    Fuel.  The packet loop of [TcpConnection.OnDataReady] takes more than the bytes that
    wait ([OnDataReady_terminates]); the JSON reader twice the text and two
    ([parse_terminates]); [skip] and the thrift readers the bytes and two
    ([Reports.read_any_bytes_ends]); [MemoryBuffer.double_until] 66
    turns, behind which the sizes repeat; a loop along the items of [JsonHeap] one more
    than the blocks of the heap; [LogFile.copy_file] one
    more than the length of the file; [Logging.Glog.StringFormat] two turns; the loops of
    [Glog.pieces] and of [TurnServerMain] the length of the text; the callbacks of
    [TcpClientReentry] nest at most twice ([reconnecting_client_never_faults]), or without
    end ([refused_client_recurses]).  That these are enough is part
    of the theorems.  Everything else is structural.

    ** What is shown

    - Faithful transport.  Any value of any declared packet is framed and read back
      ([Packet.packable_roundtrip], [Protocols.lbs_messages_faithful]); both packers send
      the same packets ([OldPacker.packers_send_alike]); a report item is written as its
      fields and read back ([Reports.report_item_roundtrip], [reports_read_back],
      [equal_items_are_written_alike]); JSON is printed as the reference says and read
      back, from memory and from files ([CJsonProperties.print_is_reference],
      [print_parse_roundtrip], [JsonFile.file_roundtrip]).
    - Framing.  However the bytes arrive, each packet is delivered once and in order
      ([TcpConnection.frames_delivered_in_order], a refinement of an abstract connection);
      whole messages leave a [WorkerSocket] ([Send_keeps_messages_whole]).
    - Memory.  Programs over slices and over timers never touch what was freed and leak
      nothing ([MemSlice.slice_programs_safe], [slices_do_not_leak],
      [Timer.timers_are_safe]); the union of addresses refines the sum type and its objects
      stay typed ([AddressUnion]); a struct is found wherever blocks cut it
      ([MemProxy.layer_reads_the_struct]).
    - Objects that run.  No sequence of possible events makes a client, a server, a worker,
      the edge LBS connection or the LBS client fault, and their invariants hold throughout
      ([TcpClient.client_never_faults], [reconnecting_client_never_faults],
      [TcpServer.server_runs_safely], [Worker.worker_runs_without_fault],
      [ElbsConnection.elbs_runs_without_fault], [UniLbsInterface.lbs_client_keeps_running]); the client reconnects after its backoff,
      a reload leaves one connection per address, the server registers with one LBS, a
      request of the manager is answered.
    - Any input.  Reading ends without a fault, or with the faults that are named, on any
      JSON text and any report bytes.
    - What does not hold is proved too, and listed with the theorems that show it: reads
      past truncated input, a packet whose length check is one byte short, a report whose
      reader takes one field for another, a log that is lost when its copy fails, a
      listener closed twice, a client that loses an attempt its callback made, messages that
      are never sampled, JSON views that outlive their tree, names that a merge loses, and
      others.

    ** What is not modelled

    Header files whose implementation is not in the repository (udp sockets, agents, fast
    and generic tcp classes, performance readings); the headers of libevent, gflags and
    glog; thrift transports that the program never opens; the copies of base/ and new_elbs/
    under thrift/turnserver/ that have the same text; printing for a person (debug strings
    of addresses, progress messages of [main]).  Of modelled parts: a client's callback that
    deletes the client.  Integers of [size_t] that count objects in memory are unbounded;
    [malloc] succeeds.

    ** Where it goes next

    A callback that deletes its client, from each of the places that may call it. *)

From stdpp Require Export base tactics list numbers option.
From stdpp Require Import gmap.
From Stdlib Require Export ZArith Lia.

#[global] Open Scope Z_scope.

(** ** Undefined behaviour and failed assertions as values

    The modelled code is C++: reading outside a buffer, reading memory that was
    never written, dereferencing a null pointer, touching a freed object and a
    failing [assert] all end the meaningful part of an execution.  Every
    operation that can reach one of them returns a [result]. *)

Inductive fault : Set :=
  | OutOfBounds
  | UninitRead
  | NullDeref
  | UseAfterFree
  | AssertFailed
  | TrapValue
  | FloatToIntOverflow
  | SignedOverflow.

Inductive result (A : Type) : Type :=
  | Ok (a : A)
  | Err (e : fault).
Arguments Ok {A} _.
Arguments Err {A} _.

#[export] Instance result_ret : MRet result := @Ok.
#[export] Instance result_bind : MBind result := λ A B f m,
  match m with Ok a => f a | Err e => Err e end.

#[export] Instance result_fmap : FMap result := λ A B f m,
  match m with Ok a => Ok (f a) | Err e => Err e end.

#[export] Instance fault_eq_dec : EqDecision fault.
Proof. solve_decision. Defined.
#[export] Instance result_eq_dec `{EqDecision A} : EqDecision (result A).
Proof. solve_decision. Defined.

Definition is_ok {A} (r : result A) : bool :=
  match r with Ok _ => true | Err _ => false end.

(** [assert(b)]. *)
Definition assert_ (b : bool) : result unit :=
  if b then Ok tt else Err AssertFailed.

Lemma bind_ok {A B} (a : A) (f : A → result B) : (Ok a ≫= f) = f a.
Proof. reflexivity. Qed.
Lemma bind_err {A B} e (f : A → result B) : (Err e ≫= f) = Err e.
Proof. reflexivity. Qed.
Lemma bind_ok_inv {A B} (m : result A) (f : A → result B) b :
  m ≫= f = Ok b → ∃ a, m = Ok a ∧ f a = Ok b.
Proof. destruct m; simpl; [eauto|discriminate]. Qed.
Lemma bind_assoc {A B C} (m : result A) (f : A → result B) (g : B → result C) :
  (m ≫= f) ≫= g = m ≫= (λ a, f a ≫= g).
Proof. by destruct m. Qed.

Create Rewrite HintDb res.
#[export] Hint Rewrite @bind_ok @bind_err : res.

(** ** Machine integers: the value reduced to its width *)

Definition u8 (z : Z) : Z := z mod 2 ^ 8.
Definition u16 (z : Z) : Z := z mod 2 ^ 16.
Definition u32 (z : Z) : Z := z mod 2 ^ 32.
Definition u64 (z : Z) : Z := z mod 2 ^ 64.
Definition i8 (z : Z) : Z := (z + 2 ^ 7) mod 2 ^ 8 - 2 ^ 7.
Definition i16 (z : Z) : Z := (z + 2 ^ 15) mod 2 ^ 16 - 2 ^ 15.
Definition i32 (z : Z) : Z := (z + 2 ^ 31) mod 2 ^ 32 - 2 ^ 31.
Definition i64 (z : Z) : Z := (z + 2 ^ 63) mod 2 ^ 64 - 2 ^ 63.

Lemma u8_small z : 0 ≤ z < 2 ^ 8 → u8 z = z.
Proof. apply Z.mod_small. Qed.
Lemma u16_small z : 0 ≤ z < 2 ^ 16 → u16 z = z.
Proof. apply Z.mod_small. Qed.
Lemma u32_small z : 0 ≤ z < 2 ^ 32 → u32 z = z.
Proof. apply Z.mod_small. Qed.
Lemma u64_small z : 0 ≤ z < 2 ^ 64 → u64 z = z.
Proof. apply Z.mod_small. Qed.
Lemma u8_bound z : 0 ≤ u8 z < 2 ^ 8.
Proof. by apply Z.mod_pos_bound. Qed.
Lemma u16_bound z : 0 ≤ u16 z < 2 ^ 16.
Proof. by apply Z.mod_pos_bound. Qed.
Lemma u32_bound z : 0 ≤ u32 z < 2 ^ 32.
Proof. by apply Z.mod_pos_bound. Qed.
(** The two's complement image of a value read back as signed. *)
Lemma wrap_signed w z :
  0 < w → - 2 ^ (w - 1) ≤ z < 2 ^ (w - 1) →
  (z mod 2 ^ w + 2 ^ (w - 1)) mod 2 ^ w - 2 ^ (w - 1) = z.
Proof.
  intros Hw Hz. rewrite Z.add_mod_idemp_l by (apply Z.pow_nonzero; lia).
  assert (2 ^ w = 2 * 2 ^ (w - 1)) as E by (rewrite <- Z.pow_succ_r by lia; f_equal; lia).
  rewrite Z.mod_small by lia. lia.
Qed.
Lemma i8_u8 z : - 2 ^ 7 ≤ z < 2 ^ 7 → i8 (u8 z) = z.
Proof. apply (wrap_signed 8). lia. Qed.
Lemma i16_u16 z : - 2 ^ 15 ≤ z < 2 ^ 15 → i16 (u16 z) = z.
Proof. apply (wrap_signed 16). lia. Qed.
Lemma i32_u32 z : - 2 ^ 31 ≤ z < 2 ^ 31 → i32 (u32 z) = z.
Proof. apply (wrap_signed 32). lia. Qed.
Lemma i64_u64 z : - 2 ^ 63 ≤ z < 2 ^ 63 → i64 (u64 z) = z.
Proof. apply (wrap_signed 64). lia. Qed.
Lemma u64_bound z : 0 ≤ u64 z < 2 ^ 64.
Proof. by apply Z.mod_pos_bound. Qed.
Lemma i32_small z : - 2 ^ 31 ≤ z < 2 ^ 31 → i32 z = z.
Proof. intros. unfold i32. rewrite Z.mod_small; lia. Qed.
Lemma i32_bound z : - 2 ^ 31 ≤ i32 z < 2 ^ 31.
Proof.
  unfold i32. pose proof (Z.mod_pos_bound (z + 2 ^ 31) (2 ^ 32)). lia.
Qed.

(** Closes goals about the widths above once their arguments are bounded. *)
Ltac width :=
  repeat first
    [ rewrite u8_small by lia | rewrite u16_small by lia
    | rewrite u32_small by lia | rewrite u64_small by lia
    | rewrite i32_small by lia ];
  try lia.

(** ** Bit operations on disjoint ranges *)

Lemma testbit_high x k n : 0 ≤ x < 2 ^ k → k ≤ n → Z.testbit x n = false.
Proof.
  intros Hx Hn. destruct (decide (k < 0)).
  { rewrite Z.pow_neg_r in Hx by lia. lia. }
  rewrite Z.testbit_false by lia. rewrite Z.div_small; [done|].
  pose proof (Z.pow_le_mono_r 2 k n). lia.
Qed.

Lemma lor_shiftl_add x y k :
  0 ≤ k → 0 ≤ x < 2 ^ k → Z.lor x (Z.shiftl y k) = x + y * 2 ^ k.
Proof.
  intros Hk Hx. rewrite <- Z.shiftl_mul_pow2 by done.
  symmetry. apply Z.add_nocarry_lor. apply Z.bits_inj'. intros n Hn.
  rewrite Z.land_spec, Z.bits_0, Z.shiftl_spec by done.
  destruct (decide (n < k)).
  - rewrite (Z.testbit_neg_r y) by lia. apply andb_false_r.
  - by rewrite (testbit_high x k n) by lia.
Qed.

Lemma land_low x k : 0 ≤ k → Z.land x (2 ^ k - 1) = x mod 2 ^ k.
Proof. intros. rewrite <- Z.land_ones, Z.ones_equiv by done. do 2 f_equal. Qed.

Lemma mod_pow_split v a b :
  0 ≤ a → 0 ≤ b → v mod 2 ^ (a + b) = v mod 2 ^ a + ((v / 2 ^ a) mod 2 ^ b) * 2 ^ a.
Proof.
  intros. rewrite Z.pow_add_r by lia.
  rewrite Z.rem_mul_r by (try apply Z.pow_nonzero; lia). lia.
Qed.

(** ** Lists as memory *)

(** [memcpy] of [d] at offset [pos] of the block [l]. *)
Definition splice {A} (pos : nat) (d l : list A) : list A :=
  take pos l ++ d ++ drop (pos + length d) l.

Section splice.
Context {A : Type}.
Implicit Types (l d e : list A) (pos : nat).

Lemma length_splice pos d l :
  (pos + length d ≤ length l)%nat → length (splice pos d l) = length l.
Proof.
  intros. unfold splice. rewrite !length_app, length_take, length_drop. lia.
Qed.

Lemma splice_read pos d l :
  (pos + length d ≤ length l)%nat →
  take (length d) (drop pos (splice pos d l)) = d.
Proof.
  intros. unfold splice.
  rewrite drop_app_length' by (rewrite length_take; lia).
  by rewrite take_app_length.
Qed.

Lemma splice_before pos d l n :
  (n ≤ pos)%nat → (pos ≤ length l)%nat →
  take n (splice pos d l) = take n l.
Proof.
  intros. unfold splice. rewrite take_app_le by (rewrite length_take; lia).
  rewrite take_take. by rewrite Nat.min_l by lia.
Qed.

Lemma splice_after pos d l n :
  (pos + length d ≤ n)%nat → (pos + length d ≤ length l)%nat →
  drop n (splice pos d l) = drop n l.
Proof.
  intros. unfold splice.
  rewrite app_assoc, drop_app_ge by (rewrite length_app, length_take; lia).
  rewrite drop_drop. f_equal. rewrite length_app, length_take. lia.
Qed.

Lemma splice_extend pos d l n :
  (n ≤ pos)%nat → (pos + length d ≤ length l)%nat →
  take (pos - n + length d) (drop n (splice pos d l)) =
    take (pos - n) (drop n l) ++ d.
Proof.
  intros. unfold splice.
  rewrite drop_app_le by (rewrite length_take; lia).
  assert (length (drop n (take pos l)) = (pos - n)%nat) as Hl
    by (rewrite length_drop, length_take; lia).
  rewrite app_assoc, take_app_length' by (rewrite length_app, Hl; lia).
  f_equal. rewrite take_drop_commute. do 2 f_equal. lia.
Qed.

Lemma splice_from pos d l :
  (pos ≤ length l)%nat →
  drop pos (splice pos d l) = d ++ drop (pos + length d) l.
Proof.
  intros. unfold splice. by rewrite drop_app_length' by (rewrite length_take; lia).
Qed.

Lemma splice_splice pos d e l :
  (pos + length d ≤ length l)%nat →
  splice (pos + length d) e (splice pos d l) = splice pos (d ++ e) l.
Proof.
  intros. unfold splice at 1. unfold splice at 3.
  rewrite splice_after by lia.
  replace (take (pos + length d) (splice pos d l)) with (take pos l ++ d).
  - rewrite length_app, <- !app_assoc, <- Nat.add_assoc. done.
  - unfold splice. rewrite app_assoc. rewrite take_app_length'; [done|].
    rewrite length_app, length_take. lia.
Qed.
End splice.

Lemma mapM_id_Some {A} (l : list A) : mapM id (Some <$> l) = Some l.
Proof. induction l as [|a l IH]; [done|]. cbn in *. by rewrite IH. Qed.

Lemma bool_decide_ltb a b : bool_decide (a < b) = (a <? b).
Proof. case_bool_decide; symmetry; [by apply Z.ltb_lt|]. apply Z.ltb_ge. lia. Qed.

(** Reading [n] cells at [pos]; out of bounds when the block is too short. *)
Definition read_at {A} (pos n : nat) (l : list A) : result (list A) :=
  if decide (pos + n ≤ length l)%nat then Ok (take n (drop pos l))
  else Err OutOfBounds.

(** Writing [d] at [pos]; out of bounds when the block is too short. *)
Definition write_at {A} (pos : nat) (d l : list A) : result (list A) :=
  if decide (pos + length d ≤ length l)%nat then Ok (splice pos d l)
  else Err OutOfBounds.

Lemma read_at_ok {A} pos n (l : list A) :
  (pos + n ≤ length l)%nat → read_at pos n l = Ok (take n (drop pos l)).
Proof. intros. unfold read_at. by rewrite decide_True. Qed.

Lemma write_at_ok {A} pos (d l : list A) :
  (pos + length d ≤ length l)%nat → write_at pos d l = Ok (splice pos d l).
Proof. intros. unfold write_at. by rewrite decide_True. Qed.
