(* ===== verification/Bytes.v ===== *)
(** * Bytes

    Bytes as integers in [0, 256), little-endian images of integers (the byte
    order of the hosts the server runs on: [memcpy] of a [uint32_t] stores it
    little-endian) and the network byte order conversions of libc. *)

From Stdlib Require String Ascii.
From S2P Require Import Prelude.

Abbreviation bytes := (list Z).

Definition is_byte (b : Z) : Prop := 0 ≤ b < 256.
Abbreviation bytes_ok := (Forall is_byte).

#[export] Instance is_byte_dec b : Decision (is_byte b).
Proof. unfold is_byte. apply _. Defined.

Create HintDb bytes.
Create Rewrite HintDb bytes_simp.

(** The bytes of a literal. *)
Fixpoint str (s : String.string) : bytes :=
  match s with
  | String.EmptyString => []
  | String.String c s => Z.of_N (Ascii.N_of_ascii c) :: str s
  end.

(** The C string at the start of a block: the bytes before the first 0. *)
Fixpoint c_str (s : bytes) : bytes :=
  match s with
  | [] => []
  | b :: s => if b =? 0 then [] else b :: c_str s
  end.

Lemma c_str_app s t : Forall (λ b, b ≠ 0) s → c_str (s ++ 0 :: t) = s.
Proof.
  induction 1 as [|b s Hb _ IH]; simpl; [done|].
  rewrite (proj2 (Z.eqb_neq _ _)) by done. by rewrite IH.
Qed.

Lemma c_str_nonzero s : Forall (λ b, b ≠ 0) (c_str s).
Proof.
  induction s as [|b s IH]; simpl; [done|]. destruct (Z.eqb_spec b 0); [done|].
  by constructor.
Qed.

Lemma c_str_id s : Forall (λ b, b ≠ 0) s → c_str s = s.
Proof.
  induction 1 as [|b s Hb _ IH]; simpl; [done|].
  rewrite (proj2 (Z.eqb_neq _ _)) by done. by rewrite IH.
Qed.

(** The [n] low bytes of [v], least significant first. *)
Fixpoint le_bytes (n : nat) (v : Z) : bytes :=
  match n with
  | O => []
  | S n => u8 v :: le_bytes n (Z.shiftr v 8)
  end.

(** The integer whose little-endian image is [bs]. *)
Fixpoint le_val (bs : bytes) : Z :=
  match bs with
  | [] => 0
  | b :: bs => b + 256 * le_val bs
  end.

Lemma length_le_bytes n v : length (le_bytes n v) = n.
Proof. revert v. induction n; intros; simpl; [done|]. by rewrite IHn. Qed.

Lemma le_bytes_ok n v : bytes_ok (le_bytes n v).
Proof.
  revert v. induction n; intros; simpl; constructor; [|done].
  apply u8_bound.
Qed.

Lemma le_val_le_bytes n v : le_val (le_bytes n v) = v mod 2 ^ (8 * Z.of_nat n).
Proof.
  revert v. induction n as [|n IH]; intros v; cbn [le_bytes le_val].
  { by rewrite Z.mod_1_r. }
  rewrite IH, Z.shiftr_div_pow2 by lia. unfold u8.
  replace (8 * Z.of_nat (S n)) with (8 + 8 * Z.of_nat n) by lia.
  rewrite Z.pow_add_r by lia.
  rewrite Z.rem_mul_r by (try apply Z.pow_nonzero; lia).
  done.
Qed.

Lemma le_val_le_bytes_small n v :
  0 ≤ v < 2 ^ (8 * Z.of_nat n) → le_val (le_bytes n v) = v.
Proof. intros. rewrite le_val_le_bytes. by apply Z.mod_small. Qed.

Lemma le_val_bound bs :
  bytes_ok bs → 0 ≤ le_val bs < 2 ^ (8 * Z.of_nat (length bs)).
Proof.
  induction 1 as [|b bs Hb _ IH]; cbn [le_val length]; [lia|].
  replace (8 * Z.of_nat (S (length bs))) with (8 + 8 * Z.of_nat (length bs)) by lia.
  rewrite Z.pow_add_r by lia. unfold is_byte in Hb. lia.
Qed.

Lemma le_bytes_le_val bs : bytes_ok bs → le_bytes (length bs) (le_val bs) = bs.
Proof.
  induction 1 as [|b bs Hb _ IH]; cbn [le_val length le_bytes]; [done|].
  unfold is_byte in Hb. f_equal.
  - unfold u8. rewrite (Z.mul_comm 256), Z.mod_add by lia. by rewrite Z.mod_small.
  - rewrite Z.shiftr_div_pow2 by lia.
    rewrite (Z.mul_comm 256), Z.div_add, Z.div_small by lia. done.
Qed.

Lemma le_bytes_inj n v w :
  0 ≤ v < 2 ^ (8 * Z.of_nat n) → 0 ≤ w < 2 ^ (8 * Z.of_nat n) →
  le_bytes n v = le_bytes n w → v = w.
Proof.
  intros Hv Hw E. apply (f_equal le_val) in E.
  by rewrite !le_val_le_bytes_small in E.
Qed.

#[export] Hint Resolve le_bytes_ok : bytes.
#[export] Hint Rewrite length_le_bytes : bytes_simp.

(** ** Network byte order *)

(** [htonl]/[ntohl] and [htons]/[ntohs] on a little-endian host. *)
Definition bswap (n : nat) (v : Z) : Z := le_val (rev (le_bytes n v)).
Definition htonl (v : Z) : Z := bswap 4 v.
Definition ntohl (v : Z) : Z := bswap 4 v.
Definition htons (v : Z) : Z := bswap 2 v.
Definition ntohs (v : Z) : Z := bswap 2 v.

Lemma bswap_bound n v : 0 ≤ bswap n v < 2 ^ (8 * Z.of_nat n).
Proof.
  unfold bswap.
  pose proof (le_val_bound (rev (le_bytes n v))) as H.
  rewrite length_rev, length_le_bytes in H.
  apply H, Forall_rev, le_bytes_ok.
Qed.

Lemma bswap_bswap n v :
  0 ≤ v < 2 ^ (8 * Z.of_nat n) → bswap n (bswap n v) = v.
Proof.
  intros Hv. unfold bswap.
  replace (le_bytes n (le_val (rev (le_bytes n v)))) with (rev (le_bytes n v)).
  - rewrite rev_involutive. by apply le_val_le_bytes_small.
  - pose proof (le_bytes_le_val (rev (le_bytes n v))) as H.
    rewrite length_rev, length_le_bytes in H. symmetry. apply H.
    apply Forall_rev, le_bytes_ok.
Qed.

Lemma ntohl_htonl v : 0 ≤ v < 2 ^ 32 → ntohl (htonl v) = v.
Proof. apply (bswap_bswap 4). Qed.
Lemma htonl_ntohl v : 0 ≤ v < 2 ^ 32 → htonl (ntohl v) = v.
Proof. apply (bswap_bswap 4). Qed.
Lemma ntohs_htons v : 0 ≤ v < 2 ^ 16 → ntohs (htons v) = v.
Proof. apply (bswap_bswap 2). Qed.
Lemma htons_ntohs v : 0 ≤ v < 2 ^ 16 → htons (ntohs v) = v.
Proof. apply (bswap_bswap 2). Qed.
Lemma htonl_bound v : 0 ≤ htonl v < 2 ^ 32.
Proof. apply (bswap_bound 4). Qed.
Lemma ntohl_bound v : 0 ≤ ntohl v < 2 ^ 32.
Proof. apply (bswap_bound 4). Qed.
Lemma htons_bound v : 0 ≤ htons v < 2 ^ 16.
Proof. apply (bswap_bound 2). Qed.
Lemma ntohs_bound v : 0 ≤ ntohs v < 2 ^ 16.
Proof. apply (bswap_bound 2). Qed.

#[export] Hint Resolve htonl_bound ntohl_bound htons_bound ntohs_bound : bytes.

Lemma le_val_app a b : le_val (a ++ b) = le_val a + 2 ^ (8 * Z.of_nat (length a)) * le_val b.
Proof.
  induction a as [|x a IH]; cbn [app le_val length]; [lia|].
  rewrite IH. replace (8 * Z.of_nat (S (length a))) with (8 + 8 * Z.of_nat (length a)) by lia.
  rewrite Z.pow_add_r by lia. lia.
Qed.
