(* ===== verification/Double.v ===== *)
(** * Double: the C++ type double and its decimal forms

    The JSON code computes on doubles and prints them with [sprintf].  A finite
    [double] is [m * 2^e] with [m] odd; the operations round the exact result to
    53 bits, to the nearest and to even, as IEEE 754 binary64 prescribes.  The
    decimal forms are those of the C standard library, which rounds the exact
    value. *)

From S2P Require Import Prelude Bytes.

Inductive double :=
  | Nan
  | Inf (neg : bool)
  | Zero (neg : bool)
  | Fin (m e : Z).

#[export] Instance double_eq_dec : EqDecision double.
Proof. solve_decision. Defined.

(** ** Rounding *)

(** The odd part of a positive mantissa, and its exponent. *)
Fixpoint strip (p : positive) (e : Z) : positive * Z :=
  match p with
  | xO p => strip p (e + 1)
  | _ => (p, e)
  end.

Definition canon (m e : Z) : double :=
  match m with
  | Z0 => Zero false
  | Zpos p => let '(p, e) := strip p e in Fin (Zpos p) e
  | Zneg p => let '(p, e) := strip p e in Fin (Zneg p) e
  end.

(** The integer nearest to [n / d], the even one of two; [d] is positive. *)
Definition nearest_even (n d : Z) : Z :=
  let q := n / d in
  let r := n mod d in
  if (2 * r <? d) || ((2 * r =? d) && Z.even q) then q else q + 1.

(** The double nearest to [m * 2^e]; [neg] is the sign of an exact zero. *)
Definition round (neg : bool) (m e : Z) : double :=
  let a := Z.abs m in
  if a =? 0 then Zero neg else
  let ulp := Z.max (Z.log2 a + 1 + e - 53) (-1074) in
  let '(a, e) := if ulp <=? e then (a, e) else (nearest_even a (2 ^ (ulp - e)), ulp) in
  if a =? 0 then Zero (m <? 0)
  else if 1024 <=? Z.log2 a + e then Inf (m <? 0)
  else canon (Z.sgn m * a) e.

(** ** Operations *)

Definition is_neg (x : double) : bool :=
  match x with
  | Nan => false
  | Inf s | Zero s => s
  | Fin m _ => m <? 0
  end.

Definition dneg (x : double) : double :=
  match x with
  | Nan => Nan
  | Inf s => Inf (negb s)
  | Zero s => Zero (negb s)
  | Fin m e => Fin (- m) e
  end.

Definition fabs (x : double) : double := if is_neg x then dneg x else x.

Definition dmul (x y : double) : double :=
  let s := xorb (is_neg x) (is_neg y) in
  match x, y with
  | Nan, _ | _, Nan => Nan
  | Inf _, Zero _ | Zero _, Inf _ => Nan
  | Inf _, _ | _, Inf _ => Inf s
  | Zero _, _ | _, Zero _ => Zero s
  | Fin m e, Fin n f => round s (m * n) (e + f)
  end.

Definition dadd (x y : double) : double :=
  match x, y with
  | Nan, _ | _, Nan => Nan
  | Inf s, Inf t => if eqb s t then Inf s else Nan
  | Inf s, _ | _, Inf s => Inf s
  | Zero s, Zero t => Zero (s && t)
  | Zero _, z | z, Zero _ => z
  | Fin m e, Fin n f =>
      let k := Z.min e f in round false (m * 2 ^ (e - k) + n * 2 ^ (f - k)) k
  end.

Definition dsub (x y : double) : double := dadd x (dneg y).

(** [x <= y] and [x < y]; false when one is not a number. *)
Definition compare_finite (m e n f : Z) : comparison :=
  let k := Z.min e f in (m * 2 ^ (e - k) ?= n * 2 ^ (f - k)).
Definition dcompare (x y : double) : option comparison :=
  match x, y with
  | Nan, _ | _, Nan => None
  | Inf s, Inf t => Some (if eqb s t then Eq else if s then Lt else Gt)
  | Inf s, _ => Some (if s then Lt else Gt)
  | _, Inf t => Some (if t then Gt else Lt)
  | Zero _, Zero _ => Some Eq
  | Zero _, Fin n _ => Some (0 ?= n)
  | Fin m _, Zero _ => Some (m ?= 0)
  | Fin m e, Fin n f => Some (compare_finite m e n f)
  end.
Definition dle (x y : double) : bool :=
  match dcompare x y with Some Gt | None => false | _ => true end.
Definition dlt (x y : double) : bool :=
  match dcompare x y with Some Lt => true | _ => false end.

(** The conversion from an integer type. *)
Definition of_int (z : Z) : double := round false z 0.

(** [floor]. *)
Definition dfloor (x : double) : double :=
  match x with
  | Fin m e => if 0 <=? e then x else of_int (m / 2 ^ (- e))
  | _ => x
  end.

(** The value truncated towards zero, when it is a number. *)
Definition trunc (x : double) : option Z :=
  match x with
  | Nan | Inf _ => None
  | Zero _ => Some 0
  | Fin m e => Some (if 0 <=? e then m * 2 ^ e else Z.quot m (2 ^ (- e)))
  end.

Definition INT_MAX : Z := 2 ^ 31 - 1.
Definition INT_MIN : Z := - 2 ^ 31.
Definition DBL_EPSILON : double := Fin 1 (-52).

(** [(int)x]: C++ leaves the result open when the truncated value is no [int]; what
    the machine gives then is a parameter. *)
Definition to_int (overflow : double → Z) (x : double) : Z :=
  match trunc x with
  | Some z => if (INT_MIN <=? z) && (z <=? INT_MAX) then z else overflow x
  | None => overflow x
  end.

(** ** Decimal forms *)

(** The digits of a nonnegative integer, and a field of fixed width. *)
Fixpoint digits_aux (fuel : nat) (n : Z) (acc : bytes) : bytes :=
  match fuel with
  | O => acc
  | S fuel =>
      let acc := (48 + n mod 10) :: acc in
      if n <? 10 then acc else digits_aux fuel (n / 10) acc
  end.
Definition digits (n : Z) : bytes := digits_aux (S (Z.to_nat (Z.log2 n))) n [].

Definition padded (width : nat) (n : Z) : bytes :=
  let d := digits n in replicate (width - length d) 48 ++ d.

Definition minus (neg : bool) : bytes := if neg then [45] else [].

(** "%d". *)
Definition print_d (z : Z) : bytes := minus (z <? 0) ++ digits (Z.abs z).

(** "inf" and "nan". *)
Definition print_special (x : double) : option bytes :=
  match x with
  | Inf s => Some (minus s ++ [105; 110; 102])
  | Nan => Some [110; 97; 110]
  | _ => None
  end.

(** [|x| * 10^k], rounded to an integer. *)
Definition scaled (m e k : Z) : Z :=
  nearest_even (Z.abs m * 2 ^ Z.max e 0 * 10 ^ Z.max k 0) (2 ^ Z.max (- e) 0 * 10 ^ Z.max (- k) 0).

(** "%.0f" and "%f". *)
Definition print_f0 (x : double) : bytes :=
  match print_special x, x with
  | Some s, _ => s
  | None, Fin m e => minus (m <? 0) ++ digits (scaled m e 0)
  | None, _ => minus (is_neg x) ++ [48]
  end.
Definition print_f (x : double) : bytes :=
  match print_special x, x with
  | Some s, _ => s
  | None, Fin m e =>
      let t := scaled m e 6 in
      minus (m <? 0) ++ digits (t / 10 ^ 6) ++ [46] ++ padded 6 (t mod 10 ^ 6)
  | None, _ => minus (is_neg x) ++ [48; 46] ++ replicate 6 48
  end.

(** [|m| * 2^e < 10^k]. *)
Definition below (m e k : Z) : bool :=
  Z.abs m * 2 ^ Z.max e 0 * 10 ^ Z.max (- k) 0 <? 10 ^ Z.max k 0 * 2 ^ Z.max (- e) 0.

(** The decimal exponent, searched upwards from an estimate. *)
Fixpoint exponent10 (fuel : nat) (m e k : Z) : Z :=
  match fuel with
  | O => k
  | S fuel => if below m e (k + 1) then k else exponent10 fuel m e (k + 1)
  end.

(** "%e". *)
Definition print_e (x : double) : bytes :=
  match print_special x, x with
  | Some s, _ => s
  | None, Fin m e =>
      let k := exponent10 4 m e ((Z.log2 (Z.abs m) + e) * 30103 / 100000 - 1) in
      let t := scaled m e (6 - k) in
      let '(t, k) := if t =? 10 ^ 7 then (10 ^ 6, k + 1) else (t, k) in
      minus (m <? 0) ++ digits (t / 10 ^ 6) ++ [46] ++ padded 6 (t mod 10 ^ 6) ++
      [101; if k <? 0 then 45 else 43] ++ padded 2 (Z.abs k)
  | None, _ => minus (is_neg x) ++ [48; 46] ++ replicate 6 48 ++ [101; 43; 48; 48]
  end.

(** ** Exactness *)

(** The integers below 2^53 are doubles. *)
Definition exact_int (z : Z) : Prop := Z.abs z < 2 ^ 53.

Example print_e_samples :
  print_e (of_int 12345678901) = [49; 46; 50; 51; 52; 53; 54; 56; 101; 43; 49; 48] ∧
  print_e (dmul (of_int (-1)) (Fin 1 (-30))) =
    [45; 57; 46; 51; 49; 51; 50; 50; 54; 101; 45; 49; 48] ∧
  print_f (Fin 5 (-1)) = [50; 46; 53; 48; 48; 48; 48; 48].
Proof. by vm_compute. Qed.

Lemma strip_double p e : strip (p * 2) e = strip p (e + 1).
Proof. by rewrite Pos.mul_comm. Qed.

(** [strip] keeps the value. *)
Lemma strip_value p e : ∀ q f, strip p e = (q, f) → e ≤ f ∧ Zpos p = Zpos q * 2 ^ (f - e).
Proof.
  revert e. induction p as [p IH|p IH|]; cbn [strip]; intros e q f E.
  - simplify_eq. rewrite Z.sub_diag. lia.
  - apply IH in E as [? E]. split; [lia|]. rewrite Pos2Z.inj_xO, E.
    replace (f - e) with (f - (e + 1) + 1) by lia. rewrite Z.pow_add_r by lia. lia.
  - simplify_eq. rewrite Z.sub_diag. lia.
Qed.

Lemma canon_shift m e k : 0 ≤ k → canon (m * 2 ^ k) e = canon m (e + k).
Proof.
  intros Hk. revert e. pattern k. apply natlike_ind; [| |done].
  - intros e. by rewrite Z.pow_0_r, Z.mul_1_r, Z.add_0_r.
  - intros n Hn IH e. rewrite Z.pow_succ_r by done.
    replace (m * (2 * 2 ^ n)) with (2 * (m * 2 ^ n)) by lia.
    assert (∀ x, canon (2 * x) e = canon x (e + 1)) as -> by (by intros []).
    rewrite IH. f_equal. lia.
Qed.

(** A nonzero number in canonical form. *)
Lemma canon_fin m e : m ≠ 0 →
  ∃ n f, canon m e = Fin n f ∧ e ≤ f ∧ m = n * 2 ^ (f - e) ∧ n ≠ 0.
Proof.
  intros Hm. destruct m as [|p|p]; [done| |]; cbn [canon];
    destruct (strip p e) as [q f] eqn:E; apply strip_value in E as [Hf E];
    do 2 eexists; (split; [done|]); (split; [done|]); split; lia.
Qed.

Lemma round_exact s m e :
  m ≠ 0 → Z.abs m < 2 ^ 53 → -1074 ≤ e ≤ 900 → round s m e = canon m e.
Proof.
  intros Hm Hb He. unfold round. rewrite (proj2 (Z.eqb_neq _ _)) by lia.
  assert (0 ≤ Z.log2 (Z.abs m) < 53) as Hl.
  { split; [apply Z.log2_nonneg|]. apply Z.log2_lt_pow2; lia. }
  rewrite (proj2 (Z.leb_le _ _)) by lia. cbv zeta iota beta.
  rewrite (proj2 (Z.eqb_neq _ _)), (proj2 (Z.leb_gt _ _)) by lia.
  f_equal. lia.
Qed.

Lemma of_int_canon z : exact_int z → of_int z = canon z 0.
Proof.
  unfold exact_int, of_int. intros Hz. destruct (decide (z = 0)) as [->|]; [done|].
  by apply round_exact.
Qed.

(** The form of an integer: zero, or a mantissa and a nonnegative exponent. *)
Lemma of_int_fin z : exact_int z → z ≠ 0 →
  ∃ m e, of_int z = Fin m e ∧ 0 ≤ e < 53 ∧ z = m * 2 ^ e ∧ m ≠ 0 ∧ Z.abs m < 2 ^ 53.
Proof.
  intros Hz Hn. rewrite of_int_canon by done.
  destruct (canon_fin z 0 Hn) as (m & e & E & He & Ev & Hm). rewrite Z.sub_0_r in Ev.
  exists m, e. unfold exact_int in Hz.
  assert (2 ^ e ≤ Z.abs z) as H1 by (rewrite Ev, Z.abs_mul, (Z.abs_eq (2 ^ e)) by lia; nia).
  assert (Z.abs m ≤ Z.abs z) as H2
    by (rewrite Ev, Z.abs_mul, (Z.abs_eq (2 ^ e)) by lia; nia).
  split_and!; try done; [|lia].
  apply (Z.pow_lt_mono_r_iff 2); lia.
Qed.

Lemma of_int_0 : of_int 0 = Zero false.
Proof. reflexivity. Qed.

Lemma dmul_int a b :
  exact_int (a * b) → exact_int a → exact_int b → 0 ≤ a ∧ 0 ≤ b ∨ a * b ≠ 0 →
  dmul (of_int a) (of_int b) = of_int (a * b).
Proof.
  intros Hab Ha Hb Hor.
  destruct (decide (a = 0)) as [->|Ha0].
  { destruct (decide (b = 0)) as [->|Hb0]; [done|].
    destruct (of_int_fin b Hb Hb0) as (n & f & E & ? & ? & ? & ?). rewrite E, Z.mul_0_l, of_int_0.
    cbn [dmul is_neg]. rewrite (proj2 (Z.ltb_ge n 0)) by nia. done. }
  destruct (decide (b = 0)) as [->|Hb0].
  { destruct (of_int_fin a Ha Ha0) as (n & f & E & ? & ? & ? & ?). rewrite E, Z.mul_0_r, of_int_0.
    cbn [dmul is_neg]. rewrite (proj2 (Z.ltb_ge n 0)) by nia. done. }
  destruct (of_int_fin a Ha Ha0) as (m & e & E & ? & Ea & ? & ?).
  destruct (of_int_fin b Hb Hb0) as (n & f & F & ? & Eb & ? & ?).
  assert (a * b = m * n * 2 ^ (e + f)) as Eab by (rewrite Z.pow_add_r by lia; nia).
  rewrite (of_int_canon _ Hab), E, F, Eab, canon_shift by lia. cbn [dmul is_neg].
  apply round_exact; [nia| |lia].
  unfold exact_int in Hab. rewrite Eab, Z.abs_mul, (Z.abs_eq (2 ^ _)) in Hab by lia. nia.
Qed.

Lemma dadd_ints a b :
  exact_int a → exact_int b → exact_int (a + b) → a + b ≠ 0 →
  dadd (of_int a) (of_int b) = of_int (a + b).
Proof.
  intros Ha Hb Hab Hne. destruct (decide (a = 0)) as [->|Ha0].
  { rewrite of_int_0. destruct (of_int_fin b) as (n & f & E & _); [done|lia|]. by rewrite E. }
  destruct (of_int_fin a) as (m & e & E & ? & Ea & ? & ?); [done|done|].
  destruct (decide (b = 0)) as [->|Hb0]; [by rewrite of_int_0, Z.add_0_r, E|].
  destruct (of_int_fin b) as (n & f & F & ? & Eb & ? & ?); [done|done|].
  rewrite E, F, of_int_canon by done. cbn [dadd]. set (k := Z.min e f).
  assert (a + b = (m * 2 ^ (e - k) + n * 2 ^ (f - k)) * 2 ^ k) as Es.
  { rewrite Z.mul_add_distr_r, <- !Z.mul_assoc, <- !Z.pow_add_r by lia.
    by rewrite !Z.sub_add, <- Ea, <- Eb. }
  unfold exact_int in Hab. rewrite Es, canon_shift by lia. rewrite Z.add_0_l.
  rewrite Es, Z.abs_mul, (Z.abs_eq (2 ^ k)) in Hab by lia.
  apply round_exact; [|assert (0 < 2 ^ k) by lia; nia|lia]. intros E0. rewrite E0 in Es. lia.
Qed.

Lemma dadd_int a b :
  exact_int (a + b) → 0 ≤ a → 0 ≤ b → dadd (of_int a) (of_int b) = of_int (a + b).
Proof.
  intros Hab Ha Hb. destruct (decide (a + b = 0)) as [E|Hne].
  - assert (a = 0) as -> by lia. by assert (b = 0) as -> by lia.
  - unfold exact_int in Hab. by apply dadd_ints; unfold exact_int; try lia.
Qed.

Lemma dneg_int b : b ≠ 0 → exact_int b → dneg (of_int b) = of_int (- b).
Proof.
  intros Hb Hex. rewrite !of_int_canon by (unfold exact_int in *; lia).
  destruct b as [|p|p]; [done| |]; unfold Z.opp, canon; by destruct (strip p 0).
Qed.

Lemma dsub_ints a b :
  exact_int a → exact_int b → exact_int (a - b) → a ≠ b →
  dsub (of_int a) (of_int b) = of_int (a - b).
Proof.
  intros Ha Hb Hab Hne. unfold dsub. destruct (decide (b = 0)) as [->|Hb0].
  - rewrite of_int_0, Z.sub_0_r. destruct (of_int_fin a) as (m & e & E & _); [done|done|].
    by rewrite E.
  - rewrite dneg_int, dadd_ints by (first [done | unfold exact_int in *; lia]).
    by rewrite Z.add_opp_r.
Qed.

(** ** Comparisons of integers *)

Lemma compare_scale a b k : 0 < k → (a * k ?= b * k) = (a ?= b).
Proof. intros Hk. rewrite (Z.mul_comm a), (Z.mul_comm b). symmetry. apply Zmult_compare_compat_l. lia. Qed.

Lemma compare_finite_int m e n f :
  0 ≤ e → 0 ≤ f → compare_finite m e n f = (m * 2 ^ e ?= n * 2 ^ f).
Proof.
  intros He Hf. unfold compare_finite. set (k := Z.min e f).
  rewrite <- (compare_scale _ _ (2 ^ k)) by lia.
  rewrite <- !Z.mul_assoc, <- !Z.pow_add_r by lia. by rewrite !Z.sub_add.
Qed.

Lemma compare_zero_pow n f : 0 ≤ f → (0 ?= n) = (0 ?= n * 2 ^ f).
Proof. intros Hf. rewrite <- (compare_scale 0 n (2 ^ f)) by lia. by rewrite Z.mul_0_l. Qed.

Lemma dcompare_int a n f : exact_int a → 0 ≤ f →
  dcompare (of_int a) (Fin n f) = Some (a ?= n * 2 ^ f).
Proof.
  intros Ha Hf. destruct (decide (a = 0)) as [->|Ha0].
  { cbn [dcompare of_int round]. rewrite of_int_0. cbn [dcompare]. by rewrite <- compare_zero_pow. }
  destruct (of_int_fin a Ha Ha0) as (m & e & E & He & Ea & _). rewrite E. cbn [dcompare].
  rewrite compare_finite_int by lia. by rewrite <- Ea.
Qed.

Lemma dcompare_ints a b : exact_int a → exact_int b →
  dcompare (of_int a) (of_int b) = Some (a ?= b).
Proof.
  intros Ha Hb. destruct (decide (b = 0)) as [->|Hb0].
  - rewrite of_int_0. destruct (decide (a = 0)) as [->|Ha0]; [done|].
    destruct (of_int_fin a Ha Ha0) as (m & e & E & He & Ea & _). rewrite E. cbn [dcompare].
    rewrite Ea, <- (compare_scale m 0 (2 ^ e)) by lia. by rewrite Z.mul_0_l.
  - destruct (of_int_fin b Hb Hb0) as (n & f & F & Hf & Eb & _). rewrite F, dcompare_int by (first [done|lia]).
    by rewrite <- Eb.
Qed.

Lemma dle_ints a b : exact_int a → exact_int b → dle (of_int a) (of_int b) = (a <=? b).
Proof.
  intros. unfold dle. rewrite dcompare_ints by done. unfold Z.leb. by destruct (a ?= b).
Qed.

(** Integers differ by more than a fraction. *)
Lemma dle_fraction a e : 0 < a → exact_int a → e < 0 → dle (of_int a) (Fin 1 e) = false.
Proof.
  intros Ha Hex He. destruct (of_int_fin a) as (m & f & E & Hf & Ea & _); [done|lia|].
  rewrite E. unfold dle. cbn [dcompare]. unfold compare_finite.
  rewrite Z.min_r, Z.sub_diag by lia.
  rewrite (proj2 (Z.compare_gt_iff _ _)); [done|].
  assert (0 < 2 ^ f) by lia. rewrite Ea in Ha. replace (f - e) with (f + - e) by lia.
  rewrite Z.pow_add_r by lia. assert (2 ≤ 2 ^ (- e)).
  { change 2 with (2 ^ 1) at 1. apply Z.pow_le_mono_r; lia. }
  nia.
Qed.

Lemma fabs_int a : exact_int a → fabs (of_int a) = of_int (Z.abs a).
Proof.
  intros Ha. destruct (decide (a = 0)) as [->|Ha0]; [done|].
  pose proof Ha as Ha'. unfold exact_int in Ha'.
  rewrite (of_int_canon (Z.abs a)) by (unfold exact_int; lia).
  rewrite of_int_canon by done.
  destruct a as [|p|p]; [done| |]; unfold Z.abs, canon;
    destruct (strip p 0) as [q e]; done.
Qed.

Lemma dsub_self a : exact_int a → fabs (dsub (of_int a) (of_int a)) = Zero false.
Proof.
  intros Ha. destruct (decide (a = 0)) as [->|Ha0]; [done|].
  destruct (of_int_fin a Ha Ha0) as (m & e & E & _). rewrite E. unfold dsub. cbn [dneg dadd].
  rewrite Z.min_id, Z.sub_diag. by replace (m * 2 ^ 0 + - m * 2 ^ 0) with 0 by lia.
Qed.

Lemma dfloor_int a : exact_int a → dfloor (of_int a) = of_int a.
Proof.
  intros Ha. destruct (decide (a = 0)) as [->|Ha0]; [done|].
  destruct (of_int_fin a Ha Ha0) as (m & e & E & He & _). rewrite E. cbn [dfloor].
  by rewrite (proj2 (Z.leb_le _ _)) by lia.
Qed.

Lemma trunc_int a : exact_int a → trunc (of_int a) = Some a.
Proof.
  intros Ha. destruct (decide (a = 0)) as [->|Ha0]; [done|].
  destruct (of_int_fin a Ha Ha0) as (m & e & E & He & Ev & _). rewrite E. cbn [trunc].
  rewrite (proj2 (Z.leb_le _ _)) by lia. by rewrite <- Ev.
Qed.

Lemma to_int_int overflow a : INT_MIN ≤ a ≤ INT_MAX → to_int overflow (of_int a) = a.
Proof.
  intros Ha. unfold to_int. rewrite trunc_int by (unfold exact_int, INT_MIN, INT_MAX in *; lia).
  by rewrite (proj2 (Z.leb_le _ _)), (proj2 (Z.leb_le _ _)) by lia.
Qed.

(** ** Digits *)

(** The number that a list of digits spells. *)
Definition number (ds : bytes) (n : Z) : Z := foldl (λ n c, n * 10 + (c - 48)) n ds.
Definition is_digit (c : Z) : Prop := 48 ≤ c ≤ 57.

Lemma digits_aux_spec fuel n acc : 0 ≤ n < 10 ^ Z.of_nat fuel → (0 < fuel)%nat →
  ∃ ds, digits_aux fuel n acc = ds ++ acc ∧ Forall is_digit ds ∧
    (∀ k, number ds k = k * 10 ^ Z.of_nat (length ds) + n) ∧
    (10 ^ Z.of_nat (length ds) ≤ 10 * Z.max 1 n) ∧ (0 < length ds)%nat ∧
    (n ≠ 0 → head ds ≠ Some 48).
Proof.
  revert n acc. induction fuel as [|fuel IH]; intros n acc Hn Hf; [lia|]. cbn [digits_aux].
  pose proof (Z.mod_pos_bound n 10 ltac:(lia)) as Hm.
  destruct (Z.ltb_spec n 10) as [Hs|Hs].
  - exists [48 + n]. rewrite Z.mod_small by lia. split_and!; [done| | | | |].
    + constructor; [unfold is_digit; lia|done].
    + intros k. cbn. lia.
    + cbn. lia.
    + cbn. lia.
    + cbn. intros ? [= ?]. lia.
  - destruct fuel as [|fuel]; [simpl in Hn; lia|].
    assert (0 ≤ n / 10 < 10 ^ Z.of_nat (S fuel)) as Hd.
    { rewrite Nat2Z.inj_succ, Z.pow_succ_r in Hn by lia. split; [apply Z.div_pos; lia|].
      apply Z.div_lt_upper_bound; lia. }
    destruct (IH (n / 10) ((48 + n mod 10) :: acc) Hd ltac:(lia))
      as (ds & E & Hds & Hnum & Hlen & Hpos & Hhd).
    pose proof (Z.div_mod n 10 ltac:(lia)) as Hdm.
    assert (1 ≤ n / 10) by (apply Z.div_le_lower_bound; lia).
    exists (ds ++ [48 + n mod 10]). rewrite E, <- app_assoc. split_and!; [done| | | | |].
    + apply Forall_app_2; [done|]. constructor; [unfold is_digit; lia|done].
    + intros k. unfold number in *. rewrite foldl_app, Hnum. cbn.
      rewrite length_app, Nat2Z.inj_add, Z.pow_add_r by lia. cbn. lia.
    + rewrite length_app, Nat2Z.inj_add, Z.pow_add_r by lia. cbn. lia.
    + rewrite length_app. lia.
    + intros _. destruct ds as [|d ds]; [cbn in Hpos; lia|]. cbn in *. apply Hhd. lia.
Qed.

Lemma digits_spec n : 0 ≤ n →
  Forall is_digit (digits n) ∧ number (digits n) 0 = n ∧ (0 < length (digits n))%nat ∧
  10 ^ Z.of_nat (length (digits n)) ≤ 10 * Z.max 1 n ∧ (n ≠ 0 → head (digits n) ≠ Some 48).
Proof.
  intros Hn. unfold digits.
  destruct (digits_aux_spec (S (Z.to_nat (Z.log2 n))) n []) as (ds & E & H1 & H2 & H3 & H4 & H5); [|lia|].
  - split; [done|]. rewrite Nat2Z.inj_succ, Z2Nat.id by apply Z.log2_nonneg.
    destruct (decide (n = 0)) as [->|]; [done|].
    apply Z.lt_le_trans with (2 ^ Z.succ (Z.log2 n)); [apply Z.log2_spec; lia|].
    apply Z.pow_le_mono_l. lia.
  - rewrite E, app_nil_r, H2. by split_and!.
Qed.

(** The digits of a positive number of fewer than 54 bits. *)
Lemma length_digits n : 0 ≤ n < 10 ^ 60 → (length (digits n) ≤ 61)%nat.
Proof.
  intros Hn. destruct (digits_spec n) as (_ & _ & _ & Hl & _); [lia|].
  assert (10 ^ Z.of_nat (length (digits n)) < 10 ^ 62) as H by lia.
  apply Z.pow_lt_mono_r_iff in H; lia.
Qed.

(** "%.0f" of an integer. *)
Lemma print_f0_int z : exact_int z → print_f0 (of_int z) = print_d z.
Proof.
  intros Hz. destruct (decide (z = 0)) as [->|Hz0]; [done|].
  destruct (of_int_fin z Hz Hz0) as (m & e & E & He & Ev & Hm & _). rewrite E.
  unfold print_f0, print_d, scaled. cbn [print_special].
  assert (0 < 2 ^ e) by lia.
  replace (m <? 0) with (z <? 0) by (destruct (Z.ltb_spec z 0), (Z.ltb_spec m 0); first [done|nia]).
  do 2 f_equal. rewrite (Z.max_l e), (Z.max_r (- e)) by lia. cbn [Z.max Z.compare Z.opp].
  rewrite !Z.pow_0_r, !Z.mul_1_r. unfold nearest_even. rewrite Z.mod_1_r, Z.div_1_r. simpl.
  rewrite Ev, Z.abs_mul, (Z.abs_eq (2 ^ e)) by lia. done.
Qed.
