(* ===== verification/Wire.v ===== *)
(** * Wire: the abstract wire format

    What a packed value looks like as a byte sequence, independently of the
    buffers that hold it.  [Packer] is proved to append these bytes and
    [Unpacker] to consume them. *)

From S2P Require Import Prelude Bytes.

(** ** The 2- or 3-byte length prefix

    Values below 0x8000 take two bytes; above, the low 15 bits are stored with
    bit 15 set and the next 8 bits follow in a third byte. *)

Definition var_enc (v : Z) : bytes :=
  if v <? 0x8000 then le_bytes 2 v
  else le_bytes 2 (Z.lor (Z.land v 0x7FFF) 0x8000) ++ [u8 (Z.shiftr v 15)].

Definition var_size (v : Z) : Z := if v <? 0x8000 then 2 else 3.

(** A length-prefixed byte string. *)
Definition str_enc (s : bytes) : bytes := var_enc (Z.of_nat (length s)) ++ s.

Lemma length_var_enc v : Z.of_nat (length (var_enc v)) = var_size v.
Proof.
  unfold var_enc, var_size. case_match; [by rewrite length_le_bytes|].
  by rewrite length_app, length_le_bytes.
Qed.

Lemma var_size_bound v : 2 ≤ var_size v ≤ 3.
Proof. unfold var_size. case_match; lia. Qed.

Lemma var_enc_ok v : bytes_ok (var_enc v).
Proof.
  unfold var_enc. case_match; [apply le_bytes_ok|].
  apply Forall_app_2; [apply le_bytes_ok|]. constructor; [|done]. apply u8_bound.
Qed.

Lemma length_str_enc s :
  Z.of_nat (length (str_enc s)) =
    var_size (Z.of_nat (length s)) + Z.of_nat (length s).
Proof.
  unfold str_enc. by rewrite length_app, Nat2Z.inj_add, length_var_enc.
Qed.

(** ** Decoding arithmetic of the long form *)

Lemma long_low_bound v : 0 ≤ Z.lor (Z.land v 0x7FFF) 0x8000 < 2 ^ 16.
Proof.
  pose proof (Z.mod_pos_bound v (2 ^ 15)).
  change 0x7FFF with (2 ^ 15 - 1). rewrite land_low by lia.
  change 0x8000 with (Z.shiftl 1 15). rewrite lor_shiftl_add; lia.
Qed.

Lemma long_low v :
  le_val (le_bytes 2 (Z.lor (Z.land v 0x7FFF) 0x8000)) = v mod 2 ^ 15 + 2 ^ 15.
Proof.
  pose proof (Z.mod_pos_bound v (2 ^ 15)).
  change 0x7FFF with (2 ^ 15 - 1). rewrite land_low by lia.
  change 0x8000 with (Z.shiftl 1 15).
  rewrite lor_shiftl_add by lia.
  rewrite le_val_le_bytes_small; lia.
Qed.

Lemma long_value lo hi :
  2 ^ 15 ≤ lo < 2 ^ 16 → 0 ≤ hi < 2 ^ 8 →
  u32 (u32 (Z.shiftl hi 15) + Z.land lo 0x7FFF) = hi * 2 ^ 15 + lo mod 2 ^ 15.
Proof.
  intros Hlo Hhi. pose proof (Z.mod_pos_bound lo (2 ^ 15)).
  change 0x7FFF with (2 ^ 15 - 1). rewrite land_low by lia.
  rewrite Z.shiftl_mul_pow2 by lia.
  rewrite (u32_small (hi * 2 ^ 15)) by lia. width.
Qed.

Lemma long_parts v :
  u8 (Z.shiftr v 15) * 2 ^ 15 + v mod 2 ^ 15 = v mod 2 ^ 23.
Proof.
  unfold u8. rewrite Z.shiftr_div_pow2 by lia.
  change (2 ^ 23) with (2 ^ (15 + 8)).
  rewrite (mod_pow_split v 15 8) by lia. lia.
Qed.

(** ** Frames

    A frame is a body behind a length prefix that counts the whole frame,
    prefix included. *)

Definition frame_len (body : bytes) : Z :=
  let n := Z.of_nat (length body) in
  if 0x7FFE <=? n then n + 3 else n + 2.

Definition frame (body : bytes) : bytes := var_enc (frame_len body) ++ body.

Lemma frame_len_size body :
  frame_len body = var_size (frame_len body) + Z.of_nat (length body).
Proof.
  unfold frame_len, var_size. repeat case_match; lia.
Qed.

Lemma length_frame body : Z.of_nat (length (frame body)) = frame_len body.
Proof.
  unfold frame. rewrite length_app, Nat2Z.inj_add, length_var_enc.
  symmetry. apply frame_len_size.
Qed.

Lemma frame_len_bound body :
  2 ≤ frame_len body ≤ Z.of_nat (length body) + 3.
Proof. unfold frame_len. case_match; lia. Qed.

Lemma frame_ok body : bytes_ok body → bytes_ok (frame body).
Proof. intros. apply Forall_app_2; [apply var_enc_ok|done]. Qed.
