(* ===== verification/MemBuf.v ===== *)
(** * MemBuf: the raw buffers of memory/mem_buf.h and mem_buf.cpp

    A [MemBuf] is a header (reference count, capacity) followed by [capacity]
    bytes obtained from [malloc].  A byte that was never written is [None].
    [malloc] is taken to succeed: the source never tests its result. *)

From S2P Require Import Prelude Bytes.

Abbreviation cell := (option Z).

Record MemBuf := mkMemBuf {
  ref_cnt_ : Z;          (* std::atomic<int32_t> *)
  capacity_ : Z;         (* uint32_t *)
  mem : list cell;       (* the bytes from Begin() to End() *)
}.

Definition kDefaultPacketSize : Z := 2000.

(** [MemBuf::Create(capacity)]. *)
Definition Create (capacity : Z) : MemBuf :=
  mkMemBuf 0 capacity (replicate (Z.to_nat capacity) None).

(** [MemBuf::Create(buf, size, capacity)]: [size] bytes of [buf] are copied. *)
Definition Create_sized (buf : list cell) (size capacity : Z) : result MemBuf :=
  _ ← assert_ (size <=? capacity);
  src ← read_at 0 (Z.to_nat (Z.min size capacity)) buf;
  Ok (mkMemBuf 0 capacity
        (splice 0 src (replicate (Z.to_nat capacity) None))).

(** [MemBuf::Create(buf, capacity)]. *)
Definition Create_copy (buf : list cell) (capacity : Z) : result MemBuf :=
  src ← read_at 0 (Z.to_nat capacity) buf;
  Ok (mkMemBuf 0 capacity src).

Definition RefCount (b : MemBuf) : Z := ref_cnt_ b.
Definition Capacity (b : MemBuf) : Z := capacity_ b.

(** [ref_cnt_.fetch_add(1)]. *)
Definition AddRef (b : MemBuf) : MemBuf :=
  mkMemBuf (i32 (ref_cnt_ b + 1)) (capacity_ b) (mem b).

(** [ref_cnt_.fetch_sub(1) <= 1] frees the buffer: [None]. *)
Definition Release (b : MemBuf) : option MemBuf :=
  if ref_cnt_ b <=? 1 then None
  else Some (mkMemBuf (i32 (ref_cnt_ b - 1)) (capacity_ b) (mem b)).

(** A fresh buffer of the same capacity holding the same bytes. *)
Definition Clone (b : MemBuf) : result MemBuf :=
  src ← read_at 0 (Z.to_nat (capacity_ b)) (mem b);
  Ok (mkMemBuf 0 (capacity_ b) src).

(** The layout invariant: the block has exactly [capacity_] bytes. *)
Definition wf (b : MemBuf) : Prop :=
  0 ≤ capacity_ b < 2 ^ 32 ∧ length (mem b) = Z.to_nat (capacity_ b).

Lemma Create_wf capacity : 0 ≤ capacity < 2 ^ 32 → wf (Create capacity).
Proof. intros. split; [done|]. simpl. by rewrite length_replicate. Qed.

(** Growing a buffer keeps its first [size] bytes. *)
Lemma Create_sized_ok buf size capacity :
  0 ≤ size ≤ capacity → capacity < 2 ^ 32 → (Z.to_nat size ≤ length buf)%nat →
  ∃ b, Create_sized buf size capacity = Ok b ∧ wf b ∧ capacity_ b = capacity ∧
       ref_cnt_ b = 0 ∧
       take (Z.to_nat size) (mem b) = take (Z.to_nat size) buf.
Proof.
  intros Hs Hc Hb. unfold Create_sized, assert_.
  rewrite (proj2 (Z.leb_le _ _)) by lia. rewrite bind_ok.
  rewrite Z.min_l, read_at_ok, bind_ok by lia. rewrite drop_0.
  eexists; split; [done|]. unfold wf; simpl.
  set (src := take (Z.to_nat size) buf).
  assert (length src = Z.to_nat size) as Hl by (unfold src; rewrite length_take; lia).
  rewrite length_splice by (rewrite length_replicate; lia).
  rewrite length_replicate. repeat split; try lia.
  unfold splice. simpl. rewrite <- Hl. by rewrite take_app_length.
Qed.

Lemma Clone_ok b : wf b →
  Clone b = Ok (mkMemBuf 0 (capacity_ b) (mem b)).
Proof.
  intros [? Hl]. unfold Clone. rewrite read_at_ok by lia.
  rewrite bind_ok, drop_0, take_ge by lia. done.
Qed.

Lemma AddRef_wf b : wf b → wf (AddRef b).
Proof. done. Qed.

Lemma Release_wf b b' : wf b → Release b = Some b' → wf b'.
Proof. unfold Release. intros ?. case_match; intros; simplify_eq. done. Qed.
