(* ===== verification/Unpacker.v ===== *)
(** * Unpacker: base/unpacker.h and base/unpacker.cpp

    A cursor over a received buffer.  [CheckSize] only writes a diagnostic to
    [std::cerr] (its [throw] is commented out in the source), so every [Pop]
    goes on to read the buffer: reading past its end is [Err OutOfBounds].
    [buffer_] is the addressable memory at the pointer given to the
    constructor; [cerr_] counts the diagnostics. *)

From S2P Require Import Prelude Bytes Wire.

Record Unpacker := mkUnpacker {
  copy_ : bool;
  length_ : Z;           (* uint32_t *)
  buffer_ : bytes;
  position_ : Z;         (* uint32_t *)
  cerr_ : nat;
}.

Definition set_position (pos : Z) (u : Unpacker) : Unpacker :=
  mkUnpacker (copy_ u) (length_ u) (buffer_ u) pos (cerr_ u).

(** [void Unpacker::CheckSize(more, position) const]. *)
Definition CheckSize (more position : Z) (u : Unpacker) : Unpacker :=
  if length_ u <? u32 (position + more)
  then mkUnpacker (copy_ u) (length_ u) (buffer_ u) (position_ u) (S (cerr_ u))
  else u.

(** [memcpy(.., buffer_ + position, n)]. *)
Definition fetch (position n : Z) (u : Unpacker) : result bytes :=
  read_at (Z.to_nat position) (Z.to_nat n) (buffer_ u).

(** [position_ += n]. *)
Definition advance (n : Z) (u : Unpacker) : Unpacker :=
  set_position (u32 (position_ u + n)) u.

Definition PopVariableUint32 (u : Unpacker) : result (Z * Unpacker) :=
  let u := CheckSize 2 (position_ u) u in
  lo ← fetch (position_ u) 2 u;
  let pos := le_val lo in
  if pos <? 0x8000 then Ok (pos, advance 2 u)
  else
    let u := CheckSize 3 (position_ u) u in
    hi ← fetch (position_ u + 2) 1 u;
    let v := u32 (u32 (Z.shiftl (le_val hi) 15) + Z.land pos 0x7FFF) in
    Ok (v, advance 3 u).

(** The fixed-width pops: check, copy, advance. *)
Definition PopUint8 (u : Unpacker) : result (Z * Unpacker) :=
  let u := CheckSize 1 (position_ u) u in
  bs ← fetch (position_ u) 1 u;
  Ok (le_val bs, advance 1 u).

Definition PopUint16 (u : Unpacker) : result (Z * Unpacker) :=
  let u := CheckSize 2 (position_ u) u in
  bs ← fetch (position_ u) 2 u;
  Ok (le_val bs, advance 2 u).

Definition PopUint32 (u : Unpacker) : result (Z * Unpacker) :=
  let u := CheckSize 4 (position_ u) u in
  bs ← fetch (position_ u) 4 u;
  Ok (le_val bs, advance 4 u).

Definition PopUint64 (u : Unpacker) : result (Z * Unpacker) :=
  let u := CheckSize 8 (position_ u) u in
  bs ← fetch (position_ u) 8 u;
  Ok (le_val bs, advance 8 u).

(** A [double] is represented by its 64-bit image. *)
Definition PopDouble (u : Unpacker) : result (Z * Unpacker) :=
  let u := CheckSize 8 (position_ u) u in
  bs ← fetch (position_ u) 8 u;
  Ok (le_val bs, advance 8 u).

(** A [bool] object holding a byte other than 0 and 1 has no value. *)
Definition PopBoolean (u : Unpacker) : result (bool * Unpacker) :=
  let u := CheckSize 1 (position_ u) u in
  bs ← fetch (position_ u) 1 u;
  match le_val bs with
  | 0 => Ok (false, advance 1 u)
  | 1 => Ok (true, advance 1 u)
  | _ => Err TrapValue
  end.

Definition PopString (u : Unpacker) : result (bytes * Unpacker) :=
  '(length, u) ← PopVariableUint32 u;
  let u := CheckSize length (position_ u) u in
  s ← fetch (position_ u) length u;
  Ok (s, advance length u).

Definition PopBuffer (u : Unpacker) : result (bytes * Unpacker) :=
  '(length, u) ← PopVariableUint32 u;
  let u := CheckSize length (position_ u) u in
  s ← fetch (position_ u) length u;
  Ok (s, advance length u).

(** [PopBinary(buf, length)]: [length] is a [size_t]. *)
Definition PopBinary (length : Z) (u : Unpacker) : result (bytes * Unpacker) :=
  let u := CheckSize (u32 length) (position_ u) u in
  s ← fetch (position_ u) length u;
  Ok (s, advance length u).

Definition Rewind (u : Unpacker) : result Unpacker :=
  '(_, u) ← PopVariableUint32 (set_position 0 u);
  Ok u.

Definition Reset (u : Unpacker) : Unpacker := set_position 0 u.

Definition Buffer (u : Unpacker) : bytes := buffer_ u.
Definition Length (u : Unpacker) : Z := length_ u.

(** [Unpacker::Initialize]: take a copy when asked to, then read the length
    prefix. *)
Definition Initialize (u : Unpacker) : result Unpacker :=
  u ← (if copy_ u then
         temp ← read_at 0 (Z.to_nat (length_ u)) (buffer_ u);
         Ok (mkUnpacker (copy_ u) (length_ u) temp (position_ u) (cerr_ u))
       else Ok u);
  '(_, u) ← PopVariableUint32 u;
  Ok u.

(** [Unpacker::Unpacker(buf, len, copy)]. *)
Definition make (buf : bytes) (len : Z) (copy : bool) : result Unpacker :=
  Initialize (mkUnpacker copy len buf 0 0).

(** ** The unread part of the buffer *)

(** [view u rest]: the cursor stands before [rest], the rest of a buffer whose
    size is the declared length. *)
Definition view (u : Unpacker) (rest : bytes) : Prop :=
  length_ u = Z.of_nat (length (buffer_ u)) ∧ length_ u < 2 ^ 32 ∧
  0 ≤ position_ u ≤ length_ u ∧
  drop (Z.to_nat (position_ u)) (buffer_ u) = rest.

Lemma view_length u rest :
  view u rest → position_ u + Z.of_nat (length rest) = length_ u.
Proof. intros (? & ? & ? & <-). rewrite length_drop. lia. Qed.

(** Inside the buffer [CheckSize] says nothing. *)
Lemma CheckSize_silent more u rest :
  view u rest → 0 ≤ more ≤ Z.of_nat (length rest) →
  CheckSize more (position_ u) u = u.
Proof.
  intros Hv Hm. pose proof (view_length _ _ Hv). destruct Hv as (? & ? & ? & ?).
  unfold CheckSize. rewrite u32_small by lia.
  by rewrite (proj2 (Z.ltb_ge _ _)) by lia.
Qed.

Lemma fetch_view off n u rest :
  view u rest → 0 ≤ off → 0 ≤ n → off + n ≤ Z.of_nat (length rest) →
  fetch (position_ u + off) n u = Ok (take (Z.to_nat n) (drop (Z.to_nat off) rest)).
Proof.
  intros Hv Ho Hn Hl. pose proof (view_length _ _ Hv).
  destruct Hv as (? & ? & ? & <-). rewrite length_drop in *.
  unfold fetch. rewrite read_at_ok by lia. rewrite drop_drop.
  do 3 f_equal. lia.
Qed.

Lemma fetch_view0 n u rest :
  view u rest → 0 ≤ n ≤ Z.of_nat (length rest) →
  fetch (position_ u) n u = Ok (take (Z.to_nat n) rest).
Proof.
  intros. rewrite <- (Z.add_0_r (position_ u)).
  by rewrite (fetch_view 0 n u rest) by (done || lia).
Qed.

Lemma fetch_oob n u rest :
  view u rest → Z.of_nat (length rest) < n →
  fetch (position_ u) n u = Err OutOfBounds.
Proof.
  intros Hv Hn. pose proof (view_length _ _ Hv). destruct Hv as (? & ? & ? & ?).
  unfold fetch, read_at. rewrite decide_False; [done|]. lia.
Qed.

Lemma advance_view n u rest :
  view u rest → 0 ≤ n ≤ Z.of_nat (length rest) →
  view (advance n u) (drop (Z.to_nat n) rest).
Proof.
  intros Hv Hn. pose proof (view_length _ _ Hv). destruct Hv as (? & ? & ? & <-).
  unfold advance, view; simpl. rewrite u32_small by lia.
  repeat split; try lia. rewrite drop_drop. f_equal. lia.
Qed.

Lemma advance_view_app n u xs rest :
  view u (xs ++ rest) → n = Z.of_nat (length xs) → view (advance n u) rest.
Proof.
  intros Hv ->.
  assert (drop (Z.to_nat (Z.of_nat (length xs))) (xs ++ rest) = rest) as <-.
  { rewrite Nat2Z.id. apply drop_app_length. }
  apply advance_view; [done|]. rewrite length_app. lia.
Qed.

(** What a pop leaves behind: the cursor [n] bytes further, nothing else. *)
Definition popped {A} (r : result (A * Unpacker)) (u : Unpacker) (a : A) (n : Z) :=
  r = Ok (a, advance n u).

Section pops.
Context (u : Unpacker) (xs rest : bytes) (Hv : view u (xs ++ rest)).

Lemma pop_prefix n :
  n = Z.of_nat (length xs) →
  CheckSize n (position_ u) u = u ∧
  fetch (position_ u) n u = Ok xs ∧ view (advance n u) rest.
Proof using Hv.
  intros ->. split_and!.
  - eapply CheckSize_silent; [done|]. rewrite length_app. lia.
  - erewrite fetch_view0 by (done || (rewrite length_app; lia)).
    by rewrite Nat2Z.id, take_app_length.
  - by eapply advance_view_app.
Qed.

Ltac pop_fixed n :=
  destruct (pop_prefix n) as (HC & HF & HV); [lia|];
  cbv zeta; rewrite HC, HF, bind_ok; eauto.

Lemma PopUint8_view :
  length xs = 1%nat →
  popped (PopUint8 u) u (le_val xs) 1 ∧ view (advance 1 u) rest.
Proof using Hv. intros Hl. unfold PopUint8, popped. pop_fixed 1. Qed.

Lemma PopUint16_view :
  length xs = 2%nat →
  popped (PopUint16 u) u (le_val xs) 2 ∧ view (advance 2 u) rest.
Proof using Hv. intros Hl. unfold PopUint16, popped. pop_fixed 2. Qed.

Lemma PopUint32_view :
  length xs = 4%nat →
  popped (PopUint32 u) u (le_val xs) 4 ∧ view (advance 4 u) rest.
Proof using Hv. intros Hl. unfold PopUint32, popped. pop_fixed 4. Qed.

Lemma PopUint64_view :
  length xs = 8%nat →
  popped (PopUint64 u) u (le_val xs) 8 ∧ view (advance 8 u) rest.
Proof using Hv. intros Hl. unfold PopUint64, popped. pop_fixed 8. Qed.

Lemma PopDouble_view :
  length xs = 8%nat →
  popped (PopDouble u) u (le_val xs) 8 ∧ view (advance 8 u) rest.
Proof using Hv. intros Hl. unfold PopDouble, popped. pop_fixed 8. Qed.

Lemma PopBoolean_view (b : bool) :
  xs = [Z.b2z b] →
  popped (PopBoolean u) u b 1 ∧ view (advance 1 u) rest.
Proof using Hv.
  intros Hx. unfold PopBoolean, popped.
  destruct (pop_prefix 1) as (HC & HF & HV); [by rewrite Hx|].
  cbv zeta. rewrite HC, HF, bind_ok, Hx. destruct b; eauto.
Qed.

Lemma PopBinary_view :
  popped (PopBinary (Z.of_nat (length xs)) u) u xs (Z.of_nat (length xs)) ∧
  view (advance (Z.of_nat (length xs)) u) rest.
Proof using Hv.
  pose proof (view_length _ _ Hv) as Hl. rewrite length_app in Hl.
  assert (0 ≤ position_ u ∧ length_ u < 2 ^ 32) as [??]
    by (destruct Hv as (?&?&?&?); lia).
  unfold PopBinary, popped.
  destruct (pop_prefix (Z.of_nat (length xs))) as (HC & HF & HV); [lia|].
  cbv zeta. rewrite u32_small by lia. rewrite HC, HF, bind_ok; eauto.
Qed.
End pops.

(** ** The variable-length integer and the strings *)

(** Reading a packed [v] gives [v] reduced to 23 bits, the capacity of the
    prefix, and consumes exactly the prefix. *)
Lemma PopVariableUint32_view u v rest :
  0 ≤ v → view u (var_enc v ++ rest) →
  popped (PopVariableUint32 u) u (v mod 2 ^ 23) (var_size v) ∧
  view (advance (var_size v) u) rest.
Proof.
  intros Hpos Hv. split; cycle 1.
  { eapply advance_view_app; [done|]. by rewrite length_var_enc. }
  pose proof (length_var_enc v) as Hlen. unfold var_size, var_enc in *.
  pose proof (view_length _ _ Hv) as Hl.
  unfold PopVariableUint32, popped. destruct (Z.ltb_spec v 0x8000) as [Hs|Hs].
  - destruct (pop_prefix u _ rest Hv 2) as (HC & HF & _); [lia|].
    rewrite HC. cbv zeta. rewrite HF, bind_ok.
    rewrite le_val_le_bytes_small by lia.
    rewrite (proj2 (Z.ltb_lt _ _)) by lia.
    by rewrite Z.mod_small by lia.
  - rewrite (CheckSize_silent 2 u _ Hv) by (rewrite length_app; lia).
    cbv zeta. rewrite <- app_assoc in Hv.
    destruct (pop_prefix u _ _ Hv 2) as (_ & HF & _); [by rewrite length_le_bytes|].
    rewrite HF, bind_ok, long_low.
    pose proof (Z.mod_pos_bound v (2 ^ 15)).
    rewrite (proj2 (Z.ltb_ge _ _)) by lia.
    rewrite (CheckSize_silent 3 u _ Hv)
      by (rewrite !length_app, length_le_bytes; simpl; lia).
    erewrite (fetch_view 2 1) by
      (done || lia || (rewrite !length_app, length_le_bytes; simpl; lia)).
    rewrite drop_app_length' by (by rewrite length_le_bytes).
    simpl take. rewrite bind_ok. cbn [le_val].
    pose proof (u8_bound (Z.shiftr v 15)).
    rewrite Z.add_0_r, long_value by lia.
    do 2 f_equal. rewrite <- long_parts.
    replace (v mod 2 ^ 15 + 2 ^ 15) with (v mod 2 ^ 15 + 1 * 2 ^ 15) by lia.
    rewrite Z.mod_add by lia. by rewrite Z.mod_mod by lia.
Qed.

Lemma PopVariableUint32_small u v rest :
  0 ≤ v < 2 ^ 23 → view u (var_enc v ++ rest) →
  popped (PopVariableUint32 u) u v (var_size v) ∧ view (advance (var_size v) u) rest.
Proof.
  intros ? Hv. destruct (PopVariableUint32_view u v rest) as [HP ?]; [lia|done|].
  by rewrite Z.mod_small in HP by lia.
Qed.

Lemma advance_advance a b u rest :
  view u rest → 0 ≤ a → 0 ≤ b → a + b ≤ Z.of_nat (length rest) →
  advance b (advance a u) = advance (a + b) u.
Proof.
  intros Hv. pose proof (view_length _ _ Hv). destruct Hv as (? & ? & ? & ?).
  intros. unfold advance, set_position; simpl. f_equal.
  rewrite (u32_small (position_ u + a)), !u32_small by lia. lia.
Qed.

Lemma PopString_view u s rest :
  Z.of_nat (length s) < 2 ^ 23 → view u (str_enc s ++ rest) →
  popped (PopString u) u s (Z.of_nat (length (str_enc s))) ∧
  view (advance (Z.of_nat (length (str_enc s))) u) rest.
Proof.
  intros Hs Hv. split; cycle 1. { by eapply advance_view_app. }
  pose proof Hv as Hv0. unfold str_enc in Hv. rewrite <- app_assoc in Hv.
  destruct (PopVariableUint32_small u _ _ (conj (Nat2Z.is_nonneg _) Hs) Hv)
    as [HP HV].
  unfold popped, PopString in *. rewrite HP, bind_ok.
  destruct (pop_prefix _ _ _ HV (Z.of_nat (length s)) eq_refl) as (HC & HF & _).
  cbv zeta. rewrite HC, HF, bind_ok.
  pose proof (var_size_bound (Z.of_nat (length s))).
  rewrite (advance_advance _ _ _ _ Hv0); rewrite ?length_str_enc; try lia; try done.
  rewrite length_app, Nat2Z.inj_add, length_str_enc. lia.
Qed.

(** [PopBuffer] is [PopString] at another C++ type. *)
Lemma PopBuffer_PopString u : PopBuffer u = PopString u.
Proof. reflexivity. Qed.

(** ** Opening a received frame *)

Lemma make_view buf copy :
  Z.of_nat (length buf) < 2 ^ 32 →
  make buf (Z.of_nat (length buf)) copy =
    ('(_, u) ← PopVariableUint32
       (mkUnpacker copy (Z.of_nat (length buf)) buf 0 0); Ok u).
Proof.
  intros Hl. unfold make, Initialize. cbn [copy_ length_ buffer_ position_ cerr_].
  destruct copy; [|done]. rewrite Nat2Z.id. rewrite read_at_ok by lia.
  rewrite bind_ok, drop_0, take_ge by lia. done.
Qed.

(** [opened u body]: the cursor is on the body of a frame, right after its
    prefix, and no diagnostic was written. *)
Definition opened (u : Unpacker) (body : bytes) : Prop :=
  view u body ∧ buffer_ u = frame body ∧ cerr_ u = 0%nat ∧
  position_ u = var_size (frame_len body).

(** The unpacker of a received frame. *)
Definition opened_unpacker (copy : bool) (body : bytes) : Unpacker :=
  mkUnpacker copy (frame_len body) (frame body) (var_size (frame_len body)) 0.

Lemma opened_unpacker_opened copy body :
  frame_len body < 2 ^ 23 → opened (opened_unpacker copy body) body.
Proof.
  intros Hl. pose proof (frame_len_bound body). pose proof (length_frame body) as Hf.
  pose proof (frame_len_size body). pose proof (var_size_bound (frame_len body)).
  unfold opened, view, opened_unpacker; simpl. split_and!; try done; try lia.
  unfold frame. apply drop_app_length'.
  pose proof (length_var_enc (frame_len body)). lia.
Qed.

Lemma make_frame body copy :
  frame_len body < 2 ^ 23 →
  make (frame body) (frame_len body) copy = Ok (opened_unpacker copy body).
Proof.
  intros Hl. pose proof (frame_len_bound body). pose proof (length_frame body) as Hf.
  pose proof (var_size_bound (frame_len body)).
  rewrite <- Hf, make_view by lia. rewrite Hf.
  set (u0 := mkUnpacker copy _ _ _ _).
  assert (view u0 (var_enc (frame_len body) ++ body)) as Hv.
  { unfold view; simpl. split_and!; lia || done. }
  destruct (PopVariableUint32_small u0 (frame_len body) body) as [HP HV]; [lia|done|].
  unfold popped in HP. rewrite HP, bind_ok.
  unfold u0, advance, set_position, opened_unpacker. simpl. by rewrite u32_small by lia.
Qed.

Lemma make_opened body copy :
  frame_len body < 2 ^ 23 →
  ∃ u, make (frame body) (frame_len body) copy = Ok u ∧ opened u body.
Proof.
  intros Hl. eexists. split; [by apply make_frame|]. by apply opened_unpacker_opened.
Qed.

(** [Rewind] comes back to the start of the body from anywhere. *)
Lemma Rewind_opened u body n :
  opened u body → frame_len body < 2 ^ 23 →
  Rewind (set_position n u) = Ok u.
Proof.
  intros (Hv & Hb & Hc & Hp) Hl. destruct Hv as (Hlen & H32 & Hpos & Hd).
  pose proof (frame_len_bound body). pose proof (length_frame body) as Hf.
  pose proof (var_size_bound (frame_len body)).
  unfold Rewind. set (u0 := set_position 0 (set_position n u)).
  assert (view u0 (var_enc (frame_len body) ++ body)) as Hv.
  { unfold view; simpl. rewrite Hb in *. split_and!; try lia. done. }
  destruct (PopVariableUint32_small u0 (frame_len body) body) as [HP HV]; [lia|done|].
  unfold popped in HP. rewrite HP, bind_ok. do 1 f_equal.
  unfold advance, set_position, u0; simpl. rewrite u32_small by lia.
  rewrite <- Hp. by destruct u.
Qed.

(** ** Properties *)

(** truncated input is not rejected.  When fewer bytes are left than a
    fixed-width pop needs, [CheckSize] only writes its diagnostic and the pop
    goes on to read beyond the received buffer. *)
Theorem short_pops_read_out_of_bounds u rest :
  view u rest →
  (Z.of_nat (length rest) < 1 → PopUint8 u = Err OutOfBounds ∧ PopBoolean u = Err OutOfBounds) ∧
  (Z.of_nat (length rest) < 2 →
     PopUint16 u = Err OutOfBounds ∧ PopVariableUint32 u = Err OutOfBounds) ∧
  (Z.of_nat (length rest) < 4 → PopUint32 u = Err OutOfBounds) ∧
  (Z.of_nat (length rest) < 8 → PopUint64 u = Err OutOfBounds ∧ PopDouble u = Err OutOfBounds).
Proof.
  intros Hv.
  assert (∀ n m, Z.of_nat (length rest) < n →
    fetch (position_ (CheckSize m (position_ u) u)) n (CheckSize m (position_ u) u) =
      Err OutOfBounds) as HF.
  { intros n m Hn. unfold CheckSize. case_match; by apply (fetch_oob _ _ rest). }
  unfold PopUint8, PopBoolean, PopUint16, PopVariableUint32, PopUint32, PopUint64,
    PopDouble. cbv zeta. split_and!; intros Hn; rewrite !HF by done; done.
Qed.

Lemma short_pops_read_out_of_bounds_witness :
  PopUint32 (mkUnpacker false 5 [5; 0; 1; 2; 3] 2 0) = Err OutOfBounds.
Proof.
  apply (short_pops_read_out_of_bounds (mkUnpacker false 5 [5; 0; 1; 2; 3] 2 0) [1; 2; 3]);
    [|reflexivity].
  split; [reflexivity|]. split; [reflexivity|]. split; [split; discriminate|reflexivity].
Defined.

(** Opening a frame.  The constructor of [Unpacker], given a frame below
    2^23 bytes by reference or by copy, reads the prefix and stands on the
    body with no diagnostic, and [Rewind] comes back there from any position. *)
Theorem make_and_Rewind body copy n :
  frame_len body < 2 ^ 23 →
  ∃ u, make (frame body) (frame_len body) copy = Ok u ∧
    view u body ∧ cerr_ u = 0%nat ∧ Rewind (set_position n u) = Ok u.
Proof.
  intros Hl. destruct (make_opened body copy Hl) as (u & Hu & Ho).
  exists u. split_and!; [done|apply Ho..|by eapply Rewind_opened].
Qed.

Lemma make_and_Rewind_witness :
  ∃ u, make (frame [7]) (frame_len [7]) true = Ok u ∧
    view u [7] ∧ cerr_ u = 0%nat ∧ Rewind (set_position 3 u) = Ok u.
Proof. apply (make_and_Rewind [7] true 3). reflexivity. Defined.
