(* ===== verification/Packer.v ===== *)
(** * Packer: base/packer.h

    The growing output buffer.  Four bytes are kept free at the front for the
    length prefix, which [Pack] fills once the body is complete: three bytes at
    offset 1 for large packets, two bytes at offset 2 otherwise.  [mem_] is the
    [unique_ptr] to the buffer ([None] after [TakeBuffer]); [cerr_] counts the
    diagnostics of [CheckSize], whose [throw] is commented out. *)

From S2P Require Import Prelude Bytes Wire MemBuf.

(** [PacketLimit::kMaxPacketSize]. *)
Definition kMaxPacketSize : Z := 8 * 1024 * 1024 - 1024.
Definition kDefaultSize : Z := 1024.

Record Packer := mkPacker {
  mem_ : option MemBuf.MemBuf;
  length_ : Z;           (* uint32_t *)
  position_ : Z;         (* uint32_t *)
  cerr_ : nat;
}.

Definition set_mem (m : MemBuf.MemBuf) (p : Packer) : Packer :=
  mkPacker (Some m) (length_ p) (position_ p) (cerr_ p).
Definition set_length (n : Z) (p : Packer) : Packer :=
  mkPacker (mem_ p) n (position_ p) (cerr_ p).
Definition set_position (n : Z) (p : Packer) : Packer :=
  mkPacker (mem_ p) (length_ p) n (cerr_ p).
Definition complain (p : Packer) : Packer :=
  mkPacker (mem_ p) (length_ p) (position_ p) (S (cerr_ p)).

(** [*mem_]. *)
Definition deref (p : Packer) : result MemBuf.MemBuf :=
  match mem_ p with Some m => Ok m | None => Err NullDeref end.

(** [Packer::Packer(buffer_sz)]. *)
Definition make (buffer_sz : Z) : Packer :=
  mkPacker (Some (MemBuf.Create (Z.max 64 buffer_sz))) 0 4 0.

Definition CheckSize (more position : Z) (p : Packer) : result Packer :=
  let new_size := u32 (position + more) in
  let p := if kMaxPacketSize <=? new_size then complain p else p in
  m ← deref p;
  let old_cap := MemBuf.Capacity m in
  if old_cap <? new_size then
    let size := Z.max new_size (u32 (2 * old_cap)) in
    m' ← MemBuf.Create_sized (MemBuf.mem m) old_cap size;
    Ok (set_mem m' p)
  else Ok p.

(** [memcpy(Begin() + position, data, sizeof(data))]. *)
Definition poke (position : Z) (data : bytes) (p : Packer) : result Packer :=
  m ← deref p;
  cells ← write_at (Z.to_nat position) (Some <$> data) (MemBuf.mem m);
  Ok (set_mem (MemBuf.mkMemBuf (MemBuf.ref_cnt_ m) (MemBuf.capacity_ m) cells) p).

(** [memcpy(End(), data, n); position_ += n]. *)
Definition put (data : bytes) (p : Packer) : result Packer :=
  p ← poke (position_ p) data p;
  Ok (set_position (u32 (position_ p + Z.of_nat (length data))) p).

Definition WriteUint16 (val position : Z) (p : Packer) : result Packer :=
  p ← CheckSize 2 position p;
  poke position (le_bytes 2 val) p.

Definition WriteUint32 (val position : Z) (p : Packer) : result Packer :=
  p ← CheckSize 4 position p;
  poke position (le_bytes 4 val) p.

Definition PushUint8 (val : Z) (p : Packer) : result Packer :=
  p ← CheckSize 1 (position_ p) p;
  put (le_bytes 1 val) p.

Definition PushBoolean (val : bool) (p : Packer) : result Packer :=
  PushUint8 (Z.b2z val) p.

Definition PushUint16 (val : Z) (p : Packer) : result Packer :=
  p ← CheckSize 2 (position_ p) p;
  put (le_bytes 2 val) p.

Definition PushUint32 (val : Z) (p : Packer) : result Packer :=
  p ← CheckSize 4 (position_ p) p;
  put (le_bytes 4 val) p.

Definition PushUint64 (val : Z) (p : Packer) : result Packer :=
  p ← CheckSize 8 (position_ p) p;
  put (le_bytes 8 val) p.

(** A [double] is represented by its 64-bit image. *)
Definition PushDouble (val : Z) (p : Packer) : result Packer :=
  p ← CheckSize 8 (position_ p) p;
  put (le_bytes 8 val) p.

Definition VariableUint32Length (value : Z) : Z :=
  if value <? 0x8000 then 2 else 3.

(** Returns the size of the prefix. *)
Definition PushVariableUint32 (value : Z) (p : Packer) : result (Packer * Z) :=
  p ← CheckSize 3 (position_ p) p;
  if value <? 0x8000 then
    p ← poke (position_ p) (le_bytes 2 value) p;
    Ok (set_position (u32 (position_ p + 2)) p, 2)
  else
    let lower := u16 (Z.lor (Z.land value 0x7FFF) 0x8000) in
    p ← poke (position_ p) (le_bytes 2 lower) p;
    let upper := u8 (Z.shiftr value 15) in
    p ← poke (position_ p + 2) [upper] p;
    Ok (set_position (u32 (position_ p + 3)) p, 3).

Definition PushString (val : bytes) (p : Packer) : result Packer :=
  let length := u32 (Z.of_nat (length val)) in
  '(p, _) ← PushVariableUint32 length p;
  p ← CheckSize length (position_ p) p;
  if 0 <? length then put (take (Z.to_nat length) val) p else Ok p.

Definition PushBuffer (val : bytes) (p : Packer) : result Packer :=
  let length := u32 (Z.of_nat (length val)) in
  '(p, _) ← PushVariableUint32 length p;
  p ← CheckSize length (position_ p) p;
  if 0 <? length then put (take (Z.to_nat length) val) p else Ok p.

(** [PushBinary(data, length)] with [length] the size of the block [data]. *)
Definition PushBinary (data : bytes) (p : Packer) : result Packer :=
  p ← CheckSize (u32 (Z.of_nat (length data))) (position_ p) p;
  if 0 <? Z.of_nat (length data) then put data p else Ok p.

Definition Pack (p : Packer) : result Packer :=
  _ ← assert_ (position_ p <? kMaxPacketSize);
  let '(p, start) :=
    if 0x8002 <=? position_ p
    then (set_position 1 (set_length (position_ p - 1) p), 1)
    else (set_position 2 (set_length (u32 (position_ p - 2)) p), 2) in
  '(p, _) ← PushVariableUint32 (length_ p) p;
  Ok (set_position start p).

Definition Reset (p : Packer) : Packer := set_position 4 (set_length 0 p).

(** [n] bytes at [Begin() + pos], all of which must have been written. *)
Definition peek (pos n : Z) (p : Packer) : result bytes :=
  m ← deref p;
  cells ← read_at (Z.to_nat pos) (Z.to_nat n) (MemBuf.mem m);
  match mapM id cells with Some bs => Ok bs | None => Err UninitRead end.

(** [Buffer()] and [Length()] are the arguments the senders pass on: the
    pointer is the offset of the block inside the buffer. *)
Definition Buffer (p : Packer) : Z := position_ p.
Definition Length (p : Packer) : Z := length_ p.

(** [Data]/[Data2]: the packet with its prefix. *)
Definition Data (p : Packer) : result bytes := peek (position_ p) (length_ p) p.
Definition Data2 (p : Packer) : result bytes := peek (position_ p) (length_ p) p.

Definition BodyStart (p : Packer) : Z := 4.
Definition BodySize (p : Packer) : Z :=
  if 0x8000 <=? length_ p then u32 (length_ p - 3) else u32 (length_ p - 2).

(** [Body]/[Body2]: the packet without its prefix. *)
Definition Body (p : Packer) : result bytes :=
  if 0x8000 <=? length_ p then peek 4 (u32 (length_ p - 3)) p
  else peek 4 (u32 (length_ p - 2)) p.
Definition Body2 (p : Packer) : result bytes :=
  if 0x8000 <=? length_ p then peek 4 (u32 (length_ p - 3)) p
  else peek 4 (u32 (length_ p - 2)) p.

(** ** Representation invariant

    [holds p bs]: the packer owns a well-formed buffer of at least 64 bytes, its
    cursor is after the four reserved bytes and [bs], and [bs] is written. *)

Definition holds (p : Packer) (bs : bytes) : Prop :=
  ∃ m, mem_ p = Some m ∧ MemBuf.wf m ∧ 64 ≤ MemBuf.capacity_ m ∧
       MemBuf.ref_cnt_ m = 0 ∧
       position_ p = 4 + Z.of_nat (length bs) ∧
       position_ p ≤ MemBuf.capacity_ m ∧
       take (length bs) (drop 4 (MemBuf.mem m)) = Some <$> bs.

Definition capacity (p : Packer) : Z :=
  match mem_ p with Some m => MemBuf.capacity_ m | None => 0 end.

Lemma make_holds buffer_sz : 0 ≤ buffer_sz < 2 ^ 32 → holds (make buffer_sz) [].
Proof.
  intros Hb. eexists. split_and!; try done; simpl; try lia.
  apply MemBuf.Create_wf. lia.
Qed.

Lemma holds_position p bs : holds p bs → position_ p = 4 + Z.of_nat (length bs).
Proof. by intros (m & ? & ? & ? & ? & ? & ? & ?). Qed.

Lemma holds_capacity p bs : holds p bs → position_ p ≤ capacity p < 2 ^ 32.
Proof.
  intros (m & Hm & [? ?] & ? & ? & ? & ? & ?). unfold capacity. rewrite Hm. lia.
Qed.

Lemma complain_holds p bs : holds p bs → holds (complain p) bs.
Proof. done. Qed.

(** [CheckSize] makes room for [more] bytes and keeps what is written. *)
Lemma CheckSize_holds more pos p bs :
  holds p bs → 0 ≤ more → 0 ≤ pos → pos + more < 2 ^ 32 →
  ∃ p', CheckSize more pos p = Ok p' ∧ holds p' bs ∧
        position_ p' = position_ p ∧ length_ p' = length_ p ∧
        pos + more ≤ capacity p' ∧
        (pos + more < kMaxPacketSize → cerr_ p' = cerr_ p).
Proof.
  intros Hh Hm Hp Hs. unfold CheckSize. rewrite u32_small by lia.
  set (q := if kMaxPacketSize <=? pos + more then complain p else p).
  assert (holds q bs ∧ position_ q = position_ p ∧ length_ q = length_ p ∧
          (pos + more < kMaxPacketSize → cerr_ q = cerr_ p)) as (Hq & Eq & El & Ec).
  { unfold q. destruct (Z.leb_spec kMaxPacketSize (pos + more)); split_and!;
      try done; lia. }
  clearbody q. destruct Hq as (m & Hmq & Hwf & H64 & Hrc & Hpos & Hcap & Hbs).
  cbv zeta. unfold deref. rewrite Hmq, bind_ok. unfold MemBuf.Capacity.
  destruct (Z.ltb_spec (MemBuf.capacity_ m) (pos + more)) as [Hlt|Hge].
  - destruct Hwf as [Hc Hl].
    pose proof (u32_bound (2 * MemBuf.capacity_ m)).
    destruct (MemBuf.Create_sized_ok (MemBuf.mem m) (MemBuf.capacity_ m)
      (Z.max (pos + more) (u32 (2 * MemBuf.capacity_ m)))) as
      (m' & -> & Hwf' & Hc' & Hrc' & Hk); [lia|lia|lia|].
    rewrite bind_ok. eexists; split; [done|].
    split_and!; try done; [|unfold capacity; simpl; lia].
    exists m'. simpl. split_and!; try done; try lia.
    rewrite <- Hbs. apply (f_equal (drop 4)) in Hk.
    apply (f_equal (take (length bs))) in Hk. rewrite !take_drop_commute in Hk |- *.
    rewrite !take_take in Hk. by rewrite !Nat.min_l in Hk by lia.
  - eexists; split; [done|]. split_and!; try done.
    + exists m. split_and!; done.
    + unfold capacity. rewrite Hmq. lia.
Qed.

(** Writing at the cursor extends what is held. *)
Lemma put_holds d p bs :
  holds p bs → position_ p + Z.of_nat (length d) ≤ capacity p →
  ∃ p', put d p = Ok p' ∧ holds p' (bs ++ d) ∧
        length_ p' = length_ p ∧ cerr_ p' = cerr_ p.
Proof.
  intros Hh Hr. pose proof (holds_capacity _ _ Hh) as Hc.
  destruct Hh as (m & Hm & [Hw1 Hw2] & H64 & Hrc & Hpos & Hcap & Hbs).
  unfold capacity in Hr, Hc. rewrite Hm in Hr, Hc.
  unfold put, poke, deref. rewrite Hm, bind_ok.
  rewrite write_at_ok by (rewrite length_fmap; lia). rewrite !bind_ok.
  eexists; split; [done|]. split_and!; try done.
  eexists; split; [done|]. unfold MemBuf.wf; simpl.
  rewrite u32_small by lia.
  rewrite length_splice by (rewrite length_fmap; lia).
  rewrite length_app, Nat2Z.inj_add. split_and!; try done; try lia.
  rewrite Hpos. replace (Z.to_nat (4 + Z.of_nat (length bs)))
    with (4 + length bs)%nat by lia.
  pose proof (splice_extend (4 + length bs) (Some <$> d) (MemBuf.mem m) 4) as He.
  rewrite length_fmap in He.
  replace (4 + length bs - 4)%nat with (length bs) in He by lia.
  rewrite He by lia. by rewrite Hbs, fmap_app.
Qed.

(** [emits r p bs d]: the operation succeeds and appends [d]. *)
Definition emits (r : result Packer) (p : Packer) (bs d : bytes) : Prop :=
  ∃ p', r = Ok p' ∧ holds p' (bs ++ d) ∧ length_ p' = length_ p ∧ cerr_ p' = cerr_ p.

(** There is room for [n] more bytes below the packet limit. *)
Definition room (bs : bytes) (n : Z) : Prop :=
  4 + Z.of_nat (length bs) + n < kMaxPacketSize.

Lemma check_put_emits d p bs :
  holds p bs → room bs (Z.of_nat (length d)) →
  emits (CheckSize (Z.of_nat (length d)) (position_ p) p ≫= put d) p bs d.
Proof.
  unfold room, kMaxPacketSize. intros Hh Hr. pose proof (holds_position _ _ Hh).
  destruct (CheckSize_holds (Z.of_nat (length d)) (position_ p) p bs Hh)
    as (q & -> & Hq & Ep & El & Hcap & Ec); [lia..|].
  rewrite bind_ok. rewrite <- Ep in Hcap.
  destruct (put_holds d q bs Hq Hcap) as (p' & -> & Hp' & El' & Ec').
  exists p'. split_and!; try done; [congruence|].
  rewrite Ec'. apply Ec. unfold kMaxPacketSize. lia.
Qed.

Lemma PushUint8_emits v p bs :
  holds p bs → room bs 1 → emits (PushUint8 v p) p bs (le_bytes 1 v).
Proof. apply (check_put_emits (le_bytes 1 v)). Qed.
Lemma PushUint16_emits v p bs :
  holds p bs → room bs 2 → emits (PushUint16 v p) p bs (le_bytes 2 v).
Proof. apply (check_put_emits (le_bytes 2 v)). Qed.
Lemma PushUint32_emits v p bs :
  holds p bs → room bs 4 → emits (PushUint32 v p) p bs (le_bytes 4 v).
Proof. apply (check_put_emits (le_bytes 4 v)). Qed.
Lemma PushUint64_emits v p bs :
  holds p bs → room bs 8 → emits (PushUint64 v p) p bs (le_bytes 8 v).
Proof. apply (check_put_emits (le_bytes 8 v)). Qed.
Lemma PushDouble_emits v p bs :
  holds p bs → room bs 8 → emits (PushDouble v p) p bs (le_bytes 8 v).
Proof. apply (check_put_emits (le_bytes 8 v)). Qed.

(** ** The length prefix and the strings *)

Lemma CheckSize_position more pos p q :
  CheckSize more pos p = Ok q → position_ q = position_ p ∧ length_ q = length_ p.
Proof.
  unfold CheckSize, deref. destruct (kMaxPacketSize <=? _); simpl;
    (destruct (mem_ p) as [m|]; [|done]); rewrite !bind_ok;
    (destruct (MemBuf.Capacity m <? _); [|by intros [= <-]]);
    intros (m' & _ & [= <-])%bind_ok_inv; done.
Qed.

Lemma PushVariableUint32_put v p :
  0 ≤ v → 0 ≤ position_ p →
  PushVariableUint32 v p =
    (p ← CheckSize 3 (position_ p) p;
     p ← poke (position_ p) (var_enc v) p;
     Ok (set_position (u32 (position_ p + var_size v)) p, var_size v)).
Proof.
  intros Hv Hp. unfold PushVariableUint32, var_size, var_enc.
  destruct (v <? 0x8000); [done|].
  destruct (CheckSize 3 (position_ p) p) as [q|] eqn:Hq; [|done].
  rewrite !bind_ok. cbv zeta. rewrite (u16_small _ (long_low_bound v)).
  set (lo := le_bytes 2 _). set (hi := u8 _).
  assert (length (Some <$> lo) = 2%nat) as Hlo
    by (rewrite length_fmap; apply length_le_bytes).
  assert (0 ≤ position_ q) as Hpq.
  { apply CheckSize_position in Hq. lia. }
  unfold poke, deref. destruct (mem_ q) as [m|]; [|done]. rewrite !bind_ok.
  rewrite fmap_app. unfold write_at. rewrite length_app, Hlo. cbn [length fmap list_fmap].
  destruct (decide (Z.to_nat (position_ q) + 2 ≤ length (MemBuf.mem m))%nat) as [Hd|Hd].
  - cbn [mbind result_bind mem_ set_mem MemBuf.mem position_].
    rewrite length_splice by (rewrite Hlo; lia).
    replace (Z.to_nat (position_ q + 2) + 1)%nat
      with (Z.to_nat (position_ q) + (2 + 1))%nat by lia.
    case_decide; [|done].
    replace (Z.to_nat (position_ q + 2))
      with (Z.to_nat (position_ q) + length (Some <$> lo))%nat by (rewrite Hlo; lia).
    rewrite splice_splice by (rewrite Hlo; lia). done.
  - rewrite decide_False by lia. done.
Qed.

(** [emits] for the operations that also return a value. *)
Lemma emits_bind r p bs d (k : Packer → result Packer) e :
  emits r p bs d →
  (∀ q, holds q (bs ++ d) → emits (k q) q (bs ++ d) e) →
  emits (r ≫= k) p bs (d ++ e).
Proof.
  intros (q & -> & Hq & El & Ec) Hk. rewrite bind_ok.
  destruct (Hk q Hq) as (p' & -> & Hp & El' & Ec').
  exists p'. rewrite app_assoc. split_and!; try done; congruence.
Qed.

Lemma PushVariableUint32_emits v p bs :
  0 ≤ v → holds p bs → room bs 3 →
  ∃ p', PushVariableUint32 v p = Ok (p', var_size v) ∧
        holds p' (bs ++ var_enc v) ∧ length_ p' = length_ p ∧ cerr_ p' = cerr_ p.
Proof.
  unfold room, kMaxPacketSize. intros Hv Hh Hr. pose proof (holds_position _ _ Hh).
  pose proof (var_size_bound v). pose proof (length_var_enc v) as Hl.
  rewrite PushVariableUint32_put by lia.
  destruct (CheckSize_holds 3 (position_ p) p bs Hh)
    as (q & -> & Hq & Ep & El & Hcap & Ec); [lia..|].
  rewrite bind_ok. rewrite <- Ep in Hcap.
  destruct (put_holds (var_enc v) q bs Hq) as (p' & HP & Hp' & El' & Ec'); [lia|].
  unfold put in HP. rewrite Hl in HP.
  apply bind_ok_inv in HP as (r & -> & [= <-]). rewrite bind_ok.
  eexists; split; [done|]. split_and!; try done; [congruence|].
  rewrite Ec'. apply Ec. unfold kMaxPacketSize. lia.
Qed.

(** The guarded copy of the strings and blocks: nothing is copied when empty. *)
Lemma check_put_guard_emits d p bs :
  holds p bs → room bs (Z.of_nat (length d)) →
  emits (p ← CheckSize (Z.of_nat (length d)) (position_ p) p;
         if 0 <? Z.of_nat (length d) then put d p else Ok p) p bs d.
Proof.
  intros Hh Hr. destruct d as [|b d]; [|by apply check_put_emits].
  pose proof (holds_position _ _ Hh). unfold room, kMaxPacketSize in Hr.
  destruct (CheckSize_holds 0 (position_ p) p bs Hh)
    as (q & HC & Hq & Ep & El & _ & Ec); [simpl length in *; lia..|].
  change (Z.of_nat (length [])) with 0. rewrite HC, bind_ok.
  exists q. rewrite app_nil_r. split_and!; try done.
  apply Ec. unfold kMaxPacketSize. simpl length in *; lia.
Qed.

(** A length-prefixed block is appended whole. *)
Lemma PushString_emits s p bs :
  holds p bs → room bs (3 + Z.of_nat (length s)) →
  emits (PushString s p) p bs (str_enc s).
Proof.
  intros Hh Hr. pose proof Hr as Hr'. unfold room, kMaxPacketSize in Hr'.
  unfold PushString, str_enc. cbv zeta. rewrite u32_small by lia.
  destruct (PushVariableUint32_emits (Z.of_nat (length s)) p bs)
    as (q & -> & Hq & El & Ec); [lia|done|unfold room, kMaxPacketSize; lia|].
  rewrite bind_ok. rewrite Nat2Z.id, take_ge by lia.
  pose proof (length_var_enc (Z.of_nat (length s))).
  pose proof (var_size_bound (Z.of_nat (length s))).
  destruct (check_put_guard_emits s q _ Hq) as (p' & HP & Hp & El' & Ec').
  { unfold room, kMaxPacketSize. rewrite length_app. lia. }
  exists p'. rewrite app_assoc. split_and!; try done; congruence.
Qed.

Lemma PushBuffer_PushString s p : PushBuffer s p = PushString s p.
Proof. reflexivity. Qed.

Lemma PushBinary_emits s p bs :
  holds p bs → room bs (Z.of_nat (length s)) → emits (PushBinary s p) p bs s.
Proof.
  intros Hh Hr. unfold PushBinary. rewrite u32_small.
  - by apply check_put_guard_emits.
  - unfold room, kMaxPacketSize in Hr. lia.
Qed.

(** ** Packing: the body becomes a frame *)

(** [packed p body]: the finished packet, cursor on its prefix. *)
Definition packed (p : Packer) (body : bytes) : Prop :=
  ∃ m, mem_ p = Some m ∧ MemBuf.wf m ∧ MemBuf.ref_cnt_ m = 0 ∧
       length_ p = frame_len body ∧
       position_ p = 4 - var_size (frame_len body) ∧
       4 + Z.of_nat (length body) ≤ MemBuf.capacity_ m ∧
       drop (Z.to_nat (position_ p)) (take (4 + length body) (MemBuf.mem m)) =
         Some <$> frame body.

Lemma CheckSize_fits more pos p m :
  mem_ p = Some m → 0 ≤ pos + more → pos + more ≤ MemBuf.capacity_ m →
  pos + more < kMaxPacketSize → CheckSize more pos p = Ok p.
Proof.
  unfold kMaxPacketSize. intros Hm H0 Hc Hk. unfold CheckSize, deref.
  rewrite u32_small by lia. unfold kMaxPacketSize.
  rewrite (proj2 (Z.leb_gt _ _)) by lia. cbv zeta. rewrite Hm, bind_ok.
  unfold MemBuf.Capacity. by rewrite (proj2 (Z.ltb_ge _ _)) by lia.
Qed.

(** The branch [Pack] takes depends on the size of the prefix it will write. *)
Lemma Pack_branch n body :
  n = 4 + Z.of_nat (length body) →
  (if 0x8002 <=? n then (n - 1, 1) else (n - 2, 2)) =
    (frame_len body, 4 - var_size (frame_len body)).
Proof.
  intros ->. unfold frame_len, var_size.
  repeat case_match; f_equal; lia.
Qed.

Lemma Pack_packed p body :
  holds p body → room body 0 →
  ∃ p', Pack p = Ok p' ∧ packed p' body ∧ cerr_ p' = cerr_ p.
Proof.
  intros Hh Hr. pose proof (holds_position _ _ Hh) as Hpos.
  destruct Hh as (m & Hm & [Hw1 Hw2] & H64 & Hrc & _ & Hcap & Hbs).
  unfold room in Hr. unfold Pack, assert_.
  rewrite (proj2 (Z.ltb_lt _ _)) by lia. rewrite bind_ok.
  pose proof (Pack_branch (position_ p) body Hpos) as Hb.
  pose proof (frame_len_bound body) as HL.
  pose proof (var_size_bound (frame_len body)) as HV.
  pose proof (length_var_enc (frame_len body)) as HVl.
  unfold kMaxPacketSize in Hr. rewrite (u32_small (position_ p - 2)) by lia.
  set (L := frame_len body) in *. set (start := 4 - var_size L) in *.
  replace (if 32770 <=? position_ p then _ else _)
    with (mkPacker (mem_ p) L start (cerr_ p), start)
    by (destruct (0x8002 <=? position_ p); injection Hb as <- <-; reflexivity).
  rewrite PushVariableUint32_put by (simpl; lia). cbn [position_ length_].
  rewrite (CheckSize_fits 3 start _ m) by (done || unfold kMaxPacketSize; lia).
  rewrite bind_ok. unfold poke, deref. cbn [position_ mem_]. rewrite Hm, bind_ok.
  rewrite write_at_ok by (rewrite length_fmap; lia). rewrite !bind_ok.
  eexists; split; [done|]. split; [|done].
  eexists; split; [done|]. unfold MemBuf.wf. cbn [MemBuf.mem MemBuf.capacity_ MemBuf.ref_cnt_].
  rewrite length_splice by (rewrite length_fmap; lia).
  split_and!; try done; try (simpl; lia).
  cbn [position_ set_position]. rewrite skipn_firstn_comm, splice_from by lia.
  rewrite length_fmap. unfold frame. fold L. rewrite fmap_app, <- Hbs.
  rewrite take_app_ge by (rewrite length_fmap; lia). rewrite length_fmap.
  do 2 f_equal; [lia|]. f_equal. lia.
Qed.

Lemma peek_ok pos n p m bs :
  mem_ p = Some m → 0 ≤ pos → n = Z.of_nat (length bs) →
  pos + n ≤ Z.of_nat (length (MemBuf.mem m)) →
  take (length bs) (drop (Z.to_nat pos) (MemBuf.mem m)) = Some <$> bs →
  peek pos n p = Ok bs.
Proof.
  intros Hm Hp -> Hl Hbs. unfold peek, deref. rewrite Hm, bind_ok.
  rewrite read_at_ok, bind_ok by lia. rewrite Nat2Z.id, Hbs.
  by rewrite mapM_id_Some.
Qed.

(** The senders read the frame, the bodies read the payload. *)
Lemma packed_Data p body :
  packed p body → Z.of_nat (length body) < 2 ^ 31 →
  Data p = Ok (frame body) ∧ Data2 p = Ok (frame body) ∧
  Body p = Ok body ∧ Body2 p = Ok body ∧
  BodySize p = Z.of_nat (length body).
Proof.
  intros (m & Hm & [Hw1 Hw2] & _ & HL & Hs & Hc & Hd) Hb.
  pose proof (frame_len_bound body) as HLb.
  pose proof (frame_len_size body) as Hsz.
  pose proof (var_size_bound (frame_len body)) as HV.
  pose proof (length_frame body) as Hfl.
  assert (Data p = Ok (frame body)) as HD.
  { unfold Data. rewrite HL. apply peek_ok with m; try done; try lia.
    rewrite <- Hd, skipn_firstn_comm. f_equal. lia. }
  assert (∀ n, n = Z.of_nat (length body) → peek 4 n p = Ok body) as HB.
  { intros n ->. apply peek_ok with m; try done; try lia.
    apply (f_equal (drop (Z.to_nat (var_size (frame_len body))))) in Hd.
    rewrite drop_drop, <- fmap_drop in Hd. unfold frame in Hd.
    rewrite (drop_app_length' (var_enc _)) in Hd
      by (pose proof (length_var_enc (frame_len body)); lia).
    rewrite <- Hd, skipn_firstn_comm. do 2 f_equal; lia. }
  unfold Body, Body2, BodySize. rewrite HL.
  assert ((if 32768 <=? frame_len body then u32 (frame_len body - 3)
           else u32 (frame_len body - 2)) = Z.of_nat (length body)) as Hn.
  { unfold var_size in Hsz. case_match; repeat case_match; width. }
  split_and!; try done; case_match; apply HB; done.
Qed.

Lemma room_le bs m n : room bs n → m ≤ n → room bs m.
Proof. unfold room. lia. Qed.
Lemma room_app bs d n : room bs (Z.of_nat (length d) + n) → room (bs ++ d) n.
Proof. unfold room. rewrite length_app. lia. Qed.

(** ** Properties *)

(** [Pack] turns the pushed bytes into a frame.  Below the packet limit it
    succeeds without a diagnostic; [Data] is then the 2- or 3-byte prefix that
    counts the whole packet followed by the pushed bytes, and [Body] (and its
    vector variants and [BodySize]) are the pushed bytes alone. *)
Theorem Pack_frames p body :
  holds p body → room body 0 →
  ∃ p', Pack p = Ok p' ∧ cerr_ p' = cerr_ p ∧
    Data p' = Ok (frame body) ∧ Data2 p' = Ok (frame body) ∧
    Length p' = Z.of_nat (length (frame body)) ∧
    Body p' = Ok body ∧ Body2 p' = Ok body ∧
    BodySize p' = Z.of_nat (length body).
Proof.
  intros Hh Hr. destruct (Pack_packed p body Hh Hr) as (p' & HP & Hp & Hc).
  destruct (packed_Data p' body Hp) as (H1 & H2 & H3 & H4 & H5).
  { unfold room, kMaxPacketSize in Hr. lia. }
  exists p'. rewrite length_frame. split_and!; try done.
  by destruct Hp as (m & ? & ? & ? & ? & ?).
Qed.

Lemma Pack_frames_witness :
  ∃ p', Pack (make 64) = Ok p' ∧ cerr_ p' = cerr_ (make 64) ∧
    Data p' = Ok (frame []) ∧ Data2 p' = Ok (frame []) ∧
    Length p' = Z.of_nat (length (frame [])) ∧
    Body p' = Ok [] ∧ Body2 p' = Ok [] ∧ BodySize p' = Z.of_nat (length (@nil Z)).
Proof.
  apply (Pack_frames (make 64) []); [|vm_compute; reflexivity].
  apply make_holds. split; [discriminate|reflexivity].
Defined.

(** growing the buffer.  [CheckSize] for a range that does not wrap around
    32 bits always succeeds, leaves at least the requested room, and keeps every
    byte pushed so far; it writes a diagnostic only at the packet limit. *)
Theorem CheckSize_makes_room more pos p bs :
  holds p bs → 0 ≤ more → 0 ≤ pos → pos + more < 2 ^ 32 →
  ∃ p', CheckSize more pos p = Ok p' ∧ holds p' bs ∧
    position_ p' = position_ p ∧ length_ p' = length_ p ∧
    pos + more ≤ capacity p' ∧
    (pos + more < kMaxPacketSize → cerr_ p' = cerr_ p).
Proof. apply CheckSize_holds. Qed.

Lemma CheckSize_makes_room_witness :
  ∃ p', CheckSize 100 4 (make 64) = Ok p' ∧ holds p' [] ∧
    position_ p' = position_ (make 64) ∧ length_ p' = length_ (make 64) ∧
    4 + 100 ≤ capacity p' ∧
    (4 + 100 < kMaxPacketSize → cerr_ p' = cerr_ (make 64)).
Proof.
  apply (CheckSize_makes_room 100 4 (make 64) []);
    [|discriminate|discriminate|reflexivity].
  apply make_holds. split; [discriminate|reflexivity].
Defined.

(** Overwriting bytes that were pushed before. *)
Lemma poke_holds pos d p bs :
  holds p bs → 4 ≤ pos → pos + Z.of_nat (length d) ≤ position_ p →
  ∃ p', poke pos d p = Ok p' ∧ position_ p' = position_ p ∧ length_ p' = length_ p ∧
    cerr_ p' = cerr_ p ∧ holds p' (splice (Z.to_nat (pos - 4)) d bs).
Proof.
  intros (m & Hm & [Hw1 Hw2] & H64 & Hrc & Hpos & Hcap & Hbs) H4 Hd.
  unfold poke, deref. rewrite Hm, bind_ok.
  rewrite write_at_ok by (rewrite length_fmap; lia). rewrite bind_ok.
  eexists; split; [done|]. split_and!; try done. eexists; split; [done|].
  unfold MemBuf.wf. cbn [MemBuf.mem MemBuf.capacity_ MemBuf.ref_cnt_ position_ set_mem].
  rewrite !length_splice by (rewrite ?length_fmap; lia).
  split_and!; try done; try lia.
  set (n := Z.to_nat (pos - 4)). replace (Z.to_nat pos) with (4 + n)%nat by lia.
  unfold splice. rewrite drop_app_le by (rewrite length_take; lia).
  rewrite length_fmap, !fmap_app, fmap_take, fmap_drop, <- Hbs.
  rewrite skipn_firstn_comm. replace (4 + n - 4)%nat with n by lia.
  rewrite take_app_ge by (rewrite length_take, length_drop; lia).
  rewrite take_take, (Nat.min_l n) by lia. f_equal.
  rewrite length_take, length_drop, (Nat.min_l n) by lia.
  rewrite take_app_ge by (rewrite length_fmap; lia). f_equal.
  rewrite length_fmap, skipn_firstn_comm, drop_drop. f_equal. lia.
Qed.

(** Patching.  [WriteUint16] and [WriteUint32] at a position inside the bytes
    pushed so far overwrite exactly those two or four bytes (little-endian) and
    leave the cursor and all other bytes alone. *)
Theorem WriteUint_patches v pos p bs :
  holds p bs → position_ p < 2 ^ 31 → 4 ≤ pos →
  (pos + 2 ≤ position_ p → ∃ p', WriteUint16 v pos p = Ok p' ∧
     position_ p' = position_ p ∧
     holds p' (splice (Z.to_nat (pos - 4)) (le_bytes 2 v) bs)) ∧
  (pos + 4 ≤ position_ p → ∃ p', WriteUint32 v pos p = Ok p' ∧
     position_ p' = position_ p ∧
     holds p' (splice (Z.to_nat (pos - 4)) (le_bytes 4 v) bs)).
Proof.
  intros Hh H31 Hp. split; intros Hpos; unfold WriteUint16, WriteUint32.
  - destruct (CheckSize_holds 2 pos p bs Hh) as (q & -> & Hq & Eq & _); [lia..|].
    rewrite bind_ok.
    destruct (poke_holds pos (le_bytes 2 v) q bs Hq) as (p' & E & Ep & _ & _ & H);
      [lia|rewrite length_le_bytes; lia|]. exists p'. by rewrite Ep.
  - destruct (CheckSize_holds 4 pos p bs Hh) as (q & -> & Hq & Eq & _); [lia..|].
    rewrite bind_ok.
    destruct (poke_holds pos (le_bytes 4 v) q bs Hq) as (p' & E & Ep & _ & _ & H);
      [lia|rewrite length_le_bytes; lia|]. exists p'. by rewrite Ep.
Qed.

Lemma WriteUint_patches_witness :
  ∃ p, holds p [1; 2; 3; 4] ∧
  (4 + 2 ≤ position_ p → ∃ p', WriteUint16 0x0907 4 p = Ok p' ∧
     position_ p' = position_ p ∧ holds p' (splice (Z.to_nat (4 - 4)) (le_bytes 2 0x0907) [1; 2; 3; 4])) ∧
  (4 + 4 ≤ position_ p → ∃ p', WriteUint32 0x0907 4 p = Ok p' ∧
     position_ p' = position_ p ∧ holds p' (splice (Z.to_nat (4 - 4)) (le_bytes 4 0x0907) [1; 2; 3; 4])).
Proof.
  destruct (put_holds [1; 2; 3; 4] (make 64) []) as (q & _ & Hq & _);
    [apply make_holds; split; [discriminate|reflexivity]|vm_compute; discriminate|].
  exists q. split; [done|].
  apply (WriteUint_patches 0x0907 4 q [1; 2; 3; 4]); [done| |discriminate].
  rewrite (holds_position _ _ Hq). reflexivity.
Defined.
