(* ===== verification/OldPacker.v ===== *)
(** * OldPacker: thrift/turnserver/packer.h

    The older packer, whose buffer is a [std::vector<char>] instead of a [MemBuf]: it grows
    to what is needed and its new bytes are 0.  [PackerClass] is what a client sees of
    either packer and [PackerLaws] what it relies on; both packers are instances, and so
    they send the same packets. *)

From Stdlib Require Import String.
From S2P Require Import Prelude Bytes Wire MemBuf Packer.

Record OldPacker := mkOld {
  buffer_ : bytes;       (* std::vector<char> *)
  old_length_ : Z;       (* uint32_t *)
  old_position_ : Z;     (* uint32_t *)
  old_cerr_ : nat;
}.

Definition old_set_buffer (b : bytes) (p : OldPacker) : OldPacker :=
  mkOld b (old_length_ p) (old_position_ p) (old_cerr_ p).
Definition old_set_length (n : Z) (p : OldPacker) : OldPacker :=
  mkOld (buffer_ p) n (old_position_ p) (old_cerr_ p).
Definition old_set_position (n : Z) (p : OldPacker) : OldPacker :=
  mkOld (buffer_ p) (old_length_ p) n (old_cerr_ p).
Definition old_complain (p : OldPacker) : OldPacker :=
  mkOld (buffer_ p) (old_length_ p) (old_position_ p) (S (old_cerr_ p)).

Definition old_kDefaultSize : Z := 1024.
Definition old_make : OldPacker := mkOld (replicate (Z.to_nat old_kDefaultSize) 0) 0 4 0.

(** [buffer_.resize(new_size)] of a larger size. *)
Definition enlarge (new_size : Z) (b : bytes) : bytes :=
  b ++ replicate (Z.to_nat new_size - length b) 0.

Definition old_CheckSize (more position : Z) (p : OldPacker) : OldPacker :=
  let new_size := u32 (position + more) in
  let p := if kMaxPacketSize <=? new_size then old_complain p else p in
  if Z.of_nat (length (buffer_ p)) <? new_size then old_set_buffer (enlarge new_size (buffer_ p)) p else p.

(** [memcpy(&buffer_[0] + position, data, sizeof(data))]. *)
Definition old_poke (position : Z) (data : bytes) (p : OldPacker) : result OldPacker :=
  b ← write_at (Z.to_nat position) data (buffer_ p);
  Ok (old_set_buffer b p).
(** The same at [position_], which moves on. *)
Definition old_put (data : bytes) (p : OldPacker) : result OldPacker :=
  p ← old_poke (old_position_ p) data p;
  Ok (old_set_position (u32 (old_position_ p + Z.of_nat (length data))) p).

Definition old_WriteUint16 (val position : Z) (p : OldPacker) : result OldPacker :=
  old_poke position (le_bytes 2 val) (old_CheckSize 2 position p).
Definition old_WriteUint32 (val position : Z) (p : OldPacker) : result OldPacker :=
  old_poke position (le_bytes 4 val) (old_CheckSize 4 position p).
Definition old_PushUint8 (val : Z) (p : OldPacker) : result OldPacker :=
  old_put (le_bytes 1 val) (old_CheckSize 1 (old_position_ p) p).
Definition old_PushBoolean (val : bool) (p : OldPacker) : result OldPacker := old_PushUint8 (Z.b2z val) p.
Definition old_PushUint16 (val : Z) (p : OldPacker) : result OldPacker :=
  old_put (le_bytes 2 val) (old_CheckSize 2 (old_position_ p) p).
Definition old_PushUint32 (val : Z) (p : OldPacker) : result OldPacker :=
  old_put (le_bytes 4 val) (old_CheckSize 4 (old_position_ p) p).
Definition old_PushUint64 (val : Z) (p : OldPacker) : result OldPacker :=
  old_put (le_bytes 8 val) (old_CheckSize 8 (old_position_ p) p).
Definition old_PushDouble (val : Z) (p : OldPacker) : result OldPacker :=
  old_put (le_bytes 8 val) (old_CheckSize 8 (old_position_ p) p).

Definition old_PushVariableUint32 (value : Z) (p : OldPacker) : result (OldPacker * Z) :=
  let p := old_CheckSize 2 (old_position_ p) p in
  if value <? 0x8000 then
    p ← old_poke (old_position_ p) (le_bytes 2 value) p;
    Ok (old_set_position (u32 (old_position_ p + 2)) p, 2)
  else
    let p := old_CheckSize 3 (old_position_ p) p in
    let lower := u16 (Z.lor (Z.land value 0x7FFF) 0x8000) in
    p ← old_poke (old_position_ p) (le_bytes 2 lower) p;
    let upper := u8 (Z.shiftr value 15) in
    p ← old_poke (old_position_ p + 2) [upper] p;
    Ok (old_set_position (u32 (old_position_ p + 3)) p, 3).

Definition old_PushString (val : bytes) (p : OldPacker) : result OldPacker :=
  let length := u32 (Z.of_nat (length val)) in
  '(p, _) ← old_PushVariableUint32 length p;
  let p := old_CheckSize length (old_position_ p) p in
  if 0 <? length then old_put (take (Z.to_nat length) val) p else Ok p.
Definition old_PushBuffer (val : bytes) (p : OldPacker) : result OldPacker :=
  let length := u32 (Z.of_nat (length val)) in
  '(p, _) ← old_PushVariableUint32 length p;
  let p := old_CheckSize length (old_position_ p) p in
  if 0 <? length then old_put (take (Z.to_nat length) val) p else Ok p.
Definition old_PushBinary (data : bytes) (p : OldPacker) : result OldPacker :=
  let p := old_CheckSize (u32 (Z.of_nat (length data))) (old_position_ p) p in
  if 0 <? Z.of_nat (length data) then old_put data p else Ok p.

(** The short prefix is written where it belongs, without [PushVariableUint32]. *)
Definition old_Pack (p : OldPacker) : result OldPacker :=
  _ ← assert_ (old_position_ p <? kMaxPacketSize);
  if 0x8002 <=? old_position_ p then
    let p := old_set_position 1 (old_set_length (old_position_ p - 1) p) in
    '(p, size) ← old_PushVariableUint32 (old_length_ p) p;
    _ ← assert_ (size =? 3);
    Ok (old_set_position 1 p)
  else
    let p := old_set_position 2 (old_set_length (u32 (old_position_ p - 2)) p) in
    old_poke 2 (le_bytes 2 (u16 (old_length_ p))) p.

Definition old_Reset (p : OldPacker) : OldPacker := old_set_position 4 (old_set_length 0 p).

(** [n] bytes at [&buffer_[pos]]. *)
Definition old_peek (pos n : Z) (p : OldPacker) : result bytes :=
  read_at (Z.to_nat pos) (Z.to_nat n) (buffer_ p).
Definition old_Buffer (p : OldPacker) : Z := old_position_ p.
Definition old_Length (p : OldPacker) : Z := old_length_ p.
Definition old_Data (p : OldPacker) : result bytes := old_peek (old_position_ p) (old_length_ p) p.
Definition old_Data2 (p : OldPacker) : result bytes :=
  _ ← assert_ (0 <? Z.of_nat (length (buffer_ p)));
  old_peek (old_position_ p) (old_length_ p) p.
Definition old_BodyStart (p : OldPacker) : Z := 4.
Definition old_BodySize (p : OldPacker) : Z :=
  if 0x8000 <=? old_length_ p then u32 (old_length_ p - 3) else u32 (old_length_ p - 2).
Definition old_Body (p : OldPacker) : result bytes :=
  if 0x8000 <=? old_length_ p then old_peek 4 (u32 (old_length_ p - 3)) p
  else old_peek 4 (u32 (old_length_ p - 2)) p.
Definition old_Body2 (p : OldPacker) : result bytes :=
  if 0x8000 <=? old_length_ p then old_peek 4 (u32 (old_length_ p - 3)) p
  else old_peek 4 (u32 (old_length_ p - 2)) p.
(** The vector is moved out: an empty one stays. *)
Definition old_TakeBuffer (p : OldPacker) : bytes * OldPacker := (buffer_ p, old_set_buffer [] p).

(** ** What a client sees *)

Inductive push_op :=
  | PBool (b : bool) | PUint8 (v : Z) | PUint16 (v : Z) | PUint32 (v : Z) | PUint64 (v : Z)
  | PDouble (v : Z) | PVariable (v : Z) | PString (s : bytes) | PBuffer (s : bytes) | PBinary (s : bytes)
  | PWrite16 (v pos : Z) | PWrite32 (v pos : Z).

Class PackerClass (T : Type) := {
  op_push : push_op → T → result T;
  op_pack : T → result T;
  op_reset : T → T;
  op_data : T → result bytes;
  op_body : T → result bytes;
  op_diagnostics : T → nat;
}.

#[export] Instance old_packer : PackerClass OldPacker := {|
  op_push o p :=
    match o with
    | PBool b => old_PushBoolean b p
    | PUint8 v => old_PushUint8 v p
    | PUint16 v => old_PushUint16 v p
    | PUint32 v => old_PushUint32 v p
    | PUint64 v => old_PushUint64 v p
    | PDouble v => old_PushDouble v p
    | PVariable v => '(p, _) ← old_PushVariableUint32 v p; Ok p
    | PString s => old_PushString s p
    | PBuffer s => old_PushBuffer s p
    | PBinary s => old_PushBinary s p
    | PWrite16 v pos => old_WriteUint16 v pos p
    | PWrite32 v pos => old_WriteUint32 v pos p
    end;
  op_pack := old_Pack;
  op_reset := old_Reset;
  op_data := old_Data;
  op_body := old_Body;
  op_diagnostics := old_cerr_;
|}.

#[export] Instance new_packer : PackerClass Packer := {|
  op_push o p :=
    match o with
    | PBool b => PushBoolean b p
    | PUint8 v => PushUint8 v p
    | PUint16 v => PushUint16 v p
    | PUint32 v => PushUint32 v p
    | PUint64 v => PushUint64 v p
    | PDouble v => PushDouble v p
    | PVariable v => '(p, _) ← PushVariableUint32 v p; Ok p
    | PString s => PushString s p
    | PBuffer s => PushBuffer s p
    | PBinary s => PushBinary s p
    | PWrite16 v pos => WriteUint16 v pos p
    | PWrite32 v pos => WriteUint32 v pos p
    end;
  op_pack := Pack;
  op_reset := Reset;
  op_data := Data;
  op_body := Body;
  op_diagnostics := cerr_;
|}.

Section client.
Context {T : Type} `{PackerClass T}.

Fixpoint push_all (ops : list push_op) (p : T) : result T :=
  match ops with [] => Ok p | o :: ops => p ← op_push o p; push_all ops p end.

(** Pushes, [Pack], and what is read before [Reset]: the packet and its body. *)
Definition message (ops : list push_op) (p : T) : result ((bytes * bytes) * T) :=
  p ← push_all ops p;
  p ← op_pack p;
  d ← op_data p; b ← op_body p;
  Ok ((d, b), op_reset p).
Fixpoint messages (ms : list (list push_op)) (p : T) : result (list (bytes * bytes) * T) :=
  match ms with
  | [] => Ok ([], p)
  | m :: ms => '(x, p) ← message m p; '(xs, p) ← messages ms p; Ok (x :: xs, p)
  end.
End client.

(** ** The contract

    What an operation makes of the bytes pushed so far, and when it is allowed: below the
    packet limit, and patches within what is there. *)

Definition pushed (o : push_op) (bs : bytes) : bytes :=
  match o with
  | PBool b => bs ++ le_bytes 1 (Z.b2z b)
  | PUint8 v => bs ++ le_bytes 1 v
  | PUint16 v => bs ++ le_bytes 2 v
  | PUint32 v => bs ++ le_bytes 4 v
  | PUint64 v | PDouble v => bs ++ le_bytes 8 v
  | PVariable v => bs ++ var_enc v
  | PString s | PBuffer s => bs ++ str_enc s
  | PBinary s => bs ++ s
  | PWrite16 v pos => splice (Z.to_nat (pos - 4)) (le_bytes 2 v) bs
  | PWrite32 v pos => splice (Z.to_nat (pos - 4)) (le_bytes 4 v) bs
  end.
Definition allowed (o : push_op) (bs : bytes) : Prop :=
  match o with
  | PBool _ | PUint8 _ => room bs 1
  | PUint16 _ => room bs 2
  | PUint32 _ => room bs 4
  | PUint64 _ | PDouble _ => room bs 8
  | PVariable v => 0 ≤ v ∧ room bs 3
  | PString s | PBuffer s => room bs (3 + Z.of_nat (length s))
  | PBinary s => room bs (Z.of_nat (length s))
  | PWrite16 _ pos => room bs 0 ∧ 4 ≤ pos ∧ pos + 2 ≤ 4 + Z.of_nat (length bs)
  | PWrite32 _ pos => room bs 0 ∧ 4 ≤ pos ∧ pos + 4 ≤ 4 + Z.of_nat (length bs)
  end.
#[export] Instance allowed_dec o bs : Decision (allowed o bs).
Proof. unfold allowed, room. destruct o; apply _. Defined.

Fixpoint all_allowed (ops : list push_op) (bs : bytes) : Prop :=
  match ops with [] => room bs 0 | o :: ops => allowed o bs ∧ all_allowed ops (pushed o bs) end.
Definition content (ops : list push_op) : bytes := foldl (λ bs o, pushed o bs) [] ops.

(** What a client may rely on. *)
Class PackerLaws (T : Type) `{PackerClass T} := {
  stands : T → bytes → Prop;
  push_stands o p bs : stands p bs → allowed o bs →
    ∃ p', op_push o p = Ok p' ∧ stands p' (pushed o bs) ∧ op_diagnostics p' = op_diagnostics p;
  pack_stands p body : stands p body → room body 0 →
    ∃ p', op_pack p = Ok p' ∧ op_data p' = Ok (frame body) ∧ op_body p' = Ok body ∧
      stands (op_reset p') [] ∧ op_diagnostics (op_reset p') = op_diagnostics p;
}.

(** Whatever keeps the contract sends the frames of what was pushed. *)
Section contract.
Context {T : Type} `{PackerLaws T}.

Lemma push_all_stands ops p bs : stands p bs → all_allowed ops bs →
  ∃ p', push_all ops p = Ok p' ∧ stands p' (foldl (λ bs o, pushed o bs) bs ops) ∧
    room (foldl (λ bs o, pushed o bs) bs ops) 0 ∧ op_diagnostics p' = op_diagnostics p.
Proof.
  revert p bs. induction ops as [|o ops IH]; intros p bs Hp; cbn [all_allowed foldl push_all].
  - intros Hr. by exists p.
  - intros [Ho Hops]. destruct (push_stands o p bs Hp Ho) as (q & -> & Hq & Eq).
    rewrite bind_ok. destruct (IH q _ Hq Hops) as (p' & -> & ? & ? & E).
    exists p'. by rewrite E, Eq.
Qed.

Lemma messages_frames ms p : stands p [] → Forall (λ ops, all_allowed ops []) ms →
  ∃ p', messages ms p = Ok ((λ ops, (frame (content ops), content ops)) <$> ms, p') ∧
    stands p' [] ∧ op_diagnostics p' = op_diagnostics p.
Proof.
  intros Hp Hms. revert p Hp. induction Hms as [|ops ms Hops _ IH]; intros p Hp; cbn [messages]; [by exists p|].
  unfold message. destruct (push_all_stands ops p [] Hp Hops) as (q & -> & Hq & Hr & Eq). rewrite bind_ok.
  destruct (pack_stands q _ Hq Hr) as (q' & -> & Ed & Eb & Hq' & Eq'). rewrite bind_ok, Ed, bind_ok, Eb, !bind_ok.
  destruct (IH _ Hq') as (p' & -> & Hp' & Ep). exists p'. rewrite Ep, Eq', Eq. done.
Qed.
End contract.

(** ** The packer of base/packer.h keeps it *)

Lemma emits_stands r p bs d (H : emits r p bs d) :
  ∃ p', r = Ok p' ∧ holds p' (bs ++ d) ∧ cerr_ p' = cerr_ p.
Proof. destruct H as (p' & ? & ? & _ & ?). by exists p'. Qed.

Lemma patch_stands n v pos p bs :
  holds p bs → room bs 0 → 4 ≤ pos → pos + Z.of_nat n ≤ 4 + Z.of_nat (length bs) →
  ∃ p', (p ← CheckSize (Z.of_nat n) pos p; poke pos (le_bytes n v) p) = Ok p' ∧
    holds p' (splice (Z.to_nat (pos - 4)) (le_bytes n v) bs) ∧ cerr_ p' = cerr_ p.
Proof.
  intros Hh Hr H4 Hn. pose proof (holds_position _ _ Hh) as Hp. unfold room, kMaxPacketSize in Hr.
  destruct (CheckSize_holds (Z.of_nat n) pos p bs Hh) as (q & -> & Hq & Eq & _ & _ & Ec); [lia..|].
  rewrite bind_ok. destruct (poke_holds pos (le_bytes n v) q bs Hq) as (p' & -> & _ & _ & Ec' & Hp').
  - lia.
  - rewrite length_le_bytes. lia.
  - exists p'. rewrite Ec', Ec; [done|]. unfold kMaxPacketSize. lia.
Qed.

Lemma new_push_stands o p bs : holds p bs → allowed o bs →
  ∃ p', op_push o p = Ok p' ∧ holds p' (pushed o bs) ∧ cerr_ p' = cerr_ p.
Proof.
  intros Hh. destruct o; cbn [op_push new_packer allowed pushed]; intros Ha.
  - by apply emits_stands, PushUint8_emits.
  - by apply emits_stands, PushUint8_emits.
  - by apply emits_stands, PushUint16_emits.
  - by apply emits_stands, PushUint32_emits.
  - by apply emits_stands, PushUint64_emits.
  - by apply emits_stands, PushDouble_emits.
  - destruct Ha as [Hv Hr]. destruct (PushVariableUint32_emits v p bs Hv Hh Hr) as (p' & -> & ? & _ & ?).
    rewrite bind_ok. by exists p'.
  - by apply emits_stands, PushString_emits.
  - rewrite PushBuffer_PushString. by apply emits_stands, PushString_emits.
  - by apply emits_stands, PushBinary_emits.
  - destruct Ha as (Hr & H4 & Hn). by apply (patch_stands 2).
  - destruct Ha as (Hr & H4 & Hn). by apply (patch_stands 4).
Qed.

(** Neither the checks nor the copies shrink the buffer. *)
Lemma CheckSize_grows more pos p q : CheckSize more pos p = Ok q → capacity p ≤ capacity q.
Proof.
  unfold CheckSize, deref. cbv zeta. destruct (kMaxPacketSize <=? _); cbn [mem_ complain];
    (destruct (mem_ p) as [m|] eqn:Hm; [|done]); rewrite !bind_ok;
    (destruct (MemBuf.Capacity m <? _); [|intros [= <-]; unfold capacity; cbn [mem_ complain]; rewrite Hm; lia]);
    intros (m' & HC & [= <-])%bind_ok_inv; unfold capacity; rewrite Hm; cbn [mem_ set_mem];
    apply bind_ok_inv in HC as (u & HA & HC); apply bind_ok_inv in HC as (src & _ & [= <-]);
    revert HA; unfold assert_, MemBuf.Capacity; (case_match; [|done]); intros _;
    cbn [MemBuf.capacity_]; lia.
Qed.
Lemma poke_capacity pos d p q : poke pos d p = Ok q → capacity q = capacity p.
Proof.
  unfold poke, deref. destruct (mem_ p) as [m|] eqn:Hm; [|done]. rewrite bind_ok.
  intros (cells & _ & [= <-])%bind_ok_inv. unfold capacity. by rewrite Hm.
Qed.
Lemma PushVariableUint32_grows v p q : PushVariableUint32 v p = Ok q → capacity p ≤ capacity (fst q).
Proof.
  unfold PushVariableUint32. intros (p1 & H1%CheckSize_grows & H)%bind_ok_inv. destruct (v <? 0x8000).
  - apply bind_ok_inv in H as (p2 & H2%poke_capacity & [= <-]). cbn. unfold capacity in *. cbn. lia.
  - apply bind_ok_inv in H as (p2 & H2%poke_capacity & H).
    apply bind_ok_inv in H as (p3 & H3%poke_capacity & [= <-]). cbn. unfold capacity in *. cbn. lia.
Qed.
Lemma Pack_grows p q : Pack p = Ok q → capacity p ≤ capacity q.
Proof.
  unfold Pack. intros (u & _ & H)%bind_ok_inv.
  destruct (0x8002 <=? position_ p);
    apply bind_ok_inv in H as ([r n] & H%PushVariableUint32_grows & [= <-]); exact H.
Qed.

Lemma new_pack_stands p body : holds p body → room body 0 →
  ∃ p', op_pack p = Ok p' ∧ op_data p' = Ok (frame body) ∧ op_body p' = Ok body ∧
    holds (op_reset p') [] ∧ cerr_ (op_reset p') = cerr_ p.
Proof.
  intros Hh Hr. destruct (Pack_packed p body Hh Hr) as (p' & E & Hp & Hc).
  pose proof (Pack_grows _ _ E) as Hg.
  destruct (packed_Data p' body Hp) as (E1 & _ & E2 & _); [unfold room, kMaxPacketSize in Hr; lia|].
  exists p'. split_and!; [done..| |done].
  destruct Hh as (m0 & Hm0 & _ & H64 & _), Hp as (m & Hm & Hw & Hrc & _).
  unfold capacity in Hg. rewrite Hm0, Hm in Hg.
  exists m. cbn [op_reset new_packer Reset mem_ set_position set_length position_ length].
  split_and!; try done; lia.
Qed.

#[export] Instance new_laws : PackerLaws Packer := {|
  stands := holds;
  push_stands := new_push_stands;
  pack_stands := new_pack_stands;
|}.

(** ** The older packer keeps it *)

Definition old_holds (p : OldPacker) (bs : bytes) : Prop :=
  old_position_ p = 4 + Z.of_nat (length bs) ∧ old_position_ p ≤ Z.of_nat (length (buffer_ p)) ∧
  take (length bs) (drop 4 (buffer_ p)) = bs.

Lemma length_enlarge n b : Z.of_nat (length (enlarge n b)) = Z.max n (Z.of_nat (length b)).
Proof. unfold enlarge. rewrite length_app, length_replicate. lia. Qed.

Lemma old_CheckSize_holds more pos p bs :
  old_holds p bs → 0 ≤ more → 0 ≤ pos → pos + more < 2 ^ 32 →
  old_holds (old_CheckSize more pos p) bs ∧
  old_position_ (old_CheckSize more pos p) = old_position_ p ∧
  old_length_ (old_CheckSize more pos p) = old_length_ p ∧
  pos + more ≤ Z.of_nat (length (buffer_ (old_CheckSize more pos p))) ∧
  (pos + more < kMaxPacketSize → old_cerr_ (old_CheckSize more pos p) = old_cerr_ p).
Proof.
  intros (Hp & Hl & Hb) Hm H0 Hs. unfold old_CheckSize. rewrite u32_small by lia. cbv zeta.
  set (q := if kMaxPacketSize <=? pos + more then old_complain p else p).
  assert (buffer_ q = buffer_ p ∧ old_position_ q = old_position_ p ∧ old_length_ q = old_length_ p ∧
          (pos + more < kMaxPacketSize → old_cerr_ q = old_cerr_ p)) as (Eb & Ep & El & Ec).
  { unfold q. destruct (Z.leb_spec kMaxPacketSize (pos + more)); split_and!; try done; lia. }
  clearbody q. rewrite Eb. destruct (Z.ltb_spec (Z.of_nat (length (buffer_ p))) (pos + more)) as [Hlt|Hge].
  - unfold old_holds. cbn [buffer_ old_position_ old_length_ old_cerr_ old_set_buffer].
    rewrite length_enlarge. split_and!; try done; try lia.
    unfold enlarge. rewrite drop_app_le, take_app_le by (rewrite ?length_drop; lia). done.
  - unfold old_holds. rewrite Eb, Ep. split_and!; try done; lia.
Qed.

Lemma old_put_holds d p bs :
  old_holds p bs → old_position_ p + Z.of_nat (length d) ≤ Z.of_nat (length (buffer_ p)) →
  old_position_ p + Z.of_nat (length d) < 2 ^ 32 →
  ∃ p', old_put d p = Ok p' ∧ old_holds p' (bs ++ d) ∧ old_length_ p' = old_length_ p ∧
    old_cerr_ p' = old_cerr_ p.
Proof.
  intros (Hp & Hl & Hb) Hd H32. unfold old_put, old_poke.
  rewrite write_at_ok by lia. rewrite !bind_ok. eexists; split; [done|]. split; [|done].
  unfold old_holds. cbn [buffer_ old_position_ old_set_buffer old_set_position].
  rewrite u32_small, length_splice, length_app by lia. split_and!; [lia|lia|].
  pose proof (splice_extend (Z.to_nat (old_position_ p)) d (buffer_ p) 4) as He.
  replace (length bs + length d)%nat with (Z.to_nat (old_position_ p) - 4 + length d)%nat by lia.
  rewrite He by lia. replace (Z.to_nat (old_position_ p) - 4)%nat with (length bs) by lia. by rewrite Hb.
Qed.

(** The older operation succeeds, appends [d], and says nothing. *)
Definition old_emits (r : result OldPacker) (p : OldPacker) (bs d : bytes) : Prop :=
  ∃ p', r = Ok p' ∧ old_holds p' (bs ++ d) ∧ old_cerr_ p' = old_cerr_ p.

Lemma old_check_put d p bs : old_holds p bs → room bs (Z.of_nat (length d)) →
  old_emits (old_put d (old_CheckSize (Z.of_nat (length d)) (old_position_ p) p)) p bs d.
Proof.
  unfold room, kMaxPacketSize. intros Hh Hr. pose proof Hh as (Hp & _).
  destruct (old_CheckSize_holds (Z.of_nat (length d)) (old_position_ p) p bs Hh)
    as (Hq & Ep & _ & Hc & Ec); [lia..|].
  destruct (old_put_holds d _ bs Hq) as (p' & -> & Hp' & _ & Ec'); [lia..|].
  exists p'. rewrite Ec', Ec; [done|]. unfold kMaxPacketSize. lia.
Qed.

Lemma old_poke_app pos a b p : 0 ≤ pos →
  (p ← old_poke pos a p; old_poke (pos + Z.of_nat (length a)) b p) = old_poke pos (a ++ b) p.
Proof.
  intros Hp. unfold old_poke, write_at. rewrite length_app.
  destruct (decide (Z.to_nat pos + length a ≤ length (buffer_ p))%nat) as [Ha|Ha].
  - rewrite !bind_ok. cbn [buffer_ old_set_buffer]. rewrite length_splice by done.
    replace (Z.to_nat (pos + Z.of_nat (length a))) with (Z.to_nat pos + length a)%nat by lia.
    case_decide; [|by rewrite decide_False by lia].
    rewrite decide_True, !bind_ok, splice_splice by lia. done.
  - by rewrite decide_False by lia.
Qed.

(** The room that is asked for before a prefix is written. *)
Definition prefix_room (v : Z) (p : OldPacker) : OldPacker :=
  let q := old_CheckSize 2 (old_position_ p) p in
  if v <? 0x8000 then q else old_CheckSize 3 (old_position_ q) q.

Lemma old_PushVariableUint32_put v p : 0 ≤ v →
  let q := prefix_room v p in 0 ≤ old_position_ q →
  old_PushVariableUint32 v p =
    (r ← old_poke (old_position_ q) (var_enc v) q;
     Ok (old_set_position (u32 (old_position_ q + var_size v)) r, var_size v)).
Proof.
  intros Hv. unfold prefix_room, old_PushVariableUint32, var_size, var_enc. cbv zeta.
  set (p2 := old_CheckSize 2 _ p). destruct (v <? 0x8000).
  - intros _. unfold old_poke. destruct (write_at _ _ _); [|done]. reflexivity.
  - set (q := old_CheckSize 3 _ p2). intros Hq. rewrite (u16_small _ (long_low_bound v)).
    set (lo := le_bytes 2 _). rewrite <- old_poke_app by done.
    assert (Z.of_nat (length lo) = 2) as -> by (unfold lo; by rewrite length_le_bytes).
    destruct (old_poke (old_position_ q) lo q) as [r|e] eqn:Er; [|done]. rewrite !bind_ok.
    unfold old_poke in Er. apply bind_ok_inv in Er as (b & _ & [= <-]).
    cbn [old_position_ old_set_buffer]. unfold old_poke.
    destruct (write_at _ _ _); [|done]. reflexivity.
Qed.

Lemma prefix_room_holds v p bs : old_holds p bs → room bs (var_size v) →
  old_holds (prefix_room v p) bs ∧ old_position_ (prefix_room v p) = old_position_ p ∧
  old_position_ p + var_size v ≤ Z.of_nat (length (buffer_ (prefix_room v p))) ∧
  old_cerr_ (prefix_room v p) = old_cerr_ p.
Proof.
  unfold room, prefix_room. intros Hh Hr. pose proof Hh as (Hp & _). cbv zeta.
  pose proof (var_size_bound v) as Hv. unfold kMaxPacketSize in Hr.
  destruct (old_CheckSize_holds 2 (old_position_ p) p bs Hh) as (H2 & E2 & _ & L2 & C2); [lia..|].
  revert Hr. unfold var_size. destruct (v <? 0x8000); intros Hr.
  - rewrite E2, C2; [done|]. unfold kMaxPacketSize. lia.
  - destruct (old_CheckSize_holds 3 (old_position_ (old_CheckSize 2 (old_position_ p) p)) _ bs H2)
      as (H3 & E3 & _ & L3 & C3); [lia..|].
    split_and!; [done|by rewrite E3|lia|]. rewrite C3, C2; [done|unfold kMaxPacketSize; lia..].
Qed.

Lemma old_PushVariable_emits v p bs : 0 ≤ v → old_holds p bs → room bs (var_size v) →
  ∃ p', old_PushVariableUint32 v p = Ok (p', var_size v) ∧ old_holds p' (bs ++ var_enc v) ∧
    old_cerr_ p' = old_cerr_ p.
Proof.
  intros Hv Hh Hr. destruct (prefix_room_holds v p bs Hh Hr) as (Hq & Ep & Hl & Ec).
  pose proof Hh as (Hp & _). unfold room, kMaxPacketSize in Hr.
  rewrite old_PushVariableUint32_put by (done || lia).
  destruct (old_put_holds (var_enc v) _ bs Hq) as (p' & HP & Hp' & _ & Ec').
  { rewrite length_var_enc. lia. } { rewrite length_var_enc. lia. }
  unfold old_put in HP. rewrite length_var_enc in HP. apply bind_ok_inv in HP as (r & E & [= <-]).
  rewrite E, bind_ok. exists (old_set_position (u32 (old_position_ r + var_size v)) r).
  unfold old_poke in E. apply bind_ok_inv in E as (b & _ & [= <-]).
  cbn [old_position_ old_set_buffer] in *. split; [done|]. split; [done|].
  by rewrite Ec', Ec.
Qed.

(** The guarded copy: nothing is copied when there is nothing. *)
Lemma old_check_guard d p bs : old_holds p bs → room bs (Z.of_nat (length d)) →
  old_emits (let p := old_CheckSize (Z.of_nat (length d)) (old_position_ p) p in
             if 0 <? Z.of_nat (length d) then old_put d p else Ok p) p bs d.
Proof.
  intros Hh Hr. destruct d as [|x d]; [|by apply old_check_put].
  pose proof Hh as (Hp & _). unfold room in Hr. cbn [length] in *. cbv zeta. cbn [Z.of_nat Z.ltb Z.compare].
  destruct (old_CheckSize_holds 0 (old_position_ p) p bs Hh) as (Hq & _ & _ & _ & Ec);
    [unfold kMaxPacketSize in Hr; lia..|].
  exists (old_CheckSize 0 (old_position_ p) p). rewrite app_nil_r. split_and!; [done..|]. apply Ec. lia.
Qed.

Lemma old_PushString_emits s p bs : old_holds p bs → room bs (3 + Z.of_nat (length s)) →
  old_emits (old_PushString s p) p bs (str_enc s).
Proof.
  intros Hh Hr. pose proof Hr as Hr'. unfold room, kMaxPacketSize in Hr'.
  pose proof (var_size_bound (Z.of_nat (length s))) as Hv.
  unfold old_PushString, str_enc. cbv zeta. rewrite u32_small by lia.
  destruct (old_PushVariable_emits (Z.of_nat (length s)) p bs) as (q & -> & Hq & Ec); [lia|done| |].
  { unfold room, kMaxPacketSize. lia. }
  rewrite bind_ok, Nat2Z.id, take_ge by lia. pose proof (length_var_enc (Z.of_nat (length s))).
  destruct (old_check_guard s q _ Hq) as (p' & HP & Hp' & Ec').
  { unfold room, kMaxPacketSize. rewrite length_app. lia. }
  exists p'. rewrite app_assoc, <- Ec, <- Ec'. split_and!; done.
Qed.

Lemma old_patch n v pos p bs : old_holds p bs → room bs 0 → 4 ≤ pos →
  pos + Z.of_nat n ≤ 4 + Z.of_nat (length bs) →
  ∃ p', old_poke pos (le_bytes n v) (old_CheckSize (Z.of_nat n) pos p) = Ok p' ∧
    old_holds p' (splice (Z.to_nat (pos - 4)) (le_bytes n v) bs) ∧ old_cerr_ p' = old_cerr_ p.
Proof.
  intros Hh Hr H4 Hn. unfold room, kMaxPacketSize in Hr.
  destruct (old_CheckSize_holds (Z.of_nat n) pos p bs Hh) as ((Hp & Hl & Hb) & _ & _ & _ & Ec); [lia..|].
  set (q := old_CheckSize (Z.of_nat n) pos p) in *. unfold old_poke.
  rewrite write_at_ok, bind_ok by (rewrite length_le_bytes; lia).
  eexists; split; [done|]. split; [|by apply Ec; unfold kMaxPacketSize; lia].
  unfold old_holds. cbn [buffer_ old_position_ old_set_buffer].
  rewrite !length_splice by (rewrite length_le_bytes; lia). split_and!; [done|done|].
  rewrite <- Hb at 2. unfold splice. rewrite drop_app_le by (rewrite length_take; lia).
  set (d := le_bytes n v). assert (length d = n) as Hd by apply length_le_bytes.
  rewrite Hd. rewrite skipn_firstn_comm, take_take, Nat.min_l by lia.
  rewrite skipn_firstn_comm, drop_drop.
  rewrite take_app_ge by (rewrite length_take, length_drop; lia). f_equal; [f_equal; lia|].
  rewrite length_take, length_drop, Nat.min_l by lia.
  rewrite take_app_ge by lia. f_equal. rewrite Hd. f_equal; [lia|]. f_equal. lia.
Qed.

Lemma old_push_stands o p bs : old_holds p bs → allowed o bs →
  ∃ p', op_push o p = Ok p' ∧ old_holds p' (pushed o bs) ∧ old_cerr_ p' = old_cerr_ p.
Proof.
  intros Hh. destruct o; cbn [op_push old_packer allowed pushed]; intros Ha.
  - by apply (old_check_put (le_bytes 1 _)).
  - by apply (old_check_put (le_bytes 1 _)).
  - by apply (old_check_put (le_bytes 2 _)).
  - by apply (old_check_put (le_bytes 4 _)).
  - by apply (old_check_put (le_bytes 8 _)).
  - by apply (old_check_put (le_bytes 8 _)).
  - destruct Ha as [Hv Hr]. pose proof (var_size_bound v).
    destruct (old_PushVariable_emits v p bs Hv Hh) as (p' & -> & Hp'); [unfold room in *; lia|].
    rewrite bind_ok. by exists p'.
  - by apply old_PushString_emits.
  - by apply (old_PushString_emits s).
  - unfold old_PushBinary. pose proof Ha as Hr. unfold room, kMaxPacketSize in Hr.
    rewrite u32_small by lia. by apply old_check_guard.
  - destruct Ha as (Hr & H4 & Hn). by apply (old_patch 2).
  - destruct Ha as (Hr & H4 & Hn). by apply (old_patch 4).
Qed.

Lemma old_CheckSize_fits more pos p : 0 ≤ pos + more → pos + more ≤ Z.of_nat (length (buffer_ p)) →
  pos + more < kMaxPacketSize → old_CheckSize more pos p = p.
Proof.
  unfold kMaxPacketSize, old_CheckSize. intros H0 Hl Hm. rewrite u32_small by lia. cbv zeta.
  unfold kMaxPacketSize. rewrite (proj2 (Z.leb_gt _ _)) by lia. by rewrite (proj2 (Z.ltb_ge _ _)) by lia.
Qed.

(** Either branch of [old_Pack] writes the length of the packet in front of its body. *)
Lemma old_Pack_poke p body : old_holds p body → room body 0 →
  let L := frame_len body in let start := 4 - var_size L in
  old_Pack p = old_poke start (var_enc L) (mkOld (buffer_ p) L start (old_cerr_ p)).
Proof.
  intros (Hp & Hl & _) Hr. unfold room, kMaxPacketSize in Hr. cbv zeta. unfold old_Pack, assert_.
  rewrite (proj2 (Z.ltb_lt _ _)) by (unfold kMaxPacketSize; lia). rewrite bind_ok.
  pose proof (Pack_branch (old_position_ p) body Hp) as Hb. pose proof (frame_len_bound body) as HL.
  destruct (Z.leb_spec 0x8002 (old_position_ p)) as [H8|H8]; injection Hb as E1 E2; rewrite <- E2.
  - cbv zeta. unfold old_set_length, old_set_position. cbn [old_length_ old_position_ buffer_ old_cerr_].
    rewrite E1. set (q := mkOld _ _ _ _).
    assert (prefix_room (frame_len body) q = q) as Eq.
    { unfold prefix_room. cbv zeta. subst q. rewrite !old_CheckSize_fits; [by case_match|..];
        cbn [old_position_ buffer_]; unfold kMaxPacketSize; lia. }
    rewrite old_PushVariableUint32_put by (rewrite ?Eq; subst q; cbn; lia). rewrite Eq.
    assert (var_size (frame_len body) = 3) as -> by lia. subst q. cbn [old_position_].
    unfold old_poke. cbn [buffer_]. destruct (write_at _ _ _); [|done]. reflexivity.
  - cbv zeta. unfold old_set_length, old_set_position. cbn [old_length_ old_position_ buffer_ old_cerr_].
    rewrite (u32_small (_ - 2)), E1, (u16_small (frame_len body)) by lia.
    assert (var_enc (frame_len body) = le_bytes 2 (frame_len body)) as ->; [|done].
    unfold var_enc. by rewrite (proj2 (Z.ltb_lt _ _)) by lia.
Qed.

Lemma old_pack_stands p body : old_holds p body → room body 0 →
  ∃ p', op_pack p = Ok p' ∧ op_data p' = Ok (frame body) ∧ op_body p' = Ok body ∧
    old_holds (op_reset p') [] ∧ old_cerr_ (op_reset p') = old_cerr_ p.
Proof.
  intros Hh Hr. cbn [op_pack op_data op_body op_reset old_packer]. rewrite (old_Pack_poke p body) by done. cbv zeta.
  destruct Hh as (Hp & Hl & Hb). pose proof (frame_len_size body) as HL.
  pose proof (var_size_bound (frame_len body)) as HV. pose proof (length_var_enc (frame_len body)) as HE.
  unfold room, kMaxPacketSize in Hr. unfold old_poke. cbn [buffer_].
  remember (4 - var_size (frame_len body)) as start eqn:Hs.
  rewrite write_at_ok, bind_ok by lia. set (b := splice _ _ _).
  assert (length b = length (buffer_ p)) as Hlb by (apply length_splice; lia).
  assert (∀ n, n = Z.of_nat (length body) → old_peek 4 n (mkOld b (frame_len body) start (old_cerr_ p)) = Ok body) as HB.
  { intros n ->. unfold old_peek. cbn [buffer_]. rewrite read_at_ok by lia. f_equal.
    unfold b. replace (Z.to_nat 4) with (Z.to_nat start + length (var_enc (frame_len body)))%nat by lia.
    rewrite <- drop_drop, splice_from, drop_app_length by lia. rewrite Nat2Z.id.
    etrans; [|exact Hb]. do 2 f_equal. lia. }
  eexists. split; [done|]. split_and!; [| |split_and!; [done|cbn; lia|done]|done].
  - unfold old_Data, old_peek. cbn [old_position_ old_length_ buffer_ old_set_buffer].
    rewrite read_at_ok by lia. f_equal. unfold b. rewrite splice_from by lia. unfold frame.
    rewrite take_app_ge by lia. f_equal. etrans; [|exact Hb]. f_equal; [lia|]. f_equal. lia.
  - assert ((if 0x8000 <=? frame_len body then u32 (frame_len body - 3) else u32 (frame_len body - 2)) =
      Z.of_nat (length body)) as Hn.
    { unfold var_size in HL. repeat case_match; width. }
    unfold old_Body. cbn [old_length_ old_set_buffer]. case_match; by apply HB.
Qed.

#[export] Instance old_laws : PackerLaws OldPacker := {|
  stands := old_holds;
  push_stands := old_push_stands;
  pack_stands := old_pack_stands;
|}.

Lemma old_make_stands : stands old_make [].
Proof. by vm_compute. Qed.
Lemma make_stands buffer_sz : 0 ≤ buffer_sz < 2 ^ 32 → stands (make buffer_sz) [].
Proof. apply make_holds. Qed.

(** The empty vector that [TakeBuffer] leaves grows to the same as one of four bytes. *)
Definition four_bytes (p : OldPacker) : OldPacker := old_set_buffer (replicate 4 0) p.

Lemma enlarge_empty n : 4 ≤ n → enlarge n [] = enlarge n (replicate 4 0).
Proof.
  intros Hn. unfold enlarge. cbn [length]. rewrite List.app_nil_l, <- replicate_add. f_equal.
  rewrite length_replicate. lia.
Qed.
Lemma old_CheckSize_empty more p : buffer_ p = [] → 0 ≤ more < 2 ^ 31 →
  old_CheckSize more 4 p = old_CheckSize more 4 (four_bytes p).
Proof.
  intros Hb Hm. unfold old_CheckSize. rewrite u32_small by lia. cbv zeta.
  destruct p as [b l q c]. cbn in Hb. subst b. unfold four_bytes, old_set_buffer, old_complain.
  assert ((Z.of_nat (length (@nil Z)) <? 4 + more) = true) as E by (apply Z.ltb_lt; cbn; lia).
  cbn [buffer_ old_length_ old_position_ old_cerr_].
  destruct (kMaxPacketSize <=? 4 + more); cbn [buffer_ old_length_ old_position_ old_cerr_]; rewrite E;
    (destruct (Z.ltb_spec (Z.of_nat (length (replicate 4 0))) (4 + more)) as [H|H]; cbn in H;
     [by rewrite enlarge_empty by lia|replace (4 + more) with 4 by lia; done]).
Qed.

Lemma old_push_empty o p : buffer_ p = [] → old_position_ p = 4 → allowed o [] →
  op_push o p = op_push o (four_bytes p).
Proof.
  intros Hb Hp Ha. assert (old_position_ (four_bytes p) = 4) as Hp' by done.
  assert (∀ s : bytes, room [] (3 + Z.of_nat (length s)) ∨ room [] (Z.of_nat (length s)) →
    0 ≤ u32 (Z.of_nat (length s)) < 2 ^ 31) as Hs.
  { unfold room, kMaxPacketSize. cbn [length]. intros s Hr. rewrite u32_small by lia. lia. }
  destruct o; cbn [op_push old_packer allowed] in *;
    unfold old_PushBoolean, old_PushUint8, old_PushUint16, old_PushUint32, old_PushUint64, old_PushDouble,
      old_PushString, old_PushBuffer, old_PushVariableUint32, old_PushBinary; cbv zeta;
    rewrite ?Hp, ?Hp'; rewrite ?(old_CheckSize_empty _ p) by (done || apply Hs; auto); try done.
  - destruct Ha as (_ & H4 & Hn). cbn in Hn. lia.
  - destruct Ha as (_ & H4 & Hn). cbn in Hn. lia.
Qed.

(** ** Properties *)


Definition demo_messages : list (list push_op) :=
  [[PUint16 7; PString (str "hello"); PWrite16 9 4]; []; [PBinary (replicate (Z.to_nat 33000) 1); PVariable 40000]].

(** once its buffer has been taken and it is reset, the older packer goes on as if it
    were new, unless the next message is empty: its prefix would be written into an empty
    vector.  The packer of base/packer.h has no buffer then: whatever is pushed, and
    [Pack], dereferences a null pointer. *)
Theorem packers_after_take (p : OldPacker) (o : push_op) (ops : list push_op) (ms : list (list push_op)) :
  all_allowed (o :: ops) [] → Forall (λ ops, all_allowed ops []) ms →
  let taken := old_Reset (snd (old_TakeBuffer p)) in
  fst <$> messages ((o :: ops) :: ms) taken =
    Ok ((λ ops, (frame (content ops), content ops)) <$> (o :: ops) :: ms) ∧
  op_pack taken = Err OutOfBounds ∧
  (∀ q, mem_ q = None → (∀ o, op_push o (Reset q) = Err NullDeref) ∧ op_pack (Reset q) = Err NullDeref).
Proof.
  intros Ho Hms taken. split; [|split].
  - assert (messages ((o :: ops) :: ms) taken = messages ((o :: ops) :: ms) (four_bytes taken)) as ->.
    { cbn [messages]. unfold message. cbn [push_all]. by rewrite old_push_empty by (done || apply Ho). }
    destruct (messages_frames ((o :: ops) :: ms) (four_bytes taken)) as (q & -> & _); [|by constructor|done].
    by vm_compute.
  - reflexivity.
  - intros q Hq. assert (∀ more pos, CheckSize more pos (Reset q) = Err NullDeref) as Hc.
    { intros more pos. destruct q as [m l c n]. cbn in Hq. subst m. unfold CheckSize.
      by destruct (kMaxPacketSize <=? u32 (pos + more)). }
    split.
    + intros []; cbn [op_push new_packer];
        unfold PushBoolean, PushUint8, PushUint16, PushUint32, PushUint64, PushDouble, PushString, PushBuffer,
          PushVariableUint32, PushBinary, WriteUint16, WriteUint32; by rewrite Hc.
    + destruct q as [m l c n]. cbn in Hq. by subst m.
Qed.
Lemma packers_after_take_witness :
  fst <$> messages [[PUint8 1]; []] (old_Reset (snd (old_TakeBuffer old_make))) =
    Ok [([3; 0; 1], [1]); ([2; 0], [])].
Proof.
  apply (packers_after_take old_make (PUint8 1) [] [[]]);
    [|repeat constructor]; repeat split; apply (bool_decide_unpack _); vm_compute; reflexivity.
Defined.
