(* ===== verification/MemSlice.v ===== *)
(** * MemSlice: memory/mem_slice.h and mem_slice.cpp

    A [MemSlice] is a window [begin_offset_, end_offset_) on a [MemBuf] that
    several slices may share; the buffers live in a heap and are freed by the
    [Release] of their last slice.  The operations are written in a small
    state-and-error monad over the heap: touching a freed buffer is
    [Err UseAfterFree]. *)

From stdpp Require Import gmap.
From S2P Require Import Prelude Bytes Wire MemBuf Packer.

Abbreviation loc := positive.
Abbreviation heap := (gmap positive MemBuf.MemBuf).

(** ** The heap monad *)

Definition HM (A : Type) : Type := heap → result (A * heap).
#[export] Instance HM_ret : MRet HM := λ A a h, Ok (a, h).
#[export] Instance HM_bind : MBind HM := λ A B f m h,
  match m h with Ok (a, h) => f a h | Err e => Err e end.

Definition fault_ {A} (e : fault) : HM A := λ h, Err e.
Definition lift {A} (r : result A) : HM A := λ h,
  match r with Ok a => Ok (a, h) | Err e => Err e end.

Definition load (l : loc) : HM MemBuf.MemBuf := λ h,
  match h !! l with Some b => Ok (b, h) | None => Err UseAfterFree end.
Definition store (l : loc) (b : MemBuf.MemBuf) : HM unit := λ h, Ok (tt, <[l := b]> h).
Definition dealloc (l : loc) : HM unit := λ h, Ok (tt, delete l h).
(** [malloc] returns an address that no live buffer has. *)
Definition fresh_loc (h : heap) : loc :=
  Pos.succ (foldr Pos.max 1%positive (fst <$> map_to_list h)).
Definition alloc (b : MemBuf.MemBuf) : HM loc := λ h,
  let l := fresh_loc h in Ok (l, <[l := b]> h).

(** [buffer->AddRef()], [buffer->Release()] and [buffer->Capacity()]. *)
Definition add_ref (l : loc) : HM unit :=
  b ← load l; store l (MemBuf.AddRef b).
Definition release (l : loc) : HM unit :=
  b ← load l;
  match MemBuf.Release b with
  | Some b => store l b
  | None => dealloc l
  end.
Definition buf_capacity (l : loc) : HM Z :=
  b ← load l; mret (MemBuf.Capacity b).

(** [if (buffer_) ...]. *)
Definition when_some (o : option loc) (f : loc → HM unit) : HM unit :=
  match o with Some l => f l | None => mret tt end.
Definition non_null (o : option loc) : HM loc :=
  match o with Some l => mret l | None => fault_ NullDeref end.

(** ** The class *)

Record MemSlice := mkMemSlice {
  buffer_ : option loc;
  begin_offset_ : Z;     (* uint32_t *)
  end_offset_ : Z;       (* uint32_t *)
}.

Definition null_slice : MemSlice := mkMemSlice None 0 0.

Definition Initialize (buffer : option loc) : HM MemSlice :=
  match buffer with
  | Some l =>
      _ ← add_ref l;
      cap ← buf_capacity l;
      mret (mkMemSlice buffer 0 cap)
  | None => mret (mkMemSlice buffer 0 0)
  end.

(** [MemSlice(buffer, size)]. *)
Definition make (buffer : option loc) (size : Z) : HM MemSlice :=
  s ← Initialize buffer;
  match buffer with
  | Some l =>
      cap ← buf_capacity l;
      mret (mkMemSlice (buffer_ s) (begin_offset_ s) (Z.min size cap))
  | None => mret s
  end.

(** [MemSlice(const MemSlice &)]. *)
Definition copy (rhs : MemSlice) : HM MemSlice :=
  s ← Initialize (buffer_ rhs);
  mret (mkMemSlice (buffer_ s) (begin_offset_ rhs) (end_offset_ rhs)).

(** [MemSlice(MemSlice &&)]: the new slice and what is left of [rhs]. *)
Definition move (rhs : MemSlice) : HM (MemSlice * MemSlice) :=
  s ← Initialize (buffer_ rhs);
  _ ← when_some (buffer_ rhs) release;
  mret (mkMemSlice (buffer_ s) (begin_offset_ rhs) (end_offset_ rhs), null_slice).

(** [~MemSlice]. *)
Definition destroy (s : MemSlice) : HM unit := when_some (buffer_ s) release.

(** [operator=(const MemSlice &)] between two different objects; the same
    object is returned untouched. *)
Definition assign (self rhs : MemSlice) : HM MemSlice :=
  _ ← when_some (buffer_ self) release;
  _ ← when_some (buffer_ rhs) add_ref;
  mret (mkMemSlice (buffer_ rhs) (begin_offset_ rhs) (end_offset_ rhs)).

(** [operator=(MemSlice &&)] swaps. *)
Definition move_assign (self rhs : MemSlice) : MemSlice * MemSlice := (rhs, self).

(** [operator=] from a raw buffer and [Reset(buffer)]. *)
Definition assign_buf (self : MemSlice) (buf : option loc) : HM MemSlice :=
  _ ← when_some (buffer_ self) release;
  Initialize buf.
Definition Reset (self : MemSlice) (buf : option loc) : HM MemSlice :=
  _ ← when_some (buffer_ self) release;
  Initialize buf.

Definition UpdateBegin (off_set : Z) (s : MemSlice) : bool * MemSlice :=
  if end_offset_ s <? u32 (begin_offset_ s + off_set) then (false, s)
  else (true, mkMemSlice (buffer_ s) (u32 (begin_offset_ s + off_set)) (end_offset_ s)).

(** [Begin()] and [End()] compute addresses inside the buffer. *)
Definition Begin (s : MemSlice) : HM (loc * Z) :=
  l ← non_null (buffer_ s); mret (l, begin_offset_ s).
Definition End_ (s : MemSlice) : HM (loc * Z) :=
  l ← non_null (buffer_ s); mret (l, end_offset_ s).

Definition GetMemBuf (s : MemSlice) : option loc := buffer_ s.
Definition GetUdpBuffer (s : MemSlice) : option loc := buffer_ s.
Definition GetUsedSize (s : MemSlice) : Z := u32 (end_offset_ s - begin_offset_ s).

Definition SetBeginPointer (position : Z) (s : MemSlice) : HM MemSlice :=
  let position := if end_offset_ s <? position then end_offset_ s else position in
  let s := mkMemSlice (buffer_ s) position (end_offset_ s) in
  _ ← Begin s;
  mret s.

Definition SetEndPointer (position : Z) (s : MemSlice) : HM MemSlice :=
  let position := if position <? begin_offset_ s then begin_offset_ s else position in
  l ← non_null (buffer_ s);
  cap ← buf_capacity l;
  let position := if cap <? position then cap else position in
  let s := mkMemSlice (buffer_ s) (begin_offset_ s) position in
  _ ← End_ s;
  mret s.

(** [static_cast<int32_t>(x) + offset], where overflow is undefined. *)
Definition add_i32 (x offset : Z) : HM Z :=
  let r := i32 x + offset in
  if (- 2 ^ 31 <=? r) && (r <? 2 ^ 31) then mret (u32 r) else fault_ SignedOverflow.

Definition AdjustBeginPointer (offset : Z) (s : MemSlice) : HM MemSlice :=
  position ← add_i32 (begin_offset_ s) offset;
  SetBeginPointer position s.

Definition AdjustEndPointer (offset : Z) (s : MemSlice) : HM MemSlice :=
  position ← add_i32 (end_offset_ s) offset;
  SetEndPointer position s.

(** [buffer_->Clone()] under a new slice with the same window. *)
Definition Clone (s : MemSlice) : HM MemSlice :=
  l ← non_null (buffer_ s);
  b ← load l;
  b' ← lift (MemBuf.Clone b);
  l' ← alloc b';
  tmp ← make (Some l') 65536;
  mret (mkMemSlice (buffer_ tmp) (begin_offset_ s) (end_offset_ s)).

(** The bytes of the window. *)
Definition window (s : MemSlice) : HM (list cell) :=
  '(l, pos) ← Begin s;
  b ← load l;
  lift (read_at (Z.to_nat pos) (Z.to_nat (GetUsedSize s)) (MemBuf.mem b)).

(** [MemBuf::Create(Begin(), GetUsedSize())]. *)
Definition CloneSlicedMem (s : MemSlice) : HM loc :=
  src ← window s;
  b ← lift (MemBuf.Create_copy src (GetUsedSize s));
  alloc b.

(** ** Programs over slices

    The state of a program: the heap, the slice objects that are alive, and the
    buffers that were created but are not yet in any slice. *)

Record state := mkState {
  mem : heap;
  objs : list MemSlice;
  raw : gset loc;
}.

Inductive op :=
  | OCreate (capacity : Z)                  (* MemBuf::Create(capacity) *)
  | ONew (buffer : option loc) (size : Z)   (* MemSlice(buffer, size) *)
  | OCopy (i : nat)
  | OMove (i : nat)
  | ODestroy (i : nat)
  | OAssign (i j : nat)
  | OMoveAssign (i j : nat)
  | OAssignBuf (i : nat) (buffer : option loc)
  | OReset (i : nat) (buffer : option loc)
  | OUpdateBegin (i : nat) (off_set : Z)
  | OSetBegin (i : nat) (position : Z)
  | OSetEnd (i : nat) (position : Z)
  | OAdjustBegin (i : nat) (offset : Z)
  | OAdjustEnd (i : nat) (offset : Z)
  | OClone (i : nat)
  | OCloneSlicedMem (i : nat).

(** The object of index [i]; an index without object is not a program. *)
Definition obj (i : nat) (st : state) : result MemSlice :=
  match objs st !! i with Some s => Ok s | None => Err NullDeref end.

Definition take_raw (buffer : option loc) (r : gset loc) : gset loc :=
  match buffer with Some l => r ∖ {[l]} | None => r end.

(** Object [i] is updated in place by [f]. *)
Definition update (i : nat) (f : MemSlice → HM MemSlice) (r : gset loc) (st : state)
    : result state :=
  s ← obj i st;
  '(s', h) ← f s (mem st);
  Ok (mkState h (<[i := s']> (objs st)) r).

Definition exec (o : op) (st : state) : result state :=
  match o with
  | OCreate capacity =>
      '(l, h) ← alloc (MemBuf.Create capacity) (mem st);
      Ok (mkState h (objs st) ({[l]} ∪ raw st))
  | ONew buffer size =>
      '(s, h) ← make buffer size (mem st);
      Ok (mkState h (objs st ++ [s]) (take_raw buffer (raw st)))
  | OCopy i =>
      s ← obj i st;
      '(s', h) ← copy s (mem st);
      Ok (mkState h (objs st ++ [s']) (raw st))
  | OMove i =>
      s ← obj i st;
      '(s', rhs, h) ← move s (mem st);
      Ok (mkState h (<[i := rhs]> (objs st) ++ [s']) (raw st))
  | ODestroy i =>
      s ← obj i st;
      '(_, h) ← destroy s (mem st);
      Ok (mkState h (delete i (objs st)) (raw st))
  | OAssign i j =>
      if decide (i = j) then Ok st
      else rhs ← obj j st; update i (λ s, assign s rhs) (raw st) st
  | OMoveAssign i j =>
      s ← obj i st; rhs ← obj j st;
      let '(s', rhs') := move_assign s rhs in
      Ok (mkState (mem st) (<[j := rhs']> (<[i := s']> (objs st))) (raw st))
  | OAssignBuf i buffer =>
      update i (λ s, assign_buf s buffer) (take_raw buffer (raw st)) st
  | OReset i buffer =>
      update i (λ s, Reset s buffer) (take_raw buffer (raw st)) st
  | OUpdateBegin i off_set =>
      update i (λ s, mret (snd (UpdateBegin off_set s))) (raw st) st
  | OSetBegin i position => update i (SetBeginPointer position) (raw st) st
  | OSetEnd i position => update i (SetEndPointer position) (raw st) st
  | OAdjustBegin i offset => update i (AdjustBeginPointer offset) (raw st) st
  | OAdjustEnd i offset => update i (AdjustEndPointer offset) (raw st) st
  | OClone i =>
      s ← obj i st;
      '(s', h) ← Clone s (mem st);
      Ok (mkState h (objs st ++ [s']) (raw st))
  | OCloneSlicedMem i =>
      s ← obj i st;
      '(l, h) ← CloneSlicedMem s (mem st);
      Ok (mkState h (objs st) ({[l]} ∪ raw st))
  end.

Definition raw_arg (st : state) (buffer : option loc) : Prop :=
  match buffer with Some l => l ∈ raw st | None => True end.
Definition alive (st : state) (i : nat) : Prop := is_Some (objs st !! i).
(** Object [i] holds a buffer, and a property of its window. *)
Definition holds (st : state) (i : nat) (P : MemSlice → Prop) : Prop :=
  ∃ s, objs st !! i = Some s ∧ is_Some (buffer_ s) ∧ P s.
Definition fits_i32 (x offset : Z) : Prop := - 2 ^ 31 ≤ i32 x + offset < 2 ^ 31.

(** What the callers must respect: a buffer is handed over to one slice, the
    pointer operations are called on a slice that holds a buffer, and signed
    offsets do not overflow. *)
Definition enabled (o : op) (st : state) : Prop :=
  Z.of_nat (length (objs st)) < 2 ^ 31 - 1 ∧
  match o with
  | OCreate capacity => 0 ≤ capacity < 2 ^ 32
  | ONew buffer size => raw_arg st buffer ∧ 0 ≤ size < 2 ^ 32
  | OCopy i | OMove i | ODestroy i => alive st i
  | OAssign i j => alive st i ∧ alive st j
  | OMoveAssign i j => alive st i ∧ alive st j
  | OAssignBuf i buffer | OReset i buffer => alive st i ∧ raw_arg st buffer
  | OUpdateBegin i _ => alive st i
  | OSetBegin i position | OSetEnd i position =>
      holds st i (λ _, 0 ≤ position < 2 ^ 32)
  | OAdjustBegin i offset => holds st i (λ s, fits_i32 (begin_offset_ s) offset)
  | OAdjustEnd i offset => holds st i (λ s, fits_i32 (end_offset_ s) offset)
  | OClone i | OCloneSlicedMem i => holds st i (λ _, True)
  end.

Definition init : state := mkState ∅ [] ∅.

Inductive reachable : state → Prop :=
  | reach_init : reachable init
  | reach_step o st st' :
      reachable st → enabled o st → exec o st = Ok st' → reachable st'.

(** ** Reference counts *)

Definition holds_ref (s : MemSlice) (l : loc) : Z :=
  if decide (buffer_ s = Some l) then 1 else 0.

(** The number of slices on the buffer [l]. *)
Fixpoint refs (ss : list MemSlice) (l : loc) : Z :=
  match ss with [] => 0 | s :: ss => holds_ref s l + refs ss l end.

Lemma holds_ref_bound s l : 0 ≤ holds_ref s l ≤ 1.
Proof. unfold holds_ref. case_decide; lia. Qed.

Lemma refs_bound ss l : 0 ≤ refs ss l ≤ Z.of_nat (length ss).
Proof.
  induction ss as [|s ss IH]; simpl; [lia|]. pose proof (holds_ref_bound s l). lia.
Qed.

Lemma refs_app ss ts l : refs (ss ++ ts) l = refs ss l + refs ts l.
Proof. induction ss as [|s ss IH]; simpl; [done|]. lia. Qed.

Lemma refs_delete ss i s l :
  ss !! i = Some s → refs (delete i ss) l = refs ss l - holds_ref s l.
Proof.
  revert i. induction ss as [|t ss IH]; intros [|i] Hi; simplify_eq/=; [lia|].
  rewrite (IH i Hi). lia.
Qed.

Lemma refs_insert ss i s s' l :
  ss !! i = Some s →
  refs (<[i := s']> ss) l = refs ss l - holds_ref s l + holds_ref s' l.
Proof.
  revert i. induction ss as [|t ss IH]; intros [|i] Hi; simplify_eq/=; [lia|].
  rewrite (IH i Hi). lia.
Qed.

Lemma refs_lookup ss i s l :
  ss !! i = Some s → holds_ref s l ≤ refs ss l.
Proof.
  intros Hi. pose proof (refs_delete ss i s l Hi).
  pose proof (refs_bound (delete i ss) l). lia.
Qed.

Lemma holds_ref_some s l : buffer_ s = Some l → holds_ref s l = 1.
Proof. intros. unfold holds_ref. by rewrite decide_True. Qed.

(** The heap agrees with a count of references: every buffer is well formed,
    its counter is the number of references, it is raw when nobody refers to
    it, and what is referred to or raw is alive. *)
Definition heap_ok (h : heap) (r : gset loc) (f : loc → Z) : Prop :=
  (∀ l, 0 ≤ f l) ∧
  (∀ l b, h !! l = Some b →
     MemBuf.wf b ∧ MemBuf.ref_cnt_ b = f l ∧ (l ∈ r ↔ f l = 0)) ∧
  (∀ l, 0 < f l ∨ l ∈ r → is_Some (h !! l)).

#[export] Instance heap_ok_proper :
  Proper ((=) ==> (=) ==> pointwise_relation loc (=) ==> iff) heap_ok.
Proof.
  intros h _ <- r _ <- f g E. unfold heap_ok, pointwise_relation in *.
  split; intros (H1 & H2 & H3); (split_and!; intros l; [|intros b Hb|]);
    first [rewrite <- E | rewrite E]; eauto.
Qed.

Lemma heap_ok_ext h r f g : (∀ l, f l = g l) → heap_ok h r f → heap_ok h r g.
Proof. intros E. apply (heap_ok_proper h h eq_refl r r eq_refl f g E). Qed.

(** [shrinks h h']: the buffers of [h'] are buffers of [h], with the same
    capacity and bytes. *)
Definition same_buf (b b' : MemBuf.MemBuf) : Prop :=
  MemBuf.capacity_ b = MemBuf.capacity_ b' ∧ MemBuf.mem b = MemBuf.mem b'.
Definition shrinks (h h' : heap) : Prop :=
  ∀ l b', h' !! l = Some b' → ∃ b, h !! l = Some b ∧ same_buf b b'.

#[export] Instance shrinks_preorder : PreOrder shrinks.
Proof.
  split.
  - intros h l b Hb. eexists. split; [done|]. by split.
  - intros h1 h2 h3 H12 H23 l b3 H3.
    destruct (H23 l b3 H3) as (b2 & H2 & E2 & F2).
    destruct (H12 l b2 H2) as (b1 & H1 & E1 & F1).
    exists b1. split; [done|]. split; congruence.
Qed.

Lemma shrinks_store h l b b' :
  h !! l = Some b → same_buf b b' → shrinks h (<[l := b']> h).
Proof.
  intros Hl Hs k c Hk. destruct (decide (k = l)) as [->|Hne].
  - rewrite lookup_insert_eq in Hk. simplify_eq. eauto.
  - rewrite lookup_insert_ne in Hk by done. exists c. split; [done|]. by split.
Qed.

Lemma shrinks_delete h l : shrinks h (delete l h).
Proof.
  intros k c Hk. apply lookup_delete_Some in Hk as [_ Hk].
  exists c. split; [done|]. by split.
Qed.

Definition incr (l : loc) (f : loc → Z) : loc → Z :=
  λ k, if decide (l = k) then f k + 1 else f k.
Definition decr (l : loc) (f : loc → Z) : loc → Z :=
  λ k, if decide (l = k) then f k - 1 else f k.

Lemma heap_ok_insert h r r' f g l b :
  heap_ok h r f → MemBuf.wf b → MemBuf.ref_cnt_ b = g l → 0 ≤ g l →
  (l ∈ r' ↔ g l = 0) →
  (∀ k, k ≠ l → f k = g k ∧ (k ∈ r ↔ k ∈ r')) →
  heap_ok (<[l := b]> h) r' g.
Proof.
  intros (H1 & H2 & H3) Hw Hg Hg0 Hr Hk. split_and!.
  - intros k. destruct (decide (k = l)) as [->|Hne]; [done|].
    destruct (Hk k Hne) as [<- _]. done.
  - intros k c Hc. destruct (decide (k = l)) as [->|Hne].
    + rewrite lookup_insert_eq in Hc. by simplify_eq.
    + rewrite lookup_insert_ne in Hc by done.
      destruct (Hk k Hne) as [<- <-]. by apply H2.
  - intros k Ha. destruct (decide (k = l)) as [->|Hne].
    + rewrite lookup_insert_eq. eauto.
    + rewrite lookup_insert_ne by done. apply H3.
      destruct (Hk k Hne) as [-> ->]. done.
Qed.

Lemma add_ref_ok h r f l :
  heap_ok h r f → 0 < f l ∨ l ∈ r → f l < 2 ^ 31 - 1 →
  ∃ h', add_ref l h = Ok (tt, h') ∧ heap_ok h' (r ∖ {[l]}) (incr l f) ∧ shrinks h h'.
Proof.
  intros Hh Ha Hf. pose proof Hh as (H1 & H2 & H3). destruct (H3 l Ha) as [b Hb].
  destruct (H2 l b Hb) as (Hw & Hc & Hr). specialize (H1 l).
  unfold add_ref, load, store, mbind, HM_bind. rewrite Hb.
  eexists; split; [done|]. split; [|by eapply shrinks_store].
  eapply heap_ok_insert; [done|done|..]; unfold incr; rewrite ?decide_True by done.
  - simpl. rewrite Hc. rewrite i32_small; lia.
  - lia.
  - rewrite elem_of_difference, elem_of_singleton. split; [by intros []|lia].
  - intros k Hne. rewrite decide_False, elem_of_difference, elem_of_singleton by done.
    by split; [|split; [|intros []]].
Qed.

Lemma release_ok h r f l :
  heap_ok h r f → 0 < f l → f l < 2 ^ 31 →
  ∃ h', release l h = Ok (tt, h') ∧ heap_ok h' r (decr l f) ∧ shrinks h h'.
Proof.
  intros Hh Ha Hf. pose proof Hh as (H1 & H2 & H3).
  destruct (H3 l (or_introl Ha)) as [b Hb]. destruct (H2 l b Hb) as (Hw & Hc & Hr).
  unfold release, load, store, dealloc, mbind, HM_bind, MemBuf.Release. rewrite Hb, Hc.
  destruct (Z.leb_spec (f l) 1) as [Hle|Hgt].
  - eexists; split; [done|]. split; [|apply shrinks_delete]. split_and!.
    + intros k. unfold decr. case_decide; [subst; lia|done].
    + intros k c Hk. apply lookup_delete_Some in Hk as [Hne Hk].
      unfold decr. rewrite decide_False by done. by apply H2.
    + intros k Hk. unfold decr in Hk. destruct (decide (l = k)) as [<-|Hne].
      * destruct Hk as [?|Hk]; [lia|]. apply Hr in Hk. lia.
      * rewrite lookup_delete_ne by done. by apply H3.
  - eexists; split; [done|]. split; [|by eapply shrinks_store].
    eapply heap_ok_insert; [done|done|..]; unfold decr; rewrite ?decide_True by done.
    + simpl. rewrite i32_small; lia.
    + lia.
    + split; [intros E%Hr; lia|lia].
    + intros k Hne. by rewrite decide_False by done.
Qed.

Lemma fresh_loc_fresh h : h !! fresh_loc h = None.
Proof.
  assert (∀ ls l, l ∈ ls → (l ≤ foldr Pos.max 1 ls)%positive) as Hmax.
  { induction ls as [|k ls IH]; intros l Hl; [by apply elem_of_nil in Hl|].
    apply elem_of_cons in Hl as [->|Hl]; simpl; [lia|]. specialize (IH l Hl). lia. }
  destruct (h !! fresh_loc h) as [b|] eqn:E; [|done].
  apply elem_of_map_to_list in E. apply (list_elem_of_fmap_2 fst) in E.
  apply Hmax in E. unfold fresh_loc in E. simpl in E. lia.
Qed.

Lemma alloc_ok h r f b :
  heap_ok h r f → MemBuf.wf b → MemBuf.ref_cnt_ b = 0 →
  ∃ l h', alloc b h = Ok (l, h') ∧ h' !! l = Some b ∧ f l = 0 ∧ h !! l = None ∧
    heap_ok h' ({[l]} ∪ r) f ∧ (∀ k, k ≠ l → h' !! k = h !! k).
Proof.
  intros Hh Hw Hc. pose proof Hh as (H1 & H2 & H3).
  set (l := fresh_loc h). pose proof (fresh_loc_fresh h) as Hl. fold l in Hl.
  assert (f l = 0) as Hf.
  { specialize (H1 l). destruct (decide (0 < f l)) as [Hp|]; [|lia].
    destruct (H3 l (or_introl Hp)) as [? E]. congruence. }
  exists l, (<[l := b]> h). split_and!; try done.
  - apply lookup_insert_eq.
  - eapply heap_ok_insert; [done|done|congruence|lia|clear -Hf; set_solver|].
    intros k Hne. clear -Hne. set_solver.
  - intros k Hne. by rewrite lookup_insert_ne.
Qed.

(** ** Windows *)

(** The window of a slice stays inside its buffer. *)
Definition window_ok (h : heap) (s : MemSlice) : Prop :=
  match buffer_ s with
  | None => begin_offset_ s = 0 ∧ end_offset_ s = 0
  | Some l => ∀ b, h !! l = Some b →
      0 ≤ begin_offset_ s ≤ end_offset_ s ∧ end_offset_ s ≤ MemBuf.capacity_ b
  end.

Lemma window_ok_shrinks h h' s : shrinks h h' → window_ok h s → window_ok h' s.
Proof.
  unfold window_ok. intros Hs Hw. destruct (buffer_ s) as [l|]; [|done].
  intros b' Hb'. destruct (Hs l b' Hb') as (b & Hb & Hc & _).
  rewrite <- Hc. by apply Hw.
Qed.

Lemma windows_ok_shrinks h h' ss :
  shrinks h h' → Forall (window_ok h) ss → Forall (window_ok h') ss.
Proof. intros Hs. apply Forall_impl. intros s. by apply window_ok_shrinks. Qed.

Definition inv (st : state) : Prop :=
  heap_ok (mem st) (raw st) (refs (objs st)) ∧ Forall (window_ok (mem st)) (objs st).

Lemma heap_ok_raw h r f l : heap_ok h r f → 0 < f l → r ∖ {[l]} = r.
Proof.
  intros (H1 & H2 & H3) Hp. destruct (H3 l (or_introl Hp)) as [b Hb].
  destruct (H2 l b Hb) as (_ & _ & Hr). apply set_eq. intros k.
  rewrite elem_of_difference, elem_of_singleton.
  split; [by intros []|]. intros Hk. split; [done|].
  intros ->. apply Hr in Hk. lia.
Qed.

Lemma drop_ref_ok h r f s :
  heap_ok h r f → (∀ l, holds_ref s l ≤ f l < 2 ^ 31) →
  ∃ h', when_some (buffer_ s) release h = Ok (tt, h') ∧
        heap_ok h' r (λ l, f l - holds_ref s l) ∧ shrinks h h'.
Proof.
  intros Hh Hf. destruct (buffer_ s) as [l|] eqn:Es; simpl.
  - specialize (Hf l) as Hl. rewrite (holds_ref_some _ _ Es) in Hl.
    destruct (release_ok h r f l Hh) as (h' & -> & Hh' & Hs); [lia..|].
    exists h'. split_and!; try done. eapply heap_ok_ext; [|done].
    intros k. unfold decr, holds_ref. rewrite Es.
    repeat case_decide; simplify_eq; lia.
  - exists h. split_and!; try done. eapply heap_ok_ext; [|done].
    intros k. unfold holds_ref. rewrite Es. case_decide; [done|lia].
Qed.

Definition buf_arg (r : gset loc) (f : loc → Z) (buffer : option loc) : Prop :=
  match buffer with Some l => 0 < f l ∨ l ∈ r | None => True end.

Lemma Initialize_ok h r f buffer :
  heap_ok h r f → buf_arg r f buffer → (∀ l, f l < 2 ^ 31 - 1) →
  ∃ s h', Initialize buffer h = Ok (s, h') ∧ buffer_ s = buffer ∧
    heap_ok h' (take_raw buffer r) (λ l, f l + holds_ref s l) ∧
    shrinks h h' ∧ window_ok h' s.
Proof.
  intros Hh Ha Hf. destruct buffer as [l|]; simpl in *.
  - destruct (add_ref_ok h r f l Hh Ha (Hf l)) as (h' & He & Hh' & Hs).
    unfold Initialize, mbind, HM_bind. rewrite He. unfold buf_capacity, load, mbind, HM_bind.
    pose proof Hh' as (H1 & H2 & H3).
    destruct (H3 l) as [b Hb]. { left. unfold incr. rewrite decide_True by done.
      destruct Hh as (Hf0 & _). specialize (Hf0 l). lia. }
    destruct (H2 l b Hb) as ([Hc _] & _ & _).
    rewrite Hb. do 2 eexists. split_and!; [done|done|..|done|].
    + eapply heap_ok_ext; [|done]. intros k. unfold incr, holds_ref. simpl.
      repeat case_decide; simplify_eq; lia.
    + unfold window_ok. simpl. intros b' Hb'. rewrite Hb in Hb'. simplify_eq.
      unfold MemBuf.Capacity. lia.
  - do 2 eexists. split_and!; [done|done|..|done|done].
    eapply heap_ok_ext; [|done]. intros k. unfold holds_ref. simpl. lia.
Qed.

Lemma make_ok h r f buffer size :
  heap_ok h r f → buf_arg r f buffer → (∀ l, f l < 2 ^ 31 - 1) → 0 ≤ size →
  ∃ s h', make buffer size h = Ok (s, h') ∧ buffer_ s = buffer ∧
    heap_ok h' (take_raw buffer r) (λ l, f l + holds_ref s l) ∧
    shrinks h h' ∧ window_ok h' s.
Proof.
  intros Hh Ha Hf Hz.
  destruct (Initialize_ok h r f buffer Hh Ha Hf) as (s & h' & He & Hb & Hh' & Hs & Hw).
  unfold make, mbind, HM_bind. rewrite He. destruct buffer as [l|]; [|eauto 8].
  pose proof Hh' as (H1 & H2 & H3). destruct (H3 l) as [b Hl].
  { left. rewrite (holds_ref_some _ _ Hb). destruct Hh as (Hf0 & _).
    specialize (Hf0 l). lia. }
  unfold buf_capacity, load, mbind, HM_bind. rewrite Hl.
  do 2 eexists. split_and!; [done|done|..|done|].
  - eapply heap_ok_ext; [|done]. intros k. unfold holds_ref. done.
  - unfold window_ok in *. simpl. rewrite Hb in *. intros b' Hb'.
    rewrite Hl in Hb'. simplify_eq. destruct (H2 l b' Hl) as ([Hc _] & _).
    specialize (Hw b' Hl). unfold MemBuf.Capacity. simpl.
    assert (begin_offset_ s = 0) as ->.
    { unfold Initialize, mbind, HM_bind in He. destruct (add_ref l h) as [[? ?]|]; [|done].
      unfold buf_capacity, load, mbind, HM_bind in He.
      destruct (_ !! l) in He; [|done]. by injection He as <- _. }
    lia.
Qed.

(** ** Every operation is safe and keeps the invariant *)

Definition few (st : state) : Prop := Z.of_nat (length (objs st)) < 2 ^ 31 - 1.

Lemma refs_lt st l : few st → refs (objs st) l < 2 ^ 31 - 1.
Proof. unfold few. intros Hn. pose proof (refs_bound (objs st) l). lia. Qed.

Lemma inv_update st i s s' h' r' :
  objs st !! i = Some s → Forall (window_ok h') (objs st) →
  heap_ok h' r' (λ l, refs (objs st) l - holds_ref s l + holds_ref s' l) →
  window_ok h' s' → inv (mkState h' (<[i := s']> (objs st)) r').
Proof.
  intros Hi Hws Hh Hw. split; simpl.
  - eapply heap_ok_ext; [|done]. intros l. by rewrite (refs_insert _ _ _ _ _ Hi).
  - by apply Forall_insert.
Qed.

Lemma inv_append st s' h' r' :
  Forall (window_ok h') (objs st) →
  heap_ok h' r' (λ l, refs (objs st) l + holds_ref s' l) →
  window_ok h' s' → inv (mkState h' (objs st ++ [s']) r').
Proof.
  intros Hws Hh Hw. split; simpl.
  - eapply heap_ok_ext; [|done]. intros l. rewrite refs_app. simpl. lia.
  - apply Forall_app_2; [done|]. by constructor.
Qed.

Lemma inv_lookup st i s :
  inv st → objs st !! i = Some s → window_ok (mem st) s ∧
  (∀ l, holds_ref s l ≤ refs (objs st) l) ∧
  (∀ l, buffer_ s = Some l → 0 < refs (objs st) l ∧
     ∃ b, mem st !! l = Some b ∧ MemBuf.wf b).
Proof.
  intros [Hh Hw] Hi. split_and!.
  - by eapply Forall_lookup_1.
  - intros l. by eapply refs_lookup.
  - intros l Hl. pose proof (refs_lookup _ _ _ l Hi) as Hr.
    rewrite (holds_ref_some _ _ Hl) in Hr. split; [lia|].
    destruct Hh as (H1 & H2 & H3). destruct (H3 l) as [b Hb]; [lia|].
    exists b. split; [done|]. by apply (H2 l b).
Qed.

(** In-place operations that do not touch the reference counts. *)
Lemma update_local st i s (f : MemSlice → HM MemSlice) s' :
  inv st → objs st !! i = Some s → f s (mem st) = Ok (s', mem st) →
  buffer_ s' = buffer_ s → window_ok (mem st) s' →
  ∃ st', update i f (raw st) st = Ok st' ∧ inv st'.
Proof.
  intros [Hh Hws] Hi Hf Hb Hw. unfold update, obj. rewrite Hi, bind_ok, Hf.
  eexists; split; [done|]. eapply inv_update; [done|done| |done].
  eapply heap_ok_ext; [|exact Hh]. intros l. unfold holds_ref. rewrite Hb. lia.
Qed.

(** In-place operations that release the old buffer and take another. *)
Lemma update_reset st i s buffer :
  inv st → few st → objs st !! i = Some s → raw_arg st buffer →
  ∃ st', update i (λ s, Reset s buffer) (take_raw buffer (raw st)) st = Ok st' ∧ inv st'.
Proof.
  intros Hinv He Hi Ha. destruct (inv_lookup _ _ _ Hinv Hi) as (_ & Hle & _).
  destruct Hinv as [Hh Hws]. pose proof (λ l, refs_lt _ l He) as Hlt.
  destruct (drop_ref_ok _ _ _ s Hh) as (h1 & E1 & Hh1 & Hs1).
  { intros l. specialize (Hle l). specialize (Hlt l). lia. }
  destruct (Initialize_ok h1 (raw st) _ buffer Hh1) as (s' & h2 & E2 & _ & Hh2 & Hs2 & Hw2).
  { destruct buffer; simpl; [by right|done]. }
  { intros l. specialize (Hlt l). pose proof (holds_ref_bound s l). lia. }
  unfold update, obj, Reset, mbind, HM_bind. rewrite Hi. simpl. rewrite E1, E2.
  eexists; split; [done|]. eapply inv_update; [done| |done|done].
  eapply windows_ok_shrinks; [|done]. by etrans.
Qed.

Lemma assign_buf_Reset s buffer : assign_buf s buffer = Reset s buffer.
Proof. reflexivity. Qed.

(** A fresh buffer leaves the other windows alone. *)
Lemma windows_ok_alloc h h' l ss :
  (∀ k, k ≠ l → h' !! k = h !! k) → refs ss l = 0 →
  Forall (window_ok h) ss → Forall (window_ok h') ss.
Proof.
  intros Hk Hr Hw. apply Forall_lookup_2. intros i s Hi.
  pose proof (refs_lookup _ _ _ l Hi) as Hle. pose proof (holds_ref_bound s l).
  eapply Forall_lookup_1 in Hw; [|exact Hi]. unfold window_ok in *.
  destruct (buffer_ s) as [k|] eqn:Es; [|done].
  rewrite Hk; [done|]. intros ->. rewrite (holds_ref_some _ _ Es) in Hle. lia.
Qed.

Lemma create_safe st b :
  inv st → MemBuf.wf b → MemBuf.ref_cnt_ b = 0 →
  ∃ l h', alloc b (mem st) = Ok (l, h') ∧ inv (mkState h' (objs st) ({[l]} ∪ raw st)) ∧
    h' !! l = Some b ∧ refs (objs st) l = 0 ∧ l ∉ raw st.
Proof.
  intros [Hh Hws] Hw Hc.
  destruct (alloc_ok _ _ _ b Hh) as (l & h' & E & Hl & Hf & Hn & Hh' & Hk); [done..|].
  exists l, h'. split_and!; try done.
  - split; [done|]. by eapply windows_ok_alloc.
  - intros Hr. destruct Hh as (_ & _ & H3). destruct (H3 l (or_intror Hr)). congruence.
Qed.

Lemma new_safe st buffer size :
  inv st → few st → raw_arg st buffer → 0 ≤ size →
  ∃ s h', make buffer size (mem st) = Ok (s, h') ∧ buffer_ s = buffer ∧
    shrinks (mem st) h' ∧
    inv (mkState h' (objs st ++ [s]) (take_raw buffer (raw st))).
Proof.
  intros [Hh Hws] He Ha Hz. pose proof (λ l, refs_lt _ l He) as Hlt.
  destruct (make_ok _ _ _ buffer size Hh) as (s & h' & E & Hb & Hh' & Hs & Hw); try done.
  { destruct buffer; simpl; [by right|done]. }
  exists s, h'. split_and!; try done. apply inv_append; try done.
  by eapply windows_ok_shrinks.
Qed.

(** Initialising from the buffer of a live slice. *)
Lemma share_ok st i s :
  inv st → few st → objs st !! i = Some s →
  ∃ t h', Initialize (buffer_ s) (mem st) = Ok (t, h') ∧ buffer_ t = buffer_ s ∧
    heap_ok h' (raw st) (λ l, refs (objs st) l + holds_ref s l) ∧
    shrinks (mem st) h'.
Proof.
  intros Hinv He Hi. destruct (inv_lookup _ _ _ Hinv Hi) as (_ & _ & Hlive).
  destruct Hinv as [Hh Hws]. pose proof (λ l, refs_lt _ l He) as Hlt.
  destruct (Initialize_ok _ _ _ (buffer_ s) Hh) as (t & h' & E & Hb & Hh' & Hs & _).
  { destruct (buffer_ s); simpl; [left; by apply Hlive|done]. }
  { done. }
  exists t, h'. split_and!; try done.
  assert (take_raw (buffer_ s) (raw st) = raw st) as Hr.
  { destruct (buffer_ s) as [l|]; [|done]. simpl. eapply heap_ok_raw; [done|].
    by apply Hlive. }
  rewrite Hr in Hh'. eapply heap_ok_ext; [|done]. intros l.
  unfold holds_ref. by rewrite Hb.
Qed.

(** A slice with the window of [s] on the same buffer. *)
Lemma window_ok_same h s t :
  buffer_ t = buffer_ s → begin_offset_ t = begin_offset_ s →
  end_offset_ t = end_offset_ s → window_ok h s → window_ok h t.
Proof. unfold window_ok. by intros -> -> ->. Qed.

Lemma copy_safe st i s :
  inv st → few st → objs st !! i = Some s →
  ∃ st', exec (OCopy i) st = Ok st' ∧ inv st'.
Proof.
  intros Hinv He Hi. destruct (share_ok _ _ _ Hinv He Hi) as (t & h' & E & Hb & Hh' & Hs).
  destruct (inv_lookup _ _ _ Hinv Hi) as (Hw & _ & _). destruct Hinv as [Hh Hws].
  unfold exec, obj, copy, mbind, HM_bind. rewrite Hi. simpl. rewrite E.
  eexists; split; [done|]. apply inv_append.
  - by eapply windows_ok_shrinks.
  - eapply heap_ok_ext; [|done]. intros l. unfold holds_ref. simpl. by rewrite Hb.
  - eapply window_ok_same; [done..|]. by eapply window_ok_shrinks.
Qed.

Lemma move_safe st i s :
  inv st → few st → objs st !! i = Some s →
  ∃ st', exec (OMove i) st = Ok st' ∧ inv st'.
Proof.
  intros Hinv He Hi. destruct (share_ok _ _ _ Hinv He Hi) as (t & h1 & E & Hb & Hh1 & Hs1).
  destruct (inv_lookup _ _ _ Hinv Hi) as (Hw & Hle & _). destruct Hinv as [Hh Hws].
  pose proof (λ l, refs_lt _ l He) as Hlt.
  destruct (drop_ref_ok h1 _ _ s Hh1) as (h2 & E2 & Hh2 & Hs2).
  { intros l. specialize (Hle l). specialize (Hlt l).
    pose proof (holds_ref_bound s l). pose proof (refs_bound (objs st) l). lia. }
  unfold exec, obj, move, mbind, HM_bind. rewrite Hi. simpl. rewrite E. simpl. rewrite E2.
  eexists; split; [done|].
  assert (shrinks (mem st) h2) as Hs by (by etrans).
  apply (inv_append (mkState h2 (<[i:=null_slice]> (objs st)) (raw st))); simpl.
  - apply Forall_insert; [|done]. by eapply windows_ok_shrinks.
  - eapply heap_ok_ext; [|done]. intros l. rewrite (refs_insert _ _ _ _ _ Hi).
    unfold holds_ref. simpl. rewrite Hb. lia.
  - eapply window_ok_same; [done..|]. by eapply window_ok_shrinks.
Qed.

Lemma destroy_safe st i s :
  inv st → few st → objs st !! i = Some s →
  ∃ st', exec (ODestroy i) st = Ok st' ∧ inv st'.
Proof.
  intros Hinv He Hi. destruct (inv_lookup _ _ _ Hinv Hi) as (_ & Hle & _).
  destruct Hinv as [Hh Hws]. pose proof (λ l, refs_lt _ l He) as Hlt.
  destruct (drop_ref_ok _ _ _ s Hh) as (h' & E & Hh' & Hs).
  { intros l. specialize (Hle l). specialize (Hlt l). lia. }
  unfold exec, obj, destroy, mbind. rewrite Hi. simpl. rewrite E.
  eexists; split; [done|]. split; simpl.
  - eapply heap_ok_ext; [|done]. intros l. by rewrite (refs_delete _ _ _ _ Hi).
  - apply Forall_delete. by eapply windows_ok_shrinks.
Qed.

Lemma assign_safe st i j s t :
  inv st → few st → i ≠ j → objs st !! i = Some s → objs st !! j = Some t →
  ∃ st', update i (λ s, assign s t) (raw st) st = Ok st' ∧ inv st'.
Proof.
  intros Hinv He Hij Hi Hj. destruct (inv_lookup _ _ _ Hinv Hi) as (_ & Hle & _).
  destruct (inv_lookup _ _ _ Hinv Hj) as (Hwt & _ & _).
  destruct Hinv as [Hh Hws]. pose proof (λ l, refs_lt _ l He) as Hlt.
  destruct (drop_ref_ok _ _ _ s Hh) as (h1 & E1 & Hh1 & Hs1).
  { intros l. specialize (Hle l). specialize (Hlt l). lia. }
  assert (∀ l, holds_ref s l + holds_ref t l ≤ refs (objs st) l) as H2.
  { intros l. assert (delete i (objs st) !! (if decide (j < i)%nat then j else pred j)
      = Some t) as Hd.
    { rewrite list_lookup_delete. repeat case_decide; try lia; rewrite <- Hj; f_equal; lia. }
    pose proof (refs_lookup _ _ _ l Hd) as Hl. rewrite (refs_delete _ _ _ _ Hi) in Hl. lia. }
  assert (∃ h2, when_some (buffer_ t) add_ref h1 = Ok (tt, h2) ∧
    heap_ok h2 (raw st) (λ l, refs (objs st) l - holds_ref s l + holds_ref t l) ∧
    shrinks h1 h2) as (h2 & E2 & Hh2 & Hs2).
  { destruct (buffer_ t) as [l|] eqn:Et; simpl.
    - specialize (H2 l) as Hl. rewrite (holds_ref_some t l) in Hl by done.
      destruct (add_ref_ok h1 _ _ l Hh1) as (h2 & E2 & Hh2 & Hs2);
        [left; lia|specialize (Hlt l); pose proof (holds_ref_bound s l); lia|].
      exists h2. split_and!; try done.
      rewrite (heap_ok_raw _ _ _ l Hh1) in Hh2 by lia.
      eapply heap_ok_ext; [|done]. intros k. unfold incr.
      replace (holds_ref t k) with (if decide (l = k) then 1 else 0); [case_decide; lia|].
      unfold holds_ref. rewrite Et. repeat case_decide; congruence.
    - exists h1. split_and!; try done. eapply heap_ok_ext; [|done].
      intros k. unfold holds_ref at 3. rewrite Et. case_decide; [done|lia]. }
  unfold update, obj, assign, mbind, HM_bind. rewrite Hi. simpl. rewrite E1, E2.
  assert (shrinks (mem st) h2) as Hs by (by etrans).
  eexists; split; [done|]. eapply inv_update; [done|..].
  - by eapply windows_ok_shrinks.
  - done.
  - eapply window_ok_same; [done..|]. by eapply window_ok_shrinks.
Qed.

Lemma move_assign_safe st i j s t :
  inv st → objs st !! i = Some s → objs st !! j = Some t →
  inv (mkState (mem st) (<[j := s]> (<[i := t]> (objs st))) (raw st)).
Proof.
  intros Hinv Hi Hj. destruct (inv_lookup _ _ _ Hinv Hi) as (Hws & _ & _).
  destruct (inv_lookup _ _ _ Hinv Hj) as (Hwt & _ & _). destruct Hinv as [Hh Hw].
  split; simpl; [|by repeat apply Forall_insert].
  eapply heap_ok_ext; [|done]. intros l.
  destruct (decide (i = j)) as [->|Hne].
  - rewrite list_insert_insert_eq. simplify_eq. by rewrite list_insert_id.
  - rewrite (refs_insert _ j t) by (by rewrite list_lookup_insert_ne).
    rewrite (refs_insert _ i s) by done. lia.
Qed.

(** *** The pointer operations *)

Lemma UpdateBegin_window h off s :
  (∀ l b, buffer_ s = Some l → h !! l = Some b → MemBuf.wf b) →
  window_ok h s → window_ok h (snd (UpdateBegin off s)).
Proof.
  unfold window_ok, UpdateBegin. intros Hwf Hw.
  destruct (Z.ltb_spec (end_offset_ s) (u32 (begin_offset_ s + off))) as [|Hle]; [done|].
  simpl. pose proof (u32_bound (begin_offset_ s + off)).
  destruct (buffer_ s) as [l|]; [intros b Hb; specialize (Hw b Hb)|]; lia.
Qed.

Lemma SetBeginPointer_ok h l b pos s :
  buffer_ s = Some l → h !! l = Some b → 0 ≤ pos → window_ok h s →
  ∃ s', SetBeginPointer pos s h = Ok (s', h) ∧ buffer_ s' = Some l ∧ window_ok h s' ∧
    begin_offset_ s' = Z.min pos (end_offset_ s) ∧ end_offset_ s' = end_offset_ s.
Proof.
  intros Hs Hb Hp Hw. unfold SetBeginPointer, Begin, non_null, mbind, HM_bind. simpl.
  rewrite Hs. eexists; split; [done|]. split; [done|].
  unfold window_ok in *. rewrite Hs in Hw. simpl. specialize (Hw b Hb).
  split_and!; [|case_match; lia|done].
  intros b' Hb'. rewrite Hb in Hb'. simplify_eq. case_match; lia.
Qed.

Lemma SetEndPointer_ok h l b pos s :
  buffer_ s = Some l → h !! l = Some b → 0 ≤ pos → window_ok h s →
  ∃ s', SetEndPointer pos s h = Ok (s', h) ∧ buffer_ s' = Some l ∧ window_ok h s' ∧
    begin_offset_ s' = begin_offset_ s ∧
    end_offset_ s' = Z.min (Z.max pos (begin_offset_ s)) (MemBuf.capacity_ b).
Proof.
  intros Hs Hb Hp Hw.
  unfold SetEndPointer, End_, non_null, buf_capacity, load, mbind, HM_bind. simpl.
  rewrite Hs. simpl. rewrite Hb. eexists; split; [done|]. split; [done|].
  unfold window_ok in *. rewrite Hs in Hw. specialize (Hw b Hb).
  unfold MemBuf.Capacity. simpl. split_and!; [|done|repeat case_match; lia].
  intros b' Hb'. rewrite Hb in Hb'. simplify_eq. repeat case_match; lia.
Qed.

Lemma add_i32_ok h x offset :
  fits_i32 x offset →
  add_i32 x offset h = Ok (u32 (i32 x + offset), h).
Proof.
  unfold fits_i32, add_i32. intros [H1 H2].
  rewrite (proj2 (Z.leb_le _ _)) by done. rewrite (proj2 (Z.ltb_lt _ _)) by done. done.
Qed.

Lemma inv_held st i P :
  inv st → holds st i P →
  ∃ s l b, objs st !! i = Some s ∧ buffer_ s = Some l ∧ P s ∧
    mem st !! l = Some b ∧ MemBuf.wf b ∧ window_ok (mem st) s.
Proof.
  intros Hinv (s & Hi & [l Hl] & HP). destruct (inv_lookup _ _ _ Hinv Hi) as (Hw & _ & Hlive).
  destruct (Hlive l Hl) as (_ & b & Hb & Hwf). eauto 10.
Qed.

Lemma pointer_safe st i P (f : MemSlice → HM MemSlice) :
  inv st → holds st i P →
  (∀ s l b, P s → buffer_ s = Some l → mem st !! l = Some b → window_ok (mem st) s →
     ∃ s', f s (mem st) = Ok (s', mem st) ∧ buffer_ s' = Some l ∧ window_ok (mem st) s') →
  ∃ st', update i f (raw st) st = Ok st' ∧ inv st'.
Proof.
  intros Hinv Hh Hf.
  destruct (inv_held _ _ _ Hinv Hh) as (s & l & b & Hi & Hs & HP & Hb & _ & Hw).
  destruct (Hf s l b HP Hs Hb Hw) as (s' & E & Hs' & Hw').
  eapply update_local; [done..|congruence|done].
Qed.

Lemma slice_Clone_ok st i s l b :
  inv st → few st → objs st !! i = Some s → buffer_ s = Some l →
  mem st !! l = Some b → MemBuf.wf b → window_ok (mem st) s →
  ∃ s' l' h', Clone s (mem st) = Ok (s', h') ∧ buffer_ s' = Some l' ∧
    begin_offset_ s' = begin_offset_ s ∧ end_offset_ s' = end_offset_ s ∧
    (∃ b', h' !! l' = Some b' ∧ same_buf b b') ∧
    inv (mkState h' (objs st ++ [s']) (raw st)).
Proof.
  intros Hinv He Hi Hs Hb Hwf Hw.
  set (b0 := MemBuf.mkMemBuf 0 (MemBuf.capacity_ b) (MemBuf.mem b)).
  destruct (create_safe st b0 Hinv) as (l' & h1 & E1 & Hinv1 & Hl' & Hr0 & Hn); [done..|].
  set (st1 := mkState h1 (objs st) ({[l']} ∪ raw st)) in *.
  destruct (new_safe st1 (Some l') 65536 Hinv1) as (t & h2 & E2 & Hbt & Hsh & Hinv2);
    [done|simpl; set_solver|lia|].
  simpl in E2, Hsh, Hinv2.
  assert (is_Some (h2 !! l')) as [b2 Hb2].
  { destruct Hinv2 as [(_ & _ & H3) _]. simpl in H3. apply H3. left.
    rewrite refs_app. simpl. rewrite (holds_ref_some _ _ Hbt). lia. }
  destruct (Hsh l' b2 Hb2) as (b1 & Hb1 & Hsame). rewrite Hl' in Hb1. simplify_eq.
  unfold Clone, non_null, load, lift, mbind, HM_bind. rewrite Hs.
  cbv beta iota delta [mret HM_ret]. rewrite Hb.
  rewrite (MemBuf.Clone_ok b Hwf), E1, E2.
  exists (mkMemSlice (buffer_ t) (begin_offset_ s) (end_offset_ s)), l', h2.
  split_and!; try done; [by exists b2|].
  destruct Hinv2 as [Hh2 Hws2]. simpl in *. split; simpl.
  - rewrite (difference_union_distr_l_L {[l']}), difference_diag_L, (left_id_L ∅ (∪)) in Hh2.
    assert (raw st ∖ {[l']} = raw st) as Hraw.
    { clear -Hn. set_solver. }
    rewrite Hraw in Hh2. eapply heap_ok_ext; [|exact Hh2]. intros k.
    by rewrite !refs_app.
  - apply Forall_app in Hws2 as [Hws2 _]. apply Forall_app_2; [done|].
    constructor; [|done]. unfold window_ok in *. simpl. rewrite Hbt, Hs in *.
    intros b' Hb'. rewrite Hb2 in Hb'. simplify_eq. destruct Hsame as [<- _]. simpl. by apply Hw.
Qed.

(** The window of a slice can be read, and has its advertised size. *)
Lemma window_read h s l b :
  buffer_ s = Some l → h !! l = Some b → MemBuf.wf b → window_ok h s →
  ∃ cells, window s h = Ok (cells, h) ∧
    Z.of_nat (length cells) = GetUsedSize s ∧
    cells = take (Z.to_nat (GetUsedSize s)) (drop (Z.to_nat (begin_offset_ s)) (MemBuf.mem b)).
Proof.
  intros Hs Hb [Hc Hl] Hw. unfold window_ok in Hw. rewrite Hs in Hw. specialize (Hw b Hb).
  unfold window, Begin, non_null, load, lift, mbind, HM_bind. rewrite Hs.
  cbv beta iota delta [mret HM_ret]. rewrite Hb.
  unfold GetUsedSize. rewrite u32_small by lia. rewrite read_at_ok by lia.
  eexists. split_and!; [done| |done]. rewrite length_take, length_drop. lia.
Qed.

Lemma CloneSlicedMem_ok st i P :
  inv st → holds st i P →
  ∃ st', exec (OCloneSlicedMem i) st = Ok st' ∧ inv st'.
Proof.
  intros Hinv Hh. destruct (inv_held _ _ _ Hinv Hh) as (s & l & b & Hi & Hs & _ & Hb & Hwf & Hw).
  destruct (window_read _ _ _ _ Hs Hb Hwf Hw) as (cells & E & Hlen & _).
  unfold exec, obj, CloneSlicedMem. rewrite Hi, bind_ok.
  set (n := GetUsedSize s) in *.
  assert (0 ≤ n < 2 ^ 32) as Hn by apply u32_bound.
  destruct (create_safe st (MemBuf.mkMemBuf 0 n cells) Hinv) as (l' & h' & E' & Hinv' & _);
    [by split; simpl; [lia|lia]|done|].
  unfold lift, mbind, HM_bind. rewrite E. unfold MemBuf.Create_copy.
  rewrite read_at_ok, bind_ok by lia. rewrite drop_0, take_ge by lia.
  rewrite E'. eauto.
Qed.

(** Any enabled operation of a state that satisfies the invariant runs without
    a fault and re-establishes the invariant. *)
Lemma exec_safe o st :
  inv st → enabled o st → ∃ st', exec o st = Ok st' ∧ inv st'.
Proof.
  intros Hinv [Hf He]. destruct o; simpl in He.
  - destruct (create_safe st (MemBuf.Create capacity) Hinv) as (l & h' & E & Hi & _);
      [by apply MemBuf.Create_wf|done|].
    unfold exec. rewrite E. eauto.
  - destruct He as [Ha Hz]. destruct (new_safe st buffer size Hinv) as (s & h' & E & _ & _ & Hi);
      [done|done|lia|]. unfold exec. rewrite E. eauto.
  - destruct He as [s Hs]. by eapply copy_safe.
  - destruct He as [s Hs]. by eapply move_safe.
  - destruct He as [s Hs]. by eapply destroy_safe.
  - destruct He as [[s Hs] [t Ht]]. unfold exec. case_decide; [by eauto|].
    unfold obj at 1. rewrite Ht, bind_ok. by eapply assign_safe.
  - destruct He as [[s Hs] [t Ht]]. unfold exec, obj. rewrite Hs, Ht. simpl.
    eexists; split; [done|]. by eapply move_assign_safe.
  - destruct He as [[s Hs] Ha]. by eapply update_reset.
  - destruct He as [[s Hs] Ha]. by eapply update_reset.
  - destruct He as [s Hs]. destruct (inv_lookup _ _ _ Hinv Hs) as (Hw & _ & Hlive).
    apply (update_local st i s _ (snd (UpdateBegin off_set s))); try done.
    + unfold UpdateBegin. by case_match.
    + apply UpdateBegin_window; [|done]. intros l b Hl Hb.
      destruct (Hlive l Hl) as (_ & b' & Hb' & Hwf). congruence.
  - eapply pointer_safe; [done..|]. intros s l b Hp Hs Hb Hw.
    destruct (SetBeginPointer_ok _ _ _ position s Hs Hb) as (s' & ? & ? & ? & _);
      [apply Hp|done|eauto].
  - eapply pointer_safe; [done..|]. intros s l b Hp Hs Hb Hw.
    destruct (SetEndPointer_ok _ _ _ position s Hs Hb) as (s' & ? & ? & ? & _);
      [apply Hp|done|eauto].
  - eapply pointer_safe; [done..|]. intros s l b Hp Hs Hb Hw.
    unfold AdjustBeginPointer, mbind, HM_bind. rewrite (add_i32_ok _ _ _ Hp).
    destruct (SetBeginPointer_ok _ _ _ (u32 (i32 (begin_offset_ s) + offset)) s Hs Hb)
      as (s' & ? & ? & ? & _); [apply u32_bound|done|eauto].
  - eapply pointer_safe; [done..|]. intros s l b Hp Hs Hb Hw.
    unfold AdjustEndPointer, mbind, HM_bind. rewrite (add_i32_ok _ _ _ Hp).
    destruct (SetEndPointer_ok _ _ _ (u32 (i32 (end_offset_ s) + offset)) s Hs Hb)
      as (s' & ? & ? & ? & _); [apply u32_bound|done|eauto].
  - destruct (inv_held _ _ _ Hinv He) as (s & l & b & Hi & Hs & _ & Hb & Hwf & Hw).
    destruct (slice_Clone_ok _ _ _ _ _ Hinv Hf Hi Hs Hb Hwf Hw) as (s' & l' & h' & E & _ & _ & _ & _ & Hi').
    unfold exec, obj. rewrite Hi, bind_ok, E. eauto.
  - by eapply CloneSlicedMem_ok.
Qed.

Lemma inv_init : inv init.
Proof.
  split; [|done]. split_and!; simpl; [lia| |].
  - intros l b Hb. by rewrite lookup_empty in Hb.
  - intros l [?|Hl]; [lia|]. set_solver.
Qed.

Lemma reachable_inv st : reachable st → inv st.
Proof.
  induction 1 as [|o st st' _ IH He E]; [apply inv_init|].
  destruct (exec_safe o st IH He) as (st'' & E' & Hi). congruence.
Qed.

(** With no slice and no raw buffer left, nothing is allocated. *)
Lemma inv_no_leak st : inv st → objs st = [] → raw st = ∅ → mem st = ∅.
Proof.
  intros [(H1 & H2 & H3) _] Ho Hr. apply map_eq. intros l.
  rewrite lookup_empty. destruct (mem st !! l) as [b|] eqn:Hb; [|done].
  destruct (H2 l b Hb) as (_ & _ & Hl). rewrite Ho, Hr in Hl.
  destruct (proj1 (elem_of_empty l) (proj2 Hl eq_refl)).
Qed.

(** ** [Packer::TakeBuffer] (base/packer.h)

    The buffer of the packer moves to the heap under a slice whose window is
    the packet; the packer is left without buffer. *)
Definition TakeBuffer (p : Packer.Packer) : HM (MemSlice * Packer.Packer) :=
  buf ← match Packer.mem_ p with
        | Some m => l ← alloc m; mret (Some l)
        | None => mret None
        end;
  slice ← make buf 65536;
  slice ← SetBeginPointer (Packer.position_ p) slice;
  slice ← SetEndPointer (u32 (Packer.position_ p + Packer.length_ p)) slice;
  mret (slice, Packer.mkPacker None (Packer.length_ p) (Packer.position_ p) (Packer.cerr_ p)).

(** Executing a list of operations from the empty program. *)
Fixpoint run (ops : list op) (st : state) : result state :=
  match ops with
  | [] => Ok st
  | o :: ops => st ← exec o st; run ops st
  end.

(** ** Properties *)

(** C4: no program over slices goes wrong.  Starting with no object, any
    sequence of creations, copies, moves, assignments, swaps, resets, pointer
    moves, clones and destructions that respects the callers' obligations never
    touches freed memory and never frees twice, and keeps the invariant: the
    counter of every live buffer is the number of slices on it, a buffer is
    alive exactly while a slice or a raw owner refers to it, and every window
    stays inside its buffer. *)
Theorem slice_programs_safe o st :
  reachable st → enabled o st → ∃ st', exec o st = Ok st' ∧ inv st'.
Proof. intros Hr. apply exec_safe, reachable_inv, Hr. Qed.

Lemma slice_programs_safe_witness :
  ∃ st', exec (OCreate 16) init = Ok st' ∧ inv st'.
Proof.
  apply (slice_programs_safe (OCreate 16) init reach_init).
  split; [vm_compute; reflexivity|split; [lia|reflexivity]].
Defined.



(** The program [MemSlice s(MemBuf::Create(2), 2)]. *)
Definition one_slice : state :=
  match run [OCreate 2; ONew (Some 2%positive) 2] init with
  | Ok st => st
  | Err _ => init
  end.

Lemma one_slice_reachable : reachable one_slice.
Proof.
  assert (∃ st, exec (OCreate 2) init = Ok st) as [st Hst] by (eexists; reflexivity).
  apply (reach_step (ONew (Some 2%positive) 2) st).
  - eapply (reach_step (OCreate 2)); [apply reach_init| |exact Hst].
    split; [vm_compute; reflexivity|]. split; [lia|reflexivity].
  - injection Hst as <-. split; [vm_compute; reflexivity|].
    split; [simpl; set_solver|lia].
  - injection Hst as <-. reflexivity.
Qed.

(** C35: [Clone] gives a slice with the same window on a different buffer with
    the same bytes, and reads back exactly what the original reads. *)
Theorem clone_reads_the_same st i s l b :
  reachable st → Z.of_nat (length (objs st)) < 2 ^ 31 - 1 →
  objs st !! i = Some s → buffer_ s = Some l → mem st !! l = Some b →
  ∃ s' l' h' cells,
    Clone s (mem st) = Ok (s', h') ∧ buffer_ s' = Some l' ∧
    window s (mem st) = Ok (cells, mem st) ∧ window s' h' = Ok (cells, h') ∧
    Z.of_nat (length cells) = GetUsedSize s.
Proof.
  intros Hr Hf Hi Hs Hb. pose proof (reachable_inv _ Hr) as Hinv.
  destruct (inv_lookup _ _ _ Hinv Hi) as (Hw & _ & Hlive).
  destruct (Hlive l Hs) as (_ & b0 & Hb0 & Hwf). rewrite Hb in Hb0. simplify_eq.
  destruct (slice_Clone_ok _ _ _ _ _ Hinv Hf Hi Hs Hb Hwf Hw)
    as (s' & l' & h' & E & Hs' & Eb & Ee & (b' & Hb' & Hc & Hm) & Hinv').
  destruct (inv_lookup (mkState h' (objs st ++ [s']) (raw st)) (length (objs st)) s' Hinv')
    as (Hw' & _ & Hlive'); [by apply list_lookup_middle|]. simpl in Hw', Hlive'.
  destruct (Hlive' l' Hs') as (_ & b1 & Hb1 & Hwf'). rewrite Hb' in Hb1. simplify_eq.
  destruct (window_read _ _ _ _ Hs Hb Hwf Hw) as (cs & Ec & Hl & Hcs).
  destruct (window_read _ _ _ _ Hs' Hb' Hwf' Hw') as (cs' & Ec' & Hl' & Hcs').
  exists s', l', h', cs. split_and!; try done. rewrite Ec'. do 2 f_equal.
  rewrite Hcs', Hcs, <- Hm. unfold GetUsedSize. by rewrite Eb, Ee.
Qed.

Lemma clone_reads_the_same_witness :
  ∃ s' l' h' cells,
    Clone (mkMemSlice (Some 2%positive) 0 2) (mem one_slice) = Ok (s', h') ∧
    buffer_ s' = Some l' ∧
    window (mkMemSlice (Some 2%positive) 0 2) (mem one_slice) = Ok (cells, mem one_slice) ∧
    window s' h' = Ok (cells, h') ∧ Z.of_nat (length cells) = 2.
Proof.
  apply (clone_reads_the_same one_slice 0 (mkMemSlice (Some 2%positive) 0 2) 2
    (MemBuf.mkMemBuf 1 2 [None; None]) one_slice_reachable);
    vm_compute; reflexivity.
Defined.

(** resetting a slice to the buffer it already holds alone is a use after
    free: [Reset] (and the assignment from a raw buffer) releases the old buffer
    before it takes the new one. *)
Theorem reset_to_own_buffer_faults st i s l b :
  objs st !! i = Some s → buffer_ s = Some l → mem st !! l = Some b →
  MemBuf.ref_cnt_ b = 1 →
  exec (OReset i (Some l)) st = Err UseAfterFree ∧
  exec (OAssignBuf i (Some l)) st = Err UseAfterFree.
Proof.
  intros Hi Hs Hb Hc. unfold exec, update, obj, Reset, assign_buf. rewrite Hi, !bind_ok.
  assert (when_some (buffer_ s) release (mem st) = Ok (tt, delete l (mem st))) as E.
  { rewrite Hs. simpl. unfold release, load, mbind, HM_bind. rewrite Hb.
    unfold MemBuf.Release. by rewrite Hc. }
  unfold mbind, HM_bind. rewrite E.
  unfold Initialize, add_ref, load, mbind, HM_bind. by rewrite lookup_delete_eq.
Qed.

Lemma reset_to_own_buffer_faults_witness :
  exec (OReset 0 (Some 2%positive)) one_slice = Err UseAfterFree ∧
  exec (OAssignBuf 0 (Some 2%positive)) one_slice = Err UseAfterFree.
Proof.
  apply (reset_to_own_buffer_faults one_slice 0 (mkMemSlice (Some 2%positive) 0 2)
    2 (MemBuf.mkMemBuf 1 2 [None; None])); vm_compute; reflexivity.
Defined.

(** a finished packet taken out of its packer is a slice whose window is
    exactly the frame: length prefix, then body. *)
Theorem TakeBuffer_window p body h :
  Packer.packed p body → Packer.room body 0 →
  ∃ s p' h', TakeBuffer p h = Ok (s, p', h') ∧ Packer.mem_ p' = None ∧
    window s h' = Ok (Some <$> frame body, h') ∧
    GetUsedSize s = frame_len body.
Proof.
  intros (m & Hm & Hw & Hc & HL & Hp & Hcap & Hd) Hr.
  pose proof (frame_len_size body) as Hsz. pose proof (var_size_bound (frame_len body)).
  unfold Packer.room, Packer.kMaxPacketSize in Hr. destruct Hw as [Hw1 Hw2].
  set (l := fresh_loc h).
  set (m1 := MemBuf.AddRef m). set (h1 := <[l := m1]> (<[l := m]> h)).
  assert (h1 !! l = Some m1) as Hl1 by apply lookup_insert_eq.
  set (s0 := mkMemSlice (Some l) 0 (Z.min 65536 (MemBuf.capacity_ m))).
  assert (window_ok h1 s0) as Hw0.
  { intros b Hb. rewrite Hl1 in Hb. simplify_eq. simpl. lia. }
  destruct (SetBeginPointer_ok h1 l m1 (Packer.position_ p) s0) as
    (s1 & E1 & Hs1 & Hw1' & Hb1 & He1); [done..|lia|done|]. simpl in Hb1, He1.
  destruct (SetEndPointer_ok h1 l m1 (u32 (Packer.position_ p + Packer.length_ p)) s1)
    as (s2 & E2 & Hs2 & Hw2' & Hb2 & He2); [done..|apply u32_bound|done|].
  rewrite HL, u32_small in He2 by lia. simpl in He2.
  unfold TakeBuffer. rewrite Hm. unfold alloc, make, Initialize, add_ref, buf_capacity,
    load, store, mret, HM_ret, mbind, HM_bind. fold l.
  rewrite !lookup_insert_eq. cbn [buffer_ begin_offset_].
  change (MemBuf.Capacity (MemBuf.AddRef m)) with (MemBuf.capacity_ m).
  fold m1. fold h1. fold s0. rewrite E1, HL.
  rewrite HL in E2. rewrite E2.
  destruct (window_read h1 s2 l m1) as (cells & Ec & Hlen & Hcells); [done..|].
  assert (GetUsedSize s2 = frame_len body) as Hsize.
  { unfold GetUsedSize. rewrite u32_small; lia. }
  exists s2. do 2 eexists. split_and!; [done|done| |done].
  rewrite Ec, Hcells, Hsize, <- Hd, skipn_firstn_comm. simpl.
  replace (begin_offset_ s2) with (Packer.position_ p) by lia.
  do 3 f_equal. lia.
Qed.

Lemma TakeBuffer_window_witness :
  ∃ p s p' h', Packer.packed p [1; 2] ∧
    TakeBuffer p ∅ = Ok (s, p', h') ∧ Packer.mem_ p' = None ∧
    window s h' = Ok (Some <$> frame [1; 2], h') ∧ GetUsedSize s = frame_len [1; 2].
Proof.
  destruct (Packer.put_holds [1; 2] (Packer.make 64) []) as (q & _ & Hq & _);
    [by apply Packer.make_holds|vm_compute; discriminate|].
  destruct (Packer.Pack_packed q [1; 2] Hq) as (p & _ & Hpk & _); [vm_compute; reflexivity|].
  exists p. destruct (TakeBuffer_window p [1; 2] ∅ Hpk) as (s & p' & h' & H);
    [vm_compute; reflexivity|].
  exists s, p', h'. by split.
Defined.
