(* ===== verification/MemSliceSpan.v ===== *)
(** * MemSliceSpan: memory/mem_slice_span.h and mem_slice_span.cpp

    Up to four slices seen as one sequence of bytes.  The slices and their
    reference counts are those of [MemSlice]; the operations run in its heap
    monad. *)

From stdpp Require Import gmap.
From S2P Require Import Prelude Bytes Wire MemBuf MemSlice.

Definition kMaxBlocks : nat := 4.

Record MemSliceSpan := mkSpan {
  size_ : Z;                     (* uint32_t *)
  block_count_ : nat;            (* int16_t *)
  blocks : list MemSlice;        (* buffer_[kMaxBlocks] *)
}.

Definition empty_span : MemSliceSpan := mkSpan 0 0 (replicate kMaxBlocks null_slice).

(** [buffer_[i]] and the assignment of a block; the array has four places. *)
Definition block (i : nat) (bs : list MemSlice) : HM MemSlice :=
  match bs !! i with Some s => mret s | None => fault_ OutOfBounds end.
Definition put (i : nat) (s : MemSlice) (bs : list MemSlice) : HM (list MemSlice) :=
  _ ← block i bs; mret (<[i := s]> bs).

(** [buffer_[i] = std::move(s)] swaps; the old block is left in [s]. *)
Definition move_in (i : nat) (s : MemSlice) (bs : list MemSlice) : HM (MemSlice * list MemSlice) :=
  old ← block i bs;
  let '(new, rest) := move_assign old s in
  bs ← put i new bs;
  mret (rest, bs).

(** [for (i = lo; i < hi; ++i) buffer_[i].Reset()]. *)
Fixpoint reset_blocks (lo n : nat) (bs : list MemSlice) : HM (list MemSlice) :=
  match n with
  | O => mret bs
  | S n =>
      s ← block lo bs;
      s ← MemSlice.Reset s None;
      bs ← put lo s bs;
      reset_blocks (S lo) n bs
  end.

(** [for (i = 0; i < n; ++i) buffer_[i] = a.buffer_[i]]. *)
Fixpoint assign_blocks (i n : nat) (bs rhs : list MemSlice) : HM (list MemSlice) :=
  match n with
  | O => mret bs
  | S n =>
      s ← block i bs;
      a ← block i rhs;
      s ← assign s a;
      bs ← put i s bs;
      assign_blocks (S i) n bs rhs
  end.

(** The same with [std::move]. *)
Fixpoint swap_blocks (i n : nat) (bs rhs : list MemSlice) : HM (list MemSlice * list MemSlice) :=
  match n with
  | O => mret (bs, rhs)
  | S n =>
      a ← block i rhs;
      '(old, bs) ← move_in i a bs;
      rhs ← put i old rhs;
      swap_blocks (S i) n bs rhs
  end.

(** ** Construction *)

Definition one_block (size : Z) (s : MemSlice) : MemSliceSpan :=
  mkSpan size 1 (s :: replicate (kMaxBlocks - 1) null_slice).

(** [MemSliceSpan(const MemBuf pointer)]; the slice takes its default size. *)
Definition of_buffer (buffer : option loc) : HM MemSliceSpan :=
  match buffer with
  | None => mret empty_span
  | Some l =>
      cap ← buf_capacity l;
      s ← make buffer 65536;
      mret (one_block cap s)
  end.

(** [MemSliceSpan(MemSlice)]. *)
Definition of_slice (buffer : MemSlice) : HM MemSliceSpan :=
  if GetUsedSize buffer =? 0 then _ ← destroy buffer; mret empty_span
  else mret (one_block (GetUsedSize buffer) buffer).

Fixpoint copy_list (i : nat) (size : Z) (bs l : list MemSlice) : HM (Z * nat * list MemSlice) :=
  match l with
  | [] => mret (size, i, bs)
  | it :: l =>
      if (i <? kMaxBlocks)%nat then
        s ← block i bs;
        s ← assign s it;
        bs ← put i s bs;
        copy_list (S i) (u32 (size + GetUsedSize it)) bs l
      else mret (size, i, bs)
  end.

(** [MemSliceSpan(std::initializer_list<MemSlice>)]: the elements are constant, so
    [std::move] copies them. *)
Definition of_list (l : list MemSlice) : HM MemSliceSpan :=
  _ ← lift (assert_ (length l <? kMaxBlocks)%nat);
  '(size, count, bs) ← copy_list 0 0 (blocks empty_span) l;
  mret (mkSpan size count bs).

(** [MemSliceSpan(const void pointer, size_t)]. *)
Definition of_bytes (buf : list cell) (len : Z) : HM MemSliceSpan :=
  b ← lift (MemBuf.Create_copy buf (u32 len));
  l ← alloc b;
  s ← make (Some l) 65536;
  mret (one_block (u32 len) s).

Definition copy_span (a : MemSliceSpan) : HM MemSliceSpan :=
  bs ← assign_blocks 0 (block_count_ a) (blocks empty_span) (blocks a);
  mret (mkSpan (size_ a) (block_count_ a) bs).

(** The new span, and what is left of [a]. *)
Definition move_span (a : MemSliceSpan) : HM (MemSliceSpan * MemSliceSpan) :=
  '(bs, rest) ← swap_blocks 0 (block_count_ a) (blocks empty_span) (blocks a);
  mret (mkSpan (size_ a) (block_count_ a) bs, mkSpan 0 0 rest).

(** [operator=(const MemSliceSpan &)] between different objects. *)
Definition assign_span (self a : MemSliceSpan) : HM MemSliceSpan :=
  _ ← lift (assert_ (block_count_ a <=? kMaxBlocks)%nat);
  bs ← assign_blocks 0 (block_count_ a) (blocks self) (blocks a);
  bs ← reset_blocks (block_count_ a) (block_count_ self - block_count_ a) bs;
  mret (mkSpan (size_ a) (block_count_ a) bs).

Definition move_assign_span (self a : MemSliceSpan) : HM (MemSliceSpan * MemSliceSpan) :=
  _ ← lift (assert_ (block_count_ a <=? kMaxBlocks)%nat);
  '(bs, rest) ← swap_blocks 0 (block_count_ a) (blocks self) (blocks a);
  bs ← reset_blocks (block_count_ a) (block_count_ self - block_count_ a) bs;
  mret (mkSpan (size_ a) (block_count_ a) bs, mkSpan 0 0 rest).

(** [operator=(MemSlice)] and [operator=(const MemBuf pointer)]; the parameter is
    destroyed at the end. *)
Definition assign_slice (self : MemSliceSpan) (buffer : MemSlice) : HM MemSliceSpan :=
  bs ← reset_blocks 1 (block_count_ self - 1) (blocks self);
  '(old, bs) ← move_in 0 buffer bs;
  _ ← destroy old;
  mret (mkSpan (GetUsedSize buffer) 1 bs).
Definition assign_buffer (self : MemSliceSpan) (buf : option loc) : HM MemSliceSpan :=
  s ← make buf 65536;
  assign_slice self s.

(** ** Operations *)

Definition PushBack (b : MemSlice) (self : MemSliceSpan) : HM (bool * MemSliceSpan) :=
  if (kMaxBlocks <=? block_count_ self)%nat then _ ← destroy b; mret (false, self)
  else
    '(old, bs) ← move_in (block_count_ self) b (blocks self);
    _ ← destroy old;
    mret (true, mkSpan (u32 (size_ self + GetUsedSize b)) (S (block_count_ self)) bs).

(** [for (i = n - 1; i >= 0; --i) buffer_[i].Reset()]. *)
Fixpoint reset_down (n : nat) (bs : list MemSlice) : HM (list MemSlice) :=
  match n with
  | O => mret bs
  | S n =>
      s ← block n bs;
      s ← MemSlice.Reset s None;
      bs ← put n s bs;
      reset_down n bs
  end.

Definition Reset (b : MemSlice) (self : MemSliceSpan) : HM MemSliceSpan :=
  bs ← reset_down (block_count_ self) (blocks self);
  '(old, bs) ← move_in 0 b bs;
  _ ← destroy old;
  let size := GetUsedSize b in
  mret (mkSpan size (if size =? 0 then 0%nat else 1%nat) bs).

Fixpoint clone_blocks (i n : nat) (src bs : list MemSlice) : HM (list MemSlice) :=
  match n with
  | O => mret bs
  | S n =>
      s ← block i src;
      c ← MemSlice.Clone s;
      '(old, bs) ← move_in i c bs;
      _ ← destroy old;
      clone_blocks (S i) n src bs
  end.

(** The assertions want one place of the array to be free. *)
Definition some_room (self : MemSliceSpan) : HM unit :=
  lift (assert_ (block_count_ self <? kMaxBlocks)%nat).

Definition Clone (self : MemSliceSpan) : HM MemSliceSpan :=
  _ ← some_room self;
  bs ← clone_blocks 0 (block_count_ self) (blocks self) (blocks empty_span);
  mret (mkSpan (size_ self) (block_count_ self) bs).

(** The bytes of [n] blocks from [i], one after the other. *)
Fixpoint gather (i n : nat) (bs : list MemSlice) : HM (list cell) :=
  match n with
  | O => mret []
  | S n =>
      s ← block i bs;
      w ← window s;
      r ← gather (S i) n bs;
      mret (w ++ r)
  end.

(** The successive [memcpy]s fill the new buffer from its beginning. *)
Definition CloneSpannedMem (self : MemSliceSpan) : HM loc :=
  _ ← some_room self;
  let p := MemBuf.Create (size_ self) in
  src ← gather 0 (block_count_ self) (blocks self);
  m ← lift (write_at 0 src (MemBuf.mem p));
  alloc (mkMemBuf 0 (MemBuf.capacity_ p) m).

Definition ToSingleBlock (self : MemSliceSpan) : HM MemSliceSpan :=
  _ ← some_room self;
  if (block_count_ self <=? 1)%nat then copy_span self
  else l ← CloneSpannedMem self; of_buffer (Some l).

Definition ToRawBuffer (self : MemSliceSpan) : HM (list cell) :=
  _ ← some_room self;
  if (block_count_ self <=? 0)%nat || (size_ self =? 0) then mret []
  else gather 0 (block_count_ self) (blocks self).

Definition IsSingleBlock (self : MemSliceSpan) : bool := (block_count_ self =? 1)%nat.
Definition Empty (self : MemSliceSpan) : bool := size_ self =? 0.
Definition span_GetUsedSize (self : MemSliceSpan) : Z := size_ self.
Definition GetBlockCount (self : MemSliceSpan) : nat := block_count_ self.
Definition GetFirstBlock (self : MemSliceSpan) : HM MemSlice :=
  _ ← lift (assert_ (negb (block_count_ self =? 0)%nat));
  block 0 (blocks self).
Definition subscript (i : nat) (self : MemSliceSpan) : HM MemSlice :=
  _ ← lift (assert_ (i <? block_count_ self)%nat);
  block i (blocks self).

(** The first loop of [AdjustBeginPointer]: take [left] bytes off the front of the
    blocks from [pos]; the position where it stops. *)
Fixpoint trim (pos n : nat) (left : Z) (bs : list MemSlice) : HM (nat * list MemSlice) :=
  match n with
  | O => mret (pos, bs)
  | S n =>
      s ← block pos bs;
      let count := Z.min left (GetUsedSize s) in
      s ← AdjustBeginPointer (i32 count) s;
      bs ← put pos s bs;
      let left := u32 (left - count) in
      if left =? 0 then
        mret (if GetUsedSize s =? 0 then S pos else pos, bs)
      else trim (S pos) n left bs
  end.

(** The second loop: [k] is 0 throughout. *)
Fixpoint shift_down (k pos n : nat) (bs : list MemSlice) : HM (list MemSlice) :=
  match n with
  | O => mret bs
  | S n =>
      s ← block pos bs;
      '(old, bs) ← move_in k s bs;
      bs ← put pos old bs;
      shift_down k (S pos) n bs
  end.

Definition span_AdjustBeginPointer (offset : Z) (self : MemSliceSpan) : HM MemSliceSpan :=
  _ ← lift (assert_ (offset <? size_ self));
  '(pos, bs) ← trim 0 (block_count_ self) offset (blocks self);
  let count := block_count_ self in
  let size := u32 (size_ self - offset) in
  if (pos =? 0)%nat then mret (mkSpan size count bs)
  else
    bs ← shift_down 0 pos (count - pos) bs;
    mret (mkSpan size (count - pos) bs).

(** [~MemSliceSpan]: the array is destroyed from its last place. *)
Fixpoint destroy_blocks (bs : list MemSlice) : HM unit :=
  match bs with
  | [] => mret tt
  | s :: bs => _ ← destroy_blocks bs; destroy s
  end.
Definition destroy_span (self : MemSliceSpan) : HM unit := destroy_blocks (blocks self).

(** ** What a span spells *)

(** A block with a live buffer whose window holds [w]; the signed offsets of the
    slice operations want a capacity below 2^31. *)
Definition block_ok (h : heap) (s : MemSlice) (w : list cell) : Prop :=
  ∃ l b, buffer_ s = Some l ∧ h !! l = Some b ∧ MemBuf.wf b ∧ window_ok h s ∧
    MemBuf.capacity_ b < 2 ^ 31 ∧
    w = take (Z.to_nat (GetUsedSize s)) (drop (Z.to_nat (begin_offset_ s)) (MemBuf.mem b)).

(** The blocks in use hold [ws], the other places are null, and [size_] is the
    number of bytes. *)
Definition spells (h : heap) (self : MemSliceSpan) (ws : list (list cell)) : Prop :=
  block_count_ self = length ws ∧ (length ws ≤ kMaxBlocks)%nat ∧
  size_ self = Z.of_nat (length (concat ws)) ∧ size_ self < 2 ^ 32 ∧
  ∃ used, blocks self = used ++ replicate (kMaxBlocks - length ws) null_slice ∧
    Forall2 (block_ok h) used ws.

Lemma HM_ok {A B} (m : HM A) (f : A → HM B) h a h' :
  m h = Ok (a, h') → (m ≫= f) h = f a h'.
Proof. intros E. unfold mbind, HM_bind. by rewrite E. Qed.

Lemma lift_ok {A} (a : A) h : lift (Ok a) h = Ok (a, h).
Proof. done. Qed.

Lemma block_ok_window h s w :
  block_ok h s w → window s h = Ok (w, h) ∧ GetUsedSize s = Z.of_nat (length w).
Proof.
  intros (l & b & Hs & Hb & Hwf & Hw & _ & ->).
  by destruct (window_read _ _ _ _ Hs Hb Hwf Hw) as (cs & E & Hl & ->).
Qed.

Lemma block_lookup i bs s h : bs !! i = Some s → block i bs h = Ok (s, h).
Proof. unfold block. by intros ->. Qed.

Lemma put_lookup i s bs h :
  (i < length bs)%nat → put i s bs h = Ok (<[i := s]> bs, h).
Proof.
  intros [x Hx]%lookup_lt_is_Some_2. unfold put.
  by rewrite (HM_ok _ _ _ _ _ (block_lookup _ _ _ _ Hx)).
Qed.

Lemma move_in_lookup i s bs old h :
  bs !! i = Some old → move_in i s bs h = Ok ((old, <[i := s]> bs), h).
Proof.
  intros Hi. unfold move_in. rewrite (HM_ok _ _ _ _ _ (block_lookup _ _ _ _ Hi)). simpl.
  by rewrite (HM_ok _ _ _ _ _ (put_lookup _ _ _ _ (lookup_lt_Some _ _ _ Hi))).
Qed.

Lemma gather_ok h used ws : Forall2 (block_ok h) used ws →
  ∀ pre post, gather (length pre) (length ws) (pre ++ used ++ post) h = Ok (concat ws, h).
Proof.
  induction 1 as [|s w used ws Hs _ IH]; intros pre post; [done|]. cbn [gather length concat].
  assert (((pre ++ (s :: used) ++ post) : list MemSlice) !! length pre = Some s) as Hl
    by (rewrite lookup_app_r by done; by rewrite Nat.sub_diag).
  rewrite (HM_ok _ _ _ _ _ (block_lookup _ _ _ _ Hl)).
  rewrite (HM_ok _ _ _ _ _ (proj1 (block_ok_window _ _ _ Hs))).
  specialize (IH (pre ++ [s]) post). rewrite length_app, Nat.add_comm in IH.
  rewrite <- app_assoc in IH. by rewrite (HM_ok _ _ _ _ _ IH).
Qed.

Lemma ToRawBuffer_ok h size used ws post :
  Forall2 (block_ok h) used ws → (length ws < kMaxBlocks)%nat →
  (size = 0 → concat ws = []) →
  ToRawBuffer (mkSpan size (length ws) (used ++ post)) h = Ok (concat ws, h).
Proof.
  intros Hws Hn Hz. unfold ToRawBuffer, some_room. cbn [block_count_ blocks size_].
  rewrite (proj2 (Nat.ltb_lt _ _) Hn). rewrite (HM_ok _ _ h tt h) by done.
  destruct ws as [|w ws]; [done|]. cbn [length Nat.leb orb].
  destruct (size =? 0) eqn:E; [|exact (gather_ok _ _ _ Hws [] post)].
  by rewrite Hz by lia.
Qed.

(** Cutting [k] bytes off the front of a block. *)
Lemma AdjustBegin_block h s w k :
  block_ok h s w → 0 ≤ k ≤ Z.of_nat (length w) →
  ∃ s', AdjustBeginPointer (i32 k) s h = Ok (s', h) ∧ block_ok h s' (drop (Z.to_nat k) w).
Proof.
  intros Hok Hk. destruct (block_ok_window _ _ _ Hok) as [_ Hu].
  destruct Hok as (l & b & Hs & Hb & Hwf & Hw & Hc & Ew).
  pose proof Hw as Hw'. unfold window_ok in Hw'. rewrite Hs in Hw'. specialize (Hw' b Hb).
  unfold GetUsedSize in Hu, Ew. rewrite u32_small in Hu, Ew by lia.
  unfold AdjustBeginPointer. rewrite (i32_small k) by lia.
  assert (fits_i32 (begin_offset_ s) k) as Hf by (unfold fits_i32; rewrite i32_small; lia).
  rewrite (HM_ok _ _ _ _ _ (add_i32_ok h _ _ Hf)). rewrite i32_small, u32_small by lia.
  destruct (SetBeginPointer_ok h l b (begin_offset_ s + k) s)
    as (s' & E & Hs' & Hw2 & Eb & Ee); [done|done|lia|done|].
  exists s'. split; [done|]. exists l, b. split_and!; try done.
  rewrite Eb, Z.min_l by lia. subst w. unfold GetUsedSize. rewrite Eb, Z.min_l, Ee by lia.
  rewrite u32_small by lia. rewrite skipn_firstn_comm, drop_drop. f_equal; [lia|]. f_equal. lia.
Qed.

(** One turn of the first loop of [AdjustBeginPointer]. *)
Lemma trim_step h pos n left bs s w :
  bs !! pos = Some s → block_ok h s w → 0 ≤ left < 2 ^ 32 →
  ∃ s', block_ok h s' (drop (Z.to_nat left) w) ∧
    trim pos (S n) left bs h =
      if left <=? Z.of_nat (length w)
      then Ok ((if left =? Z.of_nat (length w) then S pos else pos, <[pos := s']> bs), h)
      else trim (S pos) n (left - Z.of_nat (length w)) (<[pos := s']> bs) h.
Proof.
  intros Hi Hs Hk. destruct (block_ok_window _ _ _ Hs) as [_ Hu].
  destruct (AdjustBegin_block h s w (Z.min left (Z.of_nat (length w))) Hs) as (s' & E & Hs'); [lia|].
  destruct (block_ok_window _ _ _ Hs') as [_ Hu']. rewrite length_drop in Hu'.
  exists s'. split.
  - replace (drop (Z.to_nat left) w) with (drop (Z.to_nat (Z.min left (Z.of_nat (length w)))) w);
      [done|].
    destruct (Z.leb_spec left (Z.of_nat (length w))); [by rewrite Z.min_l by lia|].
    rewrite !drop_ge by lia. done.
  - cbn [trim]. rewrite (HM_ok _ _ _ _ _ (block_lookup _ _ _ _ Hi)). cbv zeta.
    rewrite Hu, (HM_ok _ _ _ _ _ E).
    rewrite (HM_ok _ _ _ _ _ (put_lookup _ _ _ _ (lookup_lt_Some _ _ _ Hi))), Hu'.
    destruct (Z.leb_spec left (Z.of_nat (length w))).
    + rewrite Z.min_l, Z.sub_diag by lia. simpl.
      destruct (Z.eqb_spec left (Z.of_nat (length w)));
        [rewrite (proj2 (Z.eqb_eq _ 0)) by lia|rewrite (proj2 (Z.eqb_neq _ 0)) by lia]; done.
    + rewrite Z.min_r, u32_small, (proj2 (Z.eqb_neq _ 0)) by lia. done.
Qed.

(** One turn of the second loop. *)
Lemma shift_down_step h pos n bs s old :
  bs !! pos = Some s → bs !! 0%nat = Some old →
  shift_down 0 pos (S n) bs h = shift_down 0 (S pos) n (<[pos := old]> (<[0%nat := s]> bs)) h.
Proof.
  intros Hs Ho. cbn [shift_down]. rewrite (HM_ok _ _ _ _ _ (block_lookup _ _ _ _ Hs)).
  rewrite (HM_ok _ _ _ _ _ (move_in_lookup _ _ _ _ _ Ho)).
  assert (pos < length (<[0%nat := s]> bs))%nat as Hl
    by (rewrite length_insert; exact (lookup_lt_Some _ _ _ Hs)).
  cbv beta iota. by rewrite (HM_ok _ _ _ _ _ (put_lookup _ old _ h Hl)).
Qed.

(** [AdjustBeginPointer] once its first loop is known to stop. *)
Lemma adjust_after_trim h self k pos bs :
  0 ≤ k < size_ self → size_ self < 2 ^ 32 →
  trim 0 (block_count_ self) k (blocks self) h = Ok ((pos, bs), h) →
  span_AdjustBeginPointer k self h =
    if (pos =? 0)%nat then Ok (mkSpan (size_ self - k) (block_count_ self) bs, h)
    else match shift_down 0 pos (block_count_ self - pos) bs h with
         | Ok (bs, h) => Ok (mkSpan (size_ self - k) (block_count_ self - pos) bs, h)
         | Err e => Err e
         end.
Proof.
  intros Hk Hz E. unfold span_AdjustBeginPointer. rewrite (proj2 (Z.ltb_lt _ _)) by lia.
  rewrite (HM_ok _ _ h tt h) by done. rewrite (HM_ok _ _ _ _ _ E). cbv zeta.
  rewrite u32_small by lia. by destruct (pos =? 0)%nat.
Qed.

(** Cutting inside the first block leaves the blocks where they are. *)
Lemma adjust_in_first h self w ws k :
  spells h self (w :: ws) → 0 ≤ k < Z.of_nat (length w) →
  ∃ self', span_AdjustBeginPointer k self h = Ok (self', h) ∧
    spells h self' (drop (Z.to_nat k) w :: ws).
Proof.
  intros (Hc & Hn & Hz & Hlt & used & Hb & Hws) Hk.
  inversion Hws as [|s ? used' ? Hs Hws']; subst. cbn [concat] in Hz. rewrite length_app in Hz.
  destruct (trim_step h 0 (length ws) k (blocks self) s w) as (s' & Hs' & E);
    [by rewrite Hb|done|lia|].
  rewrite (proj2 (Z.leb_le _ _)), (proj2 (Z.eqb_neq _ _)) in E by lia.
  erewrite adjust_after_trim; [|lia|lia|by rewrite Hc]. simpl.
  eexists. split; [done|].
  split_and!; cbn [block_count_ size_ blocks length concat] in *; [done|done| |lia|].
  - rewrite length_app, length_drop. lia.
  - exists (s' :: used'). rewrite Hb. split; [done|]. by constructor.
Qed.

(** Cutting at or after the end of the first block of two leaves the rest of the
    second in the first place. *)
Lemma adjust_to_second h self a b k :
  spells h self [a; b] → Z.of_nat (length a) ≤ k < Z.of_nat (length (a ++ b)) →
  ∃ t rest, span_AdjustBeginPointer k self h = Ok (mkSpan (size_ self - k) 1 (t :: rest), h) ∧
    block_ok h t (drop (Z.to_nat k - length a) b).
Proof.
  intros (Hc & _ & Hz & Hlt & used & Hb & Hws) Hk. rewrite length_app in Hk.
  inversion Hws as [|s1 ? used' ? Hs1 Hws']; subst.
  inversion Hws' as [|s2 ? used'' ? Hs2 Hws'']; subst. inversion Hws''; subst.
  cbn [concat] in Hz. rewrite app_nil_r, length_app in Hz.
  destruct (trim_step h 0 1 k (blocks self) s1 a) as (s1' & _ & E1); [by rewrite Hb|done|lia|].
  destruct (Z.leb_spec k (Z.of_nat (length a))).
  - rewrite (proj2 (Z.eqb_eq _ _)) in E1 by lia.
    erewrite adjust_after_trim; [|lia|lia|by rewrite Hc]. rewrite Hc, Hb. simpl.
    do 2 eexists. split; [done|]. replace (Z.to_nat k - length a)%nat with 0%nat by lia. done.
  - destruct (trim_step h 1 0 (k - Z.of_nat (length a)) (<[0%nat := s1']> (blocks self)) s2 b)
      as (s2' & Hs2' & E2); [by rewrite Hb|done|lia|].
    rewrite E2, (proj2 (Z.leb_le _ _)), (proj2 (Z.eqb_neq _ _)) in E1 by lia.
    erewrite adjust_after_trim; [|lia|lia|by rewrite Hc]. rewrite Hc, Hb. simpl.
    do 2 eexists. split; [done|].
    replace (Z.to_nat k - length a)%nat with (Z.to_nat (k - Z.of_nat (length a))) by lia. done.
Qed.

(** A heap of three buffers of two bytes, a slice on each, and the spans of the
    first [n] of them. *)
Definition demo_heap : heap :=
  list_to_map ((λ i, (Pos.of_nat (S i), MemBuf.mkMemBuf 1 2 [Some (Z.of_nat i); Some 7])) <$> seq 0 4).
Definition demo_slice (i : nat) : MemSlice := mkMemSlice (Some (Pos.of_nat (S i))) 0 2.
Definition demo_span (n : nat) : MemSliceSpan :=
  mkSpan (2 * Z.of_nat n) n
    ((demo_slice <$> seq 0 n) ++ replicate (kMaxBlocks - n) null_slice).
Definition demo_bytes (i : nat) : list cell := [Some (Z.of_nat i); Some 7].

Lemma demo_block i : (i < 4)%nat → block_ok demo_heap (demo_slice i) (demo_bytes i).
Proof.
  intros Hi. exists (Pos.of_nat (S i)), (MemBuf.mkMemBuf 1 2 (demo_bytes i)).
  do 4 (destruct i as [|i]; [split_and!; try done; intros b; vm_compute; intros E; injection E as <-;
    by split_and!|]).
  lia.
Qed.

Lemma demo_spells n : (n ≤ 4)%nat → spells demo_heap (demo_span n) (demo_bytes <$> seq 0 n).
Proof.
  intros Hn. split_and!.
  - by rewrite length_fmap, length_seq.
  - rewrite length_fmap, length_seq. done.
  - do 5 (destruct n as [|n]; [done|]). lia.
  - simpl. lia.
  - exists (demo_slice <$> seq 0 n). rewrite length_fmap, length_seq. split; [done|].
    apply Forall2_fmap, Forall_Forall2_diag, Forall_forall. intros i Hi%in_seq.
    apply demo_block. lia.
Qed.

(** ** Properties *)

(** [PushBack] appends the bytes of the block while a place is free; the span
    can then be read back, unless the fourth place was taken: the class accepts
    four blocks and every reader asserts that there are fewer. *)
Theorem PushBack_appends h self ws s w :
  spells h self ws → block_ok h s w → (length ws < kMaxBlocks)%nat →
  size_ self + GetUsedSize s < 2 ^ 32 →
  ∃ self', PushBack s self h = Ok ((true, self'), h) ∧ spells h self' (ws ++ [w]) ∧
    ToRawBuffer self' h =
      if (S (length ws) <? kMaxBlocks)%nat then Ok (concat ws ++ w, h) else Err AssertFailed.
Proof.
  intros (Hc & _ & Hz & _ & used & Hb & Hws) Hs Hn Hsz.
  destruct (block_ok_window _ _ _ Hs) as [_ Hu].
  assert (length used = length ws) as Hl by (eapply Forall2_length; exact Hws).
  assert (blocks self !! length ws = Some null_slice) as Hi.
  { rewrite Hb, lookup_app_r by lia. rewrite lookup_replicate. split; [done|lia]. }
  assert (<[length ws := s]> (blocks self)
          = (used ++ [s]) ++ replicate (kMaxBlocks - S (length ws)) null_slice) as Hb'.
  { rewrite Hb, <- Hl, insert_app_r_alt, Nat.sub_diag by lia.
    replace (kMaxBlocks - length used)%nat with (S (kMaxBlocks - S (length used))) by lia.
    by rewrite <- app_assoc. }
  assert (Forall2 (block_ok h) (used ++ [s]) (ws ++ [w])) as Hws'
    by (apply Forall2_app; eauto).
  assert (length (ws ++ [w]) = S (length ws)) as Hl' by (rewrite length_app; simpl; lia).
  unfold PushBack. rewrite Hc, (proj2 (Nat.leb_gt _ _)) by done.
  rewrite (HM_ok _ _ _ _ _ (move_in_lookup _ s _ _ h Hi)), Hb', u32_small by lia.
  eexists. split; [done|]. split.
  - split_and!; cbn [block_count_ size_ blocks]; rewrite ?Hl'; [done|lia| |lia|].
    + rewrite concat_app, length_app. simpl. rewrite app_nil_r. lia.
    + by exists (used ++ [s]).
  - destruct (Nat.ltb_spec (S (length ws)) kMaxBlocks) as [Hlt|Hge].
    + rewrite <- Hl', ToRawBuffer_ok; [|done|lia|].
      * rewrite concat_app. simpl. by rewrite app_nil_r.
      * intros H0. apply nil_length_inv. rewrite concat_app, length_app. simpl.
        rewrite app_nil_r. lia.
    + unfold ToRawBuffer, some_room. cbn [block_count_].
      by rewrite (proj2 (Nat.ltb_ge _ _)) by done.
Qed.

Lemma PushBack_appends_witness :
  ∃ self', PushBack (demo_slice 1) (demo_span 1) demo_heap = Ok ((true, self'), demo_heap) ∧
    ToRawBuffer self' demo_heap = Ok ([Some 0; Some 7; Some 1; Some 7], demo_heap).
Proof.
  destruct (PushBack_appends demo_heap (demo_span 1) [demo_bytes 0] (demo_slice 1) (demo_bytes 1))
    as (self' & E & _ & Hr);
    [exact (demo_spells 1 ltac:(lia))|apply demo_block; lia|unfold kMaxBlocks; simpl; lia|done|].
  exists self'. exact (conj E Hr).
Defined.

(** cutting [offset] bytes off the front of a span removes exactly these bytes
    when the cut falls in the first block, or when there are at most two. *)
Theorem AdjustBeginPointer_drops h self ws offset :
  spells h self ws → (length ws < kMaxBlocks)%nat → 0 ≤ offset < size_ self →
  (length ws ≤ 2)%nat ∨ offset < Z.of_nat (length (default [] (head ws))) →
  ∃ self', span_AdjustBeginPointer offset self h = Ok (self', h) ∧
    size_ self' = size_ self - offset ∧
    ToRawBuffer self' h = Ok (drop (Z.to_nat offset) (concat ws), h).
Proof.
  intros Hsp Hn Hk Hor. destruct ws as [|a ws].
  { destruct Hsp as (_ & _ & Hz & _). simpl in Hz. lia. }
  destruct (decide (offset < Z.of_nat (length a))) as [Hin|Hout].
  - destruct (adjust_in_first _ _ _ _ _ Hsp (conj (proj1 Hk) Hin)) as ([z c bs] & E & Hsp').
    exists (mkSpan z c bs). split; [done|].
    destruct Hsp' as (Hc & _ & Hz & _ & used & Hb & Hws), Hsp as (_ & _ & Hz0 & _).
    simpl in *. rewrite length_app in *. rewrite length_drop in Hz. split; [lia|].
    rewrite drop_app_le by lia. subst c bs.
    apply (ToRawBuffer_ok h z used (drop (Z.to_nat offset) a :: ws)); [done|simpl; lia|lia].
  - destruct ws as [|b [|c ws]]; [| |simpl in Hor; lia].
    { destruct Hsp as (_ & _ & Hz & _). simpl in Hz. rewrite app_nil_r in Hz. lia. }
    pose proof Hsp as (_ & _ & Hz & _). simpl in Hz. rewrite app_nil_r in Hz.
    destruct (adjust_to_second h self a b offset) as (t & rest & E & Ht); [done|lia|].
    rewrite length_app in Hz.
    eexists. split; [exact E|]. split; [done|]. cbn [concat]. rewrite app_nil_r, drop_app_ge by lia.
    etrans; [apply (ToRawBuffer_ok h (size_ self - offset) [t] [drop (Z.to_nat offset - length a) b] rest); [|unfold kMaxBlocks; simpl; lia|lia]|].
    { by constructor; [exact Ht|]. }
    simpl. by rewrite app_nil_r.
Qed.

Lemma AdjustBeginPointer_drops_witness :
  ∃ self', span_AdjustBeginPointer 3 (demo_span 2) demo_heap = Ok (self', demo_heap) ∧
    size_ self' = 1 ∧ ToRawBuffer self' demo_heap = Ok ([Some 7], demo_heap).
Proof.
  apply (AdjustBeginPointer_drops demo_heap (demo_span 2) [demo_bytes 0; demo_bytes 1] 3);
    [exact (demo_spells 2 ltac:(lia))|unfold kMaxBlocks; simpl; lia|simpl; lia|left; simpl; lia].
Defined.

(** with three blocks, cutting the whole first one loses the second: the last
    loop moves every remaining block to place 0, because its [k] never grows.
    The span then holds the third block and the emptied first, while [size_]
    still counts the second. *)
Theorem AdjustBeginPointer_loses_a_block h self a b c :
  spells h self [a; b; c] → (0 < length (b ++ c))%nat →
  ∃ self', span_AdjustBeginPointer (Z.of_nat (length a)) self h = Ok (self', h) ∧
    size_ self' = Z.of_nat (length (b ++ c)) ∧ block_count_ self' = 2%nat ∧
    ToRawBuffer self' h = Ok (c, h).
Proof.
  intros (Hc & _ & Hz & Hlt & used & Hb & Hws) Hpos. rewrite length_app in *.
  inversion Hws as [|s1 ? used1 ? Hs1 Hws1]; subst.
  inversion Hws1 as [|s2 ? used2 ? Hs2 Hws2]; subst.
  inversion Hws2 as [|s3 ? used3 ? Hs3 Hws3]; subst. inversion Hws3; subst.
  cbn [concat] in Hz. rewrite app_nil_r, !length_app in Hz.
  destruct (trim_step h 0 2 (Z.of_nat (length a)) (blocks self) s1 a) as (s1' & Hs1' & E);
    [by rewrite Hb|done|lia|].
  rewrite Z.leb_refl, Z.eqb_refl, Hb in E. rewrite drop_ge in Hs1' by lia.
  erewrite adjust_after_trim; [|lia|lia|rewrite Hc, Hb; exact E]. rewrite Hc. simpl.
  eexists. split; [done|]. split_and!; [simpl; lia|done|].
  etrans; [apply (ToRawBuffer_ok h _ [s3; s1'] [c; []] [s2; null_slice]); [|unfold kMaxBlocks; simpl; lia|lia]|].
  { by constructor; [|constructor; [|constructor]]. }
  simpl. by rewrite app_nil_r.
Qed.

Lemma AdjustBeginPointer_loses_a_block_witness :
  ∃ self', span_AdjustBeginPointer 2 (demo_span 3) demo_heap = Ok (self', demo_heap) ∧
    size_ self' = 4 ∧ block_count_ self' = 2%nat ∧
    ToRawBuffer self' demo_heap = Ok ([Some 2; Some 7], demo_heap).
Proof.
  apply (AdjustBeginPointer_loses_a_block demo_heap (demo_span 3)
    (demo_bytes 0) (demo_bytes 1) (demo_bytes 2));
    [exact (demo_spells 3 ltac:(lia))|simpl; lia].
Defined.
