(* ===== verification/Codec.v ===== *)
(** * Codec: the stream operators of base/packer.h and base/unpacker.h

    A [Codec A] is the pair of overloads [operator<<] and [operator>>] the
    source gives to the C++ type whose values [A] represents, with the value of
    [T()].  [pop] takes the object that is read into: the overloads for
    containers add to it instead of replacing it.

    [CodecOk] is what a packable type promises to the containers, structures
    and packets built from it: an encoding [enc] that [push] appends and [pop]
    consumes. *)

From Stdlib Require Import Sorted.
From S2P Require Import Prelude Bytes Wire Packer Unpacker.

Record Codec (A : Type) := mkCodec {
  push : A → Packer.Packer → result Packer.Packer;
  pop : A → Unpacker.Unpacker → result (A * Unpacker.Unpacker);
  dflt : A;
}.
Arguments mkCodec {A}.
Arguments push {A}.
Arguments pop {A}.
Arguments dflt {A}.

(** ** The overloads for the base types *)

Definition bool_codec : Codec bool :=
  mkCodec Packer.PushBoolean (λ _, Unpacker.PopBoolean) false.
Definition uint8_codec : Codec Z :=
  mkCodec Packer.PushUint8 (λ _, Unpacker.PopUint8) 0.
Definition uint16_codec : Codec Z :=
  mkCodec Packer.PushUint16 (λ _, Unpacker.PopUint16) 0.
Definition uint32_codec : Codec Z :=
  mkCodec Packer.PushUint32 (λ _, Unpacker.PopUint32) 0.
Definition uint64_codec : Codec Z :=
  mkCodec Packer.PushUint64 (λ _, Unpacker.PopUint64) 0.

(** The signed types go through the unsigned push and pop. *)
Definition char_codec : Codec Z :=
  mkCodec (λ v, Packer.PushUint8 (u8 v))
    (λ _ u, '(v, u) ← Unpacker.PopUint8 u; Ok (i8 v, u)) 0.
Definition int8_codec : Codec Z :=
  mkCodec (λ v, Packer.PushUint8 (u8 v))
    (λ _ u, '(v, u) ← Unpacker.PopUint8 u; Ok (i8 v, u)) 0.
Definition int16_codec : Codec Z :=
  mkCodec (λ v, Packer.PushUint16 (u16 v))
    (λ _ u, '(v, u) ← Unpacker.PopUint16 u; Ok (i16 v, u)) 0.
Definition int32_codec : Codec Z :=
  mkCodec (λ v, Packer.PushUint32 (u32 v))
    (λ _ u, '(v, u) ← Unpacker.PopUint32 u; Ok (i32 v, u)) 0.
Definition int64_codec : Codec Z :=
  mkCodec (λ v, Packer.PushUint64 (u64 v))
    (λ _ u, '(v, u) ← Unpacker.PopUint64 u; Ok (i64 v, u)) 0.

Definition double_codec : Codec Z :=
  mkCodec Packer.PushDouble (λ _, Unpacker.PopDouble) 0.
Definition string_codec : Codec bytes :=
  mkCodec Packer.PushString (λ _, Unpacker.PopString) [].
Definition buffer_codec : Codec bytes :=
  mkCodec Packer.PushBuffer (λ _, Unpacker.PopBuffer) [].

(** ** Pairs, and the chains [p << a << b << c] *)

Definition pair_codec {A B} (ca : Codec A) (cb : Codec B) : Codec (A * B) :=
  mkCodec
    (λ v p, p ← push ca (fst v) p; push cb (snd v) p)
    (λ old u, '(a, u) ← pop ca (fst old) u; '(b, u) ← pop cb (snd old) u;
              Ok ((a, b), u))
    (dflt ca, dflt cb).

(** ** Sequences *)

Section sequences.
Context {A : Type} (c : Codec A).

Fixpoint push_each (l : list A) (p : Packer.Packer) : result Packer.Packer :=
  match l with
  | [] => Ok p
  | x :: l => p ← push c x p; push_each l p
  end.

Definition push_counted (l : list A) (p : Packer.Packer) : result Packer.Packer :=
  let count := u32 (Z.of_nat (length l)) in
  '(p, _) ← Packer.PushVariableUint32 count p;
  push_each (take (Z.to_nat count) l) p.

(** [for (i = 0; i < count; ++i) { T t; p >> t; add(t); }] *)
Fixpoint pop_each {B} (add : B → A → B) (count : nat) (acc : B)
    (u : Unpacker.Unpacker) : result (B * Unpacker.Unpacker) :=
  match count with
  | O => Ok (acc, u)
  | S count =>
      '(t, u) ← pop c (dflt c) u;
      pop_each add count (add acc t) u
  end.

Definition pop_counted {B} (add : B → A → B) (acc : B) (u : Unpacker.Unpacker)
    : result (B * Unpacker.Unpacker) :=
  '(count, u) ← Unpacker.PopVariableUint32 u;
  pop_each add (Z.to_nat count) acc u.
End sequences.

Definition push_back {A} (l : list A) (x : A) : list A := l ++ [x].

Definition vector_codec {A} (c : Codec A) : Codec (list A) :=
  mkCodec (push_counted c) (pop_counted c push_back) [].
Definition list_codec {A} (c : Codec A) : Codec (list A) :=
  mkCodec (push_counted c) (pop_counted c push_back) [].

(** [std::array]: the elements without a count, and no [operator>>]. *)
Definition push_array {A} (c : Codec A) (arr : list A) :=
  push_each c arr.

(** ** Ordered containers

    A [std::set] is its elements in the order of iteration, a [std::map] its
    pairs in the order of the keys. *)

Class Ordered (K : Type) := ltb : K → K → bool.

Fixpoint set_insert {K} `{Ordered K} (s : list K) (x : K) : list K :=
  match s with
  | [] => [x]
  | y :: s' => if ltb x y then x :: s
               else if ltb y x then y :: set_insert s' x
               else s
  end.

Fixpoint map_insert {K V} `{Ordered K} (m : list (K * V)) (x : K * V) : list (K * V) :=
  match m with
  | [] => [x]
  | y :: m' => if ltb (fst x) (fst y) then x :: m
               else if ltb (fst y) (fst x) then y :: map_insert m' x
               else m
  end.

Definition set_codec {K} `{Ordered K} (c : Codec K) : Codec (list K) :=
  mkCodec (push_counted c) (pop_counted c set_insert) [].
Definition map_codec {K V} `{Ordered K} (ck : Codec K) (cv : Codec V)
    : Codec (list (K * V)) :=
  mkCodec (push_counted (pair_codec ck cv))
    (pop_counted (pair_codec ck cv) map_insert) [].

#[export] Instance Z_ordered : Ordered Z := Z.ltb.

(** [std::string::operator<]: bytes compared as unsigned. *)
Fixpoint bytes_ltb (s t : bytes) : bool :=
  match s, t with
  | _, [] => false
  | [], _ :: _ => true
  | a :: s, b :: t => if a <? b then true else if b <? a then false else bytes_ltb s t
  end.
#[export] Instance bytes_ordered : Ordered bytes := bytes_ltb.

(** ** The interface of a packable type *)

Class CodecSpec {A : Type} (c : Codec A) := {
  enc : A → bytes;
  valid : A → Prop;
  absorb : A → A → A;
}.
Arguments enc {A} c {_} _.
Arguments valid {A} c {_} _.
Arguments absorb {A} c {_} _ _.

Class CodecOk {A : Type} (c : Codec A) `{CodecSpec A c} : Prop := {
  push_enc : ∀ a p bs, valid c a → Packer.holds p bs →
    Packer.room bs (Z.of_nat (length (enc c a)) + 1) →
    Packer.emits (push c a p) p bs (enc c a);
  pop_enc : ∀ old a u rest, valid c a → Unpacker.view u (enc c a ++ rest) →
    pop c old u = Ok (absorb c old a, Unpacker.advance (Z.of_nat (length (enc c a))) u);
  absorb_dflt : ∀ a, valid c a → absorb c (dflt c) a = a;
  enc_ok : ∀ a, valid c a → bytes_ok (enc c a);
}.

(** What a popped value leaves to read. *)
Lemma pop_rest {A} (c : Codec A) `{CodecSpec A c} a u rest :
  Unpacker.view u (enc c a ++ rest) →
  Unpacker.view (Unpacker.advance (Z.of_nat (length (enc c a))) u) rest.
Proof. intros. by eapply Unpacker.advance_view_app. Qed.

Lemma room_enc bs (e : bytes) n :
  Packer.room bs (Z.of_nat (length e) + 1) → n = Z.of_nat (length e) →
  Packer.room bs n.
Proof. intros. eapply Packer.room_le; [done|lia]. Qed.

(** ** The base types keep the interface *)

Definition unsigned_spec w (c : Codec Z) : CodecSpec c := {|
  enc := le_bytes w;
  valid v := 0 ≤ v < 2 ^ (8 * Z.of_nat w);
  absorb _ v := v;
|}.

(** Two's complement image of a value between [-2^(8w-1)] and [2^(8w-1)]. *)
Definition signed_spec w (c : Codec Z) : CodecSpec c := {|
  enc v := le_bytes w (v mod 2 ^ (8 * Z.of_nat w));
  valid v := - 2 ^ (8 * Z.of_nat w - 1) ≤ v < 2 ^ (8 * Z.of_nat w - 1);
  absorb _ v := v;
|}.

Section fixed_width.
Context (w : nat) (pushw : Z → Packer.Packer → result Packer.Packer)
        (popw : Unpacker.Unpacker → result (Z * Unpacker.Unpacker)).
Context (Hpush : ∀ v p bs, Packer.holds p bs → Packer.room bs (Z.of_nat w) →
                 Packer.emits (pushw v p) p bs (le_bytes w v)).
Context (Hpop : ∀ u xs rest, Unpacker.view u (xs ++ rest) → length xs = w →
                popw u = Ok (le_val xs, Unpacker.advance (Z.of_nat w) u)).

Lemma push_width v p bs :
  Packer.holds p bs → Packer.room bs (Z.of_nat (length (le_bytes w v)) + 1) →
  Packer.emits (pushw v p) p bs (le_bytes w v).
Proof using Hpush.
  intros Hh Hr. apply Hpush; [done|].
  eapply room_enc; [done|]. by rewrite length_le_bytes.
Qed.

Lemma pop_width v u rest :
  0 ≤ v < 2 ^ (8 * Z.of_nat w) → Unpacker.view u (le_bytes w v ++ rest) →
  popw u = Ok (v, Unpacker.advance (Z.of_nat (length (le_bytes w v))) u).
Proof using Hpop.
  intros Hv Hu.
  rewrite (Hpop u (le_bytes w v) rest) by (done || apply length_le_bytes).
  by rewrite le_val_le_bytes_small, length_le_bytes.
Qed.

Lemma unsigned_laws :
  @CodecOk Z (mkCodec pushw (λ _, popw) 0) (unsigned_spec w _).
Proof using Hpush Hpop.
  split; simpl; intros.
  - by apply push_width.
  - by eapply pop_width.
  - done.
  - apply le_bytes_ok.
Qed.

Lemma signed_laws (un sg : Z → Z) :
  (∀ v, un v = v mod 2 ^ (8 * Z.of_nat w)) →
  (∀ v, - 2 ^ (8 * Z.of_nat w - 1) ≤ v < 2 ^ (8 * Z.of_nat w - 1) → sg (un v) = v) →
  @CodecOk Z (mkCodec (λ v, pushw (un v)) (λ _ u, '(v, u) ← popw u; Ok (sg v, u)) 0)
    (signed_spec w _).
Proof using Hpush Hpop.
  intros Hun Hsg. split; simpl; intros; [|rewrite <- Hun in *|done|apply le_bytes_ok].
  - rewrite <- Hun in *. by apply push_width.
  - rewrite (pop_width (un a) _ rest), bind_ok; try done; [by rewrite Hsg|].
    rewrite Hun. apply Z.mod_pos_bound. lia.
Qed.
End fixed_width.

Ltac width_laws w lem push_lem pop_lem :=
  apply (lem w);
    [ intros; by apply push_lem
    | intros u xs rest Hv Hl; by destruct (pop_lem u xs rest Hv Hl) as [-> _] | .. ].

#[export] Instance uint8_spec : CodecSpec uint8_codec := unsigned_spec 1 _.
#[export] Instance uint16_spec : CodecSpec uint16_codec := unsigned_spec 2 _.
#[export] Instance uint32_spec : CodecSpec uint32_codec := unsigned_spec 4 _.
#[export] Instance uint64_spec : CodecSpec uint64_codec := unsigned_spec 8 _.
#[export] Instance double_spec : CodecSpec double_codec := unsigned_spec 8 _.
#[export] Instance char_spec : CodecSpec char_codec := signed_spec 1 _.
#[export] Instance int8_spec : CodecSpec int8_codec := signed_spec 1 _.
#[export] Instance int16_spec : CodecSpec int16_codec := signed_spec 2 _.
#[export] Instance int32_spec : CodecSpec int32_codec := signed_spec 4 _.
#[export] Instance int64_spec : CodecSpec int64_codec := signed_spec 8 _.

#[export] Instance uint8_ok : CodecOk uint8_codec.
Proof. width_laws 1%nat unsigned_laws Packer.PushUint8_emits Unpacker.PopUint8_view. Qed.
#[export] Instance uint16_ok : CodecOk uint16_codec.
Proof. width_laws 2%nat unsigned_laws Packer.PushUint16_emits Unpacker.PopUint16_view. Qed.
#[export] Instance uint32_ok : CodecOk uint32_codec.
Proof. width_laws 4%nat unsigned_laws Packer.PushUint32_emits Unpacker.PopUint32_view. Qed.
#[export] Instance uint64_ok : CodecOk uint64_codec.
Proof. width_laws 8%nat unsigned_laws Packer.PushUint64_emits Unpacker.PopUint64_view. Qed.
#[export] Instance double_ok : CodecOk double_codec.
Proof. width_laws 8%nat unsigned_laws Packer.PushDouble_emits Unpacker.PopDouble_view. Qed.
#[export] Instance char_ok : CodecOk char_codec.
Proof.
  width_laws 1%nat signed_laws Packer.PushUint8_emits Unpacker.PopUint8_view;
    [done|apply i8_u8].
Qed.
#[export] Instance int8_ok : CodecOk int8_codec.
Proof. exact char_ok. Qed.
#[export] Instance int16_ok : CodecOk int16_codec.
Proof.
  width_laws 2%nat signed_laws Packer.PushUint16_emits Unpacker.PopUint16_view;
    [done|apply i16_u16].
Qed.
#[export] Instance int32_ok : CodecOk int32_codec.
Proof.
  width_laws 4%nat signed_laws Packer.PushUint32_emits Unpacker.PopUint32_view;
    [done|apply i32_u32].
Qed.
#[export] Instance int64_ok : CodecOk int64_codec.
Proof.
  width_laws 8%nat signed_laws Packer.PushUint64_emits Unpacker.PopUint64_view;
    [done|apply i64_u64].
Qed.

#[export] Instance bool_spec : CodecSpec bool_codec := {|
  enc b := [Z.b2z b];
  valid _ := True;
  absorb _ b := b;
|}.
#[export] Instance bool_ok : CodecOk bool_codec.
Proof.
  split; simpl; try done.
  - intros b p bs _ Hh Hr.
    replace [Z.b2z b] with (le_bytes 1 (Z.b2z b)) by (by destruct b).
    apply Packer.PushUint8_emits; [done|]. eapply Packer.room_le; [done|lia].
  - intros _ b u rest _ Hu. by destruct (Unpacker.PopBoolean_view u [Z.b2z b] rest Hu b) as [-> _].
  - intros b _. constructor; [destruct b; done|constructor].
Qed.

(** Strings: the bytes of the prefix and the characters. *)
Definition str_spec (c : Codec bytes) : CodecSpec c := {|
  enc := str_enc;
  valid s := Z.of_nat (length s) < 2 ^ 23 ∧ bytes_ok s;
  absorb _ s := s;
|}.
#[export] Instance string_spec : CodecSpec string_codec := str_spec _.
#[export] Instance buffer_spec : CodecSpec buffer_codec := str_spec _.

#[export] Instance string_ok : CodecOk string_codec.
Proof.
  split; simpl; try done.
  - intros s p bs _ Hh Hr. apply Packer.PushString_emits; [done|].
    eapply Packer.room_le; [done|]. rewrite length_str_enc.
    pose proof (var_size_bound (Z.of_nat (length s))). lia.
  - intros _ s u rest [Hs _] Hu. by destruct (Unpacker.PopString_view u s rest Hs Hu) as [-> _].
  - intros s [_ Hs]. apply Forall_app_2; [apply var_enc_ok|done].
Qed.
#[export] Instance buffer_ok : CodecOk buffer_codec.
Proof. exact string_ok. Qed.

(** ** The compound types keep the interface *)

Section pair.
Context {A B} (ca : Codec A) (cb : Codec B).
Context `{CodecOk A ca, CodecOk B cb}.

#[export] Instance pair_spec : CodecSpec (pair_codec ca cb) := {|
  enc v := enc ca (fst v) ++ enc cb (snd v);
  valid v := valid ca (fst v) ∧ valid cb (snd v);
  absorb old v := (absorb ca (fst old) (fst v), absorb cb (snd old) (snd v));
|}.

#[export] Instance pair_ok : CodecOk (pair_codec ca cb).
Proof.
  split; simpl.
  - intros [a b] p bs [Ha Hb] Hh Hr. simpl in *.
    rewrite length_app, Nat2Z.inj_add in Hr.
    eapply Packer.emits_bind.
    + eapply push_enc; [done..|]. eapply Packer.room_le; [done|lia].
    + intros q Hq. eapply push_enc; [done..|]. apply Packer.room_app.
      eapply Packer.room_le; [done|lia].
  - intros [oa ob] [a b] u rest [Ha Hb] Hu. simpl in *.
    rewrite <- app_assoc in Hu.
    rewrite (pop_enc oa a u _ Ha Hu), bind_ok.
    rewrite (pop_enc ob b _ rest Hb (pop_rest _ _ _ _ Hu)), bind_ok.
    rewrite (Unpacker.advance_advance _ _ _ _ Hu) by (rewrite ?length_app; lia).
    by rewrite length_app, Nat2Z.inj_add.
  - intros [a b] [Ha Hb]. simpl in *. by rewrite !absorb_dflt.
  - intros [a b] [Ha Hb]. apply Forall_app_2; by apply enc_ok.
Qed.
End pair.

Section sequence_laws.
Context {A} (c : Codec A) `{CodecOk A c}.

Definition enc_each (l : list A) : bytes := mjoin (enc c <$> l).
Definition enc_counted (l : list A) : bytes :=
  var_enc (Z.of_nat (length l)) ++ enc_each l.
Definition valid_counted (l : list A) : Prop :=
  Z.of_nat (length l) < 2 ^ 23 ∧ Forall (valid c) l.

Lemma enc_each_cons x l : enc_each (x :: l) = enc c x ++ enc_each l.
Proof. reflexivity. Qed.

Lemma push_each_emits l p bs :
  Forall (valid c) l → Packer.holds p bs →
  Packer.room bs (Z.of_nat (length (enc_each l)) + 1) →
  Packer.emits (push_each c l p) p bs (enc_each l).
Proof using All.
  intros Hl. revert p bs. induction Hl as [|x l Hx Hl IH]; intros p bs Hh Hr.
  - exists p. unfold enc_each. simpl. by rewrite app_nil_r.
  - cbn [push_each]. rewrite enc_each_cons in *.
    rewrite length_app, Nat2Z.inj_add in Hr.
    apply Packer.emits_bind.
    + apply push_enc; [done..|]. eapply Packer.room_le; [done|lia].
    + intros q Hq. apply IH; [done|]. apply Packer.room_app.
      eapply Packer.room_le; [done|lia].
Qed.

Lemma push_counted_emits l p bs :
  valid_counted l → Packer.holds p bs →
  Packer.room bs (Z.of_nat (length (enc_counted l)) + 1) →
  Packer.emits (push_counted c l p) p bs (enc_counted l).
Proof using All.
  intros [Hn Hl] Hh Hr. unfold push_counted, enc_counted in *. cbv zeta.
  rewrite u32_small by lia. rewrite length_app, Nat2Z.inj_add in Hr.
  pose proof (length_var_enc (Z.of_nat (length l))).
  pose proof (var_size_bound (Z.of_nat (length l))).
  destruct (Packer.PushVariableUint32_emits (Z.of_nat (length l)) p bs)
    as (q & -> & Hq & El & Ec); [lia|done|eapply Packer.room_le; [done|lia]|].
  rewrite bind_ok, Nat2Z.id, take_ge by lia.
  destruct (push_each_emits l q _ Hl Hq) as (r & -> & Hrr & El' & Ec').
  { apply Packer.room_app. eapply Packer.room_le; [done|lia]. }
  exists r. rewrite app_assoc. split_and!; try done; congruence.
Qed.

Lemma pop_each_view {B} (add : B → A → B) l acc u rest :
  Forall (valid c) l → Unpacker.view u (enc_each l ++ rest) →
  pop_each c add (length l) acc u =
    Ok (foldl add acc l, Unpacker.advance (Z.of_nat (length (enc_each l))) u).
Proof using All.
  intros Hl. revert acc u. induction Hl as [|x l Hx Hl IH]; intros acc u Hu.
  - unfold enc_each. simpl. do 2 f_equal.
    destruct Hu as (? & ? & ? & ?). destruct u; unfold Unpacker.advance,
      Unpacker.set_position; simpl in *. f_equal. rewrite u32_small; lia.
  - cbn [pop_each length foldl]. rewrite enc_each_cons in *.
    rewrite <- app_assoc in Hu.
    rewrite (pop_enc _ x u _ Hx Hu), bind_ok.
    rewrite (IH _ _ (pop_rest _ _ _ _ Hu)). rewrite absorb_dflt by done.
    rewrite (Unpacker.advance_advance _ _ _ _ Hu) by (rewrite ?length_app; lia).
    by rewrite length_app, Nat2Z.inj_add.
Qed.

Lemma pop_counted_view {B} (add : B → A → B) l acc u rest :
  valid_counted l → Unpacker.view u (enc_counted l ++ rest) →
  pop_counted c add acc u =
    Ok (foldl add acc l, Unpacker.advance (Z.of_nat (length (enc_counted l))) u).
Proof using All.
  intros [Hn Hl] Hu. unfold pop_counted, enc_counted in *.
  rewrite <- app_assoc in Hu.
  destruct (Unpacker.PopVariableUint32_small u _ _ (conj (Nat2Z.is_nonneg _) Hn) Hu)
    as [HP HV].
  unfold Unpacker.popped in HP. rewrite HP, bind_ok, Nat2Z.id.
  rewrite (pop_each_view add l acc _ rest Hl HV).
  pose proof (length_var_enc (Z.of_nat (length l))).
  pose proof (var_size_bound (Z.of_nat (length l))).
  rewrite (Unpacker.advance_advance _ _ _ _ Hu); rewrite ?length_app; try lia.
  do 3 f_equal. lia.
Qed.

Lemma enc_counted_ok l : valid_counted l → bytes_ok (enc_counted l).
Proof using All.
  intros [_ Hl]. apply Forall_app_2; [apply var_enc_ok|].
  unfold enc_each. induction Hl; simpl; [constructor|].
  apply Forall_app_2; [by apply enc_ok|done].
Qed.
End sequence_laws.

Lemma foldl_push_back {A} (l acc : list A) : foldl push_back acc l = acc ++ l.
Proof.
  revert acc. induction l as [|x l IH]; intros; simpl; [by rewrite app_nil_r|].
  rewrite IH. unfold push_back. by rewrite <- app_assoc.
Qed.

Section vector.
Context {A} (c : Codec A) `{CodecOk A c}.

(** [operator>>] appends: the old elements stay in front. *)
Definition sequence_spec (d : Codec (list A)) : CodecSpec d := {|
  enc := enc_counted c;
  valid := valid_counted c;
  absorb old l := old ++ l;
|}.
#[export] Instance vector_spec : CodecSpec (vector_codec c) := sequence_spec _.
#[export] Instance list_spec : CodecSpec (list_codec c) := sequence_spec _.

#[export] Instance vector_ok : CodecOk (vector_codec c).
Proof using All.
  split; simpl.
  - by apply push_counted_emits.
  - intros old l u rest Hl Hu. rewrite <- foldl_push_back.
    by eapply pop_counted_view.
  - done.
  - by apply enc_counted_ok.
Qed.
#[export] Instance list_ok : CodecOk (list_codec c).
Proof using All. exact vector_ok. Qed.
End vector.

(** ** Ordered containers

    A strict total order on the keys makes insertion keep the order of
    iteration and never replace an entry. *)

Class OrderedOk (K : Type) `{Ordered K} : Prop := {
  ltb_irrefl : ∀ x, ltb x x = false;
  ltb_trans : ∀ x y z, ltb x y = true → ltb y z = true → ltb x z = true;
  ltb_total : ∀ x y, ltb x y = false → ltb y x = false → x = y;
}.

#[export] Instance Z_ordered_ok : OrderedOk Z.
Proof. split; unfold ltb, Z_ordered; intros; lia. Qed.

#[export] Instance bytes_ordered_ok : OrderedOk bytes.
Proof.
  split; unfold ltb, bytes_ordered.
  - induction x as [|a x IH]; [done|]. simpl. by rewrite Z.ltb_irrefl.
  - induction x as [|a x IH]; intros [|b y] [|c z]; simpl; try done.
    destruct (Z.ltb_spec a b), (Z.ltb_spec b a), (Z.ltb_spec b c),
      (Z.ltb_spec c b), (Z.ltb_spec a c), (Z.ltb_spec c a);
      try done; try lia. apply IH.
  - induction x as [|a x IH]; intros [|b y]; simpl; try done.
    destruct (Z.ltb_spec a b), (Z.ltb_spec b a); try done.
    intros. f_equal; [lia|by apply IH].
Qed.

Section ordered.
Context {K : Type} `{OrderedOk K}.

Lemma ltb_asym x y : ltb x y = true → ltb y x = false.
Proof using All.
  intros Hxy. destruct (ltb y x) eqn:E; [|done].
  by rewrite <- (ltb_irrefl x), (ltb_trans _ _ _ Hxy E).
Qed.

Definition key_lt {A} (key : A → K) (a b : A) : Prop := ltb (key a) (key b) = true.

#[local] Ltac by_order :=
  repeat match goal with
  | E : ltb ?x ?y = true |- context [ltb ?y ?x] => rewrite (ltb_asym _ _ E)
  | E : ltb ?x ?y = true |- context [ltb ?x ?y] => rewrite E
  end.

Lemma set_insert_last s x :
  Forall (λ y, ltb y x = true) s → set_insert s x = s ++ [x].
Proof using All.
  induction 1 as [|y s Hy _ IH]; [done|]. simpl. by_order. by rewrite IH.
Qed.

Lemma map_insert_last {V} (m : list (K * V)) x :
  Forall (λ y, ltb (fst y) (fst x) = true) m → map_insert m x = m ++ [x].
Proof using All.
  induction 1 as [|y m Hy _ IH]; [done|]. simpl. by_order. by rewrite IH.
Qed.

(** Inserting the elements of an ordered container one by one rebuilds it. *)
Lemma foldl_insert_sorted {A} (key : A → K) (ins : list A → A → list A) :
  (∀ s x, Forall (λ y, key_lt key y x) s → ins s x = s ++ [x]) →
  ∀ l acc, StronglySorted (key_lt key) (acc ++ l) → foldl ins acc l = acc ++ l.
Proof using All.
  intros Hins. induction l as [|x l IH]; intros acc Hs; simpl.
  { by rewrite app_nil_r. }
  rewrite Hins.
  - rewrite IH; rewrite <- app_assoc; done.
  - clear IH. induction acc as [|a acc IH]; [constructor|].
    simpl in Hs. apply StronglySorted_inv in Hs as [Hs Ha]. constructor; [|by apply IH].
    apply Forall_app in Ha as [_ Ha]. by inversion Ha.
Qed.

(** [std::map::find]. *)
Fixpoint map_find {V} (m : list (K * V)) (k : K) : option V :=
  match m with
  | [] => None
  | y :: m => if ltb k (fst y) then None
              else if ltb (fst y) k then map_find m k else Some (snd y)
  end.

Definition map_sorted {V} (m : list (K * V)) : Prop := StronglySorted (key_lt fst) m.

Lemma map_insert_Forall {V} (P : K * V → Prop) m x :
  Forall P m → P x → Forall P (map_insert m x).
Proof using All.
  induction 1 as [|y m Hy Hm IH]; intros Hx; simpl; [by constructor|].
  repeat case_match; eauto.
Qed.

Lemma map_insert_sorted {V} (m : list (K * V)) x :
  map_sorted m → map_sorted (map_insert m x).
Proof using All.
  unfold map_sorted. induction 1 as [|y m Hs IH Hy]; simpl.
  { constructor; constructor. }
  destruct (ltb (fst x) (fst y)) eqn:E1.
  - constructor; [by constructor|]. constructor; [done|].
    eapply Forall_impl; [|exact Hy]. intros z Hz. unfold key_lt in *.
    by eapply ltb_trans.
  - destruct (ltb (fst y) (fst x)) eqn:E2; [|by constructor].
    constructor; [done|]. by apply map_insert_Forall.
Qed.

(** [std::map::insert] never replaces the value of a key. *)
Lemma map_find_insert {V} (m : list (K * V)) x k :
  map_sorted m →
  map_find (map_insert m x) k =
    match map_find m k with
    | Some v => Some v
    | None => if ltb k (fst x) then None
              else if ltb (fst x) k then None else Some (snd x)
    end.
Proof using All.
  unfold map_sorted. induction 1 as [|y m Hs IH Hy]; simpl.
  { done. }
  destruct (ltb (fst x) (fst y)) eqn:E1; simpl.
  - destruct (ltb k (fst x)) eqn:E3.
    { by rewrite (ltb_trans _ _ _ E3 E1). }
    destruct (ltb (fst x) k) eqn:E4.
    { repeat case_match; done. }
    rewrite <- (ltb_total _ _ E3 E4) in E1. by rewrite E1.
  - destruct (ltb (fst y) (fst x)) eqn:E2; simpl.
    + rewrite IH. destruct (ltb k (fst y)) eqn:E3; [|by destruct (ltb (fst y) k)].
      by rewrite (ltb_trans _ _ _ E3 E2).
    + rewrite <- (ltb_total _ _ E1 E2).
      destruct (ltb k (fst x)), (ltb (fst x) k), (map_find m k); done.
Qed.

Lemma foldl_insert_keeps {V} (m old : list (K * V)) :
  map_sorted old → map_sorted (foldl map_insert old m).
Proof using All.
  revert old. induction m as [|x m IH]; intros old Ho; [done|].
  simpl. by apply IH, map_insert_sorted.
Qed.

(** Below the first key there is nothing to find. *)
Lemma map_find_below {V} (m : list (K * V)) k :
  Forall (λ y, ltb k (fst y) = true) m → map_find m k = None.
Proof using All. destruct 1 as [|y m Hy _]; [done|]. simpl. by rewrite Hy. Qed.

Lemma foldl_insert_find {V} (m old : list (K * V)) k :
  map_sorted old → map_sorted m →
  map_find (foldl map_insert old m) k =
    match map_find old k with Some v => Some v | None => map_find m k end.
Proof using All.
  intros Ho Hm. revert old Ho. induction Hm as [|x m Hs IH Hx]; intros old Ho; simpl.
  { by destruct (map_find old k). }
  rewrite IH by (by apply map_insert_sorted). rewrite map_find_insert by done.
  destruct (map_find old k); [done|].
  destruct (ltb k (fst x)) eqn:E1.
  - apply map_find_below. eapply Forall_impl; [|exact Hx].
    intros y Hy. by eapply ltb_trans.
  - by destruct (ltb (fst x) k).
Qed.
End ordered.

Section map.
Context {K V : Type} `{OrderedOk K} (ck : Codec K) (cv : Codec V).
Context `{CodecOk K ck, CodecOk V cv}.

#[export] Instance map_spec : CodecSpec (map_codec ck cv) := {|
  enc := enc_counted (pair_codec ck cv);
  valid m := valid_counted (pair_codec ck cv) m ∧ map_sorted m;
  absorb := foldl map_insert;
|}.

#[export] Instance map_ok : CodecOk (map_codec ck cv).
Proof using All.
  split; simpl.
  - intros m p bs [Hm _]. apply push_counted_emits; [apply _|done].
  - intros old m u rest [Hm _]. apply pop_counted_view; [apply _|done].
  - intros m [_ Hm]. apply (foldl_insert_sorted fst map_insert); [|exact Hm].
    apply map_insert_last.
  - intros m [Hm _]. apply enc_counted_ok; [apply _|done].
Qed.
End map.

Section set.
Context {K : Type} `{OrderedOk K} (c : Codec K) `{CodecOk K c}.

#[export] Instance set_spec : CodecSpec (set_codec c) := {|
  enc := enc_counted c;
  valid s := valid_counted c s ∧ StronglySorted (key_lt id) s;
  absorb := foldl set_insert;
|}.

#[export] Instance set_ok : CodecOk (set_codec c).
Proof using All.
  split; simpl.
  - intros m p bs [Hm _]. apply push_counted_emits; [apply _|done].
  - intros old m u rest [Hm _]. apply pop_counted_view; [apply _|done].
  - intros m [_ Hm]. apply (foldl_insert_sorted id set_insert); [|exact Hm].
    apply set_insert_last.
  - intros m [Hm _]. apply enc_counted_ok; [apply _|done].
Qed.
End set.

(** ** Properties *)

(** The length prefix as a codec of its own. *)
Definition prefix_codec : Codec Z :=
  mkCodec (λ v p, '(p, _) ← Packer.PushVariableUint32 v p; Ok p)
    (λ _, Unpacker.PopVariableUint32) 0.

(** the variable-length integer.  [PushVariableUint32] appends a prefix of
    the size [VariableUint32Length] announces, and [PopVariableUint32] reads it
    back modulo 2^23, consuming exactly the prefix. *)
Theorem variable_uint32_roundtrip v p bs u rest :
  0 ≤ v → Packer.holds p bs → Packer.room bs 3 → Unpacker.view u (var_enc v ++ rest) →
  ∃ p', Packer.PushVariableUint32 v p = Ok (p', Packer.VariableUint32Length v) ∧
    Packer.holds p' (bs ++ var_enc v) ∧
    Z.of_nat (length (var_enc v)) = Packer.VariableUint32Length v ∧
    pop prefix_codec 0 u =
      Ok (v mod 2 ^ 23, Unpacker.advance (Packer.VariableUint32Length v) u).
Proof.
  intros Hv Hh Hr Hu.
  destruct (Packer.PushVariableUint32_emits v p bs Hv Hh Hr) as (p' & HP & Hp & _).
  destruct (Unpacker.PopVariableUint32_view u v rest Hv Hu) as [HQ _].
  exists p'. split_and!; try done. apply length_var_enc.
Qed.

(** The value the comment of [PushVariableUint32] still allows, 2^23, is the
    first one the prefix cannot hold: it is read back as 0. *)
Lemma variable_uint32_roundtrip_witness :
  ∃ p', Packer.PushVariableUint32 (8 * 1024 * 1024) (Packer.make 64) = Ok (p', 3) ∧
    Packer.holds p' ([] ++ var_enc (8 * 1024 * 1024)) ∧
    Z.of_nat (length (var_enc (8 * 1024 * 1024))) = 3 ∧
    pop prefix_codec 0 (Unpacker.mkUnpacker false 3 [0; 128; 0] 0 0) =
      Ok (0, Unpacker.advance 3 (Unpacker.mkUnpacker false 3 [0; 128; 0] 0 0)).
Proof.
  apply (variable_uint32_roundtrip (8 * 1024 * 1024) (Packer.make 64) []
    (Unpacker.mkUnpacker false 3 [0; 128; 0] 0 0) []).
  - discriminate.
  - apply Packer.make_holds. split; [discriminate|reflexivity].
  - reflexivity.
  - split; [reflexivity|]. split; [reflexivity|].
    split; [split; discriminate|reflexivity].
Defined.

(** reading a map adds to the object that is read into: the keys it holds
    keep their values, the missing keys get theirs from the wire, and the
    result is ordered. *)
Theorem map_pop_merges {K V} `{OrderedOk K} (ck : Codec K) (cv : Codec V)
    `{CodecOk K ck, CodecOk V cv} old m u rest k :
  valid (map_codec ck cv) m → map_sorted old →
  Unpacker.view u (enc (map_codec ck cv) m ++ rest) →
  ∃ m', pop (map_codec ck cv) old u =
      Ok (m', Unpacker.advance (Z.of_nat (length (enc (map_codec ck cv) m))) u) ∧
    map_sorted m' ∧
    map_find m' k = match map_find old k with Some v => Some v | None => map_find m k end.
Proof.
  intros Hm Hold Hu. exists (foldl map_insert old m). split_and!.
  - exact (@pop_enc _ (map_codec ck cv) _ _ old m u rest Hm Hu).
  - by apply foldl_insert_keeps.
  - apply foldl_insert_find; [done|]. by destruct Hm.
Qed.

Lemma map_pop_merges_witness :
  ∃ m', pop (map_codec uint32_codec uint8_codec) [(1, 9)]
      (Unpacker.mkUnpacker false 12 [2; 0; 1; 0; 0; 0; 8; 2; 0; 0; 0; 7] 0 0) =
      Ok (m', Unpacker.advance 12
        (Unpacker.mkUnpacker false 12 [2; 0; 1; 0; 0; 0; 8; 2; 0; 0; 0; 7] 0 0)) ∧
    map_sorted m' ∧ map_find m' 1 = Some 9.
Proof.
  pose proof (map_pop_merges uint32_codec uint8_codec [(1, 9)] [(1, 8); (2, 7)]
    (Unpacker.mkUnpacker false 12 [2; 0; 1; 0; 0; 0; 8; 2; 0; 0; 0; 7] 0 0) [] 1) as H.
  apply H; clear H.
  - split; [|repeat constructor].
    split; [reflexivity|]. repeat constructor; discriminate.
  - repeat constructor.
  - split; [reflexivity|]. split; [reflexivity|].
    split; [split; discriminate|reflexivity].
Defined.
