(* ===== verification/UnorderedCodec.v ===== *)
(** * UnorderedCodec: the unordered containers of base/packer.h and base/unpacker.h

    A [std::unordered_map] is a finite map.  It is written in the order in which the
    library visits it, which may differ from one object or machine to the next, and read
    by inserting the pairs one by one. *)

From stdpp Require Import gmap.
From S2P Require Import Prelude Bytes Wire Packer Unpacker Codec.

(** An order in which the entries of a map, and the elements of a set, are visited. *)
Class Visits (K V : Type) `{Countable K} : Type := {
  visits : gmap K V → list (K * V);
  visits_all m : visits m ≡ₚ map_to_list m;
}.

(** [std::unordered_map::insert]: a key that is there keeps its value. *)
Definition unordered_insert {K V} `{Countable K} (m : gmap K V) (x : K * V) : gmap K V :=
  match m !! fst x with Some _ => m | None => <[fst x := snd x]> m end.

Definition pop_unordered_map {K V} `{Countable K} (ck : Codec K) (cv : Codec V) :
    gmap K V → Unpacker.Unpacker → result (gmap K V * Unpacker.Unpacker) :=
  pop_counted (pair_codec ck cv) unordered_insert.
Definition unordered_map_codec {K V} `{Visits K V} (ck : Codec K) (cv : Codec V) : Codec (gmap K V) :=
  mkCodec (λ m, push_counted (pair_codec ck cv) (visits m)) (pop_unordered_map ck cv) ∅.

(** [std::unordered_set], as a map to nothing; it has no [operator>>]. *)
Definition push_unordered_set {K} `{Visits K unit} (c : Codec K) (s : gmap K unit)
    (p : Packer.Packer) : result Packer.Packer :=
  push_counted c (visits s).*1 p.

(** ** Reading *)

Lemma unordered_insert_union {K V} `{Countable K} (old m : gmap K V) x :
  unordered_insert old x ∪ m = old ∪ <[fst x := snd x]> m.
Proof.
  unfold unordered_insert. destruct (old !! fst x) as [v|] eqn:E.
  - apply map_eq. intros k. rewrite !lookup_union. destruct (decide (fst x = k)) as [<-|Hk].
    + rewrite E, lookup_insert_eq. by destruct (m !! fst x).
    + by rewrite lookup_insert_ne.
  - apply map_eq. intros k. rewrite !lookup_union. destruct (decide (fst x = k)) as [<-|Hk].
    + rewrite E, !lookup_insert_eq. by destruct (m !! fst x).
    + by rewrite !lookup_insert_ne.
Qed.

Lemma foldl_unordered_insert {K V} `{Countable K} (l : list (K * V)) old :
  foldl unordered_insert old l = old ∪ list_to_map l.
Proof.
  revert old. induction l as [|x l IH]; intros old; cbn; [by rewrite map_union_empty|].
  by rewrite IH, unordered_insert_union.
Qed.

Lemma visits_NoDup {K V} `{Visits K V} m : NoDup (visits m).*1.
Proof. rewrite visits_all. apply NoDup_fst_map_to_list. Qed.
Lemma visits_map {K V} `{Visits K V} m : list_to_map (visits m) = m.
Proof. rewrite (list_to_map_proper _ _ (visits_NoDup m) (visits_all m)). apply list_to_map_to_list. Qed.

(** inserting the entries of a map into an object is a union in which the object wins. *)
Lemma foldl_visits {K V} `{Visits K V} m old : foldl unordered_insert old (visits m) = old ∪ m.
Proof. by rewrite foldl_unordered_insert, visits_map. Qed.

Section unordered.
Context {K V : Type} `{Visits K V} (ck : Codec K) (cv : Codec V).
Context `{CodecOk K ck, CodecOk V cv}.

#[export] Instance unordered_spec : CodecSpec (unordered_map_codec ck cv) := {|
  enc m := enc_counted (pair_codec ck cv) (visits m);
  valid m := valid_counted (pair_codec ck cv) (visits m);
  absorb old m := old ∪ m;
|}.

#[export] Instance unordered_ok : CodecOk (unordered_map_codec ck cv).
Proof using All.
  split; simpl.
  - intros m p bs Hm. apply push_counted_emits; [apply _|done].
  - intros old m u rest Hm Hu. rewrite <- (foldl_visits m old).
    by eapply pop_counted_view; [apply _|..].
  - intros m _. by rewrite map_empty_union.
  - intros m Hm. apply enc_counted_ok; [apply _|done].
Qed.
End unordered.

(** ** Properties *)

(** an unordered map written in the order of one library is read back as the same map
    by a program whose library has another order; read into an object that has entries, it
    adds the keys that the object does not have, and the object keeps its own values. *)
Theorem unordered_map_roundtrip {K V} `{Visits K V} (ck : Codec K) (cv : Codec V)
    `{CodecOk K ck, CodecOk V cv} (old m : gmap K V) p bs u rest :
  valid (unordered_map_codec ck cv) m → Packer.holds p bs →
  Packer.room bs (Z.of_nat (length (enc (unordered_map_codec ck cv) m)) + 1) →
  Unpacker.view u (enc (unordered_map_codec ck cv) m ++ rest) →
  Packer.emits (push (unordered_map_codec ck cv) m p) p bs (enc (unordered_map_codec ck cv) m) ∧
  pop_unordered_map ck cv old u =
    Ok (old ∪ m, Unpacker.advance (Z.of_nat (length (enc (unordered_map_codec ck cv) m))) u).
Proof.
  intros Hm Hp Hr Hu. split; [by apply push_enc|].
  exact (@pop_enc _ (unordered_map_codec ck cv) _ _ old m u rest Hm Hu).
Qed.

(** One order, for concrete inputs. *)
#[local] Instance key_order {K V} `{Countable K} : Visits K V :=
  {| visits := map_to_list; visits_all _ := Permutation_refl _ |}.

Definition two_entries : gmap Z Z := {[1 := 8; 2 := 7]}.
Definition two_entries_buf : Unpacker.Unpacker := Unpacker.mkUnpacker false 12
  (enc (unordered_map_codec uint32_codec uint8_codec) two_entries) 0 0.

Lemma two_entries_valid : valid (unordered_map_codec uint32_codec uint8_codec) two_entries.
Proof. split; [reflexivity|]. repeat constructor; discriminate. Qed.
Lemma two_entries_view : Unpacker.view two_entries_buf
  (enc (unordered_map_codec uint32_codec uint8_codec) two_entries ++ []).
Proof. split; [reflexivity|]. split; [reflexivity|]. split; [split; discriminate|reflexivity]. Qed.

Lemma unordered_map_roundtrip_witness :
  Packer.emits (push (unordered_map_codec uint32_codec uint8_codec) two_entries (Packer.make 64))
    (Packer.make 64) [] (enc (unordered_map_codec uint32_codec uint8_codec) two_entries) ∧
  ∃ u', pop_unordered_map uint32_codec uint8_codec {[1 := 9]} two_entries_buf =
    Ok ({[1 := 9; 2 := 7]}, u').
Proof.
  destruct (unordered_map_roundtrip uint32_codec uint8_codec {[1 := 9]} two_entries
    (Packer.make 64) [] two_entries_buf []) as [Hpush Hpop].
  - apply two_entries_valid.
  - apply Packer.make_holds. split; [discriminate|reflexivity].
  - reflexivity.
  - apply two_entries_view.
  - split; [exact Hpush|]. eexists. exact Hpop.
Defined.
