(* ===== verification/Packet.v ===== *)
(** * Packet: base/packet.h and base/packet_helper.h

    A packet is a header (server type, uri) and the members that its class
    declares through one of the macros [NEW_DECLARE_PACKET_n]; the members are
    a left-nested tuple, streamed in order. *)

From S2P Require Import Prelude Bytes Wire Packer Unpacker Codec.

(** [p << m1 << m2]. *)
Declare Scope codec_scope.
Delimit Scope codec_scope with codec.
Notation "ca ⊗ cb" := (pair_codec ca cb) (at level 40, left associativity) : codec_scope.
#[global] Open Scope codec_scope.

(** ** The header *)

Record Packet := mkPacket {
  server_type : Z;       (* uint16_t *)
  uri : Z;               (* uint16_t *)
}.

(** [Packet(u)] and [Packet(server, u)]; an argument is narrowed to 16 bits. *)
Definition Packet_uri (u : Z) : Packet := mkPacket 0 (u16 u).
Definition Packet_server (server u : Z) : Packet := mkPacket (u16 server) (u16 u).

Definition SetUri (u : Z) (x : Packet) : Packet := mkPacket (server_type x) u.

Definition Marshall (x : Packet) (p : Packer.Packer) : result Packer.Packer :=
  p ← push uint16_codec (server_type x) p;
  push uint16_codec (uri x) p.

Definition Unmarshall (x : Packet) (u : Unpacker.Unpacker)
    : result (Packet * Unpacker.Unpacker) :=
  '(st, u) ← pop uint16_codec (server_type x) u;
  '(ur, u) ← pop uint16_codec (uri x) u;
  Ok (mkPacket st ur, u).

(** ** Declared packet classes *)

Record Declared (M : Type) := mkDeclared { base : Packet; members : M }.
Arguments mkDeclared {M}.
Arguments base {M}.
Arguments members {M}.

(** What a [NEW_DECLARE_PACKET_n] macro defines: the two constructors and the
    two virtual functions. *)
Record PacketClass (M : Type) := mkPacketClass {
  construct : Declared M;
  construct_server : Z → Declared M;
  marshall : Declared M → Packer.Packer → result Packer.Packer;
  unmarshall : Declared M → Unpacker.Unpacker → result (Declared M * Unpacker.Unpacker);
}.
Arguments mkPacketClass {M}.
Arguments construct {M}.
Arguments construct_server {M}.
Arguments marshall {M}.
Arguments unmarshall {M}.

Definition declare_packet {M} (u : Z) (c : Codec M) : PacketClass M :=
  mkPacketClass
    (mkDeclared (Packet_uri u) (dflt c))
    (λ server, mkDeclared (Packet_server server u) (dflt c))
    (λ x p, p ← Marshall (base x) p; push c (members x) p)
    (λ x u, '(b, u) ← Unmarshall (base x) u;
            '(m, u) ← pop c (members x) u;
            Ok (mkDeclared b m, u)).

(** [NEW_DECLARE_PACKET_0] inherits the virtual functions of [Packet]. *)
Definition NEW_DECLARE_PACKET_0 (u : Z) : PacketClass unit :=
  mkPacketClass
    (mkDeclared (Packet_uri u) tt)
    (λ server, mkDeclared (Packet_server server u) tt)
    (λ x p, Marshall (base x) p)
    (λ x u, '(b, u) ← Unmarshall (base x) u; Ok (mkDeclared b tt, u)).

Section macros.
  Context {T1 T2 T3 T4 T5 T6 T7 T8 T9 T10 T11 T12 T13 T14 : Type}.
  Context (u : Z).
  Context (c1 : Codec T1) (c2 : Codec T2) (c3 : Codec T3) (c4 : Codec T4)
          (c5 : Codec T5) (c6 : Codec T6) (c7 : Codec T7) (c8 : Codec T8)
          (c9 : Codec T9) (c10 : Codec T10) (c11 : Codec T11) (c12 : Codec T12)
          (c13 : Codec T13) (c14 : Codec T14).

Definition NEW_DECLARE_PACKET_1 : PacketClass (T1) :=
  declare_packet u (c1).
Definition NEW_DECLARE_PACKET_2 : PacketClass (T1 * T2) :=
  declare_packet u (c1 ⊗ c2).
Definition NEW_DECLARE_PACKET_3 : PacketClass (T1 * T2 * T3) :=
  declare_packet u (c1 ⊗ c2 ⊗ c3).
Definition NEW_DECLARE_PACKET_4 : PacketClass (T1 * T2 * T3 * T4) :=
  declare_packet u (c1 ⊗ c2 ⊗ c3 ⊗ c4).
Definition NEW_DECLARE_PACKET_5 : PacketClass (T1 * T2 * T3 * T4 * T5) :=
  declare_packet u (c1 ⊗ c2 ⊗ c3 ⊗ c4 ⊗ c5).
Definition NEW_DECLARE_PACKET_6 : PacketClass (T1 * T2 * T3 * T4 * T5 * T6) :=
  declare_packet u (c1 ⊗ c2 ⊗ c3 ⊗ c4 ⊗ c5 ⊗ c6).
Definition NEW_DECLARE_PACKET_7 : PacketClass (T1 * T2 * T3 * T4 * T5 * T6 * T7) :=
  declare_packet u (c1 ⊗ c2 ⊗ c3 ⊗ c4 ⊗ c5 ⊗ c6 ⊗ c7).
Definition NEW_DECLARE_PACKET_8 : PacketClass (T1 * T2 * T3 * T4 * T5 * T6 * T7 * T8) :=
  declare_packet u (c1 ⊗ c2 ⊗ c3 ⊗ c4 ⊗ c5 ⊗ c6 ⊗ c7 ⊗ c8).
Definition NEW_DECLARE_PACKET_9 : PacketClass (T1 * T2 * T3 * T4 * T5 * T6 * T7 * T8 * T9) :=
  declare_packet u (c1 ⊗ c2 ⊗ c3 ⊗ c4 ⊗ c5 ⊗ c6 ⊗ c7 ⊗ c8 ⊗ c9).
Definition NEW_DECLARE_PACKET_10 : PacketClass (T1 * T2 * T3 * T4 * T5 * T6 * T7 * T8 * T9 * T10) :=
  declare_packet u (c1 ⊗ c2 ⊗ c3 ⊗ c4 ⊗ c5 ⊗ c6 ⊗ c7 ⊗ c8 ⊗ c9 ⊗ c10).
Definition NEW_DECLARE_PACKET_11 : PacketClass (T1 * T2 * T3 * T4 * T5 * T6 * T7 * T8 * T9 * T10 * T11) :=
  declare_packet u (c1 ⊗ c2 ⊗ c3 ⊗ c4 ⊗ c5 ⊗ c6 ⊗ c7 ⊗ c8 ⊗ c9 ⊗ c10 ⊗ c11).
Definition NEW_DECLARE_PACKET_12 : PacketClass (T1 * T2 * T3 * T4 * T5 * T6 * T7 * T8 * T9 * T10 * T11 * T12) :=
  declare_packet u (c1 ⊗ c2 ⊗ c3 ⊗ c4 ⊗ c5 ⊗ c6 ⊗ c7 ⊗ c8 ⊗ c9 ⊗ c10 ⊗ c11 ⊗ c12).
Definition NEW_DECLARE_PACKET_13 : PacketClass (T1 * T2 * T3 * T4 * T5 * T6 * T7 * T8 * T9 * T10 * T11 * T12 * T13) :=
  declare_packet u (c1 ⊗ c2 ⊗ c3 ⊗ c4 ⊗ c5 ⊗ c6 ⊗ c7 ⊗ c8 ⊗ c9 ⊗ c10 ⊗ c11 ⊗ c12 ⊗ c13).
Definition NEW_DECLARE_PACKET_14 : PacketClass (T1 * T2 * T3 * T4 * T5 * T6 * T7 * T8 * T9 * T10 * T11 * T12 * T13 * T14) :=
  declare_packet u (c1 ⊗ c2 ⊗ c3 ⊗ c4 ⊗ c5 ⊗ c6 ⊗ c7 ⊗ c8 ⊗ c9 ⊗ c10 ⊗ c11 ⊗ c12 ⊗ c13 ⊗ c14).
End macros.

(** The stream operators of a packet are its virtual functions. *)
Definition packet_codec {M} (cls : PacketClass M) : Codec (Declared M) :=
  mkCodec (marshall cls) (unmarshall cls) (construct cls).

(** [Packet::Pack]. *)
Definition Pack {M} (cls : PacketClass M) (x : Declared M) (p : Packer.Packer)
    : result Packer.Packer :=
  p ← marshall cls x p;
  Packer.Pack p.

Definition PackedBuffer {T} (c : Codec T) (t : T) : result bytes :=
  let pkr := Packer.make Packer.kDefaultSize in
  pkr ← push c t pkr;
  pkr ← Packer.Pack pkr;
  Packer.Body2 pkr.

(** ** Packets keep the interface of a packable type *)

Definition header_enc (x : Packet) : bytes :=
  le_bytes 2 (server_type x) ++ le_bytes 2 (uri x).
Definition header_valid (x : Packet) : Prop :=
  0 ≤ server_type x < 2 ^ 16 ∧ 0 ≤ uri x < 2 ^ 16.

Lemma Marshall_emits x p bs :
  Packer.holds p bs → Packer.room bs 5 →
  Packer.emits (Marshall x p) p bs (header_enc x).
Proof.
  intros Hh Hr. apply Packer.emits_bind.
  - apply Packer.PushUint16_emits; [done|]. eapply Packer.room_le; [done|lia].
  - intros q Hq. apply Packer.PushUint16_emits; [done|]. apply Packer.room_app.
    rewrite length_le_bytes. eapply Packer.room_le; [done|lia].
Qed.

Lemma uint16_pop old v u rest :
  0 ≤ v < 2 ^ 16 → Unpacker.view u (le_bytes 2 v ++ rest) →
  pop uint16_codec old u = Ok (v, Unpacker.advance 2 u).
Proof. exact (@pop_enc _ uint16_codec _ _ old v u rest). Qed.

Lemma Unmarshall_view old x u rest :
  header_valid x → Unpacker.view u (header_enc x ++ rest) →
  Unmarshall old u = Ok (x, Unpacker.advance 4 u) ∧
  Unpacker.view (Unpacker.advance 4 u) rest.
Proof.
  intros [Hs Hu] Hv. split; [|by eapply Unpacker.advance_view_app].
  unfold header_enc in Hv. rewrite <- app_assoc in Hv. unfold Unmarshall.
  rewrite (uint16_pop _ _ u _ Hs Hv), bind_ok.
  rewrite (uint16_pop _ _ _ rest Hu (Unpacker.advance_view_app 2 _ _ _ Hv eq_refl)), bind_ok.
  rewrite (Unpacker.advance_advance _ _ _ _ Hv)
    by (rewrite ?length_app, ?length_le_bytes; simpl; lia).
  by destruct x.
Qed.

Section packet_laws.
Context {M} (u : Z) (c : Codec M) `{CodecOk M c}.

#[export] Instance packet_spec : CodecSpec (packet_codec (declare_packet u c)) := {|
  enc x := header_enc (base x) ++ enc c (members x);
  valid x := header_valid (base x) ∧ valid c (members x);
  absorb old x := mkDeclared (base x) (absorb c (members old) (members x));
|}.

#[export] Instance packet_ok : CodecOk (packet_codec (declare_packet u c)).
Proof using All.
  split; cbn [push pop dflt packet_codec declare_packet marshall unmarshall
    construct enc valid absorb packet_spec].
  - intros x p bs [_ Hx] Hh Hr. rewrite length_app, Nat2Z.inj_add in Hr.
    apply Packer.emits_bind.
    + apply Marshall_emits; [done|]. eapply Packer.room_le; [done|simpl; lia].
    + intros q Hq. apply push_enc; [done..|]. apply Packer.room_app.
      eapply Packer.room_le; [done|lia].
  - intros old x v rest [Hb Hx] Hv. rewrite <- app_assoc in Hv.
    destruct (Unmarshall_view (base old) _ _ _ Hb Hv) as [-> Hv'].
    rewrite bind_ok, (pop_enc _ _ _ _ Hx Hv'), bind_ok.
    rewrite (Unpacker.advance_advance _ _ _ _ Hv)
      by (rewrite ?length_app; simpl; lia).
    rewrite length_app. do 4 f_equal. simpl. lia.
  - intros [b m] [_ Hm]. simpl in *. by rewrite absorb_dflt.
  - intros x [_ Hx]. apply Forall_app_2; [|by apply enc_ok].
    apply Forall_app_2; apply le_bytes_ok.
Qed.
End packet_laws.

(** ** Packing and unpacking *)

Definition pack_value {T} (c : Codec T) (t : T) (p : Packer.Packer)
    : result Packer.Packer :=
  p ← push c t p; Packer.Pack p.

Section roundtrip.
Context {T} (c : Codec T) `{CodecOk T c}.

Lemma pack_value_packed t :
  valid c t → Packer.room (enc c t) 1 →
  ∃ p, pack_value c t (Packer.make Packer.kDefaultSize) = Ok p ∧
       Packer.packed p (enc c t) ∧ Packer.cerr_ p = 0%nat ∧
       Packer.Length p = frame_len (enc c t).
Proof using All.
  intros Ht Hr. unfold pack_value.
  destruct (push_enc t (Packer.make Packer.kDefaultSize) []) as
    (q & -> & Hq & _ & Ec); [done|by apply Packer.make_holds| |].
  { unfold Packer.room in *. simpl length. lia. }
  rewrite bind_ok. simpl in Hq.
  destruct (Packer.Pack_packed q _ Hq) as (p & HP & Hp & Ec').
  { eapply Packer.room_le; [done|lia]. }
  exists p. split_and!; try done; [by rewrite Ec', Ec|].
  by destruct Hp as (m & ? & ? & ? & ? & ?).
Qed.

Lemma room_frame body n :
  Packer.room body n → 0 ≤ n → Z.of_nat (length body) < 2 ^ 31 ∧ frame_len body < 2 ^ 23.
Proof.
  unfold Packer.room, Packer.kMaxPacketSize. intros.
  pose proof (frame_len_bound body). lia.
Qed.

(** Any packable value, packed into a fresh packer, sent as one frame and
    opened by the receiver (by reference or by copy), is read back: nothing
    is left over, and neither side wrote a diagnostic. *)
Lemma pack_unpack t old copy :
  valid c t → Packer.room (enc c t) 1 →
  ∃ p wire u u',
    pack_value c t (Packer.make Packer.kDefaultSize) = Ok p ∧
    Packer.cerr_ p = 0%nat ∧
    Packer.Data p = Ok wire ∧ Z.of_nat (length wire) = Packer.Length p ∧
    Unpacker.make wire (Packer.Length p) copy = Ok u ∧
    pop c old u = Ok (absorb c old t, u') ∧
    Unpacker.position_ u' = Unpacker.length_ u' ∧ Unpacker.cerr_ u' = 0%nat.
Proof using All.
  intros Ht Hr. destruct (room_frame _ _ Hr) as [Hb Hf]; [lia|].
  destruct (pack_value_packed t Ht Hr) as (p & Hp & Hpk & Hc & Hl).
  destruct (Packer.packed_Data p _ Hpk Hb) as (HD & _).
  destruct (Unpacker.make_opened (enc c t) copy Hf) as (u & Hu & Hv & _ & Hce & _).
  rewrite <- (app_nil_r (enc c t)) in Hv.
  pose proof (pop_rest c t u [] Hv) as Hv'.
  exists p, (frame (enc c t)), u, (Unpacker.advance (Z.of_nat (length (enc c t))) u).
  rewrite Hl, length_frame. split_and!; try done.
  - by eapply pop_enc.
  - pose proof (Unpacker.view_length _ _ Hv') as E. simpl in E. simpl. lia.
Qed.
End roundtrip.

(** [wire_faithful c]: any value of the type that fits a packet reaches a
    freshly constructed object of the receiver unchanged, with nothing left to
    read and no diagnostic on either side. *)
Definition wire_faithful {T} (c : Codec T) `{CodecSpec T c} : Prop :=
  ∀ t copy, valid c t → Packer.room (enc c t) 1 →
  ∃ p wire u u',
    pack_value c t (Packer.make Packer.kDefaultSize) = Ok p ∧
    Packer.cerr_ p = 0%nat ∧ Packer.Data p = Ok wire ∧
    Unpacker.make wire (Packer.Length p) copy = Ok u ∧
    pop c (dflt c) u = Ok (t, u') ∧
    Unpacker.position_ u' = Unpacker.length_ u' ∧ Unpacker.cerr_ u' = 0%nat.

Lemma codec_wire_faithful {T} (c : Codec T) `{CodecOk T c} : wire_faithful c.
Proof.
  intros t copy Ht Hr.
  destruct (pack_unpack c t (dflt c) copy Ht Hr)
    as (p & w & u & u' & ? & ? & ? & ? & ? & HP & ? & ?).
  rewrite absorb_dflt in HP by done. eauto 12.
Qed.

(** ** Properties *)

(** C2: packing any value of a packable type (any type built with the base
    types, strings, vectors, lists, sets, maps, pairs, structs and packet
    classes) into a fresh packer, sending [Data()] and opening it with an
    [Unpacker], by reference or by copy, reads the value back into any old
    object (containers add to what the object held); the frame has the
    advertised length, is consumed to its last byte, and neither side writes a
    diagnostic. *)
Theorem packable_roundtrip {T} (c : Codec T) `{CodecOk T c} t old copy :
  valid c t → Packer.room (enc c t) 1 →
  ∃ p wire u u',
    pack_value c t (Packer.make Packer.kDefaultSize) = Ok p ∧
    Packer.cerr_ p = 0%nat ∧
    Packer.Data p = Ok wire ∧ Z.of_nat (length wire) = Packer.Length p ∧
    Unpacker.make wire (Packer.Length p) copy = Ok u ∧
    pop c old u = Ok (absorb c old t, u') ∧
    Unpacker.position_ u' = Unpacker.length_ u' ∧ Unpacker.cerr_ u' = 0%nat.
Proof. apply pack_unpack. exact _. Qed.

Lemma packable_roundtrip_witness :
  ∃ p wire u u',
    pack_value (map_codec uint32_codec string_codec) [(3, [65; 66]); (7, [])]
      (Packer.make Packer.kDefaultSize) = Ok p ∧
    Packer.cerr_ p = 0%nat ∧
    Packer.Data p = Ok wire ∧ Z.of_nat (length wire) = Packer.Length p ∧
    Unpacker.make wire (Packer.Length p) true = Ok u ∧
    pop (map_codec uint32_codec string_codec) [(3, [9])] u =
      Ok ([(3, [9]); (7, [])], u') ∧
    Unpacker.position_ u' = Unpacker.length_ u' ∧ Unpacker.cerr_ u' = 0%nat.
Proof.
  change [(3, [9]); (7, [])] with (absorb (map_codec uint32_codec string_codec)
    [(3, [9])] [(3, [65; 66]); (7, [])]).
  apply (packable_roundtrip (map_codec uint32_codec string_codec)).
  - split.
    + split; [simpl; lia|].
      repeat constructor; simpl; unfold is_byte; lia.
    + repeat constructor.
  - unfold Packer.room, Packer.kMaxPacketSize. vm_compute. reflexivity.
Defined.

(** C37: [PackedBuffer(t)] is exactly the encoding of [t]: the body without
    length prefix, for any packable value that fits a packet. *)
Theorem PackedBuffer_enc {T} (c : Codec T) `{CodecOk T c} t :
  valid c t → Packer.room (enc c t) 1 → PackedBuffer c t = Ok (enc c t).
Proof.
  intros Ht Hr. destruct (room_frame _ _ Hr) as [Hb _]; [lia|].
  destruct (pack_value_packed c t Ht Hr) as (p & Hp & Hpk & _).
  unfold PackedBuffer. unfold pack_value in Hp. cbv zeta.
  apply bind_ok_inv in Hp as (q & -> & Hp). rewrite bind_ok, Hp, bind_ok.
  by destruct (Packer.packed_Data p _ Hpk Hb) as (_ & _ & _ & ? & _).
Qed.

Lemma PackedBuffer_enc_witness :
  PackedBuffer string_codec [104; 105] = Ok [2; 0; 104; 105].
Proof.
  change [2; 0; 104; 105] with (enc string_codec [104; 105]).
  apply (PackedBuffer_enc string_codec).
  - split; [simpl; lia|]. repeat constructor; unfold is_byte; lia.
  - unfold Packer.room, Packer.kMaxPacketSize. vm_compute. reflexivity.
Defined.
