(* ===== verification/Structs.v ===== *)
(** * Structs: base/declare_struct.h

    The macros [NEW_DECLARE_SIMPLE_STRUCT_n] (constructors, copy, assignment),
    [NEW_DECLARE_STRUCT_n] (the comparison operators) and
    [NEW_DECLARE_PACKABLE_n] (the stream operators).  A struct of [n] members is
    a left-nested tuple.  The comparison operators are written as the macros
    expand; [lex] is the order they are meant to be. *)

From S2P Require Import Prelude Bytes Wire Packer Unpacker Codec Packet.

(** ** Comparisons of the member types *)

Record Cmp (T : Type) := mkCmp { clt : T → T → bool; ceq : T → T → bool }.
Arguments mkCmp {T}.
Arguments clt {T}.
Arguments ceq {T}.

(** ** Constructors, copy, assignment

    [assign self this r] is [operator=]; [self] tells whether [this == &r]. *)

Record SimpleStruct (M : Type) := mkSimpleStruct {
  construct : M;
  construct_values : M → M;
  copy : M → M;
  assign : bool → M → M → M;
}.
Arguments mkSimpleStruct {M}.
Arguments construct {M}.
Arguments construct_values {M}.
Arguments copy {M}.
Arguments assign {M}.

Section simple.
  Context {T1 T2 T3 T4 T5 T6 T7 T8 T9 : Type}.
  (* T1() ... T9() *)
  Context (d1 : T1) (d2 : T2) (d3 : T3) (d4 : T4) (d5 : T5) (d6 : T6) (d7 : T7)
          (d8 : T8) (d9 : T9).

Definition NEW_DECLARE_SIMPLE_STRUCT_1 : SimpleStruct (T1) :=
  mkSimpleStruct d1
    (λ v1, v1)
    (λ r1, r1)
    (λ self this r1, if self : bool then this else r1).
Definition NEW_DECLARE_SIMPLE_STRUCT_2 : SimpleStruct (T1 * T2) :=
  mkSimpleStruct (d1, d2)
    (λ '(v1, v2), (v1, v2))
    (λ '(r1, r2), (r1, r2))
    (λ self this '(r1, r2), if self : bool then this else (r1, r2)).
Definition NEW_DECLARE_SIMPLE_STRUCT_3 : SimpleStruct (T1 * T2 * T3) :=
  mkSimpleStruct (d1, d2, d3)
    (λ '(v1, v2, v3), (v1, v2, v3))
    (λ '(r1, r2, r3), (r1, r2, r3))
    (λ self this '(r1, r2, r3), if self : bool then this else (r1, r2, r3)).
Definition NEW_DECLARE_SIMPLE_STRUCT_4 : SimpleStruct (T1 * T2 * T3 * T4) :=
  mkSimpleStruct (d1, d2, d3, d4)
    (λ '(v1, v2, v3, v4), (v1, v2, v3, v4))
    (λ '(r1, r2, r3, r4), (r1, r2, r3, r4))
    (λ self this '(r1, r2, r3, r4), if self : bool then this else (r1, r2, r3, r4)).
Definition NEW_DECLARE_SIMPLE_STRUCT_5 : SimpleStruct (T1 * T2 * T3 * T4 * T5) :=
  mkSimpleStruct (d1, d2, d3, d4, d5)
    (λ '(v1, v2, v3, v4, v5), (v1, v2, v3, v4, v5))
    (λ '(r1, r2, r3, r4, r5), (r1, r2, r3, r4, r5))
    (λ self this '(r1, r2, r3, r4, r5), if self : bool then this else (r1, r2, r3, r4, r5)).
Definition NEW_DECLARE_SIMPLE_STRUCT_6 : SimpleStruct (T1 * T2 * T3 * T4 * T5 * T6) :=
  mkSimpleStruct (d1, d2, d3, d4, d5, d6)
    (λ '(v1, v2, v3, v4, v5, v6), (v1, v2, v3, v4, v5, v6))
    (λ '(r1, r2, r3, r4, r5, r6), (r1, r2, r3, r4, r5, r6))
    (λ self this '(r1, r2, r3, r4, r5, r6), if self : bool then this else (r1, r2, r3, r4, r5, r6)).
Definition NEW_DECLARE_SIMPLE_STRUCT_7 : SimpleStruct (T1 * T2 * T3 * T4 * T5 * T6 * T7) :=
  mkSimpleStruct (d1, d2, d3, d4, d5, d6, d7)
    (λ '(v1, v2, v3, v4, v5, v6, v7), (v1, v2, v3, v4, v5, v6, v7))
    (λ '(r1, r2, r3, r4, r5, r6, r7), (r1, r2, r3, r4, r5, r6, r7))
    (λ self this '(r1, r2, r3, r4, r5, r6, r7), if self : bool then this else (r1, r2, r3, r4, r5, r6, r7)).
Definition NEW_DECLARE_SIMPLE_STRUCT_8 : SimpleStruct (T1 * T2 * T3 * T4 * T5 * T6 * T7 * T8) :=
  mkSimpleStruct (d1, d2, d3, d4, d5, d6, d7, d8)
    (λ '(v1, v2, v3, v4, v5, v6, v7, v8), (v1, v2, v3, v4, v5, v6, v7, v8))
    (λ '(r1, r2, r3, r4, r5, r6, r7, r8), (r1, r2, r3, r4, r5, r6, r7, r8))
    (λ self this '(r1, r2, r3, r4, r5, r6, r7, r8), if self : bool then this else (r1, r2, r3, r4, r5, r6, r7, r8)).
Definition NEW_DECLARE_SIMPLE_STRUCT_9 : SimpleStruct (T1 * T2 * T3 * T4 * T5 * T6 * T7 * T8 * T9) :=
  mkSimpleStruct (d1, d2, d3, d4, d5, d6, d7, d8, d9)
    (λ '(v1, v2, v3, v4, v5, v6, v7, v8, v9), (v1, v2, v3, v4, v5, v6, v7, v8, v9))
    (λ '(r1, r2, r3, r4, r5, r6, r7, r8, r9), (r1, r2, r3, r4, r5, r6, r7, r8, r9))
    (λ self this '(r1, r2, r3, r4, r5, r6, r7, r8, r9), if self : bool then this else (r1, r2, r3, r4, r5, r6, r7, r8, r9)).
End simple.

(** ** The comparison operators *)

Section compare.
  Context {T1 T2 T3 T4 T5 T6 T7 T8 T9 : Type}.
  Context (m1 : Cmp T1) (m2 : Cmp T2) (m3 : Cmp T3) (m4 : Cmp T4) (m5 : Cmp T5)
          (m6 : Cmp T6) (m7 : Cmp T7) (m8 : Cmp T8) (m9 : Cmp T9).

Definition NEW_DECLARE_STRUCT_1 : Cmp (T1) :=
  mkCmp
    (λ l1 r1, clt m1 l1 r1)
    (λ l1 r1, ceq m1 l1 r1).
Definition NEW_DECLARE_STRUCT_2 : Cmp (T1 * T2) :=
  mkCmp
    (λ '(l1, l2) '(r1, r2),
      (clt m1 l1 r1) ||
      (ceq m1 l1 r1 && clt m2 l2 r2))
    (λ '(l1, l2) '(r1, r2),
      ceq m1 l1 r1 && ceq m2 l2 r2).
Definition NEW_DECLARE_STRUCT_3 : Cmp (T1 * T2 * T3) :=
  mkCmp
    (λ '(l1, l2, l3) '(r1, r2, r3),
      (clt m1 l1 r1) ||
      (ceq m1 l1 r1 && clt m2 l2 r2) ||
      (ceq m1 l1 r1 && ceq m2 l2 r2 && clt m3 l3 r3))
    (λ '(l1, l2, l3) '(r1, r2, r3),
      ceq m1 l1 r1 && ceq m2 l2 r2 && ceq m3 l3 r3).
Definition NEW_DECLARE_STRUCT_4 : Cmp (T1 * T2 * T3 * T4) :=
  mkCmp
    (λ '(l1, l2, l3, l4) '(r1, r2, r3, r4),
      (clt m1 l1 r1) ||
      (ceq m1 l1 r1 && clt m2 l2 r2) ||
      (ceq m1 l1 r1 && ceq m2 l2 r2 && clt m3 l3 r3) ||
      (ceq m1 l1 r1 && ceq m2 l2 r2 && ceq m3 l3 r3 && clt m4 l4 r4))
    (λ '(l1, l2, l3, l4) '(r1, r2, r3, r4),
      ceq m1 l1 r1 && ceq m2 l2 r2 && ceq m3 l3 r3 && ceq m4 l4 r4).
Definition NEW_DECLARE_STRUCT_5 : Cmp (T1 * T2 * T3 * T4 * T5) :=
  mkCmp
    (λ '(l1, l2, l3, l4, l5) '(r1, r2, r3, r4, r5),
      (clt m1 l1 r1) ||
      (ceq m1 l1 r1 && clt m2 l2 r2) ||
      (ceq m1 l1 r1 && ceq m2 l2 r2 && clt m3 l3 r3) ||
      (ceq m1 l1 r1 && ceq m2 l2 r2 && ceq m3 l3 r3 && clt m4 l4 r4) ||
      (ceq m1 l1 r1 && ceq m2 l2 r2 && ceq m3 l3 r3 && ceq m4 l4 r4 &&
       clt m5 l5 r5))
    (λ '(l1, l2, l3, l4, l5) '(r1, r2, r3, r4, r5),
      ceq m1 l1 r1 && ceq m2 l2 r2 && ceq m3 l3 r3 && ceq m4 l4 r4 &&
      ceq m5 l5 r5).
Definition NEW_DECLARE_STRUCT_6 : Cmp (T1 * T2 * T3 * T4 * T5 * T6) :=
  mkCmp
    (λ '(l1, l2, l3, l4, l5, l6) '(r1, r2, r3, r4, r5, r6),
      (clt m1 l1 r1) ||
      (ceq m1 l1 r1 && clt m2 l2 r2) ||
      (ceq m1 l1 r1 && ceq m2 l2 r2 && clt m3 l3 r3) ||
      (ceq m1 l1 r1 && ceq m2 l2 r2 && ceq m3 l3 r3 && clt m4 l4 r4) ||
      (ceq m1 l1 r1 && ceq m2 l2 r2 && ceq m3 l3 r3 && ceq m4 l4 r4 &&
       clt m5 l5 r5) ||
      (ceq m1 l1 r1 && ceq m2 l2 r2 && ceq m3 l3 r3 && ceq m4 l4 r4 &&
       ceq m5 l5 r5 && clt m6 l6 r6))
    (λ '(l1, l2, l3, l4, l5, l6) '(r1, r2, r3, r4, r5, r6),
      ceq m1 l1 r1 && ceq m2 l2 r2 && ceq m3 l3 r3 && ceq m4 l4 r4 &&
      ceq m5 l5 r5 && ceq m6 l6 r6).
Definition NEW_DECLARE_STRUCT_7 : Cmp (T1 * T2 * T3 * T4 * T5 * T6 * T7) :=
  mkCmp
    (λ '(l1, l2, l3, l4, l5, l6, l7) '(r1, r2, r3, r4, r5, r6, r7),
      (clt m1 l1 r1) ||
      (ceq m1 l1 r1 && clt m2 l2 r2) ||
      (ceq m1 l1 r1 && ceq m2 l2 r2 && clt m3 l3 r3) ||
      (ceq m1 l1 r1 && ceq m2 l2 r2 && ceq m3 l3 r3 && clt m4 l4 r4) ||
      (ceq m1 l1 r1 && ceq m2 l2 r2 && ceq m3 l3 r3 && ceq m4 l4 r4 &&
       clt m5 l5 r5) ||
      (ceq m1 l1 r1 && ceq m2 l2 r2 && ceq m3 l3 r3 && ceq m4 l4 r4 &&
       ceq m5 l5 r5 && clt m6 l6 r6) ||
      (ceq m1 l1 r1 && ceq m2 l2 r2 && ceq m3 l3 r3 && ceq m4 l4 r4 &&
       ceq m5 l5 r5 && ceq m6 l6 r6 && clt m7 l7 r7))
    (λ '(l1, l2, l3, l4, l5, l6, l7) '(r1, r2, r3, r4, r5, r6, r7),
      ceq m1 l1 r1 && ceq m2 l2 r2 && ceq m3 l3 r3 && ceq m4 l4 r4 &&
      ceq m5 l5 r5 && ceq m6 l6 r6 && ceq m7 l7 r7).
Definition NEW_DECLARE_STRUCT_8 : Cmp (T1 * T2 * T3 * T4 * T5 * T6 * T7 * T8) :=
  mkCmp
    (λ '(l1, l2, l3, l4, l5, l6, l7, l8) '(r1, r2, r3, r4, r5, r6, r7, r8),
      (clt m1 l1 r1) ||
      (ceq m1 l1 r1 && clt m2 l2 r2) ||
      (ceq m1 l1 r1 && ceq m2 l2 r2 && clt m3 l3 r3) ||
      (ceq m1 l1 r1 && ceq m2 l2 r2 && ceq m3 l3 r3 && clt m4 l4 r4) ||
      (ceq m1 l1 r1 && ceq m2 l2 r2 && ceq m3 l3 r3 && ceq m4 l4 r4 &&
       clt m5 l5 r5) ||
      (ceq m1 l1 r1 && ceq m2 l2 r2 && ceq m3 l3 r3 && ceq m4 l4 r4 &&
       ceq m5 l5 r5 && clt m6 l6 r6) ||
      (ceq m1 l1 r1 && ceq m2 l2 r2 && ceq m3 l3 r3 && ceq m4 l4 r4 &&
       ceq m5 l5 r5 && ceq m6 l6 r6 && clt m7 l7 r7) ||
      (ceq m1 l1 r1 && ceq m2 l2 r2 && ceq m3 l3 r3 && ceq m4 l4 r4 &&
       ceq m5 l5 r5 && ceq m6 l6 r6 && ceq m7 l7 r7 && clt m8 l8 r8))
    (λ '(l1, l2, l3, l4, l5, l6, l7, l8) '(r1, r2, r3, r4, r5, r6, r7, r8),
      ceq m1 l1 r1 && ceq m2 l2 r2 && ceq m3 l3 r3 && ceq m4 l4 r4 &&
      ceq m5 l5 r5 && ceq m6 l6 r6 && ceq m7 l7 r7 && ceq m8 l8 r8).
Definition NEW_DECLARE_STRUCT_9 : Cmp (T1 * T2 * T3 * T4 * T5 * T6 * T7 * T8 * T9) :=
  mkCmp
    (λ '(l1, l2, l3, l4, l5, l6, l7, l8, l9) '(r1, r2, r3, r4, r5, r6, r7, r8, r9),
      (clt m1 l1 r1) ||
      (ceq m1 l1 r1 && clt m2 l2 r2) ||
      (ceq m1 l1 r1 && ceq m2 l2 r2 && clt m3 l3 r3) ||
      (ceq m1 l1 r1 && ceq m2 l2 r2 && ceq m3 l3 r3 && clt m4 l4 r4) ||
      (ceq m1 l1 r1 && ceq m2 l2 r2 && ceq m3 l3 r3 && ceq m4 l4 r4 &&
       clt m5 l5 r5) ||
      (ceq m1 l1 r1 && ceq m2 l2 r2 && ceq m3 l3 r3 && ceq m4 l4 r4 &&
       ceq m5 l5 r5 && clt m6 l6 r6) ||
      (ceq m1 l1 r1 && ceq m2 l2 r2 && ceq m3 l3 r3 && ceq m4 l4 r4 &&
       ceq m5 l5 r5 && ceq m6 l6 r6 && clt m7 l7 r7) ||
      (ceq m1 l1 r1 && ceq m2 l2 r2 && ceq m3 l3 r3 && ceq m4 l4 r4 &&
       ceq m5 l5 r5 && ceq m6 l6 r6 && ceq m7 l7 r7 && clt m8 l8 r8) ||
      (ceq m1 l1 r1 && ceq m2 l2 r2 && ceq m3 l3 r3 && ceq m4 l4 r4 &&
       ceq m5 l5 r5 && ceq m6 l6 r6 && ceq m7 l7 r7 && ceq m8 l8 r8 &&
       clt m9 l9 r9))
    (λ '(l1, l2, l3, l4, l5, l6, l7, l8, l9) '(r1, r2, r3, r4, r5, r6, r7, r8, r9),
      ceq m1 l1 r1 && ceq m2 l2 r2 && ceq m3 l3 r3 && ceq m4 l4 r4 &&
      ceq m5 l5 r5 && ceq m6 l6 r6 && ceq m7 l7 r7 && ceq m8 l8 r8 &&
      ceq m9 l9 r9).
End compare.

(** [operator!=], the same for every struct. *)
Definition cne {T} (m : Cmp T) (l r : T) : bool := negb (ceq m l r).

(** ** The stream operators *)

Section packable.
  Context {T1 T2 T3 T4 T5 T6 T7 T8 T9 : Type}.
  Context (c1 : Codec T1) (c2 : Codec T2) (c3 : Codec T3) (c4 : Codec T4)
          (c5 : Codec T5) (c6 : Codec T6) (c7 : Codec T7) (c8 : Codec T8)
          (c9 : Codec T9).

Definition NEW_DECLARE_PACKABLE_1 : Codec (T1) :=
  c1.
Definition NEW_DECLARE_PACKABLE_2 : Codec (T1 * T2) :=
  c1 ⊗ c2.
Definition NEW_DECLARE_PACKABLE_3 : Codec (T1 * T2 * T3) :=
  c1 ⊗ c2 ⊗ c3.
Definition NEW_DECLARE_PACKABLE_4 : Codec (T1 * T2 * T3 * T4) :=
  c1 ⊗ c2 ⊗ c3 ⊗ c4.
Definition NEW_DECLARE_PACKABLE_5 : Codec (T1 * T2 * T3 * T4 * T5) :=
  c1 ⊗ c2 ⊗ c3 ⊗ c4 ⊗ c5.
Definition NEW_DECLARE_PACKABLE_6 : Codec (T1 * T2 * T3 * T4 * T5 * T6) :=
  c1 ⊗ c2 ⊗ c3 ⊗ c4 ⊗ c5 ⊗ c6.
Definition NEW_DECLARE_PACKABLE_7 : Codec (T1 * T2 * T3 * T4 * T5 * T6 * T7) :=
  c1 ⊗ c2 ⊗ c3 ⊗ c4 ⊗ c5 ⊗ c6 ⊗ c7.
Definition NEW_DECLARE_PACKABLE_8 : Codec (T1 * T2 * T3 * T4 * T5 * T6 * T7 * T8) :=
  c1 ⊗ c2 ⊗ c3 ⊗ c4 ⊗ c5 ⊗ c6 ⊗ c7 ⊗ c8.
Definition NEW_DECLARE_PACKABLE_9 : Codec (T1 * T2 * T3 * T4 * T5 * T6 * T7 * T8 * T9) :=
  c1 ⊗ c2 ⊗ c3 ⊗ c4 ⊗ c5 ⊗ c6 ⊗ c7 ⊗ c8 ⊗ c9.
End packable.
(** ** The order the comparisons are meant to be *)

(** [operator<] is a strict total order for which [operator==] is equality. *)
Class CmpOk {T} (m : Cmp T) : Prop := {
  clt_irrefl : ∀ x, clt m x x = false;
  clt_trans : ∀ x y z, clt m x y = true → clt m y z = true → clt m x z = true;
  ceq_eq : ∀ x y, ceq m x y = true ↔ x = y;
  clt_total : ∀ x y, x = y ∨ clt m x y = true ∨ clt m y x = true;
}.

(** Lexicographic order on pairs. *)
Definition lex {A B} (ma : Cmp A) (mb : Cmp B) : Cmp (A * B) :=
  mkCmp
    (λ l r, clt ma (fst l) (fst r) || (ceq ma (fst l) (fst r) && clt mb (snd l) (snd r)))
    (λ l r, ceq ma (fst l) (fst r) && ceq mb (snd l) (snd r)).

#[export] Instance lex_ok {A B} (ma : Cmp A) (mb : Cmp B) :
  CmpOk ma → CmpOk mb → CmpOk (lex ma mb).
Proof.
  intros Ha Hb. split; cbn [clt ceq lex].
  - intros [a b]. simpl. rewrite !clt_irrefl. by rewrite andb_false_r.
  - intros [a b] [a' b'] [a'' b'']; simpl.
    rewrite !orb_true_iff, !andb_true_iff, !ceq_eq.
    intros [E|[-> E]] [E'|[-> E']]; eauto using clt_trans.
  - intros [a b] [a' b']; simpl. rewrite andb_true_iff, !ceq_eq.
    split; [intros [-> ->]|intros [= -> ->]]; done.
  - intros [a b] [a' b']; simpl. rewrite !orb_true_iff, !andb_true_iff, !ceq_eq.
    destruct (clt_total (m := ma) a a') as [->|[|]], (clt_total (m := mb) b b') as [->|[|]];
      auto.
Qed.

Lemma CmpOk_ext {T} (m m' : Cmp T) :
  (∀ l r, clt m' l r = clt m l r) → (∀ l r, ceq m' l r = ceq m l r) →
  CmpOk m → CmpOk m'.
Proof.
  intros Hl He [H1 H2 H3 H4].
  split; intros; rewrite ?Hl, ?He in *; rewrite ?Hl, ?He; eauto.
Qed.

Definition Z_cmp : Cmp Z := mkCmp Z.ltb Z.eqb.
#[export] Instance Z_cmp_ok : CmpOk Z_cmp.
Proof. split; cbn [clt ceq Z_cmp]; intros; lia. Qed.

Definition bytes_cmp : Cmp bytes :=
  mkCmp bytes_ltb (λ s t, bool_decide (s = t)).
#[export] Instance bytes_cmp_ok : CmpOk bytes_cmp.
Proof.
  destruct bytes_ordered_ok as [Hi Ht Hn].
  split; cbn [clt ceq bytes_cmp]; [apply Hi|apply Ht|intros; apply bool_decide_eq_true|].
  intros x y. pose proof (Hn x y) as Hn'. unfold ltb, bytes_ordered in Hn'.
  destruct (bytes_ltb x y), (bytes_ltb y x); auto.
Qed.

(** The expansion of a macro agrees with the chain of [lex]. *)
Ltac by_lex chain :=
  apply (CmpOk_ext chain); [..|apply _];
  repeat (intros [? ?] || intro); cbn [clt ceq lex fst snd];
  repeat match goal with
  | p : _ * _ |- _ => destruct p
  end; simpl; rewrite ?andb_orb_distrib_r, ?andb_assoc, ?orb_assoc; reflexivity.

Section compare_ok.
Context {T1 T2 T3 T4 T5 T6 T7 T8 T9 : Type}.
Context (m1 : Cmp T1) (m2 : Cmp T2) (m3 : Cmp T3) (m4 : Cmp T4) (m5 : Cmp T5)
        (m6 : Cmp T6) (m7 : Cmp T7) (m8 : Cmp T8) (m9 : Cmp T9).
Context `{!CmpOk m1, !CmpOk m2, !CmpOk m3, !CmpOk m4, !CmpOk m5, !CmpOk m6,
          !CmpOk m7, !CmpOk m8, !CmpOk m9}.

#[export] Instance struct_1_ok : CmpOk (NEW_DECLARE_STRUCT_1 m1).
Proof. by apply (CmpOk_ext m1). Qed.
#[export] Instance struct_2_ok : CmpOk (NEW_DECLARE_STRUCT_2 m1 m2).
Proof. by_lex (lex m1 m2). Qed.
#[export] Instance struct_3_ok : CmpOk (NEW_DECLARE_STRUCT_3 m1 m2 m3).
Proof. by_lex (lex (lex m1 m2) m3). Qed.
#[export] Instance struct_4_ok : CmpOk (NEW_DECLARE_STRUCT_4 m1 m2 m3 m4).
Proof. by_lex (lex (lex (lex m1 m2) m3) m4). Qed.
#[export] Instance struct_5_ok : CmpOk (NEW_DECLARE_STRUCT_5 m1 m2 m3 m4 m5).
Proof. by_lex (lex (lex (lex (lex m1 m2) m3) m4) m5). Qed.
#[export] Instance struct_6_ok : CmpOk (NEW_DECLARE_STRUCT_6 m1 m2 m3 m4 m5 m6).
Proof. by_lex (lex (lex (lex (lex (lex m1 m2) m3) m4) m5) m6). Qed.
#[export] Instance struct_7_ok : CmpOk (NEW_DECLARE_STRUCT_7 m1 m2 m3 m4 m5 m6 m7).
Proof. by_lex (lex (lex (lex (lex (lex (lex m1 m2) m3) m4) m5) m6) m7). Qed.
#[export] Instance struct_8_ok :
  CmpOk (NEW_DECLARE_STRUCT_8 m1 m2 m3 m4 m5 m6 m7 m8).
Proof. by_lex (lex (lex (lex (lex (lex (lex (lex m1 m2) m3) m4) m5) m6) m7) m8). Qed.
End compare_ok.

(** Assignment makes the object equal to its argument, also to itself. *)
Lemma struct_assign_9 {T1 T2 T3 T4 T5 T6 T7 T8 T9 : Type}
    (d1 : T1) (d2 : T2) (d3 : T3) (d4 : T4) (d5 : T5) (d6 : T6) (d7 : T7)
    (d8 : T8) (d9 : T9) self this r :
  (self = true → this = r) →
  assign (NEW_DECLARE_SIMPLE_STRUCT_9 d1 d2 d3 d4 d5 d6 d7 d8 d9) self this r = r.
Proof.
  intros Hs. destruct r as [[[[[[[[r1 r2] r3] r4] r5] r6] r7] r8] r9].
  destruct self; [by apply Hs|done].
Qed.
