(* ===== verification/Protocols.v ===== *)
(** * Protocols: protocol/uni_lbs_protocol.h and new_elbs/new_elbs_protocol.h

    The messages exchanged with the unified LBS and with the edge LBS.  Each
    class is the instance of a declaration macro the header writes; the members
    are the left-nested tuple of the fields in order. *)

From S2P Require Import Prelude Bytes Wire Packer Unpacker Codec Packet Structs.

(** ** protocol/uni_lbs_protocol.h *)

Module Lbs.

(* enum TicketVersion *)
Definition kVersion5 : Z := 5.
Definition kVersion7 : Z := 7.
Definition kVersion8 : Z := 8.

(* enum ServiceUri *)
Definition kLbsTestJoinReqUri : Z := 1000.
Definition kLbsJoinReqUri : Z := 1001.
Definition kLbsJoinResUri : Z := 1002.
Definition kLbsPingUri : Z := 1003.
Definition kLbsPongUri : Z := 1004.
Definition kLbsFullChannelListUri : Z := 1005.
Definition kLbsDeltaChannelListUri : Z := 1006.
Definition kLbsJoinReq2Uri : Z := 1007.
Definition kLbsJoinRes2Uri : Z := 1008.

(* the keys of the detail maps *)
Definition kUserLoad : Z := 1.
Definition kCpuLoad : Z := 2.
Definition kTrafficInLoad : Z := 3.
Definition kTrafficOutLoad : Z := 4.
Definition kUserLoadMax : Z := 5.
Definition kServerVersion : Z := 6.
Definition kServerDetail : Z := 7.
Definition kMemLoad : Z := 8.

(** [std::map<uint32_t, uint32_t>] and [std::map<uint32_t, std::string>]. *)
Definition DetailInfoMap : Type := list (Z * Z).
Definition DetailInfo2Map : Type := list (Z * bytes).
Definition DetailInfoMap_codec : Codec DetailInfoMap := map_codec uint32_codec uint32_codec.
Definition DetailInfo2Map_codec : Codec DetailInfo2Map := map_codec uint32_codec string_codec.

(** [std::vector<std::pair<uint32_t, std::string>>]. *)
Definition AllChannelVector : Type := list (Z * bytes).
Definition AllChannelVector_codec : Codec AllChannelVector :=
  vector_codec (pair_codec uint32_codec string_codec).

(* content, signature *)
Definition AccessTicket := NEW_DECLARE_PACKABLE_2 buffer_codec buffer_codec.

(* vid, uid, sids, issue_ts, due_ts, cname *)
Definition TicketDetail5 := NEW_DECLARE_PACKET_6 kVersion5 uint32_codec uint32_codec
  (vector_codec uint32_codec) uint32_codec uint32_codec string_codec.

(* cid, uid, vid, sids, issue_ts, due_ts, cname *)
Definition DetailedSignature5 := NEW_DECLARE_PACKABLE_7 uint32_codec uint32_codec
  uint32_codec (vector_codec uint32_codec) uint32_codec uint32_codec string_codec.

(* vid, uid, issue_ts, due_ts, cname *)
Definition TicketDetail7 := NEW_DECLARE_PACKET_5 kVersion7 uint32_codec uint32_codec
  uint32_codec uint32_codec string_codec.

(* vid, uid, cid, sids, issue_ts, due_ts, cname, bitrates *)
Definition TicketDetail8 := NEW_DECLARE_PACKET_8 kVersion8 uint32_codec uint32_codec
  uint32_codec (vector_codec uint32_codec) uint32_codec uint32_codec string_codec
  uint32_codec.

(* id, service_name, ip, port *)
Definition LbsTestJoinReq := NEW_DECLARE_PACKET_4 kLbsTestJoinReqUri uint32_codec
  string_codec string_codec uint16_codec.

(* id, service_name, port *)
Definition LbsJoinReq := NEW_DECLARE_PACKET_3 kLbsJoinReqUri uint32_codec
  string_codec uint16_codec.

(* id, code *)
Definition LbsJoinRes := NEW_DECLARE_PACKET_2 kLbsJoinResUri uint32_codec uint32_codec.

(* id, service_name, port, detail *)
Definition LbsJoinReq2 := NEW_DECLARE_PACKET_4 kLbsJoinReq2Uri uint32_codec
  string_codec uint16_codec DetailInfo2Map_codec.

(* id, code, detail *)
Definition LbsJoinRes2 := NEW_DECLARE_PACKET_3 kLbsJoinRes2Uri uint32_codec
  uint32_codec DetailInfo2Map_codec.

(* id, load_detail *)
Definition LbsPing := NEW_DECLARE_PACKET_2 kLbsPingUri uint32_codec DetailInfoMap_codec.
Definition LbsPong := NEW_DECLARE_PACKET_2 kLbsPongUri uint32_codec DetailInfoMap_codec.

(* id, channels *)
Definition LbsFullChannelList := NEW_DECLARE_PACKET_2 kLbsFullChannelListUri
  uint32_codec AllChannelVector_codec.

(* id, added, removed *)
Definition LbsDeltaChannelList := NEW_DECLARE_PACKET_3 kLbsDeltaChannelListUri
  uint32_codec AllChannelVector_codec AllChannelVector_codec.

End Lbs.

(** ** new_elbs/new_elbs_protocol.h *)

Module Elbs.

(* enum ElbsUriType *)
Definition kRejoinRequestUri : Z := 6.
Definition kRejoinResponseUri : Z := 7.
Definition kRejoinRequest2Uri : Z := 8.
Definition kRejoinResponse2Uri : Z := 9.
Definition kUapUri : Z := 1000.

(* enum ErrorCode *)
Definition kOk : Z := 0.
Definition kFail : Z := 1.
Definition kTimestampExpired : Z := 2.
Definition kServiceNotReady : Z := 9.
Definition kServiceTooHeavy : Z := 10.
Definition kNoNeedToChange : Z := 13.
Definition kRequestPending : Z := 65535.

Definition ELBS_SERVER_TYPE : Z := 305.
Definition UAP_SERVER_TYPE : Z := 1000.
Definition kUapServiceType : Z := 1000.

(* json *)
Definition WorkerManagerComm := NEW_DECLARE_PACKET_1 kUapUri string_codec.

(* ip, port *)
Definition RejoinRequestProtocol :=
  NEW_DECLARE_PACKET_2 kRejoinRequestUri uint32_codec uint16_codec.

(* code, ip, port *)
Definition RejoinResponseProtocol :=
  NEW_DECLARE_PACKET_3 kRejoinResponseUri uint32_codec uint32_codec uint16_codec.

(* ip, port *)
Definition RejoinRequest2Protocol :=
  NEW_DECLARE_PACKET_2 kRejoinRequest2Uri uint32_codec uint16_codec.

(* code, ip, port *)
Definition RejoinResponse2Protocol :=
  NEW_DECLARE_PACKET_3 kRejoinResponse2Uri uint32_codec uint32_codec uint16_codec.

End Elbs.

(** ** Properties *)

(** C29: every message of the unified LBS protocol (tickets, join, ping, pong
    and channel list messages) reaches a freshly constructed message object of
    the receiver unchanged, whatever the values of its fields, provided it fits
    a packet. *)
Theorem lbs_messages_faithful :
  wire_faithful Lbs.AccessTicket ∧
  wire_faithful (packet_codec Lbs.TicketDetail5) ∧
  wire_faithful Lbs.DetailedSignature5 ∧
  wire_faithful (packet_codec Lbs.TicketDetail7) ∧
  wire_faithful (packet_codec Lbs.TicketDetail8) ∧
  wire_faithful (packet_codec Lbs.LbsTestJoinReq) ∧
  wire_faithful (packet_codec Lbs.LbsJoinReq) ∧
  wire_faithful (packet_codec Lbs.LbsJoinRes) ∧
  wire_faithful (packet_codec Lbs.LbsJoinReq2) ∧
  wire_faithful (packet_codec Lbs.LbsJoinRes2) ∧
  wire_faithful (packet_codec Lbs.LbsPing) ∧
  wire_faithful (packet_codec Lbs.LbsPong) ∧
  wire_faithful (packet_codec Lbs.LbsFullChannelList) ∧
  wire_faithful (packet_codec Lbs.LbsDeltaChannelList).
Proof. split_and!; apply codec_wire_faithful; apply _. Qed.

(** the same for the messages of the edge LBS. *)
Theorem elbs_messages_faithful :
  wire_faithful (packet_codec Elbs.WorkerManagerComm) ∧
  wire_faithful (packet_codec Elbs.RejoinRequestProtocol) ∧
  wire_faithful (packet_codec Elbs.RejoinResponseProtocol) ∧
  wire_faithful (packet_codec Elbs.RejoinRequest2Protocol) ∧
  wire_faithful (packet_codec Elbs.RejoinResponse2Protocol).
Proof. split_and!; apply codec_wire_faithful; apply _. Qed.
