(* ===== verification/Outcome.v ===== *)
(** * Outcome: computations that may fault or run out of fuel

    The thrift library loops on what it reads, so its functions are written with
    fuel: an [outcome] is a value, the fault an execution runs into, or the fuel
    running out.  [state S] threads an object through such computations; a function
    that has a reference parameter takes its old value and returns its new one. *)

From S2P Require Import Prelude.

Inductive outcome (A : Type) : Type :=
  | Done (a : A)
  | Fault (e : fault)
  | OutOfFuel.
Arguments Done {A} _.
Arguments Fault {A} _.
Arguments OutOfFuel {A}.

#[export] Instance Done_inj A : Inj (=) (=) (@Done A).
Proof. by intros a b [= ->]. Qed.

#[export] Instance outcome_ret : MRet outcome := @Done.
#[export] Instance outcome_bind : MBind outcome := λ A B f m,
  match m with Done a => f a | Fault e => Fault e | OutOfFuel => OutOfFuel end.

(** A result is an outcome that needed no fuel. *)
Definition of_result {A} (r : result A) : outcome A :=
  match r with Ok a => Done a | Err e => Fault e end.

Definition state (S A : Type) : Type := S → outcome (S * A).

#[export] Instance state_ret S : MRet (state S) := λ A a s, Done (s, a).
#[export] Instance state_bind S : MBind (state S) := λ A B f m s,
  match m s with
  | Done (s, a) => f a s
  | Fault e => Fault e
  | OutOfFuel => OutOfFuel
  end.

Section state.
Context {S : Type}.

Definition get : state S S := λ s, Done (s, s).
Definition modify (f : S → S) : state S unit := λ s, Done (f s, tt).
Definition fail {A} (e : fault) : state S A := λ _, Fault e.
Definition lift {A} (o : outcome A) : state S A := λ s, a ← o; Done (s, a).
Definition no_fuel {A} : state S A := λ _, OutOfFuel.

Lemma bind_done {A B} (m : state S A) (k : A → state S B) s s' a :
  m s = Done (s', a) → (m ≫= k) s = k a s'.
Proof. intros E. unfold mbind, state_bind. by rewrite E. Qed.

Lemma bind_fault {A B} (m : state S A) (k : A → state S B) s e :
  m s = Fault e → (m ≫= k) s = Fault e.
Proof. intros E. unfold mbind, state_bind. by rewrite E. Qed.

Lemma state_assoc {A B C} (m : state S A) (f : A → state S B) (g : B → state S C) s :
  ((m ≫= f) ≫= g) s = (m ≫= λ a, f a ≫= g) s.
Proof. unfold mbind, state_bind. by destruct (m s) as [[]| |]. Qed.
End state.
