(* ===== verification/CJson.v ===== *)
(** * CJson: new_elbs/cJSON.h and cJSON.cc

    The JSON reader and printer.  An item is the C structure with its list of
    children in place of the [child], [next] and [prev] pointers; a C string is the
    list of its bytes before the terminating zero, and a pointer into it is the part
    that follows.  Reading past the zero and writing past what was allocated are
    [OutOfBounds].

    [pow10 x] is [pow(10.0, x)] of the C library, and [overflow] what the machine
    makes of the conversion to [int] of a double that is out of range. *)

From Stdlib Require Import String Ascii.
From S2P Require Import Prelude Bytes Double.

(** ** Items *)

Definition cJSON_False : Z := 0.
Definition cJSON_True : Z := 1.
Definition cJSON_NULL : Z := 2.
Definition cJSON_Number : Z := 3.
Definition cJSON_String : Z := 4.
Definition cJSON_Array : Z := 5.
Definition cJSON_Object : Z := 6.
Definition cJSON_IsReference : Z := 256.

Inductive cJSON := mkItem {
  type : Z;
  valuestring : option bytes;
  valueint : Z;              (* int *)
  valuedouble : double;
  name : option bytes;       (* string *)
  child : list cJSON;
}.

Definition set_name (s : option bytes) (i : cJSON) : cJSON :=
  mkItem (type i) (valuestring i) (valueint i) (valuedouble i) s (child i).
Definition set_child (c : list cJSON) (i : cJSON) : cJSON :=
  mkItem (type i) (valuestring i) (valueint i) (valuedouble i) (name i) c.

(** [cJSON_New_Item], with a type. *)
Definition new_item (ty : Z) : cJSON := mkItem ty None 0 (Zero false) None [].

(** [tolower] and [cJSON_strcasecmp(s1, s2) == 0]. *)
Definition tolower (c : Z) : Z := if (65 <=? c) && (c <=? 90) then c + 32 else c.
Definition strcaseeq (s1 s2 : option bytes) : bool :=
  match s1, s2 with
  | None, None => true
  | Some s1, Some s2 => bool_decide (tolower <$> s1 = tolower <$> s2)
  | _, _ => false
  end.

(** ** Reading numbers *)

Definition digit (c : Z) : bool := (48 <=? c) && (c <=? 57).

(** [do n = (n*10.0) + ( *num++ - '0') while ( *num is a digit)]; [scale] is decremented
    for the digits of a fraction. *)
Definition add_digit (n : double) (c : Z) : double := dadd (dmul n (of_int 10)) (of_int (c - 48)).
Fixpoint read_digits (n : double) (num : bytes) : double * bytes :=
  match num with
  | c :: rest => if digit c then read_digits (add_digit n c) rest else (n, num)
  | [] => (n, [])
  end.
Fixpoint read_fraction (n scale : double) (num : bytes) : double * double * bytes :=
  match num with
  | c :: rest =>
      if digit c then read_fraction (add_digit n c) (dsub scale (of_int 1)) rest
      else (n, scale, num)
  | [] => (n, scale, [])
  end.

(** The digits of the exponent; [int] arithmetic. *)
Fixpoint read_exponent (subscale : Z) (num : bytes) : result (Z * bytes) :=
  match num with
  | c :: rest =>
      if digit c then
        let v := subscale * 10 + (c - 48) in
        if v <=? INT_MAX then read_exponent v rest else Err SignedOverflow
      else Ok (subscale, num)
  | [] => Ok (subscale, [])
  end.

(** What follows [c], when the text begins with it. *)
Definition next (c : Z) (s : bytes) : option bytes :=
  match s with d :: rest => if d =? c then Some rest else None | [] => None end.

Definition is_e (c : Z) : bool := (c =? 101) || (c =? 69).

(** The three parts of a number: one zero is skipped, then digits that do not begin
    with a zero; a point with a digit after it; an exponent. *)
Definition read_whole (num : bytes) : double * bytes :=
  let num := default num (next 48 num) in
  match num with
  | c :: _ => if (49 <=? c) && (c <=? 57) then read_digits (Zero false) num else (Zero false, num)
  | [] => (Zero false, [])
  end.

Definition read_point (n : double) (num : bytes) : double * double * bytes :=
  match next 46 num with
  | Some ((c :: _) as rest) =>
      if digit c then read_fraction n (Zero false) rest else (n, Zero false, num)
  | _ => (n, Zero false, num)
  end.

Definition read_sign (num : bytes) : Z * bytes :=
  match next 43 num, next 45 num with
  | Some rest, _ => (1, rest)
  | None, Some rest => (-1, rest)
  | None, None => (1, num)
  end.
Definition read_e (num : bytes) : result (Z * Z * bytes) :=
  match num with
  | c :: rest =>
      if is_e c then
        let '(signsubscale, rest) := read_sign rest in
        '(subscale, rest) ← read_exponent 0 rest;
        Ok (subscale, signsubscale, rest)
      else Ok (0, 1, num)
  | [] => Ok (0, 1, [])
  end.

(** The outcome of a parser: what it read and the text after it, a null pointer, or
    a fault; [OutOfFuel] is no outcome of the program. *)
Inductive parsed (A : Type) :=
  | Parsed (a : A) (rest : bytes)
  | Malformed
  | Faulty (e : fault)
  | OutOfFuel.
Arguments Parsed {A}.
Arguments Malformed {A}.
Arguments Faulty {A}.
Arguments OutOfFuel {A}.

Definition andThen {A B} (m : parsed A) (f : A → bytes → parsed B) : parsed B :=
  match m with
  | Parsed a rest => f a rest
  | Malformed => Malformed
  | Faulty e => Faulty e
  | OutOfFuel => OutOfFuel
  end.

Section cjson.
Context (pow10 : double → double) (overflow : double → Z).

Definition cJSON_CreateNumber (num : double) : cJSON :=
  mkItem cJSON_Number None (to_int overflow num) num None [].

Definition parse_number (num : bytes) : result (cJSON * bytes) :=
  let '(sign, num) := match next 45 num with
                      | Some rest => (of_int (-1), rest)
                      | None => (of_int 1, num)
                      end in
  let '(n, num) := read_whole num in
  let '(n, scale, num) := read_point n num in
  '(subscale, signsubscale, num) ← read_e num;
  let n := dmul (dmul sign n) (pow10 (dadd scale (of_int (subscale * signsubscale)))) in
  Ok (cJSON_CreateNumber n, num).

(** ** Reading strings *)

Definition QUOTE : Z := 34.
Definition BACKSLASH : Z := 92.

Definition hex_digit (c : Z) : option Z :=
  if digit c then Some (c - 48)
  else if (65 <=? c) && (c <=? 70) then Some (10 + c - 65)
  else if (97 <=? c) && (c <=? 102) then Some (10 + c - 97)
  else None.

(** [strncmp(value, word, n) == 0], and the text after the word. *)
Fixpoint after_prefix (word value : bytes) : option bytes :=
  match word, value with
  | [], _ => Some value
  | c :: word, d :: value => if c =? d then after_prefix word value else None
  | _, _ => None
  end.

(** [parse_hex4]: 0 at the first byte that is no hexadecimal digit. *)
Fixpoint parse_hex (count : nat) (h : Z) (s : bytes) : Z :=
  match count with
  | O => h
  | S count =>
      match s with
      | c :: s =>
          match hex_digit c with
          | Some d => parse_hex count (h * 16 + d) s
          | None => 0
          end
      | [] => 0
      end
  end.
Definition parse_hex4 (s : bytes) : Z := parse_hex 4 0 s.

(** The first loop of [parse_string]: an upper bound of the length. *)
Fixpoint scan (ptr : bytes) : result nat :=
  match ptr with
  | [] => Ok 0%nat
  | c :: rest =>
      if c =? QUOTE then Ok 0%nat
      else if c =? BACKSLASH then
        match rest with
        | [] => Err OutOfBounds
        | _ :: rest => len ← scan rest; Ok (S len)
        end
      else len ← scan rest; Ok (S len)
  end.

(** The bytes of a code point, first to last. *)
Definition tail_byte (uc : Z) : Z := u8 (Z.land (Z.lor uc 0x80) 0xBF).
Definition utf8 (uc : Z) : bytes :=
  if uc <? 0x80 then [u8 uc]
  else if uc <? 0x800 then [u8 (Z.lor (Z.shiftr uc 6) 0xC0); tail_byte uc]
  else if uc <? 0x10000 then
    [u8 (Z.lor (Z.shiftr uc 12) 0xE0); tail_byte (Z.shiftr uc 6); tail_byte uc]
  else [u8 (Z.lor (Z.shiftr uc 18) 0xF0); tail_byte (Z.shiftr uc 12);
        tail_byte (Z.shiftr uc 6); tail_byte uc].

Definition escaped (c : Z) : Z :=
  if c =? 98 then 8 else if c =? 102 then 12 else if c =? 110 then 10
  else if c =? 114 then 13 else if c =? 116 then 9 else c.

(** Writing [bs] at [count] of a buffer of [cap] bytes, before what follows. *)
Definition emit (cap count : nat) (bs : bytes) (more : result (bytes * bytes))
    : result (bytes * bytes) :=
  if decide (count + length bs ≤ cap)%nat then
    '(out, ptr) ← more; Ok (bs ++ out, ptr)
  else Err OutOfBounds.

Definition low_surrogate (uc : Z) : bool := (0xDC00 <=? uc) && (uc <=? 0xDFFF).
Definition high_surrogate (uc : Z) : bool := (0xD800 <=? uc) && (uc <=? 0xDBFF).
Definition pair_code (uc uc2 : Z) : Z :=
  0x10000 + Z.lor (Z.shiftl (Z.land uc 0x3FF) 10) (Z.land uc2 0x3FF).

(** The second loop.  After [\u] the pointer is advanced by four bytes whether or not
    they are hexadecimal digits. *)
Fixpoint decode (cap count : nat) (ptr : bytes) : result (bytes * bytes) :=
  match ptr with
  | [] => if decide (count < cap)%nat then Ok ([], []) else Err OutOfBounds
  | c :: rest =>
      if c =? QUOTE then
        if decide (count < cap)%nat then Ok ([], ptr) else Err OutOfBounds
      else if negb (c =? BACKSLASH) then emit cap count [c] (decode cap (count + 1) rest)
      else
        match rest with
        | [] => Err OutOfBounds
        | x :: rest =>
            if negb (x =? 117) then
              emit cap count [escaped x] (decode cap (count + 1) rest)
            else
              let uc := parse_hex4 rest in
              match rest with
              | _ :: _ :: _ :: _ :: rest =>
                  if low_surrogate uc || (uc =? 0) then decode cap count rest
                  else if high_surrogate uc then
                    match rest with
                    | b :: u :: rest2 =>
                        if (b =? BACKSLASH) && (u =? 117) then
                          let uc2 := parse_hex4 rest2 in
                          match rest2 with
                          | _ :: _ :: _ :: _ :: rest3 =>
                              if low_surrogate uc2
                              then let bs := utf8 (pair_code uc uc2) in
                                   emit cap count bs (decode cap (count + length bs) rest3)
                              else decode cap count rest3
                          | _ => Err OutOfBounds
                          end
                        else decode cap count rest
                    | _ => decode cap count rest
                    end
                  else let bs := utf8 uc in
                       emit cap count bs (decode cap (count + length bs) rest)
              | _ => Err OutOfBounds
              end
        end
  end.

(** [None] is the null pointer of a failed parse. *)
Definition parse_string (s : bytes) : result (option (bytes * bytes)) :=
  match s with
  | c :: ptr =>
      if c =? QUOTE then
        len ← scan ptr;
        '(out, ptr) ← decode (len + 1) 0 ptr;
        let ptr := match ptr with c :: rest => if c =? QUOTE then rest else ptr | [] => [] end in
        Ok (Some (out, ptr))
      else Ok None
  | [] => Ok None
  end.

(** ** Reading values *)

Definition of_string (r : result (option (bytes * bytes))) : parsed bytes :=
  match r with
  | Ok (Some (s, rest)) => Parsed s rest
  | Ok None => Malformed
  | Err e => Faulty e
  end.
Definition of_number (r : result (cJSON * bytes)) : parsed cJSON :=
  match r with Ok (i, rest) => Parsed i rest | Err e => Faulty e end.

(** [skip]: the blanks and control characters. *)
Fixpoint skip (s : bytes) : bytes :=
  match s with
  | c :: rest => if c <=? 32 then skip rest else s
  | [] => []
  end.

(** A string item, as [parse_string] leaves it. *)
Definition string_item (s : bytes) : cJSON :=
  mkItem cJSON_String (Some s) 0 (Zero false) None [].

Fixpoint parse_value (fuel : nat) (value : bytes) : parsed cJSON :=
  match fuel with
  | O => OutOfFuel
  | S fuel =>
      match after_prefix (str "null") value with Some r => Parsed (new_item cJSON_NULL) r | None =>
      match after_prefix (str "false") value with Some r => Parsed (new_item cJSON_False) r | None =>
      match after_prefix (str "true") value with
      | Some r => Parsed (mkItem cJSON_True None 1 (Zero false) None []) r
      | None =>
      match value with
      | [] => Malformed
      | c :: rest =>
          if c =? QUOTE then
            andThen (of_string (parse_string value)) (λ s r, Parsed (string_item s) r)
          else if (c =? 45) || digit c then of_number (parse_number value)
          else if c =? 91 then
            match next 93 (skip rest) with
            | Some r => Parsed (new_item cJSON_Array) r
            | None => andThen (parse_elements fuel (skip rest))
                     (λ l r, Parsed (set_child l (new_item cJSON_Array)) r)
            end
          else if c =? 123 then
            match next 125 (skip rest) with
            | Some r => Parsed (new_item cJSON_Object) r
            | None => andThen (parse_members fuel (skip rest))
                     (λ l r, Parsed (set_child l (new_item cJSON_Object)) r)
            end
          else Malformed
      end end end end
  end
(** The elements of an array up to its bracket, and the members of an object. *)
with parse_elements (fuel : nat) (value : bytes) : parsed (list cJSON) :=
  match fuel with
  | O => OutOfFuel
  | S fuel =>
      andThen (parse_value fuel (skip value)) (λ item r,
        match next 44 (skip r), next 93 (skip r) with
        | Some r, _ => andThen (parse_elements fuel r) (λ l r, Parsed (item :: l) r)
        | None, Some r => Parsed [item] r
        | None, None => Malformed
        end)
  end
with parse_members (fuel : nat) (value : bytes) : parsed (list cJSON) :=
  match fuel with
  | O => OutOfFuel
  | S fuel =>
      andThen (of_string (parse_string (skip value))) (λ key r,
        match next 58 (skip r) with
        | Some r =>
            andThen (parse_value fuel (skip r)) (λ item r,
              let item := set_name (Some key) item in
              match next 44 (skip r), next 125 (skip r) with
              | Some r, _ => andThen (parse_members fuel r) (λ l r, Parsed (item :: l) r)
              | None, Some r => Parsed [item] r
              | None, None => Malformed
              end)
        | None => Malformed
        end)
  end.

(** Every call takes at least half a step forward in the text. *)
Definition enough (value : bytes) : nat := 2 * length value + 2.

(** [cJSON_ParseWithOpts] and [cJSON_Parse]. *)
Definition cJSON_ParseWithOpts (value : bytes) (require_null_terminated : bool)
    : parsed cJSON :=
  let value := skip value in
  andThen (parse_value (enough value) value) (λ c r,
    if require_null_terminated then
      match skip r with [] => Parsed c [] | _ => Malformed end
    else Parsed c r).
Definition cJSON_Parse (value : bytes) : result (option cJSON) :=
  match cJSON_ParseWithOpts value false with
  | Parsed c _ => Ok (Some c)
  | Faulty e => Err e
  | Malformed | OutOfFuel => Ok None
  end.
End cjson.

(** ** Printing *)

(** A string of [s] and its terminating zero in a buffer of [cap] bytes. *)
Definition fits (cap : Z) (s : bytes) : result bytes :=
  if Z.of_nat (length s) + 1 <=? cap then Ok s else Err OutOfBounds.

Definition print_number (item : cJSON) : result bytes :=
  let d := valuedouble item in
  if dle (fabs (dsub (of_int (valueint item)) d)) DBL_EPSILON &&
     dle d (of_int INT_MAX) && dle (of_int INT_MIN) d
  then fits 21 (print_d (valueint item))
  else if dle (fabs (dsub (dfloor d) d)) DBL_EPSILON && dlt (fabs d) (of_int (10 ^ 60))
  then fits 64 (print_f0 d)
  else if dlt (fabs d) (round false 4722366482869645 (-72)) || dlt (of_int (10 ^ 9)) (fabs d)
  then fits 64 (print_e d)
  else fits 64 (print_f d).

(** [sprintf(ptr2, "u%04x", token)]. *)
Definition hex_char (v : Z) : Z := if v <? 10 then 48 + v else 87 + v.
Definition u_escape (token : Z) : bytes :=
  [117; 48; 48; hex_char (token / 16); hex_char (token mod 16)].

Definition plain_char (c : Z) : bool := (31 <? c) && negb (c =? QUOTE) && negb (c =? BACKSLASH).
Definition escape (token : Z) : bytes :=
  BACKSLASH ::
    (if token =? BACKSLASH then [BACKSLASH] else if token =? QUOTE then [QUOTE]
     else if token =? 8 then [98] else if token =? 12 then [102] else if token =? 10 then [110]
     else if token =? 13 then [114] else if token =? 9 then [116] else u_escape token).
Definition escape_string (s : bytes) : bytes :=
  mjoin ((λ c, if plain_char c then [c] else escape c) <$> s).

(** The length that [print_string_ptr] computes beforehand. *)
Definition char_length (token : Z) : Z :=
  if bool_decide (token ∈ [QUOTE; BACKSLASH; 8; 12; 10; 13; 9]) then 2
  else if token <? 32 then 6 else 1.
Definition escaped_length (s : bytes) : Z := foldr (λ c n, char_length c + n) 0 s.

Definition print_string_ptr (s : option bytes) : result bytes :=
  match s with
  | None => Ok []
  | Some s => fits (escaped_length s + 3) ([QUOTE] ++ escape_string s ++ [QUOTE])
  end.

(** All entries, or nothing when one of them failed. *)
Fixpoint all_entries {A} (l : list (option A)) : option (list A) :=
  match l with
  | [] => Some []
  | Some x :: l => match all_entries l with Some l => Some (x :: l) | None => None end
  | None :: _ => None
  end.

(** [print_value] on each of the children. *)
Definition print_each (f : cJSON → result (option bytes)) : list cJSON → result (list (option bytes)) :=
  fix go l := match l with
              | [] => Ok []
              | c :: l => e ← f c; es ← go l; Ok (e :: es)
              end.
Fixpoint print_names (l : list cJSON) : result (list bytes) :=
  match l with
  | [] => Ok []
  | c :: l => n ← print_string_ptr (name c); ns ← print_names l; Ok (n :: ns)
  end.

Definition strlens (l : list bytes) : Z := foldr (λ s n, Z.of_nat (length s) + n) 0 l.

(** The entries of an array, between commas. *)
Fixpoint array_body (fmt : bool) (l : list bytes) : bytes :=
  match l with
  | [] => []
  | [s] => s
  | s :: l => s ++ [44] ++ (if fmt then [32] else []) ++ array_body fmt l
  end.

Definition compose_array (fmt : bool) (entries : list bytes) : result bytes :=
  let len := 5 + strlens entries + Z.of_nat (length entries) * (2 + Z.b2z fmt) in
  fits len ([91] ++ array_body fmt entries ++ [93]).

Definition tabs (n : nat) : bytes := replicate n 9.

(** The members of an object, [depth] being that of the members. *)
Fixpoint object_body (fmt : bool) (depth : nat) (l : list (bytes * bytes)) : bytes :=
  match l with
  | [] => []
  | (n, e) :: l =>
      (if fmt then tabs depth else []) ++ n ++ [58] ++ (if fmt then [9] else []) ++ e ++
      (match l with [] => [] | _ => [44] end) ++ (if fmt then [10] else []) ++
      object_body fmt depth l
  end.

Definition compose_object (fmt : bool) (depth : nat) (names entries : list bytes) : result bytes :=
  let per := if fmt then 2 + Z.of_nat depth else 0 in
  let len := 7 + (if fmt then Z.of_nat depth else 0) + strlens entries + strlens names +
             Z.of_nat (length entries) * (2 + per) in
  fits len ([123] ++ (if fmt then [10] else []) ++
            object_body fmt depth (zip names entries) ++
            (if fmt then tabs (depth - 1) else []) ++ [125]).

Definition empty_object (fmt : bool) (depth : nat) : result bytes :=
  fits (if fmt then Z.of_nat depth + 4 else 3)
    ([123] ++ (if fmt then 10 :: tabs (depth - 1) else []) ++ [125]).

Fixpoint print_value (fmt : bool) (depth : nat) (item : cJSON) : result (option bytes) :=
  let ty := Z.land (type item) 255 in
  if ty =? cJSON_NULL then Ok (Some (str "null"))
  else if ty =? cJSON_False then Ok (Some (str "false"))
  else if ty =? cJSON_True then Ok (Some (str "true"))
  else if ty =? cJSON_Number then s ← print_number item; Ok (Some s)
  else if ty =? cJSON_String then s ← print_string_ptr (valuestring item); Ok (Some s)
  else if ty =? cJSON_Array then
    match item with
    | mkItem _ _ _ _ _ [] => Ok (Some [91; 93])
    | mkItem _ _ _ _ _ l =>
        entries ← print_each (print_value fmt (S depth)) l;
        match all_entries entries with
        | Some entries => s ← compose_array fmt entries; Ok (Some s)
        | None => Ok None
        end
    end
  else if ty =? cJSON_Object then
    match item with
    | mkItem _ _ _ _ _ [] => s ← empty_object fmt depth; Ok (Some s)
    | mkItem _ _ _ _ _ l =>
        names ← print_names l;
        entries ← print_each (print_value fmt (S depth)) l;
        match all_entries entries with
        | Some entries => s ← compose_object fmt (S depth) names entries; Ok (Some s)
        | None => Ok None
        end
    end
  else Ok None.

Definition cJSON_Print (item : cJSON) : result (option bytes) := print_value true 0 item.
Definition cJSON_PrintUnformatted (item : cJSON) : result (option bytes) := print_value false 0 item.

(** ** Items of arrays and objects *)

Definition cJSON_GetArraySize (array : cJSON) : nat := length (child array).

(** [while (c && which > 0)]: a negative index is the first item. *)
Definition cJSON_GetArrayItem (array : cJSON) (item : Z) : option cJSON :=
  child array !! Z.to_nat item.

(** The position of the first child with that name, upper and lower case alike. *)
Fixpoint index_of (string : option bytes) (l : list cJSON) : option nat :=
  match l with
  | [] => None
  | c :: l => if strcaseeq (name c) string then Some 0%nat else S <$> index_of string l
  end.
Definition cJSON_GetObjectItem (object : cJSON) (string : option bytes) : option cJSON :=
  i ← index_of string (child object); child object !! i.

Definition cJSON_AddItemToArray (array : cJSON) (item : cJSON) : cJSON :=
  set_child (child array ++ [item]) array.
Definition cJSON_AddItemToObject (object : cJSON) (string : bytes) (item : cJSON) : cJSON :=
  cJSON_AddItemToArray object (set_name (Some string) item).

Definition cJSON_DetachItemFromArray (array : cJSON) (which : Z) : option cJSON * cJSON :=
  (child array !! Z.to_nat which, set_child (delete (Z.to_nat which) (child array)) array).
Definition cJSON_DeleteItemFromArray (array : cJSON) (which : Z) : cJSON :=
  snd (cJSON_DetachItemFromArray array which).
Definition cJSON_DetachItemFromObject (object : cJSON) (string : option bytes)
    : option cJSON * cJSON :=
  match index_of string (child object) with
  | Some i => cJSON_DetachItemFromArray object (Z.of_nat i)
  | None => (None, object)
  end.
Definition cJSON_DeleteItemFromObject (object : cJSON) (string : option bytes) : cJSON :=
  snd (cJSON_DetachItemFromObject object string).

Definition cJSON_ReplaceItemInArray (array : cJSON) (which : Z) (newitem : cJSON) : cJSON :=
  set_child (<[Z.to_nat which := newitem]> (child array)) array.
Definition cJSON_ReplaceItemInObject (object : cJSON) (string : bytes) (newitem : cJSON) : cJSON :=
  match index_of (Some string) (child object) with
  | Some i => cJSON_ReplaceItemInArray object (Z.of_nat i) (set_name (Some string) newitem)
  | None => object
  end.

(** ** Creation *)

Definition cJSON_CreateNull : cJSON := new_item cJSON_NULL.
Definition cJSON_CreateTrue : cJSON := new_item cJSON_True.
Definition cJSON_CreateFalse : cJSON := new_item cJSON_False.
Definition cJSON_CreateBool (b : bool) : cJSON := new_item (if b then cJSON_True else cJSON_False).
Definition cJSON_CreateString (s : bytes) : cJSON := string_item s.
Definition cJSON_CreateArray : cJSON := new_item cJSON_Array.
Definition cJSON_CreateObject : cJSON := new_item cJSON_Object.

Definition cJSON_CreateIntArray (overflow : double → Z) (numbers : list Z) : cJSON :=
  set_child ((λ n, cJSON_CreateNumber overflow (of_int n)) <$> numbers) cJSON_CreateArray.
Definition cJSON_CreateDoubleArray (overflow : double → Z) (numbers : list double) : cJSON :=
  set_child (cJSON_CreateNumber overflow <$> numbers) cJSON_CreateArray.
Definition cJSON_CreateStringArray (strings : list bytes) : cJSON :=
  set_child (cJSON_CreateString <$> strings) cJSON_CreateArray.

(** The children are copied too when [recurse] is set. *)
Fixpoint cJSON_Duplicate (recurse : bool) (item : cJSON) : cJSON :=
  mkItem (Z.land (type item) (Z.lnot cJSON_IsReference)) (valuestring item) (valueint item)
    (valuedouble item) (name item)
    (if recurse then
       match item with mkItem _ _ _ _ _ l => cJSON_Duplicate true <$> l end
     else []).

(** ** Minify *)

(** Where the loop stands: in the text, in a comment of one of the two kinds, in a
    string literal, or after a backslash of one. *)
Inductive minify_mode := Text | LineComment | BlockComment | Literal | Escaped.

Fixpoint minify (mode : minify_mode) (json : bytes) : result bytes :=
  match mode, json with
  | (Text | LineComment), [] => Ok []
  | (BlockComment | Literal | Escaped), [] => Err OutOfBounds
  | Text, c :: rest =>
      if (c =? 32) || (c =? 9) || (c =? 13) || (c =? 10) then minify Text rest
      else if c =? QUOTE then out ← minify Literal rest; Ok (c :: out)
      else if (c =? 47) && bool_decide (head rest = Some 47) then minify LineComment rest
      else if (c =? 47) && bool_decide (head rest = Some 42) then minify BlockComment rest
      else out ← minify Text rest; Ok (c :: out)
  | LineComment, c :: rest =>
      if c =? 10 then minify Text rest else minify LineComment rest
  | BlockComment, c :: rest =>
      match rest with
      | 47 :: rest' => if c =? 42 then minify Text rest' else minify BlockComment rest
      | _ => minify BlockComment rest
      end
  | Literal, c :: rest =>
      out ← minify (if c =? QUOTE then Text else if c =? BACKSLASH then Escaped else Literal) rest;
      Ok (c :: out)
  | Escaped, c :: rest => out ← minify Literal rest; Ok (c :: out)
  end.

Definition cJSON_Minify (json : bytes) : result bytes := minify Text json.
