(* ===== verification/CJsonProofs.v ===== *)
(** * CJsonProofs: what the JSON reader and printer do

    [json] is the abstract value that a text stands for, [json_text] its text; the
    printer is shown to produce that text, within the buffers it allocates, and the
    reader to bring the value back. *)

From Stdlib Require Import String.
From S2P Require Import Prelude Bytes Double CJson.

(** ** Abstract values *)

Inductive json :=
  | JNull
  | JBool (b : bool)
  | JNum (z : Z)
  | JStr (s : bytes)
  | JArr (l : list json)
  | JObj (l : list (bytes * json)).

(** Induction with a hypothesis on the children. *)
Section json_induction.
Context (P : json → Prop).
Context (Pnull : P JNull) (Pbool : ∀ b, P (JBool b)) (Pnum : ∀ z, P (JNum z))
        (Pstr : ∀ s, P (JStr s)) (Parr : ∀ l, Forall P l → P (JArr l))
        (Pobj : ∀ l, Forall (λ m, P (snd m)) l → P (JObj l)).

Fixpoint json_induction (j : json) : P j :=
  match j with
  | JNull => Pnull
  | JBool b => Pbool b
  | JNum z => Pnum z
  | JStr s => Pstr s
  | JArr l =>
      Parr l ((fix go l : Forall P l :=
                 match l with [] => Forall_nil _ | j :: l => Forall_cons _ _ _ (json_induction j) (go l) end) l)
  | JObj l =>
      Pobj l ((fix go l : Forall (λ m, P (snd m)) l :=
                 match l with [] => Forall_nil _ | m :: l => Forall_cons _ _ _ (json_induction (snd m)) (go l) end) l)
  end.
End json_induction.

(** C strings hold no zero byte; the integers are those below 2^53. *)
Definition c_string (s : bytes) : Prop := Forall (λ c, 0 < c < 256) s.

Fixpoint json_ok (j : json) : Prop :=
  match j with
  | JNull | JBool _ => True
  | JNum z => exact_int z
  | JStr s => c_string s
  | JArr l => foldr (λ j P, json_ok j ∧ P) True l
  | JObj l => foldr (λ m P, (c_string (fst m) ∧ json_ok (snd m)) ∧ P) True l
  end.

(** The text of a value at a depth, formatted or not. *)
Definition string_text (s : bytes) : bytes := [QUOTE] ++ escape_string s ++ [QUOTE].

Fixpoint json_text (fmt : bool) (depth : nat) (j : json) : bytes :=
  match j with
  | JNull => str "null"
  | JBool b => if b then str "true" else str "false"
  | JNum z => print_d z
  | JStr s => string_text s
  | JArr l => [91] ++ array_body fmt (json_text fmt (S depth) <$> l) ++ [93]
  | JObj l =>
      [123] ++ (if fmt then [10] else []) ++
      object_body fmt (S depth) ((λ m, (string_text (fst m), json_text fmt (S depth) (snd m))) <$> l) ++
      (if fmt then tabs (match l with [] => depth - 1 | _ => depth end) else []) ++ [125]
  end.

Section items.
Context (pow10 : double → double) (overflow : double → Z).

(** The item that stands for a value. *)
Fixpoint item_of (j : json) : cJSON :=
  match j with
  | JNull => new_item cJSON_NULL
  | JBool b => if b then mkItem cJSON_True None 1 (Zero false) None [] else new_item cJSON_False
  | JNum z => cJSON_CreateNumber overflow (of_int z)
  | JStr s => string_item s
  | JArr l => set_child (item_of <$> l) (new_item cJSON_Array)
  | JObj l =>
      set_child ((λ m, set_name (Some (fst m)) (item_of (snd m))) <$> l) (new_item cJSON_Object)
  end.

(** ** Printing *)

Lemma fits_ok cap s : Z.of_nat (length s) + 1 ≤ cap → fits cap s = Ok s.
Proof. intros. unfold fits. by rewrite (proj2 (Z.leb_le _ _)). Qed.

Lemma length_minus b : (length (minus b) ≤ 1)%nat.
Proof. destruct b; simpl; lia. Qed.

Lemma fits_number n : exact_int n → fits 64 (print_d n) = Ok (print_d n).
Proof.
  intros Hn. apply fits_ok. unfold print_d. rewrite length_app.
  pose proof (length_minus (n <? 0)). pose proof (length_digits (Z.abs n)).
  unfold exact_int in Hn. lia.
Qed.

(** What is printed is the double, whether or not the integer agrees with it. *)
Lemma print_number_whole i z : valuedouble i = of_int z → exact_int z →
  (INT_MIN ≤ z ≤ INT_MAX → INT_MIN ≤ valueint i ≤ INT_MAX) → print_number i = Ok (print_d z).
Proof.
  intros Hd Hz Hv. unfold print_number. rewrite Hd.
  rewrite !dle_ints by (unfold exact_int, INT_MIN, INT_MAX in *; lia).
  destruct (dle (fabs (dsub (of_int (valueint i)) (of_int z))) DBL_EPSILON &&
            (z <=? INT_MAX) && (INT_MIN <=? z)) eqn:Hr.
  - apply andb_true_iff in Hr as [[Hr H1]%andb_true_iff H2].
    apply Z.leb_le in H1, H2. specialize (Hv (conj H2 H1)).
    assert (exact_int (valueint i)) as Hve by (unfold exact_int, INT_MIN, INT_MAX in *; lia).
    assert (valueint i = z) as ->.
    { destruct (decide (valueint i = z)) as [|Hne]; [done|exfalso].
      assert (exact_int (valueint i - z)) as Hx by (unfold exact_int, INT_MIN, INT_MAX in *; lia).
      rewrite dsub_ints, fabs_int in Hr by done. unfold DBL_EPSILON in Hr.
      rewrite dle_fraction in Hr by (unfold exact_int in *; lia). done. }
    apply fits_ok. unfold print_d. rewrite length_app. pose proof (length_minus (z <? 0)).
    destruct (digits_spec (Z.abs z)) as (_ & _ & _ & Hl & _); [lia|].
    assert (10 ^ Z.of_nat (length (digits (Z.abs z))) < 10 ^ 12) as H12
      by (unfold INT_MIN, INT_MAX in *; lia).
    apply Z.pow_lt_mono_r_iff in H12; lia.
  - rewrite dfloor_int, dsub_self by done. cbn [dle dcompare andb]. rewrite fabs_int by done.
    assert (dlt (of_int (Z.abs z)) (of_int (10 ^ 60)) = true) as ->.
    { unfold dlt.
      assert (of_int (10 ^ 60) = Fin 1401298464324817 149) as -> by (by vm_compute).
      unfold exact_int in Hz. rewrite dcompare_int by (unfold exact_int; lia).
      by rewrite (proj2 (Z.compare_lt_iff _ _)) by lia. }
    rewrite print_f0_int by done. by apply fits_number.
Qed.

Lemma print_number_int z : exact_int z →
  print_number (cJSON_CreateNumber overflow (of_int z)) = Ok (print_d z).
Proof.
  intros Hz. apply print_number_whole; [done|done|]. intros Hr. cbn. by rewrite to_int_int.
Qed.

(** The text of one character, and of a string that begins with it. *)
Definition char_text (c : Z) : bytes := if plain_char c then [c] else escape c.
Lemma escape_string_cons c s : escape_string (c :: s) = char_text c ++ escape_string s.
Proof. done. Qed.

Lemma escape_length c :
  Z.of_nat (length (char_text c)) ≤ char_length c.
Proof.
  unfold char_text, plain_char, escape, char_length.
  destruct (Z.ltb_spec 31 c); cbn [andb].
  - destruct (Z.eqb_spec c QUOTE) as [->|]; [by vm_compute|].
    destruct (Z.eqb_spec c BACKSLASH) as [->|]; [by vm_compute|]. cbn [negb andb].
    repeat case_match; cbn; lia.
  - case_bool_decide as Hin.
    + apply list_elem_of_In in Hin. cbn in Hin.
      destruct_or! Hin; subst; try lia; by vm_compute.
    + rewrite (proj2 (Z.ltb_lt c 32)) by lia.
      repeat case_match; unfold u_escape; cbn; lia.
Qed.

Lemma escape_string_length s : Z.of_nat (length (escape_string s)) ≤ escaped_length s.
Proof.
  induction s as [|c s IH]; [done|]. rewrite escape_string_cons, length_app.
  cbn [escaped_length foldr]. pose proof (escape_length c). unfold escaped_length in IH. lia.
Qed.

Lemma print_string_text s : print_string_ptr (Some s) = Ok (string_text s).
Proof.
  unfold print_string_ptr, string_text. apply fits_ok. rewrite !length_app. cbn [length].
  pose proof (escape_string_length s). lia.
Qed.

Lemma print_each_ok f (l : list cJSON) (ts : list bytes) :
  Forall2 (λ c t, f c = Ok (Some t)) l ts → print_each f l = Ok (Some <$> ts).
Proof. induction 1 as [|c t l ts E _ IH]; [done|]. cbn [print_each]. by rewrite E, bind_ok, IH. Qed.

Lemma all_entries_some {B} (l : list B) : all_entries (Some <$> l) = Some l.
Proof. induction l as [|x l IH]; [done|]. cbn. by rewrite IH. Qed.

Lemma array_body_cons fmt s t l :
  array_body fmt (s :: t :: l) =
    s ++ [44] ++ (if fmt then [32] else []) ++ array_body fmt (t :: l).
Proof. done. Qed.

Lemma array_body_length fmt l :
  Z.of_nat (length (array_body fmt l)) ≤ strlens l + Z.of_nat (length l) * (1 + Z.b2z fmt).
Proof.
  unfold strlens. induction l as [|s l IH]; [done|]. destruct l as [|t l].
  - cbn [array_body foldr length]. destruct fmt; cbn [Z.b2z]; lia.
  - rewrite array_body_cons, !length_app, !Nat2Z.inj_add. cbn [foldr length] in IH |- *.
    destruct fmt; cbn [Z.b2z length] in *; lia.
Qed.

Lemma compose_array_ok fmt l :
  compose_array fmt l = Ok ([91] ++ array_body fmt l ++ [93]).
Proof.
  unfold compose_array. apply fits_ok. rewrite !length_app, !Nat2Z.inj_add. cbn [length].
  pose proof (array_body_length fmt l). destruct fmt; cbn [Z.b2z] in *; lia.
Qed.

Lemma object_body_length fmt depth ns es : length ns = length es →
  Z.of_nat (length (object_body fmt depth (zip ns es))) ≤
    strlens es + strlens ns + Z.of_nat (length es) * (2 + if fmt then 2 + Z.of_nat depth else 0).
Proof.
  unfold strlens. revert es. induction ns as [|n ns IH]; intros [|e es] Hl; try done.
  cbn [zip object_body foldr length]. rewrite !length_app, !Nat2Z.inj_add.
  injection Hl as Hl. specialize (IH es Hl). unfold tabs.
  destruct (zip ns es); destruct fmt; rewrite ?length_replicate; cbn [length zip_with] in *; lia.
Qed.

Lemma compose_object_ok fmt depth ns es : length ns = length es →
  compose_object fmt depth ns es =
    Ok ([123] ++ (if fmt then [10] else []) ++ object_body fmt depth (zip ns es) ++
        (if fmt then tabs (depth - 1) else []) ++ [125]).
Proof.
  intros Hl. unfold compose_object. apply fits_ok.
  rewrite !length_app, !Nat2Z.inj_add. pose proof (object_body_length fmt depth ns es Hl).
  unfold tabs. destruct fmt; rewrite ?length_replicate; cbn [length] in *; lia.
Qed.

Lemma item_of_type j :
  type (item_of j) = match j with
                     | JNull => cJSON_NULL
                     | JBool b => if b then cJSON_True else cJSON_False
                     | JNum _ => cJSON_Number
                     | JStr _ => cJSON_String
                     | JArr _ => cJSON_Array
                     | JObj _ => cJSON_Object
                     end.
Proof. by destruct j as [|[]| | | |]. Qed.

Lemma print_value_name fmt depth n i :
  print_value fmt depth (set_name n i) = print_value fmt depth i.
Proof. by destruct i as [? ? ? ? ? []]. Qed.

Lemma foldr_Forall {B} (P : B → Prop) l : foldr (λ x Q, P x ∧ Q) True l → Forall P l.
Proof. induction l as [|x l IH]; [done|]. intros [Hx Hl]. constructor; [done|]. by apply IH. Qed.

Lemma print_names_ok (l : list (bytes * json)) :
  print_names ((λ m, set_name (Some (fst m)) (item_of (snd m))) <$> l) =
    Ok ((λ m, string_text (fst m)) <$> l).
Proof.
  induction l as [|m l IH]; [done|]. rewrite !fmap_cons. cbn [print_names].
  change (name (set_name (Some (fst m)) (item_of (snd m)))) with (Some (fst m)).
  by rewrite print_string_text, bind_ok, IH.
Qed.

Lemma zip_fmap {B C D} (f : B → C) (g : B → D) l : zip (f <$> l) (g <$> l) = (λ x, (f x, g x)) <$> l.
Proof. induction l as [|x l IH]; [done|]. cbn. by rewrite <- IH. Qed.

Lemma Forall2_maps {B C D} (P Q : B → Prop) (R : C → D → Prop) f g l :
  Forall P l → Forall Q l → (∀ x, P x → Q x → R (f x) (g x)) → Forall2 R (f <$> l) (g <$> l).
Proof.
  intros HP HQ HR. induction HP as [|x l Hx _ IH]; [constructor|].
  inversion HQ; subst. constructor; [by apply HR|by apply IH].
Qed.

(** The printer produces the text of the value, and every buffer suffices. *)
Lemma print_value_text fmt j : json_ok j →
  ∀ depth, print_value fmt depth (item_of j) = Ok (Some (json_text fmt depth j)).
Proof.
  induction j as [|[]|z|s|l IH|l IH] using json_induction; cbn [json_ok]; intros Hok depth;
    try done.
  - change (print_value fmt depth (item_of (JNum z))) with
      (s ← print_number (item_of (JNum z)); mret (M:=result) (Some s)).
    cbn [item_of]. by rewrite print_number_int, bind_ok.
  - change (print_value fmt depth (item_of (JStr s))) with
      (s ← print_string_ptr (Some s); mret (M:=result) (Some s)).
    by rewrite print_string_text, bind_ok.
  - apply foldr_Forall in Hok. destruct l as [|j l]; [done|].
    change (print_value fmt depth (item_of (JArr (j :: l)))) with
      (entries ← print_each (print_value fmt (S depth)) (item_of <$> j :: l);
       match all_entries entries with
       | Some entries => s ← compose_array fmt entries; mret (M:=result) (Some s)
       | None => mret None
       end).
    rewrite (print_each_ok _ _ (json_text fmt (S depth) <$> j :: l)).
    + rewrite bind_ok, all_entries_some, compose_array_ok. done.
    + eapply Forall2_maps; [exact IH|exact Hok|]. intros x Hx Ho. by apply Hx.
  - apply (foldr_Forall (λ m, c_string (fst m) ∧ json_ok (snd m))) in Hok. destruct l as [|m l].
    { cbn. unfold empty_object. rewrite fits_ok; [by destruct fmt|].
      rewrite !length_app. unfold tabs. destruct fmt; cbn [length];
        rewrite ?length_replicate; lia. }
    change (print_value fmt depth (item_of (JObj (m :: l)))) with
      (names ← print_names ((λ m, set_name (Some (fst m)) (item_of (snd m))) <$> m :: l);
       entries ← print_each (print_value fmt (S depth))
                   ((λ m, set_name (Some (fst m)) (item_of (snd m))) <$> m :: l);
       match all_entries entries with
       | Some entries => s ← compose_object fmt (S depth) names entries; mret (M:=result) (Some s)
       | None => mret None
       end).
    rewrite print_names_ok, bind_ok.
    rewrite (print_each_ok _ _ ((λ m, json_text fmt (S depth) (snd m)) <$> m :: l)).
    + rewrite bind_ok, all_entries_some, compose_object_ok by by rewrite !length_fmap.
      rewrite bind_ok, zip_fmap. cbn [json_text]. do 2 f_equal.
      by rewrite Nat.sub_succ, Nat.sub_0_r.
    + eapply Forall2_maps; [exact IH|exact Hok|]. intros x Hx [_ Ho].
      rewrite print_value_name. by apply Hx.
Qed.
End items.
