(* ===== verification/CJsonParse.v ===== *)
(** * CJsonParse: the reader gives back what the printer wrote

    The round trip of the JSON text, formatted or not, in three steps: numbers,
    strings, and values by induction; then that the recursion of the reader always
    ends, and what it does with texts that are not JSON. *)

From Stdlib Require Import String.
From S2P Require Import Prelude Bytes Double CJson CJsonProofs.

(** ** Characters *)

Lemma next_same c s : next c (c :: s) = Some s.
Proof. cbn. by rewrite Z.eqb_refl. Qed.
Lemma next_other c d s : d ≠ c → next c (d :: s) = None.
Proof. intros. cbn. by rewrite (proj2 (Z.eqb_neq _ _)). Qed.

Lemma skip_visible c s : 32 < c → skip (c :: s) = c :: s.
Proof. intros. cbn. by rewrite (proj2 (Z.leb_gt _ _)). Qed.
Lemma skip_blank c s : c ≤ 32 → skip (c :: s) = skip s.
Proof. intros. cbn. by rewrite (proj2 (Z.leb_le _ _)). Qed.
Lemma skip_tabs n s : skip (tabs n ++ s) = skip s.
Proof. induction n; [done|]. by cbn. Qed.

Lemma skip_skip s : skip (skip s) = skip s.
Proof.
  induction s as [|c s IH]; [done|]. cbn [skip]. destruct (c <=? 32) eqn:E; [done|].
  cbn [skip]. by rewrite E.
Qed.

Lemma Forall_mp {B} (P Q : B → Prop) l : Forall (λ x, P x → Q x) l → Forall P l → Forall Q l.
Proof. intros HPQ HP. induction HP; [done|]. inversion HPQ; subst. constructor; auto. Qed.

(** What may follow a number. *)
Definition stops (rest : bytes) : Prop :=
  match rest with [] => True | c :: _ => digit c = false ∧ c ≠ 46 ∧ is_e c = false end.

Lemma digit_true c : is_digit c → digit c = true.
Proof. unfold is_digit, digit. intros. apply andb_true_iff. lia. Qed.

(** ** Numbers *)

Lemma number_grows ds k : Forall is_digit ds → 0 ≤ k → k ≤ number ds k.
Proof.
  revert k. induction ds as [|d ds IH]; intros k Hd Hk; [done|]. inversion Hd; subst.
  unfold number, is_digit in *. cbn [foldl]. etransitivity; [|apply IH; [done|lia]]. lia.
Qed.

Lemma add_digit_int k d :
  is_digit d → 0 ≤ k → exact_int (k * 10 + (d - 48)) →
  add_digit (of_int k) d = of_int (k * 10 + (d - 48)).
Proof.
  unfold exact_int, is_digit. intros Hd Hk He. unfold add_digit.
  rewrite dmul_int by (unfold exact_int; lia). rewrite dadd_int by (unfold exact_int; lia). done.
Qed.

Lemma read_digits_int ds rest k :
  Forall is_digit ds → 0 ≤ k → exact_int (number ds k) → stops rest →
  read_digits (of_int k) (ds ++ rest) = (of_int (number ds k), rest).
Proof.
  intros Hd. revert k. induction Hd as [|d ds Hd Hds IH]; intros k Hk He Hs.
  - destruct rest as [|c rest]; [done|]. destruct Hs as [Hc _]. cbn. by rewrite Hc.
  - cbn [app read_digits]. rewrite digit_true by done. unfold number in He. cbn [foldl] in He.
    assert (0 ≤ k * 10 + (d - 48)) as Hk' by (unfold is_digit in Hd; lia).
    pose proof (number_grows ds _ Hds Hk') as Hg. unfold number in Hg.
    rewrite add_digit_int by (first [done | unfold exact_int in *; lia]). by apply IH.
Qed.

(** ** Strings *)

(** A character that is printed with a backslash: one of two, or a control character. *)
Lemma char_cases c : 0 < c < 256 →
  char_text c = [c] ∧ c ≠ QUOTE ∧ c ≠ BACKSLASH ∨
  c ∈ [QUOTE; BACKSLASH] ++ seqZ 1 31.
Proof.
  intros Hc. destruct (decide (c ∈ [QUOTE; BACKSLASH] ++ seqZ 1 31)) as [|Hn]; [by right|left].
  rewrite elem_of_app, elem_of_seqZ, !elem_of_cons in Hn.
  assert (c ≠ QUOTE) by tauto. assert (c ≠ BACKSLASH) by tauto. split; [|done].
  unfold char_text, plain_char. by rewrite (proj2 (Z.ltb_lt _ _)), !(proj2 (Z.eqb_neq _ _)) by lia.
Qed.

Ltac each_char H :=
  repeat (apply elem_of_cons in H as [->|H]); [..|by apply elem_of_nil in H].

Lemma scan_char c t n : 0 < c < 256 → scan t = Ok n →
  ∃ m, scan (char_text c ++ t) = Ok m ∧ (n < m)%nat.
Proof.
  intros Hc Ht. destruct (char_cases c Hc) as [(-> & Hq & Hb)|Hin].
  - exists (S n). cbn. rewrite !(proj2 (Z.eqb_neq _ _)) by done. rewrite Ht. split; [done|lia].
  - vm_compute in Hin. each_char Hin; cbn; rewrite Ht; eexists; (split; [done|lia]).
Qed.

Lemma decode_char c t cap count : 0 < c < 256 →
  decode cap count (char_text c ++ t) = emit cap count [c] (decode cap (count + 1) t).
Proof.
  intros Hc. destruct (char_cases c Hc) as [(-> & Hq & Hb)|Hin].
  - cbn. by rewrite !(proj2 (Z.eqb_neq _ _)) by done.
  - vm_compute in Hin. each_char Hin; reflexivity.
Qed.

Lemma scan_text s rest : c_string s →
  ∃ n, scan (escape_string s ++ QUOTE :: rest) = Ok n ∧ (length s ≤ n)%nat.
Proof.
  induction 1 as [|c s Hc _ (n & IH & Hn)]; [by exists 0%nat|].
  rewrite escape_string_cons, <- app_assoc.
  destruct (scan_char c _ n Hc IH) as (m & E & Hm). exists m. split; [done|cbn; lia].
Qed.

Lemma decode_text s rest cap count : c_string s → (count + length s < cap)%nat →
  decode cap count (escape_string s ++ QUOTE :: rest) = Ok (s, QUOTE :: rest).
Proof.
  intros Hs. revert count. induction Hs as [|c s Hc _ IH]; cbn [length]; intros count Hl.
  - cbn. by rewrite decide_True by lia.
  - rewrite escape_string_cons, <- app_assoc, decode_char, IH by lia || done.
    unfold emit. by rewrite decide_True by (cbn; lia).
Qed.

Lemma parse_string_text s rest : c_string s →
  parse_string (string_text s ++ rest) = Ok (Some (s, rest)).
Proof.
  intros Hs. unfold string_text. rewrite <- !app_assoc. cbn [app parse_string].
  rewrite Z.eqb_refl. destruct (scan_text s rest Hs) as (n & E & Hn).
  rewrite E, bind_ok, decode_text, bind_ok by (first [done|lia]). by rewrite Z.eqb_refl.
Qed.

Section reading.
Context (pow10 : double → double) (overflow : double → Z).
Context (pow10_0 : pow10 (Zero false) = of_int 1).

Lemma stops_point n rest : stops rest → read_point n rest = (n, Zero false, rest).
Proof.
  destruct rest as [|c rest]; [done|]. intros (_ & Hc & _). unfold read_point.
  by rewrite next_other.
Qed.
Lemma stops_e rest : stops rest → read_e rest = Ok (0, 1, rest).
Proof. destruct rest as [|c rest]; [done|]. intros (_ & _ & Hc). cbn. by rewrite Hc. Qed.

Lemma read_whole_zero rest : stops rest → read_whole (48 :: rest) = (of_int 0, rest).
Proof.
  intros Hs. unfold read_whole. rewrite next_same. cbn [from_option id].
  destruct rest as [|c rest]; [done|]. destruct Hs as [Hc _]. unfold digit in Hc.
  rewrite (proj2 (andb_false_iff _ _)); [done|]. apply andb_false_iff in Hc. lia.
Qed.

Lemma read_whole_digits n rest : 0 < n → exact_int n → stops rest →
  read_whole (digits n ++ rest) = (of_int n, rest).
Proof.
  intros Hn He Hs. destruct (digits_spec n) as (Hd & Hv & Hl & _ & Hh); [lia|].
  destruct (digits n) as [|d ds] eqn:Eds; [cbn in Hl; lia|].
  assert (d ≠ 48) as Hne by (intros ->; apply Hh; [lia|done]).
  pose proof (Forall_inv Hd) as Hd0. unfold is_digit in Hd0.
  unfold read_whole. cbn [app]. rewrite next_other by done. cbn [from_option id].
  rewrite (proj2 (andb_true_iff _ _)) by lia. rewrite <- of_int_0.
  change (d :: ds ++ rest) with ((d :: ds) ++ rest).
  rewrite read_digits_int; rewrite ?Hv; done.
Qed.

Lemma read_whole_text n rest : 0 ≤ n → exact_int n → stops rest →
  read_whole (digits n ++ rest) = (of_int n, rest).
Proof.
  intros Hn He Hs. destruct (decide (n = 0)) as [->|]; [by apply read_whole_zero|].
  apply read_whole_digits; [lia|done|done].
Qed.

Lemma next_minus_digits n rest : 0 ≤ n → next 45 (digits n ++ rest) = None.
Proof.
  intros Hn. destruct (digits_spec n) as (Hd & _ & Hl & _); [lia|].
  destruct (digits n) as [|d ds]; [cbn in Hl; lia|].
  apply next_other. pose proof (Forall_inv Hd) as H. unfold is_digit in H. lia.
Qed.

Lemma parse_number_text z rest : exact_int z → stops rest →
  parse_number pow10 overflow (print_d z ++ rest) =
    Ok (cJSON_CreateNumber overflow (of_int z), rest).
Proof.
  intros Hz Hs. unfold print_d, parse_number. rewrite <- app_assoc.
  assert (exact_int (Z.abs z)) as Ha by (unfold exact_int in *; lia).
  assert (∀ x, dmul x (pow10 (dadd (Zero false) (of_int (0 * 1)))) = dmul x (of_int 1)) as Hp.
  { intros x. change (dadd (Zero false) (of_int (0 * 1))) with (Zero false). by rewrite pow10_0. }
  destruct (Z.ltb_spec z 0) as [Hneg|Hpos]; cbn [minus app].
  - rewrite next_same, read_whole_text, stops_point, stops_e by (first [done|lia]).
    rewrite bind_ok, Hp, !dmul_int by (first [unfold exact_int in *; lia]).
    by replace (-1 * Z.abs z * 1) with z by lia.
  - rewrite next_minus_digits, read_whole_text, stops_point, stops_e by (first [done|lia]).
    rewrite bind_ok, Hp, !dmul_int by (first [unfold exact_int in *; lia]).
    by replace (1 * Z.abs z * 1) with z by lia.
Qed.
(** ** Values *)

#[local] Abbreviation parse_value := (parse_value pow10 overflow).
#[local] Abbreviation parse_elements := (parse_elements pow10 overflow).
#[local] Abbreviation parse_members := (parse_members pow10 overflow).
#[local] Abbreviation item_of := (item_of overflow).

Lemma after_prefix_other word c d rest : d ≠ c → after_prefix (c :: word) (d :: rest) = None.
Proof. intros. cbn. by rewrite (proj2 (Z.eqb_neq _ _)). Qed.

(** A value that is no word is told by its first character. *)
Lemma parse_value_char fuel c rest : c ≠ 110 → c ≠ 102 → c ≠ 116 →
  parse_value (S fuel) (c :: rest) =
    if c =? QUOTE then
      andThen (of_string (parse_string (c :: rest))) (λ s r, Parsed (string_item s) r)
    else if (c =? 45) || digit c then of_number (parse_number pow10 overflow (c :: rest))
    else if c =? 91 then
      match next 93 (skip rest) with
      | Some r => Parsed (new_item cJSON_Array) r
      | None => andThen (parse_elements fuel (skip rest))
                  (λ l r, Parsed (set_child l (new_item cJSON_Array)) r)
      end
    else if c =? 123 then
      match next 125 (skip rest) with
      | Some r => Parsed (new_item cJSON_Object) r
      | None => andThen (parse_members fuel (skip rest))
                  (λ l r, Parsed (set_child l (new_item cJSON_Object)) r)
      end
    else Malformed.
Proof.
  intros. cbn [CJson.parse_value].
  change (str "null") with (110 :: str "ull"). change (str "false") with (102 :: str "alse").
  change (str "true") with (116 :: str "rue"). by rewrite !after_prefix_other by done.
Qed.

(** The first character of a number and of any value. *)
Lemma print_d_head z : ∃ c t, print_d z = c :: t ∧ (c = 45 ∨ is_digit c).
Proof.
  unfold print_d. destruct (z <? 0); cbn [minus app]; [by eauto|].
  destruct (digits_spec (Z.abs z)) as (Hd & _ & Hl & _); [lia|].
  destruct (digits (Z.abs z)) as [|d ds]; [cbn in Hl; lia|].
  apply Forall_inv in Hd. by eauto.
Qed.

Lemma json_text_head fmt depth j : ∃ c t, json_text fmt depth j = c :: t ∧ 32 < c ∧ c ≠ 93.
Proof.
  destruct j as [|[]|z|s|l|l]; try (eexists _, _; split; [reflexivity|done]).
  destruct (print_d_head z) as (c & t & E & Hc). exists c, t. cbn. rewrite E.
  unfold is_digit in Hc. split; [done|lia].
Qed.

(** What [parse_value] does with the text of [j], whatever the layout. *)
Definition reads (j : json) : Prop := ∀ fmt depth rest fuel,
  stops rest → (2 * length (json_text fmt depth j) ≤ fuel)%nat →
  parse_value fuel (json_text fmt depth j ++ rest) = Parsed (item_of j) rest.

Lemma skip_text fmt depth j rest :
  skip (json_text fmt depth j ++ rest) = json_text fmt depth j ++ rest.
Proof.
  destruct (json_text_head fmt depth j) as (c & t & -> & Hc & _). by apply skip_visible.
Qed.

Lemma parse_elements_text fmt depth l rest : l ≠ [] → Forall reads l → ∀ fuel value,
  (2 * length (array_body fmt (json_text fmt depth <$> l)) < fuel)%nat →
  skip value = array_body fmt (json_text fmt depth <$> l) ++ 93 :: rest →
  parse_elements fuel value = Parsed (item_of <$> l) rest.
Proof.
  intros Hne Hl. induction Hl as [|j l Hj _ IH]; [done|]. intros [|fuel] value Hf Hv; [lia|].
  cbn [CJson.parse_elements]. rewrite Hv. rewrite !fmap_cons in Hf |- *.
  destruct l as [|k l].
  - cbn [fmap list_fmap array_body] in Hf |- *. rewrite Hj by (done || lia).
    cbn [andThen]. by rewrite skip_visible by lia.
  - rewrite !fmap_cons, array_body_cons in Hf |- *. rewrite !length_app in Hf.
    rewrite <- !app_assoc.
    rewrite Hj by (done || lia). cbn [andThen app]. rewrite skip_visible, next_same by lia.
    rewrite (IH ltac:(done)); [done|rewrite !fmap_cons in *; cbn [length] in Hf; lia|].
    rewrite fmap_cons. destruct fmt; cbn [app]; rewrite ?(skip_blank 32) by lia;
      destruct l; cbn [fmap list_fmap array_body]; rewrite <- ?app_assoc; apply skip_text.
Qed.

Lemma skip_name (fmt : bool) depth s rest :
  skip ((if fmt : bool then tabs depth else []) ++ string_text s ++ rest) = string_text s ++ rest.
Proof. destruct fmt; [rewrite skip_tabs|]; by apply skip_visible. Qed.

Lemma skip_if (fmt : bool) c rest :
  c ≤ 32 → skip ((if fmt then [c] else []) ++ rest) = skip rest.
Proof. intros. destruct fmt; [by apply skip_blank|done]. Qed.

Lemma object_body_cons fmt depth n e l :
  object_body fmt depth ((n, e) :: l) =
    (if fmt then tabs depth else []) ++ n ++ [58] ++ (if fmt then [9] else []) ++ e ++
    (match l with [] => [] | _ => [44] end) ++ (if fmt then [10] else []) ++
    object_body fmt depth l.
Proof. done. Qed.

(** A number ends before a blank. *)
Lemma stops_blank c rest : c ≤ 32 → stops (c :: rest).
Proof.
  intros. unfold stops, digit, is_e. rewrite andb_false_iff, orb_false_iff. lia.
Qed.
Lemma stops_brace r rest : skip r = 125 :: rest → stops r.
Proof.
  destruct r as [|c r]; [done|]. cbn [skip]. destruct (Z.leb_spec c 32).
  - intros _. by apply stops_blank.
  - by intros [= -> ->].
Qed.

Lemma parse_members_text fmt depth l tail rest :
  l ≠ [] → Forall (λ m, c_string (fst m)) l → Forall (λ m, reads (snd m)) l →
  skip (tail ++ 125 :: rest) = 125 :: rest →
  let body := object_body fmt (S depth)
                ((λ m, (string_text (fst m), json_text fmt (S depth) (snd m))) <$> l) in
  ∀ fuel value, (2 * length body < fuel)%nat →
  skip value = skip (body ++ tail ++ 125 :: rest) →
  parse_members fuel value =
    Parsed ((λ m, set_name (Some (fst m)) (item_of (snd m))) <$> l) rest.
Proof.
  intros Hne Hn Hl Ht. cbv zeta. induction Hl as [|[n j] l Hj _ IH]; [done|].
  inversion Hn as [|? ? Hs Hns]; subst. cbn [fst snd] in *.
  intros [|fuel] value Hf Hv; [lia|]. cbn [CJson.parse_members]. rewrite Hv.
  rewrite fmap_cons, object_body_cons in Hf |- *. rewrite !length_app in Hf. cbn [fst snd] in *.
  rewrite <- !app_assoc, skip_name, parse_string_text by done. cbn [of_string andThen app].
  rewrite skip_visible, next_same, skip_if, skip_text by lia.
  destruct l as [|m l].
  - cbn [fmap list_fmap object_body app] in Hf |- *.
    assert (skip ((if fmt then [10] else []) ++ tail ++ 125 :: rest) = 125 :: rest) as Hb
      by (by rewrite skip_if).
    rewrite Hj; [|by apply stops_brace in Hb|lia]. cbn [andThen]. by rewrite Hb.
  - rewrite fmap_cons in Hf |- *. cbn [app]. rewrite Hj by (done || lia). cbn [andThen].
    rewrite skip_visible, next_same by lia.
    rewrite (IH ltac:(done) Hns); [done|rewrite fmap_cons; cbn [length] in Hf; lia|].
    by rewrite skip_if.
Qed.

Lemma reads_intro j :
  (∀ fmt depth rest fuel, stops rest → (2 * length (json_text fmt depth j) ≤ S fuel)%nat →
   parse_value (S fuel) (json_text fmt depth j ++ rest) = Parsed (item_of j) rest) → reads j.
Proof.
  intros H fmt depth rest [|fuel] Hs Hf; [|by apply H].
  destruct (json_text_head fmt depth j) as (c & t & E & _). rewrite E in Hf. cbn in Hf. lia.
Qed.

Lemma array_body_head fmt depth j l rest : ∃ c t,
  array_body fmt (json_text fmt depth <$> j :: l) ++ rest = c :: t ∧ 32 < c ∧ c ≠ 93.
Proof.
  destruct (json_text_head fmt depth j) as (c & t & E & Hc). exists c.
  destruct l as [|k l].
  - exists (t ++ rest). cbn. by rewrite E.
  - rewrite !fmap_cons, array_body_cons, E. eexists. split; [reflexivity|done].
Qed.

Lemma read_array l : Forall reads l → reads (JArr l).
Proof.
  intros Hl. apply reads_intro. intros fmt depth rest fuel Hs Hf. cbn [json_text app] in Hf |- *.
  rewrite parse_value_char by lia.
  cbn [Z.eqb Pos.eqb QUOTE digit Z.leb andb orb Z.compare Pos.compare Pos.compare_cont].
  destruct l as [|j l]; [done|]. rewrite <- app_assoc. cbn [app length] in Hf |- *.
  rewrite length_app in Hf. cbn [length] in Hf.
  destruct (array_body_head fmt (S depth) j l (93 :: rest)) as (c & t & E & Hc & Hne).
  rewrite E, skip_visible, next_other by done.
  rewrite (parse_elements_text fmt (S depth) (j :: l) rest); [done..|lia|].
  by rewrite E, skip_visible.
Qed.

Lemma skip_tail (fmt : bool) depth rest :
  skip ((if fmt then tabs depth else []) ++ 125 :: rest) = 125 :: rest.
Proof. destruct fmt; [rewrite skip_tabs|]; by apply skip_visible. Qed.

Lemma read_object l :
  Forall (λ m, c_string (fst m)) l → Forall (λ m, reads (snd m)) l → reads (JObj l).
Proof.
  intros Hn Hl. apply reads_intro. intros fmt depth rest fuel Hs Hf.
  cbn [json_text app] in Hf |- *. rewrite parse_value_char by lia.
  cbn [Z.eqb Pos.eqb QUOTE digit Z.leb andb orb Z.compare Pos.compare Pos.compare_cont].
  rewrite <- !app_assoc, skip_if by lia. destruct l as [|[n j] l].
  { cbn [fmap list_fmap object_body app]. by rewrite skip_tail. }
  cbn [length] in Hf. rewrite !length_app in Hf.
  rewrite fmap_cons, object_body_cons at 1. rewrite <- !app_assoc. cbn [fst].
  rewrite skip_name. unfold string_text at 1. cbn [app]. rewrite next_other by done.
  rewrite (parse_members_text fmt depth ((n, j) :: l) (if fmt then tabs depth else []) rest);
    try done; [apply skip_tail|cbn [length] in Hf; lia|apply skip_skip].
Qed.

(** The reader brings back the value that a text stands for, whatever the layout. *)
Lemma reads_ok j : json_ok j → reads j.
Proof.
  induction j as [|b|z|s|l IH|l IH] using json_induction; cbn [json_ok]; intros Hok.
  - by apply reads_intro.
  - apply reads_intro. by destruct b.
  - apply reads_intro. intros fmt depth rest fuel Hs _. cbn [json_text].
    destruct (print_d_head z) as (c & t & E & Hc). unfold is_digit in Hc. rewrite E. cbn [app].
    rewrite parse_value_char by lia. rewrite (proj2 (Z.eqb_neq _ _)) by (unfold QUOTE; lia).
    assert ((c =? 45) || digit c = true) as ->.
    { unfold digit. rewrite orb_true_iff, andb_true_iff. lia. }
    change (c :: t ++ rest) with ((c :: t) ++ rest). rewrite <- E.
    by rewrite parse_number_text.
  - apply reads_intro. intros fmt depth rest fuel _ _. cbn [json_text].
    unfold string_text at 1. cbn [app]. rewrite parse_value_char by (unfold QUOTE; lia).
    rewrite Z.eqb_refl. change (QUOTE :: ?t) with (string_text s ++ rest).
    by rewrite parse_string_text.
  - apply foldr_Forall in Hok. apply read_array.
    by apply (Forall_mp json_ok).
  - apply (foldr_Forall (λ m, c_string (fst m) ∧ json_ok (snd m))) in Hok.
    apply read_object; [|apply (Forall_mp (λ m, c_string (fst m) ∧ json_ok (snd m)))];
      [|eapply Forall_impl; [|exact IH]|done]; [eapply Forall_impl; [|exact Hok]|]; cbn; tauto.
Qed.
(** [cJSON_Parse] of a text that the printer wrote. *)
Lemma parse_text fmt depth j : json_ok j →
  cJSON_Parse pow10 overflow (json_text fmt depth j) = Ok (Some (item_of j)).
Proof.
  intros Hok. unfold cJSON_Parse, cJSON_ParseWithOpts.
  rewrite <- (app_nil_r (json_text fmt depth j)), skip_text.
  rewrite (reads_ok j Hok); [done|done|]. unfold enough. rewrite length_app. lia.
Qed.
End reading.

(** ** The reader ends *)

(** A result leaves less text than there was, and the fuel was enough. *)
Definition consumes {A} (value : bytes) (m : parsed A) : Prop :=
  match m with
  | Parsed _ rest => (length rest < length value)%nat
  | OutOfFuel => False
  | Malformed | Faulty _ => True
  end.

Lemma skip_length s : (length (skip s) ≤ length s)%nat.
Proof. induction s as [|c s IH]; [done|]. cbn. case_match; cbn; lia. Qed.

Lemma next_length c s r : next c s = Some r → length s = S (length r).
Proof. destruct s as [|d s]; [done|]. cbn. case_match; intros; by simplify_eq. Qed.

Lemma after_prefix_length w s r : after_prefix w s = Some r → (length w + length r = length s)%nat.
Proof.
  revert s. induction w as [|c w IH]; intros [|d s]; cbn; intros E; simplify_eq; try done.
  case_match; [|done]. apply IH in E. lia.
Qed.

Lemma read_digits_length s : ∀ n, (length (snd (read_digits n s)) ≤ length s)%nat.
Proof.
  induction s as [|c s IH]; intros n; [done|]. cbn. case_match; [|done].
  specialize (IH (add_digit n c)). lia.
Qed.
Lemma read_fraction_length s : ∀ n k, (length (snd (read_fraction n k s)) ≤ length s)%nat.
Proof.
  induction s as [|c s IH]; intros n k; [done|]. cbn [read_fraction length].
  case_match; [|done]. specialize (IH (add_digit n c) (dsub k (of_int 1))). lia.
Qed.
Lemma read_exponent_length s : ∀ k v r, read_exponent k s = Ok (v, r) → (length r ≤ length s)%nat.
Proof.
  induction s as [|c s IH]; intros k v r; cbn [read_exponent]; [by intros [= _ <-]|].
  repeat case_match; intros E; simplify_eq; [|done]. apply IH in E. cbn. lia.
Qed.

Lemma read_whole_le s : (length (snd (read_whole s)) ≤ length s)%nat.
Proof.
  unfold read_whole. destruct (next 48 s) as [r|] eqn:E; cbn [from_option id].
  - apply next_length in E. destruct r as [|c r]; [cbn; lia|].
    case_match; [|cbn in *; lia]. pose proof (read_digits_length (c :: r) (Zero false)). lia.
  - destruct s as [|c s]; [done|]. case_match; [apply read_digits_length|done].
Qed.

(** A digit is taken: a zero by itself, another one with those that follow. *)
Lemma read_whole_digit c s : digit c = true →
  (length (snd (read_whole (c :: s))) < S (length s))%nat.
Proof.
  intros Hc. unfold read_whole. destruct (decide (c = 48)) as [->|Hne].
  - rewrite next_same. cbn [from_option id]. destruct s as [|d s]; [cbn; lia|].
    case_match; [|cbn; lia]. pose proof (read_digits_length (d :: s) (Zero false)). lia.
  - rewrite next_other by done. cbn [from_option id]. unfold digit in Hc.
    rewrite (proj2 (andb_true_iff _ _)) by (apply andb_true_iff in Hc; lia).
    cbn [read_digits]. unfold digit. rewrite Hc.
    pose proof (read_digits_length s (add_digit (Zero false) c)). lia.
Qed.

Lemma read_point_length n s : (length (snd (read_point n s)) ≤ length s)%nat.
Proof.
  unfold read_point. destruct (next 46 s) as [[|c r]|] eqn:E; try done. apply next_length in E.
  case_match; [|done]. pose proof (read_fraction_length (c :: r) n (Zero false)). lia.
Qed.

Lemma read_sign_length s : (length (snd (read_sign s)) ≤ length s)%nat.
Proof.
  unfold read_sign. destruct (next 43 s) eqn:E3; [apply next_length in E3; cbn; lia|].
  destruct (next 45 s) eqn:E4; [apply next_length in E4; cbn; lia|done].
Qed.

Lemma read_e_length s a b r : read_e s = Ok (a, b, r) → (length r ≤ length s)%nat.
Proof.
  unfold read_e. destruct s as [|c s]; [by intros [= _ _ <-]|].
  case_match; [|by intros [= _ _ <-]]. pose proof (read_sign_length s) as Hs.
  destruct (read_sign s) as [g t].
  intros ([v t'] & Ev & [= _ _ <-])%bind_ok_inv. apply read_exponent_length in Ev. cbn in *. lia.
Qed.

Lemma parse_number_length pow10 overflow c s i r : c = 45 ∨ digit c = true →
  parse_number pow10 overflow (c :: s) = Ok (i, r) → (length r < S (length s))%nat.
Proof.
  intros Hc. unfold parse_number.
  assert (∃ sign num n t,
    match next 45 (c :: s) with Some rest => (of_int (-1), rest) | None => (of_int 1, c :: s) end
      = (sign, num) ∧ read_whole num = (n, t) ∧ (length t < S (length s))%nat)
    as (sign & num & n & t & -> & -> & Ht).
  { destruct (decide (c = 45)) as [->|Hne].
    - rewrite next_same. eexists _, _, _, _. split; [done|]. split; [apply surjective_pairing|].
      pose proof (read_whole_le s). lia.
    - rewrite next_other by done. eexists _, _, _, _. split; [done|].
      split; [apply surjective_pairing|]. apply read_whole_digit. tauto. }
  pose proof (read_point_length n t) as Hp. destruct (read_point n t) as [[n' sc] t'].
  intros ([[a b] t''] & Ee & [= _ <-])%bind_ok_inv. apply read_e_length in Ee. cbn in Hp. lia.
Qed.

Lemma emit_ok cap count bs more out r :
  emit cap count bs more = Ok (out, r) → ∃ out', more = Ok (out', r).
Proof.
  unfold emit. case_match; [|done]. intros ([o p] & E & [= _ <-])%bind_ok_inv. by exists o.
Qed.

Lemma decode_length cap : ∀ n ptr count out r, (length ptr ≤ n)%nat →
  decode cap count ptr = Ok (out, r) → (length r ≤ length ptr)%nat.
Proof.
  induction n as [|n IH]; intros ptr count out r Hn.
  { destruct ptr; [|cbn in Hn; lia]. cbn. case_match; [|done]. by intros [= _ <-]. }
  destruct ptr as [|c ptr]; [cbn; case_match; [|done]; by intros [= _ <-]|].
  cbn [decode length] in *. intros E.
  repeat case_match; try done; simplify_eq; cbn [length] in *;
    try (apply emit_ok in E as [? E]); try lia; apply IH in E; cbn [length] in *; lia.
Qed.

Lemma parse_string_length s out r :
  parse_string s = Ok (Some (out, r)) → (length r < length s)%nat.
Proof.
  destruct s as [|c s]; [done|]. cbn [parse_string]. case_match; [|done].
  intros (n & _ & ([o p] & E & Er)%bind_ok_inv)%bind_ok_inv.
  apply decode_length with (n := length s) in E; [|done].
  destruct p as [|d p]; cbn in *; [simplify_eq; cbn; lia|]. case_match; simplify_eq; cbn in *; lia.
Qed.

Lemma andThen_consumes {A B} v w (m : parsed A) (f : A → bytes → parsed B) :
  consumes w m → (length w ≤ length v)%nat →
  (∀ a r, m = Parsed a r → (length r < length w)%nat → consumes v (f a r)) →
  consumes v (andThen m f).
Proof. destruct m; cbn; intros H Hl Hf; try done. by apply Hf. Qed.

Lemma of_string_consumes v : consumes v (of_string (parse_string v)).
Proof.
  destruct (parse_string v) as [[[s r]|]|] eqn:E; cbn; try done.
  by apply parse_string_length in E.
Qed.

(** The text of one call bounds those of the calls it makes. *)
Lemma reader_consumes pow10 overflow fuel :
  (∀ v, (2 * length v < fuel)%nat → consumes v (parse_value pow10 overflow fuel v)) ∧
  (∀ v, (2 * length v + 1 < fuel)%nat → consumes v (parse_elements pow10 overflow fuel v)) ∧
  (∀ v, (2 * length v + 1 < fuel)%nat → consumes v (parse_members pow10 overflow fuel v)).
Proof.
  induction fuel as [|fuel (IHv & IHe & IHm)]; [by repeat split; intros; lia|].
  repeat split; intros v Hf.
  - cbn [parse_value].
    destruct (after_prefix (str "null") v) eqn:En; [apply after_prefix_length in En; cbn in *; lia|].
    destruct (after_prefix (str "false") v) eqn:Ef; [apply after_prefix_length in Ef; cbn in *; lia|].
    destruct (after_prefix (str "true") v) eqn:Et; [apply after_prefix_length in Et; cbn in *; lia|].
    destruct v as [|c rest]; [done|]. pose proof (skip_length rest) as Hs. cbn [length] in Hf.
    destruct (c =? QUOTE).
    { eapply andThen_consumes; [apply of_string_consumes|done|]. intros a r _ Hr. exact Hr. }
    destruct ((c =? 45) || digit c) eqn:Hc.
    { destruct (parse_number pow10 overflow (c :: rest)) as [[i r]|] eqn:E; [|done].
      apply parse_number_length in E; [done|]. apply orb_true_iff in Hc. by rewrite Z.eqb_eq in Hc. }
    destruct (c =? 91); [|destruct (c =? 123); [|done]].
    + destruct (next 93 (skip rest)) eqn:E; [apply next_length in E; cbn; lia|].
      eapply andThen_consumes; [apply IHe; lia|cbn; lia|]. intros. cbn. lia.
    + destruct (next 125 (skip rest)) eqn:E; [apply next_length in E; cbn; lia|].
      eapply andThen_consumes; [apply IHm; lia|cbn; lia|]. intros. cbn. lia.
  - cbn [parse_elements]. pose proof (skip_length v).
    eapply andThen_consumes; [apply IHv; lia|done|]. intros i r _ Hr. pose proof (skip_length r).
    destruct (next 44 (skip r)) as [r'|] eqn:E4; [apply next_length in E4|
      destruct (next 93 (skip r)) eqn:E9; [apply next_length in E9; cbn; lia|done]].
    eapply andThen_consumes; [apply IHe; lia|lia|]. intros. cbn. lia.
  - cbn [parse_members]. pose proof (skip_length v).
    eapply andThen_consumes; [apply of_string_consumes|done|]. intros k r _ Hr.
    pose proof (skip_length r). destruct (next 58 (skip r)) as [r1|] eqn:E5; [|done].
    apply next_length in E5. pose proof (skip_length r1).
    eapply andThen_consumes; [apply IHv; lia|lia|]. intros i r2 _ Hr2. pose proof (skip_length r2).
    destruct (next 44 (skip r2)) as [r'|] eqn:E4; [apply next_length in E4|
      destruct (next 125 (skip r2)) eqn:E9; [apply next_length in E9; cbn; lia|done]].
    eapply andThen_consumes; [apply IHm; lia|lia|]. intros. cbn. lia.
Qed.

(** ** The bytes of a text *)

Lemma c_string_app s t : c_string s → c_string t → c_string (s ++ t).
Proof. apply Forall_app_2. Qed.

Lemma c_string_char c : 0 < c < 256 → c_string (char_text c).
Proof.
  intros Hc. destruct (char_cases c Hc) as [(-> & _)|Hin]; [by apply Forall_singleton|].
  vm_compute in Hin. each_char Hin; repeat constructor.
Qed.

Lemma c_string_string s : c_string s → c_string (string_text s).
Proof.
  intros Hs. apply c_string_app; [by apply Forall_singleton|].
  apply c_string_app; [|by apply Forall_singleton].
  induction Hs as [|c s Hc _ IH]; [constructor|]. rewrite escape_string_cons.
  by apply c_string_app; [apply c_string_char|].
Qed.

Lemma c_string_number z : c_string (print_d z).
Proof.
  apply c_string_app; [destruct (z <? 0); [by apply Forall_singleton|constructor]|].
  destruct (digits_spec (Z.abs z)) as (Hd & _); [lia|].
  eapply Forall_impl; [|exact Hd]. unfold is_digit. cbn. lia.
Qed.

Lemma c_string_if (b : bool) s : c_string s → c_string (if b then s else []).
Proof. intros Hs. destruct b; [done|constructor]. Qed.

Lemma c_string_tabs n : c_string (tabs n).
Proof. by apply Forall_replicate. Qed.

Lemma c_string_array fmt l : Forall c_string l → c_string (array_body fmt l).
Proof.
  induction 1 as [|s l Hs Hl IH]; [constructor|]. destruct l as [|t l]; [done|].
  rewrite array_body_cons. apply c_string_app; [done|].
  apply c_string_app; [by apply Forall_singleton|].
  apply c_string_app; [by apply c_string_if, Forall_singleton|done].
Qed.

Lemma c_string_object fmt depth (l : list (bytes * bytes)) :
  Forall (λ m, c_string (fst m) ∧ c_string (snd m)) l → c_string (object_body fmt depth l).
Proof.
  induction 1 as [|[n e] l [Hn He] Hl IH]; [constructor|]. cbn [fst snd] in *.
  rewrite object_body_cons. apply c_string_app; [apply c_string_if, c_string_tabs|].
  apply c_string_app; [done|]. apply c_string_app; [by apply Forall_singleton|].
  apply c_string_app; [by apply c_string_if, Forall_singleton|]. apply c_string_app; [done|].
  apply c_string_app; [destruct l; [constructor|by apply Forall_singleton]|].
  apply c_string_app; [by apply c_string_if, Forall_singleton|done].
Qed.

Lemma c_string_json j : json_ok j → ∀ fmt depth, c_string (json_text fmt depth j).
Proof.
  induction j as [|b|z|s|l IH|l IH] using json_induction; cbn [json_ok]; intros Hok fmt depth.
  - by repeat constructor.
  - by destruct b; repeat constructor.
  - apply c_string_number.
  - by apply c_string_string.
  - apply foldr_Forall in Hok. cbn [json_text].
    apply c_string_app; [by apply Forall_singleton|].
    apply c_string_app; [|by apply Forall_singleton].
    apply c_string_array, Forall_fmap. eapply Forall_mp; [|exact Hok].
    eapply Forall_impl; [|exact IH]. intros j Hj Ho. by apply Hj.
  - apply (foldr_Forall (λ m, c_string (fst m) ∧ json_ok (snd m))) in Hok. cbn [json_text].
    apply c_string_app; [by apply Forall_singleton|].
    apply c_string_app; [by apply c_string_if, Forall_singleton|].
    apply c_string_app; [|apply c_string_app; [apply c_string_if, c_string_tabs|by apply Forall_singleton]].
    apply c_string_object, Forall_fmap. eapply Forall_mp; [|exact Hok].
    eapply Forall_impl; [|exact IH]. intros [n j] Hj [Hn Ho]. cbn in *.
    split; [by apply c_string_string|by apply Hj].
Qed.

(** ** The length of a text *)

Fixpoint json_size (j : json) : Z :=
  match j with
  | JNull => 4
  | JBool _ => 5
  | JNum _ => 62
  | JStr s => 2 + 6 * Z.of_nat (length s)
  | JArr l => 2 + foldr (λ j n, json_size j + 1 + n) 0 l
  | JObj l => 2 + foldr (λ m n, 6 * Z.of_nat (length (fst m)) + json_size (snd m) + 4 + n) 0 l
  end.

Lemma string_text_length s : Z.of_nat (length (string_text s)) ≤ 2 + 6 * Z.of_nat (length s).
Proof.
  unfold string_text. rewrite !length_app. cbn [length]. pose proof (escape_string_length s).
  enough (escaped_length s ≤ 6 * Z.of_nat (length s)) by lia.
  induction s as [|c s IH]; [done|]. unfold escaped_length in *. cbn [foldr length].
  specialize (IH (escape_string_length s)).
  assert (char_length c ≤ 6) by (unfold char_length; repeat case_match; lia). lia.
Qed.

Lemma strlens_le {B} (f : B → bytes) (g : B → Z) l :
  Forall (λ x, Z.of_nat (length (f x)) ≤ g x) l → strlens (f <$> l) ≤ foldr (λ x n, g x + n) 0 l.
Proof.
  unfold strlens. induction 1 as [|x l Hx _ IH]; [done|]. rewrite fmap_cons. cbn [foldr]. lia.
Qed.

Lemma json_text_length j : json_ok j → ∀ depth,
  Z.of_nat (length (json_text false depth j)) ≤ json_size j.
Proof.
  induction j as [|b|z|s|l IH|l IH] using json_induction; cbn [json_ok]; intros Hok depth.
  - cbn. lia.
  - destruct b; cbn; lia.
  - cbn [json_text json_size]. unfold print_d. rewrite length_app. pose proof (length_minus (z <? 0)).
    pose proof (length_digits (Z.abs z)). unfold exact_int in Hok. lia.
  - apply string_text_length.
  - apply foldr_Forall in Hok. cbn [json_text json_size]. rewrite !length_app. cbn [length].
    pose proof (array_body_length false (json_text false (S depth) <$> l)) as Hb.
    rewrite length_fmap in Hb. cbn [Z.b2z] in Hb.
    assert (strlens (json_text false (S depth) <$> l) ≤ foldr (λ j n, json_size j + n) 0 l) as Hs.
    { apply strlens_le. eapply Forall_mp; [|exact Hok]. eapply Forall_impl; [|exact IH].
      intros j Hj Ho. by apply Hj. }
    assert (foldr (λ j n, json_size j + 1 + n) 0 l =
            foldr (λ j n, json_size j + n) 0 l + Z.of_nat (length l)) as ->.
    { clear. induction l as [|j l IH]; [done|]. cbn [foldr length]. lia. }
    lia.
  - apply (foldr_Forall (λ m, c_string (fst m) ∧ json_ok (snd m))) in Hok.
    cbn [json_text json_size]. rewrite !length_app. cbn [length].
    rewrite <- zip_fmap.
    set (ns := (λ m : bytes * json, string_text (fst m)) <$> l).
    set (es := (λ m : bytes * json, json_text false (S depth) (snd m)) <$> l).
    pose proof (object_body_length false (S depth) ns es) as Hb. unfold ns, es in *.
    rewrite !length_fmap in Hb. specialize (Hb eq_refl).
    assert (strlens es ≤ foldr (λ m n, json_size (snd m) + n) 0 l) as He.
    { apply strlens_le. eapply Forall_mp; [|exact Hok]. eapply Forall_impl; [|exact IH].
      intros [k j] Hj [_ Ho]. by apply Hj. }
    assert (strlens ns ≤ foldr (λ m n, 2 + 6 * Z.of_nat (length (fst m)) + n) 0 l) as Hn.
    { apply strlens_le. eapply Forall_impl; [|exact Hok]. intros m _. apply string_text_length. }
    unfold ns, es in *.
    assert (foldr (λ m n, 6 * Z.of_nat (length (fst m)) + json_size (snd m) + 4 + n) 0 l =
            foldr (λ m n, json_size (snd m) + n) 0 l +
            foldr (λ m n, 2 + 6 * Z.of_nat (length (fst m)) + n) 0 l + 2 * Z.of_nat (length l)) as ->.
    { clear. induction l as [|m l IH]; [done|]. cbn [foldr length]. lia. }
    lia.
Qed.
