(* ===== verification/CJsonProperties.v ===== *)
(** * CJsonProperties: the contracts of the JSON library

    Printing against the reference text, the round trip, the end of the recursion,
    when the reader stays within its buffers and when it does not, and [cJSON_Minify]
    as the way from the formatted text to the other one. *)

From Stdlib Require Import String.
From S2P Require Import Prelude Bytes Double CJson CJsonProofs CJsonParse.

(** ** Strings that are read safely *)

Definition is_hex (c : Z) : bool := match hex_digit c with Some _ => true | None => false end.

(** Up to the closing quote, every [\u] has its four digits and no backslash is last. *)
Fixpoint well_escaped (s : bytes) : bool :=
  match s with
  | [] => true
  | c :: rest =>
      if c =? QUOTE then true
      else if c =? BACKSLASH then
        match rest with
        | [] => false
        | x :: rest =>
            if x =? 117 then
              match rest with
              | h1 :: h2 :: h3 :: h4 :: rest =>
                  is_hex h1 && is_hex h2 && is_hex h3 && is_hex h4 && well_escaped rest
              | _ => false
              end
            else well_escaped rest
        end
      else well_escaped rest
  end.

(** The buffer that the first loop asks for suffices for the second. *)
Definition readable (s : bytes) : Prop :=
  ∃ n, scan s = Ok n ∧
  ∀ cap count, (count + n < cap)%nat → ∃ out r, decode cap count s = Ok (out, r).

Lemma emit_fits cap count bs m :
  (count + length bs ≤ cap)%nat → (∃ out r, m = Ok (out, r)) →
  ∃ out r, emit cap count bs m = Ok (out, r).
Proof.
  intros Hl (out & r & ->). exists (bs ++ out), r. unfold emit. by rewrite decide_True.
Qed.

Lemma scan_hex h s n : is_hex h = true → scan s = Ok n → scan (h :: s) = Ok (S n).
Proof.
  intros Hh Hs. assert (h ≠ QUOTE ∧ h ≠ BACKSLASH) as [Hq Hb].
  { split; intros ->; discriminate. }
  cbn. by rewrite !(proj2 (Z.eqb_neq _ _)), Hs by done.
Qed.

Lemma utf8_length uc : (length (utf8 uc) ≤ 4)%nat.
Proof. unfold utf8. repeat case_match; cbn; lia. Qed.
(** Four hexadecimal digits after [\u]. *)
Lemma well_escaped_unicode rest : well_escaped (BACKSLASH :: 117 :: rest) = true →
  ∃ h1 h2 h3 h4 r, rest = h1 :: h2 :: h3 :: h4 :: r ∧ well_escaped r = true ∧
    ∀ n, scan r = Ok n → scan (BACKSLASH :: 117 :: rest) = Ok (5 + n)%nat.
Proof.
  destruct rest as [|h1 [|h2 [|h3 [|h4 r]]]]; try done. intros H.
  change (is_hex h1 && is_hex h2 && is_hex h3 && is_hex h4 && well_escaped r = true) in H.
  repeat (apply andb_true_iff in H as [H ?]).
  eexists _, _, _, _, _. split; [done|]. split; [done|]. intros n Hn.
  change (scan (BACKSLASH :: 117 :: h1 :: h2 :: h3 :: h4 :: r)) with
    (len ← scan (h1 :: h2 :: h3 :: h4 :: r); mret (M:=result) (S len)).
  by rewrite (scan_hex h1 _ (3 + n)) by repeat (apply scan_hex || done).
Qed.

Lemma decode_unicode cap count h1 h2 h3 h4 r :
  decode cap count (BACKSLASH :: 117 :: h1 :: h2 :: h3 :: h4 :: r) =
    let uc := parse_hex4 (h1 :: h2 :: h3 :: h4 :: r) in
    if low_surrogate uc || (uc =? 0) then decode cap count r
    else if high_surrogate uc then
      match r with
      | b :: u :: r2 =>
          if (b =? BACKSLASH) && (u =? 117) then
            let uc2 := parse_hex4 r2 in
            match r2 with
            | _ :: _ :: _ :: _ :: r3 =>
                if low_surrogate uc2
                then let bs := utf8 (pair_code uc uc2) in
                     emit cap count bs (decode cap (count + length bs) r3)
                else decode cap count r3
            | _ => Err OutOfBounds
            end
          else decode cap count r
      | _ => decode cap count r
      end
    else let bs := utf8 uc in emit cap count bs (decode cap (count + length bs) r).
Proof. reflexivity. Qed.

Lemma emit_utf8 cap count n uc r :
  (∀ count, (count + n < cap)%nat → ∃ out q, decode cap count r = Ok (out, q)) →
  (count + (4 + n) < cap)%nat →
  ∃ out q, emit cap count (utf8 uc) (decode cap (count + length (utf8 uc)) r) = Ok (out, q).
Proof. intros H Hc. pose proof (utf8_length uc). apply emit_fits; [lia|]. apply H. lia. Qed.

Lemma well_escaped_readable : ∀ k s, (length s ≤ k)%nat → well_escaped s = true → readable s.
Proof.
  induction k as [|k IH]; intros s Hk Hs.
  { destruct s; [|cbn in Hk; lia]. exists 0%nat. split; [done|]. intros cap count Hc. cbn.
    rewrite decide_True by lia. by eauto. }
  destruct s as [|c rest]; [by apply IH; [cbn; lia|]|]. cbn [length] in Hk.
  destruct (decide (c = QUOTE)) as [->|Hq].
  { exists 0%nat. split; [done|]. intros cap count Hc. cbn. rewrite decide_True by lia. by eauto. }
  destruct (decide (c = BACKSLASH)) as [->|Hb].
  - destruct rest as [|x rest]; [done|]. cbn [length] in Hk.
    destruct (decide (x = 117)) as [->|Hx].
    + apply well_escaped_unicode in Hs as (h1 & h2 & h3 & h4 & r & -> & Hr & Hscan).
      cbn [length] in Hk. destruct (IH r ltac:(lia) Hr) as (n & En & Hd).
      exists (5 + n)%nat. split; [by apply Hscan|]. intros cap count Hc. rewrite decode_unicode.
      cbv zeta. set (uc := parse_hex4 _). clearbody uc.
      destruct (low_surrogate uc || (uc =? 0)); [apply Hd; lia|].
      destruct (high_surrogate uc); [|apply (emit_utf8 _ _ n); [by apply Hd|lia]].
      destruct r as [|b [|u r2]]; [apply Hd; lia..|].
      destruct ((b =? BACKSLASH) && (u =? 117)) eqn:Ebu; [|apply Hd; lia].
      apply andb_true_iff in Ebu as [->%Z.eqb_eq ->%Z.eqb_eq].
      apply well_escaped_unicode in Hr as (g1 & g2 & g3 & g4 & r3 & -> & Hr3 & Hscan3).
      cbn [length] in Hk. destruct (IH r3 ltac:(lia) Hr3) as (n3 & En3 & Hd3).
      rewrite (Hscan3 n3 En3) in En. simplify_eq.
      destruct (low_surrogate _); [apply (emit_utf8 _ _ n3); [by apply Hd3|lia]|apply Hd3; lia].
    + assert (well_escaped rest = true) as Hr.
      { cbn in Hs. by rewrite (proj2 (Z.eqb_neq _ _)) in Hs. }
      destruct (IH rest ltac:(lia) Hr) as (n & En & Hd). exists (S n).
      split; [cbn; by rewrite En|]. intros cap count Hc. cbn.
      rewrite (proj2 (Z.eqb_neq x 117)) by done. apply emit_fits; [cbn; lia|]. apply Hd. lia.
  - assert (well_escaped rest = true) as Hr.
    { cbn in Hs. by rewrite !(proj2 (Z.eqb_neq _ _)) in Hs. }
    destruct (IH rest ltac:(lia) Hr) as (n & En & Hd). exists (S n).
    split; [cbn; by rewrite !(proj2 (Z.eqb_neq _ _)), En|]. intros cap count Hc. cbn.
    rewrite !(proj2 (Z.eqb_neq _ _)) by done. apply emit_fits; [cbn; lia|]. apply Hd. lia.
Qed.

(** ** Texts that are not JSON *)

Lemma decode_overrun cap count s t : Forall (λ c, c ≠ QUOTE ∧ c ≠ BACKSLASH) s →
  (cap ≤ count + length s)%nat → decode cap count (s ++ QUOTE :: t) = Err OutOfBounds.
Proof.
  intros Hs. revert count. induction Hs as [|c s [Hq Hb] _ IH]; cbn [length app]; intros count Hl.
  - cbn. by rewrite decide_False by lia.
  - cbn. rewrite !(proj2 (Z.eqb_neq _ _)) by done. cbn [negb]. unfold emit.
    case_decide; [|done]. by rewrite IH by lia.
Qed.

Lemma scan_overrun s : Forall (λ c, c ≠ QUOTE ∧ c ≠ BACKSLASH) s →
  scan (s ++ [BACKSLASH]) = Err OutOfBounds.
Proof.
  induction 1 as [|c s [Hq Hb] _ IH]; [done|].
  cbn. rewrite !(proj2 (Z.eqb_neq _ _)) by done. cbn. by rewrite IH.
Qed.

Lemma parse_quoted pow10 overflow e s : parse_string (QUOTE :: s) = Err e →
  skip (QUOTE :: s) = QUOTE :: s → cJSON_Parse pow10 overflow (QUOTE :: s) = Err e.
Proof.
  intros E Hs. unfold cJSON_Parse, cJSON_ParseWithOpts. rewrite Hs. unfold enough.
  rewrite Nat.add_comm. cbn [Nat.add]. rewrite parse_value_char by (unfold QUOTE; lia).
  by rewrite Z.eqb_refl, E.
Qed.

(** ** Minify *)

(** Before whatever follows, [t] is rewritten to [t']. *)
Definition minifies (t t' : bytes) : Prop :=
  ∀ rest, minify Text (t ++ rest) = (out ← minify Text rest; Ok (t' ++ out)).

Lemma minifies_nil : minifies [] [].
Proof. intros rest. cbn [app]. by destruct (minify Text rest). Qed.

Lemma minifies_app a a' b b' : minifies a a' → minifies b b' → minifies (a ++ b) (a' ++ b').
Proof.
  intros Ha Hb rest. rewrite <- app_assoc, Ha, Hb, bind_assoc.
  destruct (minify Text rest); [|done]. by rewrite !bind_ok, app_assoc.
Qed.

Lemma minifies_plain l : Forall (λ c, 32 < c ∧ c ≠ QUOTE ∧ c ≠ 47) l → minifies l l.
Proof.
  induction 1 as [|c l (Hc & Hq & Hs) _ IH]; [apply minifies_nil|].
  apply (minifies_app [c] [c] l l); [|done]. intros rest. cbn.
  by rewrite !(proj2 (Z.eqb_neq _ _)) by (done || lia).
Qed.

Lemma minifies_one c : 32 < c ∧ c ≠ QUOTE ∧ c ≠ 47 → minifies [c] [c].
Proof. intros Hc. apply minifies_plain. by constructor. Qed.

Lemma minifies_blank c : c ∈ [32; 9; 10] → minifies [c] [].
Proof.
  intros Hc rest. each_char Hc; cbn [app minify Z.eqb Pos.eqb orb]; by destruct (minify Text rest).
Qed.

Lemma minifies_blanks l : Forall (λ c, c ∈ [32; 9; 10]) l → minifies l [].
Proof.
  induction 1 as [|c l Hc _ IH]; [apply minifies_nil|].
  by apply (minifies_app [c] [] l []); [apply minifies_blank|].
Qed.

Lemma minify_char c t : 0 < c < 256 →
  minify Literal (char_text c ++ t) = (out ← minify Literal t; Ok (char_text c ++ out)).
Proof.
  intros Hc. destruct (char_cases c Hc) as [(-> & Hq & Hb)|Hin].
  - cbn. by rewrite !(proj2 (Z.eqb_neq _ _)) by done.
  - vm_compute in Hin. each_char Hin;
      (match goal with |- context [char_text ?c] =>
         let v := eval vm_compute in (char_text c) in change (char_text c) with v end);
      cbn; by destruct (minify Literal t).
Qed.

Lemma minifies_string s : c_string s → minifies (string_text s) (string_text s).
Proof.
  intros Hs rest. unfold string_text. rewrite <- !app_assoc.
  change (minify Text ([QUOTE] ++ ?t)) with (out ← minify Literal t; mret (M:=result) (QUOTE :: out)).
  assert (minify Literal (escape_string s ++ [QUOTE] ++ rest) =
          (out ← minify Text rest; Ok (escape_string s ++ [QUOTE] ++ out))) as ->.
  { induction Hs as [|c s Hc _ IH]; [done|].
    rewrite escape_string_cons, <- app_assoc, minify_char, IH by done.
    destruct (minify Text rest); [|done]. by rewrite !bind_ok, <- app_assoc. }
  destruct (minify Text rest); [|done]. by rewrite !bind_ok, <- !app_assoc.
Qed.

Lemma minifies_number z : minifies (print_d z) (print_d z).
Proof.
  apply minifies_plain. unfold print_d. apply Forall_app_2.
  - destruct (z <? 0); [|constructor]. by apply Forall_singleton.
  - destruct (digits_spec (Z.abs z)) as (Hd & _); [lia|].
    eapply Forall_impl; [|exact Hd]. unfold is_digit, QUOTE. cbn. lia.
Qed.

Lemma minifies_array l l' : Forall2 minifies l l' →
  minifies (array_body true l) (array_body false l').
Proof.
  induction 1 as [|t t' l l' Ht Hl IH]; [apply minifies_nil|].
  inversion Hl; subst; [done|]. rewrite !array_body_cons.
  apply minifies_app; [done|]. apply minifies_app; [by apply minifies_one|].
  apply minifies_app; [|done]. apply minifies_blanks, Forall_singleton. by rewrite !elem_of_cons; tauto.
Qed.

Lemma minifies_object depth depth' (l l' : list (bytes * bytes)) :
  Forall2 (λ m m', minifies (fst m) (fst m') ∧ minifies (snd m) (snd m')) l l' →
  minifies (object_body true depth l) (object_body false depth' l').
Proof.
  assert (∀ n, minifies (tabs n) []) as Htabs.
  { intros n. apply minifies_blanks. unfold tabs.
    apply Forall_replicate. by rewrite !elem_of_cons; tauto. }
  induction 1 as [|[n e] [n' e'] l l' [Hn He] Hl IH]; [apply minifies_nil|]. cbn [fst snd] in *.
  rewrite !object_body_cons. apply minifies_app; [apply Htabs|]. apply minifies_app; [done|].
  apply minifies_app; [by apply minifies_one|].
  apply minifies_app; [apply minifies_blank; by rewrite !elem_of_cons; tauto|].
  apply minifies_app; [done|]. apply minifies_app; [|
    apply minifies_app; [apply minifies_blank; by rewrite !elem_of_cons; tauto|done]].
  inversion Hl; [apply minifies_nil|by apply minifies_one].
Qed.

Lemma minifies_json j : json_ok j → ∀ depth depth',
  minifies (json_text true depth j) (json_text false depth' j).
Proof.
  induction j as [|b|z|s|l IH|l IH] using json_induction; cbn [json_ok]; intros Hok depth depth'.
  - by apply minifies_plain; repeat constructor.
  - by destruct b; apply minifies_plain; repeat constructor.
  - apply minifies_number.
  - by apply minifies_string.
  - apply foldr_Forall in Hok. cbn [json_text].
    apply minifies_app; [by apply minifies_one|]. apply minifies_app; [|by apply minifies_one].
    apply minifies_array. eapply Forall2_maps; [exact IH|exact Hok|]. intros j Hj Ho. by apply Hj.
  - apply (foldr_Forall (λ m, c_string (fst m) ∧ json_ok (snd m))) in Hok. cbn [json_text].
    apply minifies_app; [by apply minifies_one|].
    apply minifies_app; [apply minifies_blank; by rewrite !elem_of_cons; tauto|].
    apply minifies_app; [|apply minifies_app; [|by apply minifies_one]].
    + apply minifies_object. eapply Forall2_maps; [exact IH|exact Hok|].
      intros [n j] Hj [Hn Ho]. split; [by apply minifies_string|by apply Hj].
    + apply minifies_blanks, Forall_replicate. by rewrite !elem_of_cons; tauto.
Qed.

(** ** Properties *)



(** [cJSON_Minify] turns the formatted text of a value into its unformatted text:
    only the layout goes, never a character of a string, and it does not read past the
    end. *)
Theorem minify_is_unformatted j : json_ok j →
  cJSON_Minify (json_text true 0 j) = Ok (json_text false 0 j).
Proof.
  intros Hok. unfold cJSON_Minify. pose proof (minifies_json j Hok 0 0 []) as H.
  rewrite app_nil_r in H. rewrite H. cbn [minify]. by rewrite bind_ok, app_nil_r.
Qed.

(** C26: A string whose [\u] escapes all have four hexadecimal digits and that does not
    end in a backslash is read within the buffer that the first loop asks for. *)
Theorem parse_string_safe s : well_escaped s = true →
  ∃ out rest, parse_string (QUOTE :: s) = Ok (Some (out, rest)) ∧
    (length rest ≤ length s)%nat.
Proof.
  intros Hs. destruct (well_escaped_readable (length s) s ltac:(done) Hs) as (n & En & Hd).
  destruct (Hd (n + 1)%nat 0%nat) as (out & r & E); [lia|].
  assert (∃ r', parse_string (QUOTE :: s) = Ok (Some (out, r'))) as [r' E'].
  { cbn. rewrite En, bind_ok, E, bind_ok. by eexists. }
  exists out, r'. split; [done|]. apply parse_string_length in E'. cbn in E'. lia.
Qed.

(** Two texts that are not JSON make the reader leave its buffers.  After [\u] the
    pointer passes over four bytes, digits or not: when the closing quote is one of
    them, all the text up to the next quote is written to the four bytes that the first
    loop counted.  And a backslash before the end of the text makes that loop go past
    the terminating zero. *)
Theorem parse_string_faults pow10 overflow s :
  Forall (λ c, c ≠ QUOTE ∧ c ≠ BACKSLASH) s → (4 ≤ length s)%nat →
  cJSON_Parse pow10 overflow
    ([QUOTE; BACKSLASH; 117; 49; 50; QUOTE; 44] ++ s ++ [QUOTE]) = Err OutOfBounds ∧
  cJSON_Parse pow10 overflow ([QUOTE] ++ s ++ [BACKSLASH]) = Err OutOfBounds.
Proof.
  intros Hs Hl. split; (apply parse_quoted; [|done]); cbn [parse_string app].
  - change (scan _) with (Ok 3%nat). rewrite bind_ok, decode_unicode.
    change (parse_hex4 (49 :: _)) with 0. cbv zeta.
    rewrite Z.eqb_refl, orb_true_r. by rewrite decode_overrun by (done || lia).
  - by rewrite scan_overrun.
Qed.

(** C27: Whatever the text, the recursion of the reader ends: it is an item with less text
    left than there was, a null pointer, or one of the two faults. *)
Theorem parse_terminates pow10 overflow value require :
  match cJSON_ParseWithOpts pow10 overflow value require with
  | Parsed _ rest => (length rest < length value)%nat
  | Malformed | Faulty _ => True
  | OutOfFuel => False
  end.
Proof.
  unfold cJSON_ParseWithOpts. destruct (reader_consumes pow10 overflow (enough (skip value))) as [H _].
  specialize (H (skip value) ltac:(unfold enough; lia)). pose proof (skip_length value).
  destruct (CJson.parse_value _ _ _ _) as [i r| | |]; cbn in *; try done.
  destruct require; [destruct (skip r); [cbn; lia|done]|lia].
Qed.

(** ** Witnesses *)

(** An object with a number, an array and a word. *)
Definition sample : json :=
  JObj [(str "ts", JNum (-1700000000));
        (str "tags", JArr [JStr [97; QUOTE; 98]; JObj []; JArr []]);
        (str "ok", JBool true)].

Lemma sample_ok : json_ok sample.
Proof. unfold sample, json_ok, c_string, exact_int. cbn. repeat (split || constructor); lia. Qed.



Lemma minify_is_unformatted_witness : json_ok sample ∧
  cJSON_Minify (json_text true 0 sample) = Ok (json_text false 0 sample).
Proof. split; [exact sample_ok|]. apply (minify_is_unformatted sample sample_ok). Defined.

(** A pair of surrogates: four bytes of UTF-8. *)
Definition emoji : bytes := str "\uD83D\uDE00" ++ [QUOTE].

Lemma parse_string_safe_witness : well_escaped emoji = true ∧
  ∃ out rest, parse_string (QUOTE :: emoji) = Ok (Some (out, rest)) ∧
    (length rest ≤ length emoji)%nat.
Proof. split; [reflexivity|]. apply (parse_string_safe emoji eq_refl). Defined.

Lemma parse_string_faults_witness :
  Forall (λ c, c ≠ QUOTE ∧ c ≠ BACKSLASH) (str "AAAA") ∧
  cJSON_Parse (λ x, x) (λ _, 0)
    ([QUOTE; BACKSLASH; 117; 49; 50; QUOTE; 44] ++ str "AAAA" ++ [QUOTE]) = Err OutOfBounds.
Proof.
  assert (Forall (λ c, c ≠ QUOTE ∧ c ≠ BACKSLASH) (str "AAAA")) as H
    by (repeat constructor; done).
  split; [exact H|]. apply (parse_string_faults (λ x, x) (λ _, 0) (str "AAAA") H). cbn. lia.
Defined.
