(* ===== verification/JsonWrapper.v ===== *)
(** * JsonWrapper: new_elbs/json_wrapper.h and json_wrapper.cc

    The class that the worker uses to build and to read its messages.  A wrapper is its
    two members; a wrapper of a node inside another tree (the result of [getObject] and
    the like, which does not own it) holds that node as it is when it is taken.  A C
    string is [None] for the null pointer.  Overloads are told apart by a suffix:
    [_at] takes an index, [_root] is the one on the root itself.

    [overflow] and [overflow_u] are what the machine makes of the conversion of a double
    that is out of range to [int] and to [unsigned int]. *)

From Stdlib Require Import String.
From S2P Require Import Prelude Bytes Double CJson.

Record JsonWrapper := mkWrapper { m_root : option cJSON; m_owner : bool }.

(** The range of [unsigned int]. *)
Definition UINT_MAX : Z := 2 ^ 32 - 1.
Definition to_uint (overflow_u : double → Z) (x : double) : Z :=
  match trunc x with
  | Some z => if (0 <=? z) && (z <=? UINT_MAX) then z else overflow_u x
  | None => overflow_u x
  end.

Definition set_valueint (v : Z) (i : cJSON) : cJSON :=
  mkItem (type i) (valuestring i) v (valuedouble i) (name i) (child i).
Definition set_valuedouble (v : double) (i : cJSON) : cJSON :=
  mkItem (type i) (valuestring i) (valueint i) v (name i) (child i).
Definition set_type (t : Z) (i : cJSON) : cJSON :=
  mkItem t (valuestring i) (valueint i) (valuedouble i) (name i) (child i).

(** A node that was found by its name is changed in place. *)
Definition on_node (n : bytes) (f : cJSON → cJSON) (root : cJSON) : cJSON :=
  match index_of (Some n) (child root) with
  | Some i => set_child (alter f i (child root)) root
  | None => root
  end.

Section wrapper.
Context (pow10 : double → double) (overflow overflow_u : double → Z).

(** ** Construction and ownership *)

Definition JsonWrapper_make : JsonWrapper := mkWrapper None true.
Definition JsonWrapper_node (node : option cJSON) (owner : bool) : JsonWrapper :=
  mkWrapper node owner.

Definition parse (input : option bytes) : result JsonWrapper :=
  match input with
  | Some ((_ :: _) as s) => root ← cJSON_Parse pow10 overflow s; Ok (mkWrapper root true)
  | Some [] | None => Ok (mkWrapper None true)
  end.
Definition JsonWrapper_text (input : option bytes) : result JsonWrapper := parse input.

Definition assign (node : cJSON) : JsonWrapper := mkWrapper (Some node) true.
Definition setObjectType : JsonWrapper := assign cJSON_CreateObject.
Definition setArrayType : JsonWrapper := assign cJSON_CreateArray.

Definition isValid (w : JsonWrapper) : bool := bool_decide (is_Some (m_root w)).
Definition duplicate (w : JsonWrapper) : option cJSON := cJSON_Duplicate true <$> m_root w.

(** Copy and move; what is left of the source comes second. *)
Definition copy (rhs : JsonWrapper) : JsonWrapper := mkWrapper (duplicate rhs) true.
Definition move (rhs : JsonWrapper) : JsonWrapper * JsonWrapper :=
  (mkWrapper (m_root rhs) (m_owner rhs), mkWrapper None false).

(** [take] and [release]: what is handed out, and what is left. *)
Definition take (w : JsonWrapper) : JsonWrapper * JsonWrapper :=
  if m_owner w then (mkWrapper (m_root w) true, mkWrapper None false)
  else (mkWrapper (cJSON_Duplicate true <$> m_root w) true, w).
Definition release (w : JsonWrapper) : option cJSON * JsonWrapper :=
  if m_owner w then (m_root w, mkWrapper None false) else (None, w).

(** ** Nodes *)

Definition findNode (n : option bytes) (w : JsonWrapper) : option cJSON :=
  match m_root w, n with
  | Some root, Some (_ :: _) => cJSON_GetObjectItem root n
  | _, _ => None
  end.
Definition findNode_typed (n : option bytes) (ty : Z) (w : JsonWrapper) : option cJSON :=
  match findNode n w with
  | Some node => if type node =? ty then Some node else None
  | None => None
  end.
Definition findNode_at (index : Z) (w : JsonWrapper) : option cJSON :=
  match m_root w with Some root => cJSON_GetArrayItem root index | None => None end.

Definition getObject (n : option bytes) (w : JsonWrapper) : JsonWrapper :=
  JsonWrapper_node (findNode_typed n cJSON_Object w) false.
Definition getArray (n : option bytes) (w : JsonWrapper) : JsonWrapper :=
  JsonWrapper_node (findNode_typed n cJSON_Array w) false.
(** The node is read without a test for the null pointer. *)
Definition getArray_at (index : Z) (w : JsonWrapper) : result JsonWrapper :=
  match findNode_at index w with
  | Some node => if type node =? cJSON_Array then Ok (JsonWrapper_node (Some node) false)
                 else Ok JsonWrapper_make
  | None => Err NullDeref
  end.
Definition getChild (w : JsonWrapper) : JsonWrapper :=
  JsonWrapper_node (match m_root w with Some root => head (child root) | None => None end) false.

Definition getArraySize (w : JsonWrapper) : nat :=
  match m_root w with Some root => cJSON_GetArraySize root | None => 0 end.
Definition getName (w : JsonWrapper) : option bytes :=
  match m_root w with Some root => name root | None => None end.

Definition eraseNode (n : option bytes) (w : JsonWrapper) : bool * JsonWrapper :=
  match m_root w with
  | Some root =>
      match cJSON_DetachItemFromObject root n with
      | (Some _, root) => (true, mkWrapper (Some root) (m_owner w))
      | (None, _) => (false, w)
      end
  | None => (false, w)
  end.

(** Adding to an array, or anywhere. *)
Definition with_root (f : cJSON → cJSON) (w : JsonWrapper) : bool * JsonWrapper :=
  match m_root w with
  | Some root => (true, mkWrapper (Some (f root)) (m_owner w))
  | None => (false, w)
  end.
Definition addStringValueToArray (value : option bytes) (w : JsonWrapper) : bool * JsonWrapper :=
  match value with
  | Some s => with_root (λ root, cJSON_AddItemToArray root (cJSON_CreateString s)) w
  | None => (false, w)
  end.
Definition addIntValueToArray (value : Z) (w : JsonWrapper) : bool * JsonWrapper :=
  with_root (λ root, cJSON_AddItemToArray root (cJSON_CreateNumber overflow (of_int value))) w.
Definition addBoolValueToArray (value : bool) (w : JsonWrapper) : bool * JsonWrapper :=
  with_root (λ root, cJSON_AddItemToArray root
                       (if value then cJSON_CreateTrue else cJSON_CreateFalse)) w.
Definition addItemToArray (item : option cJSON) (w : JsonWrapper) : bool * JsonWrapper :=
  with_root (λ root, match item with Some i => cJSON_AddItemToArray root i | None => root end) w.
Definition addItemToObject (n : bytes) (item : option cJSON) (w : JsonWrapper)
    : bool * JsonWrapper :=
  with_root (λ root, match item with Some i => cJSON_AddItemToObject root n i | None => root end) w.

(** ** Reading *)

Definition get {A} (f : cJSON → A) (defValue : A) (node : option cJSON) : A :=
  match node with Some node => f node | None => defValue end.

Definition getIntValue n (defValue : Z) w : Z :=
  get valueint defValue (findNode_typed n cJSON_Number w).
Definition getIntValue_at index (defValue : Z) w : Z := get valueint defValue (findNode_at index w).
Definition as_uint (node : cJSON) : Z := to_uint overflow_u (valuedouble node).
Definition getUIntValue n (defValue : Z) w : Z :=
  get as_uint defValue (findNode_typed n cJSON_Number w).
Definition getUIntValue_at index (defValue : Z) w : Z := get as_uint defValue (findNode_at index w).
Definition getDoubleValue n (defValue : double) w : double :=
  get valuedouble defValue (findNode_typed n cJSON_Number w).
Definition getDoubleValue_at index (defValue : double) w : double :=
  get valuedouble defValue (findNode_at index w).
Definition getStringValue n (defValue : option bytes) w : option bytes :=
  get valuestring defValue (findNode_typed n cJSON_String w).
Definition getStringValue_at index (defValue : option bytes) w : option bytes :=
  get valuestring defValue (findNode_at index w).

(** The [tryGet] functions leave the variable as it is when they return false, and a
    string also when the item has none. *)
Definition tryGetIntValue n (value : option Z) w : bool * option Z :=
  match findNode_typed n cJSON_Number w with
  | Some node => (true, Some (valueint node))
  | None => (false, value)
  end.
Definition tryGetUIntValue n (value : option Z) w : bool * option Z :=
  match findNode_typed n cJSON_Number w with
  | Some node => (true, Some (as_uint node))
  | None => (false, value)
  end.
Definition tryGetStringValue n (value : bytes) w : bool * bytes :=
  match findNode_typed n cJSON_String w with
  | Some node => (true, match valuestring node with Some s => s | None => value end)
  | None => (false, value)
  end.

Definition boolean (defValue : bool) (node : option cJSON) : bool :=
  match node with
  | Some node => if type node =? cJSON_True then true
                 else if type node =? cJSON_False then false else defValue
  | None => defValue
  end.
Definition getBooleanValue n (defValue : bool) w : bool := boolean defValue (findNode n w).
Definition getBooleanValue_at index (defValue : bool) w : bool :=
  boolean defValue (findNode_at index w).
Definition getBooleanValue_root (defValue : bool) w : bool := boolean defValue (m_root w).
Definition tryGetBooleanValue n (value : bool) w : bool * bool :=
  match findNode n w with
  | Some node => (true, boolean value (Some node))
  | None => (false, value)
  end.

(** ** Types *)

Definition has_type (ty : Z) (node : option cJSON) : bool :=
  match node with Some node => type node =? ty | None => false end.
Definition is_boolean (node : option cJSON) : bool :=
  has_type cJSON_True node || has_type cJSON_False node.

Definition isNull n w : bool := bool_decide (is_Some (findNode_typed n cJSON_NULL w)).
Definition isNull_at index w : bool := has_type cJSON_NULL (findNode_at index w).
Definition isString n w : bool := bool_decide (is_Some (findNode_typed n cJSON_String w)).
Definition isString_at index w : bool := has_type cJSON_String (findNode_at index w).
Definition isNumber n w : bool := bool_decide (is_Some (findNode_typed n cJSON_Number w)).
Definition isNumber_at index w : bool := has_type cJSON_Number (findNode_at index w).
Definition isBoolean_root w : bool := is_boolean (m_root w).
Definition isBoolean n w : bool := is_boolean (findNode n w).
Definition isBoolean_at index w : bool := is_boolean (findNode_at index w).
Definition isObject n w : bool := bool_decide (is_Some (findNode_typed n cJSON_Object w)).
Definition isObject_at index w : bool := has_type cJSON_Object (findNode_at index w).
Definition isArray n w : bool := bool_decide (is_Some (findNode_typed n cJSON_Array w)).
Definition isArray_at index w : bool := has_type cJSON_Array (findNode_at index w).
Definition isObject_root w : bool := has_type cJSON_Object (m_root w).
Definition isString_root w : bool := has_type cJSON_String (m_root w).
Definition isArray_root w : bool := has_type cJSON_Array (m_root w).
Definition isInt w : bool := has_type cJSON_Number (m_root w).
Definition isUInt w : bool := isInt w.
Definition isDouble w : bool := isInt w.
Definition hasNode n w : bool := bool_decide (is_Some (findNode n w)).

Definition getIntValue_root (defValue : Z) w : Z :=
  if isInt w then get valueint defValue (m_root w) else defValue.
Definition getUIntValue_root (defValue : Z) w : Z :=
  if isUInt w then get as_uint defValue (m_root w) else defValue.
Definition getDoubleValue_root (defValue : double) w : double :=
  if isDouble w then get valuedouble defValue (m_root w) else defValue.
Definition getStringValue_root (defValue : option bytes) w : option bytes :=
  if isString_root w then get valuestring defValue (m_root w) else defValue.

(** ** Writing *)

(** The root itself: a number is changed, anything else is replaced. *)
Definition setIntValue_root (value : Z) (w : JsonWrapper) : JsonWrapper :=
  match m_root w with
  | Some root =>
      if type root =? cJSON_Number
      then mkWrapper (Some (set_valuedouble (of_int value) (set_valueint value root))) (m_owner w)
      else assign (cJSON_CreateNumber overflow (of_int value))
  | None => assign (cJSON_CreateNumber overflow (of_int value))
  end.
Definition setDoubleValue_root (value : double) (w : JsonWrapper) : JsonWrapper :=
  match m_root w with
  | Some root =>
      if type root =? cJSON_Number
      then mkWrapper (Some (set_valuedouble value root)) (m_owner w)
      else assign (cJSON_CreateNumber overflow value)
  | None => assign (cJSON_CreateNumber overflow value)
  end.
Definition setUIntValue_root (value : Z) (w : JsonWrapper) : JsonWrapper :=
  setDoubleValue_root (of_int value) w.
Definition setBooleanValue_root (value : bool) (w : JsonWrapper) : JsonWrapper :=
  match m_root w with
  | Some root =>
      if (type root =? cJSON_True) || (type root =? cJSON_False)
      then mkWrapper (Some (set_type (if value then cJSON_True else cJSON_False) root)) (m_owner w)
      else assign (cJSON_CreateNumber overflow (of_int (Z.b2z value)))
  | None => assign (cJSON_CreateNumber overflow (of_int (Z.b2z value)))
  end.
Definition setStringValue_root (value : bytes) : JsonWrapper := assign (cJSON_CreateString value).

(** A member of the root: [change] is what happens to a node that is there, or nothing
    when it is to be replaced by [item]. *)
Definition set_member (n : option bytes) (change : cJSON → option (cJSON → cJSON)) (item : cJSON)
    (w : JsonWrapper) : JsonWrapper :=
  match m_root w, n with
  | Some root, Some s =>
      let root :=
        match findNode n w with
        | Some node =>
            match change node with
            | Some f => on_node s f root
            | None => cJSON_ReplaceItemInObject root s item
            end
        | None => cJSON_AddItemToObject root s item
        end in
      mkWrapper (Some root) (m_owner w)
  | _, _ => w
  end.

Definition if_number (f : cJSON → cJSON) (node : cJSON) : option (cJSON → cJSON) :=
  if type node =? cJSON_Number then Some f else None.
Definition setIntValue n (value : Z) (w : JsonWrapper) : JsonWrapper :=
  set_member n (if_number (set_valueint value)) (cJSON_CreateNumber overflow (of_int value)) w.
Definition setDoubleValue n (value : double) (w : JsonWrapper) : JsonWrapper :=
  set_member n (if_number (set_valuedouble value)) (cJSON_CreateNumber overflow value) w.
Definition setUIntValue n (value : Z) (w : JsonWrapper) : JsonWrapper :=
  setDoubleValue n (of_int value) w.
Definition setBooleanValue n (value : bool) (w : JsonWrapper) : JsonWrapper :=
  set_member n
    (λ node, if (type node =? cJSON_True) && value then Some id
             else if (type node =? cJSON_False) && negb value then Some id else None)
    (cJSON_CreateBool value) w.

(** The null pointer removes the member. *)
Definition setStringValue n (value : option bytes) (w : JsonWrapper) : JsonWrapper :=
  match value with
  | Some v => set_member n (λ _, None) (cJSON_CreateString v) w
  | None =>
      match m_root w, n, findNode n w with
      | Some root, Some _, Some _ =>
          mkWrapper (Some (cJSON_DeleteItemFromObject root n)) (m_owner w)
      | _, _, _ => w
      end
  end.
Definition setObjectValue n (value : option cJSON) (w : JsonWrapper) : JsonWrapper :=
  match value with
  | Some v => set_member n (λ _, None) (cJSON_Duplicate true v) w
  | None => w
  end.
Definition setArrayValue n (value : JsonWrapper) (w : JsonWrapper) : JsonWrapper :=
  setObjectValue n (m_root value) w.

(** ** Text *)

Definition doToString (root : option cJSON) (formatted : bool) : result bytes :=
  match root with
  | None => Ok []
  | Some root =>
      json ← (if formatted then cJSON_Print root else cJSON_PrintUnformatted root);
      Ok (match json with Some s => s | None => [] end)
  end.
Definition toString (formatted : bool) (w : JsonWrapper) : result bytes :=
  doToString (m_root w) formatted.
End wrapper.

(** ** Merging *)

Definition has_children (i : cJSON) : bool := negb (bool_decide (child i = [])).
Definition mergeable (item1 item2 : cJSON) : bool :=
  has_children item1 && has_children item2 && (type item1 =? type item2).

(** The loop of [doMerge]: the items of the second root that are still to be visited,
    its children as they are now with the position [which], and the first root; [merge]
    is the recursive call.  An item that moves is detached at [which]; one that was
    merged stays there. *)
Section merge_loop.
Context (merge : cJSON → cJSON → cJSON * cJSON).

Fixpoint merge_items (items : list cJSON) (which : nat) (root1 root2 : cJSON) : cJSON * cJSON :=
  match items with
  | [] => (root1, root2)
  | item2 :: items =>
      let '(detached, rest) := cJSON_DetachItemFromArray root2 (Z.of_nat which) in
      let append := match detached with Some i => cJSON_AddItemToArray root1 i | None => root1 end in
      match name item2 with
      | None => merge_items items which append rest
      | Some n =>
          match index_of (Some n) (child root1) with
          | None => merge_items items which append rest
          | Some i =>
              match child root1 !! i with
              | Some item1 =>
                  if mergeable item1 item2 then
                    let '(item1, item2) := merge item1 item2 in
                    merge_items items (S which)
                      (set_child (<[i := item1]> (child root1)) root1)
                      (set_child (<[which := item2]> (child root2)) root2)
                  else
                    merge_items items which
                      (match detached with
                       | Some d => cJSON_ReplaceItemInObject root1 n d
                       | None => root1
                       end) rest
              | None => (root1, root2)
              end
          end
      end
  end.
End merge_loop.

(** [doMerge(root1, root2)], the second root first since the recursion is on it. *)
Fixpoint doMerge (root2 root1 : cJSON) : cJSON * cJSON :=
  if negb (type root1 =? type root2) then (root1, root2)
  else match root2 with
       | mkItem _ _ _ _ _ items =>
           merge_items (λ item1 item2, doMerge item2 item1) items 0 root1 root2
       end.

Definition merge (profile w : JsonWrapper) : JsonWrapper * JsonWrapper :=
  match m_root w, m_root profile with
  | Some root1, Some root2 =>
      let '(root1, root2) := doMerge root2 root1 in
      (mkWrapper (Some root1) (m_owner w), mkWrapper (Some root2) (m_owner profile))
  | None, Some root2 => (mkWrapper (Some root2) true, mkWrapper (Some root2) false)
  | _, None => (w, profile)
  end.
(** The members of the second wrapper are merged into the profile, which this wrapper
    then holds. *)
Definition reverse_merge (profile w : JsonWrapper) : JsonWrapper * JsonWrapper :=
  match m_root profile with
  | Some root2 =>
      let root2 := match m_root w with Some root1 => fst (doMerge root1 root2) | None => root2 end in
      (mkWrapper (Some root2) true, mkWrapper (Some root2) false)
  | None => (w, profile)
  end.

(** With the text of the profile. *)
Definition merge_text (pow10 : double → double) (overflow : double → Z) (profile : option bytes)
    (w : JsonWrapper) : result JsonWrapper :=
  p ← JsonWrapper_text pow10 overflow profile; Ok (fst (merge p w)).
Definition reverse_merge_text (pow10 : double → double) (overflow : double → Z)
    (profile : option bytes) (w : JsonWrapper) : result JsonWrapper :=
  p ← JsonWrapper_text pow10 overflow profile; Ok (fst (reverse_merge p w)).
