(* ===== verification/JsonWrapperProofs.v ===== *)
(** * JsonWrapperProofs: a wrapper as a map from names

    Under names that differ in more than the case of their letters, the members of an
    object are a map: [findNode] reads it, the setters write it, [merge] overrides it.
    Then what is read after each setter, and the two ways in which a number keeps an old
    value. *)

From Stdlib Require Import String.
From S2P Require Import Prelude Bytes Double CJson CJsonProofs JsonWrapper.

(** ** Names *)

Definition lower (s : bytes) : bytes := tolower <$> s.
Definition same (s k : bytes) : bool := bool_decide (lower s = lower k).

Lemma strcaseeq_same s k : strcaseeq (Some s) (Some k) = same s k.
Proof. done. Qed.
Lemma same_refl s : same s s = true.
Proof. by apply bool_decide_eq_true. Qed.
Lemma same_trans k s t : same s t = true → same s k = same t k.
Proof. unfold same. rewrite bool_decide_eq_true. by intros ->. Qed.

(** An item has the name [s], the case of its letters aside. *)
Definition named (s : bytes) (i : cJSON) : bool := strcaseeq (name i) (Some s).

Lemma named_same s i : named s i = true → ∀ k, named k i = same s k.
Proof.
  unfold named. intros Hs k. destruct (name i) as [n|]; [|done]. rewrite strcaseeq_same in *.
  by apply (same_trans k) in Hs.
Qed.

(** ** Lookup *)

Definition find_item (k : bytes) (l : list cJSON) : option cJSON :=
  i ← index_of (Some k) l; l !! i.

Lemma find_cons k c l : find_item k (c :: l) = if named k c then Some c else find_item k l.
Proof.
  unfold find_item. cbn [index_of]. fold (named k c). destruct (named k c); [done|].
  by destruct (index_of (Some k) l).
Qed.

Lemma find_app k l x :
  find_item k (l ++ [x]) =
    match find_item k l with Some y => Some y | None => if named k x then Some x else None end.
Proof.
  induction l as [|c l IH]; cbn [app]; rewrite find_cons; [done|].
  rewrite find_cons, IH. by destruct (named k c).
Qed.

Lemma index_of_find s l i :
  index_of (Some s) l = Some i → ∃ y, l !! i = Some y ∧ named s y = true ∧ find_item s l = Some y.
Proof.
  intros H. unfold find_item. rewrite H. cbn. revert i H.
  induction l as [|c l IH]; intros i; cbn [index_of]; [done|]. fold (named s c).
  destruct (named s c) eqn:E; [intros [= <-]; by exists c|].
  destruct (index_of (Some s) l) as [j|]; [|done]. intros [= <-]. by apply IH.
Qed.

Lemma index_of_none s l : index_of (Some s) l = None → find_item s l = None.
Proof. intros H. unfold find_item. by rewrite H. Qed.

Lemma find_item_none s l : find_item s l = None → index_of (Some s) l = None.
Proof.
  intros H. destruct (index_of (Some s) l) as [i|] eqn:E; [|done].
  apply index_of_find in E as (y & _ & _ & E). congruence.
Qed.

Lemma find_named k l y : find_item k l = Some y → named k y = true.
Proof.
  induction l as [|c l IH]; [done|]. rewrite find_cons. destruct (named k c) eqn:E; [|done].
  by intros [= <-].
Qed.

(** Replacing the first item of a name by one of that name. *)
Lemma find_insert s l i x k :
  index_of (Some s) l = Some i → named s x = true →
  find_item k (<[i := x]> l) = if same s k then Some x else find_item k l.
Proof.
  revert i. induction l as [|c l IH]; intros i; cbn [index_of]; [done|]. fold (named s c).
  destruct (named s c) eqn:E.
  - intros [= <-] Hx. change (<[0%nat:=x]> (c :: l)) with (x :: l). rewrite !find_cons, (named_same _ _ Hx), (named_same _ _ E).
    by destruct (same s k).
  - destruct (index_of (Some s) l) as [j|]; [|done]. intros [= <-] Hx.
    change (<[S j:=x]> (c :: l)) with (c :: <[j:=x]> l).
    rewrite !find_cons, (IH j) by done. destruct (same s k) eqn:Ek; [|done].
    destruct (named k c) eqn:Ec; [|done].
    exfalso. enough (named s c = true) by congruence.
    unfold named in *. destruct (name c) as [n|]; [|done]. rewrite strcaseeq_same in *.
    unfold same in *. rewrite !bool_decide_eq_true in *. congruence.
Qed.

Lemma find_alter s l i f k :
  index_of (Some s) l = Some i → (∀ c, name (f c) = name c) →
  find_item k (alter f i l) = if same s k then f <$> find_item s l else find_item k l.
Proof.
  intros Hi Hf. destruct (index_of_find _ _ _ Hi) as (y & Hy & Hn & E).
  assert (alter f i l = <[i := f y]> l) as ->.
  { rewrite <- (list_insert_id l i y) at 1 by done.
    apply list_eq. intros j. destruct (decide (i = j)) as [<-|].
    - rewrite list_lookup_alter_eq. rewrite (list_insert_id l i y) by done.
      by rewrite Hy, list_lookup_insert_eq by (by eapply lookup_lt_Some).
    - by rewrite list_lookup_alter_ne, !list_lookup_insert_ne by done. }
  rewrite (find_insert s) by (first [done | unfold named; by rewrite Hf]). by rewrite E.
Qed.

(** ** Writing members *)

Lemma same_sym s k : same s k = same k s.
Proof. unfold same. by apply bool_decide_ext; split; intros ->. Qed.

Lemma find_same s k l : same s k = true → find_item k l = find_item s l.
Proof.
  intros Hs. induction l as [|c l IH]; [done|]. rewrite !find_cons, IH.
  destruct (named s c) eqn:E; [by rewrite (named_same _ _ E), Hs|].
  destruct (named k c) eqn:Ek; [|done].
  rewrite (named_same _ _ Ek), same_sym, Hs in E. done.
Qed.

Lemma findNode_find root o k : k ≠ [] → findNode (Some k) (mkWrapper (Some root) o) = find_item k (child root).
Proof. by destruct k. Qed.

(** The member after [set_member], given what was there. *)
Definition stored (n : bytes) (change : cJSON → option (cJSON → cJSON)) (item : cJSON)
    (old : option cJSON) : cJSON :=
  match old with
  | Some node => match change node with Some f => f node | None => set_name (Some n) item end
  | None => set_name (Some n) item
  end.

Lemma set_member_spec n change item w k :
  is_Some (m_root w) → n ≠ [] → k ≠ [] →
  (∀ node f c, change node = Some f → name (f c) = name c) →
  findNode (Some k) (set_member (Some n) change item w) =
    if same n k then Some (stored n change item (findNode (Some n) w)) else findNode (Some k) w.
Proof.
  destruct w as [[root|] o]; [|by intros []]. intros _ Hn Hk Hf.
  unfold set_member. cbn [m_root m_owner]. rewrite (findNode_find root o n) by done.
  rewrite !(findNode_find _ o k) by done.
  assert (named n (set_name (Some n) item) = true) as Hitem
    by (unfold named; cbn; apply same_refl).
  destruct (find_item n (child root)) as [node|] eqn:E; cbn [stored].
  - destruct (index_of (Some n) (child root)) as [i|] eqn:Ei;
      [|apply index_of_none in Ei; congruence].
    destruct (change node) as [f|] eqn:Ec.
    + unfold on_node. rewrite Ei. cbn [child set_child].
      rewrite (find_alter n) by (done || by intros; eapply Hf). by rewrite E.
    + unfold cJSON_ReplaceItemInObject. rewrite Ei.
      unfold cJSON_ReplaceItemInArray. rewrite Nat2Z.id. cbn [child set_child].
      by rewrite (find_insert n).
  - unfold cJSON_AddItemToObject, cJSON_AddItemToArray. cbn [child set_child].
    rewrite find_app, (named_same _ _ Hitem).
    destruct (same n k) eqn:Es; [by rewrite (find_same n k), E|].
    by destruct (find_item k (child root)).
Qed.

Lemma set_member_valid n change item w :
  is_Some (m_root w) → is_Some (m_root (set_member n change item w)).
Proof. destruct w as [[root|] o]; [|done]. destruct n; done. Qed.

Lemma to_uint_int overflow_u z : 0 ≤ z ≤ UINT_MAX → to_uint overflow_u (of_int z) = z.
Proof.
  intros Hz. unfold to_uint. rewrite trunc_int by (unfold exact_int, UINT_MAX in *; lia).
  by rewrite !(proj2 (Z.leb_le _ _)) by lia.
Qed.

(** What an item is read as. *)
Definition number_is (f : cJSON → Prop) (i : cJSON) : Prop := type i = cJSON_Number ∧ f i.

Lemma if_number_name f node g c :
  (∀ c, name (f c) = name c) → if_number f node = Some g → name (g c) = name c.
Proof. unfold if_number. intros Hf. case_match; [|done]. by intros [= <-]. Qed.

Lemma stored_number n f item old :
  (∀ c, type (f c) = type c) → type item = cJSON_Number →
  type (stored n (if_number f) item old) = cJSON_Number.
Proof.
  intros Hf Hi. destruct old as [node|]; [|done]. cbn. unfold if_number.
  destruct (Z.eqb_spec (type node) cJSON_Number) as [E|]; [by rewrite Hf|done].
Qed.

Lemma stored_field {A} (g : cJSON → A) n f item old v :
  (∀ c, g (f c) = v) → (∀ c s, g (set_name s c) = g c) → g item = v →
  g (stored n (if_number f) item old) = v.
Proof.
  intros Hf Hs Hi. destruct old as [node|]; cbn; [|by rewrite Hs].
  unfold if_number. destruct (type node =? cJSON_Number); [done|by rewrite Hs].
Qed.

(** ** Merging *)

(** The names of an object: all there, and different. *)
Fixpoint distinct_names (l : list cJSON) : Prop :=
  match l with
  | [] => True
  | c :: l => (∃ s, name c = Some s ∧ find_item s l = None) ∧ distinct_names l
  end.

Lemma set_name_same i : set_name (name i) i = i.
Proof. by destruct i. Qed.

Lemma named_self s i : name i = Some s → named s i = true.
Proof. unfold named. intros ->. apply same_refl. Qed.

(** What a name finds after the loop. *)
Definition overridden (merge : cJSON → cJSON → cJSON * cJSON) (old new : option cJSON) : option cJSON :=
  match old, new with
  | Some a, Some b => Some (if mergeable a b then fst (merge a b) else b)
  | None, Some b => Some b
  | _, None => old
  end.

Section merge_proofs.
Context (merge : cJSON → cJSON → cJSON * cJSON).
Context (merge_name : ∀ a b, name (fst (merge a b)) = name a).

(** The position is that of the item which is visited, so that it is this item that
    moves. *)
Lemma detach_visited root kept item items :
  child root = kept ++ item :: items →
  cJSON_DetachItemFromArray root (Z.of_nat (length kept)) =
    (Some item, set_child (kept ++ items) root).
Proof.
  intros Hc. unfold cJSON_DetachItemFromArray. rewrite Nat2Z.id, Hc.
  by rewrite list_lookup_middle, delete_middle.
Qed.

Lemma merge_items_find items : ∀ kept root1 root2 k,
  child root2 = kept ++ items → distinct_names items →
  find_item k (child (fst (merge_items merge items (length kept) root1 root2))) =
    overridden merge (find_item k (child root1)) (find_item k items).
Proof.
  induction items as [|item items IH]; intros kept root1 root2 k Hc Hd.
  { cbn. by destruct (find_item k (child root1)). }
  destruct Hd as [(s & Hs & Hfresh) Hd]. cbn [merge_items].
  rewrite (detach_visited root2 kept item items) by done. rewrite Hs.
  pose proof (named_self s item Hs) as Hitem.
  rewrite find_cons, (named_same s item Hitem).
  destruct (index_of (Some s) (child root1)) as [i|] eqn:Ei.
  - destruct (index_of_find _ _ _ Ei) as (y & Hy & Hny & Ey). rewrite Hy.
    destruct (mergeable y item) eqn:Em.
    + destruct (merge y item) as [y' item'] eqn:Ey'.
      assert (named s y' = true) as Hy'.
      { unfold named in *. pose proof (merge_name y item) as Hn. rewrite Ey' in Hn. cbn in Hn.
        by rewrite Hn. }
      replace (S (length kept)) with (length (kept ++ [item'])) by (rewrite length_app; cbn; lia).
      rewrite IH; [|cbn [child set_child]; rewrite Hc|done].
      * cbn [child set_child]. rewrite (find_insert s) by done.
        destruct (same s k) eqn:Es; [|done].
        rewrite (find_same s k (child root1) Es), Ey, (find_same s k items Es), Hfresh. cbn.
        by rewrite Em, Ey'.
      * rewrite insert_app_r_alt, Nat.sub_diag by lia. by rewrite <- app_assoc.
    + rewrite IH by (done || by cbn). unfold cJSON_ReplaceItemInObject. rewrite Ei.
      unfold cJSON_ReplaceItemInArray. rewrite Nat2Z.id, <- Hs, set_name_same.
      cbn [child set_child]. rewrite (find_insert s) by done.
      destruct (same s k) eqn:Es; [|done].
      rewrite (find_same s k (child root1) Es), Ey, (find_same s k items Es), Hfresh. cbn.
      by rewrite Em.
  - rewrite IH by (done || by cbn). unfold cJSON_AddItemToArray. cbn [child set_child].
    rewrite find_app, (named_same s item Hitem). apply index_of_none in Ei.
    destruct (same s k) eqn:Es.
    + by rewrite (find_same s k (child root1) Es), Ei, (find_same s k items Es), Hfresh.
    + by destruct (find_item k (child root1)).
Qed.

Lemma merge_items_name items : ∀ which root1 root2,
  name (fst (merge_items merge items which root1 root2)) = name root1.
Proof.
  induction items as [|item items IH]; intros which root1 root2; [done|]. cbn [merge_items].
  destruct (cJSON_DetachItemFromArray root2 (Z.of_nat which)) as [d rest].
  repeat case_match; rewrite ?IH; try done; subst;
    unfold cJSON_ReplaceItemInObject; by repeat case_match.
Qed.
End merge_proofs.

Lemma doMerge_name root2 root1 : name (fst (doMerge root2 root1)) = name root1.
Proof.
  destruct root2. cbn [doMerge]. destruct (negb _); [done|]. apply merge_items_name.
Qed.

Lemma doMerge_find root2 root1 k :
  type root1 = type root2 → distinct_names (child root2) →
  find_item k (child (fst (doMerge root2 root1))) =
    overridden (λ a b, doMerge b a) (find_item k (child root1)) (find_item k (child root2)).
Proof.
  intros Ht Hd. destruct root2 as [ty vs vi vd n items]. cbn [child type] in *. cbn [doMerge type].
  rewrite Ht, Z.eqb_refl. cbn [negb].
  by rewrite (merge_items_find (λ a b, doMerge b a) (λ a b, doMerge_name b a) items [])
    by done.
Qed.

(** ** Properties *)

(** What a setter stores under a name is what the getter of the same type reads
    under that name, whatever the case of its letters and whatever was there before. *)
Theorem get_after_set overflow overflow_u w n k :
  is_Some (m_root w) → n ≠ [] → k ≠ [] → same n k = true →
  (∀ z d, INT_MIN ≤ z ≤ INT_MAX → getIntValue (Some k) d (setIntValue overflow (Some n) z w) = z) ∧
  (∀ x d, getDoubleValue (Some k) d (setDoubleValue overflow (Some n) x w) = x) ∧
  (∀ z d, 0 ≤ z ≤ UINT_MAX →
     getUIntValue overflow_u (Some k) d (setUIntValue overflow (Some n) z w) = z) ∧
  (∀ b d, getBooleanValue (Some k) d (setBooleanValue (Some n) b w) = b) ∧
  (∀ s d, getStringValue (Some k) d (setStringValue (Some n) (Some s) w) = Some s).
Proof.
  intros Hw Hn Hk Hs.
  assert (∀ f item, (∀ c, name (f c) = name c) → (∀ c, type (f c) = type c) →
            type item = cJSON_Number →
            findNode_typed (Some k) cJSON_Number (set_member (Some n) (if_number f) item w) =
              Some (stored n (if_number f) item (findNode (Some n) w))) as Hnum.
  { intros f item Hname Htype Hi. unfold findNode_typed.
    rewrite set_member_spec, Hs, stored_number by (done || intros; by eapply if_number_name).
    done. }
  repeat split; intros.
  - unfold getIntValue, setIntValue. rewrite Hnum by done. cbn [get].
    apply stored_field; [done..|]. cbn. by apply to_int_int.
  - unfold getDoubleValue, setDoubleValue. rewrite Hnum by done. cbn [get].
    by apply stored_field.
  - unfold getUIntValue, setUIntValue, setDoubleValue. rewrite Hnum by done. cbn [get].
    unfold as_uint. rewrite (stored_field valuedouble n _ _ _ (of_int z)) by done.
    by apply to_uint_int.
  - unfold getBooleanValue, setBooleanValue. rewrite set_member_spec, Hs; [|done..|].
    + destruct (findNode (Some n) w) as [node|]; [|by destruct b]. cbn [stored].
      destruct (type node =? cJSON_True) eqn:Et, (type node =? cJSON_False) eqn:Ef, b;
        cbn; unfold id; rewrite ?Et, ?Ef; try done.
      by apply Z.eqb_eq in Et; rewrite Et in Ef.
    + intros node f c. repeat case_match; by intros [= <-].
  - unfold getStringValue, setStringValue, findNode_typed.
    rewrite set_member_spec, Hs by done. by destruct (findNode (Some n) w).
Qed.

(** A setter writes one member: every other name, upper and lower case alike, is
    found as before, and a copy of an object is stored under its new name. *)
Theorem setters_write_one_member overflow w n k :
  is_Some (m_root w) → n ≠ [] → k ≠ [] →
  (same n k = false →
   (∀ z, findNode (Some k) (setIntValue overflow (Some n) z w) = findNode (Some k) w) ∧
   (∀ x, findNode (Some k) (setDoubleValue overflow (Some n) x w) = findNode (Some k) w) ∧
   (∀ b, findNode (Some k) (setBooleanValue (Some n) b w) = findNode (Some k) w) ∧
   (∀ s, findNode (Some k) (setStringValue (Some n) (Some s) w) = findNode (Some k) w) ∧
   (∀ v, findNode (Some k) (setObjectValue (Some n) (Some v) w) = findNode (Some k) w)) ∧
  (same n k = true →
   ∀ v, findNode (Some k) (setObjectValue (Some n) (Some v) w) =
        Some (set_name (Some n) (cJSON_Duplicate true v))).
Proof.
  intros Hw Hn Hk.
  assert (∀ f node g c, (∀ c, name (f c) = name c) → if_number f node = Some g → name (g c) = name c)
    as Hf by (intros; by eapply if_number_name).
  split; intros Hs.
  - repeat split; intros;
      [unfold setIntValue|unfold setDoubleValue|unfold setBooleanValue
      |unfold setStringValue|unfold setObjectValue];
      rewrite set_member_spec, Hs; try done; intros node f c Hc;
      [by eapply Hf, Hc|by eapply Hf, Hc|].
    repeat case_match; by simplify_eq.
  - intros v. unfold setObjectValue. rewrite set_member_spec, Hs by done.
    by destruct (findNode (Some n) w).
Qed.

(** On a member that is a number [setIntValue] changes only the integer: it is read
    back as an integer, but the double keeps its old value, and so does the text. *)
Theorem setIntValue_keeps_old_text overflow w n node a b :
  is_Some (m_root w) → n ≠ [] → findNode (Some n) w = Some node →
  type node = cJSON_Number → valuedouble node = of_int a → exact_int a →
  INT_MIN ≤ b ≤ INT_MAX →
  getIntValue (Some n) 0 (setIntValue overflow (Some n) b w) = b ∧
  getDoubleValue (Some n) (of_int b) (setIntValue overflow (Some n) b w) = of_int a ∧
  (node' ← findNode (Some n) (setIntValue overflow (Some n) b w); Some (print_number node')) =
    Some (Ok (print_d a)).
Proof.
  intros Hw Hn Hnode Ht Hd Ha Hb. unfold getIntValue, getDoubleValue, findNode_typed.
  assert (findNode (Some n) (setIntValue overflow (Some n) b w) = Some (set_valueint b node)) as ->.
  { unfold setIntValue. rewrite set_member_spec, same_refl, Hnode;
      [|done..|intros ? f c Hc; by eapply if_number_name, Hc].
    cbn. unfold if_number. by rewrite Ht. }
  change (type (set_valueint b node)) with (type node). rewrite Ht. cbn [Z.eqb Pos.eqb get].
  split; [done|]. split; [done|]. cbn. f_equal. by apply print_number_whole.
Qed.

(** [getArray] of an index that is not there reads the type of a null pointer. *)
Theorem getArray_beyond_end_faults w index :
  Z.of_nat (getArraySize w) ≤ index → getArray_at index w = Err NullDeref.
Proof.
  intros Hi. unfold getArray_at, findNode_at, getArraySize in *.
  destruct (m_root w) as [root|]; [|done]. unfold cJSON_GetArrayItem, cJSON_GetArraySize in *.
  by rewrite lookup_ge_None_2 by lia.
Qed.

(** C22: Merging two objects, the second with different names: a name of the second one
    finds its item there, or the merge of the two when both are of one type and have
    children; every other name finds what it found before.  The position at which the
    loop detaches is that of the item it visits. *)
Theorem merge_overrides w profile root1 root2 k :
  m_root w = Some root1 → m_root profile = Some root2 → type root1 = type root2 →
  distinct_names (child root2) → k ≠ [] →
  findNode (Some k) (fst (merge profile w)) =
    overridden (λ a b, doMerge b a) (findNode (Some k) w) (findNode (Some k) profile).
Proof.
  destruct w as [r o], profile as [r2 o2]. cbn [m_root]. intros -> -> Ht Hd Hk.
  unfold merge. cbn [m_root m_owner].
  destruct (doMerge root2 root1) as [res rest] eqn:E. cbn [fst].
  rewrite !findNode_find by done. rewrite <- (doMerge_find root2 root1) by done. by rewrite E.
Qed.

(** ** Witnesses *)

Definition greeting : JsonWrapper :=
  setIntValue (λ _, 0) (Some (str "Seq")) 7
    (setStringValue (Some (str "command")) (Some (str "ping")) setObjectType).

Lemma get_after_set_witness :
  same (str "SEQ") (str "seq") = true ∧
  getIntValue (Some (str "seq")) 0 (setIntValue (λ _, 0) (Some (str "SEQ")) 8 greeting) = 8.
Proof.
  split; [reflexivity|].
  apply (get_after_set (λ _, 0) (λ _, 0) greeting (str "SEQ") (str "seq"));
    [by eexists|done|done|reflexivity|vm_compute; split; discriminate].
Defined.

Lemma setters_write_one_member_witness :
  findNode (Some (str "Command")) (setIntValue (λ _, 0) (Some (str "seq")) 8 greeting) =
    findNode (Some (str "command")) greeting ∧
  findNode (Some (str "command")) (setIntValue (λ _, 0) (Some (str "seq")) 8 greeting) =
    findNode (Some (str "command")) greeting.
Proof.
  split; [reflexivity|].
  apply (setters_write_one_member (λ _, 0) greeting (str "seq") (str "command"));
    [by eexists|done|done|reflexivity].
Defined.

Lemma setIntValue_keeps_old_text_witness :
  getIntValue (Some (str "Seq")) 0 (setIntValue (λ _, 0) (Some (str "Seq")) 8 greeting) = 8 ∧
  toString false (setIntValue (λ _, 0) (Some (str "Seq")) 8 greeting) = toString false greeting.
Proof.
  split; [|vm_compute; reflexivity].
  apply (setIntValue_keeps_old_text (λ _, 0) greeting (str "Seq")
           (set_name (Some (str "Seq")) (cJSON_CreateNumber (λ _, 0) (of_int 7))) 7 8);
    [by eexists|done|reflexivity|reflexivity|reflexivity|done|
     vm_compute; split; discriminate].
Defined.

Lemma getArray_beyond_end_faults_witness :
  getArraySize greeting = 2%nat ∧ getArray_at 2 greeting = Err NullDeref.
Proof. split; [reflexivity|]. apply (getArray_beyond_end_faults greeting 2). done. Defined.

Lemma merge_overrides_witness :
  getStringValue (Some (str "command")) None (fst (merge greeting (setArrayType))) = None ∧
  findNode (Some (str "seq"))
    (fst (merge greeting (setIntValue (λ _, 0) (Some (str "seq")) 1 setObjectType))) =
    overridden (λ a b, doMerge b a) (Some (set_name (Some (str "seq"))
                                       (cJSON_CreateNumber (λ _, 0) (of_int 1))))
      (findNode (Some (str "seq")) greeting).
Proof.
  split; [reflexivity|].
  apply (merge_overrides (setIntValue (λ _, 0) (Some (str "seq")) 1 setObjectType) greeting
           _ _ (str "seq") eq_refl eq_refl); [reflexivity| |done].
  split; [by eexists|]. split; [by eexists|]. done.
Defined.
