(* ===== verification/JsonFile.v ===== *)
(** * JsonFile: fromFile and toFile of new_elbs/json_wrapper.cc

    The wrapper and a disk of named files.  [readable] and [writable] say which [fopen]
    succeeds; reading and writing an open file succeeds.  [beyond] is the memory behind
    the vector that [fromFile] reads into: a C string that has no end in the vector goes
    on there. *)

From Stdlib Require Import String.
From stdpp Require Import gmap.
From S2P Require Import Prelude Bytes Double CJson CJsonProofs CJsonParse JsonWrapper.

Abbreviation disk := (gmap bytes bytes).

Section files.
Context (readable writable : bytes → bool).
Context (pow10 : double → double) (overflow : double → Z).

Definition fopen_rb (path : bytes) (d : disk) : option bytes :=
  if readable path then d !! path else None.
Definition fopen_wb (path : bytes) (d : disk) : option disk :=
  if writable path then Some (<[path := []]> d) else None.
Definition fwrite (path data : bytes) (d : disk) : disk :=
  <[path := default [] (d !! path) ++ data]> d.

Definition kReadBuffer : nat := Z.to_nat 65535.

Definition fromFile (filePath beyond : bytes) (w : JsonWrapper) (d : disk) : result (bool * JsonWrapper) :=
  match fopen_rb (c_str filePath) d with
  | None => Ok (false, w)
  | Some contents =>
      let data := firstn kReadBuffer contents in
      if (length data =? 0)%nat then Ok (false, w)
      else
        let readBuffer := data ++ replicate (kReadBuffer - length data) 0 in
        w ← parse pow10 overflow (Some (c_str (readBuffer ++ beyond)));
        Ok (isValid w, w)
  end.

Definition toFile (filePath : bytes) (w : JsonWrapper) (d : disk) : result (bool * disk) :=
  match m_root w, filePath with
  | Some root, _ :: _ =>
      match fopen_wb (c_str filePath) d with
      | None => Ok (false, d)
      | Some d =>
          p ← cJSON_Print root;
          match p with
          | Some p => Ok (true, fwrite (c_str filePath) (c_str p) d)
          | None => Ok (false, d)
          end
      end
  | _, _ => Ok (false, d)
  end.

(** ** What a file holds *)

Lemma c_string_nonzero s : c_string s → Forall (λ b, b ≠ 0) s.
Proof. induction 1; constructor; [lia|done]. Qed.

Lemma toFile_ok j o path d : json_ok j → path ≠ [] → writable (c_str path) = true →
  toFile path (mkWrapper (Some (item_of overflow j)) o) d =
  Ok (true, <[c_str path := json_text true 0 j]> d).
Proof.
  intros Hj Hp Hw. unfold toFile. cbn [m_root]. destruct path as [|c path]; [done|].
  unfold fopen_wb. rewrite Hw. unfold cJSON_Print. rewrite print_value_text, bind_ok by done.
  unfold fwrite. rewrite lookup_insert_eq, insert_insert_eq. cbn [default from_option List.app id].
  assert (c_str (json_text true 0 j) = json_text true 0 j) as ->; [|done].
  by apply c_str_id, c_string_nonzero, c_string_json.
Qed.

(** The string in the buffer of a file: to its end, or on into [beyond]. *)
Lemma buffer_text contents beyond : Forall (λ b, b ≠ 0) contents → (length contents < kReadBuffer)%nat →
  c_str ((firstn kReadBuffer contents ++
          replicate (kReadBuffer - length (firstn kReadBuffer contents)) 0) ++ beyond) = contents.
Proof.
  intros Hc Hl. rewrite firstn_all2 by lia.
  destruct (kReadBuffer - length contents)%nat as [|k] eqn:E; [lia|].
  rewrite <- app_assoc. by apply c_str_app.
Qed.

Lemma c_str_before s t : Forall (λ b, b ≠ 0) s → c_str (s ++ t) = s ++ c_str t.
Proof.
  induction 1 as [|b s Hb _ IH]; [done|]. cbn. by rewrite (proj2 (Z.eqb_neq _ _)), IH by done.
Qed.

(** ** Strings that are not closed *)

Abbreviation plain := (Forall (λ c, 32 ≤ c < 127 ∧ c ≠ QUOTE ∧ c ≠ BACKSLASH)).

Lemma plain_c_string s : plain s → c_string s.
Proof. induction 1; constructor; [lia|done]. Qed.

Lemma plain_escaped s : plain s → escape_string s = s.
Proof.
  induction 1 as [|c s [Hc [Hq Hb]] _ IH]; [done|]. rewrite escape_string_cons, IH.
  destruct (char_cases c) as [(-> & _)|Hin]; [lia|done|].
  vm_compute in Hin. each_char Hin; (lia || done).
Qed.

Lemma scan_open s : plain s → scan s = Ok (length s).
Proof.
  induction 1 as [|c s [Hc [Hq Hb]] _ IH]; [done|]. cbn [scan].
  by rewrite !(proj2 (Z.eqb_neq _ _)), IH by done.
Qed.

Lemma decode_open cap count s : plain s → (count + length s < cap)%nat → decode cap count s = Ok (s, []).
Proof.
  intros Hs. revert count. induction Hs as [|c s [Hc [Hq Hb]] _ IH]; intros count Hl; cbn [length] in Hl.
  - cbn. by rewrite decide_True by lia.
  - cbn [decode]. rewrite !(proj2 (Z.eqb_neq _ _)) by done. cbn [negb]. rewrite IH by lia.
    unfold emit. by rewrite decide_True by (cbn; lia).
Qed.

Lemma parse_open s : plain s → cJSON_Parse pow10 overflow (QUOTE :: s) = Ok (Some (string_item s)).
Proof.
  intros Hs. unfold cJSON_Parse, cJSON_ParseWithOpts. rewrite skip_visible by (unfold QUOTE; lia).
  destruct (enough (QUOTE :: s)) as [|n] eqn:E; [unfold enough in E; lia|].
  rewrite parse_value_char by done. rewrite Z.eqb_refl.
  assert (parse_string (QUOTE :: s) = Ok (Some (s, []))) as ->; [|done].
  cbn [parse_string]. rewrite Z.eqb_refl, scan_open, bind_ok, decode_open, bind_ok by (done || lia). done.
Qed.

(** ** Properties *)


(** a string of 65534 characters or more does not come back: the buffer of [fromFile]
    holds its first 65534 characters and no end, the string goes on with what is in the
    memory behind the buffer, and success is reported. *)
Theorem long_string_reads_beyond s o path beyond w d :
  plain s → 65534 ≤ Z.of_nat (length s) → plain (c_str beyond) → path ≠ [] →
  writable (c_str path) = true → readable (c_str path) = true →
  ∃ d', toFile path (mkWrapper (Some (item_of overflow (JStr s))) o) d = Ok (true, d') ∧
    fromFile path beyond w d' =
      Ok (true, mkWrapper (Some (string_item (firstn (Z.to_nat 65534) s ++ c_str beyond))) true).
Proof.
  intros Hs Hl Hb Hp Hw Hr. eexists. split; [apply toFile_ok; [by apply plain_c_string|done..]|].
  unfold fromFile, fopen_rb. rewrite Hr, lookup_insert_eq. cbn [json_text]. unfold string_text.
  rewrite plain_escaped by done.
  assert (firstn kReadBuffer ([QUOTE] ++ s ++ [QUOTE]) = QUOTE :: firstn (Z.to_nat 65534) s) as ->.
  { unfold kReadBuffer. replace (Z.to_nat 65535) with (S (Z.to_nat 65534)) by lia. cbn [List.app firstn].
    f_equal. rewrite firstn_app, (proj2 (Nat.sub_0_le _ _)) by lia. cbn [firstn]. by rewrite app_nil_r. }
  set (part := firstn (Z.to_nat 65534) s).
  assert (length part = Z.to_nat 65534) as Hpart by (unfold part; rewrite length_firstn; lia).
  assert (plain part) as Hplain by (by apply Forall_take). cbn [length Nat.eqb].
  rewrite Hpart. replace (kReadBuffer - S (Z.to_nat 65534))%nat with 0%nat by (unfold kReadBuffer; lia).
  cbn [replicate]. rewrite app_nil_r. cbn [List.app].
  assert (c_str (QUOTE :: part ++ beyond) = QUOTE :: part ++ c_str beyond) as ->.
  { apply (c_str_before (QUOTE :: part)). constructor; [done|]. by apply c_string_nonzero, plain_c_string. }
  cbn [parse]. rewrite parse_open by (by apply Forall_app_2). by rewrite bind_ok, bind_ok.
Qed.
End files.

Definition demo_json : json := JObj [(str "cmd", JStr (str "ping")); (str "n", JNum 7)].


Lemma long_string_reads_beyond_witness :
  ∃ d', toFile (λ _, true) (str "log") (mkWrapper (Some (item_of (λ _, 0) (JStr (repeat 97 (Z.to_nat 70000))))) true) ∅ =
      Ok (true, d') ∧
    fromFile (λ _, true) (λ x, of_int 1) (λ _, 0) (str "log") (str "secret" ++ [0; 1]) JsonWrapper_make d' =
      Ok (true, mkWrapper (Some (string_item (firstn (Z.to_nat 65534) (repeat 97 (Z.to_nat 70000)) ++ str "secret"))) true).
Proof.
  apply (long_string_reads_beyond (λ _, true) (λ _, true) (λ x, of_int 1) (λ _, 0) (repeat 97 (Z.to_nat 70000)) true
    (str "log") (str "secret" ++ [0; 1]) JsonWrapper_make ∅); [| | |discriminate|reflexivity|reflexivity].
  - apply Forall_forall. intros x Hx. apply repeat_spec in Hx as ->. unfold QUOTE, BACKSLASH. lia.
  - rewrite repeat_length. lia.
  - apply (bool_decide_unpack _). vm_compute. reflexivity.
Defined.
