(* ===== verification/JsonHeap.v ===== *)
(** * JsonHeap: the items of new_elbs/cJSON.cc as they lie in memory

    [CJson] takes an item for a tree.  Here the structure has its pointers: the items of
    an array are a doubly linked list that begins at [child], strings are allocations of
    their own, and a reference (cJSON_IsReference) points to the children and the text
    of another item.  Functions run on a heap of blocks: what was freed is no longer
    there, and touching it is [UseAfterFree].

    A loop along [next] may never end on a list that is a cycle, so it has fuel; a
    function starts its loops with one more than the blocks of the heap ([fuelled]),
    which [JsonHeapProofs] shows to be enough for items that are well formed. *)

From stdpp Require Import gmap.
From S2P Require Import Prelude Bytes Double Outcome CJson.

(** ** The heap *)

Abbreviation loc := positive.
Abbreviation ptr := (option loc).

(** struct cJSON. *)
Record node := mkNode {
  n_next : ptr;
  n_prev : ptr;
  n_child : ptr;
  n_type : Z;
  n_valuestring : ptr;
  n_valueint : Z;
  n_valuedouble : double;
  n_string : ptr;
}.

Inductive chunk := Item (n : node) | Text (s : bytes).
Abbreviation heap := (gmap loc chunk).

(** [cJSON_malloc] returns memory that is not in use; which, is its own affair. *)
Class Allocator := {
  malloc : heap → loc;
  malloc_fresh h : h !! malloc h = None;
}.

Definition set_next (v : ptr) (n : node) : node :=
  mkNode v (n_prev n) (n_child n) (n_type n) (n_valuestring n) (n_valueint n) (n_valuedouble n) (n_string n).
Definition set_prev (v : ptr) (n : node) : node :=
  mkNode (n_next n) v (n_child n) (n_type n) (n_valuestring n) (n_valueint n) (n_valuedouble n) (n_string n).
Definition set_nchild (v : ptr) (n : node) : node :=
  mkNode (n_next n) (n_prev n) v (n_type n) (n_valuestring n) (n_valueint n) (n_valuedouble n) (n_string n).
Definition set_ntype (v : Z) (n : node) : node :=
  mkNode (n_next n) (n_prev n) (n_child n) v (n_valuestring n) (n_valueint n) (n_valuedouble n) (n_string n).
Definition set_valuestring (v : ptr) (n : node) : node :=
  mkNode (n_next n) (n_prev n) (n_child n) (n_type n) v (n_valueint n) (n_valuedouble n) (n_string n).
Definition set_number (i : Z) (d : double) (n : node) : node :=
  mkNode (n_next n) (n_prev n) (n_child n) (n_type n) (n_valuestring n) i d (n_string n).
Definition set_string (v : ptr) (n : node) : node :=
  mkNode (n_next n) (n_prev n) (n_child n) (n_type n) (n_valuestring n) (n_valueint n) (n_valuedouble n) v.

Definition load (p : ptr) : state heap node := λ h,
  match p with
  | None => Fault NullDeref
  | Some l => match h !! l with Some (Item n) => Done (h, n) | _ => Fault UseAfterFree end
  end.
Definition change (p : ptr) (f : node → node) : state heap unit := λ h,
  match p with
  | None => Fault NullDeref
  | Some l => match h !! l with Some (Item n) => Done (<[l := Item (f n)]> h, tt) | _ => Fault UseAfterFree end
  end.
Definition read_text (p : ptr) : state heap (option bytes) := λ h,
  match p with
  | None => Done (h, None)
  | Some l => match h !! l with Some (Text s) => Done (h, Some s) | _ => Fault UseAfterFree end
  end.
(** [if (p) cJSON_free(p)]. *)
Definition free (p : ptr) : state heap unit := λ h,
  match p with
  | None => Done (h, tt)
  | Some l => match h !! l with Some _ => Done (delete l h, tt) | None => Fault UseAfterFree end
  end.

Definition fuelled {A} (loop : nat → state heap A) : state heap A := λ h, loop (S (size h)) h.

Definition is_reference (n : node) : bool := negb (Z.land (n_type n) cJSON_IsReference =? 0).

Section heap.
Context `{Allocator}.

Definition alloc (b : chunk) : state heap ptr := λ h, Done (<[malloc h := b]> h, Some (malloc h)).
Definition cJSON_strdup (s : bytes) : state heap ptr := alloc (Text s).
Definition cJSON_New_Item : state heap ptr :=
  alloc (Item (mkNode None None None 0 None 0 (Zero false) None)).

(** The items from [c] on, with their children. *)
Fixpoint delete_loop (fuel : nat) (c : ptr) : state heap unit :=
  match c with
  | None => mret tt
  | Some _ =>
      match fuel with
      | O => no_fuel
      | S fuel =>
          n ← load c;
          (if is_reference n then mret tt else delete_loop fuel (n_child n));;
          m ← load c;
          (if is_reference m then mret tt else free (n_valuestring m));;
          m ← load c;
          free (n_string m);;
          free c;;
          delete_loop fuel (n_next n)
      end
  end.
Definition cJSON_Delete (c : ptr) : state heap unit := fuelled (λ fuel, delete_loop fuel c).

(** ** Items of arrays and objects *)

Fixpoint size_loop (fuel : nat) (c : ptr) (i : Z) : state heap Z :=
  match c with
  | None => mret i
  | Some _ =>
      match fuel with
      | O => no_fuel
      | S fuel => n ← load c; size_loop fuel (n_next n) (i + 1)
      end
  end.
Definition cJSON_GetArraySize (array : ptr) : state heap Z :=
  a ← load array; fuelled (λ fuel, size_loop fuel (n_child a) 0).

(** [while (c && which > 0) c = c->next, which--]. *)
Fixpoint walk (which : nat) (c : ptr) : state heap ptr :=
  match which, c with
  | S which, Some _ => n ← load c; walk which (n_next n)
  | _, _ => mret c
  end.
Definition cJSON_GetArrayItem (array : ptr) (item : Z) : state heap ptr :=
  a ← load array; walk (Z.to_nat item) (n_child a).

(** [while (c && cJSON_strcasecmp(c->string, string)) i++, c = c->next]. *)
Fixpoint find_loop (fuel : nat) (string : option bytes) (i : Z) (c : ptr) : state heap (ptr * Z) :=
  match c with
  | None => mret (None, i)
  | Some _ =>
      match fuel with
      | O => no_fuel
      | S fuel =>
          n ← load c; s ← read_text (n_string n);
          if strcaseeq s string then mret (c, i) else find_loop fuel string (i + 1) (n_next n)
      end
  end.
Definition cJSON_GetObjectItem (object : ptr) (string : option bytes) : state heap ptr :=
  o ← load object; '(c, _) ← fuelled (λ fuel, find_loop fuel string 0 (n_child o)); mret c.

Definition suffix_object (prev item : ptr) : state heap unit :=
  change prev (set_next item);; change item (set_prev prev).

(** [while (c && c->next) c = c->next]. *)
Fixpoint last_loop (fuel : nat) (c : ptr) : state heap ptr :=
  match fuel with
  | O => no_fuel
  | S fuel =>
      match c with
      | None => mret None
      | Some _ =>
          n ← load c;
          match n_next n with None => mret c | Some _ => last_loop fuel (n_next n) end
      end
  end.

Definition cJSON_AddItemToArray (array item : ptr) : state heap unit :=
  a ← load array;
  match item, n_child a with
  | None, _ => mret tt
  | Some _, None => change array (set_nchild item)
  | Some _, Some _ => c ← fuelled (λ fuel, last_loop fuel (n_child a)); suffix_object c item
  end.
Definition cJSON_AddItemToObject (object : ptr) (string : bytes) (item : ptr) : state heap unit :=
  match item with
  | None => mret tt
  | Some _ =>
      i ← load item; free (n_string i);;
      s ← cJSON_strdup string; change item (set_string s);;
      cJSON_AddItemToArray object item
  end.

(** [memcpy] of the item; its children and its text are shared. *)
Definition create_reference (item : ptr) : state heap ptr :=
  ref ← cJSON_New_Item;
  n ← load item;
  change ref (λ _, mkNode None None (n_child n) (Z.lor (n_type n) cJSON_IsReference)
                     (n_valuestring n) (n_valueint n) (n_valuedouble n) None);;
  mret ref.
Definition cJSON_AddItemReferenceToArray (array item : ptr) : state heap unit :=
  ref ← create_reference item; cJSON_AddItemToArray array ref.
Definition cJSON_AddItemReferenceToObject (object : ptr) (string : bytes) (item : ptr) : state heap unit :=
  ref ← create_reference item; cJSON_AddItemToObject object string ref.

Definition cJSON_DetachItemFromArray (array : ptr) (which : Z) : state heap ptr :=
  a ← load array;
  c ← walk (Z.to_nat which) (n_child a);
  match c with
  | None => mret None
  | Some _ =>
      n ← load c;
      (if n_prev n is Some _ then change (n_prev n) (set_next (n_next n)) else mret tt);;
      n ← load c;
      (if n_next n is Some _ then change (n_next n) (set_prev (n_prev n)) else mret tt);;
      a ← load array;
      n ← load c;
      (if decide (c = n_child a) then change array (set_nchild (n_next n)) else mret tt);;
      change c (λ n, set_prev None (set_next None n));;
      mret c
  end.
Definition cJSON_DeleteItemFromArray (array : ptr) (which : Z) : state heap unit :=
  c ← cJSON_DetachItemFromArray array which; cJSON_Delete c.
Definition cJSON_DetachItemFromObject (object : ptr) (string : option bytes) : state heap ptr :=
  o ← load object;
  '(c, i) ← fuelled (λ fuel, find_loop fuel string 0 (n_child o));
  match c with
  | Some _ => cJSON_DetachItemFromArray object i
  | None => mret None
  end.
Definition cJSON_DeleteItemFromObject (object : ptr) (string : option bytes) : state heap unit :=
  c ← cJSON_DetachItemFromObject object string; cJSON_Delete c.

Definition cJSON_ReplaceItemInArray (array : ptr) (which : Z) (newitem : ptr) : state heap unit :=
  a ← load array;
  c ← walk (Z.to_nat which) (n_child a);
  match c with
  | None => mret tt
  | Some _ =>
      n ← load c;
      change newitem (set_next (n_next n));;
      n ← load c;
      change newitem (set_prev (n_prev n));;
      m ← load newitem;
      (if n_next m is Some _ then change (n_next m) (set_prev newitem) else mret tt);;
      a ← load array;
      (if decide (c = n_child a) then change array (set_nchild newitem)
       else m ← load newitem; change (n_prev m) (set_next newitem));;
      change c (λ n, set_next None (set_prev None n));;
      cJSON_Delete c
  end.
(** The string that [newitem] had is not freed. *)
Definition cJSON_ReplaceItemInObject (object : ptr) (string : bytes) (newitem : ptr) : state heap unit :=
  o ← load object;
  '(c, i) ← fuelled (λ fuel, find_loop fuel (Some string) 0 (n_child o));
  match c with
  | Some _ =>
      s ← cJSON_strdup string; change newitem (set_string s);;
      cJSON_ReplaceItemInArray object i newitem
  | None => mret tt
  end.

(** ** Creation *)

Definition create (f : node → node) : state heap ptr :=
  item ← cJSON_New_Item; change item f;; mret item.
Definition cJSON_CreateNull : state heap ptr := create (set_ntype cJSON_NULL).
Definition cJSON_CreateTrue : state heap ptr := create (set_ntype cJSON_True).
Definition cJSON_CreateFalse : state heap ptr := create (set_ntype cJSON_False).
Definition cJSON_CreateBool (b : bool) : state heap ptr :=
  create (set_ntype (if b then cJSON_True else cJSON_False)).
Definition cJSON_CreateNumber (overflow : double → Z) (num : double) : state heap ptr :=
  create (λ n, set_number (to_int overflow num) num (set_ntype cJSON_Number n)).
Definition cJSON_CreateString (string : bytes) : state heap ptr :=
  item ← cJSON_New_Item; change item (set_ntype cJSON_String);;
  s ← cJSON_strdup string; change item (set_valuestring s);; mret item.
Definition cJSON_CreateArray : state heap ptr := create (set_ntype cJSON_Array).
Definition cJSON_CreateObject : state heap ptr := create (set_ntype cJSON_Object).

(** The loop of the functions that create an array: [p] is the item before. *)
Fixpoint fill (makes : list (state heap ptr)) (a p : ptr) : state heap unit :=
  match makes with
  | [] => mret tt
  | make :: makes =>
      n ← make;
      (if p is Some _ then suffix_object p n else change a (set_nchild n));;
      fill makes a n
  end.
Definition create_filled (makes : list (state heap ptr)) : state heap ptr :=
  a ← cJSON_CreateArray; fill makes a None;; mret a.
Definition cJSON_CreateIntArray (overflow : double → Z) (numbers : list Z) : state heap ptr :=
  create_filled ((λ n, cJSON_CreateNumber overflow (of_int n)) <$> numbers).
Definition cJSON_CreateFloatArray (overflow : double → Z) (numbers : list double) : state heap ptr :=
  create_filled (cJSON_CreateNumber overflow <$> numbers).
Definition cJSON_CreateDoubleArray (overflow : double → Z) (numbers : list double) : state heap ptr :=
  create_filled (cJSON_CreateNumber overflow <$> numbers).
Definition cJSON_CreateStringArray (strings : list bytes) : state heap ptr :=
  create_filled (cJSON_CreateString <$> strings).

(** ** Duplication *)

(** [if (p) *q = cJSON_strdup(p)]. *)
Definition dup_text (p : ptr) (set : ptr → node → node) (newitem : ptr) : state heap unit :=
  s ← read_text p;
  match s with
  | Some s => q ← cJSON_strdup s; change newitem (set q)
  | None => mret tt
  end.

(** The copy of one item, without its children. *)
Definition dup_node (item : ptr) : state heap ptr :=
  newitem ← cJSON_New_Item;
  n ← load item;
  change newitem (λ m, set_number (n_valueint n) (n_valuedouble n)
                         (set_ntype (Z.land (n_type n) (Z.lnot cJSON_IsReference)) m));;
  dup_text (n_valuestring n) set_valuestring newitem;;
  dup_text (n_string n) set_string newitem;;
  mret newitem.

(** The loop along the children of [item] is at [cptr]; [nptr] is the last copy. *)
Fixpoint dup_loop (fuel : nat) (newitem nptr cptr : ptr) : state heap unit :=
  match cptr with
  | None => mret tt
  | Some _ =>
      match fuel with
      | O => no_fuel
      | S fuel =>
          newchild ← dup_node cptr;
          n ← load cptr;
          dup_loop fuel newchild None (n_child n);;
          (if nptr is Some _ then change nptr (set_next newchild);; change newchild (set_prev nptr)
           else change newitem (set_nchild newchild));;
          n ← load cptr;
          dup_loop fuel newitem newchild (n_next n)
      end
  end.
Definition cJSON_Duplicate (item : ptr) (recurse : bool) : state heap ptr :=
  match item with
  | None => mret None
  | Some _ =>
      newitem ← dup_node item;
      (if recurse then n ← load item; fuelled (λ fuel, dup_loop fuel newitem None (n_child n))
       else mret tt);;
      mret newitem
  end.
End heap.

(** [cJSON_InitHooks]: the functions that [cJSON_malloc] and [cJSON_free] stand for from
    then on, those of the C library for what is not given. *)
Definition cJSON_InitHooks {M F} (c_malloc : M) (c_free : F) (hooks : option (option M * option F)) : M * F :=
  match hooks with
  | None => (c_malloc, c_free)
  | Some (malloc_fn, free_fn) => (default c_malloc malloc_fn, default c_free free_fn)
  end.
