(* ===== verification/JsonHeapProofs.v ===== *)
(** * JsonHeapProofs: the pointer structure of [JsonHeap] implements the trees of [CJson]

    What the heap holds is written as the list of its blocks, up to their order
    ([lays]).  A [shape] is a tree with the places of its items and texts; its blocks are
    [cells].  Each function is described by what it does to the blocks it needs, beside
    any others. *)

From S2P Require Import Prelude Bytes Double Outcome CJson JsonHeap.
From stdpp Require Import gmap list.
#[local] Open Scope Z_scope.

(** ** Heaps as lists of blocks *)

Abbreviation cell := (loc * chunk)%type.

Definition lays (h : heap) (cs : list cell) : Prop := map_to_list h ≡ₚ cs.

#[export] Instance lays_proper h : Proper ((≡ₚ) ==> iff) (lays h).
Proof. intros cs cs' E. unfold lays. by rewrite E. Qed.

Lemma lays_perm h cs cs' : cs ≡ₚ cs' → lays h cs → lays h cs'.
Proof. by intros ->. Qed.
Lemma lays_elem h cs p b : lays h cs → (p, b) ∈ cs → h !! p = Some b.
Proof. intros Hl. rewrite <- Hl. by rewrite elem_of_map_to_list. Qed.
Lemma lays_lookup h p b R : lays h ((p, b) :: R) → h !! p = Some b.
Proof. intros Hl. eapply lays_elem; [done|]. constructor. Qed.
Lemma lays_delete h p b R : lays h ((p, b) :: R) → lays (delete p h) R.
Proof.
  intros Hl. apply (Permutation_cons_inv (a := (p, b))). rewrite <- Hl.
  apply map_to_list_delete. by eapply lays_lookup.
Qed.
Lemma lays_insert h p b R : h !! p = None → lays h R → lays (<[p := b]> h) ((p, b) :: R).
Proof. intros Hp Hl. unfold lays. by rewrite map_to_list_insert, Hl. Qed.
Lemma lays_update h p b b' R : lays h ((p, b) :: R) → lays (<[p := b']> h) ((p, b') :: R).
Proof.
  intros Hl. rewrite <- insert_delete_eq. apply lays_insert.
  - apply lookup_delete_eq.
  - by eapply lays_delete.
Qed.
Lemma lays_size h cs : lays h cs → size h = length cs.
Proof. intros Hl. by rewrite <- length_map_to_list, Hl. Qed.
Lemma lays_same h cs cs' : lays h cs → lays h cs' → cs ≡ₚ cs'.
Proof. unfold lays. by intros -> ->. Qed.
Lemma lays_all h : lays h (map_to_list h).
Proof. unfold lays. reflexivity. Qed.

(** ** Runs that end *)

Definition runs {A} (m : state heap A) (h : heap) (Φ : A → heap → Prop) : Prop :=
  ∃ h' a, m h = Done (h', a) ∧ Φ a h'.

Lemma runs_ret {A} (a : A) h Φ : Φ a h → runs (mret a) h Φ.
Proof. intros. by exists h, a. Qed.
Lemma runs_bind {A B} (m : state heap A) (k : A → state heap B) h Φ :
  runs m h (λ a h', runs (k a) h' Φ) → runs (m ≫= k) h Φ.
Proof. intros (h' & a & E & Hk). unfold runs. by rewrite (bind_done _ _ _ _ _ E). Qed.
Lemma runs_assoc {A B C} (m : state heap A) (f : A → state heap B) (g : B → state heap C) h Φ :
  runs (m ≫= f) h (λ b h', runs (g b) h' Φ) → runs (m ≫= λ a, f a ≫= g) h Φ.
Proof. intros Hr. apply runs_bind in Hr. unfold runs in *. by rewrite state_assoc in Hr. Qed.
Lemma runs_mono {A} (m : state heap A) h (Φ Ψ : A → heap → Prop) :
  (∀ a h', Φ a h' → Ψ a h') → runs m h Φ → runs m h Ψ.
Proof. intros Hi (h' & a & E & Ha). exists h', a. auto. Qed.
Lemma runs_done {A} (m : state heap A) h h' a : m h = Done (h', a) → runs m h (λ b h'', b = a ∧ h'' = h').
Proof. intros E. by exists h', a. Qed.

Lemma runs_load p n h cs Φ : lays h cs → (p, Item n) ∈ cs → Φ n h → runs (load (Some p)) h Φ.
Proof. intros Hl Hp HΦ. exists h, n. cbn. by rewrite (lays_elem _ _ _ _ Hl Hp). Qed.
Lemma runs_change p f n R h Φ :
  lays h ((p, Item n) :: R) → (∀ h', lays h' ((p, Item (f n)) :: R) → Φ tt h') →
  runs (change (Some p) f) h Φ.
Proof.
  intros Hl HΦ. exists (<[p := Item (f n)]> h), tt. cbn. rewrite (lays_lookup _ _ _ _ Hl).
  split; [done|]. by eapply HΦ, lays_update.
Qed.
Lemma runs_read_text p s h cs Φ : lays h cs → (p, Text s) ∈ cs → Φ (Some s) h → runs (read_text (Some p)) h Φ.
Proof. intros Hl Hp HΦ. exists h, (Some s). cbn. by rewrite (lays_elem _ _ _ _ Hl Hp). Qed.
Lemma runs_free p b R h Φ :
  lays h ((p, b) :: R) → (∀ h', lays h' R → Φ tt h') → runs (free (Some p)) h Φ.
Proof.
  intros Hl HΦ. exists (delete p h), tt. cbn. rewrite (lays_lookup _ _ _ _ Hl).
  split; [done|]. by eapply HΦ, lays_delete.
Qed.
Lemma runs_alloc `{Allocator} b R h Φ :
  lays h R → (∀ p h', h !! p = None → h' = <[p := b]> h → lays h' ((p, b) :: R) → Φ (Some p) h') →
  runs (alloc b) h Φ.
Proof.
  intros Hl HΦ. exists (<[malloc h := b]> h), (Some (malloc h)). split; [done|].
  apply HΦ; [apply malloc_fresh|done|]. apply lays_insert; [apply malloc_fresh|done].
Qed.
Lemma runs_fuelled {A} (loop : nat → state heap A) h Φ :
  runs (loop (S (size h))) h Φ → runs (fuelled loop) h Φ.
Proof. done. Qed.

(** [(p, b) ∈ cs] by looking for it; [lays] of the same blocks in another order. *)
Ltac find_cell :=
  repeat first [rewrite elem_of_app | rewrite elem_of_cons]; tauto.
Ltac blocks := eapply lays_perm; [|eassumption]; cbn [app]; rewrite ?app_nil_r; solve_Permutation.

(** [front_cell p H] puts the block at [p] before the others, [front_part x H] the list
    [x] of blocks. *)
Ltac flat H := cbn [app] in H; rewrite <- ?(assoc_L (++)) in H; cbn [app] in H; rewrite ?app_nil_r in H.
Ltac take_cell p cs :=
  lazymatch cs with
  | (p, ?b) :: ?R => constr:((b, R))
  | ?y :: ?R => let q := take_cell p R in
      lazymatch q with (?b, ?R') => constr:((b, y :: R')) end
  | ?y ++ ?R => let q := take_cell p R in
      lazymatch q with (?b, ?R') => constr:((b, y ++ R')) end
  end.
Ltac take_part x cs :=
  lazymatch cs with
  | x => constr:(@nil (loc * chunk))
  | x ++ ?R => R
  | ?y :: ?R => let R' := take_part x R in constr:(y :: R')
  | ?y ++ ?R => let R' := take_part x R in constr:(y ++ R')
  end.
Ltac front_cell p H :=
  flat H;
  lazymatch type of H with lays ?h ?cs =>
    let q := take_cell p cs in
    lazymatch q with (?b, ?R) =>
      apply (lays_perm h cs ((p, b) :: R)) in H; [|solve_Permutation] end end.
Ltac front_part x H :=
  flat H;
  lazymatch type of H with lays ?h ?cs =>
    let R := take_part x cs in apply (lays_perm h cs (x ++ R)) in H; [|solve_Permutation] end.

(** ** Trees with their places *)

Record payload := mkPayload {
  d_type : Z;
  d_text : option (loc * bytes);
  d_int : Z;
  d_double : double;
  d_name : option (loc * bytes);
}.

(** A reference has the text and the children of another item. *)
Inductive shape :=
  | Shape (p : loc) (d : payload) (kids : list shape)
  | Borrow (p : loc) (d : payload) (text kids : ptr).

Definition root (t : shape) : loc := match t with Shape p _ _ | Borrow p _ _ _ => p end.
Definition pay (t : shape) : payload := match t with Shape _ d _ | Borrow _ d _ _ => d end.
Definition head_or (l : list shape) (nx : ptr) : ptr :=
  match l with [] => nx | t :: _ => Some (root t) end.
Definition last_or (l : list shape) (prev : ptr) : ptr :=
  match last l with Some t => Some (root t) | None => prev end.

Definition text_cell (o : option (loc * bytes)) : list cell :=
  match o with Some (l, s) => [(l, Text s)] | None => [] end.

(** The structure of an item between its neighbours. *)
Definition top (prev next : ptr) (t : shape) : node :=
  match t with
  | Shape _ d kids => mkNode next prev (head_or kids None) (d_type d) (fst <$> d_text d)
                        (d_int d) (d_double d) (fst <$> d_name d)
  | Borrow _ d text kids => mkNode next prev kids (d_type d) text (d_int d) (d_double d) (fst <$> d_name d)
  end.

(** What the item owns beside its structure. *)
Fixpoint body (t : shape) : list cell :=
  match t with
  | Shape _ d kids =>
      text_cell (d_text d) ++ text_cell (d_name d) ++
      (fix chain (prev : ptr) (l : list shape) : list cell :=
         match l with
         | [] => []
         | t :: l => (root t, Item (top prev (head_or l None) t)) :: body t ++ chain (Some (root t)) l
         end) None kids
  | Borrow _ d _ _ => text_cell (d_name d)
  end.

Definition cells (prev next : ptr) (t : shape) : list cell := (root t, Item (top prev next t)) :: body t.

(** The items of a list, from the one after [prev] to the one before [nx]. *)
Fixpoint seg (prev : ptr) (l : list shape) (nx : ptr) : list cell :=
  match l with
  | [] => []
  | t :: l => cells prev (head_or l nx) t ++ seg (Some (root t)) l nx
  end.

Lemma body_Shape p d kids :
  body (Shape p d kids) = text_cell (d_text d) ++ text_cell (d_name d) ++ seg None kids None.
Proof.
  cbn [body]. do 2 f_equal.
  match goal with |- ?f None kids = _ =>
    enough (∀ prev, f prev kids = seg prev kids None) as E by apply E end.
  induction kids as [|t kids IH]; intros prev; [done|]. cbn. by rewrite IH.
Qed.

Lemma seg_app prev l1 l2 nx :
  seg prev (l1 ++ l2) nx = seg prev l1 (head_or l2 nx) ++ seg (last_or l1 prev) l2 nx.
Proof.
  revert prev. induction l1 as [|t l1 IH]; intros prev; [done|]. cbn [seg app].
  rewrite IH, <- (assoc_L (++)). f_equal; [f_equal; by destruct l1|].
  f_equal. unfold last_or. rewrite last_cons. by destruct (last l1).
Qed.

Lemma shape_ind' (P : shape → Prop) :
  (∀ p d kids, Forall P kids → P (Shape p d kids)) →
  (∀ p d text kids, P (Borrow p d text kids)) → ∀ t, P t.
Proof.
  intros HS HB. fix IH 1. intros [p d kids|p d text kids]; [|apply HB].
  apply HS. induction kids as [|t kids IHk]; constructor; auto.
Qed.

(** The type says whether an item is a reference. *)
Fixpoint typed (t : shape) : bool :=
  match t with
  | Shape _ d kids => (Z.land (d_type d) cJSON_IsReference =? 0) && forallb typed kids
  | Borrow _ d _ _ => negb (Z.land (d_type d) cJSON_IsReference =? 0)
  end.

(** How many items there are. *)
Fixpoint items (t : shape) : nat :=
  match t with
  | Shape _ _ kids => S (foldr (λ t n, items t + n)%nat O kids)
  | Borrow _ _ _ _ => 1
  end.
Definition count (l : list shape) : nat := foldr (λ t n, items t + n)%nat O l.

Lemma items_cells t prev nx : (items t ≤ length (cells prev nx t))%nat.
Proof.
  revert prev nx. induction t as [p d kids IH|] using shape_ind'; intros prev nx; cbn [items]; [|cbn; lia].
  unfold cells. rewrite body_Shape. cbn [length]. rewrite !length_app.
  cut (∀ pr, (count kids ≤ length (seg pr kids None))%nat); [intros Hc; specialize (Hc None); unfold count in Hc; lia|].
  induction IH as [|t l Ht _ IHl]; intros pr; [done|]. cbn [count foldr seg]. rewrite length_app.
  specialize (Ht pr (head_or l None)). specialize (IHl (Some (root t))). unfold count in IHl. lia.
Qed.
Lemma count_seg l prev nx : (count l ≤ length (seg prev l nx))%nat.
Proof.
  revert prev. induction l as [|t l IH]; intros prev; [done|]. cbn [count foldr seg]. rewrite length_app.
  pose proof (items_cells t prev (head_or l nx)). specialize (IH (Some (root t))). unfold count in IH. lia.
Qed.
Lemma seg_length prev l nx : (length l ≤ length (seg prev l nx))%nat.
Proof.
  revert prev. induction l as [|t l IH]; intros prev; [done|]. cbn [seg]. rewrite length_app.
  specialize (IH (Some (root t))). cbn [length cells]. lia.
Qed.
Lemma lays_count h prev l nx R : lays h (seg prev l nx ++ R) → (count l ≤ size h)%nat.
Proof.
  intros Hl. rewrite (lays_size _ _ Hl), length_app. pose proof (count_seg l prev nx). lia.
Qed.

(** ** Deletion *)

Lemma runs_free_text o R h Φ :
  lays h (text_cell o ++ R) → (∀ h', lays h' R → Φ tt h') → runs (free (fst <$> o)) h Φ.
Proof.
  destruct o as [[l s]|]; intros Hl HΦ; [eapply runs_free; [exact Hl|exact HΦ]|].
  apply runs_ret. by apply HΦ.
Qed.

(** All that the items own, their children included, is freed, and nothing else. *)
Lemma runs_delete_loop fuel l prev R h Φ :
  forallb typed l = true → (count l ≤ fuel)%nat → lays h (seg prev l None ++ R) →
  (∀ h', lays h' R → Φ tt h') → runs (delete_loop fuel (head_or l None)) h Φ.
Proof.
  revert l prev R h Φ. induction fuel as [|fuel IH]; intros [|t l] prev R h Φ Ht Hc Hl HΦ;
    cbn [delete_loop head_or]; try by apply runs_ret, HΦ.
  { cbn in Hc. destruct t; cbn in Hc; lia. }
  cbn in Ht, Hc. apply andb_true_iff in Ht as [Ht Htl]. cbn [seg] in Hl. unfold cells in Hl.
  flat Hl. apply runs_bind. eapply runs_load; [exact Hl|find_cell|]. apply runs_bind.
  destruct t as [p d kids|p d text kids]; unfold is_reference; cbn [top n_type root n_child] in *.
  - cbn in Ht. apply andb_true_iff in Ht as [Ht Hk].
    rewrite Ht. cbn [negb]. rewrite body_Shape in Hl. cbn in Hc. front_part (seg None kids None) Hl.
    eapply (IH kids None); [done|unfold count; lia|exact Hl|]. intros h1 H1.
    apply runs_bind. eapply runs_load; [exact H1|find_cell|]. cbn [n_type n_valuestring]. rewrite Ht. cbn [negb].
    apply runs_bind. front_part (text_cell (d_text d)) H1. eapply runs_free_text; [exact H1|]. intros h2 H2.
    apply runs_bind. eapply runs_load; [exact H2|find_cell|]. cbn [n_string].
    apply runs_bind. front_part (text_cell (d_name d)) H2. eapply runs_free_text; [exact H2|]. intros h3 H3.
    apply runs_bind. eapply runs_free; [exact H3|]. intros h4 H4.
    eapply (IH l); [done|unfold count; lia|exact H4|done].
  - cbn in Ht, Hc. apply negb_true_iff in Ht. rewrite Ht. cbn [negb body] in *.
    apply runs_ret, runs_bind. eapply runs_load; [exact Hl|find_cell|]. cbn [n_type]. rewrite Ht. cbn [negb].
    apply runs_bind, runs_ret, runs_bind. eapply runs_load; [exact Hl|find_cell|]. cbn [n_string].
    apply runs_bind. front_part (text_cell (d_name d)) Hl. eapply runs_free_text; [exact Hl|]. intros h3 H3.
    apply runs_bind. eapply runs_free; [exact H3|]. intros h4 H4.
    eapply (IH l); [done|unfold count; lia|exact H4|done].
Qed.

Lemma runs_delete l prev R h Φ :
  forallb typed l = true → lays h (seg prev l None ++ R) → (∀ h', lays h' R → Φ tt h') →
  runs (cJSON_Delete (head_or l None)) h Φ.
Proof.
  intros Ht Hl HΦ. apply runs_fuelled. eapply runs_delete_loop; [done| |exact Hl|done].
  pose proof (lays_count _ _ _ _ _ Hl). lia.
Qed.
Lemma runs_delete_one t prev R h Φ :
  typed t = true → lays h (cells prev None t ++ R) → (∀ h', lays h' R → Φ tt h') →
  runs (cJSON_Delete (Some (root t))) h Φ.
Proof.
  intros Ht Hl HΦ. apply (runs_delete [t] prev R); [cbn; by rewrite Ht| |done].
  cbn [seg head_or]. by rewrite app_nil_r.
Qed.

(** ** Walking along a list *)

(** The item that a tree stands for; what a reference shares is left out. *)
Fixpoint denote (t : shape) : cJSON :=
  match t with
  | Shape _ d kids => mkItem (d_type d) (snd <$> d_text d) (d_int d) (d_double d) (snd <$> d_name d) (denote <$> kids)
  | Borrow _ d _ _ => mkItem (d_type d) None (d_int d) (d_double d) (snd <$> d_name d) []
  end.

Lemma top_next prev next t : n_next (top prev next t) = next.
Proof. by destruct t. Qed.
Lemma top_prev prev next t : n_prev (top prev next t) = prev.
Proof. by destruct t. Qed.
Lemma top_string prev next t : n_string (top prev next t) = fst <$> d_name (pay t).
Proof. by destruct t. Qed.
Lemma set_next_top prev next v t : set_next v (top prev next t) = top prev v t.
Proof. by destruct t. Qed.
Lemma set_prev_top prev next v t : set_prev v (top prev next t) = top v next t.
Proof. by destruct t. Qed.
Lemma name_denote t : name (denote t) = snd <$> d_name (pay t).
Proof. by destruct t. Qed.

Lemma runs_walk n l prev R h Φ :
  lays h (seg prev l None ++ R) → Φ (head_or (drop n l) None) h → runs (walk n (head_or l None)) h Φ.
Proof.
  revert l prev R. induction n as [|n IH]; intros [|t l] prev R Hl HΦ; cbn [walk head_or drop] in *; try by apply runs_ret.
  cbn [seg] in Hl. unfold cells in Hl. flat Hl. apply runs_bind.
  eapply runs_load; [exact Hl|find_cell|]. rewrite top_next.
  front_part (seg (Some (root t)) l None) Hl. by eapply IH.
Qed.

(** The name of an item of the list is in the heap. *)
Lemma runs_read_name t h prev nx R Φ :
  lays h (cells prev nx t ++ R) → Φ (name (denote t)) h → runs (read_text (fst <$> d_name (pay t))) h Φ.
Proof.
  rewrite name_denote. intros Hl HΦ. destruct (d_name (pay t)) as [[q s]|] eqn:E; cbn in *; [|by apply runs_ret].
  eapply runs_read_text; [exact Hl| |exact HΦ]. right. apply elem_of_app. left.
  destruct t as [p d kids|p d text kids]; cbn in E; [rewrite body_Shape|cbn]; rewrite E; cbn [text_cell]; find_cell.
Qed.

Definition position (string : option bytes) (l : list shape) : nat :=
  default (length l) (index_of string (denote <$> l)).

Lemma runs_find fuel string i l prev R h Φ :
  (length l ≤ fuel)%nat → lays h (seg prev l None ++ R) →
  Φ (head_or (drop (position string l) l) None, i + Z.of_nat (position string l)) h →
  runs (find_loop fuel string i (head_or l None)) h Φ.
Proof.
  revert l prev R i. induction fuel as [|fuel IH]; intros [|t l] prev R i Hf Hl HΦ;
    cbn [find_loop head_or] in *; try (apply runs_ret; by rewrite Z.add_0_r in HΦ).
  { cbn in Hf. lia. }
  cbn [seg] in Hl. apply runs_bind. eapply runs_load; [exact Hl|unfold cells; find_cell|]. rewrite top_next, top_string.
  apply runs_bind. flat Hl. eapply runs_read_name; [exact Hl|].
  unfold position in HΦ. cbn [fmap list_fmap index_of] in HΦ.
  destruct (strcaseeq (name (denote t)) string) eqn:E.
  { apply runs_ret. cbn in HΦ. by rewrite Z.add_0_r in HΦ. }
  front_part (seg (Some (root t)) l None) Hl. eapply IH; [cbn in Hf; lia|exact Hl|].
  replace (i + 1 + Z.of_nat (position string l)) with (i + Z.of_nat (S (position string l))) by lia.
  unfold position, fmap in *. by destruct (index_of string (list_fmap _ _ denote l)).
Qed.

Lemma runs_size fuel l prev R i h Φ :
  (length l ≤ fuel)%nat → lays h (seg prev l None ++ R) → Φ (i + Z.of_nat (length l)) h →
  runs (size_loop fuel (head_or l None) i) h Φ.
Proof.
  revert l prev R i. induction fuel as [|fuel IH]; intros [|t l] prev R i Hf Hl HΦ;
    cbn [size_loop head_or] in *; try (apply runs_ret; by rewrite Z.add_0_r in HΦ).
  { cbn in Hf. lia. }
  cbn [seg] in Hl. unfold cells in Hl. flat Hl. apply runs_bind.
  eapply runs_load; [exact Hl|find_cell|]. rewrite top_next.
  front_part (seg (Some (root t)) l None) Hl. eapply IH; [cbn in Hf; lia|exact Hl|].
  cbn [length] in HΦ. by rewrite Nat2Z.inj_succ, <- Z.add_1_l, Z.add_assoc in HΦ.
Qed.

Lemma last_or_cons t l prev : last_or (t :: l) prev = last_or l (Some (root t)).
Proof. unfold last_or. rewrite last_cons. by destruct (last l). Qed.

Lemma last_or_snoc l t prev : last_or (l ++ [t]) prev = Some (root t).
Proof. unfold last_or. by rewrite last_snoc. Qed.

Lemma runs_last fuel t l prev R h Φ :
  (length l < fuel)%nat → lays h (seg prev (t :: l) None ++ R) → Φ (last_or (t :: l) None) h →
  runs (last_loop fuel (Some (root t))) h Φ.
Proof.
  revert t l prev R. induction fuel as [|fuel IH]; intros t l prev R Hf Hl HΦ; [lia|].
  cbn [last_loop]. cbn [seg] in Hl. unfold cells in Hl. flat Hl. apply runs_bind.
  eapply runs_load; [exact Hl|find_cell|]. rewrite top_next.
  destruct l as [|u l]; cbn [head_or]; [by apply runs_ret|].
  front_part (seg (Some (root t)) (u :: l) None) Hl. eapply (IH u l); [cbn in Hf; lia|exact Hl|].
  by rewrite !last_or_cons in *.
Qed.

(** ** Changing a list *)

(** [if (c->prev) c->prev->next = v], for the list before [c]. *)
Lemma runs_relink_next l prev nx v R h Φ :
  lays h (seg prev l nx ++ R) → (∀ h', lays h' (seg prev l v ++ R) → Φ tt h') →
  runs (if last_or l None is Some _ then change (last_or l None) (set_next v) else mret tt) h Φ.
Proof.
  intros Hl HΦ. destruct l as [|t l _] using rev_ind; [by apply runs_ret, HΦ|].
  unfold last_or at 1 2. rewrite last_snoc. rewrite seg_app in Hl. cbn [seg head_or] in Hl. unfold cells in Hl.
  front_cell (root t) Hl. eapply runs_change; [exact Hl|]. intros h' H'. apply HΦ.
  rewrite seg_app. cbn [seg head_or]. unfold cells. rewrite set_next_top in H'. blocks.
Qed.
Lemma runs_change_last l prev nx v R h Φ :
  is_Some (last_or l None) → lays h (seg prev l nx ++ R) → (∀ h', lays h' (seg prev l v ++ R) → Φ tt h') →
  runs (change (last_or l None) (set_next v)) h Φ.
Proof.
  intros [q E] Hl HΦ. eapply (runs_relink_next _ _ _ v) in Hl; [|exact HΦ]. by rewrite E in *.
Qed.

(** [if (c->next) c->next->prev = v], for the list behind [c]. *)
Lemma runs_relink_prev l prev nx v R h Φ :
  lays h (seg prev l nx ++ R) → (∀ h', lays h' (seg v l nx ++ R) → Φ tt h') →
  runs (if head_or l None is Some _ then change (head_or l None) (set_prev v) else mret tt) h Φ.
Proof.
  destruct l as [|t l]; intros Hl HΦ; [by apply runs_ret, HΦ|]. cbn [head_or seg] in *. unfold cells in *.
  flat Hl. eapply runs_change; [exact Hl|]. intros h' H'. apply HΦ. rewrite set_prev_top in H'. blocks.
Qed.

Lemma lays_ne h p b q b' R : lays h ((p, b) :: (q, b') :: R) → p ≠ q.
Proof.
  intros Hl ->. pose proof (NoDup_fst_map_to_list h) as Hn. rewrite Hl in Hn. cbn in Hn.
  apply NoDup_cons in Hn as [Hn _]. apply Hn. constructor.
Qed.

Lemma head_or_app l1 l2 nx : head_or (l1 ++ l2) nx = head_or l1 (head_or l2 nx).
Proof. by destruct l1. Qed.

(** The first item of a list is not one that comes later. *)
Lemma head_ne h l1 t l2 R :
  lays h (seg None (l1 ++ t :: l2) None ++ R) → Some (root t) = head_or (l1 ++ t :: l2) None ↔ l1 = [].
Proof.
  destruct l1 as [|u l1]; intros Hl; [done|]. split; [|done]. cbn. intros [= E].
  cbn [app seg] in Hl. rewrite seg_app in Hl. cbn [seg] in Hl. unfold cells in Hl.
  front_cell (root t) Hl. front_cell (root u) Hl. by apply lays_ne in Hl.
Qed.

(** ** Arrays and objects *)

(** An array or object is its structure, its texts and its list. *)
Lemma cells_Shape pr nx p d kids :
  cells pr nx (Shape p d kids) ≡ₚ
    (p, Item (top pr nx (Shape p d kids))) :: seg None kids None ++ text_cell (d_text d) ++ text_cell (d_name d).
Proof. unfold cells. rewrite body_Shape. cbn [root]. solve_Permutation. Qed.

Lemma top_Shape pr nx p d kids kids' :
  head_or kids None = head_or kids' None → top pr nx (Shape p d kids) = top pr nx (Shape p d kids').
Proof. cbn. by intros ->. Qed.

(** The first item of a list, and one behind the last. *)
Lemma runs_first pr nx p d t R h Φ :
  lays h (cells pr nx (Shape p d []) ++ cells None None t ++ R) →
  (∀ h', lays h' (cells pr nx (Shape p d [t]) ++ R) → Φ tt h') →
  runs (change (Some p) (set_nchild (Some (root t)))) h Φ.
Proof.
  setoid_rewrite cells_Shape. intros Hl HΦ. flat Hl. eapply runs_change; [exact Hl|].
  intros h' H'. apply HΦ. cbn [app seg head_or top set_nchild] in *. blocks.
Qed.
Lemma last_or_Some u (l : list shape) prev : is_Some (last_or (u :: l) prev).
Proof. unfold last_or. rewrite last_cons. destruct (last l); eauto. Qed.
Lemma runs_suffix pr nx p d kids t R h Φ :
  kids ≠ [] → lays h (cells pr nx (Shape p d kids) ++ cells None None t ++ R) →
  (∀ h', lays h' (cells pr nx (Shape p d (kids ++ [t])) ++ R) → Φ tt h') →
  runs (suffix_object (last_or kids None) (Some (root t))) h Φ.
Proof.
  setoid_rewrite cells_Shape. intros Hk Hl HΦ. destruct kids as [|u kids]; [done|]. flat Hl.
  front_part (seg None (u :: kids) None) Hl. unfold suffix_object. apply runs_bind.
  eapply runs_change_last; [apply last_or_Some|exact Hl|].
  intros h1 H1. unfold cells in H1. front_cell (root t) H1. eapply runs_change; [exact H1|]. intros h2 H2.
  apply HΦ. rewrite set_prev_top in H2. rewrite seg_app. cbn [head_or seg]. unfold cells.
  erewrite (top_Shape _ _ _ _ ((u :: kids) ++ [t])); [blocks|done].
Qed.

Lemma runs_add pr nx p d kids t R h Φ :
  lays h (cells pr nx (Shape p d kids) ++ cells None None t ++ R) →
  (∀ h', lays h' (cells pr nx (Shape p d (kids ++ [t])) ++ R) → Φ tt h') →
  runs (cJSON_AddItemToArray (Some p) (Some (root t))) h Φ.
Proof.
  intros Hl HΦ. unfold cJSON_AddItemToArray. apply runs_bind.
  eapply runs_load; [exact Hl|unfold cells; find_cell|]. cbn [n_child top].
  destruct kids as [|u kids]; cbn [head_or]; [by eapply runs_first|].
  apply runs_bind, runs_fuelled. pose proof Hl as H1. rewrite cells_Shape in H1.
  front_part (seg None (u :: kids) None) H1. eapply (runs_last _ u kids); [|exact H1|].
  { rewrite (lays_size _ _ H1), length_app. pose proof (seg_length None (u :: kids) None). cbn in *. lia. }
  by eapply runs_suffix.
Qed.

Definition with_name (o : option (loc * bytes)) (t : shape) : shape :=
  match t with
  | Shape p d kids => Shape p (mkPayload (d_type d) (d_text d) (d_int d) (d_double d) o) kids
  | Borrow p d text kids => Borrow p (mkPayload (d_type d) (d_text d) (d_int d) (d_double d) o) text kids
  end.
Lemma root_with_name o t : root (with_name o t) = root t.
Proof. by destruct t. Qed.
Lemma denote_with_name q s t : denote (with_name (Some (q, s)) t) = set_name (Some s) (denote t).
Proof. by destruct t. Qed.
Lemma typed_with_name o t : typed (with_name o t) = typed t.
Proof. by destruct t. Qed.
Lemma set_string_top o prev next t : set_string (fst <$> o) (top prev next t) = top prev next (with_name o t).
Proof. by destruct t. Qed.

(** What an item owns beside its name. *)
Definition unnamed (t : shape) : list cell := body (with_name None t).
Lemma body_name t : body t ≡ₚ text_cell (d_name (pay t)) ++ unnamed t.
Proof.
  unfold unnamed. destruct t as [p d kids|p d text kids]; cbn [with_name pay]; [|cbn; by rewrite app_nil_r].
  rewrite !body_Shape. cbn. solve_Permutation.
Qed.
Lemma body_with_name o t : body (with_name o t) ≡ₚ text_cell o ++ unnamed t.
Proof. rewrite body_name. by destruct t. Qed.

(** [item->string = cJSON_strdup(string)], whether or not the old string is still there. *)
Lemma runs_rename `{Allocator} prev next t string R h Φ :
  lays h ((root t, Item (top prev next t)) :: unnamed t ++ R) →
  (∀ q h', lays h' (cells prev next (with_name (Some (q, string)) t) ++ R) → Φ tt h') →
  runs (s ← cJSON_strdup string; change (Some (root t)) (set_string s)) h Φ.
Proof.
  unfold cells. setoid_rewrite body_with_name. intros Hl HΦ.
  apply runs_bind. eapply runs_alloc; [exact Hl|]. intros q h1 _ _ H1. front_cell (root t) H1.
  eapply runs_change; [exact H1|]. intros h2 H2. apply (HΦ q).
  rewrite (set_string_top (Some (q, string))) in H2. rewrite root_with_name. cbn [text_cell]. blocks.
Qed.

Lemma runs_add_named `{Allocator} pr nx p d kids t string R h Φ :
  lays h (cells pr nx (Shape p d kids) ++ cells None None t ++ R) →
  (∀ q h', lays h' (cells pr nx (Shape p d (kids ++ [with_name (Some (q, string)) t])) ++ R) → Φ tt h') →
  runs (cJSON_AddItemToObject (Some p) string (Some (root t))) h Φ.
Proof.
  intros Hl HΦ. unfold cJSON_AddItemToObject, cells in *. rewrite (body_name t) in Hl. flat Hl.
  apply runs_bind. eapply runs_load; [exact Hl|find_cell|]. rewrite top_string.
  front_part (text_cell (d_name (pay t))) Hl.
  apply runs_bind. eapply runs_free_text; [exact Hl|]. intros h1 H1.
  front_part (unnamed t) H1. front_cell (root t) H1.
  apply runs_assoc. eapply runs_rename; [exact H1|]. intros q h2 H2.
  rewrite <- (root_with_name (Some (q, string)) t).
  eapply runs_add; [|intros h3 H3; apply (HΦ q), H3]. unfold cells. blocks.
Qed.

Lemma head_or_drop (l : list shape) i nx :
  head_or (drop i l) nx = match l !! i with Some t => Some (root t) | None => nx end.
Proof. rewrite <- (Nat.add_0_r i) at 2. rewrite <- lookup_drop. by destruct (drop i l). Qed.

Lemma seg_middle prev l1 t l2 :
  seg prev (l1 ++ t :: l2) None =
    seg prev l1 (Some (root t)) ++ cells (last_or l1 prev) (head_or l2 None) t ++ seg (Some (root t)) l2 None.
Proof. by rewrite seg_app. Qed.

(** The walk to an item splits the list there. *)
Lemma runs_reach {A} (k : ptr → state heap A) pr nx p d kids which t R h Φ :
  lays h ((p, Item (top pr nx (Shape p d kids))) :: seg None kids None ++ text_cell (d_text d) ++ text_cell (d_name d) ++ R) →
  kids !! Z.to_nat which = Some t →
  (∀ l1 l2, kids = l1 ++ t :: l2 → length l1 = Z.to_nat which →
    (Some (root t) = head_or kids None ↔ l1 = []) →
    lays h (seg None l1 (Some (root t)) ++ cells (last_or l1 None) (head_or l2 None) t ++ seg (Some (root t)) l2 None ++
      (p, Item (top pr nx (Shape p d kids))) :: text_cell (d_text d) ++ text_cell (d_name d) ++ R) →
    runs (k (Some (root t))) h Φ) →
  runs (a ← load (Some p); c ← walk (Z.to_nat which) (n_child a); k c) h Φ.
Proof.
  intros Hl Ht Hk. apply runs_bind. eapply runs_load; [exact Hl|find_cell|]. cbn [n_child top].
  front_part (seg None kids None) Hl. apply runs_bind. eapply runs_walk; [exact Hl|].
  rewrite head_or_drop, Ht. pose proof (take_drop_middle kids _ t Ht) as E.
  apply (Hk (take (Z.to_nat which) kids) (drop (S (Z.to_nat which)) kids)); [done| | |].
  - apply length_take_le. apply lookup_lt_Some in Ht. lia.
  - rewrite <- E at 1. eapply head_ne. rewrite E. exact Hl.
  - rewrite <- E in Hl at 1. rewrite seg_middle in Hl. unfold cells in *. flat Hl. blocks.
Qed.

Lemma runs_detach pr nx p d kids which t R h Φ :
  lays h (cells pr nx (Shape p d kids) ++ R) → kids !! Z.to_nat which = Some t →
  (∀ h', lays h' (cells pr nx (Shape p d (delete (Z.to_nat which) kids)) ++ cells None None t ++ R) →
    Φ (Some (root t)) h') →
  runs (cJSON_DetachItemFromArray (Some p) which) h Φ.
Proof.
  setoid_rewrite cells_Shape. intros Hl Ht HΦ. flat Hl. eapply runs_reach; [exact Hl|exact Ht|].
  clear Hl Ht. intros l1 l2 -> Hlen Hne Hl. rewrite <- Hlen, delete_middle in HΦ. unfold cells in Hl. flat Hl.
  apply runs_bind. eapply runs_load; [exact Hl|find_cell|]. rewrite top_next, top_prev.
  apply runs_bind. eapply runs_relink_next; [exact Hl|]. intros h1 H1.
  apply runs_bind. eapply runs_load; [exact H1|find_cell|]. rewrite top_next, top_prev.
  front_part (seg (Some (root t)) l2 None) H1.
  apply runs_bind. eapply runs_relink_prev; [exact H1|]. intros h2 H2.
  apply runs_bind. eapply runs_load; [exact H2|find_cell|]. cbn [n_child top].
  apply runs_bind. eapply runs_load; [exact H2|find_cell|]. rewrite top_next.
  apply runs_bind. front_cell p H2.
  assert (∀ h3, lays h3 ((p, Item (top pr nx (Shape p d (l1 ++ l2)))) :: seg None l1 (head_or l2 None) ++
      seg (last_or l1 None) l2 None ++ (root t, Item (top (last_or l1 None) (head_or l2 None) t)) :: body t ++
      text_cell (d_text d) ++ text_cell (d_name d) ++ R) →
    runs (change (Some (root t)) (λ n, set_prev None (set_next None n));; mret (Some (root t))) h3 Φ) as Hend.
  { intros h3 H3. front_cell (root t) H3. apply runs_bind. eapply runs_change; [exact H3|]. intros h4 H4.
    apply runs_ret, HΦ. rewrite set_next_top, set_prev_top in H4. rewrite seg_app. unfold cells. blocks. }
  destruct (decide _) as [Ed|Ed]; rewrite Hne in Ed.
  - subst l1. eapply runs_change; [exact H2|]. intros h3 H3. apply Hend. cbn in H3 |- *. blocks.
  - apply runs_ret, Hend. rewrite (top_Shape _ _ _ _ _ (l1 ++ t :: l2)) by (by destruct l1). blocks.
Qed.

Lemma runs_detach_none pr nx p d kids which R h Φ :
  lays h (cells pr nx (Shape p d kids) ++ R) → kids !! Z.to_nat which = None → Φ None h →
  runs (cJSON_DetachItemFromArray (Some p) which) h Φ.
Proof.
  setoid_rewrite cells_Shape. intros Hl Ht HΦ. unfold cJSON_DetachItemFromArray. flat Hl.
  apply runs_bind. eapply runs_load; [exact Hl|find_cell|]. cbn [n_child top].
  front_part (seg None kids None) Hl. apply runs_bind. eapply runs_walk; [exact Hl|].
  rewrite head_or_drop, Ht. by apply runs_ret.
Qed.

(** The search of the functions on objects. *)
Lemma runs_search pr nx p d kids string R h Φ :
  lays h (cells pr nx (Shape p d kids) ++ R) →
  Φ (root <$> kids !! position string kids, Z.of_nat (position string kids)) h →
  runs (o ← load (Some p); fuelled (λ fuel, find_loop fuel string 0 (n_child o))) h Φ.
Proof.
  setoid_rewrite cells_Shape. intros Hl HΦ. flat Hl.
  apply runs_bind. eapply runs_load; [exact Hl|find_cell|]. cbn [n_child top].
  front_part (seg None kids None) Hl. apply runs_fuelled. eapply runs_find; [|exact Hl|].
  { rewrite (lays_size _ _ Hl), length_app. pose proof (seg_length None kids None). lia. }
  rewrite head_or_drop, Z.add_0_l. by destruct (kids !! position string kids).
Qed.

Lemma runs_replace pr nx p d kids which t u pr' nx' R h Φ :
  lays h (cells pr nx (Shape p d kids) ++ cells pr' nx' u ++ R) → kids !! Z.to_nat which = Some t → typed t = true →
  (∀ h', lays h' (cells pr nx (Shape p d (<[Z.to_nat which := u]> kids)) ++ R) → Φ tt h') →
  runs (cJSON_ReplaceItemInArray (Some p) which (Some (root u))) h Φ.
Proof.
  setoid_rewrite cells_Shape. intros Hl Ht Hty HΦ. flat Hl. eapply runs_reach; [exact Hl|exact Ht|].
  clear Hl Ht. intros l1 l2 -> Hlen Hne Hl.
  rewrite <- (Nat.add_0_r (Z.to_nat which)), <- Hlen, insert_app_r in HΦ. cbn in HΦ. unfold cells in Hl. flat Hl.
  apply runs_bind. eapply runs_load; [exact Hl|find_cell|]. rewrite top_next.
  front_cell (root u) Hl. apply runs_bind. eapply runs_change; [exact Hl|]. intros h1 H1. rewrite set_next_top in H1.
  apply runs_bind. eapply runs_load; [exact H1|find_cell|]. rewrite top_prev.
  apply runs_bind. eapply runs_change; [exact H1|]. intros h2 H2. rewrite set_prev_top in H2.
  apply runs_bind. eapply runs_load; [exact H2|find_cell|]. rewrite top_next.
  front_part (seg (Some (root t)) l2 None) H2.
  apply runs_bind. eapply runs_relink_prev; [exact H2|]. intros h3 H3.
  apply runs_bind. eapply runs_load; [exact H3|find_cell|]. cbn [n_child top].
  apply runs_bind. front_cell p H3.
  assert (∀ h4, lays h4 ((p, Item (top pr nx (Shape p d (l1 ++ u :: l2)))) :: seg None l1 (Some (root u)) ++
      cells (last_or l1 None) (head_or l2 None) u ++ seg (Some (root u)) l2 None ++
      cells (last_or l1 None) (head_or l2 None) t ++ text_cell (d_text d) ++ text_cell (d_name d) ++ R) →
    runs (change (Some (root t)) (λ n, set_next None (set_prev None n));; cJSON_Delete (Some (root t))) h4 Φ) as Hend.
  { intros h4 H4. unfold cells in H4. flat H4. front_cell (root t) H4. apply runs_bind.
    eapply runs_change; [exact H4|]. intros h5 H5. rewrite set_prev_top, set_next_top in H5.
    front_part (body t) H5. front_cell (root t) H5.
    eapply runs_delete_one; [done|unfold cells; exact H5|]. intros h6 H6. apply HΦ.
    rewrite seg_middle. unfold cells. blocks. }
  destruct (decide _) as [Ed|Ed]; rewrite Hne in Ed.
  - subst l1. eapply runs_change; [exact H3|]. intros h4 H4. apply Hend. unfold cells. cbn [app seg head_or top set_nchild] in H4 |- *. blocks.
  - apply runs_bind. eapply runs_load; [exact H3|find_cell|]. rewrite top_prev.
    front_part (seg None l1 (Some (root t))) H3. eapply runs_change_last; [|exact H3|].
    { destruct l1; [done|]. apply last_or_Some. }
    intros h4 H4. apply Hend. rewrite (top_Shape _ _ _ _ _ (l1 ++ t :: l2)) by (by destruct l1). unfold cells. blocks.
Qed.

Lemma delete_beyond {A} (l : list A) i : l !! i = None → delete i l = l.
Proof. revert i. induction l as [|x l IH]; intros [|i] Hi; cbn in *; [done..|]. by rewrite IH. Qed.

Lemma runs_delete_item pr nx p d kids which R h Φ :
  lays h (cells pr nx (Shape p d kids) ++ R) → forallb typed kids = true →
  (∀ h', lays h' (cells pr nx (Shape p d (delete (Z.to_nat which) kids)) ++ R) → Φ tt h') →
  runs (cJSON_DeleteItemFromArray (Some p) which) h Φ.
Proof.
  intros Hl Hty HΦ. apply runs_bind. destruct (kids !! Z.to_nat which) as [t|] eqn:Ht.
  - eapply runs_detach; [exact Hl|exact Ht|]. intros h1 H1. front_part (cells None None t) H1.
    eapply runs_delete_one; [|exact H1|exact HΦ].
    rewrite forallb_forall in Hty. apply Hty, list_elem_of_In. by eapply list_elem_of_lookup_2.
  - eapply runs_detach_none; [exact Hl|exact Ht|]. apply runs_ret, HΦ.
    rewrite delete_beyond by done. exact Hl.
Qed.

Lemma runs_get_item pr nx p d kids which R h Φ :
  lays h (cells pr nx (Shape p d kids) ++ R) → Φ (root <$> kids !! Z.to_nat which) h →
  runs (cJSON_GetArrayItem (Some p) which) h Φ.
Proof.
  setoid_rewrite cells_Shape. intros Hl HΦ. flat Hl. apply runs_bind.
  eapply runs_load; [exact Hl|find_cell|]. cbn [n_child top].
  front_part (seg None kids None) Hl. eapply runs_walk; [exact Hl|].
  rewrite head_or_drop. by destruct (kids !! Z.to_nat which).
Qed.
Lemma runs_get_size pr nx p d kids R h Φ :
  lays h (cells pr nx (Shape p d kids) ++ R) → Φ (Z.of_nat (length kids)) h →
  runs (cJSON_GetArraySize (Some p)) h Φ.
Proof.
  setoid_rewrite cells_Shape. intros Hl HΦ. flat Hl. apply runs_bind.
  eapply runs_load; [exact Hl|find_cell|]. cbn [n_child top].
  front_part (seg None kids None) Hl. apply runs_fuelled. eapply runs_size; [|exact Hl|exact HΦ].
  rewrite (lays_size _ _ Hl), length_app. pose proof (seg_length None kids None). lia.
Qed.
Lemma runs_get_named pr nx p d kids string R h Φ :
  lays h (cells pr nx (Shape p d kids) ++ R) → Φ (root <$> kids !! position string kids) h →
  runs (cJSON_GetObjectItem (Some p) string) h Φ.
Proof. intros Hl HΦ. apply runs_assoc. eapply runs_search; [exact Hl|]. by apply runs_ret. Qed.

Lemma runs_detach_named pr nx p d kids string R h Φ :
  lays h (cells pr nx (Shape p d kids) ++ R) →
  (∀ h', lays h' (cells pr nx (Shape p d (delete (position string kids) kids)) ++
      match kids !! position string kids with Some t => cells None None t | None => [] end ++ R) →
    Φ (root <$> kids !! position string kids) h') →
  runs (cJSON_DetachItemFromObject (Some p) string) h Φ.
Proof.
  intros Hl HΦ. apply runs_assoc. eapply runs_search; [exact Hl|].
  destruct (kids !! position string kids) as [t|] eqn:Ht; cbn [fmap option_fmap option_map] in *.
  - eapply runs_detach; [exact Hl|by rewrite Nat2Z.id|]. rewrite Nat2Z.id. exact HΦ.
  - apply runs_ret, HΦ. rewrite delete_beyond by done. exact Hl.
Qed.
Lemma runs_delete_named pr nx p d kids string R h Φ :
  lays h (cells pr nx (Shape p d kids) ++ R) → forallb typed kids = true →
  (∀ h', lays h' (cells pr nx (Shape p d (delete (position string kids) kids)) ++ R) → Φ tt h') →
  runs (cJSON_DeleteItemFromObject (Some p) string) h Φ.
Proof.
  intros Hl Hty HΦ. apply runs_bind. eapply runs_detach_named; [exact Hl|].
  destruct (kids !! position string kids) as [t|] eqn:Ht; cbn [fmap option_fmap option_map]; intros h1 H1.
  - front_part (cells None None t) H1. eapply runs_delete_one; [|exact H1|exact HΦ].
    rewrite forallb_forall in Hty. apply Hty, list_elem_of_In. by eapply list_elem_of_lookup_2.
  - by apply runs_ret, HΦ.
Qed.

(** The name that the new item had stays allocated. *)
Lemma runs_replace_named `{Allocator} pr nx p d kids string t u pr' nx' R h Φ :
  lays h (cells pr nx (Shape p d kids) ++ cells pr' nx' u ++ R) →
  kids !! position (Some string) kids = Some t → typed t = true →
  (∀ q h', lays h' (cells pr nx (Shape p d (<[position (Some string) kids := with_name (Some (q, string)) u]> kids)) ++
      text_cell (d_name (pay u)) ++ R) → Φ tt h') →
  runs (cJSON_ReplaceItemInObject (Some p) string (Some (root u))) h Φ.
Proof.
  intros Hl Ht Hty HΦ. apply runs_assoc. eapply runs_search; [exact Hl|]. rewrite Ht. cbn [fmap option_fmap option_map].
  apply runs_assoc. unfold cells at 2 in Hl. rewrite (body_name u) in Hl.
  front_part (unnamed u) Hl. front_cell (root u) Hl. eapply runs_rename; [exact Hl|]. intros q h1 H1.
  rewrite <- (root_with_name (Some (q, string)) u).
  eapply (runs_replace pr nx p d kids _ t _ pr' nx'); [|by rewrite Nat2Z.id|done|].
  { front_part (cells pr nx (Shape p d kids)) H1. exact H1. }
  rewrite Nat2Z.id. intros h2 H2. apply (HΦ q). blocks.
Qed.

(** ** Creation *)

(** A tree that has no references. *)
Fixpoint plain (t : shape) : bool :=
  match t with
  | Shape _ d kids => (Z.land (d_type d) cJSON_IsReference =? 0) && forallb plain kids
  | Borrow _ _ _ _ => false
  end.
Lemma plain_typed t : plain t = true → typed t = true.
Proof.
  induction t as [p d kids IH|] using shape_ind'; cbn; [|done].
  rewrite !andb_true_iff, !forallb_forall. intros [? Hk]. split; [done|].
  intros t Ht. rewrite Forall_forall in IH. apply IH, Hk; [|done]. by apply list_elem_of_In.
Qed.

(** [m] makes a new item, which is [i], and touches nothing else. *)
Definition makes (m : state heap ptr) (i : cJSON) : Prop :=
  ∀ R h Φ, lays h R →
    (∀ t h', denote t = i → plain t = true → lays h' (cells None None t ++ R) → Φ (Some (root t)) h') →
    runs m h Φ.

Section creation.
Context `{Allocator}.

Lemma create_makes f i :
  (∀ p, ∃ d, f (mkNode None None None 0 None 0 (Zero false) None) = top None None (Shape p d []) ∧
    d_text d = None ∧ d_name d = None ∧ denote (Shape p d []) = i ∧ plain (Shape p d []) = true) →
  makes (create f) i.
Proof.
  intros Hf R h Φ Hl HΦ. apply runs_bind. eapply runs_alloc; [exact Hl|]. intros p h1 _ _ H1.
  apply runs_bind. eapply runs_change; [exact H1|]. intros h2 H2. apply runs_ret.
  destruct (Hf p) as (d & E & Et & En & Ei & Hp). rewrite E in H2.
  apply (HΦ (Shape p d []) h2 Ei Hp). rewrite cells_Shape, Et, En. exact H2.
Qed.

Lemma simple_makes ty : (Z.land ty cJSON_IsReference =? 0) = true → makes (create (set_ntype ty)) (new_item ty).
Proof.
  intros Hty. apply create_makes. intros p. exists (mkPayload ty None 0 (Zero false) None).
  cbn in *. by rewrite Hty.
Qed.
Lemma CreateNull_makes : makes cJSON_CreateNull CJson.cJSON_CreateNull.
Proof. by apply simple_makes. Qed.
Lemma CreateTrue_makes : makes cJSON_CreateTrue CJson.cJSON_CreateTrue.
Proof. by apply simple_makes. Qed.
Lemma CreateFalse_makes : makes cJSON_CreateFalse CJson.cJSON_CreateFalse.
Proof. by apply simple_makes. Qed.
Lemma CreateBool_makes b : makes (cJSON_CreateBool b) (CJson.cJSON_CreateBool b).
Proof. apply simple_makes. by destruct b. Qed.
Lemma CreateArray_makes : makes cJSON_CreateArray CJson.cJSON_CreateArray.
Proof. by apply simple_makes. Qed.
Lemma CreateObject_makes : makes cJSON_CreateObject CJson.cJSON_CreateObject.
Proof. by apply simple_makes. Qed.
Lemma CreateNumber_makes overflow num :
  makes (cJSON_CreateNumber overflow num) (CJson.cJSON_CreateNumber overflow num).
Proof.
  apply create_makes. intros p. by exists (mkPayload cJSON_Number None (to_int overflow num) num None).
Qed.
Lemma CreateString_makes s : makes (cJSON_CreateString s) (CJson.cJSON_CreateString s).
Proof.
  intros R h Φ Hl HΦ. apply runs_bind. eapply runs_alloc; [exact Hl|]. intros p h1 _ _ H1.
  apply runs_bind. eapply runs_change; [exact H1|]. intros h2 H2.
  apply runs_bind. eapply runs_alloc; [exact H2|]. intros q h3 _ _ H3. front_cell p H3.
  apply runs_bind. eapply runs_change; [exact H3|]. intros h4 H4. apply runs_ret.
  apply (HΦ (Shape p (mkPayload cJSON_String (Some (q, s)) 0 (Zero false) None) []) h4); [done|done|].
  rewrite cells_Shape. exact H4.
Qed.

(** Filling an array that has [kids] already. *)
Lemma runs_fill ms its p d kids R h Φ :
  Forall2 makes ms its → lays h (cells None None (Shape p d kids) ++ R) →
  (∀ ts h', denote <$> ts = its → forallb plain ts = true →
    lays h' (cells None None (Shape p d (kids ++ ts)) ++ R) → Φ tt h') →
  runs (fill ms (Some p) (last_or kids None)) h Φ.
Proof.
  intros Hm. revert kids h. induction Hm as [|m i ms its Hmi _ IH]; intros kids h Hl HΦ; cbn [fill].
  { apply runs_ret, (HΦ []); [done..|]. by rewrite app_nil_r. }
  apply runs_bind. eapply Hmi; [exact Hl|]. intros t h1 Ht Hp H1. front_part (cells None None (Shape p d kids)) H1.
  assert (∀ h2, lays h2 (cells None None (Shape p d (kids ++ [t])) ++ R) →
    runs (fill ms (Some p) (Some (root t))) h2 Φ) as Hnext.
  { intros h2 H2. rewrite <- (last_or_snoc kids t None). apply IH; [exact H2|].
    intros ts h3 Hts Hpl H3. apply (HΦ (t :: ts)); [cbn; by rewrite Ht, Hts|cbn; by rewrite Hp|].
    by rewrite <- app_assoc in H3. }
  apply runs_bind. destruct kids as [|u kids]; [by eapply runs_first|].
  destruct (last_or_Some u kids None) as [q Eq]. rewrite Eq, <- Eq. by eapply runs_suffix.
Qed.

Lemma create_filled_makes ms its :
  Forall2 makes ms its → makes (create_filled ms) (set_child its CJson.cJSON_CreateArray).
Proof.
  intros Hm R h Φ Hl HΦ. apply runs_bind. eapply CreateArray_makes; [exact Hl|].
  intros [p d kids|] h1 Hd Hp H1; [|done]. injection Hd as Ety Etx Ein Edb Enm Ekd.
  destruct kids; [|done]. apply runs_bind. eapply (runs_fill ms its p d []); [done|exact H1|].
  intros ts h2 Hts Hpl H2. apply runs_ret. apply (HΦ (Shape p d ts)); [|cbn; by rewrite Ety|exact H2].
  cbn. by rewrite Ety, Etx, Ein, Edb, Enm, Hts.
Qed.
Lemma CreateIntArray_makes overflow numbers :
  makes (cJSON_CreateIntArray overflow numbers) (CJson.cJSON_CreateIntArray overflow numbers).
Proof. apply create_filled_makes, Forall2_fmap, Forall_Forall2_diag, Forall_true. intros n. apply CreateNumber_makes. Qed.
Lemma CreateDoubleArray_makes overflow numbers :
  makes (cJSON_CreateDoubleArray overflow numbers) (CJson.cJSON_CreateDoubleArray overflow numbers).
Proof. apply create_filled_makes, Forall2_fmap, Forall_Forall2_diag, Forall_true. intros n. apply CreateNumber_makes. Qed.
Lemma CreateStringArray_makes strings :
  makes (cJSON_CreateStringArray strings) (CJson.cJSON_CreateStringArray strings).
Proof. apply create_filled_makes, Forall2_fmap, Forall_Forall2_diag, Forall_true. intros n. apply CreateString_makes. Qed.
End creation.

(** ** Duplication *)

(** What a reader that follows the pointers from [c] on finds in the blocks [R]; lists may
    be shared, as those of references are. *)
Definition text_at (R : list cell) (p : ptr) (o : option bytes) : Prop :=
  match p with None => o = None | Some l => ∃ s, (l, Text s) ∈ R ∧ o = Some s end.

Inductive reads (R : list cell) : ptr → list cJSON → Prop :=
  | reads_nil : reads R None []
  | reads_cons p n vs nm kids rest :
      (p, Item n) ∈ R → text_at R (n_valuestring n) vs → text_at R (n_string n) nm →
      reads R (n_child n) kids → reads R (n_next n) rest →
      reads R (Some p) (mkItem (n_type n) vs (n_valueint n) (n_valuedouble n) nm kids :: rest).

Lemma text_at_mono R R' p o : R ⊆ R' → text_at R p o → text_at R' p o.
Proof. destruct p; [|done]. intros Hs (s & ? & ->). exists s. split; [by apply Hs|done]. Qed.
Lemma reads_mono R R' c l : R ⊆ R' → reads R c l → reads R' c l.
Proof.
  intros Hs. induction 1; [constructor|]. econstructor; eauto using text_at_mono.
Qed.

(** The longest way along [child] and [next]. *)
Fixpoint item_depth (i : cJSON) : nat :=
  match i with
  | mkItem _ _ _ _ _ kids => foldr (λ i n, S (Nat.max (item_depth i) n)) O kids
  end.
Definition depth (l : list cJSON) : nat := foldr (λ i n, S (Nat.max (item_depth i) n)) O l.

Section duplication.
Context `{Allocator}.

Lemma ref_cleared ty : Z.land (Z.land ty (Z.lnot cJSON_IsReference)) cJSON_IsReference = 0.
Proof. rewrite <- Z.land_assoc. change (Z.land (Z.lnot cJSON_IsReference) cJSON_IsReference) with 0. apply Z.land_0_r. Qed.

Lemma runs_dup_text o p set q n (R S : list cell) h Φ :
  text_at R p o → lays h ((q, Item n) :: S ++ R) →
  (∀ o' h', snd <$> o' = o → lays h' ((q, Item (match o with Some _ => set (fst <$> o') n | None => n end)) :: text_cell o' ++ S ++ R) → Φ tt h') →
  runs (dup_text p set (Some q)) h Φ.
Proof.
  intros Ht Hl HΦ. apply runs_bind. destruct p as [l|]; cbn in Ht.
  - destruct Ht as (s & Hs & ->). eapply runs_read_text; [exact Hl| |].
    { right. apply elem_of_app. by right. }
    apply runs_bind. eapply runs_alloc; [exact Hl|]. intros r h1 _ _ H1. front_cell q H1.
    eapply runs_change; [exact H1|]. intros h2 H2. by apply (HΦ (Some (r, s))).
  - subst o. apply runs_ret. cbn. apply runs_ret. by apply (HΦ None).
Qed.

Lemma runs_dup_node c n vs nm (R : list cell) h Φ :
  (c, Item n) ∈ R → text_at R (n_valuestring n) vs → text_at R (n_string n) nm → lays h R →
  (∀ q d h', d_type d = Z.land (n_type n) (Z.lnot cJSON_IsReference) → snd <$> d_text d = vs →
    d_int d = n_valueint n → d_double d = n_valuedouble n → snd <$> d_name d = nm →
    lays h' (cells None None (Shape q d []) ++ R) → Φ (Some q) h') →
  runs (dup_node (Some c)) h Φ.
Proof.
  intros Hc Hvs Hnm Hl HΦ. apply runs_bind. eapply runs_alloc; [exact Hl|]. intros q h1 _ _ H1.
  apply runs_bind. eapply runs_load; [exact H1|by right|].
  apply runs_bind. eapply runs_change; [exact H1|]. intros h2 H2.
  apply runs_bind. eapply (runs_dup_text vs _ _ q _ R []); [done|exact H2|]. intros o1 h3 Ho1 H3.
  apply runs_bind. eapply (runs_dup_text nm _ _ q _ R (text_cell o1)); [done|exact H3|]. intros o2 h4 Ho2 H4.
  apply runs_ret.
  apply (HΦ q (mkPayload (Z.land (n_type n) (Z.lnot cJSON_IsReference)) o1 (n_valueint n) (n_valuedouble n) o2) h4);
    [done..|].
  rewrite cells_Shape. cbn [seg top head_or d_text d_name d_type d_int d_double].
  destruct o1, vs, o2, nm; try done; cbn in H4 |- *; blocks.
Qed.

Lemma runs_dup_loop fuel l c (R : list cell) p d kids h Φ :
  reads R c l → (depth l ≤ fuel)%nat → lays h (cells None None (Shape p d kids) ++ R) →
  (∀ ts h', denote <$> ts = CJson.cJSON_Duplicate true <$> l → forallb plain ts = true →
    lays h' (cells None None (Shape p d (kids ++ ts)) ++ R) → Φ tt h') →
  runs (dup_loop fuel (Some p) (last_or kids None) c) h Φ.
Proof.
  revert l c R p d kids h Φ. induction fuel as [|fuel IH]; intros l c R p d kids h Φ Hr Hd Hl HΦ;
    destruct Hr as [|c n vs nm ks rest Hc Hvs Hnm Hks Hrest]; cbn [dup_loop];
    try (apply runs_ret, (HΦ [] h); [done..|by rewrite app_nil_r]).
  { cbn in Hd. lia. }
  cbn [depth foldr item_depth] in Hd.
  assert (∀ P, R ⊆ P ++ R) as Hsub by (intros P x Hx; apply elem_of_app; by right).
  apply runs_bind. eapply (runs_dup_node c n vs nm (cells None None (Shape p d kids) ++ R)); [| | |exact Hl|];
    [by apply Hsub|by eapply text_at_mono; [apply Hsub|]|by eapply text_at_mono; [apply Hsub|]|].
  intros q d' h1 Hty Htx Hin Hdb Hnm' H1.
  apply runs_bind. eapply (runs_load c n); [exact H1|apply elem_of_app; right; by apply Hsub|].
  apply runs_bind. eapply (IH ks _ (cells None None (Shape p d kids) ++ R) q d' [] h1); [by eapply reads_mono; [apply Hsub|]|unfold depth; lia|exact H1|].
  intros ts h2 Hts Hpl H2. cbn [app] in H2. set (t := Shape q d' ts) in *.
  assert (denote t = CJson.cJSON_Duplicate true (mkItem (n_type n) vs (n_valueint n) (n_valuedouble n) nm ks)) as Ht
    by (cbn; by rewrite Hty, Htx, Hin, Hdb, Hnm', Hts).
  assert (plain t = true) as Hp by (cbn; by rewrite Hty, ref_cleared).
  assert (q = root t) as Hq by done. clearbody t. subst q. front_part (cells None None (Shape p d kids)) H2.
  assert (∀ h3, lays h3 (cells None None (Shape p d (kids ++ [t])) ++ R) →
    runs (n ← load (Some c); dup_loop fuel (Some p) (Some (root t)) (n_next n)) h3 Φ) as Hnext.
  { intros h3 H3. apply runs_bind. eapply (runs_load c n); [exact H3|by apply Hsub|].
    rewrite <- (last_or_snoc kids t None). eapply IH; [done|unfold depth; lia|exact H3|].
    intros ts' h4 Hts' Hpl' H4. apply (HΦ (t :: ts')); [cbn; by rewrite Ht, Hts'|cbn; by rewrite Hp|].
    by rewrite <- app_assoc in H4. }
  apply runs_bind. destruct kids as [|u kids]; [by eapply runs_first|].
  destruct (last_or_Some u kids None) as [v Ev]. rewrite Ev, <- Ev.
  eapply (runs_suffix None None p d (u :: kids) t R h2); [done|exact H2|exact Hnext].
Qed.

(** A copy is a tree of its own, whatever the original shares. *)
Lemma runs_duplicate_depth c n vs nm ks recurse (R : list cell) h Φ :
  (c, Item n) ∈ R → text_at R (n_valuestring n) vs → text_at R (n_string n) nm → reads R (n_child n) ks →
  (depth ks ≤ size h)%nat → lays h R →
  (∀ t h', denote t = CJson.cJSON_Duplicate recurse (mkItem (n_type n) vs (n_valueint n) (n_valuedouble n) nm ks) →
    plain t = true → lays h' (cells None None t ++ R) → Φ (Some (root t)) h') →
  runs (cJSON_Duplicate (Some c) recurse) h Φ.
Proof.
  intros Hc Hvs Hnm Hks Hd Hl HΦ. apply runs_bind. eapply runs_dup_node; [exact Hc|exact Hvs|exact Hnm|exact Hl|].
  intros q d h1 Hty Htx Hin Hdb Hnm' H1. apply runs_bind. destruct recurse.
  - apply runs_bind. eapply runs_load; [exact H1|apply elem_of_app; right; exact Hc|].
    apply runs_fuelled. eapply (runs_dup_loop _ ks _ R q d []); [done| |exact H1|].
    { rewrite (lays_size _ _ H1), length_app, <- (lays_size _ _ Hl). lia. }
    intros ts h2 Hts Hpl H2. apply runs_ret. apply (HΦ (Shape q d ts)); [|cbn; by rewrite Hty, ref_cleared|exact H2].
    cbn. by rewrite Hty, Htx, Hin, Hdb, Hnm', Hts.
  - apply runs_ret, runs_ret. apply (HΦ (Shape q d [])); [|cbn; by rewrite Hty, ref_cleared|exact H1].
    cbn. by rewrite Hty, Htx, Hin, Hdb, Hnm'.
Qed.
End duplication.

(** *** The way is never longer than the heap

    No item lies below itself or behind itself: what is read from there would be smaller. *)
Fixpoint weight (i : cJSON) : nat :=
  match i with mkItem _ _ _ _ _ kids => S (foldr (λ i n, weight i + n)%nat O kids) end.
Definition weights (l : list cJSON) : nat := foldr (λ i n, weight i + n)%nat O l.

Lemma cell_unique (R : list cell) l b b' : NoDup R.*1 → (l, b) ∈ R → (l, b') ∈ R → b = b'.
Proof.
  intros Hn H1%(elem_of_list_to_map_1 (M := gmap loc)) H2%(elem_of_list_to_map_1 (M := gmap loc)); [|done..].
  congruence.
Qed.
Lemma text_at_inj R p o o' : NoDup R.*1 → text_at R p o → text_at R p o' → o = o'.
Proof.
  intros Hn. destruct p as [l|]; cbn; [|congruence]. intros (s & Hs & ->) (s' & Hs' & ->).
  by injection (cell_unique R l _ _ Hn Hs Hs') as ->.
Qed.
Lemma reads_inj R c l l' : NoDup R.*1 → reads R c l → reads R c l' → l = l'.
Proof.
  intros Hn Hr. revert l'.
  induction Hr as [|c n vs nm ks rest Hc Hvs Hnm _ IHk _ IHr]; intros l' Hr'; inversion Hr' as [|c' m]; subst; [done|].
  assert (m = n) as -> by (by injection (cell_unique R c (Item m) (Item n)) as ->).
  f_equal; [f_equal|]; eauto using text_at_inj.
Qed.

(** Along the longest way what is read gets smaller. *)
Lemma reads_way R c l : NoDup R.*1 → reads R c l →
  ∃ way : list loc, length way = depth l ∧ NoDup way ∧
    ∀ q, q ∈ way → q ∈ R.*1 ∧ ∃ l', reads R (Some q) l' ∧ (weights l' ≤ weights l)%nat.
Proof.
  intros Hn Hr. induction Hr as [|c n vs nm ks rest Hc Hvs Hnm Hks IHk Hrest IHr].
  { exists []. split_and!; [done|constructor|]. intros q Hq. by apply not_elem_of_nil in Hq. }
  set (i := mkItem _ vs _ _ nm ks). assert (reads R (Some c) (i :: rest)) as Hc' by (by constructor).
  assert (∃ way, length way = Nat.max (depth ks) (depth rest) ∧ NoDup way ∧ ∀ q, q ∈ way →
    q ∈ R.*1 ∧ ∃ l', reads R (Some q) l' ∧ (weights l' < weights (i :: rest))%nat) as (way & Hlen & Hnd & Hw).
  { assert (weights (i :: rest) = S (weights ks + weights rest)) as -> by done.
    destruct (Nat.max_spec (depth ks) (depth rest)) as [[_ ->]|[_ ->]];
      [destruct IHr as (way & ? & ? & Hw)|destruct IHk as (way & ? & ? & Hw)]; exists way;
      (split_and!; [done|done|]); intros q Hq; destruct (Hw q Hq) as (? & l' & ? & ?);
      (split; [done|]); exists l'; (split; [done|]); lia. }
  exists (c :: way). split_and!.
  - cbn [length]. by rewrite Hlen.
  - apply NoDup_cons. split; [|done]. intros Hq. destruct (Hw c Hq) as (_ & l' & Hl' & Hlt).
    rewrite (reads_inj R (Some c) l' (i :: rest)) in Hlt by done. lia.
  - intros q [->|Hq]%elem_of_cons.
    + split; [by apply (list_elem_of_fmap_2 fst) in Hc|]. exists (i :: rest). split; [done|lia].
    + destruct (Hw q Hq) as (? & l' & ? & ?). split; [done|]. exists l'. split; [done|lia].
Qed.

Lemma lays_NoDup h cs : lays h cs → NoDup cs.*1.
Proof. intros Hl. rewrite <- Hl. apply NoDup_fst_map_to_list. Qed.
Lemma reads_depth h (R : list cell) c l : lays h R → reads R c l → (depth l ≤ size h)%nat.
Proof.
  intros Hl Hr. destruct (reads_way R c l) as (way & <- & Hnd & Hw); [by eapply lays_NoDup|done|].
  rewrite (lays_size _ _ Hl), <- (length_fmap fst). apply submseteq_length, NoDup_submseteq; [done|].
  intros q Hq. by apply Hw.
Qed.

Lemma runs_duplicate `{Allocator} c n vs nm ks recurse (R : list cell) h Φ :
  (c, Item n) ∈ R → text_at R (n_valuestring n) vs → text_at R (n_string n) nm → reads R (n_child n) ks →
  lays h R →
  (∀ t h', denote t = CJson.cJSON_Duplicate recurse (mkItem (n_type n) vs (n_valueint n) (n_valuedouble n) nm ks) →
    plain t = true → lays h' (cells None None t ++ R) → Φ (Some (root t)) h') →
  runs (cJSON_Duplicate (Some c) recurse) h Φ.
Proof. intros. eapply runs_duplicate_depth; eauto using reads_depth. Qed.

(** What a reader finds in a tree is the tree. *)
Lemma reads_text R o : text_cell o ⊆ R → text_at R (fst <$> o) (snd <$> o).
Proof. destruct o as [[l s]|]; [|done]. intros Hs. exists s. split; [|done]. apply Hs. constructor. Qed.
Lemma reads_seg (R : list cell) l prev :
  forallb plain l = true → seg prev l None ⊆ R → reads R (head_or l None) (denote <$> l).
Proof.
  remember (count l) as n eqn:Hn. assert (count l ≤ n)%nat as Hc by lia. clear Hn.
  revert l prev Hc. induction n as [|n IH]; intros [|t l] prev Hc Hp Hs; try constructor.
  { cbn in Hc. destruct t; cbn in Hc; lia. }
  cbn in Hp. apply andb_true_iff in Hp as [Ht Hp]. destruct t as [p d kids|]; [|done].
  apply andb_true_iff in Ht as [_ Hk]. cbn [count foldr items] in Hc. fold (count kids) in Hc. fold (count l) in Hc.
  cbn [seg] in Hs. rewrite cells_Shape in Hs. cbn [root] in Hs.
  apply (reads_cons R p (top prev (head_or l None) (Shape p d kids))); cbn [top n_valuestring n_string n_child n_next].
  - apply Hs. constructor.
  - apply reads_text. set_solver.
  - apply reads_text. set_solver.
  - apply (IH kids None); [lia|done|set_solver].
  - apply (IH l (Some p)); [lia|done|set_solver].
Qed.
