(* ===== verification/JsonPrograms.v ===== *)
(** * JsonPrograms: programs that build and change items through pointers

    A program keeps items in variables, reaches into them, and calls the functions of
    new_elbs/cJSON.cc.  It runs twice: on the heap of [JsonHeap], where a variable is a
    pointer, and on the trees of [CJson], where it is an item that an addition or a
    replacement uses up.  The runs agree, and no block is lost but the names that
    cJSON_ReplaceItemInObject forgets. *)

From S2P Require Import Prelude Bytes Double Outcome CJson JsonHeap JsonHeapProofs.
From stdpp Require Import gmap list.
#[local] Open Scope Z_scope.

(** ** Programs *)

(** An item of the tree of a variable, by the positions on the way to it. *)
Abbreviation place := (nat * list nat)%type.

Inductive creation :=
  | MakeNull | MakeTrue | MakeFalse | MakeBool (b : bool) | MakeNumber (x : double) | MakeString (s : bytes)
  | MakeArray | MakeObject | MakeInts (l : list Z) | MakeDoubles (l : list double) | MakeStrings (l : list bytes).

Inductive command :=
  | Create (k : creation)
  | Add (a : place) (w : nat)
  | AddNamed (a : place) (string : bytes) (w : nat)
  | Detach (a : place) (which : Z)
  | DetachNamed (a : place) (string : option bytes)
  | DeleteItem (a : place) (which : Z)
  | DeleteNamed (a : place) (string : option bytes)
  | Replace (a : place) (which : Z) (w : nat)
  | ReplaceNamed (a : place) (string : bytes) (w : nat)
  | Duplicate (a : place) (recurse : bool)
  | Delete (w : nat).

Section programs.
Context (overflow : double → Z).

(** *** On trees *)

Definition made (k : creation) : cJSON :=
  match k with
  | MakeNull => CJson.cJSON_CreateNull
  | MakeTrue => CJson.cJSON_CreateTrue
  | MakeFalse => CJson.cJSON_CreateFalse
  | MakeBool b => CJson.cJSON_CreateBool b
  | MakeNumber x => CJson.cJSON_CreateNumber overflow x
  | MakeString s => CJson.cJSON_CreateString s
  | MakeArray => CJson.cJSON_CreateArray
  | MakeObject => CJson.cJSON_CreateObject
  | MakeInts l => CJson.cJSON_CreateIntArray overflow l
  | MakeDoubles l => CJson.cJSON_CreateDoubleArray overflow l
  | MakeStrings l => CJson.cJSON_CreateStringArray l
  end.

Fixpoint at_path (way : list nat) (i : cJSON) : option cJSON :=
  match way with
  | [] => Some i
  | k :: way => match child i !! k with Some c => at_path way c | None => None end
  end.
Fixpoint on_path (way : list nat) (f : cJSON → cJSON) (i : cJSON) : cJSON :=
  match way with
  | [] => f i
  | k :: way => set_child (alter (on_path way f) k (child i)) i
  end.

Abbreviation trees := (list (option cJSON)).
Definition held {A} (v : nat) (vs : list (option A)) : option A := vs !! v ≫= id.
Definition target (a : place) (vs : trees) : option cJSON := held a.1 vs ≫= at_path a.2.
Definition update (a : place) (f : cJSON → cJSON) (vs : trees) : trees :=
  alter (fmap (M := option) (on_path a.2 f)) a.1 vs.
(** The item of [w], which is not in the tree that is changed. *)
Definition other (a : place) (w : nat) (vs : trees) : option cJSON :=
  if decide (w = a.1) then None else held w vs.

Definition tree_step (c : command) (vs : trees) : option trees :=
  match c with
  | Create k => Some (vs ++ [Some (made k)])
  | Add a w =>
      _ ← target a vs; u ← other a w vs;
      Some (<[w := None]> (update a (λ i, CJson.cJSON_AddItemToArray i u) vs))
  | AddNamed a string w =>
      _ ← target a vs; u ← other a w vs;
      Some (<[w := None]> (update a (λ i, CJson.cJSON_AddItemToObject i string u) vs))
  | Detach a which =>
      i ← target a vs;
      Some (update a (λ i, (CJson.cJSON_DetachItemFromArray i which).2) vs ++ [(CJson.cJSON_DetachItemFromArray i which).1])
  | DetachNamed a string =>
      i ← target a vs;
      Some (update a (λ i, (CJson.cJSON_DetachItemFromObject i string).2) vs ++ [(CJson.cJSON_DetachItemFromObject i string).1])
  | DeleteItem a which =>
      _ ← target a vs; Some (update a (λ i, CJson.cJSON_DeleteItemFromArray i which) vs)
  | DeleteNamed a string =>
      _ ← target a vs; Some (update a (λ i, CJson.cJSON_DeleteItemFromObject i string) vs)
  | Replace a which w =>
      i ← target a vs; u ← other a w vs;
      Some (match CJson.cJSON_GetArrayItem i which with
            | Some _ => <[w := None]> (update a (λ i, CJson.cJSON_ReplaceItemInArray i which u) vs)
            | None => vs
            end)
  | ReplaceNamed a string w =>
      i ← target a vs; u ← other a w vs;
      Some (match CJson.cJSON_GetObjectItem i (Some string) with
            | Some _ => <[w := None]> (update a (λ i, CJson.cJSON_ReplaceItemInObject i string u) vs)
            | None => vs
            end)
  | Duplicate a recurse => i ← target a vs; Some (vs ++ [Some (CJson.cJSON_Duplicate recurse i)])
  | Delete w => _ ← held w vs; Some (<[w := None]> vs)
  end.
Fixpoint tree_run (cs : list command) (vs : trees) : option trees :=
  match cs with [] => Some vs | c :: cs => vs ← tree_step c vs; tree_run cs vs end.

(** *** On the heap *)

Context `{Allocator}.

Definition make (k : creation) : state heap ptr :=
  match k with
  | MakeNull => cJSON_CreateNull
  | MakeTrue => cJSON_CreateTrue
  | MakeFalse => cJSON_CreateFalse
  | MakeBool b => cJSON_CreateBool b
  | MakeNumber x => cJSON_CreateNumber overflow x
  | MakeString s => cJSON_CreateString s
  | MakeArray => cJSON_CreateArray
  | MakeObject => cJSON_CreateObject
  | MakeInts l => cJSON_CreateIntArray overflow l
  | MakeDoubles l => cJSON_CreateDoubleArray overflow l
  | MakeStrings l => cJSON_CreateStringArray l
  end.

Fixpoint go (way : list nat) (p : ptr) : state heap ptr :=
  match way with
  | [] => mret p
  | k :: way => c ← cJSON_GetArrayItem p (Z.of_nat k); go way c
  end.
Definition reach (a : place) (ps : list ptr) : state heap ptr := go a.2 (held a.1 ps).

Definition heap_step (c : command) (ps : list ptr) : state heap (list ptr) :=
  match c with
  | Create k => p ← make k; mret (ps ++ [p])
  | Add a w => p ← reach a ps; cJSON_AddItemToArray p (held w ps);; mret (<[w := None]> ps)
  | AddNamed a string w =>
      p ← reach a ps; cJSON_AddItemToObject p string (held w ps);; mret (<[w := None]> ps)
  | Detach a which => p ← reach a ps; q ← cJSON_DetachItemFromArray p which; mret (ps ++ [q])
  | DetachNamed a string => p ← reach a ps; q ← cJSON_DetachItemFromObject p string; mret (ps ++ [q])
  | DeleteItem a which => p ← reach a ps; cJSON_DeleteItemFromArray p which;; mret ps
  | DeleteNamed a string => p ← reach a ps; cJSON_DeleteItemFromObject p string;; mret ps
  | Replace a which w =>
      p ← reach a ps; c ← cJSON_GetArrayItem p which;
      cJSON_ReplaceItemInArray p which (held w ps);;
      mret (if c is Some _ then <[w := None]> ps else ps)
  | ReplaceNamed a string w =>
      p ← reach a ps; c ← cJSON_GetObjectItem p (Some string);
      cJSON_ReplaceItemInObject p string (held w ps);;
      mret (if c is Some _ then <[w := None]> ps else ps)
  | Duplicate a recurse => p ← reach a ps; q ← cJSON_Duplicate p recurse; mret (ps ++ [q])
  | Delete w => cJSON_Delete (held w ps);; mret (<[w := None]> ps)
  end.
Fixpoint heap_run (cs : list command) (ps : list ptr) : state heap (list ptr) :=
  match cs with [] => mret ps | c :: cs => ps ← heap_step c ps; heap_run cs ps end.
End programs.

(** ** The trees in the heap *)

Abbreviation shapes := (list (option shape)).
Definition var_cells (ss : shapes) : list cell :=
  concat ((λ o, match o with Some t => cells None None t | None => [] end) <$> ss).

Definition each {A B} (f : A → B) (ss : list (option A)) : list (option B) := fmap (M := option) f <$> ss.

Record represents (h : heap) (ps : list ptr) (vs : list (option cJSON)) (leaks : list cell) (ss : shapes) : Prop := {
  rep_ptrs : each root ss = ps;
  rep_trees : each denote ss = vs;
  rep_plain v t : held v ss = Some t → plain t = true;
  rep_heap : lays h (var_cells ss ++ leaks);
}.

Lemma held_each {A B} (f : A → B) v (ss : list (option A)) : held v (each f ss) = f <$> held v ss.
Proof. unfold held, each. rewrite list_lookup_fmap. by destruct (ss !! v) as [[|]|]. Qed.
Lemma held_lookup {A} v (ss : list (option A)) t : held v ss = Some t → ss !! v = Some (Some t).
Proof. unfold held. by destruct (ss !! v) as [[|]|]; cbn; intros [= ->]. Qed.
Lemma held_insert_ne {A} v w o (ss : list (option A)) : v ≠ w → held v (<[w := o]> ss) = held v ss.
Proof. intros Hn. unfold held. by rewrite list_lookup_insert_ne. Qed.
Lemma held_insert {A} v o (ss : list (option A)) u : held v (<[v := o]> ss) = Some u → o = Some u.
Proof.
  unfold held. destruct (decide (v < length ss)%nat) as [Hv|Hv].
  - rewrite list_lookup_insert_eq by done. done.
  - rewrite list_insert_ge, lookup_ge_None_2 by lia. done.
Qed.
Lemma held_app {A} v (ss : list (option A)) o u :
  held v (ss ++ [o]) = Some u → held v ss = Some u ∨ o = Some u.
Proof.
  unfold held. rewrite lookup_app. destruct (ss !! v) eqn:E; cbn; [auto|].
  destruct (v - length ss)%nat; cbn; [auto|done].
Qed.
Lemma each_insert {A B} (f : A → B) v o ss : each f (<[v := o]> ss) = <[v := f <$> o]> (each f ss).
Proof. unfold each. by rewrite list_fmap_insert. Qed.
Lemma each_app {A B} (f : A → B) ss o : each f (ss ++ [o]) = each f ss ++ [f <$> o].
Proof. unfold each. by rewrite fmap_app. Qed.

Definition opt_cells (o : option shape) : list cell :=
  match o with Some t => cells None None t | None => [] end.
Lemma var_cells_app ss o : var_cells (ss ++ [o]) ≡ₚ opt_cells o ++ var_cells ss.
Proof.
  unfold var_cells. rewrite fmap_app, concat_app. cbn. rewrite app_nil_r.
  by rewrite Permutation_app_comm.
Qed.
Lemma var_cells_insert v ss o o' :
  ss !! v = Some o → opt_cells o ++ var_cells (<[v := o']> ss) ≡ₚ opt_cells o' ++ var_cells ss.
Proof.
  intros Hv. rewrite <- (take_drop_middle ss v o Hv) at 2. rewrite insert_take_drop by (by eapply lookup_lt_Some).
  unfold var_cells. rewrite !fmap_app, !concat_app. cbn. fold (opt_cells o) (opt_cells o'). solve_Permutation.
Qed.
Lemma var_cells_take v ss t :
  held v ss = Some t → var_cells ss ≡ₚ cells None None t ++ var_cells (<[v := None]> ss).
Proof. intros Hv%held_lookup. by rewrite (var_cells_insert v ss (Some t) None Hv). Qed.
Lemma var_cells_put v ss t t' :
  held v ss = Some t → var_cells (<[v := Some t']> ss) ≡ₚ cells None None t' ++ var_cells (<[v := None]> ss).
Proof.
  intros Hv%held_lookup. pose proof (var_cells_insert v (<[v := None]> ss) None (Some t')) as E.
  rewrite list_insert_insert_eq in E. apply E, list_lookup_insert_eq. by eapply lookup_lt_Some.
Qed.

(** ** Reaching into a tree *)

Definition kids_of (t : shape) : list shape := match t with Shape _ _ kids => kids | Borrow _ _ _ _ => [] end.
Definition with_kids (kids : list shape) (t : shape) : shape :=
  match t with Shape p d _ => Shape p d kids | Borrow p d text q => Borrow p d text q end.
Fixpoint shape_at (way : list nat) (t : shape) : option shape :=
  match way with
  | [] => Some t
  | k :: way => match kids_of t !! k with Some u => shape_at way u | None => None end
  end.
Fixpoint shape_on (way : list nat) (s : shape) (t : shape) : shape :=
  match way with
  | [] => s
  | k :: way =>
      match kids_of t !! k with
      | Some u => with_kids (<[k := shape_on way s u]> (kids_of t)) t
      | None => t
      end
  end.

Lemma forallb_Forall {A} (f : A → bool) l : forallb f l = true ↔ Forall (λ x, f x = true) l.
Proof. rewrite forallb_forall, Forall_forall. by setoid_rewrite list_elem_of_In. Qed.

Lemma plain_kids t : plain t = true → forallb plain (kids_of t) = true.
Proof. destruct t; cbn; [|done]. by intros [_ ?]%andb_true_iff. Qed.
Lemma plain_lookup l k u : forallb plain l = true → l !! k = Some u → plain u = true.
Proof. rewrite forallb_Forall. intros Hl Hu. exact (Forall_lookup_1 _ _ _ _ Hl Hu). Qed.
Lemma plain_insert l k u : forallb plain l = true → plain u = true → forallb plain (<[k := u]> l) = true.
Proof. rewrite !forallb_Forall. exact (Forall_insert (λ t, plain t = true) l k u). Qed.
Lemma plain_delete l k : forallb plain l = true → forallb plain (delete k l) = true.
Proof. rewrite !forallb_Forall. exact (Forall_delete (λ t, plain t = true) l k). Qed.
Lemma plain_shape t : plain t = true → ∃ d, t = Shape (root t) d (kids_of t) ∧ Z.land (d_type d) cJSON_IsReference = 0.
Proof. destruct t as [p d kids|]; [|done]. cbn. intros [?%Z.eqb_eq _]%andb_true_iff. by exists d. Qed.
Lemma plain_with_kids t kids : plain t = true → forallb plain kids = true → plain (with_kids kids t) = true.
Proof. destruct t; cbn; [|done]. intros [-> _]%andb_true_iff Hk. done. Qed.
Lemma child_denote t : child (denote t) = denote <$> kids_of t.
Proof. by destruct t. Qed.

Lemma at_path_denote way t : at_path way (denote t) = denote <$> shape_at way t.
Proof.
  revert t. induction way as [|k way IH]; intros t; [done|]. cbn [at_path shape_at].
  rewrite child_denote, list_lookup_fmap. destruct (kids_of t !! k); [apply IH|done].
Qed.
Lemma shape_at_plain way t s : plain t = true → shape_at way t = Some s → plain s = true.
Proof.
  revert t. induction way as [|k way IH]; intros t Hp; cbn [shape_at]; [by intros [= ->]|].
  destruct (kids_of t !! k) eqn:E; [|done]. eapply IH, plain_lookup; [by apply plain_kids|done].
Qed.
Lemma shape_on_root way s s' t : shape_at way t = Some s → root s' = root s → root (shape_on way s' t) = root t.
Proof.
  destruct way as [|k way]; cbn; [by intros [= ->]|]. intros _ _.
  destruct (kids_of t !! k); [by destruct t|done].
Qed.
Lemma shape_on_plain way s' t : plain t = true → plain s' = true → plain (shape_on way s' t) = true.
Proof.
  revert t. induction way as [|k way IH]; intros t Hp Hs; [done|]. cbn [shape_on].
  destruct (kids_of t !! k) as [u|] eqn:E; [|done]. apply plain_with_kids; [done|].
  apply plain_insert; [by apply plain_kids|]. apply IH; [|done]. eapply (plain_lookup (kids_of t)); [by apply plain_kids|done].
Qed.
Lemma alter_is_insert {A} (f : A → A) (l : list A) k x : l !! k = Some x → alter f k l = <[k := f x]> l.
Proof.
  revert k. induction l as [|y l IH]; intros [|k] Hk; cbn in *; [done..|congruence|].
  f_equal. by apply IH.
Qed.
Lemma on_path_denote way f s s' t :
  shape_at way t = Some s → denote s' = f (denote s) → plain t = true →
  denote (shape_on way s' t) = on_path way f (denote t).
Proof.
  revert t. induction way as [|k way IH]; intros t; cbn [shape_at shape_on on_path]; [by intros [= ->]|].
  destruct (kids_of t !! k) as [u|] eqn:E; [|done]. intros Hu Hs Hp.
  assert (plain u = true) as Hpu by (eapply (plain_lookup (kids_of t)); [by apply plain_kids|done]).
  destruct t as [p d kids|]; [|done]. cbn [with_kids kids_of denote child set_child] in *.
  unfold set_child. cbn. f_equal. rewrite list_fmap_insert, IH by done.
  by rewrite (alter_is_insert _ _ _ (denote u)) by (by rewrite list_lookup_fmap, E).
Qed.

(** The blocks of an item are among those of the tree; only its structure is seen from the
    rest. *)
Lemma focus way t s prev nx :
  plain t = true → shape_at way t = Some s →
  ∃ pr nx' rest, ∀ s', root s' = root s → cells prev nx (shape_on way s' t) ≡ₚ cells pr nx' s' ++ rest.
Proof.
  revert t prev nx. induction way as [|k way IH]; intros t prev nx Hp; cbn [shape_at shape_on].
  { intros [= ->]. exists prev, nx, []. intros s' _. by rewrite app_nil_r. }
  destruct (kids_of t !! k) as [u|] eqn:E; [|done]. intros Hs.
  pose proof (plain_kids t Hp) as Hk. assert (plain u = true) as Hpu by (by eapply plain_lookup).
  destruct t as [p d kids|]; [|done]. cbn [kids_of with_kids] in *.
  set (l1 := take k kids). set (l2 := drop (S k) kids).
  destruct (IH u (last_or l1 None) (head_or l2 None) Hpu Hs) as (pr & nx' & rest & Hf).
  exists pr, nx', (rest ++ (p, Item (JsonHeapProofs.top prev nx (Shape p d kids))) :: seg None l1 (Some (root u)) ++
    seg (Some (root u)) l2 None ++ text_cell (d_text d) ++ text_cell (d_name d)).
  intros s' Hr. assert (root (shape_on way s' u) = root u) as Hru by (by eapply shape_on_root).
  rewrite insert_take_drop by (by eapply lookup_lt_Some). fold l1 l2.
  rewrite cells_Shape, seg_middle, Hru, (Hf s' Hr).
  rewrite (top_Shape prev nx _ d _ kids); [solve_Permutation|].
  rewrite <- (take_drop_middle kids k u E). fold l1 l2. rewrite !head_or_app. cbn. by rewrite Hru.
Qed.

Lemma shape_on_same way s t : shape_at way t = Some s → shape_on way s t = t.
Proof.
  revert t. induction way as [|k way IH]; intros t; cbn [shape_at shape_on]; [by intros [= ->]|].
  destruct (kids_of t !! k) as [u|] eqn:E; [|done]. intros Hu. rewrite IH by done.
  rewrite list_insert_id by done. by destruct t.
Qed.

Lemma runs_go way t s prev nx R h Φ :
  lays h (cells prev nx t ++ R) → plain t = true → shape_at way t = Some s → Φ (Some (root s)) h →
  runs (go way (Some (root t))) h Φ.
Proof.
  revert t prev nx R. induction way as [|k way IH]; intros t prev nx R Hl Hp Hs HΦ; cbn [go].
  { cbn in Hs. injection Hs as ->. by apply runs_ret. }
  pose proof Hs as Hk. cbn [shape_at] in Hk. destruct (kids_of t !! k) as [u|] eqn:E; [|done].
  assert (plain u = true) as Hpu by (eapply (plain_lookup (kids_of t)); [by apply plain_kids|done]).
  destruct (focus [k] t u prev nx Hp) as (pr & nx' & rest & Hf); [cbn; by rewrite E|].
  specialize (Hf u eq_refl). rewrite (shape_on_same [k]) in Hf by (cbn; by rewrite E).
  destruct (plain_shape t Hp) as (d & Et & _). apply runs_bind. rewrite Et in Hl. cbn [root].
  eapply runs_get_item; [exact Hl|]. rewrite Nat2Z.id, E. cbn.
  rewrite <- Et, Hf, <- (assoc_L (++)) in Hl. by eapply IH.
Qed.

(** ** What a step keeps *)

Section steps.
Context (overflow : double → Z) `{Allocator}.

Lemma represents_push h ps vs R ss o :
  represents h ps vs (opt_cells o ++ R) ss → (∀ t, o = Some t → plain t = true) →
  represents h (ps ++ [root <$> o]) (vs ++ [denote <$> o]) R (ss ++ [o]).
Proof.
  intros [Hp Ht Hpl Hl] Ho. split.
  - by rewrite each_app, Hp.
  - by rewrite each_app, Ht.
  - intros v t [Hv|Hv]%held_app; eauto.
  - rewrite var_cells_app. blocks.
Qed.

(** The item of a variable is taken out of it. *)
Lemma represents_take h ps vs R ss w u :
  represents h ps vs R ss → held w vs = Some u →
  ∃ t, denote t = u ∧ plain t = true ∧ held w ps = Some (root t) ∧
    represents h (<[w := None]> ps) (<[w := None]> vs) (cells None None t ++ R) (<[w := None]> ss).
Proof.
  intros [Hp Ht Hpl Hl] Hw. rewrite <- Ht, held_each in Hw.
  destruct (held w ss) as [t|] eqn:E; [|done]. injection Hw as <-. exists t.
  split_and!; [done|by eapply Hpl|by rewrite <- Hp, held_each, E|]. split.
  - by rewrite each_insert, Hp.
  - by rewrite each_insert, Ht.
  - intros v t' Hv. destruct (decide (v = w)) as [->|Hn]; [by apply held_insert in Hv|].
    rewrite held_insert_ne in Hv by done. by eapply Hpl.
  - rewrite (var_cells_take w ss t E) in Hl. blocks.
Qed.

(** An item is reached and changed where it is. *)
Lemma represents_at h ps vs R ss a i :
  represents h ps vs R ss → target a vs = Some i →
  ∃ s pr nx rest, denote s = i ∧ plain s = true ∧
    (∀ Φ : ptr → heap → Prop, Φ (Some (root s)) h → runs (reach a ps) h Φ) ∧
    lays h (cells pr nx s ++ rest ++ R) ∧
    ∀ s' f R' h', root s' = root s → plain s' = true → denote s' = f i →
      lays h' (cells pr nx s' ++ rest ++ R') → ∃ ss', represents h' ps (update a f vs) R' ss'.
Proof.
  intros [Hp Ht Hpl Hl] Hi. destruct a as [v way]. unfold target, reach, update in *. cbn [fst snd] in *.
  rewrite <- Ht, held_each in Hi. destruct (held v ss) as [t|] eqn:Ev; [|done]. cbn in Hi.
  rewrite at_path_denote in Hi. destruct (shape_at way t) as [s|] eqn:Es; [|done]. injection Hi as <-.
  pose proof (Hpl v t Ev) as Hpt. destruct (focus way t s None None Hpt Es) as (pr & nx & rest & Hf).
  exists s, pr, nx, (rest ++ var_cells (<[v := None]> ss)). rewrite (var_cells_take v ss t Ev) in Hl.
  split_and!; [done|by eapply shape_at_plain| | |].
  - intros Φ HΦ. rewrite <- Hp, held_each, Ev. cbn. rewrite <- (assoc_L (++)) in Hl. by eapply runs_go.
  - rewrite <- (shape_on_same way s t Es) in Hl at 1. rewrite (Hf s eq_refl) in Hl. blocks.
  - intros s' f R' h' Hr Hps Hs' Hl'. exists (<[v := Some (shape_on way s' t)]> ss). split.
    + rewrite each_insert, Hp. cbn. rewrite (shape_on_root way s s' t) by done.
      apply list_insert_id, held_lookup. by rewrite <- Hp, held_each, Ev.
    + rewrite each_insert, Ht. cbn. rewrite (on_path_denote way f s) by done.
      symmetry.
      rewrite (alter_is_insert _ vs v (Some (denote t))); [done|]. apply held_lookup. by rewrite <- Ht, held_each, Ev.
    + intros v' t' Hv'. destruct (decide (v' = v)) as [->|Hn].
      * apply held_insert in Hv'. injection Hv' as <-. by apply shape_on_plain.
      * rewrite held_insert_ne in Hv' by done. by eapply Hpl.
    + rewrite (var_cells_put v ss t _ Ev), (Hf s' Hr). blocks.
Qed.
Lemma make_makes k : makes (make overflow k) (made overflow k).
Proof.
  destruct k; cbn; eauto using CreateNull_makes, CreateTrue_makes, CreateFalse_makes, CreateBool_makes,
    CreateNumber_makes, CreateString_makes, CreateArray_makes, CreateObject_makes, CreateIntArray_makes,
    CreateDoubleArray_makes, CreateStringArray_makes.
Qed.

(** What a step ends in: the trees, and blocks that nobody has any more. *)
Definition ends (vs : list (option cJSON)) (R : list cell) (ps : list ptr) (h : heap) : Prop :=
  ∃ leaks ss, represents h ps vs (leaks ++ R) ss ∧ Forall (λ c, ∃ s, c.2 = Text s) leaks.
Definition ends_clean (vs : list (option cJSON)) (R : list cell) (ps : list ptr) (h : heap) : Prop :=
  ∃ ss, represents h ps vs R ss.
Lemma clean_ends vs R ps h : ends_clean vs R ps h → ends vs R ps h.
Proof. intros [ss Hr]. by exists [], ss. Qed.

Lemma leaking_ends vs o R ps h : ends_clean vs (text_cell o ++ R) ps h → ends vs R ps h.
Proof.
  intros [ss Hr]. exists (text_cell o), ss. split; [done|].
  destruct o as [[l s]|]; repeat constructor. by exists s.
Qed.

Lemma step_create k h ps vs R ss :
  represents h ps vs R ss → runs (heap_step overflow (Create k) ps) h (ends_clean (vs ++ [Some (made overflow k)]) R).
Proof.
  intros Hr. apply runs_bind. eapply make_makes; [apply Hr|]. intros t h1 Ht Hp H1. apply runs_ret.
  exists (ss ++ [Some t]). rewrite <- Ht. apply (represents_push h1 ps vs R ss (Some t)); [|by intros ? [= <-]].
  destruct Hr. split; [done..|]. cbn. blocks.
Qed.
Lemma update_insert a f w o vs : a.1 ≠ w → update a f (<[w := o]> vs) = <[w := o]> (update a f vs).
Proof. intros Hne. unfold update. by rewrite !list_insert_alter, list_alter_alter_ne. Qed.
Lemma represents_move h ps vs R ss a w i u :
  represents h ps vs R ss → target a vs = Some i → other a w vs = Some u →
  ∃ t s pr nx rest, denote t = u ∧ plain t = true ∧ held w ps = Some (root t) ∧ denote s = i ∧ plain s = true ∧
    (∀ Φ : ptr → heap → Prop, Φ (Some (root s)) h → runs (reach a ps) h Φ) ∧
    lays h (cells pr nx s ++ cells None None t ++ rest ++ R) ∧
    ∀ s' f R' h', root s' = root s → plain s' = true → denote s' = f i →
      lays h' (cells pr nx s' ++ rest ++ R') →
      ends_clean (<[w := None]> (update a f vs)) R' (<[w := None]> ps) h'.
Proof.
  intros Hr Ha Hw. unfold other in Hw. destruct (decide (w = a.1)) as [|Hne%not_eq_sym]; [done|].
  destruct (represents_take _ _ _ _ _ _ _ Hr Hw) as (t & Ht & Hp & Hpw & Hr1).
  assert (target a (<[w := None]> vs) = Some i) as Ha1 by (unfold target; by rewrite held_insert_ne).
  destruct (represents_at _ _ _ _ _ _ _ Hr1 Ha1) as (s & pr & nx & rest & Hs & Hps & Hreach & Hl & Hback).
  exists t, s, pr, nx, rest. split_and!; [done..| | |].
  - unfold reach in *. by rewrite held_insert_ne in Hreach.
  - blocks.
  - intros s' f R' h' Hroot Hps' Hd Hl'. destruct (Hback s' f R' h' Hroot Hps' Hd Hl') as [ss' Hr'].
    exists ss'. by rewrite update_insert in Hr' by done.
Qed.

Lemma plain_snoc l t : forallb plain l = true → plain t = true → forallb plain (l ++ [t]) = true.
Proof. intros Hl Ht. rewrite forallb_app, Hl. cbn. by rewrite Ht. Qed.
Lemma plain_same p d kids kids' :
  plain (Shape p d kids) = true → forallb plain kids' = true → plain (Shape p d kids') = true.
Proof. cbn. intros [-> _]%andb_true_iff Hk. done. Qed.
Lemma plain_with_name o t : plain (with_name o t) = plain t.
Proof. by destruct t. Qed.

Lemma step_add a w h ps vs vs' R ss :
  represents h ps vs R ss → tree_step overflow (Add a w) vs = Some vs' →
  runs (heap_step overflow (Add a w) ps) h (ends_clean vs' R).
Proof.
  intros Hr E. cbn in E. destruct (target a vs) as [i|] eqn:Ha; [|done]. cbn in E.
  destruct (other a w vs) as [u|] eqn:Hw; [|done]. injection E as <-.
  destruct (represents_move _ _ _ _ _ _ _ _ _ Hr Ha Hw) as (t & s & pr & nx & rest & <- & Hp & Ew & <- & Hps & Hreach & Hl & Hback).
  destruct s as [p d kids|]; [|done]. apply runs_bind, Hreach. rewrite Ew. cbn [root].
  apply runs_bind. eapply runs_add; [exact Hl|]. intros h1 H1. apply runs_ret.
  eapply (Hback (Shape p d (kids ++ [t]))); [done| | |blocks].
  - eapply plain_same, plain_snoc; [done|by apply (plain_kids (Shape p d kids))|done].
  - cbn. by rewrite fmap_app.
Qed.
Lemma plain_renamed p d kids o t :
  plain (Shape p d kids) = true → plain t = true → plain (Shape p d (kids ++ [with_name o t])) = true.
Proof.
  intros Hp Ht. eapply plain_same, plain_snoc; [done|by apply (plain_kids (Shape p d kids))|].
  by rewrite plain_with_name.
Qed.
Lemma step_add_named a string w h ps vs vs' R ss :
  represents h ps vs R ss → tree_step overflow (AddNamed a string w) vs = Some vs' →
  runs (heap_step overflow (AddNamed a string w) ps) h (ends_clean vs' R).
Proof.
  intros Hr E. cbn in E. destruct (target a vs) as [i|] eqn:Ha; [|done]. cbn in E.
  destruct (other a w vs) as [u|] eqn:Hw; [|done]. injection E as <-.
  destruct (represents_move _ _ _ _ _ _ _ _ _ Hr Ha Hw) as (t & s & pr & nx & rest & <- & Hp & Ew & <- & Hps & Hreach & Hl & Hback).
  destruct s as [p d kids|]; [|done]. apply runs_bind, Hreach. rewrite Ew. cbn [root].
  apply runs_bind. eapply runs_add_named; [exact Hl|]. intros q h1 H1. apply runs_ret.
  eapply (Hback (Shape p d (kids ++ [with_name (Some (q, string)) t]))); [done|by apply plain_renamed| |blocks].
  unfold CJson.cJSON_AddItemToObject. rewrite <- (denote_with_name q). cbn. by rewrite fmap_app.
Qed.

Lemma position_spec string kids :
  (∃ k t, index_of string (denote <$> kids) = Some k ∧ position string kids = k ∧ kids !! k = Some t) ∨
  (index_of string (denote <$> kids) = None ∧ position string kids = length kids ∧ kids !! position string kids = None).
Proof.
  unfold position. destruct (index_of string (denote <$> kids)) as [k|] eqn:E; cbn.
  - left. exists k. enough (is_Some (kids !! k)) as [t Ht] by eauto. revert k E.
    induction kids as [|t kids IH]; intros k Hk; [done|]. cbn [fmap list_fmap index_of] in Hk.
    destruct (strcaseeq _ _); [injection Hk as <-; by eexists|].
    apply fmap_Some in Hk as (k' & E & ->). by apply IH.
  - right. split_and!; [done..|]. by apply lookup_ge_None.
Qed.
Lemma detach_denote p d kids z :
  CJson.cJSON_DetachItemFromArray (denote (Shape p d kids)) z =
    (denote <$> kids !! Z.to_nat z, denote (Shape p d (delete (Z.to_nat z) kids))).
Proof.
  unfold CJson.cJSON_DetachItemFromArray. rewrite child_denote, list_lookup_fmap. cbn.
  by rewrite list_fmap_delete.
Qed.
Lemma detach_named_denote p d kids string :
  CJson.cJSON_DetachItemFromObject (denote (Shape p d kids)) string =
    (denote <$> kids !! position string kids, denote (Shape p d (delete (position string kids) kids))).
Proof.
  unfold CJson.cJSON_DetachItemFromObject. rewrite child_denote. cbn [kids_of].
  destruct (position_spec string kids) as [(k & t & -> & -> & Ht)|(-> & _ & Hn)].
  - by rewrite detach_denote, Nat2Z.id.
  - by rewrite Hn, delete_beyond.
Qed.

(** Both ways to detach: the item at [k], if there is one, becomes a tree of its own. *)
Lemma detached h ps vs R ss a i p d kids pr nx rest k h1 f :
  (∀ s' f R' h', root s' = root (Shape p d kids) → plain s' = true → denote s' = f i →
     lays h' (cells pr nx s' ++ rest ++ R') → ∃ ss', represents h' ps (update a f vs) R' ss') →
  represents h ps vs R ss → plain (Shape p d kids) = true → f i = denote (Shape p d (delete k kids)) →
  lays h1 (cells pr nx (Shape p d (delete k kids)) ++ opt_cells (kids !! k) ++ rest ++ R) →
  ends_clean (update a f vs ++ [denote <$> kids !! k]) R (ps ++ [root <$> kids !! k]) h1.
Proof.
  intros Hback _ Hps Hf Hl. pose proof (plain_kids _ Hps) as Hk. cbn [kids_of] in Hk.
  destruct (Hback (Shape p d (delete k kids)) f (opt_cells (kids !! k) ++ R) h1) as [ss' Hr']; [done| |done|blocks|].
  - eapply plain_same, plain_delete; done.
  - exists (ss' ++ [kids !! k]). apply represents_push; [done|]. intros t Ht. by eapply plain_lookup.
Qed.
Lemma step_detach a which h ps vs vs' R ss :
  represents h ps vs R ss → tree_step overflow (Detach a which) vs = Some vs' →
  runs (heap_step overflow (Detach a which) ps) h (ends_clean vs' R).
Proof.
  intros Hr E. cbn [tree_step] in E. destruct (target a vs) as [i|] eqn:Ha; [|done]. cbn [mbind option_bind] in E.
  apply (inj Some) in E as <-.
  destruct (represents_at _ _ _ _ _ _ _ Hr Ha) as (s & pr & nx & rest & <- & Hps & Hreach & Hl & Hback).
  destruct s as [p d kids|]; [|done]. apply runs_bind, Hreach. cbn [root]. apply runs_bind.
  rewrite detach_denote. cbn [fst].
  assert (∀ h1, lays h1 (cells pr nx (Shape p d (delete (Z.to_nat which) kids)) ++ opt_cells (kids !! Z.to_nat which) ++ rest ++ R) →
    runs (mret (ps ++ [root <$> kids !! Z.to_nat which])) h1 (ends_clean
      (update a (λ i, (CJson.cJSON_DetachItemFromArray i which).2) vs ++ [denote <$> kids !! Z.to_nat which]) R)) as Hend.
  { intros h1 H1. apply runs_ret. eapply detached; [exact Hback|exact Hr|done| |exact H1]. by rewrite detach_denote. }
  destruct (kids !! Z.to_nat which) as [t|] eqn:Et.
  - eapply runs_detach; [exact Hl|exact Et|exact Hend].
  - eapply runs_detach_none; [exact Hl|exact Et|]. apply Hend. by rewrite delete_beyond.
Qed.
Lemma step_detach_named a string h ps vs vs' R ss :
  represents h ps vs R ss → tree_step overflow (DetachNamed a string) vs = Some vs' →
  runs (heap_step overflow (DetachNamed a string) ps) h (ends_clean vs' R).
Proof.
  intros Hr E. cbn [tree_step] in E. destruct (target a vs) as [i|] eqn:Ha; [|done]. cbn [mbind option_bind] in E.
  apply (inj Some) in E as <-.
  destruct (represents_at _ _ _ _ _ _ _ Hr Ha) as (s & pr & nx & rest & <- & Hps & Hreach & Hl & Hback).
  destruct s as [p d kids|]; [|done]. apply runs_bind, Hreach. cbn [root]. apply runs_bind.
  rewrite detach_named_denote. cbn [fst]. eapply runs_detach_named; [exact Hl|]. intros h1 H1. apply runs_ret.
  eapply detached; [exact Hback|exact Hr|done| |exact H1]. by rewrite detach_named_denote.
Qed.
Lemma plain_typed_kids p d kids : plain (Shape p d kids) = true → forallb typed kids = true.
Proof. intros Hp. apply plain_typed in Hp. by apply andb_true_iff in Hp as [_ Hk]. Qed.

Lemma step_delete_item a which h ps vs vs' R ss :
  represents h ps vs R ss → tree_step overflow (DeleteItem a which) vs = Some vs' →
  runs (heap_step overflow (DeleteItem a which) ps) h (ends_clean vs' R).
Proof.
  intros Hr E. cbn [tree_step] in E. destruct (target a vs) as [i|] eqn:Ha; [|done]. cbn [mbind option_bind] in E.
  apply (inj Some) in E as <-.
  destruct (represents_at _ _ _ _ _ _ _ Hr Ha) as (s & pr & nx & rest & <- & Hps & Hreach & Hl & Hback).
  destruct s as [p d kids|]; [|done]. apply runs_bind, Hreach. cbn [root]. apply runs_bind.
  eapply runs_delete_item; [exact Hl|by eapply plain_typed_kids|]. intros h1 H1. apply runs_ret.
  eapply (Hback (Shape p d (delete (Z.to_nat which) kids))); [done| | |exact H1].
  - eapply plain_same, plain_delete; [done|by apply (plain_kids (Shape p d kids))].
  - unfold CJson.cJSON_DeleteItemFromArray. by rewrite detach_denote.
Qed.
Lemma step_delete_named a string h ps vs vs' R ss :
  represents h ps vs R ss → tree_step overflow (DeleteNamed a string) vs = Some vs' →
  runs (heap_step overflow (DeleteNamed a string) ps) h (ends_clean vs' R).
Proof.
  intros Hr E. cbn [tree_step] in E. destruct (target a vs) as [i|] eqn:Ha; [|done]. cbn [mbind option_bind] in E.
  apply (inj Some) in E as <-.
  destruct (represents_at _ _ _ _ _ _ _ Hr Ha) as (s & pr & nx & rest & <- & Hps & Hreach & Hl & Hback).
  destruct s as [p d kids|]; [|done]. apply runs_bind, Hreach. cbn [root]. apply runs_bind.
  eapply runs_delete_named; [exact Hl|by eapply plain_typed_kids|]. intros h1 H1. apply runs_ret.
  eapply (Hback (Shape p d (delete (position string kids) kids))); [done| | |exact H1].
  - eapply plain_same, plain_delete; [done|by apply (plain_kids (Shape p d kids))].
  - unfold CJson.cJSON_DeleteItemFromObject. by rewrite detach_named_denote.
Qed.

Lemma runs_replace_none pr nx p d kids which q R h Φ :
  lays h (cells pr nx (Shape p d kids) ++ R) → kids !! Z.to_nat which = None → Φ tt h →
  runs (cJSON_ReplaceItemInArray (Some p) which q) h Φ.
Proof.
  setoid_rewrite cells_Shape. intros Hl Ht HΦ. flat Hl.
  apply runs_bind. eapply runs_load; [exact Hl|find_cell|]. cbn [n_child JsonHeapProofs.top].
  front_part (seg None kids None) Hl. apply runs_bind. eapply runs_walk; [exact Hl|].
  rewrite head_or_drop, Ht. by apply runs_ret.
Qed.
Lemma step_replace a which w h ps vs vs' R ss :
  represents h ps vs R ss → tree_step overflow (Replace a which w) vs = Some vs' →
  runs (heap_step overflow (Replace a which w) ps) h (ends_clean vs' R).
Proof.
  intros Hr E. cbn [tree_step] in E. destruct (target a vs) as [i|] eqn:Ha; [|done]. cbn [mbind option_bind] in E.
  destruct (other a w vs) as [u|] eqn:Hw; [|done]. apply (inj Some) in E as <-.
  destruct (represents_move _ _ _ _ _ _ _ _ _ Hr Ha Hw) as (t & s & pr & nx & rest & <- & Hp & Ew & <- & Hps & Hreach & Hl & Hback).
  destruct s as [p d kids|]; [|done]. apply runs_bind, Hreach. rewrite Ew. cbn [root].
  apply runs_bind. eapply runs_get_item; [exact Hl|]. apply runs_bind.
  unfold CJson.cJSON_GetArrayItem. rewrite child_denote, list_lookup_fmap. cbn [kids_of].
  destruct (kids !! Z.to_nat which) as [t0|] eqn:Et; cbn [fmap option_fmap option_map].
  - pose proof (plain_kids _ Hps) as Hk. cbn [kids_of] in Hk.
    eapply runs_replace; [exact Hl|exact Et|by eapply plain_typed, plain_lookup|]. intros h1 H1. apply runs_ret.
    eapply (Hback (Shape p d (<[Z.to_nat which := t]> kids))); [done| | |exact H1]; [by eapply plain_same, plain_insert|].
    cbn. by rewrite list_fmap_insert.
  - eapply runs_replace_none; [exact Hl|exact Et|]. apply runs_ret. by exists ss.
Qed.

Lemma step_replace_named a string w h ps vs vs' R ss :
  represents h ps vs R ss → tree_step overflow (ReplaceNamed a string w) vs = Some vs' →
  runs (heap_step overflow (ReplaceNamed a string w) ps) h (ends vs' R).
Proof.
  intros Hr E. cbn [tree_step] in E. destruct (target a vs) as [i|] eqn:Ha; [|done]. cbn [mbind option_bind] in E.
  destruct (other a w vs) as [u|] eqn:Hw; [|done]. apply (inj Some) in E as <-.
  destruct (represents_move _ _ _ _ _ _ _ _ _ Hr Ha Hw) as (t & s & pr & nx & rest & <- & Hp & Ew & <- & Hps & Hreach & Hl & Hback).
  destruct s as [p d kids|]; [|done]. apply runs_bind, Hreach. rewrite Ew. cbn [root].
  apply runs_bind. eapply runs_get_named; [exact Hl|]. apply runs_bind.
  unfold CJson.cJSON_GetObjectItem. rewrite child_denote. cbn [kids_of].
  destruct (position_spec (Some string) kids) as [(k & t0 & Ek & Ep & Et)|(Ek & _ & En)]; rewrite Ek; cbn [mbind option_bind].
  - pose proof (plain_kids _ Hps) as Hk. cbn [kids_of] in Hk. rewrite list_lookup_fmap, Ep, Et. cbn [fmap option_fmap option_map].
    eapply (runs_replace_named pr nx p d kids string t0 t); [exact Hl|by rewrite Ep|by eapply plain_typed, plain_lookup|].
    rewrite Ep. intros q h1 H1. apply runs_ret. apply (leaking_ends _ (d_name (pay t))).
    eapply (Hback (Shape p d (<[k := with_name (Some (q, string)) t]> kids))); [done| | |blocks].
    + eapply plain_same, plain_insert; [done|done|by rewrite plain_with_name].
    + unfold CJson.cJSON_ReplaceItemInObject. rewrite child_denote. cbn [kids_of]. rewrite Ek.
      unfold CJson.cJSON_ReplaceItemInArray. rewrite Nat2Z.id, <- (denote_with_name q). cbn. by rewrite list_fmap_insert.
  - rewrite En. cbn [fmap option_fmap option_map]. apply runs_assoc. eapply runs_search; [exact Hl|]. rewrite En. cbn.
    apply runs_ret, runs_ret, clean_ends. by exists ss.
Qed.

Lemma step_duplicate a recurse h ps vs vs' R ss :
  represents h ps vs R ss → tree_step overflow (Duplicate a recurse) vs = Some vs' →
  runs (heap_step overflow (Duplicate a recurse) ps) h (ends_clean vs' R).
Proof.
  intros Hr E. cbn [tree_step] in E. destruct (target a vs) as [i|] eqn:Ha; [|done]. cbn [mbind option_bind] in E.
  apply (inj Some) in E as <-.
  destruct (represents_at _ _ _ _ _ _ _ Hr Ha) as (s & pr & nx & rest & <- & Hps & Hreach & Hl & Hback).
  destruct s as [p d kids|]; [|done]. apply runs_bind, Hreach. cbn [root]. apply runs_bind.
  pose proof (plain_kids _ Hps) as Hk. cbn [kids_of] in Hk. pose proof Hl as H0. rewrite cells_Shape in H0. flat H0.
  eapply (runs_duplicate p (JsonHeapProofs.top pr nx (Shape p d kids)) (snd <$> d_text d) (snd <$> d_name d) (denote <$> kids));
    [| | | |exact H0|].
  { constructor. }
  { apply reads_text. intros c Hc. find_cell. }
  { apply reads_text. intros c Hc. find_cell. }
  { apply (reads_seg _ kids None); [done|]. intros c Hc. find_cell. }
  intros t h1 Ht Hp H1. apply runs_ret. exists (ss ++ [Some t]).
  replace (CJson.cJSON_Duplicate recurse (denote (Shape p d kids))) with (denote t) by exact Ht.
  apply (represents_push h1 ps vs R ss (Some t)); [|by intros ? [= <-]].
  destruct Hr as [Hrp Hrt Hrpl Hrl]. split; [done..|]. cbn [opt_cells].
  rewrite (lays_same _ _ _ H0 Hrl) in H1. blocks.
Qed.

Lemma step_delete w h ps vs vs' R ss :
  represents h ps vs R ss → tree_step overflow (Delete w) vs = Some vs' →
  runs (heap_step overflow (Delete w) ps) h (ends_clean vs' R).
Proof.
  intros Hr E. cbn [tree_step] in E. destruct (held w vs) as [u|] eqn:Hw; [|done]. cbn [mbind option_bind] in E.
  apply (inj Some) in E as <-.
  destruct (represents_take _ _ _ _ _ _ _ Hr Hw) as (t & _ & Hp & Ew & [Hrp Hrt Hrpl Hrl]).
  cbn [heap_step]. rewrite Ew. apply runs_bind. front_part (cells None None t) Hrl.
  eapply runs_delete_one; [by apply plain_typed|exact Hrl|]. intros h1 H1. apply runs_ret.
  by exists (<[w := None]> ss).
Qed.

(** The commands that lose nothing. *)
Definition tidy (c : command) : bool := match c with ReplaceNamed _ _ _ => false | _ => true end.

Lemma step_tidy c h ps vs vs' R ss :
  tidy c = true → represents h ps vs R ss → tree_step overflow c vs = Some vs' →
  runs (heap_step overflow c ps) h (ends_clean vs' R).
Proof.
  destruct c; intros Ht Hr E; try done; [|eauto using step_add, step_add_named, step_detach, step_detach_named,
    step_delete_item, step_delete_named, step_replace, step_duplicate, step_delete..].
  injection E as <-. by eapply step_create.
Qed.
Lemma step_ends c h ps vs vs' R ss :
  represents h ps vs R ss → tree_step overflow c vs = Some vs' → runs (heap_step overflow c ps) h (ends vs' R).
Proof.
  intros Hr E. destruct (tidy c) eqn:Ht.
  - eapply runs_mono; [|by eapply step_tidy]. apply clean_ends.
  - destruct c; try done. by eapply step_replace_named.
Qed.

Lemma run_tidy cs h ps vs vs' R ss :
  forallb tidy cs = true → represents h ps vs R ss → tree_run overflow cs vs = Some vs' →
  runs (heap_run overflow cs ps) h (ends_clean vs' R).
Proof.
  revert h ps vs ss. induction cs as [|c cs IH]; intros h ps vs ss Ht Hr E; cbn [heap_run tree_run forallb] in *.
  { injection E as <-. apply runs_ret. by exists ss. }
  apply andb_true_iff in Ht as [Hc Ht]. destruct (tree_step overflow c vs) as [vs1|] eqn:E1; [|done].
  apply runs_bind. eapply runs_mono; [|by eapply step_tidy]. intros ps1 h1 [ss1 H1]. by eapply IH.
Qed.
Lemma run_ends cs h ps vs vs' R ss :
  represents h ps vs R ss → tree_run overflow cs vs = Some vs' → runs (heap_run overflow cs ps) h (ends vs' R).
Proof.
  revert h ps vs ss R. induction cs as [|c cs IH]; intros h ps vs ss R Hr E; cbn [heap_run tree_run] in *.
  { injection E as <-. apply runs_ret, clean_ends. by exists ss. }
  destruct (tree_step overflow c vs) as [vs1|] eqn:E1; [|done].
  apply runs_bind. eapply runs_mono; [|by eapply step_ends]. intros ps1 h1 (lk & ss1 & H1 & Hlk).
  eapply runs_mono; [|by eapply IH]. intros ps2 h2 (lk2 & ss2 & H2 & Hlk2).
  exists (lk2 ++ lk), ss2. rewrite <- (assoc_L (++)). split; [done|]. by apply Forall_app.
Qed.

Lemma represents_empty : represents ∅ [] [] [] [].
Proof. split; [done..| |]; [by intros v t|]. unfold lays. by rewrite map_to_list_empty. Qed.
End steps.

(** ** References *)

Section references.
Context `{Allocator}.

Lemma runs_create_reference c n (R : list cell) h Φ :
  (c, Item n) ∈ R → lays h R →
  (∀ t h', t = Borrow (root t) (mkPayload (Z.lor (n_type n) cJSON_IsReference) None (n_valueint n) (n_valuedouble n) None)
       (n_valuestring n) (n_child n) → lays h' (cells None None t ++ R) → Φ (Some (root t)) h') →
  runs (create_reference (Some c)) h Φ.
Proof.
  intros Hc Hl HΦ. apply runs_bind. eapply runs_alloc; [exact Hl|]. intros q h1 _ _ H1.
  apply runs_bind. eapply runs_load; [exact H1|by right|].
  apply runs_bind. eapply runs_change; [exact H1|]. intros h2 H2. apply runs_ret.
  by eapply (HΦ (Borrow q _ _ _)).
Qed.
Lemma reference_typed ty : (Z.land (Z.lor ty cJSON_IsReference) cJSON_IsReference =? 0) = false.
Proof.
  apply Z.eqb_neq. intros E. apply (f_equal (λ z, Z.testbit z 8)) in E.
  by rewrite Z.land_spec, Z.lor_spec, orb_true_r in E.
Qed.
Lemma typed_snoc l t : forallb typed l = true → typed t = true → forallb typed (l ++ [t]) = true.
Proof. intros Hl Ht. rewrite forallb_app, Hl. cbn. by rewrite Ht. Qed.
End references.

(** An allocator: the place behind the last one in use. *)
Definition last_place (h : heap) : loc := foldr Pos.max 1%positive (map_to_list h).*1.
Lemma last_place_bound h l b : h !! l = Some b → (l <= last_place h)%positive.
Proof.
  intros Hl%elem_of_map_to_list%(list_elem_of_fmap_2 fst). unfold last_place. cbn in Hl.
  induction (map_to_list h).*1 as [|k ks IH]; cbn; [by apply not_elem_of_nil in Hl|].
  apply elem_of_cons in Hl as [->|Hl]; [lia|]. specialize (IH Hl). lia.
Qed.
#[local, program] Instance next_place : Allocator := {| malloc h := Pos.succ (last_place h) |}.
Next Obligation.
  intros h. destruct (h !! Pos.succ (last_place h)) eqn:E; [|done]. apply last_place_bound in E. lia.
Qed.

(** ** Properties *)

(** C8: a program over items does on the heap what it does on trees: if every variable
    that it uses holds an item, it reaches its end without touching memory that is not its
    own, and then each variable points to its tree.  Beside the trees there are at most
    texts in the heap, and nothing when no item of an object is replaced by name. *)
Theorem json_programs_refine_trees `{Allocator} overflow cs vs :
  tree_run overflow cs [] = Some vs →
  ∃ h ps leaks ss, heap_run overflow cs [] ∅ = Done (h, ps) ∧ represents h ps vs leaks ss ∧
    Forall (λ c, ∃ s, c.2 = Text s) leaks ∧ (forallb tidy cs = true → leaks = []).
Proof.
  intros E. destruct (forallb tidy cs) eqn:Ht.
  - destruct (run_tidy overflow cs ∅ [] [] vs [] [] Ht represents_empty E) as (h & ps & Eh & ss & Hr).
    exists h, ps, [], ss. split_and!; [done..|constructor|done].
  - destruct (run_ends overflow cs ∅ [] [] vs [] [] represents_empty E) as (h & ps & Eh & leaks & ss & Hr & Hlk).
    rewrite app_nil_r in Hr. exists h, ps, leaks, ss. by split_and!.
Qed.

(** An object with a number and an array in it, which is filled where it lies, copied,
    and half undone. *)
Definition demo : list command := [
  Create MakeObject; Create (MakeNumber (of_int 7)); AddNamed (0%nat, []) [97] 1;
  Create (MakeInts [1; 2; 3]); AddNamed (0%nat, []) [98] 2;
  Create (MakeString [120]); Add (0%nat, [1%nat]) 3;
  Duplicate (0%nat, [1%nat]) true; Replace (0%nat, [1%nat]) 0 4;
  Detach (0%nat, [1%nat]) 2; DeleteNamed (0%nat, []) (Some [65]); Create MakeTrue;
  ReplaceNamed (0%nat, []) [98] 6].

Lemma json_programs_refine_trees_witness :
  ∃ h ps leaks ss vs, heap_run (λ _, 0) demo [] ∅ = Done (h, ps) ∧ represents h ps vs leaks ss ∧
    length vs = 7%nat ∧ Forall (λ c, ∃ s, c.2 = Text s) leaks.
Proof.
  destruct (json_programs_refine_trees (λ _, 0) demo (default [] (tree_run (λ _, 0) demo []))) as
    (h & ps & leaks & ss & E & Hr & Hl & _); [vm_compute; reflexivity|].
  exists h, ps, leaks, ss, (default [] (tree_run (λ _, 0) demo [])). split; [exact E|]. split; [exact Hr|]. split; [vm_compute; reflexivity|exact Hl].
Defined.

(** C31: a program that has given away or deleted every item it made, and has replaced none
    by name, ends with an empty heap: deletion reaches all that was allocated. *)
Theorem json_programs_free_everything `{Allocator} overflow cs vs :
  tree_run overflow cs [] = Some vs → forallb tidy cs = true → Forall (λ o, o = None) vs →
  ∃ ps, heap_run overflow cs [] ∅ = Done (∅, ps).
Proof.
  intros E Ht Hv.
  destruct (run_tidy overflow cs ∅ [] [] vs [] [] Ht represents_empty E) as (h & ps & Eh & ss & [_ Hvs _ Hl]).
  exists ps. rewrite Eh. do 2 f_equal. rewrite app_nil_r in Hl.
  enough (var_cells ss = []) as Es by (rewrite Es in Hl; by apply map_to_list_empty_iff, Permutation_nil_r).
  subst vs. clear -Hv. unfold each, var_cells in *. induction ss as [|[t|] ss IH]; cbn in *; [done| |].
  - apply Forall_cons in Hv as [Hv _]. done.
  - apply Forall_cons in Hv as [_ Hv]. by apply IH.
Qed.

Definition demo_undone : list command := [
  Create MakeObject; Create (MakeNumber (of_int 7)); AddNamed (0%nat, []) [97] 1;
  Create (MakeInts [1; 2; 3]); AddNamed (0%nat, []) [98] 2;
  Duplicate (0%nat, [1%nat]) true; Replace (0%nat, [1%nat]) 0 3; Delete 0].
Lemma json_programs_free_everything_witness :
  ∃ ps, heap_run (λ _, 0) demo_undone [] ∅ = Done (∅, ps).
Proof.
  apply (json_programs_free_everything (λ _, 0) demo_undone [None; None; None; None]).
  - vm_compute. reflexivity.
  - reflexivity.
  - repeat constructor.
Defined.

(** cJSON_ReplaceItemInObject gives the new item a copy of the name and forgets the
    name it had: when the object has been deleted, that text is still in the heap. *)
Theorem replaced_name_leaks `{Allocator} p d kids string t u R h :
  lays h (cells None None (Shape p d kids) ++ cells None None u ++ R) →
  plain (Shape p d kids) = true → plain u = true → kids !! position (Some string) kids = Some t →
  ∃ h', (cJSON_ReplaceItemInObject (Some p) string (Some (root u));; cJSON_Delete (Some p)) h = Done (h', tt) ∧
    lays h' (text_cell (d_name (pay u)) ++ R).
Proof.
  intros Hl Hp Hu Ht. pose proof (plain_kids _ Hp) as Hk. cbn [kids_of] in Hk.
  assert (runs (cJSON_ReplaceItemInObject (Some p) string (Some (root u));; cJSON_Delete (Some p)) h
    (λ _ h', lays h' (text_cell (d_name (pay u)) ++ R))) as (h' & [] & E & HR); [|by exists h'].
  apply runs_bind. eapply (runs_replace_named None None p d kids string t u None None);
    [exact Hl|exact Ht|by eapply plain_typed, plain_lookup|].
  intros q h1 H1.
  apply (runs_delete_one (Shape p d (<[position (Some string) kids := with_name (Some (q, string)) u]> kids))
    None (text_cell (d_name (pay u)) ++ R)); [|exact H1|done].
  apply plain_typed. eapply plain_same, plain_insert; [done|done|by rewrite plain_with_name].
Qed.

Definition named_object : shape :=
  Shape 1 (mkPayload cJSON_Object None 0 (Zero false) None)
    [Shape 2 (mkPayload cJSON_True None 0 (Zero false) (Some (3%positive, [97]))) []].
Definition named_item : shape := Shape 4 (mkPayload cJSON_NULL None 0 (Zero false) (Some (5%positive, [98]))) [].
Definition named_heap : heap := list_to_map (cells None None named_object ++ cells None None named_item).

Lemma named_heap_lays : lays named_heap (cells None None named_object ++ cells None None named_item ++ []).
Proof.
  unfold lays, named_heap. rewrite app_nil_r. apply map_to_list_to_map.
  apply (bool_decide_unpack _). vm_compute. exact I.
Qed.

Lemma replaced_name_leaks_witness :
  ∃ h', (cJSON_ReplaceItemInObject (Some 1%positive) [97] (Some 4%positive);; cJSON_Delete (Some 1%positive)) named_heap =
    Done (h', tt) ∧ lays h' [(5%positive, Text [98])].
Proof.
  exact (replaced_name_leaks 1 _ _ [97] _ named_item [] named_heap named_heap_lays eq_refl eq_refl eq_refl).
Defined.

Section references.
Context `{Allocator}.

Lemma ref_bit ty : Z.land (Z.lor ty cJSON_IsReference) (Z.lnot cJSON_IsReference) = Z.land ty (Z.lnot cJSON_IsReference).
Proof. rewrite Z.land_lor_distr_l. change (Z.land cJSON_IsReference (Z.lnot cJSON_IsReference)) with 0. apply Z.lor_0_r. Qed.

(** A reference behind the items of an array is read as the item it refers to. *)
Lemma runs_duplicate_reference p d kids b s pr nx R h :
  lays h (cells None None (Shape p d (kids ++ [b])) ++ cells pr nx s ++ R) → plain s = true →
  b = Borrow (root b) (mkPayload (Z.lor (type (denote s)) cJSON_IsReference) None (valueint (denote s))
        (valuedouble (denote s)) None) (fst <$> d_text (pay s)) (head_or (kids_of s) None) →
  runs (cJSON_Duplicate (Some (root b)) true) h (λ q h', ∃ t, q = Some (root t) ∧
    denote t = set_name None (CJson.cJSON_Duplicate true (denote s)) ∧
    lays h' (cells None None t ++ cells None None (Shape p d (kids ++ [b])) ++ cells pr nx s ++ R)).
Proof.
  intros Hl Hs Eb. destruct s as [c e ks|]; [|done]. cbn [kids_of pay denote type valueint valuedouble] in Eb.
  pose proof (plain_kids _ Hs) as Hk. cbn [kids_of] in Hk. pose proof Hl as H0.
  rewrite !cells_Shape, seg_app in H0. cbn [seg] in H0. unfold cells in H0. flat H0.
  eapply (runs_duplicate (root b) (JsonHeapProofs.top (last_or kids None) None b) (snd <$> d_text e) None (denote <$> ks));
    [| | | |exact H0|].
  { find_cell. }
  { rewrite Eb. cbn. apply reads_text. intros x Hx. find_cell. }
  { by rewrite Eb. }
  { rewrite Eb. cbn. apply (reads_seg _ ks None); [done|]. intros x Hx. find_cell. }
  intros t h1 Ht _ H1. exists t. split; [done|]. split.
  - rewrite Ht, Eb. cbn. by rewrite ref_bit.
  - rewrite (lays_same _ _ _ H0 Hl) in H1. exact H1.
Qed.
End references.

(** a reference that is added to an array borrows.  While the item it refers to is
    there, the reference is read as that item without its name; and deleting the array
    frees the array and the reference, and nothing of the item. *)
Theorem reference_borrows `{Allocator} p d kids s pr nx R h :
  lays h (cells None None (Shape p d kids) ++ cells pr nx s ++ R) →
  typed (Shape p d kids) = true → plain s = true →
  ∃ h1 b, cJSON_AddItemReferenceToArray (Some p) (Some (root s)) h = Done (h1, tt) ∧
    lays h1 (cells None None (Shape p d (kids ++ [b])) ++ cells pr nx s ++ R) ∧
    (∃ h2 t, cJSON_Duplicate (Some (root b)) true h1 = Done (h2, Some (root t)) ∧
      denote t = set_name None (CJson.cJSON_Duplicate true (denote s)) ∧
      lays h2 (cells None None t ++ cells None None (Shape p d (kids ++ [b])) ++ cells pr nx s ++ R)) ∧
    (∃ h3, cJSON_Delete (Some p) h1 = Done (h3, tt) ∧ lays h3 (cells pr nx s ++ R)).
Proof.
  intros Hl Hp Hs.
  assert (runs (cJSON_AddItemReferenceToArray (Some p) (Some (root s))) h (λ _ h1, ∃ b,
    lays h1 (cells None None (Shape p d (kids ++ [b])) ++ cells pr nx s ++ R) ∧
    b = Borrow (root b) (mkPayload (Z.lor (type (denote s)) cJSON_IsReference) None (valueint (denote s))
          (valuedouble (denote s)) None) (fst <$> d_text (pay s)) (head_or (kids_of s) None)))
    as (h1 & [] & E1 & b & H1 & Eb).
  { apply runs_bind. eapply (runs_create_reference (root s) (JsonHeapProofs.top pr nx s)); [|exact Hl|].
    { unfold cells. find_cell. }
    intros b h1 Eb H1. front_part (cells None None (Shape p d kids)) H1.
    eapply runs_add; [exact H1|]. intros h2 H2. exists b. split; [done|].
    destruct s; [|done]. exact Eb. }
  exists h1, b. split; [done|]. split; [done|]. split.
  - destruct (runs_duplicate_reference p d kids b s pr nx R h1 H1 Hs Eb) as (h2 & q & E2 & t & -> & Ht & H2). by exists h2, t.
  - assert (runs (cJSON_Delete (Some p)) h1 (λ _ h3, lays h3 (cells pr nx s ++ R))) as (h3 & [] & E3 & H3); [|by exists h3].
    apply (runs_delete_one (Shape p d (kids ++ [b])) None (cells pr nx s ++ R)); [|exact H1|done].
    cbn [typed] in *. apply andb_true_iff in Hp as [-> Hk]. apply typed_snoc; [done|].
    rewrite Eb. cbn. by rewrite reference_typed.
Qed.

Lemma reference_borrows_witness :
  ∃ h1 b, cJSON_AddItemReferenceToArray (Some 4%positive) (Some 1%positive) named_heap = Done (h1, tt) ∧
    (∃ h2 t, cJSON_Duplicate (Some (root b)) true h1 = Done (h2, Some (root t)) ∧
      denote t = CJson.cJSON_Duplicate true (denote named_object)) ∧
    (∃ h3, cJSON_Delete (Some 4%positive) h1 = Done (h3, tt) ∧ lays h3 (cells None None named_object ++ [])).
Proof.
  destruct (reference_borrows 4 (pay named_item) [] named_object None None [] named_heap) as
    (h1 & b & E1 & _ & (h2 & t & E2 & Ht & _) & (h3 & E3 & H3)).
  - pose proof named_heap_lays as Hl. eapply lays_perm; [|exact Hl]. rewrite !app_nil_r. apply Permutation_app_comm.
  - reflexivity.
  - reflexivity.
  - exists h1, b. split; [exact E1|]. split; [by exists h2, t|by exists h3].
Defined.

(** a reference outlives what it refers to: when the item is deleted first, reading the
    reference touches freed memory. *)
Theorem dangling_reference_faults :
  (a ← cJSON_CreateArray; o ← cJSON_CreateObject; v ← cJSON_CreateTrue;
   cJSON_AddItemToObject o [97] v;; cJSON_AddItemReferenceToArray a o;;
   cJSON_Delete o;; cJSON_Duplicate a true) ∅ = Fault UseAfterFree ∧
  (a ← cJSON_CreateArray; o ← cJSON_CreateString [97];
   cJSON_AddItemReferenceToArray a o;;
   cJSON_Delete o;; cJSON_Duplicate a true) ∅ = Fault UseAfterFree.
Proof. split; vm_compute; reflexivity. Qed.
