(* ===== verification/JsonWrapperHeap.v ===== *)
(** * JsonWrapperHeap: the wrapper of new_elbs/json_wrapper.cc and who owns what

    In [JsonWrapper] a wrapper holds a tree.  Here it is what it is in C++: a pointer and a
    flag, on the heap of [JsonHeap].  A wrapper without the flag is a view of an item
    inside a tree that another one owns; it writes into that tree, and it dangles when the
    tree goes.  A C string is [None] for the null pointer; a text to be parsed is read
    as [CJson] reads it and then laid in the heap ([plant]). *)

From stdpp Require Import gmap.
From S2P Require Import Prelude Bytes Double Outcome CJson JsonHeap.

Record wrapper := mkWrapper { m_root : ptr; m_owner : bool }.

Section wrapper.
Context `{Allocator} (pow10 : double → double) (overflow : double → Z).

(** ** Construction and ownership *)

(** The items of a tree, laid in the heap as cJSON_Parse leaves them. *)
Fixpoint plant (i : cJSON) : state heap ptr :=
  match i with
  | mkItem ty vs vi vd nm kids =>
      p ← create (λ n, set_number vi vd (set_ntype ty n));
      (if vs is Some s then q ← cJSON_strdup s; change p (set_valuestring q) else mret tt);;
      (if nm is Some s then q ← cJSON_strdup s; change p (set_string q) else mret tt);;
      fill (plant <$> kids) p None;;
      mret p
  end.

(** [parse(nullptr)]. *)
Definition reset (w : wrapper) : state heap wrapper :=
  (if m_owner w then cJSON_Delete (m_root w) else mret tt);; mret (mkWrapper None true).
Definition destroy (w : wrapper) : state heap unit := reset w;; mret tt.
Definition parse (input : option bytes) (w : wrapper) : state heap wrapper :=
  reset w;;
  match input with
  | Some ((_ :: _) as s) =>
      i ← lift (of_result (cJSON_Parse pow10 overflow s));
      (if i is Some i then p ← plant i; mret (mkWrapper p true) else mret (mkWrapper None true))
  | _ => mret (mkWrapper None true)
  end.
Definition assign (node : ptr) (w : wrapper) : state heap wrapper :=
  (if m_owner w then cJSON_Delete (m_root w) else mret tt);; mret (mkWrapper node true).
Definition setObjectType (w : wrapper) : state heap wrapper := p ← cJSON_CreateObject; assign p w.
Definition setArrayType (w : wrapper) : state heap wrapper := p ← cJSON_CreateArray; assign p w.

Definition duplicate (w : wrapper) : state heap ptr := cJSON_Duplicate (m_root w) true.
(** Assignment from another object: what this one becomes, and what is left of the other. *)
Definition copy_assign (this rhs : wrapper) : state heap wrapper :=
  reset this;; p ← duplicate rhs; mret (mkWrapper p true).
Definition move_assign (this rhs : wrapper) : state heap (wrapper * wrapper) :=
  reset this;; mret (mkWrapper (m_root rhs) (m_owner rhs), mkWrapper None false).
Definition copy_construct (rhs : wrapper) : state heap wrapper := copy_assign (mkWrapper None true) rhs.
Definition move_construct (rhs : wrapper) : state heap (wrapper * wrapper) :=
  move_assign (mkWrapper None true) rhs.

Definition take (w : wrapper) : state heap (wrapper * wrapper) :=
  if m_owner w then mret (mkWrapper (m_root w) true, mkWrapper None false)
  else p ← cJSON_Duplicate (m_root w) true; mret (mkWrapper p true, w).
Definition release (w : wrapper) : ptr * wrapper :=
  if m_owner w then (m_root w, mkWrapper None false) else (None, w).

(** ** Views *)

Definition view (p : ptr) : wrapper := mkWrapper p false.

Definition findNode (n : option bytes) (w : wrapper) : state heap ptr :=
  match m_root w, n with
  | Some _, Some (_ :: _) => cJSON_GetObjectItem (m_root w) n
  | _, _ => mret None
  end.
Definition findNode_typed (n : option bytes) (ty : Z) (w : wrapper) : state heap ptr :=
  p ← findNode n w;
  match p with
  | None => mret None
  | Some _ => i ← load p; mret (if n_type i =? ty then p else None)
  end.
Definition findNode_at (index : Z) (w : wrapper) : state heap ptr :=
  match m_root w with None => mret None | Some _ => cJSON_GetArrayItem (m_root w) index end.

Definition getObject (n : option bytes) (w : wrapper) : state heap wrapper :=
  p ← findNode_typed n cJSON_Object w; mret (view p).
Definition getArray (n : option bytes) (w : wrapper) : state heap wrapper :=
  p ← findNode_typed n cJSON_Array w; mret (view p).
Definition getArray_at (index : Z) (w : wrapper) : state heap wrapper :=
  p ← findNode_at index w; i ← load p;
  mret (if n_type i =? cJSON_Array then view p else mkWrapper None true).

Definition neighbour (f : node → ptr) (w : wrapper) : state heap wrapper :=
  match m_root w with
  | None => mret (view None)
  | Some _ => i ← load (m_root w); mret (view (f i))
  end.
Definition getChild : wrapper → state heap wrapper := neighbour n_child.
Definition getNext : wrapper → state heap wrapper := neighbour n_next.
Definition getPrev : wrapper → state heap wrapper := neighbour n_prev.

(** ** Writing *)

(** The value of the root itself: in place when it has the right type, or a new root. *)
Definition set_root (fits : Z → bool) (f : node → node) (fresh : state heap ptr) (w : wrapper) : state heap wrapper :=
  match m_root w with
  | Some _ =>
      i ← load (m_root w);
      if fits (n_type i) then change (m_root w) f;; mret w else p ← fresh; assign p w
  | None => p ← fresh; assign p w
  end.
Definition setIntValue_root (value : Z) : wrapper → state heap wrapper :=
  set_root (λ ty, ty =? cJSON_Number) (set_number value (of_int value)) (cJSON_CreateNumber overflow (of_int value)).
Definition setDoubleValue_root (value : double) : wrapper → state heap wrapper :=
  set_root (λ ty, ty =? cJSON_Number) (λ n, set_number (n_valueint n) value n) (cJSON_CreateNumber overflow value).
Definition setUIntValue_root (value : Z) : wrapper → state heap wrapper := setDoubleValue_root (of_int value).
Definition setBooleanValue_root (value : bool) : wrapper → state heap wrapper :=
  set_root (λ ty, (ty =? cJSON_True) || (ty =? cJSON_False))
    (set_ntype (if value then cJSON_True else cJSON_False))
    (cJSON_CreateNumber overflow (of_int (if value then 1 else 0))).
Definition setStringValue_root (value : bytes) (w : wrapper) : state heap wrapper :=
  p ← cJSON_CreateString value; assign p w.

(** A member by its name: changed in place when [keep] says how, replaced, or added. *)
Definition set_member (n : option bytes) (keep : node → option (node → node)) (fresh : state heap ptr)
    (w : wrapper) : state heap unit :=
  match m_root w, n with
  | Some _, Some name =>
      p ← findNode n w;
      match p with
      | None => q ← fresh; cJSON_AddItemToObject (m_root w) name q
      | Some _ =>
          i ← load p;
          match keep i with
          | Some f => change p f
          | None => q ← fresh; cJSON_ReplaceItemInObject (m_root w) name q
          end
      end
  | _, _ => mret tt
  end.
Definition setIntValue (n : option bytes) (value : Z) : wrapper → state heap unit :=
  set_member n (λ i, if n_type i =? cJSON_Number then Some (set_number value (n_valuedouble i)) else None)
    (cJSON_CreateNumber overflow (of_int value)).
Definition setDoubleValue (n : option bytes) (value : double) : wrapper → state heap unit :=
  set_member n (λ i, if n_type i =? cJSON_Number then Some (set_number (n_valueint i) value) else None)
    (cJSON_CreateNumber overflow value).
Definition setUIntValue (n : option bytes) (value : Z) : wrapper → state heap unit :=
  setDoubleValue n (of_int value).
Definition setBooleanValue (n : option bytes) (value : bool) : wrapper → state heap unit :=
  set_member n (λ i, if n_type i =? (if value then cJSON_True else cJSON_False) then Some id else None)
    (cJSON_CreateBool value).
Definition setStringValue (n value : option bytes) (w : wrapper) : state heap unit :=
  match value with
  | Some s => set_member n (λ _, None) (cJSON_CreateString s) w
  | None =>
      match m_root w, n with
      | Some _, Some _ =>
          p ← findNode n w; (if p is Some _ then cJSON_DeleteItemFromObject (m_root w) n else mret tt)
      | _, _ => mret tt
      end
  end.
Definition setObjectValue (n : option bytes) (value : ptr) (w : wrapper) : state heap unit :=
  match value with
  | Some _ => set_member n (λ _, None) (cJSON_Duplicate value true) w
  | None => mret tt
  end.
Definition setArrayValue (n : option bytes) (value w : wrapper) : state heap unit :=
  setObjectValue n (m_root value) w.

Definition eraseNode (n : option bytes) (w : wrapper) : state heap bool :=
  match m_root w with
  | Some _ =>
      p ← cJSON_DetachItemFromObject (m_root w) n;
      (if p is Some _ then cJSON_Delete p;; mret true else mret false)
  | None => mret false
  end.
Definition with_root (f : ptr → state heap unit) (w : wrapper) : state heap bool :=
  match m_root w with Some _ => f (m_root w);; mret true | None => mret false end.
Definition addStringValueToArray (value : option bytes) (w : wrapper) : state heap bool :=
  match value with
  | Some s => with_root (λ a, i ← cJSON_CreateString s; cJSON_AddItemToArray a i) w
  | None => mret false
  end.
Definition addIntValueToArray (value : Z) : wrapper → state heap bool :=
  with_root (λ a, i ← cJSON_CreateNumber overflow (of_int value); cJSON_AddItemToArray a i).
Definition addBoolValueToArray (value : bool) : wrapper → state heap bool :=
  with_root (λ a, i ← (if value then cJSON_CreateTrue else cJSON_CreateFalse); cJSON_AddItemToArray a i).
Definition addItemToArray (item : ptr) : wrapper → state heap bool :=
  with_root (λ a, cJSON_AddItemToArray a item).
Definition addItemToObject (n : bytes) (item : ptr) : wrapper → state heap bool :=
  with_root (λ a, cJSON_AddItemToObject a n item).

(** ** Merging *)

Definition doMerge_with (loop : ptr → ptr → Z → ptr → state heap unit) (root1 root2 : ptr) : state heap unit :=
  match root1, root2 with
  | Some _, Some _ =>
      n1 ← load root1; n2 ← load root2;
      if n_type n1 =? n_type n2 then loop root1 root2 0 (n_child n2) else mret tt
  | _, _ => mret tt
  end.

Fixpoint merge_loop (fuel : nat) (root1 root2 : ptr) (which : Z) (item2 : ptr) : state heap unit :=
  match item2 with
  | None => mret tt
  | Some _ =>
      match fuel with
      | O => no_fuel
      | S fuel =>
          n2 ← load item2;
          name ← read_text (n_string n2);
          item1 ← (if name is Some _ then cJSON_GetObjectItem root1 name else mret None);
          match item1, name with
          | Some _, Some s =>
              n1 ← load item1; n2 ← load item2;
              if bool_decide (is_Some (n_child n1)) && bool_decide (is_Some (n_child n2)) && (n_type n1 =? n_type n2)
              then
                doMerge_with (merge_loop fuel) item1 item2;;
                n2 ← load item2;
                merge_loop fuel root1 root2 (which + 1) (n_next n2)
              else
                c ← cJSON_DetachItemFromArray root2 which;
                cJSON_ReplaceItemInObject root1 s c;;
                merge_loop fuel root1 root2 which (n_next n2)
          | _, _ =>
              c ← cJSON_DetachItemFromArray root2 which;
              cJSON_AddItemToArray root1 c;;
              merge_loop fuel root1 root2 which (n_next n2)
          end
      end
  end.
Definition doMerge (root1 root2 : ptr) : state heap unit :=
  fuelled (λ fuel, doMerge_with (merge_loop fuel) root1 root2).

(** What becomes of this wrapper and of the profile. *)
Definition merge (profile w : wrapper) : state heap (wrapper * wrapper) :=
  match m_root w, m_root profile with
  | Some _, Some _ => doMerge (m_root w) (m_root profile);; mret (w, profile)
  | None, Some _ =>
      reset w;; mret (mkWrapper (m_root profile) true, mkWrapper (m_root profile) false)
  | _, None => mret (w, profile)
  end.
Definition reverse_merge (profile w : wrapper) : state heap (wrapper * wrapper) :=
  match m_root profile with
  | Some _ =>
      (if m_root w is Some _ then doMerge (m_root profile) (m_root w) else mret tt);;
      reset w;; mret (mkWrapper (m_root profile) true, mkWrapper (m_root profile) false)
  | None => mret (w, profile)
  end.
Definition merge_text (profile : option bytes) (w : wrapper) : state heap wrapper :=
  p ← parse profile (mkWrapper None true); '(w, p) ← merge p w; destroy p;; mret w.
Definition reverse_merge_text (profile : option bytes) (w : wrapper) : state heap wrapper :=
  p ← parse profile (mkWrapper None true); '(w, p) ← reverse_merge p w; destroy p;; mret w.
End wrapper.
