(* ===== verification/JsonWrapperHeapProofs.v ===== *)
(** * JsonWrapperHeapProofs: merging through pointers, and what becomes of views

    The merge of two trees in the heap gives what [JsonWrapper] says, with the names that
    it loses; a view reaches every child of its item; and the uses of a view that end in
    freed memory. *)

From S2P Require Import Prelude Bytes Double Outcome CJson JsonHeap JsonHeapProofs JsonPrograms JsonWrapper JsonWrapperHeap.
From stdpp Require Import gmap list.
#[local] Open Scope Z_scope.

(** ** Merging *)

Definition texts (l : list cell) : Prop := Forall (λ c : cell, ∃ s, c.2 = Text s) l.
Lemma texts_nil : texts [].
Proof. constructor. Qed.
Lemma texts_app l1 l2 : texts l1 → texts l2 → texts (l1 ++ l2).
Proof. intros. by apply Forall_app. Qed.
Lemma texts_cell o : texts (text_cell o).
Proof. destruct o as [[l s]|]; repeat constructor. by exists s. Qed.

Section merging.
Context `{Allocator}.

(** Where the loop of doMerge may end: [f] is what the trees of both roots become. *)
Definition merged (p1 p2 : loc) (d1 d2 : payload) (pr1 nx1 pr2 nx2 : ptr) (R : list cell) (res : cJSON * cJSON)
    (h : heap) : Prop :=
  ∃ k1 k2 leaks, texts leaks ∧ plain (Shape p1 d1 k1) = true ∧ plain (Shape p2 d2 k2) = true ∧
    res = (denote (Shape p1 d1 k1), denote (Shape p2 d2 k2)) ∧
    lays h (cells pr1 nx1 (Shape p1 d1 k1) ++ cells pr2 nx2 (Shape p2 d2 k2) ++ leaks ++ R).

Abbreviation pure_merge := (λ item1 item2, JsonWrapper.doMerge item2 item1).

(** What the loop is to do from one of its states on. *)
Definition loop_spec (fuel : nat) : Prop :=
  ∀ p1 p2 d1 d2 pr1 nx1 pr2 nx2 k1 fin todo R h,
    (count todo ≤ fuel)%nat → plain (Shape p1 d1 k1) = true → plain (Shape p2 d2 (fin ++ todo)) = true →
    lays h (cells pr1 nx1 (Shape p1 d1 k1) ++ cells pr2 nx2 (Shape p2 d2 (fin ++ todo)) ++ R) →
    runs (merge_loop fuel (Some p1) (Some p2) (Z.of_nat (length fin)) (head_or todo None)) h
      (λ _, merged p1 p2 d1 d2 pr1 nx1 pr2 nx2 R
        (merge_items pure_merge (denote <$> todo) (length fin) (denote (Shape p1 d1 k1)) (denote (Shape p2 d2 (fin ++ todo))))).

Lemma merged_frame p1 p2 d1 d2 pr1 nx1 pr2 nx2 leaks R res h :
  texts leaks → merged p1 p2 d1 d2 pr1 nx1 pr2 nx2 (leaks ++ R) res h → merged p1 p2 d1 d2 pr1 nx1 pr2 nx2 R res h.
Proof.
  intros Ht (k1 & k2 & lk & Hlk & Hp1 & Hp2 & E & Hl). exists k1, k2, (lk ++ leaks).
  split_and!; [by apply texts_app|done..|]. blocks.
Qed.

Lemma lookup_middle_here {A} (l1 l2 : list A) x : (l1 ++ x :: l2) !! length l1 = Some x.
Proof. by rewrite lookup_app_r, Nat.sub_diag by lia. Qed.

Lemma insert_here {A} (l1 l2 : list A) x y : <[length l1 := y]> (l1 ++ x :: l2) = l1 ++ y :: l2.
Proof. induction l1 as [|z l1 IH]; [done|]. cbn. f_equal. apply IH. Qed.

(** The item moves: it is detached and put behind the items of the first root. *)
Lemma append_step fuel p1 p2 d1 d2 pr1 nx1 pr2 nx2 k1 fin t todo R h :
  loop_spec fuel → (count (t :: todo) ≤ S fuel)%nat →
  plain (Shape p1 d1 k1) = true → plain (Shape p2 d2 (fin ++ t :: todo)) = true →
  lays h (cells pr1 nx1 (Shape p1 d1 k1) ++ cells pr2 nx2 (Shape p2 d2 (fin ++ t :: todo)) ++ R) →
  runs (c ← cJSON_DetachItemFromArray (Some p2) (Z.of_nat (length fin)); cJSON_AddItemToArray (Some p1) c;;
        merge_loop fuel (Some p1) (Some p2) (Z.of_nat (length fin)) (head_or todo None)) h
    (λ _, merged p1 p2 d1 d2 pr1 nx1 pr2 nx2 R
      (merge_items pure_merge (denote <$> todo) (length fin)
        (denote (Shape p1 d1 (k1 ++ [t]))) (denote (Shape p2 d2 (fin ++ todo))))).
Proof.
  intros IH Hc Hp1 Hp2 Hl. pose proof (plain_kids _ Hp1) as Hk1. pose proof (plain_kids _ Hp2) as Hk2. cbn [kids_of] in *.
  assert (plain t = true) as Ht by (eapply plain_lookup; [exact Hk2|apply lookup_middle_here]).
  front_part (cells pr2 nx2 (Shape p2 d2 (fin ++ t :: todo))) Hl. apply runs_bind.
  eapply runs_detach; [exact Hl|rewrite Nat2Z.id; apply lookup_middle_here|]. rewrite Nat2Z.id, delete_middle.
  intros h1 H1. front_part (cells None None t) H1. front_part (cells pr1 nx1 (Shape p1 d1 k1)) H1.
  apply runs_bind. eapply runs_add; [exact H1|]. intros h2 H2. apply IH.
  - cbn in Hc. destruct t; cbn in Hc; unfold count; lia.
  - eapply plain_same, plain_snoc; done.
  - eapply plain_same; [exact Hp2|]. pose proof (plain_delete _ (length fin) Hk2) as Hd. by rewrite delete_middle in Hd.
  - blocks.
Qed.
Lemma replaced_denote p d kids n k u q t :
  index_of (Some n) (denote <$> kids) = Some k → kids !! k = Some u →
  CJson.cJSON_ReplaceItemInObject (denote (Shape p d kids)) n (denote t) =
    denote (Shape p d (<[k := with_name (Some (q, n)) t]> kids)).
Proof.
  intros Ek Eu. unfold CJson.cJSON_ReplaceItemInObject. rewrite child_denote. cbn [kids_of]. rewrite Ek.
  unfold CJson.cJSON_ReplaceItemInArray. rewrite Nat2Z.id, <- (denote_with_name q). cbn. by rewrite list_fmap_insert.
Qed.

(** The item takes the place of one of the same name, and its own name is lost. *)
Lemma replace_step fuel p1 p2 d1 d2 pr1 nx1 pr2 nx2 k1 fin t todo n k u R h :
  loop_spec fuel → (count (t :: todo) ≤ S fuel)%nat →
  plain (Shape p1 d1 k1) = true → plain (Shape p2 d2 (fin ++ t :: todo)) = true →
  index_of (Some n) (denote <$> k1) = Some k → position (Some n) k1 = k → k1 !! k = Some u →
  lays h (cells pr1 nx1 (Shape p1 d1 k1) ++ cells pr2 nx2 (Shape p2 d2 (fin ++ t :: todo)) ++ R) →
  runs (c ← cJSON_DetachItemFromArray (Some p2) (Z.of_nat (length fin)); cJSON_ReplaceItemInObject (Some p1) n c;;
        merge_loop fuel (Some p1) (Some p2) (Z.of_nat (length fin)) (head_or todo None)) h
    (λ _, merged p1 p2 d1 d2 pr1 nx1 pr2 nx2 R
      (merge_items pure_merge (denote <$> todo) (length fin)
        (CJson.cJSON_ReplaceItemInObject (denote (Shape p1 d1 k1)) n (denote t)) (denote (Shape p2 d2 (fin ++ todo))))).
Proof.
  intros IH Hc Hp1 Hp2 Ek Ep Eu Hl. pose proof (plain_kids _ Hp1) as Hk1. pose proof (plain_kids _ Hp2) as Hk2.
  cbn [kids_of] in *. assert (plain t = true) as Ht by (eapply plain_lookup; [exact Hk2|apply lookup_middle_here]).
  front_part (cells pr2 nx2 (Shape p2 d2 (fin ++ t :: todo))) Hl. apply runs_bind.
  eapply runs_detach; [exact Hl|rewrite Nat2Z.id; apply lookup_middle_here|]. rewrite Nat2Z.id, delete_middle.
  intros h1 H1. front_part (cells None None t) H1. front_part (cells pr1 nx1 (Shape p1 d1 k1)) H1.
  apply runs_bind. eapply (runs_replace_named pr1 nx1 p1 d1 k1 n u t); [exact H1|by rewrite Ep|by eapply plain_typed, (plain_lookup k1)|].
  rewrite Ep. intros q h2 H2. rewrite (replaced_denote p1 d1 k1 n k u q t Ek Eu).
  eapply runs_mono; [intros a h3; apply (merged_frame _ _ _ _ _ _ _ _ (text_cell (d_name (pay t)))), texts_cell|].
  apply IH.
  - cbn in Hc. destruct t; cbn in Hc; unfold count; lia.
  - eapply plain_same, plain_insert; [done|done|by rewrite plain_with_name].
  - eapply plain_same; [exact Hp2|]. pose proof (plain_delete _ (length fin) Hk2) as Hd. by rewrite delete_middle in Hd.
  - blocks.
Qed.

(** An item among the items of another, and what it leaves when it changes. *)
Lemma focus_kid p d kids k u pr nx :
  plain (Shape p d kids) = true → kids !! k = Some u →
  ∃ pru nxu rest, cells pr nx (Shape p d kids) ≡ₚ cells pru nxu u ++ rest ∧
    ∀ u', root u' = root u → cells pr nx (Shape p d (<[k := u']> kids)) ≡ₚ cells pru nxu u' ++ rest.
Proof.
  intros Hp Hu. destruct (focus [k] (Shape p d kids) u pr nx Hp) as (pru & nxu & rest & Hf); [cbn; by rewrite Hu|].
  exists pru, nxu, rest. cbn in Hf. rewrite Hu in Hf. split; [|exact Hf].
  rewrite <- (Hf u eq_refl). by rewrite list_insert_id.
Qed.

(** Both items stay and the second is merged into the first. *)
Lemma recursive_step fuel p1 p2 d1 d2 pr1 nx1 pr2 nx2 k1 fin t todo k u R h :
  loop_spec fuel → (count (t :: todo) ≤ S fuel)%nat →
  plain (Shape p1 d1 k1) = true → plain (Shape p2 d2 (fin ++ t :: todo)) = true →
  k1 !! k = Some u → type (denote u) = type (denote t) →
  lays h (cells pr1 nx1 (Shape p1 d1 k1) ++ cells pr2 nx2 (Shape p2 d2 (fin ++ t :: todo)) ++ R) →
  runs (doMerge_with (merge_loop fuel) (Some (root u)) (Some (root t));;
        n2 ← load (Some (root t));
        merge_loop fuel (Some p1) (Some p2) (Z.of_nat (length fin) + 1) (n_next n2)) h
    (λ _, merged p1 p2 d1 d2 pr1 nx1 pr2 nx2 R
      (let '(item1, item2) := pure_merge (denote u) (denote t) in
       merge_items pure_merge (denote <$> todo) (S (length fin))
         (set_child (<[k := item1]> (child (denote (Shape p1 d1 k1)))) (denote (Shape p1 d1 k1)))
         (set_child (<[length fin := item2]> (child (denote (Shape p2 d2 (fin ++ t :: todo))))) (denote (Shape p2 d2 (fin ++ t :: todo)))))).
Proof.
  intros IH Hc Hp1 Hp2 Eu Ety Hl. pose proof (plain_kids _ Hp1) as Hk1. pose proof (plain_kids _ Hp2) as Hk2. cbn [kids_of] in *.
  assert (plain t = true) as Ht by (eapply plain_lookup; [exact Hk2|apply lookup_middle_here]).
  assert (plain u = true) as Hu by (by eapply (plain_lookup k1)).
  destruct (focus_kid p1 d1 k1 k u pr1 nx1 Hp1 Eu) as (pru & nxu & rest1 & E1 & F1).
  destruct (focus_kid p2 d2 _ _ t pr2 nx2 Hp2 (lookup_middle_here fin todo t)) as (prt & nxt & rest2 & E2 & F2).
  rewrite E1, E2 in Hl. destruct u as [pu du ku|]; [|done]. destruct t as [pt dt kt|]; [|done].
  front_part (cells prt nxt (Shape pt dt kt)) Hl. front_part (cells pru nxu (Shape pu du ku)) Hl.
  cbn [denote type] in Ety. apply runs_bind. unfold doMerge_with. cbn [root].
  apply runs_bind. eapply runs_load; [exact Hl|unfold cells; find_cell|].
  apply runs_bind. eapply runs_load; [exact Hl|unfold cells; find_cell|]. cbn [JsonHeapProofs.top n_type n_child].
  rewrite Ety, Z.eqb_refl.
  assert (pure_merge (denote (Shape pu du ku)) (denote (Shape pt dt kt)) =
    merge_items pure_merge (denote <$> kt) 0 (denote (Shape pu du ku)) (denote (Shape pt dt kt))) as ->
    by (cbn; by rewrite Ety, Z.eqb_refl).
  eapply runs_mono; [|apply (IH pu pt du dt pru nxu prt nxt ku [] kt); [|done|done|exact Hl]].
  2: { cbn in Hc. unfold count. lia. }
  intros [] h1 (ku' & kt' & leaks & Hlk & Hpu & Hpt & Em & H1). cbn [length app] in Em. rewrite Em.
  clear Em. cbn beta iota.
  set (u' := Shape pu du ku') in *. set (t' := Shape pt dt kt') in *.
  assert (lays h1 (cells pr1 nx1 (Shape p1 d1 (<[k := u']> k1)) ++ cells pr2 nx2 (Shape p2 d2 (fin ++ t' :: todo)) ++ leaks ++ R)) as H2.
  { rewrite (F1 u' eq_refl). specialize (F2 t' eq_refl). rewrite insert_here in F2. rewrite F2. blocks. }
  clear H1. pose proof H2 as H1. rewrite (cells_Shape pr2), seg_middle in H1. unfold cells at 2 in H1. cbn [root] in H1.
  apply runs_bind. eapply (runs_load pt); [exact H1|find_cell|]. rewrite top_next.
  eapply runs_mono; [intros a h3; apply (merged_frame _ _ _ _ _ _ _ _ leaks), Hlk|].
  replace (Z.of_nat (length fin) + 1) with (Z.of_nat (length (fin ++ [t']))) by (rewrite length_app; cbn; lia).
  replace (S (length fin)) with (length (fin ++ [t'])) by (rewrite length_app; cbn; lia).
  assert (set_child (<[k := denote u']> (child (denote (Shape p1 d1 k1)))) (denote (Shape p1 d1 k1)) =
    denote (Shape p1 d1 (<[k := u']> k1))) as -> by (cbn; by rewrite list_fmap_insert).
  assert (set_child (<[length fin := denote t']> (child (denote (Shape p2 d2 (fin ++ Shape pt dt kt :: todo)))))
    (denote (Shape p2 d2 (fin ++ Shape pt dt kt :: todo))) = denote (Shape p2 d2 ((fin ++ [t']) ++ todo))) as ->
    by (rewrite child_denote; cbn [kids_of]; rewrite <- list_fmap_insert, insert_here, <- (assoc_L (++)); done).
  apply IH.
  - cbn in Hc. unfold count. lia.
  - by eapply plain_same, plain_insert.
  - eapply plain_same; [exact Hp2|]. pose proof (plain_insert _ (length fin) t' Hk2 Hpt) as Hi.
    rewrite insert_here in Hi. by rewrite <- (assoc_L (++)).
  - rewrite <- (assoc_L (++) fin). exact H2.
Qed.
(** The list of the second root, up to the item at which the loop is. *)
Lemma runs_load_here p2 d2 pr2 nx2 fin t todo S R h Φ :
  lays h (S ++ cells pr2 nx2 (Shape p2 d2 (fin ++ t :: todo)) ++ R) →
  Φ (JsonHeapProofs.top (last_or fin None) (head_or todo None) t) h → runs (load (Some (root t))) h Φ.
Proof.
  rewrite cells_Shape, seg_middle. unfold cells. intros Hl HΦ. eapply runs_load; [exact Hl|find_cell|exact HΦ].
Qed.
Lemma runs_name_here p2 d2 pr2 nx2 fin t todo S R h Φ :
  lays h (S ++ cells pr2 nx2 (Shape p2 d2 (fin ++ t :: todo)) ++ R) → Φ (name (denote t)) h →
  runs (read_text (fst <$> d_name (pay t))) h Φ.
Proof.
  rewrite cells_Shape, seg_middle. intros Hl HΦ.
  front_part (cells (last_or fin None) (head_or todo None) t) Hl. by eapply runs_read_name.
Qed.
Lemma add_denote p d kids t :
  CJson.cJSON_AddItemToArray (denote (Shape p d kids)) (denote t) = denote (Shape p d (kids ++ [t])).
Proof. cbn. by rewrite fmap_app. Qed.
Lemma detach_here p2 d2 fin t todo :
  CJson.cJSON_DetachItemFromArray (denote (Shape p2 d2 (fin ++ t :: todo))) (Z.of_nat (length fin)) =
    (Some (denote t), denote (Shape p2 d2 (fin ++ todo))).
Proof. by rewrite detach_denote, Nat2Z.id, lookup_middle_here, delete_middle. Qed.

Lemma child_top prev nx t : plain t = true →
  bool_decide (is_Some (n_child (JsonHeapProofs.top prev nx t))) = has_children (denote t).
Proof. intros Ht. destruct t as [p d kids|]; [|done]. unfold has_children. rewrite child_denote. cbn. by destruct kids. Qed.
Lemma type_top prev nx t : plain t = true → n_type (JsonHeapProofs.top prev nx t) = type (denote t).
Proof. by destruct t. Qed.

Lemma merge_loop_spec fuel : loop_spec fuel.
Proof.
  induction fuel as [|fuel IH]; intros p1 p2 d1 d2 pr1 nx1 pr2 nx2 k1 fin todo R h Hc Hp1 Hp2 Hl;
    (destruct todo as [|t todo]; [apply runs_ret; exists k1, fin, []; rewrite app_nil_r in *; split_and!; try done; apply texts_nil|]).
  { cbn in Hc. destruct t; cbn in Hc; lia. }
  pose proof (plain_kids _ Hp1) as Hk1. pose proof (plain_kids _ Hp2) as Hk2. cbn [kids_of] in *.
  assert (plain t = true) as Ht by (eapply (plain_lookup (fin ++ t :: todo)); [exact Hk2|apply lookup_middle_here]).
  cbn [merge_loop head_or]. cbn [fmap list_fmap merge_items].
  apply runs_bind. eapply runs_load_here; [exact Hl|]. rewrite top_string, top_next.
  apply runs_bind. eapply runs_name_here; [exact Hl|]. rewrite detach_here. cbn beta iota.
  destruct (name (denote t)) as [n|] eqn:En; cycle 1.
  { apply runs_bind, runs_ret. rewrite add_denote. by eapply append_step. }
  apply runs_bind. eapply runs_get_named; [exact Hl|]. rewrite child_denote. cbn [kids_of].
  destruct (position_spec (Some n) k1) as [(k & u & Ek & Ep & Eu)|(Ek & _ & Eu)]; rewrite Ek; cycle 1.
  { rewrite Eu. cbn [fmap option_fmap option_map]. rewrite add_denote. by eapply append_step. }
  rewrite Ep, Eu, list_lookup_fmap, Eu. cbn [fmap option_fmap option_map].
  assert (plain u = true) as Hu by (by eapply (plain_lookup k1)).
  destruct (focus_kid p1 d1 k1 k u pr1 nx1 Hp1 Eu) as (pru & nxu & rest1 & E1 & _).
  pose proof Hl as H1. rewrite E1 in H1. flat H1.
  apply runs_bind. eapply runs_load; [exact H1|unfold cells; find_cell|].
  apply runs_bind. eapply runs_load_here; [exact Hl|].
  rewrite !child_top, !type_top by done. unfold mergeable.
  destruct (has_children (denote u) && has_children (denote t) && (type (denote u) =? type (denote t))) eqn:Em.
  - apply andb_true_iff in Em as [_ Ety%Z.eqb_eq]. by eapply recursive_step.
  - rewrite top_next. by eapply replace_step.
Qed.

(** The merge of two trees, wherever they are in the heap. *)
Lemma runs_doMerge p1 p2 d1 d2 pr1 nx1 pr2 nx2 k1 k2 R h :
  plain (Shape p1 d1 k1) = true → plain (Shape p2 d2 k2) = true →
  lays h (cells pr1 nx1 (Shape p1 d1 k1) ++ cells pr2 nx2 (Shape p2 d2 k2) ++ R) →
  runs (doMerge (Some p1) (Some p2)) h
    (λ _, merged p1 p2 d1 d2 pr1 nx1 pr2 nx2 R
       (JsonWrapper.doMerge (denote (Shape p2 d2 k2)) (denote (Shape p1 d1 k1)))).
Proof.
  intros Hp1 Hp2 Hl. apply runs_fuelled. unfold doMerge_with.
  apply runs_bind. eapply runs_load; [exact Hl|unfold cells; find_cell|].
  apply runs_bind. eapply runs_load; [exact Hl|unfold cells; find_cell|]. cbn [JsonHeapProofs.top n_type n_child].
  cbn [denote JsonWrapper.doMerge type]. destruct (d_type d1 =? d_type d2) eqn:Et; cbn [negb].
  - apply (merge_loop_spec _ p1 p2 d1 d2 pr1 nx1 pr2 nx2 k1 [] k2); [|done|done|exact Hl].
    rewrite cells_Shape, (cells_Shape pr2) in Hl. front_part (seg None k2 None) Hl.
    pose proof (lays_count _ _ _ _ _ Hl). lia.
  - apply runs_ret. exists k1, k2, []. split_and!; [apply texts_nil|done..].
Qed.
End merging.

(** ** Views *)

Section views.
Context `{Allocator}.

Lemma runs_neighbour f p n cs h Φ :
  lays h cs → (p, Item n) ∈ cs → Φ (view (f n)) h → runs (neighbour f (view (Some p))) h Φ.
Proof. intros Hl Hp HΦ. apply runs_bind. eapply runs_load; [exact Hl|exact Hp|]. by apply runs_ret. Qed.

Lemma last_or_take (l : list shape) k t :
  l !! k = Some t → last_or (take (S k) l) None = Some (root t).
Proof. intros Ht. rewrite (take_S_r _ _ _ Ht). apply last_or_snoc. Qed.

(** The number of a node, in place. *)
Definition with_number (i : Z) (x : double) (t : shape) : shape :=
  match t with
  | Shape p d kids => Shape p (mkPayload (d_type d) (d_text d) i x (d_name d)) kids
  | Borrow p d text kids => Borrow p (mkPayload (d_type d) (d_text d) i x (d_name d)) text kids
  end.
Lemma with_number_cells i x t pr nx :
  cells pr nx (with_number i x t) = (root t, Item (set_number i x (JsonHeapProofs.top pr nx t))) :: body t.
Proof. destruct t; unfold cells; cbn [root with_number]; by rewrite ?body_Shape. Qed.
Lemma with_number_plain i x t : plain (with_number i x t) = plain t.
Proof. by destruct t. Qed.
End views.

(** ** Items from texts *)

Lemma cJSON_tree_ind (P : cJSON → Prop) :
  (∀ ty vs vi vd nm kids, Forall P kids → P (mkItem ty vs vi vd nm kids)) → ∀ i, P i.
Proof.
  intros HP. fix IH 1. intros [ty vs vi vd nm kids]. apply HP.
  induction kids as [|i kids IHk]; constructor; auto.
Qed.

(** No item of the tree is a reference. *)
Fixpoint refless (i : cJSON) : bool :=
  match i with mkItem ty _ _ _ _ kids => (Z.land ty cJSON_IsReference =? 0) && forallb refless kids end.

Section planting.
Context `{Allocator}.

Lemma runs_plant_text o p set n (R : list cell) h Φ :
  lays h ((p, Item n) :: R) →
  (∀ o' h', snd <$> o' = o → lays h' ((p, Item (match o with Some _ => set (fst <$> o') n | None => n end)) :: text_cell o' ++ R) → Φ tt h') →
  runs (if o is Some s then q ← cJSON_strdup s; change (Some p) (set q) else mret tt) h Φ.
Proof.
  intros Hl HΦ. destruct o as [s|].
  - apply runs_bind. eapply runs_alloc; [exact Hl|]. intros r h1 _ _ H1. front_cell p H1.
    eapply runs_change; [exact H1|]. intros h2 H2. by apply (HΦ (Some (r, s))).
  - apply runs_ret. by apply (HΦ None).
Qed.

Lemma plant_makes i : refless i = true → makes (plant i) i.
Proof.
  induction i as [ty vs vi vd nm kids IH] using cJSON_tree_ind. cbn [refless]. intros [Hty Hk]%andb_true_iff.
  intros R h Φ Hl HΦ. cbn [plant]. apply runs_bind, runs_bind. eapply runs_alloc; [exact Hl|].
  intros p h1 _ _ H1. apply runs_bind. eapply runs_change; [exact H1|]. intros h2 H2. apply runs_ret.
  apply runs_bind. eapply runs_plant_text; [exact H2|]. intros o1 h3 Ho1 H3.
  apply runs_bind. eapply runs_plant_text; [exact H3|]. intros o2 h4 Ho2 H4.
  set (d := mkPayload ty o1 vi vd o2).
  assert (lays h4 (cells None None (Shape p d []) ++ R)) as H5.
  { rewrite cells_Shape. destruct o1, vs, o2, nm; try done; cbn in H4 |- *; blocks. }
  apply runs_bind. eapply (runs_fill (plant <$> kids) kids p d []); [|exact H5|].
  - clear -IH Hk. induction IH as [|i kids Hi _ IHk]; cbn in *; [constructor|].
    apply andb_true_iff in Hk as [Hi' Hk]. constructor; [by apply Hi|by apply IHk].
  - intros ts h5 Hts Hpl H6. apply runs_ret, (HΦ (Shape p d ts)); [|by cbn; rewrite Hty|exact H6].
    cbn. by rewrite Ho1, Ho2, Hts.
Qed.
End planting.

(** ** Properties *)

(** the views of an array or object go through its items as the list has them:
    getChild is the first, getNext the one behind and getPrev the one before. *)
Theorem views_visit_children p d kids pr nx R h :
  lays h (cells pr nx (Shape p d kids) ++ R) →
  getChild (view (Some p)) h = Done (h, view (root <$> kids !! 0%nat)) ∧
  ∀ k t, kids !! k = Some t →
    getNext (view (Some (root t))) h = Done (h, view (root <$> kids !! S k)) ∧
    getPrev (view (Some (root t))) h =
      Done (h, view (match k with O => None | S k => root <$> kids !! k end)).
Proof.
  rewrite cells_Shape. intros Hl. flat Hl.
  assert (∀ f q n r, (q, Item n) ∈ (p, Item (JsonHeapProofs.top pr nx (Shape p d kids))) :: seg None kids None ++
    text_cell (d_text d) ++ text_cell (d_name d) ++ R → f n = r → neighbour f (view (Some q)) h = Done (h, view r)) as Hn.
  { intros f q n r Hq <-.
    destruct (runs_neighbour f q n _ h (λ w h', w = view (f n) ∧ h' = h) Hl Hq) as (h' & w & E & -> & ->); [done|exact E]. }
  split.
  - eapply Hn; [constructor|]. cbn. by destruct kids.
  - intros k t Ht. pose proof (take_drop_middle kids k t Ht) as E.
    set (n := JsonHeapProofs.top (last_or (take k kids) None) (head_or (drop (S k) kids) None) t).
    assert ((root t, Item n) ∈ (p, Item (JsonHeapProofs.top pr nx (Shape p d kids))) :: seg None kids None ++
      text_cell (d_text d) ++ text_cell (d_name d) ++ R) as Hin.
    { right. apply elem_of_app. left. rewrite <- E, seg_middle. unfold cells. find_cell. }
    split; (eapply Hn; [exact Hin|]); subst n.
    + rewrite top_next, head_or_drop. by destruct (kids !! S k).
    + rewrite top_prev. destruct k as [|k]; [done|].
      destruct (lookup_lt_is_Some_2 kids k) as [u Hu]; [apply lookup_lt_Some in Ht; lia|].
      by rewrite (last_or_take kids k u), Hu.
Qed.

Lemma views_visit_children_witness :
  getChild (view (Some 1%positive)) named_heap = Done (named_heap, view (Some 2%positive)) ∧
  getNext (view (Some 2%positive)) named_heap = Done (named_heap, view None).
Proof.
  destruct (views_visit_children 1 (pay named_object) (kids_of named_object) None None
    (cells None None named_item ++ []) named_heap named_heap_lays) as [Hc Hv].
  split; [exact Hc|]. apply (Hv 0%nat _ eq_refl).
Defined.

(** a number that is set through a view is set in the tree of the owner, and only
    there; when the item has another type the tree stays as it is and the wrapper gets an
    item of its own. *)
Theorem view_writes_through `{Allocator} overflow value way t s R h :
  lays h (cells None None t ++ R) → plain t = true → shape_at way t = Some s →
  (type (denote s) = cJSON_Number →
    ∃ h' t', setIntValue_root overflow value (view (Some (root s))) h = Done (h', view (Some (root s))) ∧
      denote t' = on_path way (λ i, JsonWrapper.set_valuedouble (of_int value) (JsonWrapper.set_valueint value i)) (denote t) ∧
      lays h' (cells None None t' ++ R)) ∧
  (type (denote s) ≠ cJSON_Number →
    ∃ h' u, setIntValue_root overflow value (view (Some (root s))) h =
        Done (h', JsonWrapperHeap.mkWrapper (Some (root u)) true) ∧
      denote u = CJson.cJSON_CreateNumber overflow (of_int value) ∧
      lays h' (cells None None u ++ cells None None t ++ R)).
Proof.
  intros Hl Hp Hs. destruct (focus way t s None None Hp Hs) as (pr & nx & rest & Hf).
  pose proof (shape_at_plain _ _ _ Hp Hs) as Hps.
  pose proof Hl as H0. rewrite <- (shape_on_same way s t Hs), (Hf s eq_refl) in H0. unfold cells in H0. flat H0. split; intros Hty.
  - assert (runs (setIntValue_root overflow value (view (Some (root s)))) h (λ w h',
      w = view (Some (root s)) ∧ lays h' (cells pr nx (with_number value (of_int value) s) ++ rest ++ R)))
      as (h' & w & E & -> & H').
    { apply runs_bind. eapply runs_load; [exact H0|find_cell|]. rewrite type_top, Hty by done. cbn [Z.eqb].
      apply runs_bind. eapply runs_change; [exact H0|]. intros h' H'. apply runs_ret. split; [done|].
      by rewrite with_number_cells. }
    exists h', (shape_on way (with_number value (of_int value) s) t). split; [done|]. split.
    + apply (on_path_denote way _ s); [done|by destruct s|done].
    + rewrite (Hf _); [blocks|by destruct s].
  - assert (runs (setIntValue_root overflow value (view (Some (root s)))) h (λ w h', ∃ u,
      w = JsonWrapperHeap.mkWrapper (Some (root u)) true ∧ denote u = CJson.cJSON_CreateNumber overflow (of_int value) ∧
      lays h' (cells None None u ++ cells None None t ++ R))) as (h' & w & E & u & -> & Hu & H'); [|by exists h', u].
    apply runs_bind. eapply runs_load; [exact H0|find_cell|]. rewrite type_top by done.
    apply Z.eqb_neq in Hty. rewrite Hty. apply runs_bind. eapply CreateNumber_makes; [exact Hl|].
    intros u h1 Hu _ H1. apply runs_bind, runs_ret, runs_ret. by exists u.
Qed.

#[local] Existing Instance next_place.

Definition numbered_object : shape :=
  Shape 1 (mkPayload cJSON_Object None 0 (Zero false) None)
    [Shape 2 (mkPayload cJSON_Number None 7 (of_int 7) (Some (3%positive, [97]))) []].
Definition numbered_heap : heap := list_to_map (cells None None numbered_object).
Lemma numbered_heap_lays : lays numbered_heap (cells None None numbered_object ++ []).
Proof.
  unfold lays, numbered_heap. rewrite app_nil_r. apply map_to_list_to_map.
  apply (bool_decide_unpack _). vm_compute. exact I.
Qed.

Lemma view_writes_through_witness :
  ∃ h' t', setIntValue_root (λ _, 0) 9 (view (Some 2%positive)) numbered_heap = Done (h', view (Some 2%positive)) ∧
    valueint <$> at_path [0%nat] (denote t') = Some 9 ∧ lays h' (cells None None t' ++ []).
Proof.
  destruct (view_writes_through (λ _, 0) 9 [0%nat] numbered_object
    (Shape 2 (mkPayload cJSON_Number None 7 (of_int 7) (Some (3%positive, [97]))) []) [] numbered_heap)
    as [(h' & t' & E & Ht & Hl) _]; [apply numbered_heap_lays|reflexivity|reflexivity|reflexivity|].
  exists h', t'. split; [exact E|]. split; [|exact Hl]. rewrite Ht. reflexivity.
Defined.

(** a wrapper to which a view of its own tree is moved ([w = w.getObject(name)]) frees
    the tree first: it is left with a pointer to freed memory, at which every use of its
    root faults. *)
Theorem own_view_dangles t way s R h :
  lays h (cells None None t ++ R) → plain t = true → shape_at way t = Some s →
  ∃ h', move_assign (JsonWrapperHeap.mkWrapper (Some (root t)) true) (view (Some (root s))) h =
      Done (h', (view (Some (root s)), JsonWrapperHeap.mkWrapper None false)) ∧
    lays h' R ∧ load (Some (root s)) h' = Fault UseAfterFree.
Proof.
  intros Hl Hp Hs.
  assert (runs (move_assign (JsonWrapperHeap.mkWrapper (Some (root t)) true) (view (Some (root s)))) h
    (λ r h', r = (view (Some (root s)), JsonWrapperHeap.mkWrapper None false) ∧ lays h' R)) as (h' & r & E & -> & H').
  { apply runs_bind, runs_bind. eapply runs_delete_one; [by apply plain_typed|exact Hl|]. intros h' H'.
    by apply runs_ret, runs_ret. }
  exists h'. split; [done|]. split; [done|]. cbn.
  destruct (focus way t s None None Hp Hs) as (pr & nx & rest & Hf).
  rewrite <- (shape_on_same way s t Hs), (Hf s eq_refl) in Hl. unfold cells in Hl. flat Hl.
  assert (h' !! root s = None) as ->; [|done]. apply eq_None_not_Some. intros [b Hb].
  apply lays_NoDup in Hl. cbn in Hl. apply NoDup_cons in Hl as [Hl _]. apply Hl.
  apply (list_elem_of_fmap_2 fst (body s ++ rest ++ R) (root s, b)). rewrite !elem_of_app. do 2 right.
  rewrite <- H'. by apply elem_of_map_to_list.
Qed.

Lemma own_view_dangles_witness :
  ∃ h', move_assign (JsonWrapperHeap.mkWrapper (Some 1%positive) true) (view (Some 2%positive)) numbered_heap =
      Done (h', (view (Some 2%positive), JsonWrapperHeap.mkWrapper None false)) ∧
    load (Some 2%positive) h' = Fault UseAfterFree.
Proof.
  destruct (own_view_dangles numbered_object [0%nat]
    (Shape 2 (mkPayload cJSON_Number None 7 (of_int 7) (Some (3%positive, [97]))) []) [] numbered_heap)
    as (h' & E & _ & Hu); [apply numbered_heap_lays|reflexivity|reflexivity|].
  exists h'. split; [exact E|exact Hu].
Defined.

(** C23: merging a profile into a wrapper, both of which own a tree, moves and copies
    pointers so that both end with the trees that [JsonWrapper.merge] says.  Nothing else
    in the heap is touched, no item is lost or freed twice; what may be left over are texts. *)
Theorem merge_implements_trees `{Allocator} t1 t2 R h :
  lays h (cells None None t1 ++ cells None None t2 ++ R) → plain t1 = true → plain t2 = true →
  ∃ h' t1' t2' leaks,
    JsonWrapperHeap.merge (JsonWrapperHeap.mkWrapper (Some (root t2)) true) (JsonWrapperHeap.mkWrapper (Some (root t1)) true) h =
      Done (h', (JsonWrapperHeap.mkWrapper (Some (root t1')) true, JsonWrapperHeap.mkWrapper (Some (root t2')) true)) ∧
    JsonWrapper.merge (JsonWrapper.mkWrapper (Some (denote t2)) true) (JsonWrapper.mkWrapper (Some (denote t1)) true) =
      (JsonWrapper.mkWrapper (Some (denote t1')) true, JsonWrapper.mkWrapper (Some (denote t2')) true) ∧
    plain t1' = true ∧ plain t2' = true ∧ texts leaks ∧
    lays h' (cells None None t1' ++ cells None None t2' ++ leaks ++ R).
Proof.
  intros Hl Hp1 Hp2. destruct t1 as [p1 d1 k1|]; [|done]. destruct t2 as [p2 d2 k2|]; [|done].
  destruct (runs_doMerge p1 p2 d1 d2 None None None None k1 k2 R h Hp1 Hp2 Hl)
    as (h' & [] & E & k1' & k2' & leaks & Hlk & Hp1' & Hp2' & Em & Hl').
  exists h', (Shape p1 d1 k1'), (Shape p2 d2 k2'), leaks. split_and!; [| |done..].
  - unfold JsonWrapperHeap.merge. cbn [JsonWrapperHeap.m_root root]. by rewrite (bind_done _ _ _ _ _ E).
  - unfold JsonWrapper.merge. cbn [JsonWrapper.m_root]. by rewrite Em.
Qed.

Lemma merge_implements_trees_witness :
  ∃ h' t1' t2' leaks,
    JsonWrapperHeap.merge (JsonWrapperHeap.mkWrapper (Some 4%positive) true) (JsonWrapperHeap.mkWrapper (Some 1%positive) true) named_heap =
      Done (h', (JsonWrapperHeap.mkWrapper (Some (root t1')) true, JsonWrapperHeap.mkWrapper (Some (root t2')) true)) ∧
    lays h' (cells None None t1' ++ cells None None t2' ++ leaks ++ []).
Proof.
  destruct (merge_implements_trees named_object named_item [] named_heap named_heap_lays) as
    (h' & t1' & t2' & leaks & E & _ & _ & _ & _ & Hl); [reflexivity|reflexivity|].
  exists h', t1', t2', leaks. split; [exact E|exact Hl].
Defined.

(** Wrappers that are made from texts, for programs that are run. *)
Definition parsed_from (s : bytes) : state heap wrapper :=
  JsonWrapperHeap.parse (λ x, x) (λ _, 0) (Some s) (JsonWrapperHeap.mkWrapper None true).
Definition TEXT_A_TRUE : bytes := [123; 34; 97; 34; 58; 116; 114; 117; 101; 125].     (* {"a":true} *)
Definition TEXT_A_NULL : bytes := [123; 34; 97; 34; 58; 110; 117; 108; 108; 125].     (* {"a":null} *)
Definition TEXT_A_OBJECT : bytes := [123; 34; 97; 34; 58; 123; 34; 98; 34; 58; 116; 114; 117; 101; 125; 125]. (* {"a":{"b":true}} *)

(** a member that a merge overrides costs its name: both wrappers have been
    destroyed, and the text is still allocated. *)
Theorem merge_leaks_names :
  ∃ q, (w ← parsed_from TEXT_A_TRUE; p ← parsed_from TEXT_A_NULL; '(w, p) ← JsonWrapperHeap.merge p w;
   destroy p;; destroy w) ∅ = Done ({[ q := Text [97] ]}, tt).
Proof. exists 7%positive. vm_compute. reflexivity. Qed.

(** a view given to merge or reverse_merge makes an empty wrapper the owner of an item
    inside a tree that has an owner: the item is freed twice.  A view that is copied to
    the wrapper that owns its tree is read after the tree is freed. *)
Theorem stolen_view_freed_twice :
  (w ← parsed_from TEXT_A_OBJECT; v ← JsonWrapperHeap.getObject (Some [97]) w;
   '(e, v) ← JsonWrapperHeap.merge v (JsonWrapperHeap.mkWrapper None true);
   destroy e;; destroy v;; destroy w) ∅ = Fault UseAfterFree ∧
  (w ← parsed_from TEXT_A_OBJECT; v ← JsonWrapperHeap.getObject (Some [97]) w;
   '(e, v) ← JsonWrapperHeap.reverse_merge v (JsonWrapperHeap.mkWrapper None true);
   destroy e;; destroy v;; destroy w) ∅ = Fault UseAfterFree ∧
  (w ← parsed_from TEXT_A_OBJECT; v ← JsonWrapperHeap.getObject (Some [97]) w; copy_assign w v) ∅ = Fault UseAfterFree.
Proof. split_and!; vm_compute; reflexivity. Qed.
