(* ===== verification/Addresses.v ===== *)
(** * Addresses: network/address_types.h, .inl, .cpp and network_utility.cpp

    Socket addresses in their two IPv4 flavours ([SocketAddress4] in network
    byte order, [NewSockAddress4] in host order), IPv6 and Unix addresses, the
    tagged union [GeneralSocketAddress], their wire formats and orders, and the
    classification of public addresses.

    [std::hash] and [CityHash64] are parameters of the hash functions. *)

From S2P Require Import Prelude Bytes Wire Packer Unpacker Codec Packet Structs.

(** ** The libc structures *)

Definition AF_UNIX : Z := 1.
Definition AF_INET : Z := 2.
Definition AF_INET6 : Z := 10.

Record sockaddr_in := mkSockaddrIn {
  sin_family : Z;
  sin_port : Z;          (* network order *)
  s_addr : Z;            (* network order *)
}.

(** The four [s6_addr32] words, as stored. *)
Definition in6_addr : Type := (Z * Z * Z * Z).

Record sockaddr_in6 := mkSockaddrIn6 {
  sin6_family : Z;
  sin6_port : Z;
  sin6_addr : in6_addr;
  sin6_scope_id : Z;
}.

(** [sun_path] as its 108 bytes. *)
Record sockaddr_un := mkSockaddrUn {
  sun_family : Z;
  sun_path : bytes;
}.

(** [sockaddr_storage]: its family and the structure stored in it. *)
Inductive sockaddr_storage :=
  | StorageIn (a : sockaddr_in)
  | StorageIn6 (a : sockaddr_in6)
  | StorageUn (a : sockaddr_un)
  | StorageOther (family : Z).

Definition in6addr_any : in6_addr := (0, 0, 0, 0).
Definition in6addr_loopback : in6_addr := (0, 0, 0, htonl 1).

(** ** SocketAddress4: ip and port in network order *)

Definition SocketAddress4 : Type := (Z * Z).
Definition SocketAddress4_codec : Codec SocketAddress4 :=
  NEW_DECLARE_PACKABLE_2 uint32_codec uint16_codec.
Definition SocketAddress4_cmp : Cmp SocketAddress4 := NEW_DECLARE_STRUCT_2 Z_cmp Z_cmp.

(* ip, port: the members *)
Definition ip4 (a : SocketAddress4) : Z := fst a.
Definition port4 (a : SocketAddress4) : Z := snd a.

Definition SocketAddress4_of (address : sockaddr_in) : SocketAddress4 :=
  (s_addr address, sin_port address).
Definition SocketAddress4_sockaddr (a : SocketAddress4) : sockaddr_in :=
  mkSockaddrIn AF_INET (port4 a) (ip4 a).

(** The accessors [Ip()] and [Port()] give host order. *)
Definition Ip (a : SocketAddress4) : Z := ntohl (ip4 a).
Definition Port (a : SocketAddress4) : Z := ntohs (port4 a).

Definition SocketAddress4_gt (a b : SocketAddress4) : bool :=
  (ip4 b <? ip4 a) || ((ip4 a =? ip4 b) && (port4 b <? port4 a)).

(** [SocketAddress4Hasher]: the 8 bytes ip, port, 0 of the union. *)
Definition SocketAddress4Hasher (hasher_ : Z → Z) (a : SocketAddress4) : Z :=
  hasher_ (le_val (le_bytes 4 (ip4 a) ++ le_bytes 2 (port4 a) ++ le_bytes 2 0)).

(* first, second *)
Definition AddressPair4_codec : Codec (SocketAddress4 * SocketAddress4) :=
  NEW_DECLARE_PACKABLE_2 SocketAddress4_codec SocketAddress4_codec.
Definition RouterAddressList_codec := vector_codec AddressPair4_codec.

(** ** NewSockAddress4: ip and port in host order *)

Record NewSockAddress4 := mkNewSockAddress4 {
  ip_ : Z;               (* uint32_t *)
  port_ : Z;             (* uint16_t *)
}.

(* the defaults INADDR_ANY and 0 *)
Definition NewSockAddress4_default : NewSockAddress4 := mkNewSockAddress4 0 0.

Definition NewSockAddress4_of (a : SocketAddress4) : NewSockAddress4 :=
  mkNewSockAddress4 (Ip a) (Port a).
Definition NewSockAddress4_of_sockaddr (addr : sockaddr_in) : NewSockAddress4 :=
  mkNewSockAddress4 (ntohl (s_addr addr)) (ntohs (sin_port addr)).
Definition NewSockAddress4_sockaddr (a : NewSockAddress4) : sockaddr_in :=
  mkSockaddrIn AF_INET (htons (port_ a)) (htonl (ip_ a)).

Definition SetIp (ip : Z) (a : NewSockAddress4) : NewSockAddress4 :=
  mkNewSockAddress4 ip (port_ a).
Definition SetPort (port : Z) (a : NewSockAddress4) : NewSockAddress4 :=
  mkNewSockAddress4 (ip_ a) port.

Definition NewSockAddress4_SerializeTo (a : NewSockAddress4) (p : Packer.Packer)
    : result Packer.Packer :=
  p ← push uint32_codec (htonl (ip_ a)) p;
  push uint16_codec (htons (port_ a)) p.

Definition NewSockAddress4_SerializeFrom (a : NewSockAddress4) (u : Unpacker.Unpacker)
    : result (NewSockAddress4 * Unpacker.Unpacker) :=
  '(ip, u) ← pop uint32_codec 0 u;
  '(port, u) ← pop uint16_codec 0 u;
  Ok (mkNewSockAddress4 (ntohl ip) (ntohs port), u).

Definition NewSockAddress4_codec : Codec NewSockAddress4 :=
  mkCodec NewSockAddress4_SerializeTo NewSockAddress4_SerializeFrom NewSockAddress4_default.

Definition NewSockAddress4_cmp : Cmp NewSockAddress4 :=
  mkCmp
    (λ a b, (ip_ a <? ip_ b) || ((ip_ a =? ip_ b) && (port_ a <? port_ b)))
    (λ a b, (ip_ a =? ip_ b) && (port_ a =? port_ b)).

Definition NewSockAddress4_gt (a b : NewSockAddress4) : bool :=
  (ip_ b <? ip_ a) || ((ip_ a =? ip_ b) && (port_ b <? port_ a)).

Definition Address4Pair_codec : Codec (NewSockAddress4 * NewSockAddress4) :=
  NEW_DECLARE_PACKABLE_2 NewSockAddress4_codec NewSockAddress4_codec.
Definition RouterAddressList2_codec := vector_codec Address4Pair_codec.

Definition NewSockAddress4Hasher (hasher_ : Z → Z) (a : NewSockAddress4) : Z :=
  hasher_ (le_val (le_bytes 4 (ip_ a) ++ le_bytes 4 (port_ a))).

Definition ToOldAddresses (old : list NewSockAddress4) : list SocketAddress4 :=
  (λ addr, (htonl (ip_ addr), htons (port_ addr))) <$> old.

(** ** IPv6 *)

(** [reinterpret_cast<const uint64_t pointer>]: two words each. *)
Definition left64 (a : in6_addr) : Z * Z :=
  let '(w0, w1, w2, w3) := a in (w0 + w1 * 2 ^ 32, w2 + w3 * 2 ^ 32).

Definition In6AddrLessThan (a b : in6_addr) : bool :=
  let '(l0, l1) := left64 a in let '(r0, r1) := left64 b in
  (l0 <? r0) || ((l0 =? r0) && (l1 <? r1)).

Definition In6AddrEqualTo (a b : in6_addr) : bool :=
  let '(l0, l1) := left64 a in let '(r0, r1) := left64 b in
  (l0 =? r0) && (l1 =? r1).

Definition Ipv6_cmp : Cmp in6_addr := mkCmp In6AddrLessThan In6AddrEqualTo.

(** [memcpy(&x, ip6.s6_addr, 4)] reads the first word. *)
Definition IsGlobal (ip6 : in6_addr) : bool :=
  let '(x, _, _, _) := ip6 in
  Z.land x (htonl 0x70000000) =? htonl 0x20000000.
Definition IsLoopBack (ip6 : in6_addr) : bool := In6AddrEqualTo ip6 in6addr_loopback.

Record SocketAddress6 := mkSocketAddress6 {
  ip6 : in6_addr;
  scope_id : Z;          (* uint32_t *)
  port : Z;              (* uint16_t, network order *)
}.

Definition SocketAddress6_default : SocketAddress6 :=
  mkSocketAddress6 in6addr_loopback 0 0.
Definition SocketAddress6_of (a : sockaddr_in6) : SocketAddress6 :=
  mkSocketAddress6 (sin6_addr a) (sin6_scope_id a) (sin6_port a).
Definition SocketAddress6_sockaddr (a : SocketAddress6) : sockaddr_in6 :=
  mkSockaddrIn6 AF_INET6 (port a) (ip6 a) (scope_id a).
Definition SocketAddress6_Any : SocketAddress6 := mkSocketAddress6 in6addr_any 0 0.
Definition SocketAddress6_Loopback : SocketAddress6 := mkSocketAddress6 in6addr_loopback 0 0.

Definition SocketAddress6_cmp : Cmp SocketAddress6 :=
  mkCmp
    (λ l r, In6AddrLessThan (ip6 l) (ip6 r) ||
            (In6AddrEqualTo (ip6 l) (ip6 r) && (port l <? port r)) ||
            (In6AddrEqualTo (ip6 l) (ip6 r) && (port l =? port r) &&
             (scope_id l <? scope_id r)))
    (λ l r, In6AddrEqualTo (ip6 l) (ip6 r) && (port l =? port r) &&
            (scope_id l =? scope_id r)).

Definition in6_addr_codec : Codec in6_addr :=
  uint32_codec ⊗ uint32_codec ⊗ uint32_codec ⊗ uint32_codec.

Definition SocketAddress6_codec : Codec SocketAddress6 :=
  mkCodec
    (λ x p, push (in6_addr_codec ⊗ uint32_codec ⊗ uint16_codec)
              (ip6 x, scope_id x, port x) p)
    (λ x u, '(a, s, t, u) ← pop (in6_addr_codec ⊗ uint32_codec ⊗ uint16_codec)
                             (ip6 x, scope_id x, port x) u;
            Ok (mkSocketAddress6 a s t, u))
    SocketAddress6_default.

(** ** Unix addresses *)

Definition SocketAddressUnix : Type := bytes.
Definition SocketAddressUnix_codec : Codec SocketAddressUnix :=
  NEW_DECLARE_PACKABLE_1 string_codec.
Definition SocketAddressUnix_cmp : Cmp SocketAddressUnix := NEW_DECLARE_STRUCT_1 bytes_cmp.

Definition SocketAddressUnix_of (address : sockaddr_un) : SocketAddressUnix :=
  c_str (sun_path address).

(** [snprintf(sun_path, sizeof(sun_path) - 1, "%s", path.c_str())] into a zeroed
    structure of 108 bytes: at most 106 characters and the final 0. *)
Definition SocketAddressUnix_sockaddr (path : SocketAddressUnix) : sockaddr_un :=
  let text := take 106 (c_str path) in
  mkSockaddrUn AF_UNIX (text ++ replicate (108 - length text) 0).

(** ** GeneralSocketAddress *)

Inductive IpVersion := kIp4 | kIp6 | kUnix.

Definition version_code (v : IpVersion) : Z :=
  match v with kIp4 => 0 | kIp6 => 1 | kUnix => 2 end.

(** The version and the member of the union it selects. *)
Inductive GeneralSocketAddress :=
  | Addr4 (a : NewSockAddress4)
  | Addr6 (a : SocketAddress6)
  | AddrUnix (a : SocketAddressUnix).

Definition version_ (g : GeneralSocketAddress) : IpVersion :=
  match g with Addr4 _ => kIp4 | Addr6 _ => kIp6 | AddrUnix _ => kUnix end.

Definition General_default : GeneralSocketAddress := Addr4 NewSockAddress4_default.
Definition General_of_ip (ip port : Z) : GeneralSocketAddress :=
  Addr4 (mkNewSockAddress4 ip port).
Definition General_of_4 (a : SocketAddress4) : GeneralSocketAddress :=
  Addr4 (mkNewSockAddress4 (Ip a) (Port a)).

Definition General_of_storage (a : sockaddr_storage) : result GeneralSocketAddress :=
  match a with
  | StorageIn a => Ok (Addr4 (NewSockAddress4_of_sockaddr a))
  | StorageIn6 a => Ok (Addr6 (SocketAddress6_of a))
  | StorageUn a => Ok (AddrUnix (SocketAddressUnix_of a))
  | StorageOther _ => Err AssertFailed
  end.

Definition General_storage (g : GeneralSocketAddress) : sockaddr_storage :=
  match g with
  | Addr4 a => StorageIn (NewSockAddress4_sockaddr a)
  | Addr6 a => StorageIn6 (SocketAddress6_sockaddr a)
  | AddrUnix a => StorageUn (SocketAddressUnix_sockaddr a)
  end.

Definition General_eq (a b : GeneralSocketAddress) : bool :=
  match a, b with
  | Addr4 a, Addr4 b => ceq NewSockAddress4_cmp a b
  | Addr6 a, Addr6 b => ceq SocketAddress6_cmp a b
  | AddrUnix a, AddrUnix b => ceq SocketAddressUnix_cmp a b
  | _, _ => false
  end.

Definition LessThan (self rhs : GeneralSocketAddress) : bool :=
  if version_code (version_ self) <? version_code (version_ rhs) then true
  else if version_code (version_ rhs) <? version_code (version_ self) then false
  else match self, rhs with
       | Addr4 a, Addr4 b => clt NewSockAddress4_cmp a b
       | Addr6 a, Addr6 b => clt SocketAddress6_cmp a b
       | AddrUnix a, AddrUnix b => clt SocketAddressUnix_cmp a b
       | _, _ => false
       end.

Definition General_cmp : Cmp GeneralSocketAddress := mkCmp LessThan General_eq.

(** The explicit conversions assert the version. *)
Definition to_NewSockAddress4 (g : GeneralSocketAddress) : result NewSockAddress4 :=
  match g with Addr4 a => Ok a | _ => Err AssertFailed end.
Definition to_SocketAddress4 (g : GeneralSocketAddress) : result SocketAddress4 :=
  match g with
  | Addr4 a => Ok (htonl (ip_ a), htons (port_ a))
  | _ => Err AssertFailed
  end.
Definition to_SocketAddress6 (g : GeneralSocketAddress) : result SocketAddress6 :=
  match g with Addr6 a => Ok a | _ => Err AssertFailed end.
Definition to_SocketAddressUnix (g : GeneralSocketAddress) : result SocketAddressUnix :=
  match g with AddrUnix a => Ok a | _ => Err AssertFailed end.

Definition GetPort (g : GeneralSocketAddress) : Z :=
  match g with
  | Addr4 a => port_ a
  | Addr6 a => ntohs (port a)
  | AddrUnix _ => 0
  end.

(** The 22 bytes of a [SocketAddress6] object that are hashed. *)
Definition addr6_image (a : SocketAddress6) : bytes :=
  let '(w0, w1, w2, w3) := ip6 a in
  le_bytes 4 w0 ++ le_bytes 4 w1 ++ le_bytes 4 w2 ++ le_bytes 4 w3 ++
  le_bytes 4 (scope_id a) ++ le_bytes 2 (port a).

Definition GetHash (hash_u64 : Z → Z) (hash_string CityHash64 : bytes → Z)
    (g : GeneralSocketAddress) : Z :=
  match g with
  | Addr4 a => hash_u64 (u64 (u64 (Z.shiftl (ip_ a) 16) + port_ a))
  | Addr6 a => CityHash64 (addr6_image a)
  | AddrUnix a => hash_string a
  end.

Definition SerializeTo (g : GeneralSocketAddress) (p : Packer.Packer)
    : result Packer.Packer :=
  p ← push uint16_codec (version_code (version_ g)) p;
  match g with
  | Addr4 a => push NewSockAddress4_codec a p
  | Addr6 a => push SocketAddress6_codec a p
  | AddrUnix a => push SocketAddressUnix_codec a p
  end.

Definition SerializeFrom (g : GeneralSocketAddress) (u : Unpacker.Unpacker)
    : result (GeneralSocketAddress * Unpacker.Unpacker) :=
  '(ver, u) ← pop uint16_codec 0 u;
  match ver with
  | 0 => '(temp, u) ← pop NewSockAddress4_codec (dflt NewSockAddress4_codec) u;
         Ok (Addr4 temp, u)
  | 1 => '(temp, u) ← pop SocketAddress6_codec (dflt SocketAddress6_codec) u;
         Ok (Addr6 temp, u)
  | 2 => '(temp, u) ← pop SocketAddressUnix_codec (dflt SocketAddressUnix_codec) u;
         Ok (AddrUnix temp, u)
  | _ => Err AssertFailed
  end.

Definition General_codec : Codec GeneralSocketAddress :=
  mkCodec SerializeTo SerializeFrom General_default.

(** ** network_utility.cpp *)

Definition ip_begin : list Z :=
  [0x0a000000; 0x7f000000; 0xac100000; 0xa9fe0000; 0xc0a80000; 0x64400000].
Definition ip_end : list Z :=
  [0x0affffff; 0x7fffffff; 0xac1fffff; 0xa9feffff; 0xc0a8ffff; 0x647fffff].

Definition IsPublicIp (ip : Z) : bool :=
  negb (existsb (λ '(b, e), (b <=? ip) && (ip <=? e)) (zip ip_begin ip_end)).

(** The answers of [LocalAddresses] and [LocalIpv6Addresses] come from the
    network interfaces; the public ones are selected. *)
Definition LocalPublicAddresses (all : list Z) : list Z := List.filter IsPublicIp all.
Definition LocalPublicIpv6Addresses (all : list SocketAddress6) : list SocketAddress6 :=
  List.filter (λ addr, IsGlobal (ip6 addr)) all.

(** ** Orders

    The IPv6 order compares words as the host loads them, so it is an order on
    addresses whose words are 32-bit values: the laws are stated on a domain. *)

Class CmpOn {T} (P : T → Prop) (m : Cmp T) : Prop := {
  lt_irrefl_on : ∀ x, P x → clt m x x = false;
  lt_trans_on : ∀ x y z, P x → P y → P z →
    clt m x y = true → clt m y z = true → clt m x z = true;
  eq_on : ∀ x y, P x → P y → ceq m x y = true ↔ x = y;
  total_on : ∀ x y, P x → P y → x = y ∨ clt m x y = true ∨ clt m y x = true;
}.

(** An order pulled back along a function injective on the domain. *)
Lemma CmpOn_map {T U} (P : T → Prop) (m : Cmp T) (m' : Cmp U) (f : T → U) :
  CmpOk m' →
  (∀ x y, P x → P y → f x = f y → x = y) →
  (∀ x y, clt m x y = clt m' (f x) (f y)) →
  (∀ x y, ceq m x y = ceq m' (f x) (f y)) →
  CmpOn P m.
Proof.
  intros Hm Hf Hl He. split; intros; rewrite ?Hl, ?He in *.
  - apply clt_irrefl.
  - by eapply clt_trans.
  - rewrite ceq_eq. split; [by apply Hf|by intros ->].
  - destruct (clt_total (m := m') (f x) (f y)) as [E|?]; [left; by apply Hf|by right].
Qed.

Definition u32_ok (w : Z) : Prop := 0 ≤ w < 2 ^ 32.
Definition u16_ok (w : Z) : Prop := 0 ≤ w < 2 ^ 16.
Definition in6_ok (a : in6_addr) : Prop :=
  let '(w0, w1, w2, w3) := a in u32_ok w0 ∧ u32_ok w1 ∧ u32_ok w2 ∧ u32_ok w3.
Definition addr4_ok (a : NewSockAddress4) : Prop := u32_ok (ip_ a) ∧ u16_ok (port_ a).
Definition addr6_ok (a : SocketAddress6) : Prop :=
  in6_ok (ip6 a) ∧ u32_ok (scope_id a) ∧ u16_ok (port a).
Definition unix_ok (a : SocketAddressUnix) : Prop :=
  Z.of_nat (length a) < 2 ^ 23 ∧ bytes_ok a.
Definition general_ok (g : GeneralSocketAddress) : Prop :=
  match g with Addr4 a => addr4_ok a | Addr6 a => addr6_ok a | AddrUnix a => unix_ok a end.

Lemma left64_inj a b : in6_ok a → in6_ok b → left64 a = left64 b → a = b.
Proof.
  destruct a as [[[a0 a1] a2] a3], b as [[[b0 b1] b2] b3]. unfold in6_ok, u32_ok.
  simpl. intros (?&?&?&?) (?&?&?&?) [= ? ?]. repeat f_equal; lia.
Qed.

Lemma In6_lex a b :
  In6AddrLessThan a b = clt (lex Z_cmp Z_cmp) (left64 a) (left64 b) ∧
  In6AddrEqualTo a b = ceq (lex Z_cmp Z_cmp) (left64 a) (left64 b).
Proof. by destruct a as [[[]]], b as [[[]]]. Qed.

#[export] Instance NewSockAddress4_order P : CmpOn P NewSockAddress4_cmp.
Proof.
  apply (CmpOn_map _ _ (lex Z_cmp Z_cmp) (λ a, (ip_ a, port_ a))); [apply _|..|done|done].
  intros [] [] _ _ [= -> ->]. done.
Qed.

#[export] Instance Ipv6_order : CmpOn in6_ok Ipv6_cmp.
Proof.
  apply (CmpOn_map _ _ (lex Z_cmp Z_cmp) left64); [apply _|..].
  - intros. by apply left64_inj.
  - intros a b. apply In6_lex.
  - intros a b. apply In6_lex.
Qed.

#[export] Instance SocketAddress6_order : CmpOn addr6_ok SocketAddress6_cmp.
Proof.
  apply (CmpOn_map _ _ (lex (lex (lex Z_cmp Z_cmp) Z_cmp) Z_cmp)
    (λ a, (left64 (ip6 a), port a, scope_id a))); [apply _|..].
  - intros [] [] (? & _) (? & _) [= E -> ->]. f_equal. by apply left64_inj.
  - intros a b. unfold SocketAddress6_cmp, clt, lex at 1. simpl.
    rewrite (proj1 (In6_lex _ _)), (proj2 (In6_lex _ _)). simpl.
    done.
  - intros a b. unfold SocketAddress6_cmp, ceq, lex at 1. simpl.
    by rewrite (proj2 (In6_lex _ _)).
Qed.

#[export] Instance SocketAddressUnix_order P : CmpOn P SocketAddressUnix_cmp.
Proof. by apply (CmpOn_map _ _ bytes_cmp id); [apply _|..]. Qed.

(** Within a version the order is the one of the member; between versions it is
    the order of the codes. *)
Definition same_version (a b : GeneralSocketAddress) : option (bool * bool) :=
  match a, b with
  | Addr4 a, Addr4 b => Some (clt NewSockAddress4_cmp a b, ceq NewSockAddress4_cmp a b)
  | Addr6 a, Addr6 b => Some (clt SocketAddress6_cmp a b, ceq SocketAddress6_cmp a b)
  | AddrUnix a, AddrUnix b => Some (clt SocketAddressUnix_cmp a b, ceq SocketAddressUnix_cmp a b)
  | _, _ => None
  end.

Lemma General_cmp_cases a b :
  (LessThan a b, General_eq a b) =
    match same_version a b with
    | Some r => r
    | None => (version_code (version_ a) <? version_code (version_ b), false)
    end.
Proof. by destruct a, b. Qed.

#[export] Instance General_order : CmpOn general_ok General_cmp.
Proof.
  pose proof (NewSockAddress4_order (λ _, True)) as [I4 T4 E4 O4].
  pose proof SocketAddress6_order as [I6 T6 E6 O6].
  pose proof (SocketAddressUnix_order (λ _, True)) as [IU TU EU OU].
  split; cbn [clt ceq General_cmp].
  - intros [a|a|a] Hx; [exact (I4 a I)|exact (I6 a Hx)|exact (IU a I)].
  - intros [a|a|a] [b|b|b] [c|c|c] Hx Hy Hz; try done.
    + exact (T4 a b c I I I).
    + exact (T6 a b c Hx Hy Hz).
    + exact (TU a b c I I I).
  - intros [a|a|a] [b|b|b] Hx Hy; try (split; [done|congruence]).
    + transitivity (a = b); [exact (E4 a b I I)|split; congruence].
    + transitivity (a = b); [exact (E6 a b Hx Hy)|split; congruence].
    + transitivity (a = b); [exact (EU a b I I)|split; congruence].
  - intros [a|a|a] [b|b|b] Hx Hy; auto.
    + destruct (O4 a b I I) as [->|?]; auto.
    + destruct (O6 a b Hx Hy) as [->|?]; auto.
    + destruct (OU a b I I) as [->|?]; auto.
Qed.

(** ** Wire formats *)

#[export] Instance NewSockAddress4_spec : CodecSpec NewSockAddress4_codec := {|
  enc a := enc (uint32_codec ⊗ uint16_codec) (htonl (ip_ a), htons (port_ a));
  valid := addr4_ok;
  absorb _ a := a;
|}.

#[export] Instance NewSockAddress4_ok : CodecOk NewSockAddress4_codec.
Proof.
  pose proof (pair_ok uint32_codec uint16_codec) as [HP HQ _ HE].
  assert (∀ a, valid (uint32_codec ⊗ uint16_codec) (htonl (ip_ a), htons (port_ a))) as Hv.
  { intros a. split; simpl; [apply htonl_bound|apply htons_bound]. }
  split.
  - intros a p bs _. exact (HP _ p bs (Hv a)).
  - intros old a u rest [H1 H2] Hu.
    specialize (HQ (0, 0) _ u rest (Hv a) Hu). simpl in HQ.
    cbn [pop NewSockAddress4_codec]. unfold NewSockAddress4_SerializeFrom.
    cbn [pop uint32_codec uint16_codec].
    apply bind_ok_inv in HQ as ([ip u1] & -> & HQ). rewrite bind_ok.
    apply bind_ok_inv in HQ as ([prt u2] & -> & [= -> -> ->]). rewrite bind_ok.
    rewrite ntohl_htonl, ntohs_htons by done. by destruct a.
  - done.
  - intros a _. exact (HE _ (Hv a)).
Qed.

#[export] Instance SocketAddress6_spec : CodecSpec SocketAddress6_codec := {|
  enc x := enc (in6_addr_codec ⊗ uint32_codec ⊗ uint16_codec) (ip6 x, scope_id x, port x);
  valid := addr6_ok;
  absorb _ a := a;
|}.

#[export] Instance SocketAddress6_ok : CodecOk SocketAddress6_codec.
Proof.
  pose proof (_ : CodecOk (in6_addr_codec ⊗ uint32_codec ⊗ uint16_codec)) as [HP HQ _ HE].
  assert (∀ x, addr6_ok x → valid (in6_addr_codec ⊗ uint32_codec ⊗ uint16_codec)
    (ip6 x, scope_id x, port x)) as Hv.
  { intros [[[[w0 w1] w2] w3] s t] [(?&?&?&?) [? ?]].
    do 5 (split; [|assumption]). assumption. }
  split.
  - intros x p bs Hx. exact (HP _ p bs (Hv x Hx)).
  - intros old x u rest Hx Hu. cbn [pop SocketAddress6_codec].
    rewrite (HQ (ip6 old, scope_id old, port old) _ u rest (Hv x Hx) Hu), bind_ok.
    by destruct x as [[[[w0 w1] w2] w3] s t].
  - done.
  - intros x Hx. exact (HE _ (Hv x Hx)).
Qed.

#[export] Instance General_spec : CodecSpec General_codec := {|
  enc g := le_bytes 2 (version_code (version_ g)) ++
    match g with
    | Addr4 a => enc NewSockAddress4_codec a
    | Addr6 a => enc SocketAddress6_codec a
    | AddrUnix a => str_enc a
    end;
  valid := general_ok;
  absorb _ g := g;
|}.

#[export] Instance General_codec_ok : CodecOk General_codec.
Proof.
  split.
  - intros g p bs Hg Hh Hr. cbn [push General_codec]. unfold SerializeTo.
    cbn [enc General_spec] in Hr. rewrite length_app, Nat2Z.inj_add, length_le_bytes in Hr.
    apply Packer.emits_bind.
    + apply Packer.PushUint16_emits; [done|]. eapply Packer.room_le; [done|lia].
    + intros q Hq.
      assert (∀ (e : bytes), Packer.room bs (2 + Z.of_nat (length e) + 1) →
        Packer.room (bs ++ le_bytes 2 (version_code (version_ g)))
          (Z.of_nat (length e) + 1)) as Hroom.
      { intros e He. apply Packer.room_app. rewrite length_le_bytes.
        eapply Packer.room_le; [done|lia]. }
      destruct g as [a|a|a].
      * exact (@push_enc _ NewSockAddress4_codec NewSockAddress4_spec NewSockAddress4_ok a q _ Hg Hq (Hroom _ Hr)).
      * exact (@push_enc _ SocketAddress6_codec SocketAddress6_spec SocketAddress6_ok a q _ Hg Hq (Hroom _ Hr)).
      * exact (@push_enc _ string_codec string_spec string_ok a q _ Hg Hq (Hroom _ Hr)).
  - intros old g u rest Hg Hu. cbn [pop General_codec]. unfold SerializeFrom.
    cbn [enc General_spec] in Hu. rewrite <- app_assoc in Hu.
    assert (0 ≤ version_code (version_ g) < 2 ^ 16) as Hver by (by destruct g).
    rewrite (uint16_pop 0 _ _ _ Hver Hu), bind_ok.
    pose proof (Unpacker.advance_view_app 2 _ _ _ Hu eq_refl) as Hu2.
    cbn [absorb General_spec enc]. rewrite length_app, Nat2Z.inj_add, length_le_bytes.
    destruct g as [a|a|a]; cbn [version_ version_code].
    + rewrite (@pop_enc _ NewSockAddress4_codec NewSockAddress4_spec NewSockAddress4_ok _ a _ rest Hg Hu2), bind_ok.
      rewrite (Unpacker.advance_advance _ _ _ _ Hu);
        rewrite ?length_app, ?length_le_bytes; lia || done.
    + rewrite (@pop_enc _ SocketAddress6_codec SocketAddress6_spec SocketAddress6_ok _ a _ rest Hg Hu2), bind_ok.
      rewrite (Unpacker.advance_advance _ _ _ _ Hu);
        rewrite ?length_app, ?length_le_bytes; lia || done.
    + rewrite (@pop_enc _ string_codec string_spec string_ok _ a _ rest Hg Hu2), bind_ok.
      change (enc string_codec a) with (str_enc a).
      rewrite (Unpacker.advance_advance _ _ _ _ Hu);
        rewrite ?length_app, ?length_le_bytes; lia || done.
  - done.
  - intros g Hg. apply Forall_app_2; [apply le_bytes_ok|].
    destruct g as [a|a|a]; [by apply (@enc_ok _ NewSockAddress4_codec NewSockAddress4_spec NewSockAddress4_ok)
      |by apply (@enc_ok _ SocketAddress6_codec SocketAddress6_spec SocketAddress6_ok)|by apply (@enc_ok _ string_codec string_spec string_ok)].
Qed.

(** ** Properties *)

(** a general socket address of any of the three kinds survives
    serialization: what [SerializeTo] appends, [SerializeFrom] reads back into
    any old address, consuming exactly those bytes; and the IPv4 member is on
    the wire in network byte order (ip, then port). *)
Theorem general_address_roundtrip g old p bs u rest :
  general_ok g → Packer.holds p bs →
  Packer.room bs (Z.of_nat (length (enc General_codec g)) + 1) →
  Unpacker.view u (enc General_codec g ++ rest) →
  Packer.emits (SerializeTo g p) p bs (enc General_codec g) ∧
  SerializeFrom old u =
    Ok (g, Unpacker.advance (Z.of_nat (length (enc General_codec g))) u) ∧
  (∀ a, g = Addr4 a →
     enc General_codec g = [0; 0] ++ rev (le_bytes 4 (ip_ a)) ++ rev (le_bytes 2 (port_ a))).
Proof.
  intros Hg Hh Hr Hu. destruct General_codec_ok as [HP HQ _ _]. split_and!.
  - by apply HP.
  - by apply (HQ old g u rest).
  - intros a ->. cbn [enc General_spec version_ version_code NewSockAddress4_spec pair_spec
      uint32_spec uint16_spec unsigned_spec fst snd].
    change (le_bytes 2 0) with [0; 0]. unfold htonl, htons, bswap.
    pose proof (le_bytes_le_val (rev (le_bytes 4 (ip_ a)))) as E4.
    pose proof (le_bytes_le_val (rev (le_bytes 2 (port_ a)))) as E2.
    rewrite length_rev, length_le_bytes in E4, E2.
    rewrite E4, E2 by (apply Forall_rev, le_bytes_ok). done.
Qed.

Lemma general_address_roundtrip_witness :
  Packer.emits (SerializeTo (General_of_ip 0x7f000001 80) (Packer.make 64))
    (Packer.make 64) [] [0; 0; 127; 0; 0; 1; 0; 80] ∧
  SerializeFrom General_default
    (Unpacker.mkUnpacker false 8 [0; 0; 127; 0; 0; 1; 0; 80] 0 0) =
    Ok (General_of_ip 0x7f000001 80,
        Unpacker.advance 8 (Unpacker.mkUnpacker false 8 [0; 0; 127; 0; 0; 1; 0; 80] 0 0)).
Proof.
  pose proof (general_address_roundtrip (General_of_ip 0x7f000001 80) General_default
    (Packer.make 64) [] (Unpacker.mkUnpacker false 8 [0; 0; 127; 0; 0; 1; 0; 80] 0 0) [])
    as H.
  destruct H as (H1 & H2 & _).
  - split; split; simpl; lia.
  - apply Packer.make_holds. split; [discriminate|reflexivity].
  - vm_compute. reflexivity.
  - split; [reflexivity|]. split; [reflexivity|]. split; [split; discriminate|reflexivity].
  - split; [exact H1|exact H2].
Defined.

(** conversions between the address types lose nothing.  Host-order and
    network-order IPv4 addresses, the libc structures and the general address
    convert back and forth to the same value; an address of another version is
    rejected by the assertion of the conversion. *)
Theorem address_conversions (a : NewSockAddress4) (b : SocketAddress4) (c : SocketAddress6) :
  addr4_ok a → u32_ok (ip4 b) → u16_ok (port4 b) →
  NewSockAddress4_of_sockaddr (NewSockAddress4_sockaddr a) = a ∧
  SocketAddress4_of (SocketAddress4_sockaddr b) = b ∧
  NewSockAddress4_of (htonl (ip_ a), htons (port_ a)) = a ∧
  ToOldAddresses [NewSockAddress4_of b] = [b] ∧
  SocketAddress6_of (SocketAddress6_sockaddr c) = c ∧
  General_of_storage (General_storage (Addr4 a)) = Ok (Addr4 a) ∧
  General_of_storage (General_storage (Addr6 c)) = Ok (Addr6 c) ∧
  to_SocketAddress4 (General_of_4 b) = Ok b ∧
  to_SocketAddress4 (Addr6 c) = Err AssertFailed ∧
  GetPort (General_of_4 b) = Port b.
Proof.
  intros [Hi Hp] Hb4 Hbp. unfold NewSockAddress4_of_sockaddr, NewSockAddress4_sockaddr,
    NewSockAddress4_of, ToOldAddresses, General_of_4, to_SocketAddress4, GetPort, Ip, Port.
  cbn [s_addr sin_port ip4 port4 fst snd ip_ port_ General_storage General_of_storage fmap
    list_fmap].
  unfold NewSockAddress4_of_sockaddr, NewSockAddress4_sockaddr. cbn [s_addr sin_port].
  rewrite ntohl_htonl, ntohs_htons, htonl_ntohl, htons_ntohs by done.
  destruct a, b, c. split_and!; done.
Qed.

Lemma address_conversions_witness :
  NewSockAddress4_of_sockaddr (NewSockAddress4_sockaddr (mkNewSockAddress4 1 2)) =
    mkNewSockAddress4 1 2 ∧
  to_SocketAddress4 (General_of_4 (3, 4)) = Ok (3, 4).
Proof.
  destruct (address_conversions (mkNewSockAddress4 1 2) (3, 4) SocketAddress6_default)
    as (H1 & _ & _ & _ & _ & _ & _ & H2 & _).
  - split; split; simpl; lia.
  - split; simpl; lia.
  - split; simpl; lia.
  - split; [exact H1|exact H2].
Defined.

(** A Unix path goes through [sockaddr_un] unchanged when it has no zero
    byte and at most 106 bytes (one less than the structure holds); a longer
    path is cut to its first 106 bytes. *)
Theorem unix_path_truncation path :
  SocketAddressUnix_of (SocketAddressUnix_sockaddr path) = take 106 (c_str path) ∧
  length (sun_path (SocketAddressUnix_sockaddr path)) = 108%nat ∧
  (Forall (λ b, b ≠ 0) path → (length path ≤ 106)%nat →
   SocketAddressUnix_of (SocketAddressUnix_sockaddr path) = path).
Proof.
  assert (∀ s, Forall (λ b, b ≠ 0) s → c_str s = s) as Hid.
  { induction 1 as [|b s Hb _ IH]; simpl; [done|].
    rewrite (proj2 (Z.eqb_neq _ _)) by done. by rewrite IH. }
  assert (SocketAddressUnix_of (SocketAddressUnix_sockaddr path) = take 106 (c_str path))
    as Hmain.
  { unfold SocketAddressUnix_of, SocketAddressUnix_sockaddr. cbn [sun_path].
    set (t := take 106 (c_str path)).
    assert (length t ≤ 106)%nat by (unfold t; rewrite length_take; lia).
    destruct (108 - length t)%nat as [|n] eqn:E; [lia|]. simpl.
    apply c_str_app. apply Forall_take, c_str_nonzero. }
  split_and!; [done| |].
  - unfold SocketAddressUnix_sockaddr. cbn [sun_path].
    rewrite length_app, length_replicate, length_take. lia.
  - intros Hn Hl. by rewrite Hmain, Hid, take_ge.
Qed.

(** the operators of [GeneralSocketAddress] order all addresses: [<] is a
    strict total order and [==] is equality, across IPv4, IPv6 and Unix
    addresses, so ordered containers keyed by addresses are sound. *)
Theorem general_address_order a b c :
  general_ok a → general_ok b → general_ok c →
  LessThan a a = false ∧
  (LessThan a b = true → LessThan b c = true → LessThan a c = true) ∧
  (General_eq a b = true ↔ a = b) ∧
  (a = b ∨ LessThan a b = true ∨ LessThan b a = true).
Proof.
  intros Ha Hb Hc. destruct General_order as [HI HT HE HO]. split_and!.
  - by apply HI.
  - by apply HT.
  - by apply HE.
  - by apply HO.
Qed.

Lemma general_address_order_witness :
  let a := General_of_ip 1 2 in let b := AddrUnix [47] in
  LessThan a a = false ∧ (LessThan a b = true → LessThan b a = true → LessThan a a = true) ∧
  (General_eq a b = true ↔ a = b) ∧ (a = b ∨ LessThan a b = true ∨ LessThan b a = true).
Proof.
  apply (general_address_order (General_of_ip 1 2) (AddrUnix [47]) (General_of_ip 1 2));
    repeat constructor; simpl; lia.
Defined.

(** The addresses of a block share their prefix. *)
Lemma block_range ip d k : (0 <? d) = true → ip / d = k ↔ k * d ≤ ip < (k + 1) * d.
Proof.
  intros Hd%Z.ltb_lt. split; [intros <-|].
  - pose proof (Z.mod_pos_bound ip d Hd). pose proof (Z.div_mod ip d). lia.
  - intros Hk. symmetry. apply Z.div_unique with (ip - k * d); lia.
Qed.

(** [IsPublicIp] is false exactly on the private, loopback, link-local and
    carrier-grade blocks 10/8, 127/8, 172.16/12, 169.254/16, 192.168/16 and
    100.64/10. *)
Theorem IsPublicIp_blocks ip :
  0 ≤ ip < 2 ^ 32 →
  IsPublicIp ip = false ↔
    ip / 2 ^ 24 = 10 ∨ ip / 2 ^ 24 = 127 ∨ ip / 2 ^ 20 = 0xac1 ∨
    ip / 2 ^ 16 = 0xa9fe ∨ ip / 2 ^ 16 = 0xc0a8 ∨ ip / 2 ^ 22 = 0x191.
Proof.
  intros Hip. unfold IsPublicIp. rewrite negb_false_iff. simpl.
  rewrite !orb_true_iff, !andb_true_iff, !Z.leb_le.
  rewrite !block_range by reflexivity.
  split; [intros [H|[H|[H|[H|[H|[H|H]]]]]]|intros [H|[H|[H|[H|[H|H]]]]]];
    first [discriminate H | simpl in *; lia].
Qed.

Lemma IsPublicIp_blocks_witness :
  IsPublicIp 0x0a010203 = false ↔
    0x0a010203 / 2 ^ 24 = 10 ∨ 0x0a010203 / 2 ^ 24 = 127 ∨ 0x0a010203 / 2 ^ 20 = 0xac1 ∨
    0x0a010203 / 2 ^ 16 = 0xa9fe ∨ 0x0a010203 / 2 ^ 16 = 0xc0a8 ∨
    0x0a010203 / 2 ^ 22 = 0x191.
Proof. apply (IsPublicIp_blocks 0x0a010203). split; [discriminate|reflexivity]. Defined.
