(* ===== verification/AddressUnion.v ===== *)
(** * AddressUnion: the union inside GeneralSocketAddress

    Addresses has [GeneralSocketAddress] as a sum type.  In network/address_types.h it is a
    version and a C++ union whose members have constructors and destructors: the class must
    begin and end their lifetimes itself.  Here an object is what the class has, a read or a
    destruction of a member that is not alive is a fault, and a member whose storage is
    reused without its destruction is kept in [lost].  The sum type is what it implements. *)

From stdpp Require Import gmap.
From S2P Require Import Prelude Bytes Wire Packer Unpacker Codec Structs Addresses.

(** ** Storage *)

Record AddressStorage := mkStorage {
  active : option GeneralSocketAddress;   (* the member that is alive *)
  lost : list GeneralSocketAddress;       (* never destroyed *)
}.
Definition raw_storage : AddressStorage := mkStorage None [].

(** [new (&addr_.member) T(a)] *)
Definition place (m : GeneralSocketAddress) (s : AddressStorage) : AddressStorage :=
  mkStorage (Some m) (option_list (active s) ++ lost s).

Definition addr4 (s : AddressStorage) : result NewSockAddress4 :=
  match active s with Some (Addr4 a) => Ok a | _ => Err UninitRead end.
Definition addr6 (s : AddressStorage) : result SocketAddress6 :=
  match active s with Some (Addr6 a) => Ok a | _ => Err UninitRead end.
Definition addr_unix (s : AddressStorage) : result SocketAddressUnix :=
  match active s with Some (AddrUnix a) => Ok a | _ => Err UninitRead end.

(** The destructor of a member ends its lifetime. *)
Definition destroy4 (s : AddressStorage) : result AddressStorage :=
  _ ← addr4 s; Ok (mkStorage None (lost s)).
Definition destroy6 (s : AddressStorage) : result AddressStorage :=
  _ ← addr6 s; Ok (mkStorage None (lost s)).
Definition destroy_unix (s : AddressStorage) : result AddressStorage :=
  _ ← addr_unix s; Ok (mkStorage None (lost s)).

(** ** The class *)

#[export] Instance IpVersion_eq_dec : EqDecision IpVersion.
Proof. solve_decision. Defined.

Record Object := mkObject { tag : IpVersion; addr_ : AddressStorage }.

Definition make_default : Object := mkObject kIp4 (place (Addr4 NewSockAddress4_default) raw_storage).
Definition make4 (a : NewSockAddress4) : Object := mkObject kIp4 (place (Addr4 a) raw_storage).
Definition make_ip (ip port : Z) : Object := make4 (mkNewSockAddress4 ip port).
Definition make_old (a : SocketAddress4) : Object :=
  mkObject kIp4 (place (Addr4 (mkNewSockAddress4 (Ip a) (Port a))) raw_storage).
Definition make6 (a : SocketAddress6) : Object := mkObject kIp6 (place (Addr6 a) raw_storage).
Definition make_unix (a : SocketAddressUnix) : Object := mkObject kUnix (place (AddrUnix a) raw_storage).
Definition make_storage (a : sockaddr_storage) : result Object :=
  match a with
  | StorageIn a => Ok (mkObject kIp4 (place (Addr4 (NewSockAddress4_of_sockaddr a)) raw_storage))
  | StorageIn6 a => Ok (mkObject kIp6 (place (Addr6 (SocketAddress6_of a)) raw_storage))
  | StorageUn a => Ok (mkObject kUnix (place (AddrUnix (SocketAddressUnix_of a)) raw_storage))
  | StorageOther _ => Err AssertFailed
  end.

(** The switch of the copy constructor and of the assignment. *)
Definition copy_member (a : Object) (s : AddressStorage) : result Object :=
  match tag a with
  | kIp4 => x ← addr4 (addr_ a); Ok (mkObject kIp4 (place (Addr4 x) s))
  | kIp6 => x ← addr6 (addr_ a); Ok (mkObject kIp6 (place (Addr6 x) s))
  | kUnix => x ← addr_unix (addr_ a); Ok (mkObject kUnix (place (AddrUnix x) s))
  end.
Definition make_copy (a : Object) : result Object := copy_member a raw_storage.

Definition Destroy (o : Object) : result AddressStorage :=
  match tag o with
  | kIp4 => destroy4 (addr_ o)
  | kIp6 => destroy6 (addr_ o)
  | kUnix => destroy_unix (addr_ o)
  end.

(** [operator=]: [same] is [this == &address]. *)
Definition assign (same : bool) (self address : Object) : result Object :=
  if same then Ok self
  else s ← Destroy self; copy_member address s.

Definition obj_SerializeFrom (o : Object) (u : Unpacker.Unpacker) : result (Object * Unpacker.Unpacker) :=
  '(ver, u) ← pop uint16_codec 0 u;
  match ver with
  | 0 => '(temp, u) ← pop NewSockAddress4_codec (dflt NewSockAddress4_codec) u;
         s ← Destroy o; Ok (mkObject kIp4 (place (Addr4 temp) s), u)
  | 1 => '(temp, u) ← pop SocketAddress6_codec (dflt SocketAddress6_codec) u;
         s ← Destroy o; Ok (mkObject kIp6 (place (Addr6 temp) s), u)
  | 2 => '(temp, u) ← pop SocketAddressUnix_codec (dflt SocketAddressUnix_codec) u;
         s ← Destroy o; Ok (mkObject kUnix (place (AddrUnix temp) s), u)
  | _ => Err AssertFailed
  end.

(** ** What can be asked of an object *)

Definition as4 (o : Object) : result NewSockAddress4 :=
  _ ← assert_ (bool_decide (tag o = kIp4)); addr4 (addr_ o).
Definition as_old (o : Object) : result SocketAddress4 :=
  _ ← assert_ (bool_decide (tag o = kIp4)); a ← addr4 (addr_ o); Ok (htonl (ip_ a), htons (port_ a)).
Definition as6 (o : Object) : result SocketAddress6 :=
  _ ← assert_ (bool_decide (tag o = kIp6)); addr6 (addr_ o).
Definition as_unix (o : Object) : result SocketAddressUnix :=
  _ ← assert_ (bool_decide (tag o = kUnix)); addr_unix (addr_ o).

(** [operator==] looks through the conversions. *)
Definition obj_eq (a b : Object) : result bool :=
  match tag a with
  | kIp4 => if decide (tag b = kIp4) then x ← as4 a; y ← as4 b; Ok (ceq NewSockAddress4_cmp x y)
            else Ok false
  | kIp6 => if decide (tag b = kIp6) then x ← as6 a; y ← as6 b; Ok (ceq SocketAddress6_cmp x y)
            else Ok false
  | kUnix => if decide (tag b = kUnix) then x ← as_unix a; y ← as_unix b; Ok (ceq SocketAddressUnix_cmp x y)
             else Ok false
  end.

Definition obj_LessThan (self rhs : Object) : result bool :=
  if version_code (tag self) <? version_code (tag rhs) then Ok true
  else if version_code (tag rhs) <? version_code (tag self) then Ok false
  else match tag self with
       | kIp4 => x ← addr4 (addr_ self); y ← addr4 (addr_ rhs); Ok (clt NewSockAddress4_cmp x y)
       | kIp6 => x ← addr6 (addr_ self); y ← addr6 (addr_ rhs); Ok (clt SocketAddress6_cmp x y)
       | kUnix => x ← addr_unix (addr_ self); y ← addr_unix (addr_ rhs); Ok (clt SocketAddressUnix_cmp x y)
       end.

Definition obj_GetPort (o : Object) : result Z :=
  match tag o with
  | kIp4 => a ← addr4 (addr_ o); Ok (port_ a)
  | kIp6 => a ← addr6 (addr_ o); Ok (ntohs (port a))
  | kUnix => Ok 0
  end.

Definition obj_storage (o : Object) : result sockaddr_storage :=
  match tag o with
  | kIp4 => a ← addr4 (addr_ o); Ok (StorageIn (NewSockAddress4_sockaddr a))
  | kIp6 => a ← addr6 (addr_ o); Ok (StorageIn6 (SocketAddress6_sockaddr a))
  | kUnix => a ← addr_unix (addr_ o); Ok (StorageUn (SocketAddressUnix_sockaddr a))
  end.

Definition obj_SerializeTo (o : Object) (p : Packer.Packer) : result Packer.Packer :=
  p ← push uint16_codec (version_code (tag o)) p;
  match tag o with
  | kIp4 => a ← addr4 (addr_ o); push NewSockAddress4_codec a p
  | kIp6 => a ← addr6 (addr_ o); push SocketAddress6_codec a p
  | kUnix => a ← addr_unix (addr_ o); push SocketAddressUnix_codec a p
  end.

(** ** Programs on objects

    Objects have names; a program constructs, copies, assigns, reads from the wire,
    observes and deletes them; a name is given once at a time. *)

Inductive ctor :=
  | CDefault | CIp (ip port : Z) | C4 (a : NewSockAddress4) | COld (a : SocketAddress4)
  | C6 (a : SocketAddress6) | CUnix (a : SocketAddressUnix) | CStorage (a : sockaddr_storage).

Inductive op :=
  | Make (i : nat) (c : ctor)
  | Copy (i j : nat)
  | Assign (i j : nat)
  | Read (i : nat) (u : Unpacker.Unpacker)
  | Delete (i : nat)
  | AskEq (i j : nat) | AskLess (i j : nat) | AskPort (i : nat) | AskStorage (i : nat)
  | AskWire (i : nat) (p : Packer.Packer)
  | Ask4 (i : nat) | AskOld (i : nat) | Ask6 (i : nat) | AskUnix (i : nat).

Inductive answer :=
  | ABool (b : bool) | APort (z : Z) | AStorage (a : sockaddr_storage) | AWire (p : Packer.Packer)
  | ARest (u : Unpacker.Unpacker) | A4 (a : NewSockAddress4) | AOld (a : SocketAddress4)
  | A6 (a : SocketAddress6) | AUnix (a : SocketAddressUnix).

(** A class of addresses: the operations of a program. *)
Class AddressClass (T : Type) := {
  construct : ctor → result T;
  copied : T → result T;
  assigned : bool → T → T → result T;
  readFrom : T → Unpacker.Unpacker → result (T * Unpacker.Unpacker);
  destructed : T → result unit;
  equal : T → T → result bool;
  less : T → T → result bool;
  portOf : T → result Z;
  toStorage : T → result sockaddr_storage;
  writeTo : T → Packer.Packer → result Packer.Packer;
  to4 : T → result NewSockAddress4;
  toOld : T → result SocketAddress4;
  to6 : T → result SocketAddress6;
  toUnix : T → result SocketAddressUnix;
}.

Definition construct_object (c : ctor) : result Object :=
  match c with
  | CDefault => Ok make_default
  | CIp ip port => Ok (make_ip ip port)
  | C4 a => Ok (make4 a)
  | COld a => Ok (make_old a)
  | C6 a => Ok (make6 a)
  | CUnix a => Ok (make_unix a)
  | CStorage a => make_storage a
  end.

#[export] Instance Object_class : AddressClass Object := {|
  construct := construct_object;
  copied := make_copy;
  assigned := assign;
  readFrom := obj_SerializeFrom;
  destructed o := _ ← Destroy o; Ok tt;
  equal := obj_eq;
  less := obj_LessThan;
  portOf := obj_GetPort;
  toStorage := obj_storage;
  writeTo := obj_SerializeTo;
  to4 := as4;
  toOld := as_old;
  to6 := as6;
  toUnix := as_unix;
|}.

(** The sum type, whose copies are values and whose destruction is nothing. *)
Definition construct_general (c : ctor) : result GeneralSocketAddress :=
  match c with
  | CDefault => Ok General_default
  | CIp ip port => Ok (General_of_ip ip port)
  | C4 a => Ok (Addr4 a)
  | COld a => Ok (General_of_4 a)
  | C6 a => Ok (Addr6 a)
  | CUnix a => Ok (AddrUnix a)
  | CStorage a => General_of_storage a
  end.

#[export] Instance General_class : AddressClass GeneralSocketAddress := {|
  construct := construct_general;
  copied := Ok;
  assigned _ _ g := Ok g;
  readFrom := SerializeFrom;
  destructed _ := Ok tt;
  equal a b := Ok (General_eq a b);
  less a b := Ok (LessThan a b);
  portOf g := Ok (GetPort g);
  toStorage g := Ok (General_storage g);
  writeTo := SerializeTo;
  to4 := to_NewSockAddress4;
  toOld := to_SocketAddress4;
  to6 := to_SocketAddress6;
  toUnix := to_SocketAddressUnix;
|}.

Section programs.
Context {T : Type} `{AddressClass T}.
Abbreviation store := (gmap nat T).

Definition object (i : nat) (st : store) : result T :=
  match st !! i with Some x => Ok x | None => Err UseAfterFree end.
Definition unused (i : nat) (st : store) : result unit :=
  assert_ (bool_decide (st !! i = None)).

Definition step (o : op) (st : store) : result (store * list answer) :=
  match o with
  | Make i c => _ ← unused i st; x ← construct c; Ok (<[i := x]> st, [])
  | Copy i j => _ ← unused i st; y ← object j st; x ← copied y; Ok (<[i := x]> st, [])
  | Assign i j => x ← object i st; y ← object j st; x ← assigned (bool_decide (i = j)) x y;
                  Ok (<[i := x]> st, [])
  | Read i u => x ← object i st; '(x, u) ← readFrom x u; Ok (<[i := x]> st, [ARest u])
  | Delete i => x ← object i st; _ ← destructed x; Ok (delete i st, [])
  | AskEq i j => x ← object i st; y ← object j st; b ← equal x y; Ok (st, [ABool b])
  | AskLess i j => x ← object i st; y ← object j st; b ← less x y; Ok (st, [ABool b])
  | AskPort i => x ← object i st; z ← portOf x; Ok (st, [APort z])
  | AskStorage i => x ← object i st; a ← toStorage x; Ok (st, [AStorage a])
  | AskWire i p => x ← object i st; p ← writeTo x p; Ok (st, [AWire p])
  | Ask4 i => x ← object i st; a ← to4 x; Ok (st, [A4 a])
  | AskOld i => x ← object i st; a ← toOld x; Ok (st, [AOld a])
  | Ask6 i => x ← object i st; a ← to6 x; Ok (st, [A6 a])
  | AskUnix i => x ← object i st; a ← toUnix x; Ok (st, [AUnix a])
  end.

Fixpoint run (os : list op) (st : store) : result (store * list answer) :=
  match os with
  | [] => Ok (st, [])
  | o :: os => '(st, l) ← step o st; '(st, l') ← run os st; Ok (st, l ++ l')
  end.
End programs.

(** ** The object of a value *)

Definition repr (g : GeneralSocketAddress) : Object := mkObject (version_ g) (mkStorage (Some g) []).

(** One member is alive, the one of the version, and nothing was lost. *)
Definition well_typed (o : Object) : Prop :=
  ∃ g, active (addr_ o) = Some g ∧ version_ g = tag o ∧ lost (addr_ o) = [].

Lemma repr_well_typed g : well_typed (repr g).
Proof. by exists g. Qed.

(** Each operation on the object of a value is the one on the value. *)
Create Rewrite HintDb union.

Lemma construct_repr c : construct (T := Object) c = repr <$> construct c.
Proof. by destruct c as [| | | | | |[]]. Qed.
Lemma copied_repr g : copied (repr g) = repr <$> copied g.
Proof. by destruct g. Qed.
Lemma assigned_repr same g g' : (same = true → g = g') →
  assigned same (repr g) (repr g') = repr <$> assigned same g g'.
Proof. intros Hs. destruct same; [by rewrite Hs|]. by destruct g, g'. Qed.
Lemma destructed_repr g : destructed (repr g) = destructed g.
Proof. by destruct g. Qed.
Lemma readFrom_repr g u : readFrom (repr g) u = (λ '(x, u), (repr x, u)) <$> readFrom g u.
Proof.
  cbn [readFrom Object_class General_class]. unfold obj_SerializeFrom, SerializeFrom.
  destruct (pop uint16_codec 0 u) as [[ver u']|]; [|done]. cbn [mbind result_bind].
  destruct ver as [|[[]|[]|]|]; try done.
  - destruct (pop NewSockAddress4_codec _ u') as [[]|]; [|done]. by destruct g.
  - destruct (pop SocketAddressUnix_codec _ u') as [[]|]; [|done]. by destruct g.
  - destruct (pop SocketAddress6_codec _ u') as [[]|]; [|done]. by destruct g.
Qed.
Lemma equal_repr g g' : equal (repr g) (repr g') = equal g g'.
Proof. by destruct g, g'. Qed.
Lemma less_repr g g' : less (repr g) (repr g') = less g g'.
Proof. by destruct g, g'. Qed.
Lemma portOf_repr g : portOf (repr g) = portOf g.
Proof. by destruct g. Qed.
Lemma toStorage_repr g : toStorage (repr g) = toStorage g.
Proof. by destruct g. Qed.
Lemma writeTo_repr g p : writeTo (repr g) p = writeTo g p.
Proof. by destruct g. Qed.
Lemma to4_repr g : to4 (repr g) = to4 g.
Proof. by destruct g. Qed.
Lemma toOld_repr g : toOld (repr g) = toOld g.
Proof. by destruct g. Qed.
Lemma to6_repr g : to6 (repr g) = to6 g.
Proof. by destruct g. Qed.
Lemma toUnix_repr g : toUnix (repr g) = toUnix g.
Proof. by destruct g. Qed.

#[export] Hint Rewrite construct_repr copied_repr destructed_repr readFrom_repr equal_repr less_repr
  portOf_repr toStorage_repr writeTo_repr to4_repr toOld_repr to6_repr toUnix_repr : union.

(** ** Programs *)

Definition repr_result (r : result (gmap nat GeneralSocketAddress * list answer)) :
    result (gmap nat Object * list answer) :=
  match r with Ok (st, l) => Ok (repr <$> st, l) | Err e => Err e end.

Lemma object_repr i (st : gmap nat GeneralSocketAddress) : object i (repr <$> st) = repr <$> object i st.
Proof. unfold object. rewrite lookup_fmap. by destruct (st !! i). Qed.
Lemma unused_repr i (st : gmap nat GeneralSocketAddress) : unused i (repr <$> st) = unused i st.
Proof. unfold unused. rewrite lookup_fmap. by destruct (st !! i). Qed.

#[export] Hint Rewrite object_repr unused_repr : union.

Lemma repr_bind {A B} (h : A → B) (m : result A) f g :
  (∀ a, f (h a) = repr_result (g a)) → (h <$> m) ≫= f = repr_result (m ≫= g).
Proof. intros Hf. destruct m; [apply Hf|done]. Qed.
Lemma same_bind {A} (m : result A) f g :
  (∀ a, f a = repr_result (g a)) → m ≫= f = repr_result (m ≫= g).
Proof. intros Hf. destruct m; [apply Hf|done]. Qed.

Ltac binds :=
  repeat (autorewrite with union; first [apply repr_bind; intros ? | apply same_bind; intros ?]).

Lemma step_repr o (st : gmap nat GeneralSocketAddress) : step o (repr <$> st) = repr_result (step o st).
Proof.
  destruct o as [| |i j| | | | | | | | | | |]; cbn [step]; try solve [binds; cbn [repr_result]; by rewrite ?fmap_insert, ?fmap_delete].
  - (* assignment *) autorewrite with union. unfold object. destruct (st !! i) as [x|] eqn:Ei; [|done].
    destruct (st !! j) as [y|] eqn:Ej; [|done]. cbn [fmap result_fmap mbind result_bind].
    rewrite assigned_repr; [|intros Hij%bool_decide_eq_true; congruence].
    binds. cbn. by rewrite fmap_insert.
  - (* reading *) binds. destruct a0 as [x u']. cbn. by rewrite fmap_insert.
Qed.

Lemma run_repr os (st : gmap nat GeneralSocketAddress) : run os (repr <$> st) = repr_result (run os st).
Proof.
  revert st. induction os as [|o os IH]; intros st; [done|]. cbn [run].
  rewrite step_repr. destruct (step o st) as [[st' l]|]; [|done]. cbn [mbind result_bind repr_result].
  rewrite IH. by destruct (run os st') as [[]|].
Qed.

(** ** Properties *)

(** C25: [GeneralSocketAddress] is the sum type: a program that constructs, copies, assigns
    (an object to itself too), reads from the wire, compares, converts and deletes objects
    gives the same answers as on values, faults exactly where the values do, and leaves
    objects that represent them. *)
Theorem union_refines_sum (os : list op) (st : gmap nat GeneralSocketAddress) :
  run os (repr <$> st) =
  match run os st with Ok (st', l) => Ok (repr <$> st', l) | Err e => Err e end.
Proof. apply run_repr. Qed.

(** C24: In every state a program reaches, in each object exactly one member of the union is
    alive, it is the one the version names, and no member has been overwritten without its
    destructor; so the destructor of any object runs without a fault. *)
Theorem objects_stay_typed (os : list op) (st : gmap nat Object) (l : list answer) :
  run os ∅ = Ok (st, l) →
  map_Forall (λ _ o, well_typed o ∧ ∃ s, Destroy o = Ok s ∧ active s = None ∧ lost s = []) st.
Proof.
  intros Hr. pose proof (run_repr os ∅) as E. rewrite fmap_empty, Hr in E. unfold repr_result in E.
  destruct (run (T := GeneralSocketAddress) os ∅) as [[st' l']|]; [|done]. injection E as -> _.
  intros i o Ho. rewrite lookup_fmap in Ho. destruct (st' !! i) as [g|]; [|done].
  injection Ho as <-. split; [apply repr_well_typed|]. by destruct g; eexists.
Qed.

Definition demo_program : list op :=
  [Make 0 (CUnix [47; 97]); Make 1 (CIp 0x7f000001 80); Assign 1 0; Assign 0 0; Copy 2 1;
   Read 2 (Unpacker.mkUnpacker false 8 [0; 0; 127; 0; 0; 1; 0; 80] 0 0); Delete 0; AskLess 1 2].

Lemma objects_stay_typed_witness :
  ∃ st l, run demo_program ∅ = Ok (st, l) ∧
    map_Forall (λ _ o, well_typed o ∧ ∃ s, Destroy o = Ok s ∧ active s = None ∧ lost s = []) st.
Proof.
  destruct (run demo_program ∅) as [[st l]|] eqn:E; [|vm_compute in E; discriminate].
  exists st, l. split; [done|]. exact (objects_stay_typed demo_program st l E).
Defined.
