(* ===== verification/Interfaces.v ===== *)
(** * Interfaces: the local addresses of network/network_utility.cpp

    The list that [getifaddrs] gives, and the result list of [getaddrinfo], as lists of
    their socket addresses; a null address is [None].  The order in which an unordered
    set is iterated is a parameter: some order of its elements. *)

From stdpp Require Import gmap sets.
From S2P Require Import Prelude Bytes Wire Codec Addresses.

(** [getaddrinfo] is asked for IPv4 addresses only; None: it failed. *)
Definition ResolveHost (result : option (list sockaddr_in)) : list Z :=
  match result with
  | None => []
  | Some l => (λ p, ntohl (s_addr p)) <$> l
  end.

Definition INADDR_LOOPBACK : Z := 0x7f000001.

(** A turn of the loop of [LocalAddresses], and of [LocalIpv6Addresses]. *)
Definition add_interface (ip_list : gset Z) (ifa_addr : option sockaddr_storage) : gset Z :=
  match ifa_addr with
  | Some (StorageIn p) =>
      let ip := ntohl (s_addr p) in
      if negb (ip =? INADDR_LOOPBACK) then {[ip]} ∪ ip_list else ip_list
  | _ => ip_list
  end.
Definition add_interface6 (ips : list SocketAddress6) (ifa_addr : option sockaddr_storage) : list SocketAddress6 :=
  match ifa_addr with
  | Some (StorageIn6 p) =>
      if negb (IsLoopBack (sin6_addr p)) then ips ++ [SocketAddress6_of p] else ips
  | _ => ips
  end.

(** None: [getifaddrs] failed. *)
Definition LocalAddresses (iterate : gset Z → list Z)
    (if_address : option (list (option sockaddr_storage))) : list Z :=
  match if_address with
  | None => []
  | Some l => iterate (foldl add_interface ∅ l)
  end.
Definition LocalIpv6Addresses (if_address : option (list (option sockaddr_storage))) : list SocketAddress6 :=
  match if_address with
  | None => []
  | Some l => foldl add_interface6 [] l
  end.

(** ** What is collected *)

Lemma in_add ips a ip : ip ∈ add_interface ips a ↔
  ip ∈ ips ∨ ∃ p, a = Some (StorageIn p) ∧ ip = ntohl (s_addr p) ∧ ip ≠ INADDR_LOOPBACK.
Proof.
  assert (∀ P : Prop, (¬ P) → ip ∈ ips ↔ ip ∈ ips ∨ P) as Hno by tauto.
  destruct a as [[p|p|p|f]|]; cbn [add_interface]; try (apply Hno; by intros (? & ? & _)).
  destruct (Z.eqb_spec (ntohl (s_addr p)) INADDR_LOOPBACK) as [E|E]; cbn [negb].
  - apply Hno. intros (p' & [= <-] & -> & Hne). done.
  - rewrite elem_of_union, elem_of_singleton. split.
    + intros [->|?]; [right; by exists p|by left].
    + intros [?|(p' & [= <-] & -> & _)]; [by right|by left].
Qed.

Lemma in_add6 ips a c : c ∈ add_interface6 ips a ↔
  c ∈ ips ∨ ∃ p, a = Some (StorageIn6 p) ∧ c = SocketAddress6_of p ∧ IsLoopBack (sin6_addr p) = false.
Proof.
  assert (∀ P : Prop, (¬ P) → c ∈ ips ↔ c ∈ ips ∨ P) as Hno by tauto.
  destruct a as [[p|p|p|f]|]; cbn [add_interface6]; try (apply Hno; by intros (? & ? & _)).
  destruct (IsLoopBack (sin6_addr p)) eqn:E; cbn [negb].
  - apply Hno. intros (p' & [= <-] & -> & Hne). congruence.
  - rewrite elem_of_app, list_elem_of_singleton. split.
    + intros [?| ->]; [by left|right; by exists p].
    + intros [?|(p' & [= <-] & -> & _)]; [by left|by right].
Qed.

(** Folding a step that adds what an element asks for. *)
Lemma in_fold {A C X} `{ElemOf X C} (add : C → A → C) (P : A → X → Prop) :
  (∀ c a x, x ∈ add c a ↔ x ∈ c ∨ P a x) →
  ∀ l c x, x ∈ foldl add c l ↔ x ∈ c ∨ ∃ a, a ∈ l ∧ P a x.
Proof.
  intros Hadd. induction l as [|a l IH]; intros c x; cbn [foldl].
  - split; [by left|]. intros [?|(p & Hp & _)]; [done|]. by apply elem_of_nil in Hp.
  - rewrite IH, Hadd. split.
    + intros [[?|?]|(b & Hb & ?)]; [by left|right; exists a; split; [by left|done]|].
      right. exists b. split; [by right|done].
    + intros [?|(b & [->|Hb]%elem_of_cons & ?)]; [by left; left|by left; right|right; by exists b].
Qed.

Lemma in_interfaces l ip : ip ∈ foldl add_interface ∅ l ↔
  ∃ p, Some (StorageIn p) ∈ l ∧ ip = ntohl (s_addr p) ∧ ip ≠ INADDR_LOOPBACK.
Proof.
  rewrite (in_fold _ _ in_add). split.
  - intros [[]%not_elem_of_empty|(a & Ha & p & -> & ?)]. by exists p.
  - intros (p & Hp & ?). right. exists (Some (StorageIn p)). split; [done|]. by exists p.
Qed.

Lemma in_interfaces6 l c : c ∈ foldl add_interface6 [] l ↔
  ∃ p, Some (StorageIn6 p) ∈ l ∧ c = SocketAddress6_of p ∧ IsLoopBack (sin6_addr p) = false.
Proof.
  rewrite (in_fold _ _ in_add6). split.
  - intros [[]%not_elem_of_nil|(a & Ha & p & -> & ?)]. by exists p.
  - intros (p & Hp & ?). right. exists (Some (StorageIn6 p)). split; [done|]. by exists p.
Qed.

Lemma global_not_loopback p : IsGlobal p = true → IsLoopBack p = false.
Proof.
  destruct p as [[[x y] z] w]. intros Hg. unfold IsLoopBack, In6AddrEqualTo, left64, in6addr_loopback.
  apply not_true_iff_false. rewrite andb_true_iff, !Z.eqb_eq. intros [E _].
  unfold IsGlobal in Hg. apply Z.eqb_eq in Hg.
  assert (x = (- y * 2 ^ 24) * 2 ^ 8) as -> by lia.
  change (htonl 0x70000000) with (Z.land 255 0x70) in Hg. change (htonl 0x20000000) with 0x20 in Hg.
  rewrite Z.land_assoc in Hg. change 255 with (Z.ones 8) in Hg.
  rewrite Z.land_ones, Z.mod_mul in Hg by lia. done.
Qed.

(** the public addresses of the host are exactly the IPv4 addresses of its interfaces
    that are outside the private blocks, each once, in whatever order the set is iterated;
    and the global IPv6 addresses are exactly those of its interfaces. *)
Theorem public_addresses_found (iterate : gset Z → list Z) (l : list (option sockaddr_storage)) :
  (∀ s, iterate s ≡ₚ elements s) →
  NoDup (LocalPublicAddresses (LocalAddresses iterate (Some l))) ∧
  (∀ ip, ip ∈ LocalPublicAddresses (LocalAddresses iterate (Some l)) ↔
     ∃ p, Some (StorageIn p) ∈ l ∧ ip = ntohl (s_addr p) ∧ IsPublicIp ip = true) ∧
  (∀ c, c ∈ LocalPublicIpv6Addresses (LocalIpv6Addresses (Some l)) ↔
     ∃ p, Some (StorageIn6 p) ∈ l ∧ c = SocketAddress6_of p ∧ IsGlobal (sin6_addr p) = true).
Proof.
  intros Hit. unfold LocalPublicAddresses, LocalPublicIpv6Addresses, LocalAddresses, LocalIpv6Addresses.
  split_and!.
  - apply NoDup_ListNoDup, List.NoDup_filter, NoDup_ListNoDup. rewrite Hit. apply NoDup_elements.
  - intros ip. rewrite list_elem_of_In, List.filter_In, <- list_elem_of_In, Hit, elem_of_elements, in_interfaces.
    split.
    + intros [(p & Hp & -> & _) Hpub]. by exists p.
    + intros (p & Hp & -> & Hpub). split; [|done]. exists p. split; [done|]. split; [done|].
      intros E. by rewrite E in Hpub.
  - intros c. rewrite list_elem_of_In, List.filter_In, <- list_elem_of_In, in_interfaces6. split.
    + intros [(p & Hp & -> & _) Hg]. by exists p.
    + intros (p & Hp & -> & Hg). split; [|done]. exists p. auto using global_not_loopback.
Qed.

Definition demo_interfaces : list (option sockaddr_storage) :=
  [None; Some (StorageIn (mkSockaddrIn AF_INET 0 (htonl 0x7f000001)));
   Some (StorageIn (mkSockaddrIn AF_INET 0 (htonl 0x08080808)));
   Some (StorageIn (mkSockaddrIn AF_INET 0 (htonl 0x0a000001)));
   Some (StorageIn (mkSockaddrIn AF_INET 0 (htonl 0x08080808)))].

Lemma public_addresses_found_witness :
  NoDup (LocalPublicAddresses (LocalAddresses elements (Some demo_interfaces))) ∧
  (∀ ip, ip ∈ LocalPublicAddresses (LocalAddresses elements (Some demo_interfaces)) ↔
     ∃ p, Some (StorageIn p) ∈ demo_interfaces ∧ ip = ntohl (s_addr p) ∧ IsPublicIp ip = true) ∧
  LocalPublicAddresses (LocalAddresses elements (Some demo_interfaces)) = [0x08080808].
Proof.
  destruct (public_addresses_found elements demo_interfaces) as (H1 & H2 & _); [done|].
  split; [exact H1|]. split; [exact H2|]. vm_compute. reflexivity.
Defined.
