(* ===== verification/TcpConnection.v ===== *)
(** * TcpConnection: network/tcp_connection.h and tcp_connection.cpp

    A framed connection over a libevent [bufferevent].  The bufferevent is a
    parameter: the class [Bufferevent] gives its operations and
    [BuffereventOk] the documented behaviour the code relies on.

    A registered callback is a pair of functions on the state [S] of the
    application; what it does to the connection while it runs is a list of calls
    of the connection's interface ([cmd]).  A destroyed object is [Deleted]:
    any further use of it is [Err UseAfterFree]. *)

From S2P Require Import Prelude Bytes Wire Packer Unpacker Codec Packet Structs Addresses.

(** ** libevent *)

Definition BEV_EVENT_READING : Z := 1.
Definition BEV_EVENT_EOF : Z := 16.
Definition BEV_EVENT_ERROR : Z := 32.

(** A bufferevent [B] and the operations used on it; [input] and [output] are
    the bytes waiting to be read and to be sent. *)
Class Bufferevent (B : Type) := {
  input : B → bytes;
  output : B → bytes;
  evbuffer_get_length : B → Z;
  (* the first bytes of the input, at most n *)
  evbuffer_copyout : B → Z → bytes;
  (* the number of bytes read, the bytes, and what is left *)
  bufferevent_read : B → Z → Z * bytes * B;
  bufferevent_write : B → bytes → B;
  bufferevent_getfd : B → Z;
  bufferevent_setfd : B → Z → B;
  (* the event loop appends what the socket received *)
  receive : B → bytes → B;
}.

Class BuffereventOk (B : Type) `{Bufferevent B} : Prop := {
  get_length_ok : ∀ b, evbuffer_get_length b = Z.of_nat (length (input b));
  copyout_ok : ∀ b n, evbuffer_copyout b n = take (Z.to_nat n) (input b);
  read_ok : ∀ b n, 0 ≤ n ≤ Z.of_nat (length (input b)) →
    ∃ b', bufferevent_read b n = (n, take (Z.to_nat n) (input b), b') ∧
          input b' = drop (Z.to_nat n) (input b) ∧ output b' = output b;
  write_ok : ∀ b d, input (bufferevent_write b d) = input b ∧
                    output (bufferevent_write b d) = output b ++ d;
  receive_ok : ∀ b d, input (receive b d) = input b ++ d ∧ output (receive b d) = output b;
  setfd_ok : ∀ b fd, bufferevent_getfd (bufferevent_setfd b fd) = fd ∧
                     input (bufferevent_setfd b fd) = input b ∧
                     output (bufferevent_setfd b fd) = output b;
}.

Section connection.
Context {B : Type} `{Bufferevent B} {S : Type}.

(** What a callback may do with the connection that calls it. *)
Inductive cmd :=
  | CSendPacket (pack : Packer.Packer → result Packer.Packer)
  | CSendRawData (data : bytes)
  | CFlush
  | CCloseAndDestroy.

(** [TcpConnectionCallback]. *)
Record Callback := mkCallback {
  OnError : S → Z → S * list cmd;
  OnPacketReceived : S → Unpacker.Unpacker → Z → Z → result (S * list cmd);
}.

Record Conn := mkConn {
  mode_ : bool;                  (* kVerbose; only chooses what is logged *)
  is_in_processing_ : bool;
  bev_ : option B;
  callback_ : option Callback;
  remote_ : SocketAddress4;
  local_ : SocketAddress4;
}.

Inductive obj :=
  | Live (c : Conn)
  | Deleted.

Definition set_bev (b : option B) (c : Conn) : Conn :=
  mkConn (mode_ c) (is_in_processing_ c) b (callback_ c) (remote_ c) (local_ c).
Definition set_processing (v : bool) (c : Conn) : Conn :=
  mkConn (mode_ c) v (bev_ c) (callback_ c) (remote_ c) (local_ c).

(** [this->] on an object that may have been deleted. *)
Definition this (o : obj) : result Conn :=
  match o with Live c => Ok c | Deleted => Err UseAfterFree end.

Definition IsClosed (c : Conn) : bool :=
  match bev_ c with None => true | Some _ => false end.

(** [FillSocketAddress]: [getpeername] and [getsockname] may fail, and then the
    address stays as it was constructed (0, 0). *)
Definition FillSocketAddress (peer sock : option sockaddr_in) (c : Conn) : Conn :=
  let remote := match peer with Some a => SocketAddress4_of a | None => remote_ c end in
  let local := match sock with Some a => SocketAddress4_of a | None => local_ c end in
  mkConn (mode_ c) (is_in_processing_ c) (bev_ c) (callback_ c) remote local.

(** [TcpConnection(base, fd, mode)]: [new_bev] is what [bufferevent_socket_new]
    returns, used when the descriptor is not -1. *)
Definition Create_fd (new_bev : B) (fd : Z) (mode : bool) (peer sock : option sockaddr_in)
    : Conn :=
  let c := mkConn mode false None None (0, 0) (0, 0) in
  if fd =? -1 then c else FillSocketAddress peer sock (set_bev (Some new_bev) c).

(** [TcpConnection(base, bev, mode)]. *)
Definition Create_bev (bev : B) (mode : bool) (peer sock : option sockaddr_in) : Conn :=
  FillSocketAddress peer sock (mkConn mode false (Some bev) None (0, 0) (0, 0)).

Definition RegisterCallback (cb : option Callback) (c : Conn) : Conn :=
  mkConn (mode_ c) (is_in_processing_ c) (bev_ c) cb (remote_ c) (local_ c).

Definition GetRemoteAddress2 (c : Conn) : SocketAddress4 := remote_ c.
Definition GetLocalAddress2 (c : Conn) : SocketAddress4 := local_ c.
Definition GetRemoteAddress (c : Conn) : sockaddr_in := SocketAddress4_sockaddr (remote_ c).
Definition GetLocalAddress (c : Conn) : sockaddr_in := SocketAddress4_sockaddr (local_ c).

(** [Close] frees the bufferevent; [Destroy] deletes the object, whose
    destructor closes. *)
Definition Close (c : Conn) : Conn := set_bev None c.
Definition Destroy (c : Conn) : obj := Deleted.

Definition CloseAndDestroy (o : obj) : result obj :=
  c ← this o;
  let c := Close c in
  if is_in_processing_ c then Ok (Live c) else Ok (Destroy c).

Definition SendPacket (pack : Packer.Packer → result Packer.Packer) (o : obj) : result obj :=
  c ← this o;
  match bev_ c with
  | None => Ok (Live c)
  | Some bev =>
      pk ← pack (Packer.make Packer.kDefaultSize);
      data ← Packer.peek (Packer.Buffer pk) (Packer.Length pk) pk;
      Ok (Live (set_bev (Some (bufferevent_write bev data)) c))
  end.

Definition SendRawData (data : bytes) (o : obj) : result obj :=
  c ← this o;
  match bev_ c with
  | None => Ok (Live c)
  | Some bev => Ok (Live (set_bev (Some (bufferevent_write bev data)) c))
  end.

(** [Detach]: the descriptor, which the bufferevent no longer owns. *)
Definition Detach (o : obj) : result (Z * obj) :=
  c ← this o;
  match bev_ c with
  | None => Ok (-1, Live c)
  | Some bev =>
      let fd := bufferevent_getfd bev in
      Ok (fd, Live (set_bev (Some (bufferevent_setfd bev (-1))) c))
  end.

(** [EnableTcpNoDelay]: the call of [setsockopt] is commented out. *)
Definition EnableTcpNoDelay (o : obj) : result bool :=
  c ← this o;
  match bev_ c with
  | None => Ok false
  | Some bev => Ok (negb (bufferevent_getfd bev <? 0))
  end.

(** [bufferevent_flush] only hurries the data that is already queued. *)
Definition Flush (o : obj) : result obj := c ← this o; Ok (Live c).

Definition run_cmd (o : obj) (k : cmd) : result obj :=
  match k with
  | CSendPacket pack => SendPacket pack o
  | CSendRawData data => SendRawData data o
  | CFlush => Flush o
  | CCloseAndDestroy => CloseAndDestroy o
  end.

Fixpoint run_cmds (o : obj) (ks : list cmd) : result obj :=
  match ks with
  | [] => Ok o
  | k :: ks => o ← run_cmd o k; run_cmds o ks
  end.

Definition kMinPacketLen : Z := 6.

(** The length announced by the first bytes of the input. *)
Definition peek_length (bev : B) : Z :=
  let lower := le_val (evbuffer_copyout bev 2) in
  if 0x8000 <=? lower then
    let value := Z.land (le_val (evbuffer_copyout bev 4)) 0xFFFFFF in
    u32 (Z.land lower 0x7FFF + u32 (Z.shiftl (Z.shiftr value 16) 15))
  else lower.

(** What the loop body does with a complete packet. *)
Definition dispatch (s : S) (c : Conn) (packet : bytes) (packet_length : Z)
    : result (S * obj) :=
  p ← Unpacker.make packet packet_length false;
  '(server_type, p) ← Unpacker.PopUint16 p;
  '(uri, p) ← Unpacker.PopUint16 p;
  p ← Unpacker.Rewind p;
  match callback_ c with
  | None => Ok (s, Live c)
  | Some cb =>
      '(s, ks) ← OnPacketReceived cb s p server_type uri;
      o ← run_cmds (Live c) ks;
      Ok (s, o)
  end.

(** [if (callback_) callback_->OnError(this, events)]. *)
Definition report_error (s : S) (c : Conn) (events : Z) : result (S * obj) :=
  match callback_ c with
  | None => Ok (s, Live c)
  | Some cb =>
      let '(s, ks) := OnError cb s events in
      o ← run_cmds (Live c) ks;
      Ok (s, o)
  end.

(** The loop of [OnDataReady]; [None] when the fuel runs out. *)
Fixpoint data_loop (fuel : nat) (s : S) (o : obj) : option (result (S * obj)) :=
  match fuel with
  | O => None
  | Datatypes.S fuel =>
      match this o with
      | Err e => Some (Err e)
      | Ok c =>
          match bev_ c with
          | None => Some (Ok (s, o))
          | Some bev =>
              let length := evbuffer_get_length bev in
              if length <? kMinPacketLen then Some (Ok (s, o))
              else
                let packet_length := peek_length bev in
                if packet_length <? kMinPacketLen then
                  Some (report_error s c (Z.lor BEV_EVENT_ERROR BEV_EVENT_READING))
                else if length <? packet_length then Some (Ok (s, o))
                else
                  let '(read, buffer, bev) := bufferevent_read bev packet_length in
                  let c := set_bev (Some bev) c in
                  let buffer := resize (Z.to_nat packet_length) 0 buffer in
                  if read =? 2 ^ 64 - 1 then Some (Ok (s, Live c))
                  else
                    match dispatch s c buffer packet_length with
                    | Err e => Some (Err e)
                    | Ok (s, o) => data_loop fuel s o
                    end
          end
      end
  end.

(** [OnDataReady], from a read callback: the bufferevent is present. *)
Definition OnDataReady (fuel : nat) (s : S) (o : obj) : option (result (S * obj)) :=
  match this o with
  | Err e => Some (Err e)
  | Ok c =>
      match bev_ c with
      | None => Some (Err NullDeref)
      | Some _ =>
          match data_loop fuel s (Live (set_processing true c)) with
          | None => None
          | Some r => Some (
              '(s, o) ← r;
              c ← this o;
              let c := set_processing false c in
              if IsClosed c then Ok (s, Destroy c) else Ok (s, Live c))
          end
      end
  end.

(** [OnEvent]: errors and the end of the stream are reported. *)
Definition OnEvent (events : Z) (s : S) (o : obj) : result (S * obj) :=
  c ← this o;
  match bev_ c with
  | None => Err NullDeref
  | Some _ =>
      if negb (Z.land events (Z.lor BEV_EVENT_ERROR BEV_EVENT_EOF) =? 0)
      then report_error s c events
      else Ok (s, Live c)
  end.

(** ** The abstract connection

    What the peer of a connection can observe: the bytes written, and whether it
    was closed ([None]). *)

Definition abs_conn : Type := option bytes.

Definition abs_cmd (a : abs_conn) (k : cmd) : result abs_conn :=
  match a with
  | None => Ok None
  | Some out =>
      match k with
      | CSendPacket pack =>
          pk ← pack (Packer.make Packer.kDefaultSize);
          data ← Packer.peek (Packer.Buffer pk) (Packer.Length pk) pk;
          Ok (Some (out ++ data))
      | CSendRawData data => Ok (Some (out ++ data))
      | CFlush => Ok (Some out)
      | CCloseAndDestroy => Ok None
      end
  end.

Fixpoint abs_cmds (a : abs_conn) (ks : list cmd) : result abs_conn :=
  match ks with
  | [] => Ok a
  | k :: ks => a ← abs_cmd a k; abs_cmds a ks
  end.

(** The server type and the uri at the front of a body. *)
Definition body_server_type (body : bytes) : Z := le_val (take 2 body).
Definition body_uri (body : bytes) : Z := le_val (take 2 (drop 2 body)).

(** Delivering one packet to a callback. *)
Definition abs_deliver (cb : option Callback) (s : S) (a : abs_conn) (body : bytes)
    : result (S * abs_conn) :=
  match cb with
  | None => Ok (s, a)
  | Some cb =>
      '(s, ks) ← OnPacketReceived cb s (Unpacker.opened_unpacker false body)
                   (body_server_type body) (body_uri body);
      a ← abs_cmds a ks;
      Ok (s, a)
  end.

(** Delivering packets in order, until the connection is closed. *)
Fixpoint abs_run (cb : option Callback) (s : S) (a : abs_conn) (bodies : list bytes)
    : result (S * abs_conn) :=
  match a, bodies with
  | None, _ => Ok (s, a)
  | Some _, [] => Ok (s, a)
  | Some _, body :: bodies =>
      '(s, a) ← abs_deliver cb s a body; abs_run cb s a bodies
  end.

(** ** Refinement *)

Context `{!BuffereventOk B}.

(** [rel rest cb c a]: the concrete connection, whose input is [rest], shows
    what the abstract one says. *)
Definition rel (rest : bytes) (cb : option Callback) (c : Conn) (a : abs_conn) : Prop :=
  callback_ c = cb ∧ is_in_processing_ c = true ∧
  match bev_ c with
  | Some b => a = Some (output b) ∧ input b = rest
  | None => a = None
  end.

Lemma run_cmd_rel rest cb c a k a' :
  rel rest cb c a → abs_cmd a k = Ok a' →
  ∃ c', run_cmd (Live c) k = Ok (Live c') ∧ rel rest cb c' a'.
Proof.
  intros (Hcb & Hp & Hb) Ha. destruct (bev_ c) as [b|] eqn:Eb.
  - destruct Hb as [-> Hi]. destruct k as [pack|data| |]; simpl in *.
    + unfold SendPacket. simpl. rewrite Eb.
      apply bind_ok_inv in Ha as (pk & -> & Ha). rewrite bind_ok.
      apply bind_ok_inv in Ha as (data & -> & [= <-]). rewrite bind_ok.
      destruct (write_ok b data) as [H1 H2].
      eexists; split; [done|]. split_and!; try done. simpl. by rewrite H1, H2.
    + injection Ha as <-. unfold SendRawData. simpl. rewrite Eb.
      destruct (write_ok b data) as [H1 H2].
      eexists; split; [done|]. split_and!; try done. simpl. by rewrite H1, H2.
    + injection Ha as <-. exists c. split; [done|]. split_and!; try done. by rewrite Eb.
    + injection Ha as <-. unfold CloseAndDestroy. simpl. rewrite Hp.
      eexists; split; [done|]. done.
  - subst a. injection Ha as <-. destruct k; simpl;
      unfold SendPacket, SendRawData, Flush, CloseAndDestroy; simpl; rewrite ?Eb, ?Hp;
      eexists; (split; [done|]); split_and!; try done; by rewrite ?Eb.
Qed.

Lemma run_cmds_rel rest cb ks : ∀ c a a',
  rel rest cb c a → abs_cmds a ks = Ok a' →
  ∃ c', run_cmds (Live c) ks = Ok (Live c') ∧ rel rest cb c' a'.
Proof.
  induction ks as [|k ks IH]; intros c a a' Hr Ha; simpl in *.
  - injection Ha as <-. by exists c.
  - apply bind_ok_inv in Ha as (a1 & Ha1 & Ha).
    destruct (run_cmd_rel _ _ _ _ _ _ Hr Ha1) as (c1 & -> & Hr1).
    rewrite bind_ok. by apply (IH c1 a1).
Qed.

(** *** The header of a frame *)

Definition announced (i : bytes) : Z :=
  let lower := le_val (take 2 i) in
  if 0x8000 <=? lower then
    u32 (Z.land lower 0x7FFF +
         u32 (Z.shiftl (Z.shiftr (Z.land (le_val (take 4 i)) 0xFFFFFF) 16) 15))
  else lower.

Lemma peek_length_announced b : peek_length b = announced (input b).
Proof. unfold peek_length, announced. by rewrite !copyout_ok. Qed.

Lemma announced_prefix i j : take 4 i = take 4 j → announced i = announced j.
Proof.
  intros E. unfold announced. rewrite E.
  replace (take 2 i) with (take 2 (take 4 i)) by (by rewrite take_take).
  rewrite E, take_take. done.
Qed.

(** The bytes of a body that the callback interface needs: two 16-bit fields. *)
Definition body_ok (body : bytes) : Prop :=
  (4 ≤ length body)%nat ∧ bytes_ok body ∧ frame_len body < 2 ^ 23.

#[export] Instance body_ok_dec body : Decision (body_ok body).
Proof using. unfold body_ok. apply _. Defined.

Lemma long_announced v x : 2 ^ 15 ≤ v < 2 ^ 23 → 0 ≤ x →
  u32 (Z.land (v mod 2 ^ 15 + 2 ^ 15) 0x7FFF + u32 (Z.shiftl (Z.shiftr (Z.land
    (v mod 2 ^ 15 + 2 ^ 15 + 2 ^ 16 * (u8 (Z.shiftr v 15) + 2 ^ 8 * x)) 0xFFFFFF) 16) 15)) = v.
Proof.
  intros Hv Hx. pose proof (Z.mod_pos_bound v (2 ^ 15)). pose proof (u8_bound (Z.shiftr v 15)).
  set (lo := v mod 2 ^ 15 + 2 ^ 15). set (hi := u8 (Z.shiftr v 15)).
  change 0xFFFFFF with (2 ^ 24 - 1). rewrite land_low by lia.
  replace (lo + 2 ^ 16 * (hi + 2 ^ 8 * x)) with (lo + 2 ^ 16 * hi + x * 2 ^ 24) by lia.
  rewrite Z.mod_add, Z.mod_small by lia. rewrite Z.shiftr_div_pow2 by lia.
  rewrite (Z.mul_comm (2 ^ 16)), Z.div_add, Z.div_small, Z.add_0_l by lia.
  change 0x7FFF with (2 ^ 15 - 1). rewrite land_low by lia.
  rewrite Z.shiftl_mul_pow2 by lia. rewrite (u32_small (hi * 2 ^ 15)) by lia.
  replace (lo mod 2 ^ 15) with (v mod 2 ^ 15).
  - pose proof (long_parts v) as E. fold hi in E. rewrite (Z.mod_small v (2 ^ 23)) in E by lia.
    rewrite u32_small; lia.
  - unfold lo. replace (v mod 2 ^ 15 + 2 ^ 15) with (v mod 2 ^ 15 + 1 * 2 ^ 15) by lia.
    by rewrite Z.mod_add, Z.mod_mod by lia.
Qed.

Lemma announced_frame body rest :
  body_ok body → bytes_ok rest → announced (frame body ++ rest) = frame_len body.
Proof.
  intros (H4 & Hb & Hl) Hr. pose proof (frame_len_bound body).
  unfold frame. set (v := frame_len body) in *. unfold announced, var_enc.
  destruct (Z.ltb_spec v 0x8000) as [Hs|Hs].
  - rewrite <- app_assoc, take_app_le, take_ge by (by rewrite length_le_bytes).
    rewrite le_val_le_bytes_small by lia. by rewrite (proj2 (Z.leb_gt _ _)) by lia.
  - set (lo := le_bytes 2 (Z.lor _ _)). set (hi := u8 (Z.shiftr v 15)).
    assert (length lo = 2%nat) as Hlo by apply length_le_bytes.
    destruct body as [|x body]; [simpl in H4; lia|].
    rewrite <- !app_assoc, take_app_le, take_ge by (by rewrite Hlo).
    replace (take 4 (lo ++ [hi] ++ (x :: body) ++ rest)) with (lo ++ [hi; x])
      by (rewrite take_app_ge, Hlo by lia; done).
    rewrite le_val_app, Hlo. unfold lo. rewrite long_low.
    pose proof (Z.mod_pos_bound v (2 ^ 15)). rewrite (proj2 (Z.leb_le _ _)) by lia.
    apply Forall_cons_1 in Hb as [Hx _]. unfold is_byte in Hx.
    change (2 ^ (8 * Z.of_nat 2)) with (2 ^ 16).
    replace (le_val [hi; x]) with (hi + 2 ^ 8 * x) by (cbn [le_val]; lia).
    unfold hi. apply long_announced; lia.
Qed.

(** The bytes of a sequence of frames. *)
Definition stream (bodies : list bytes) : bytes := mjoin (frame <$> bodies).

Lemma stream_cons body bodies : stream (body :: bodies) = frame body ++ stream bodies.
Proof. reflexivity. Qed.

Lemma stream_app l k : stream (l ++ k) = stream l ++ stream k.
Proof. induction l as [|x l IH]; [done|]. cbn [app]. by rewrite !stream_cons, IH, app_assoc. Qed.

Lemma stream_ok bodies : Forall body_ok bodies → bytes_ok (stream bodies).
Proof.
  induction 1 as [|x l (_ & Hx & _) _ IH]; [constructor|]. rewrite stream_cons.
  apply Forall_app_2; [by apply frame_ok|done].
Qed.

(** An input that the loop cannot make progress on yet. *)
Definition stalled (i : bytes) : Prop :=
  Z.of_nat (length i) < kMinPacketLen ∨
  (kMinPacketLen ≤ announced i ∧ Z.of_nat (length i) < announced i).

(** Dispatching a frame is delivering its body. *)
Lemma dispatch_frame s c body :
  body_ok body →
  dispatch s c (frame body) (frame_len body) =
    match callback_ c with
    | None => Ok (s, Live c)
    | Some cb =>
        '(s, ks) ← OnPacketReceived cb s (Unpacker.opened_unpacker false body)
                     (body_server_type body) (body_uri body);
        o ← run_cmds (Live c) ks;
        Ok (s, o)
    end.
Proof.
  intros (H4 & Hb & Hl). unfold dispatch.
  rewrite Unpacker.make_frame, bind_ok by done.
  pose proof (Unpacker.opened_unpacker_opened false body Hl) as Ho.
  set (u := Unpacker.opened_unpacker false body) in *.
  pose proof Ho as (Hv & _).
  rewrite <- (take_drop 2 body) in Hv.
  destruct (Unpacker.PopUint16_view u _ _ Hv) as [E1 Hv1]; [rewrite length_take; lia|].
  rewrite E1, bind_ok. rewrite <- (take_drop 2 (drop 2 body)) in Hv1.
  destruct (Unpacker.PopUint16_view _ _ _ Hv1) as [E2 Hv2];
    [rewrite length_take, length_drop; lia|].
  rewrite E2, bind_ok.
  change (Unpacker.advance 2 (Unpacker.advance 2 u)) with (Unpacker.set_position
    (u32 (u32 (Unpacker.position_ u + 2) + 2)) u).
  rewrite (Unpacker.Rewind_opened u body _ Ho Hl), bind_ok. done.
Qed.

Lemma abs_closed cb s bodies : abs_run cb s None bodies = Ok (s, None).
Proof. by destruct bodies. Qed.

(** The loop on a run of frames and a stalled tail is the abstract run. *)
Lemma data_loop_frames cb tail bodies : ∀ fuel s c b s' a',
  Forall body_ok bodies → bytes_ok tail → stalled tail → (length bodies < fuel)%nat →
  callback_ c = cb → is_in_processing_ c = true → bev_ c = Some b →
  input b = stream bodies ++ tail →
  abs_run cb s (Some (output b)) bodies = Ok (s', a') →
  ∃ c' rest, data_loop fuel s (Live c) = Some (Ok (s', Live c')) ∧ rel rest cb c' a' ∧
    (a' ≠ None → rest = tail).
Proof.
  induction bodies as [|body bodies IH]; intros [|fuel] s c b s' a' Hok Htb Ht Hf Hcb Hp Hb Hi Ha;
    try (simpl in Hf; lia).
  - simpl in Ha. injection Ha as <- <-. simpl in Hi.
    exists c, tail. split; [|split; [|done]].
    + simpl. rewrite Hb, get_length_ok, Hi.
      destruct Ht as [Ht|[Ht1 Ht2]].
      * by rewrite (proj2 (Z.ltb_lt _ _)) by done.
      * case_match; [done|]. rewrite peek_length_announced, Hi.
        rewrite (proj2 (Z.ltb_ge _ _)) by done. by rewrite (proj2 (Z.ltb_lt _ _)) by done.
    + split_and!; try done. by rewrite Hb.
  - apply Forall_cons_1 in Hok as [Hbody Hok].
    assert (bytes_ok (stream bodies ++ tail)) as Hrest.
    { apply Forall_app_2; [by apply stream_ok|done]. }
    rewrite stream_cons, <- app_assoc in Hi.
    pose proof (announced_frame body _ Hbody Hrest) as Han.
    pose proof Hbody as (H4 & _ & Hl). pose proof (length_frame body) as Hfl.
    pose proof (frame_len_size body). pose proof (var_size_bound (frame_len body)).
    cbn [data_loop this]. rewrite Hb, get_length_ok, peek_length_announced, Hi, Han.
    rewrite length_app. unfold kMinPacketLen.
    rewrite (proj2 (Z.ltb_ge _ 6)) by lia. rewrite (proj2 (Z.ltb_ge _ 6)) by lia.
    rewrite (proj2 (Z.ltb_ge _ _)) by lia.
    destruct (read_ok b (frame_len body)) as (b1 & Hr & Hin & Hout).
    { rewrite Hi, length_app. lia. }
    rewrite Hr, Hi. rewrite take_app_length' by lia. cbv zeta. rewrite resize_all_alt by lia.
    rewrite Hi, drop_app_length' in Hin by lia.
    rewrite (proj2 (Z.eqb_neq _ _)) by lia.
    rewrite dispatch_frame by done. cbn [callback_ set_bev]. rewrite Hcb.
    simpl in Ha. apply bind_ok_inv in Ha as ([s1 a1] & Hd & Ha).
    set (c1 := set_bev (Some b1) c).
    assert (rel (stream bodies ++ tail) cb c1 (Some (output b))) as Hrel.
    { split_and!; try done. simpl. by rewrite Hout. }
    assert (∃ c2, match cb with
      | Some cb =>
        '(s, ks) ← OnPacketReceived cb s (Unpacker.opened_unpacker false body)
                     (body_server_type body) (body_uri body);
        o ← run_cmds (Live c1) ks; Ok (s, o)
      | None => Ok (s, Live c1) end = Ok (s1, Live c2) ∧
      rel (stream bodies ++ tail) cb c2 a1) as (c2 & -> & Hrel2).
    { unfold abs_deliver in Hd. destruct cb as [k|].
      - apply bind_ok_inv in Hd as ([s2 ks] & -> & Hd). rewrite bind_ok.
        apply bind_ok_inv in Hd as (a2 & Hc & [= <- <-]).
        destruct (run_cmds_rel _ _ _ _ _ _ Hrel Hc) as (c2 & -> & Hr2). rewrite bind_ok.
        by exists c2.
      - injection Hd as <- <-. by exists c1. }
    destruct Hrel2 as (Hcb2 & Hp2 & Hb2).
    destruct (bev_ c2) as [b2|] eqn:Eb2.
    + destruct Hb2 as [-> Hi2]. simpl in Hf. by apply (IH fuel s1 c2 b2); try lia.
    + subst a1. rewrite abs_closed in Ha. injection Ha as <- <-.
      destruct fuel as [|fuel]; [simpl in Hf; lia|]. simpl. rewrite Eb2.
      exists c2, tail. split; [done|]. split; [|done]. split_and!; try done. by rewrite Eb2.
Qed.

(** What is left of the connection when a callback from the event loop ends. *)
Definition settled (tail : bytes) (cb : option Callback) (a : abs_conn) (o : obj) : Prop :=
  match a with
  | None => o = Deleted
  | Some out => ∃ c b, o = Live c ∧ bev_ c = Some b ∧ output b = out ∧ input b = tail ∧
      callback_ c = cb ∧ is_in_processing_ c = false
  end.

Lemma OnDataReady_settled cb tail bodies fuel s c b s' a' :
  Forall body_ok bodies → bytes_ok tail → stalled tail → (length bodies < fuel)%nat →
  callback_ c = cb → bev_ c = Some b → input b = stream bodies ++ tail →
  abs_run cb s (Some (output b)) bodies = Ok (s', a') →
  ∃ o', OnDataReady fuel s (Live c) = Some (Ok (s', o')) ∧ settled tail cb a' o'.
Proof.
  intros Hok Htb Ht Hf Hcb Hb Hi Ha.
  destruct (data_loop_frames cb tail bodies fuel s (set_processing true c) b s' a')
    as (c' & rest & E & (Hcb' & Hp' & Hb') & Hrest); try done.
  unfold OnDataReady. cbn [this]. rewrite Hb, E.
  rewrite bind_ok. cbn [this]. rewrite bind_ok.
  unfold IsClosed. cbn [bev_ set_processing].
  destruct (bev_ c') as [b'|] eqn:Eb'.
  - destruct Hb' as [-> Hi']. eexists; split; [done|]. exists (set_processing false c'), b'.
    split_and!; try done. rewrite Hi'. by apply Hrest.
  - subst a'. by eexists.
Qed.

(** *** Any chunking *)

Lemma stalled_prefix t q i :
  t ++ q = i → Z.of_nat (length t) < announced i → kMinPacketLen ≤ announced i → stalled t.
Proof.
  intros <- Hl Hm. destruct (Z.ltb_spec (Z.of_nat (length t)) kMinPacketLen) as [|Hge];
    [by left|]. right. unfold kMinPacketLen in *.
  rewrite (announced_prefix t (t ++ q)); [done|].
  rewrite take_app_le; [done|lia].
Qed.

Lemma stream_split tail : bytes_ok tail → stalled tail →
  ∀ bodies p q, Forall body_ok bodies → p ++ q = stream bodies ++ tail →
  ∃ l k t, bodies = l ++ k ∧ p = stream l ++ t ∧ stalled t ∧ bytes_ok t ∧
           t ++ q = stream k ++ tail.
Proof.
  intros Htb Ht. induction bodies as [|body bodies IH]; intros p q Hok E.
  - simpl in E. exists [], [], p. split_and!; try done.
    + destruct Ht as [Ht|[H1 H2]].
      * left. apply (f_equal length) in E. rewrite length_app in E. lia.
      * apply (stalled_prefix p q tail); try done.
        apply (f_equal length) in E. rewrite length_app in E. lia.
    + rewrite <- E in Htb. by apply Forall_app in Htb as [? _].
  - pose proof (stream_ok _ Hok) as Hsb. apply Forall_cons_1 in Hok as [Hb Hok].
    assert (bytes_ok (stream bodies ++ tail)) as Hrb
      by (apply Forall_app_2; [by apply stream_ok|done]).
    pose proof (length_frame body) as Hfl. pose proof (frame_len_size body).
    pose proof (var_size_bound (frame_len body)). pose proof Hb as (H4 & _ & _).
    destruct (decide (length p < length (frame body))%nat) as [Hlt|Hge].
    + exists [], (body :: bodies), p. split_and!; try done.
      * apply (stalled_prefix p q (stream (body :: bodies) ++ tail)); [done|..];
          rewrite stream_cons, <- app_assoc, announced_frame by done;
          unfold kMinPacketLen; lia.
      * assert (bytes_ok (p ++ q)) as Hpq by (rewrite E; by apply Forall_app_2).
        by apply Forall_app in Hpq as [? _].
    + rewrite stream_cons, <- app_assoc in E.
      assert (p = frame body ++ drop (length (frame body)) p) as Hp.
      { rewrite <- (take_drop (length (frame body)) p) at 1. f_equal.
        apply (f_equal (take (length (frame body)))) in E.
        rewrite take_app_le, take_app_length in E by lia. done. }
      rewrite Hp, <- app_assoc in E. apply app_inv_head in E.
      destruct (IH _ _ Hok E) as (l & k & t & -> & Hpl & Hst & Htt & Hq).
      exists (body :: l), k, t. split_and!; try done.
      rewrite Hp, Hpl, stream_cons. by rewrite app_assoc.
Qed.

(** The event loop: a chunk arrives, the read callback runs; nothing happens any
    more once the connection is gone. *)
Fixpoint run_chunks (fuel : nat) (s : S) (o : obj) (chunks : list bytes)
    : option (result (S * obj)) :=
  match chunks with
  | [] => Some (Ok (s, o))
  | d :: chunks =>
      match o with
      | Deleted => Some (Ok (s, o))
      | Live c =>
          match bev_ c with
          | None => Some (Ok (s, o))
          | Some b =>
              match OnDataReady fuel s (Live (set_bev (Some (receive b d)) c)) with
              | Some (Ok (s, o)) => run_chunks fuel s o chunks
              | r => r
              end
          end
      end
  end.

Lemma abs_run_app cb l k : ∀ s a s' a',
  abs_run cb s a (l ++ k) = Ok (s', a') →
  ∃ s1 a1, abs_run cb s a l = Ok (s1, a1) ∧ abs_run cb s1 a1 k = Ok (s', a').
Proof.
  induction l as [|x l IH]; intros s [out|] s' a' E; simpl in E.
  - by exists s, (Some out).
  - exists s, None. split; [done|]. by rewrite abs_closed in E |- *.
  - apply bind_ok_inv in E as ([s1 a1] & E1 & E). simpl. rewrite E1, bind_ok.
    destruct (IH _ _ _ _ E) as (s2 & a2 & E2 & E3). eauto.
  - injection E as <- <-. exists s, None. split; [done|]. by rewrite abs_closed.
Qed.

Lemma run_chunks_deleted fuel s chunks : run_chunks fuel s Deleted chunks = Some (Ok (s, Deleted)).
Proof. by destruct chunks. Qed.

Lemma run_chunks_settled cb tail chunks : bytes_ok tail → stalled tail →
  ∀ bodies fuel s c b s' a',
  Forall body_ok bodies → (length bodies < fuel)%nat →
  callback_ c = cb → is_in_processing_ c = false → bev_ c = Some b → stalled (input b) →
  input b ++ mjoin chunks = stream bodies ++ tail →
  abs_run cb s (Some (output b)) bodies = Ok (s', a') →
  ∃ o', run_chunks fuel s (Live c) chunks = Some (Ok (s', o')) ∧ settled tail cb a' o'.
Proof.
  intros Htb Ht. induction chunks as [|d chunks IH];
    intros bodies fuel s c b s' a' Hok Hf Hcb Hp Hb Hst E Ha.
  - simpl in E. rewrite app_nil_r in E. destruct bodies as [|body bodies].
    + simpl in *. injection Ha as <- <-. eexists; split; [done|].
      exists c, b. by split_and!.
    + exfalso. pose proof (stream_ok _ Hok) as Hsb. apply Forall_cons_1 in Hok as [Hbo Hok].
      assert (bytes_ok (stream bodies ++ tail)) as Hrb
        by (apply Forall_app_2; [by apply stream_ok|done]).
      pose proof (length_frame body) as Hfl. pose proof (frame_len_size body).
      pose proof (var_size_bound (frame_len body)). pose proof Hbo as (H4 & _ & _).
      rewrite E, stream_cons, <- app_assoc in Hst. unfold stalled in Hst.
      rewrite announced_frame, length_app in Hst by done. unfold kMinPacketLen in Hst. lia.
  - cbn [mjoin list_join] in E. rewrite app_assoc in E.
    destruct (stream_split tail Htb Ht bodies _ _ Hok E) as (l & k & t & -> & Hl & Hst' & Htt & Hk).
    apply Forall_app in Hok as [Hol Hok]. rewrite length_app in Hf.
    destruct (abs_run_app _ _ _ _ _ _ _ Ha) as (s1 & a1 & Hal & Hak).
    destruct (receive_ok b d) as [Hin Hout].
    destruct (OnDataReady_settled cb t l fuel s (set_bev (Some (receive b d)) c)
      (receive b d) s1 a1) as (o1 & E1 & Hs1); try done; try lia.
    { by rewrite Hin, Hl. }
    { by rewrite Hout. }
    cbn [run_chunks]. rewrite Hb, E1. destruct a1 as [out|].
    + destruct Hs1 as (c1 & b1 & -> & Hb1 & Ho1 & Hi1 & Hcb1 & Hp1).
      apply (IH k fuel s1 c1 b1); try done; try lia; [by rewrite Hi1| |by rewrite Ho1].
      by rewrite Hi1.
    + simpl in Hs1. subst o1. rewrite abs_closed in Hak. injection Hak as <- <-.
      rewrite run_chunks_deleted. by eexists.
Qed.

(** ** Termination

    Every iteration of the loop reads at least six bytes, and no callback adds
    to the input. *)

Definition pending (o : obj) : nat :=
  match o with
  | Live c => match bev_ c with Some b => length (input b) | None => 0 end
  | Deleted => 0
  end.

Lemma run_cmds_pending ks : ∀ o o', run_cmds o ks = Ok o' → (pending o' ≤ pending o)%nat.
Proof using All.
  induction ks as [|k ks IH]; intros o o' E; simpl in E; [by injection E as ->|].
  apply bind_ok_inv in E as (o1 & E1 & E). etrans; [by apply IH|]. clear E IH.
  destruct o as [c|]; [|by destruct k].
  destruct k; simpl in E1; unfold SendPacket, SendRawData, Flush, CloseAndDestroy in E1;
    simpl in E1; simpl; destruct (bev_ c) as [b|] eqn:Eb;
    repeat match goal with
    | H : _ ≫= _ = Ok _ |- _ => apply bind_ok_inv in H as (? & ? & H)
    | H : (if ?x then _ else _) = Ok _ |- _ => destruct x
    | H : Ok _ = Ok _ |- _ => injection H as <-
    end; simpl; rewrite ?Eb; try lia;
    match goal with |- context [bufferevent_write ?b ?d] =>
      destruct (write_ok b d) as [-> _] end; lia.
Qed.

Lemma callback_pending c s p st uri s' o' cb :
  ('(s, ks) ← OnPacketReceived cb s p st uri; o ← run_cmds (Live c) ks; Ok (s, o)) =
    Ok (s', o') → (pending o' ≤ pending (Live c))%nat.
Proof using All.
  intros ([s1 ks] & _ & E)%bind_ok_inv. apply bind_ok_inv in E as (o & E & [= <- <-]).
  by eapply run_cmds_pending.
Qed.

Lemma dispatch_pending c s packet n s' o' :
  dispatch s c packet n = Ok (s', o') → (pending o' ≤ pending (Live c))%nat.
Proof using All.
  unfold dispatch. intros E.
  apply bind_ok_inv in E as (p & _ & E). apply bind_ok_inv in E as ([st p1] & _ & E).
  apply bind_ok_inv in E as ([uri p2] & _ & E). apply bind_ok_inv in E as (p3 & _ & E).
  destruct (callback_ c); [by eapply callback_pending|]. by injection E as <- <-.
Qed.

Lemma data_loop_total fuel : ∀ s o, (pending o < fuel)%nat → data_loop fuel s o ≠ None.
Proof using All.
  induction fuel as [|fuel IH]; intros s o Hf; [lia|]. simpl.
  destruct o as [c|]; [|done]. simpl. destruct (bev_ c) as [b|] eqn:Eb; [|done].
  simpl in Hf. rewrite Eb in Hf. rewrite get_length_ok. unfold kMinPacketLen.
  destruct (Z.ltb_spec (Z.of_nat (length (input b))) 6); [done|].
  destruct (Z.ltb_spec (peek_length b) 6); [done|].
  destruct (Z.ltb_spec (Z.of_nat (length (input b))) (peek_length b)); [done|].
  destruct (read_ok b (peek_length b)) as (b1 & -> & Hin & _); [lia|]. cbv zeta.
  destruct (_ =? _); [done|].
  destruct (dispatch _ _ _ _) as [[s1 o1]|] eqn:Ed; [|done].
  apply IH. apply dispatch_pending in Ed. simpl in Ed. rewrite Hin, length_drop in Ed. lia.
Qed.

(** ** Deferred destruction *)

Definition not_freed {A} (r : result A) : Prop := r ≠ Err UseAfterFree.

Lemma not_freed_err {A C} e : not_freed (Err e : result A) → not_freed (Err e : result C).
Proof using. unfold not_freed. congruence. Qed.

Lemma not_freed_ok {A} (a : A) : not_freed (Ok a).
Proof using. discriminate. Qed.

Lemma not_freed_bind {A C} (m : result A) (f : A → result C) :
  not_freed m → (∀ a, m = Ok a → not_freed (f a)) → not_freed (m ≫= f).
Proof using. destruct m; simpl; [auto|]. unfold not_freed. congruence. Qed.

(** The packing functions a callback hands over do not touch freed memory. *)
Definition cmd_ok (k : cmd) : Prop :=
  match k with CSendPacket pack => ∀ p, not_freed (pack p) | _ => True end.
Definition callback_ok (cb : Callback) : Prop :=
  (∀ s p st uri, not_freed (OnPacketReceived cb s p st uri) ∧
     ∀ s' ks, OnPacketReceived cb s p st uri = Ok (s', ks) → Forall cmd_ok ks) ∧
  (∀ s events, Forall cmd_ok (snd (OnError cb s events))).

Lemma peek_not_freed pos n p : not_freed (Packer.peek pos n p).
Proof using.
  unfold Packer.peek, Packer.deref, read_at, not_freed. destruct (Packer.mem_ p); simpl; [|done].
  case_decide; simpl; [|done]. by case_match.
Qed.

(** While the connection processes input, no call deletes it. *)
Lemma run_cmds_live ks : ∀ c, Forall cmd_ok ks → is_in_processing_ c = true →
  (∃ c', run_cmds (Live c) ks = Ok (Live c') ∧ is_in_processing_ c' = true ∧
     callback_ c' = callback_ c) ∨
  (∃ e, run_cmds (Live c) ks = Err e ∧ e ≠ UseAfterFree).
Proof using.
  induction ks as [|k ks IH]; intros c Hk Hp; [left; by exists c|].
  apply Forall_cons_1 in Hk as [Hk Hks]. cbn [run_cmds].
  assert ((∃ c', run_cmd (Live c) k = Ok (Live c') ∧ is_in_processing_ c' = true ∧
             callback_ c' = callback_ c) ∨
          (∃ e, run_cmd (Live c) k = Err e ∧ e ≠ UseAfterFree)) as [(c1 & E & Hp1 & Hc1)|(e & E & He)].
  { destruct k as [pack|data| |]; simpl; unfold SendPacket, SendRawData, Flush,
      CloseAndDestroy; simpl; rewrite ?Hp; [destruct (bev_ c) as [b|]|destruct (bev_ c)| |];
      try (left; eexists; split; [done|done]).
    specialize (Hk (Packer.make Packer.kDefaultSize)). unfold not_freed in Hk.
    destruct (pack _) as [pk|e]; [|right; exists e; split; [done|congruence]]. simpl.
    pose proof (peek_not_freed (Packer.Buffer pk) (Packer.Length pk) pk) as Hpk.
    destruct (Packer.peek _ _ _) as [d|e]; [left; by eexists|].
    right. exists e. split; [done|]. unfold not_freed in Hpk. congruence. }
  - rewrite E, bind_ok. rewrite <- Hc1. by apply IH.
  - right. exists e. by rewrite E.
Qed.

Lemma Unpacker_not_freed :
  (∀ b n c, not_freed (Unpacker.make b n c)) ∧ (∀ u, not_freed (Unpacker.PopUint16 u)) ∧
  (∀ u, not_freed (Unpacker.Rewind u)).
Proof using.
  assert (∀ pos n u, not_freed (Unpacker.fetch pos n u)) as Hr.
  { intros. unfold Unpacker.fetch, read_at, not_freed. by case_decide. }
  assert (∀ u, not_freed (Unpacker.PopVariableUint32 u)) as HV.
  { intros u. unfold Unpacker.PopVariableUint32. apply not_freed_bind; [apply Hr|].
    intros lo _. cbv zeta. destruct (_ <? _); [apply not_freed_ok|].
    apply not_freed_bind; [apply Hr|]. intros hi _. apply not_freed_ok. }
  split_and!.
  - intros b n c. unfold Unpacker.make, Unpacker.Initialize. apply not_freed_bind.
    + destruct (Unpacker.copy_ _); [|apply not_freed_ok]. apply not_freed_bind.
      * unfold read_at, not_freed. by case_decide.
      * intros t _. apply not_freed_ok.
    + intros u _. apply not_freed_bind; [done|]. intros [] _. apply not_freed_ok.
  - intros u. unfold Unpacker.PopUint16. cbv zeta. apply not_freed_bind; [apply Hr|].
    intros bs _. apply not_freed_ok.
  - intros u. unfold Unpacker.Rewind. apply not_freed_bind; [done|].
    intros [] _. apply not_freed_ok.
Qed.

Lemma callback_live (s : S) c cb p st uri :
  callback_ok cb → callback_ c = Some cb → is_in_processing_ c = true →
  let r := '(s, ks) ← OnPacketReceived cb s p st uri; o ← run_cmds (Live c) ks; Ok (s, o) in
  not_freed r ∧ ∀ s' o', r = Ok (s', o') → ∃ c', o' = Live c' ∧
    is_in_processing_ c' = true ∧ callback_ c' = Some cb.
Proof using.
  intros [Hcb _] Hc Hp. destruct (Hcb s p st uri) as [Hn Hks].
  destruct (OnPacketReceived cb s p st uri) as [[s1 ks]|e]; simpl; [|split; [by eapply not_freed_err|discriminate]].
  destruct (run_cmds_live ks c (Hks s1 ks eq_refl) Hp) as [(c1 & -> & H1 & H2)|(e & -> & He)];
    simpl; [|split; [unfold not_freed; congruence|discriminate]].
  split; [done|]. intros ? ? [= <- <-]. exists c1. by rewrite H2.
Qed.

Lemma data_loop_live fuel : ∀ s c,
  is_in_processing_ c = true → (∀ cb, callback_ c = Some cb → callback_ok cb) →
  ∀ r, data_loop fuel s (Live c) = Some r →
  not_freed r ∧ ∀ s' o', r = Ok (s', o') → ∃ c', o' = Live c' ∧ is_in_processing_ c' = true.
Proof using.
  induction fuel as [|fuel IH]; intros s c Hp Hcb r E; [done|]. simpl in E.
  destruct (bev_ c) as [b|]; [|injection E as <-; split; [done|]; intros ? ? [= _ <-]; eauto].
  destruct (_ <? _); [injection E as <-; split; [done|]; intros ? ? [= _ <-]; eauto|].
  destruct (_ <? _).
  { injection E as <-. unfold report_error. destruct (callback_ c) as [cb|] eqn:Ec;
      [|split; [done|]; intros ? ? [= _ <-]; eauto].
    destruct (Hcb cb eq_refl) as [_ He]. specialize (He s (Z.lor BEV_EVENT_ERROR BEV_EVENT_READING)).
    destruct (OnError cb s _) as [s1 ks]. simpl in He.
    destruct (run_cmds_live ks c He Hp) as [(c1 & -> & H1 & _)|(e & -> & Hne)]; simpl.
    - split; [done|]. intros ? ? [= _ <-]. eauto.
    - split; [unfold not_freed; congruence|discriminate]. }
  destruct (_ <? _); [injection E as <-; split; [done|]; intros ? ? [= _ <-]; eauto|].
  destruct (bufferevent_read b _) as [[n d] b1].
  destruct (_ =? _); [injection E as <-; split; [done|]; intros ? ? [= _ <-]; by eexists|].
  assert (let r := dispatch s (set_bev (Some b1) c) (resize (Z.to_nat (peek_length b)) 0 d) (peek_length b) in
    not_freed r ∧ ∀ s' o', r = Ok (s', o') → ∃ c', o' = Live c' ∧
      is_in_processing_ c' = true ∧ callback_ c' = callback_ c) as [Hn Hl].
  { destruct Unpacker_not_freed as (U1 & U2 & U3). unfold dispatch. cbn [callback_ set_bev].
    specialize (U1 (resize (Z.to_nat (peek_length b)) 0 d) (peek_length b) false).
    destruct (Unpacker.make _ _ _) as [p|]; simpl; [|split; [by eapply not_freed_err|discriminate]].
    specialize (U2 p) as U2a. destruct (Unpacker.PopUint16 p) as [[st p1]|]; simpl;
      [|split; [by eapply not_freed_err|discriminate]].
    specialize (U2 p1). destruct (Unpacker.PopUint16 p1) as [[uri p2]|]; simpl;
      [|split; [by eapply not_freed_err|discriminate]].
    specialize (U3 p2). destruct (Unpacker.Rewind p2) as [p3|]; simpl;
      [|split; [by eapply not_freed_err|discriminate]].
    destruct (callback_ c) as [cb|] eqn:Ec.
    - by apply (callback_live s (set_bev (Some b1) c) cb p3 st uri (Hcb cb eq_refl)).
    - split; [done|]. intros ? ? [= _ <-]. by eexists. }
  destruct (dispatch _ _ _ _) as [[s1 o1]|e].
  - destruct (Hl s1 o1 eq_refl) as (c1 & -> & Hp1 & Hc1).
    apply (IH s1 c1); try done. intros cb Hcb1. apply Hcb. congruence.
  - injection E as <-. split; [done|discriminate].
Qed.

End connection.
Arguments Callback : clear implicits.
Arguments cmd : clear implicits.
Arguments Conn : clear implicits.
Arguments obj : clear implicits.

(** ** Properties *)

(** A bufferevent that is a pair of lists and a descriptor. *)
Record list_bev := mkListBev { lb_input : bytes; lb_output : bytes; lb_fd : Z }.

#[export] Instance list_bufferevent : Bufferevent list_bev := {|
  input := lb_input;
  output := lb_output;
  evbuffer_get_length b := Z.of_nat (length (lb_input b));
  evbuffer_copyout b n := take (Z.to_nat n) (lb_input b);
  bufferevent_read b n :=
    let d := take (Z.to_nat n) (lb_input b) in
    (Z.of_nat (length d), d,
     mkListBev (drop (Z.to_nat n) (lb_input b)) (lb_output b) (lb_fd b));
  bufferevent_write b d := mkListBev (lb_input b) (lb_output b ++ d) (lb_fd b);
  bufferevent_getfd := lb_fd;
  bufferevent_setfd b fd := mkListBev (lb_input b) (lb_output b) fd;
  receive b d := mkListBev (lb_input b ++ d) (lb_output b) (lb_fd b);
|}.

#[export] Instance list_bufferevent_ok : BuffereventOk list_bev.
Proof.
  split; try done. intros b n Hn. simpl in *.
  exists (mkListBev (drop (Z.to_nat n) (lb_input b)) (lb_output b) (lb_fd b)).
  split; [|done]. by rewrite length_take, Nat.min_l, Z2Nat.id by lia.
Qed.

(** A callback that counts the packets, echoes the uri as a raw byte, and closes
    on the uri 9 or on an error. *)
Definition echo : Callback Z :=
  mkCallback
    (λ n _, (n, [CCloseAndDestroy]))
    (λ n _ _ uri, Ok (n + 1, if uri =? 9 then [CCloseAndDestroy] else [CSendRawData [uri]])).

Definition echo_conn (i : bytes) : Conn list_bev Z :=
  RegisterCallback (Some echo) (Create_bev (mkListBev i [] 5) true None None).

Lemma echo_ok : callback_ok echo.
Proof.
  split; [|by repeat constructor]. intros s p st uri. split; [apply not_freed_ok|].
  intros s' ks [= _ <-]. by case_match; repeat constructor.
Qed.

(** C1: whatever the chunks in which the bytes of a sequence of frames arrive, the
    connection hands each packet to the registered callback exactly once and in
    order, with its server type and uri and an unpacker standing on its body; what
    the callbacks send is written in that order; an incomplete packet stays in the
    input; and once a callback has closed the connection, nothing further is
    delivered and the object is destroyed after the callback has returned. *)
Theorem frames_delivered_in_order {B S} `{BuffereventOk B}
    (cb : option (Callback S)) (c : Conn B S) (b : B) (s s' : S) a'
    (bodies chunks : list bytes) (tail : bytes) (fuel : nat)
    (Hcb : callback_ c = cb) (Hp : is_in_processing_ c = false)
    (Hb : bev_ c = Some b) (Hi : input b = [])
    (Hok : Forall body_ok bodies) (Htb : bytes_ok tail) (Ht : stalled tail)
    (Hfuel : (length bodies < fuel)%nat)
    (Hchunks : mjoin chunks = stream bodies ++ tail)
    (Habs : abs_run cb s (Some (output b)) bodies = Ok (s', a')) :
  ∃ o', run_chunks fuel s (Live c) chunks = Some (Ok (s', o')) ∧ settled tail cb a' o'.
Proof.
  apply (run_chunks_settled cb tail chunks Htb Ht bodies fuel s c b); try done.
  - rewrite Hi. by left.
  - by rewrite Hi.
Qed.

(** Two packets and the beginning of a third, cut inside the prefix of the first
    and inside the body of the second. *)
Lemma frames_delivered_in_order_witness :
  ∃ o', run_chunks 9 0 (Live (echo_conn []))
          [[6]; [0; 1; 0; 7]; [0; 7; 0; 1; 0]; [8; 0; 77; 12; 0; 1]] = Some (Ok (2, o')) ∧
        settled [12; 0; 1] (Some echo) (Some [7; 8]) o'.
Proof.
  apply (frames_delivered_in_order (Some echo) (echo_conn []) (mkListBev [] [] 5) 0 2 (Some [7; 8])
    [[1; 0; 7; 0]; [1; 0; 8; 0; 77]] _ [12; 0; 1] 9); try done.
  - by apply (bool_decide_unpack _).
  - by apply (bool_decide_unpack _).
  - by left.
  - simpl. lia.
Defined.

(** C17: the loop that takes packets out of the input terminates: with more fuel
    than bytes waiting, [OnDataReady] gives a result, whatever the callbacks do. *)
Theorem OnDataReady_terminates {B S} `{BuffereventOk B} (fuel : nat) (s : S) (c : Conn B S)
    (Hf : (pending (Live c) < fuel)%nat) :
  OnDataReady fuel s (Live c) ≠ None.
Proof.
  unfold OnDataReady. cbn [this]. destruct (bev_ c) eqn:Eb; [|done].
  pose proof (data_loop_total fuel s (Live (set_processing true c)) Hf).
  by destruct (data_loop _ _ _).
Qed.

Lemma OnDataReady_terminates_witness :
  OnDataReady 14 0 (Live (echo_conn [6; 0; 1; 0; 7; 0; 6; 0; 1; 0; 8; 0; 4])) ≠ None.
Proof. apply OnDataReady_terminates. vm_compute. lia. Defined.

(** C16: a callback may close the connection it is called from, any number of times,
    and go on using it: no call made by [OnDataReady] or after it touches the
    deleted object; when the callback returns to the event loop the object is
    either deleted or still open and no longer processing. *)
Theorem OnDataReady_defers_destruction {B S} `{Bufferevent B} (fuel : nat) (s : S)
    (c : Conn B S) r
    (Hcb : ∀ cb, callback_ c = Some cb → callback_ok cb)
    (Hr : OnDataReady fuel s (Live c) = Some r) :
  r ≠ Err UseAfterFree ∧
  ∀ s' o', r = Ok (s', o') → match o' with
    | Live c' => IsClosed c' = false ∧ is_in_processing_ c' = false
    | Deleted => True
    end.
Proof.
  unfold OnDataReady in Hr. cbn [this] in Hr.
  destruct (bev_ c); [|injection Hr as <-; by split].
  destruct (data_loop _ _ _) as [r1|] eqn:E; [|done]. injection Hr as <-.
  destruct (data_loop_live fuel s (set_processing true c) eq_refl Hcb _ E) as [Hn Hl].
  destruct r1 as [[s1 o1]|e]; cbn [mbind result_bind];
    [|split; [by eapply not_freed_err|discriminate]].
  destruct (Hl s1 o1 eq_refl) as (c1 & -> & _). cbn [this mbind result_bind].
  destruct (IsClosed (set_processing false c1)) eqn:Ec; (split; [discriminate|]);
    by intros ? ? [= _ <-].
Qed.

Lemma OnDataReady_defers_destruction_witness :
  let i := [6; 0; 1; 0; 7; 0; 6; 0; 1; 0; 9; 0; 6; 0; 1; 0; 7; 0] in
  OnDataReady 9 0 (Live (echo_conn i)) = Some (Ok (2, Deleted)) ∧
  Ok (2, @Deleted list_bev Z) ≠ Err UseAfterFree.
Proof.
  assert (OnDataReady 9 0 (Live (echo_conn
    [6; 0; 1; 0; 7; 0; 6; 0; 1; 0; 9; 0; 6; 0; 1; 0; 7; 0])) = Some (Ok (2, Deleted))) as E
    by (by vm_compute).
  split; [exact E|].
  refine (proj1 (OnDataReady_defers_destruction _ _ _ _ _ E)).
  intros cb [= <-]. exact echo_ok.
Defined.

(** a prefix announcing less than the smallest packet is reported as an error
    of reading and ends the loop; what the callback then does to the connection
    takes effect, and the malformed bytes stay in the input. *)
Theorem malformed_length_reported {B S} `{BuffereventOk B} (fuel : nat)
    (cb : Callback S) (c : Conn B S) (b : B) (s s' : S) ks a'
    (Hcb : callback_ c = Some cb) (Hb : bev_ c = Some b)
    (Hlen : kMinPacketLen ≤ Z.of_nat (length (input b)))
    (Hann : announced (input b) < kMinPacketLen)
    (Herr : OnError cb s (Z.lor BEV_EVENT_ERROR BEV_EVENT_READING) = (s', ks))
    (Habs : abs_cmds (Some (output b)) ks = Ok a') :
  ∃ o', OnDataReady (Datatypes.S fuel) s (Live c) = Some (Ok (s', o')) ∧
        settled (input b) (Some cb) a' o'.
Proof.
  unfold OnDataReady. cbn [this]. rewrite Hb. cbn [data_loop this].
  cbn [bev_ set_processing]. rewrite Hb, get_length_ok, peek_length_announced.
  rewrite (proj2 (Z.ltb_ge _ _)) by done. rewrite (proj2 (Z.ltb_lt _ _)) by done.
  unfold report_error. cbn [callback_ set_processing]. rewrite Hcb, Herr.
  destruct (run_cmds_rel (input b) (Some cb) ks (set_processing true c) (Some (output b)) a')
    as (c' & -> & Hcb' & Hp' & Hb'); [|done|].
  { split_and!; try done. simpl. by rewrite Hb. }
  cbn [mbind result_bind this]. unfold IsClosed. cbn [bev_ set_processing].
  destruct (bev_ c') as [b'|] eqn:Eb'.
  - destruct Hb' as [-> Hi']. eexists; split; [done|]. exists (set_processing false c'), b'.
    by split_and!.
  - subst a'. by eexists.
Qed.

Lemma malformed_length_reported_witness :
  ∃ o', OnDataReady 3 0 (Live (echo_conn [5; 0; 1; 0; 7; 0])) = Some (Ok (0, o')) ∧
        settled [5; 0; 1; 0; 7; 0] (Some echo) None o'.
Proof.
  apply (malformed_length_reported 2 echo _ (mkListBev [5; 0; 1; 0; 7; 0] [] 5) 0 0
    [CCloseAndDestroy] None); try done; vm_compute; congruence.
Defined.

(** the smallest packet length that is accepted, six, is one byte short when
    the length is written with the three-byte prefix: after the prefix only three
    bytes are left for the server type and the uri, and reading the uri runs past
    the end of the packet. *)
Theorem six_byte_long_prefix_faults {B S} `{BuffereventOk B} (fuel : nat) (s : S)
    (c : Conn B S) (b : B) (x y z : Z) (rest : bytes)
    (Hb : bev_ c = Some b) (Hi : input b = [6; 128; 0; x; y; z] ++ rest)
    (Hx : is_byte x) :
  OnDataReady (Datatypes.S fuel) s (Live c) = Some (Err OutOfBounds).
Proof.
  assert (announced (input b) = 6) as Ha.
  { rewrite Hi. unfold announced. cbn [take app le_val]. unfold is_byte in Hx.
    change (0x8000 <=? _) with true. cbv iota.
    replace (Z.land _ 0xFFFFFF) with 0x8006; [done|].
    change 0xFFFFFF with (2 ^ 24 - 1). rewrite land_low by lia.
    replace (6 + 256 * (128 + 256 * (0 + 256 * (x + 256 * 0))))
      with (0x8006 + x * 2 ^ 24) by lia.
    by rewrite Z.mod_add. }
  unfold OnDataReady. cbn [this]. rewrite Hb. cbn [data_loop this].
  cbn [bev_ set_processing]. rewrite Hb, get_length_ok, peek_length_announced, Ha.
  assert (6 ≤ Z.of_nat (length (input b))) as Hl by (rewrite Hi, length_app; simpl; lia).
  unfold kMinPacketLen. rewrite (proj2 (Z.ltb_ge _ _)) by done.
  change (6 <? 6) with false. cbv iota.
  destruct (read_ok b 6) as (b1 & -> & _ & _); [lia|]. cbv zeta. rewrite Hi.
  reflexivity.
Qed.

Lemma six_byte_long_prefix_faults_witness :
  OnDataReady 9 0 (Live (echo_conn [6; 128; 0; 1; 0; 7])) = Some (Err OutOfBounds).
Proof.
  apply (six_byte_long_prefix_faults 8 0 _ (mkListBev [6; 128; 0; 1; 0; 7] [] 5) 1 0 7 []);
    try done.
Defined.
