(* ===== verification/TcpClient.v ===== *)
(** * TcpClient: network/tcp_client.h and tcp_client.cpp

    The keep-alive client: a connecting bufferevent ([pending_]), an established
    connection ([conn_]), and the timer that pings, detects silence and
    reconnects with a backoff.

    The bufferevents the client has created are numbered; [bevs] says for each
    whether it is alive, and what was written to it ([TcpConnection.abs_conn]:
    the client is modelled over the abstract specification of the connection,
    which [TcpConnection.frames_delivered_in_order] shows the connection to
    implement).  The clock is part of the state; what the system calls of a
    connection attempt answer is an argument ([attempt]). *)

From Stdlib Require Import SpecFloat.
From stdpp Require Import gmap.
From S2P Require Import Prelude Bytes Packer Unpacker Addresses TcpConnection.

(** ** Arithmetic of int32_t and float *)

Definition add32 (a b : Z) : result Z :=
  if bool_decide (- 2 ^ 31 ≤ a + b < 2 ^ 31) then Ok (a + b) else Err SignedOverflow.

Definition float := spec_float.

(** The conversion of an integer to [float], rounding to nearest even. *)
Definition float_of_int (z : Z) : float := binary_normalize 24 128 z 0 false.

(** The conversion of a [float] to [int32_t] truncates; a value that does not fit
    is undefined behaviour. *)
Definition int_of_float (f : float) : result Z :=
  match f with
  | S754_zero _ => Ok 0
  | S754_finite s m e =>
      let a := if 0 <=? e then Z.shiftl (Zpos m) e else Z.shiftr (Zpos m) (- e) in
      let v := if s then - a else a in
      if bool_decide (- 2 ^ 31 ≤ v < 2 ^ 31) then Ok v else Err FloatToIntOverflow
  | _ => Err FloatToIntOverflow
  end.

Definition float_one : float := float_of_int 1.

(** ** State *)

(* the anonymous enum *)
Definition kKeepAliveIntervalMs : Z := 3000.
Definition kReconnectTimeout : Z := 10.
Definition kShortConnectionInterval : Z := 60.
Definition kMaxTimeout : Z := 300.

Definition BEV_EVENT_CONNECTED : Z := 128.

(** The members; [timer_ms] is the interval of [timer_]. *)
Record Client := mkClient {
  addr_ : SocketAddress4;
  timer_ms : Z;
  local_port_ : Z;
  pending_ : option nat;
  conn_ : option nat;
  connecting_ : bool;
  stopped_ : bool;
  mptcp_enabled_ : bool;
  reconnect_timeout_ : Z;        (* int32_t, like the fields below *)
  last_try_ts_ : Z;
  next_try_ts_ : Z;
  backoff_ : float;
  next_try_interval_ : Z;
  last_active_ts_ : Z;
}.

Definition set_link (p c : option nat) (connecting : bool) (x : Client) : Client :=
  mkClient (addr_ x) (timer_ms x) (local_port_ x) p c connecting (stopped_ x)
    (mptcp_enabled_ x) (reconnect_timeout_ x) (last_try_ts_ x) (next_try_ts_ x)
    (backoff_ x) (next_try_interval_ x) (last_active_ts_ x).
Definition set_activity (try active : Z) (x : Client) : Client :=
  mkClient (addr_ x) (timer_ms x) (local_port_ x) (pending_ x) (conn_ x) (connecting_ x)
    (stopped_ x) (mptcp_enabled_ x) (reconnect_timeout_ x) try (next_try_ts_ x)
    (backoff_ x) (next_try_interval_ x) active.
Definition set_schedule (next interval : Z) (x : Client) : Client :=
  mkClient (addr_ x) (timer_ms x) (local_port_ x) (pending_ x) (conn_ x) (connecting_ x)
    (stopped_ x) (mptcp_enabled_ x) (reconnect_timeout_ x) (last_try_ts_ x) next
    (backoff_ x) interval (last_active_ts_ x).
Definition set_options (ms : Z) (mptcp : bool) (timeout : Z) (backoff : float)
    (x : Client) : Client :=
  mkClient (addr_ x) ms (local_port_ x) (pending_ x) (conn_ x) (connecting_ x)
    (stopped_ x) mptcp timeout (last_try_ts_ x) (next_try_ts_ x)
    backoff (next_try_interval_ x) (last_active_ts_ x).

(** The bufferevents created so far: [Some (Some out)] is alive, with [out]
    written to it; [Some None] has been freed. *)
Record World := mkWorld {
  clock : Z;                     (* what TickInSeconds() answers *)
  next_id : nat;
  bevs : gmap nat abs_conn;
}.

(** What the system calls of one attempt to connect answer. *)
Record attempt := mkAttempt {
  socket_ok : bool;
  nonblocking_ok : bool;
  bind_ok_ : bool;
  connect_ok : bool;
}.

(** ** Callbacks *)

(** What a callback may do with the client that calls it. *)
Inductive ccmd :=
  | KSendPacket (pack : Packer.Packer → result Packer.Packer)
  | KSendRawData (data : bytes)
  | KFlush
  | KClose
  | KSetPingInterval (seconds : Z)
  | KSetTimeout (seconds : Z)
  | KSetBackoff (b : float)
  | KEnableMptcp (enable : bool).

(** [TcpClientCallback], on the state [A] of its implementation. *)
Record ClientCallback (A : Type) := mkClientCallback {
  OnConnected : A → bool → A * list ccmd;       (* OnConnect *)
  OnReceived : A → Unpacker.Unpacker → Z → Z → result (A * list ccmd);
  OnSocketError : A → A * list ccmd;
  TimeToPing : A → A * list ccmd;
}.
Arguments mkClientCallback {A}.
Arguments OnConnected {A}.
Arguments OnReceived {A}.
Arguments OnSocketError {A}.
Arguments TimeToPing {A}.

Record State (A : Type) := mkState { client : Client; world : World; app : A }.
Arguments mkState {A}.
Arguments client {A}.
Arguments world {A}.
Arguments app {A}.

(** ** Operations on the client alone *)

(** [Init]; the constructors differ in how they give the address. *)
Definition Init (now : Z) (remote : SocketAddress4) (local_port : Z) : Client :=
  mkClient remote kKeepAliveIntervalMs local_port None None false false false
    kReconnectTimeout 0 0 float_one kReconnectTimeout now.

(** [TcpClient(base, ip, port, ...)]: ip and port in host order. *)
Definition Create_ip (now ip port local_port : Z) : Client :=
  Init now (htonl ip, htons port) local_port.

(** [TcpClient(base, const sockaddr_in &, ...)] and [TcpClient(base, const
    SocketAddress4 &, ...)].  The constructors that take an [EventLoop] are these on
    its event base. *)
Definition Create_sockaddr (now : Z) (remote : sockaddr_in) (local_port : Z) : Client :=
  Init now (SocketAddress4_of remote) local_port.
Definition Create_address (now : Z) (remote : SocketAddress4) (local_port : Z) : Client :=
  Init now remote local_port.

(** [TcpClient(base, const GeneralSocketAddress &, ...)]: only IPv4. *)
Definition Create_general (now : Z) (remote : GeneralSocketAddress) (local_port : Z)
    : result Client :=
  match version_ remote with
  | kIp4 => a ← to_SocketAddress4 remote; Ok (Init now a local_port)
  | _ => Err AssertFailed
  end.

Definition IsConnected (x : Client) : bool :=
  negb (connecting_ x) && bool_decide (is_Some (conn_ x)).

Definition GetRemoteAddress (x : Client) : sockaddr_in := SocketAddress4_sockaddr (addr_ x).
Definition GetRemoteAddress2 (x : Client) : SocketAddress4 := addr_ x.

Definition SetPingInterval (seconds : Z) (x : Client) : Client :=
  set_options (u32 (seconds * 1000)) (mptcp_enabled_ x) (reconnect_timeout_ x) (backoff_ x) x.
Definition SetTimeout (seconds : Z) (x : Client) : Client :=
  set_options (timer_ms x) (mptcp_enabled_ x) (i32 (Z.max 5 seconds)) (backoff_ x) x.
Definition SetBackoff (b : float) (x : Client) : Client :=
  set_options (timer_ms x) (mptcp_enabled_ x) (reconnect_timeout_ x) b x.
Definition EnableMptcp (enable : bool) (x : Client) : Client :=
  set_options (timer_ms x) enable (reconnect_timeout_ x) (backoff_ x) x.

(** [TurnOnMptcp]: what it answers is only logged. *)
Definition TurnOnMptcp (x : Client) : bool :=
  negb (bool_decide (is_Some (conn_ x)) || connecting_ x || bool_decide (is_Some (pending_ x))).

(** [std::min<int32_t>(kMaxTimeout, backoff_ * next_try_interval_)]: the product
    is a [float], converted back to [int32_t] for the comparison. *)
Definition next_interval (b : float) (interval : Z) : result Z :=
  v ← int_of_float (SFmul 24 128 b (float_of_int interval));
  Ok (Z.min kMaxTimeout v).

Definition ScheduleNextTry (cur_tick : Z) (x : Client) : result Client :=
  limit ← add32 (last_try_ts_ x) kShortConnectionInterval;
  if cur_tick <=? limit then
    next ← add32 cur_tick (next_try_interval_ x);
    interval ← next_interval (backoff_ x) (next_try_interval_ x);
    Ok (set_schedule next interval x)
  else
    Ok (set_schedule 0 (reconnect_timeout_ x) x).

(** ** Operations on bufferevents *)

(** [bufferevent_socket_new]. *)
Definition bev_new (w : World) : nat * World :=
  (next_id w, mkWorld (clock w) (S (next_id w)) (<[next_id w := Some []]> (bevs w))).

(** A call on a live connection or bufferevent: the abstract connection says what
    it does; a dangling pointer is a fault. *)
Definition bev_call (i : nat) (k : cmd) (w : World) : result World :=
  match bevs w !! i with
  | Some (Some out) =>
      a ← abs_cmd (Some out) k;
      Ok (mkWorld (clock w) (next_id w) (<[i := a]> (bevs w)))
  | _ => Err UseAfterFree
  end.

Definition bufferevent_free (i : nat) (w : World) : result World :=
  bev_call i CCloseAndDestroy w.

(** [GetLocalAddress2], [GetLocalAddress]: they need a connection.  [local_ i] is the
    [local_] member of the connection on bufferevent [i], which it fills in when it is
    created ([TcpConnection.FillSocketAddress]). *)
Definition GetLocalAddress2 (local_ : nat → SocketAddress4) (x : Client) (w : World)
    : result SocketAddress4 :=
  _ ← assert_ (bool_decide (is_Some (conn_ x)));
  match conn_ x with
  | Some c =>
      match bevs w !! c with Some (Some _) => Ok (local_ c) | _ => Err UseAfterFree end
  | None => Ok (0, 0)
  end.

Definition GetLocalAddress (local_ : nat → SocketAddress4) (x : Client) (w : World)
    : result sockaddr_in :=
  a ← GetLocalAddress2 local_ x w; Ok (SocketAddress4_sockaddr a).

Section operations.
Context {A : Type} (cb : ClientCallback A).

Definition set_client (x : Client) (s : State A) : State A := mkState x (world s) (app s).
Definition set_world (w : World) (s : State A) : State A := mkState (client s) w (app s).
Definition set_app (a : A) (s : State A) : State A := mkState (client s) (world s) a.

Definition Close (s : State A) : result (State A) :=
  let x := client s in
  match pending_ x with
  | Some p =>
      _ ← assert_ (bool_decide (conn_ x = None));
      w ← bufferevent_free p (world s);
      Ok (mkState (set_link None (conn_ x) false x) w (app s))
  | None =>
      _ ← assert_ (negb (connecting_ x));
      match conn_ x with
      | Some c =>
          w ← bev_call c CCloseAndDestroy (world s);
          Ok (mkState (set_link None None (connecting_ x) x) w (app s))
      | None => Ok s
      end
  end.

(** The calls that go to the connection, with what they answer. *)
Definition on_conn (k : cmd) (s : State A) : result (State A) :=
  match conn_ (client s) with
  | Some c => w ← bev_call c k (world s); Ok (set_world w s)
  | None => Err NullDeref
  end.

Definition SendRawData (data : bytes) (s : State A) : result (bool * State A) :=
  if IsConnected (client s) then s ← on_conn (CSendRawData data) s; Ok (true, s)
  else Ok (false, s).

Definition SendPacket (pack : Packer.Packer → result Packer.Packer) (s : State A)
    : result (bool * State A) :=
  if IsConnected (client s) then s ← on_conn (CSendPacket pack) s; Ok (true, s)
  else Ok (false, s).

Definition Flush (s : State A) : result (State A) :=
  match conn_ (client s) with Some _ => on_conn CFlush s | None => Ok s end.

Definition run_ccmd (s : State A) (k : ccmd) : result (State A) :=
  match k with
  | KSendPacket pack => '(_, s) ← SendPacket pack s; Ok s
  | KSendRawData data => '(_, s) ← SendRawData data s; Ok s
  | KFlush => Flush s
  | KClose => Close s
  | KSetPingInterval n => Ok (set_client (SetPingInterval n (client s)) s)
  | KSetTimeout n => Ok (set_client (SetTimeout n (client s)) s)
  | KSetBackoff b => Ok (set_client (SetBackoff b (client s)) s)
  | KEnableMptcp e => Ok (set_client (EnableMptcp e (client s)) s)
  end.

Fixpoint run_ccmds (s : State A) (ks : list ccmd) : result (State A) :=
  match ks with
  | [] => Ok s
  | k :: ks => s ← run_ccmd s k; run_ccmds s ks
  end.

(** A callback that cannot fail: its new state, then its calls. *)
Definition call_back (r : A * list ccmd) (s : State A) : result (State A) :=
  let '(a, ks) := r in run_ccmds (set_app a s) ks.

(** [OnConnect]. *)
Definition OnConnect (events : Z) (s : State A) : result (State A) :=
  let x := client s in
  p ← match pending_ x with Some p => Ok p | None => Err AssertFailed end;
  _ ← assert_ (bool_decide (conn_ x = None));
  _ ← assert_ (connecting_ x);
  let x := set_link (pending_ x) (conn_ x) false x in
  if negb (Z.land events BEV_EVENT_CONNECTED =? 0) then
    let s := set_client (set_link None (Some p) false x) s in
    call_back (OnConnected cb (app s) true) s
  else if negb (Z.land events BEV_EVENT_ERROR =? 0) then
    x ← ScheduleNextTry (clock (world s)) x;
    w ← bufferevent_free p (world s);
    let s := mkState (set_link None (conn_ x) (connecting_ x) x) w (app s) in
    call_back (OnConnected cb (app s) false) s
  else
    Ok (set_client (set_link None (conn_ x) false x) s).

(** [Connect].  When the connection fails at once, libevent calls the event
    callback before [bufferevent_socket_connect] returns. *)
Definition Connect (t : attempt) (s : State A) : result (bool * State A) :=
  if connecting_ (client s) then Ok (true, s)
  else
    let now := clock (world s) in
    let s := set_client (set_activity now now (client s)) s in
    s ← match conn_ (client s) with
        | Some c =>
            w ← bev_call c CCloseAndDestroy (world s);
            let x := client s in
            Ok (mkState (set_link (pending_ x) None (connecting_ x) x) w (app s))
        | None => Ok s
        end;
    if negb (socket_ok t) then Ok (false, s)
    else if negb (nonblocking_ok t) then Ok (false, s)
    else
      let '(p, w) := bev_new (world s) in
      let s := mkState (set_link (Some p) (conn_ (client s)) true (client s)) w (app s) in
      if negb (local_port_ (client s) =? 0) && negb (bind_ok_ t) then
        w ← bufferevent_free p (world s);
        Ok (false, mkState (set_link None (conn_ (client s)) false (client s)) w (app s))
      else if negb (connect_ok t) then
        s ← OnConnect BEV_EVENT_ERROR s;
        let x := client s in
        Ok (false, set_client (set_link (pending_ x) (conn_ x) false x) s)
      else Ok (true, s).

(** [OnError], called by the connection. *)
Definition OnError (c : nat) (s : State A) : result (State A) :=
  _ ← assert_ (bool_decide (conn_ (client s) = Some c));
  x ← ScheduleNextTry (clock (world s)) (client s);
  s ← Close (set_client x s);
  call_back (OnSocketError cb (app s)) s.

(** [OnPacketReceived], called by the connection. *)
Definition OnPacketReceived (c : nat) (u : Unpacker.Unpacker) (server_type uri : Z)
    (s : State A) : result (State A) :=
  _ ← assert_ (bool_decide (conn_ (client s) = Some c));
  let x := client s in
  let s := set_client (set_activity (last_try_ts_ x) (clock (world s)) x) s in
  r ← OnReceived cb (app s) u server_type uri;
  call_back r s.

(** The condition of [OnTimer]: connected, and nothing received for too long. *)
Definition silent (cur_tick : Z) (x : Client) : result bool :=
  if IsConnected x then
    due ← add32 (last_active_ts_ x) (reconnect_timeout_ x);
    Ok (due <? cur_tick)
  else Ok false.

(** [OnTimer]; the attempt is the one it may make. *)
Definition OnTimer (t : attempt) (s : State A) : result (State A) :=
  let cur_tick := clock (world s) in
  let x := client s in
  expired ← silent cur_tick x;
  if (expired : bool) then
    x ← ScheduleNextTry cur_tick x;
    Close (set_client x s)
  else if IsConnected x then
    call_back (TimeToPing cb (app s)) s
  else if negb (connecting_ x) && (next_try_ts_ x <=? cur_tick) then
    '(_, s) ← Connect t s; Ok s
  else Ok s.

(** The destructor closes. *)
Definition Destroy : State A → result (State A) := Close.

(** ** Events *)

(** What the event loop and the owner of the client do. *)
Inductive event :=
  | Tick (seconds : Z)                                   (* time passes *)
  | Timer (t : attempt)
  | Connecting (events : Z)                              (* of pending_ *)
  | SocketEvent                                          (* an error of conn_ *)
  | Packet (u : Unpacker.Unpacker) (server_type uri : Z) (* of conn_ *)
  | CallConnect (t : attempt)
  | Call (k : ccmd).

Definition step (s : State A) (e : event) : result (State A) :=
  match e with
  | Tick n =>
      let w := world s in
      Ok (set_world (mkWorld (clock w + n) (next_id w) (bevs w)) s)
  | Timer t => OnTimer t s
  | Connecting events => OnConnect events s
  | SocketEvent =>
      match conn_ (client s) with Some c => OnError c s | None => Err NullDeref end
  | Packet u st uri =>
      match conn_ (client s) with
      | Some c => OnPacketReceived c u st uri s
      | None => Err NullDeref
      end
  | CallConnect t => '(_, s) ← Connect t s; Ok s
  | Call k => run_ccmd s k
  end.

Fixpoint run (s : State A) (es : list event) : result (State A) :=
  match es with
  | [] => Ok s
  | e :: es => s ← step s e; run s es
  end.

End operations.

(** ** Invariants *)

(** The retry interval stays within [0, kMaxTimeout] under this backoff. *)
Definition backoff_fits (b : float) : bool :=
  forallb (λ n, match next_interval b (Z.of_nat n) with Ok v => 0 <=? v | Err _ => false end)
    (seq 0 301).

Lemma next_interval_fits b n :
  backoff_fits b = true → 0 ≤ n ≤ kMaxTimeout →
  ∃ v, next_interval b n = Ok v ∧ 0 ≤ v ≤ kMaxTimeout.
Proof.
  unfold backoff_fits, kMaxTimeout. intros Hb Hn. rewrite forallb_forall in Hb.
  specialize (Hb (Z.to_nat n)). rewrite Z2Nat.id in Hb by lia.
  assert (In (Z.to_nat n) (seq 0 301)) as Hin by (apply in_seq; lia).
  specialize (Hb Hin). destruct (next_interval b n) as [v|] eqn:E; [|done].
  exists v. split; [done|]. split; [lia|]. unfold next_interval in E.
  apply bind_ok_inv in E as (w & _ & [= <-]). unfold kMaxTimeout. lia.
Qed.

Definition timing (now : Z) (x : Client) : Prop :=
  0 ≤ now ∧ now + kMaxTimeout < 2 ^ 31 ∧ 0 ≤ last_try_ts_ x ≤ now ∧
  0 ≤ last_active_ts_ x ≤ now ∧ 5 ≤ reconnect_timeout_ x ≤ kMaxTimeout ∧
  0 ≤ next_try_interval_ x ≤ kMaxTimeout ∧ backoff_fits (backoff_ x) = true.

Definition alive (w : World) (i : nat) : Prop := ∃ out, bevs w !! i = Some (Some out).

Definition link_ok (x : Client) : Prop :=
  match pending_ x, conn_ x with
  | Some _, None => connecting_ x = true
  | None, _ => connecting_ x = false
  | Some _, Some _ => False
  end.

Definition fresh_ids (w : World) : Prop := ∀ i, (next_id w ≤ i)%nat → bevs w !! i = None.

(** The live bufferevents are exactly the ones the client points to. *)
Definition linked (x : Client) (w : World) : Prop :=
  link_ok x ∧ (∀ i, alive w i ↔ pending_ x = Some i ∨ conn_ x = Some i) ∧ fresh_ids w.

Definition inv {A} (s : State A) : Prop :=
  timing (clock (world s)) (client s) ∧ linked (client s) (world s).

Definition pack_data (pack : Packer.Packer → result Packer.Packer) : result bytes :=
  pk ← pack (Packer.make Packer.kDefaultSize);
  Packer.peek (Packer.Buffer pk) (Packer.Length pk) pk.

Definition cmd_sends (k : cmd) : Prop :=
  match k with
  | CSendPacket pack => is_ok (pack_data pack) = true
  | CCloseAndDestroy => False
  | _ => True
  end.

Definition ccmd_ok (k : ccmd) : Prop :=
  match k with
  | KSendPacket pack => is_ok (pack_data pack) = true
  | KSetTimeout n => 0 ≤ n ≤ kMaxTimeout
  | KSetBackoff b => backoff_fits b = true
  | _ => True
  end.

Definition client_callback_ok {A} (cb : ClientCallback A) : Prop :=
  (∀ a c, Forall ccmd_ok (snd (OnConnected cb a c))) ∧
  (∀ a u st uri a' ks, OnReceived cb a u st uri = Ok (a', ks) → Forall ccmd_ok ks) ∧
  (∀ a, Forall ccmd_ok (snd (OnSocketError cb a))) ∧
  (∀ a, Forall ccmd_ok (snd (TimeToPing cb a))).

(** What libevent and the owner may do in a state: an event of a bufferevent
    needs that bufferevent, a connecting one reports success or an error, the
    clock does not go backwards, and a packet is one the callback can parse. *)
Definition enabled {A} (cb : ClientCallback A) (s : State A) (e : event) : Prop :=
  match e with
  | Tick n => 0 ≤ n ∧ clock (world s) + n + kMaxTimeout < 2 ^ 31
  | Timer _ | CallConnect _ => True
  | Connecting ev => is_Some (pending_ (client s)) ∧
      (Z.land ev BEV_EVENT_CONNECTED ≠ 0 ∨ Z.land ev BEV_EVENT_ERROR ≠ 0)
  | SocketEvent => is_Some (conn_ (client s))
  | Packet u st uri => is_Some (conn_ (client s)) ∧ is_ok (OnReceived cb (app s) u st uri) = true
  | Call k => ccmd_ok k
  end.

Fixpoint enabled_run {A} (cb : ClientCallback A) (s : State A) (es : list event) : Prop :=
  match es with
  | [] => True
  | e :: es => enabled cb s e ∧ ∀ s', step cb s e = Ok s' → enabled_run cb s' es
  end.

#[export] Instance ccmd_ok_dec k : Decision (ccmd_ok k).
Proof. destruct k; unfold ccmd_ok; apply _. Defined.
#[export] Instance enabled_dec {A} (cb : ClientCallback A) s e : Decision (enabled cb s e).
Proof. destruct e; unfold enabled; apply _. Defined.

Fixpoint enabled_runb {A} (cb : ClientCallback A) (s : State A) (es : list event) : bool :=
  match es with
  | [] => true
  | e :: es => bool_decide (enabled cb s e) &&
      match step cb s e with Ok s' => enabled_runb cb s' es | Err _ => true end
  end.

Lemma enabled_runb_run {A} (cb : ClientCallback A) es : ∀ s,
  enabled_runb cb s es = true → enabled_run cb s es.
Proof.
  induction es as [|e es IH]; intros s; [done|]. cbn. intros [He Hes]%andb_prop.
  split; [by apply bool_decide_eq_true in He|]. intros s' E. rewrite E in Hes. auto.
Qed.

(** ** Bufferevents *)

Lemma alive_insert w i a j n :
  alive (mkWorld (clock w) n (<[i := a]> (bevs w))) j ↔
    (i = j ∧ is_Some a) ∨ (i ≠ j ∧ alive w j).
Proof.
  unfold alive. cbn [bevs]. destruct (decide (i = j)) as [->|Hne].
  - rewrite lookup_insert_eq. split; [intros [out [= ->]]; left; eauto|].
    intros [[_ [out ->]]|[? _]]; [eauto|done].
  - rewrite lookup_insert_ne by done. split; [eauto|]. by intros [[-> _]|[_ ?]].
Qed.

(** [touched w w']: the same clock and numbering, and no new bufferevent. *)
Definition touched (w w' : World) : Prop :=
  clock w' = clock w ∧ next_id w' = next_id w ∧ (fresh_ids w → fresh_ids w').

Lemma touched_insert w i a : alive w i → touched w (mkWorld (clock w) (next_id w) (<[i := a]> (bevs w))).
Proof.
  intros [out Hi]. split_and!; try done. intros Hf j Hj. cbn in *.
  rewrite lookup_insert_ne; [by apply Hf|]. intros <-. rewrite Hf in Hi; done.
Qed.

Lemma bev_close_ok i w : alive w i →
  ∃ w', bev_call i CCloseAndDestroy w = Ok w' ∧ touched w w' ∧
        ∀ j, alive w' j ↔ alive w j ∧ j ≠ i.
Proof.
  intros Ha. pose proof (touched_insert w i None Ha) as Ht. destruct Ha as [out Hi].
  unfold bev_call. rewrite Hi. eexists; split; [done|]. split; [done|].
  intros j. rewrite alive_insert. split.
  - intros [[_ []]|[? ?]]; done.
  - intros [? ?]. right. by split.
Qed.

Lemma bev_send_ok i k w : alive w i → cmd_sends k →
  ∃ w', bev_call i k w = Ok w' ∧ touched w w' ∧ ∀ j, alive w' j ↔ alive w j.
Proof.
  intros Ha Hk. assert (∃ out' out, bevs w !! i = Some (Some out) ∧
    abs_cmd (Some out) k = Ok (Some out')) as (out' & out & Hi & E).
  { destruct Ha as [out Hi]. destruct k as [pack|data| |]; try done; simpl in *; eauto.
    unfold pack_data in Hk. destruct (pack _) as [pk|]; [|done].
    cbn [mbind result_bind] in *. destruct (Packer.peek _ _ _); [|done]. simpl. eauto. }
  unfold bev_call. rewrite Hi, E. eexists; split; [done|]. split; [by apply touched_insert|].
  intros j. rewrite alive_insert. split.
  - by intros [[<- _]|[_ ?]].
  - intros Hj. destruct (decide (i = j)); [left; eauto|right; eauto].
Qed.

(** ** Every operation keeps the invariant *)

Lemma add32_ok a b : - 2 ^ 31 ≤ a + b < 2 ^ 31 → add32 a b = Ok (a + b).
Proof. intros. unfold add32. by rewrite bool_decide_true. Qed.

Lemma ScheduleNextTry_ok now x : timing now x →
  ∃ next interval, ScheduleNextTry now x = Ok (set_schedule next interval x) ∧
    timing now (set_schedule next interval x).
Proof.
  intros Ht. pose proof Ht as (H0 & H1 & H2 & H3 & H4 & H5 & H6).
  unfold kMaxTimeout in *. unfold ScheduleNextTry, kShortConnectionInterval.
  rewrite (add32_ok (last_try_ts_ x)), bind_ok by lia. destruct (_ <=? _).
  - rewrite add32_ok, bind_ok by lia.
    destruct (next_interval_fits (backoff_ x) (next_try_interval_ x) H6 H5) as (v & -> & Hv).
    rewrite bind_ok. do 2 eexists. split; [done|].
    split_and!; unfold kMaxTimeout in *; simpl; try lia; done.
  - do 2 eexists. split; [done|]. split_and!; unfold kMaxTimeout; simpl; try lia; done.
Qed.

Lemma linked_close x w i w' :
  linked x w → pending_ x = Some i ∨ conn_ x = Some i → touched w w' →
  (∀ j, alive w' j ↔ alive w j ∧ j ≠ i) → linked (set_link None None false x) w'.
Proof.
  intros (Hl & Ha & Hf) Hi (_ & _ & Ht) Hw. split; [done|]. split; [|by apply Ht].
  intros j. rewrite Hw, Ha. cbn [pending_ conn_ set_link]. split.
  - intros [Hj Hne]. exfalso. unfold link_ok in Hl.
    destruct (pending_ x), (conn_ x), Hi, Hj; congruence || done.
  - by intros [?|?].
Qed.

Lemma link_eta x : set_link (pending_ x) (conn_ x) (connecting_ x) x = x.
Proof. by destruct x. Qed.

Section invariants.
Context {A : Type} (cb : ClientCallback A).
Implicit Types s : State A.

Lemma Close_ok s : inv s →
  ∃ w', Close s = Ok (mkState (set_link None None false (client s)) w' (app s)) ∧
    clock w' = clock (world s) ∧
    inv (mkState (set_link None None false (client s)) w' (app s)).
Proof.
  intros [Ht Hl]. pose proof Hl as (Hk & Ha & Hf). unfold Close. unfold link_ok in Hk.
  destruct (pending_ (client s)) as [p|] eqn:Ep, (conn_ (client s)) as [c|] eqn:Ec; try done.
  - destruct (bev_close_ok p (world s)) as (w' & E & Hw & Haw); [apply Ha; by left|].
    exists w'. unfold bufferevent_free. cbn. rewrite E. split; [done|].
    split; [apply Hw|]. split; [cbn; by rewrite (proj1 Hw)|].
    eapply linked_close; eauto.
  - destruct (bev_close_ok c (world s)) as (w' & E & Hw & Haw); [apply Ha; by right|].
    exists w'. rewrite Hk. cbn. rewrite E. split; [done|].
    split; [apply Hw|]. split; [cbn; by rewrite (proj1 Hw)|].
    eapply linked_close; eauto.
  - exists (world s). rewrite Hk. cbn.
    assert (set_link None None false (client s) = client s) as ->.
    { rewrite <- Ep at 1. rewrite <- Ec, <- Hk. apply link_eta. }
    destruct s. by split.
Qed.

Lemma linked_touched x w w' :
  linked x w → touched w w' → (∀ j, alive w' j ↔ alive w j) → linked x w'.
Proof.
  intros (Hk & Ha & Hf) (_ & _ & Ht) Hw. split_and!; [done| |by apply Ht].
  intros j. by rewrite Hw.
Qed.

Lemma on_conn_ok k s : inv s → cmd_sends k → is_Some (conn_ (client s)) →
  ∃ s', on_conn k s = Ok s' ∧ inv s'.
Proof.
  intros [Ht Hl] Hk [c Hc]. unfold on_conn. rewrite Hc. pose proof Hl as (_ & Ha & _).
  destruct (bev_send_ok c k (world s)) as (w' & -> & Hw & Haw); [apply Ha; by right|done|].
  eexists; split; [done|]. split; cbn; [by rewrite (proj1 Hw)|].
  by eapply linked_touched.
Qed.

Lemma IsConnected_conn x : IsConnected x = true → is_Some (conn_ x).
Proof. unfold IsConnected. intros [_ H]%andb_prop. by apply bool_decide_eq_true in H. Qed.

Lemma SetTimeout_timing now n x : 0 ≤ n ≤ kMaxTimeout → timing now x → timing now (SetTimeout n x).
Proof.
  intros Hn (H0 & H1 & H2 & H3 & H4 & H5 & H6). unfold kMaxTimeout in *.
  split_and!; unfold kMaxTimeout; cbn; try done; try lia; rewrite i32_small; lia.
Qed.

Lemma run_ccmd_ok k s : inv s → ccmd_ok k → ∃ s', run_ccmd s k = Ok s' ∧ inv s'.
Proof.
  intros Hi Hk. destruct k as [pack|data| | |n|n|b|e]; cbn [run_ccmd].
  - unfold SendPacket. destruct (IsConnected (client s)) eqn:Hc; [|by exists s].
    destruct (on_conn_ok (CSendPacket pack) s Hi Hk) as (s' & -> & Hs');
      [by apply IsConnected_conn|]. by exists s'.
  - unfold SendRawData. destruct (IsConnected (client s)) eqn:Hc; [|by exists s].
    destruct (on_conn_ok (CSendRawData data) s Hi I) as (s' & -> & Hs');
      [by apply IsConnected_conn|]. by exists s'.
  - unfold Flush. destruct (conn_ (client s)) eqn:Hc; [|by exists s].
    apply on_conn_ok; [done|done|by rewrite Hc].
  - destruct (Close_ok s Hi) as (w' & -> & _ & H). by eexists.
  - by eexists.
  - eexists; split; [done|]. destruct Hi. split; [by apply SetTimeout_timing|done].
  - eexists; split; [done|]. destruct Hi as [(H0 & H1 & H2 & H3 & H4 & H5 & _) Hl].
    split; [|done]. split_and!; cbn; first [done|lia].
  - by eexists.
Qed.

Lemma run_ccmds_ok ks : ∀ s, inv s → Forall ccmd_ok ks → ∃ s', run_ccmds s ks = Ok s' ∧ inv s'.
Proof.
  induction ks as [|k ks IH]; intros s Hi Hk; [by exists s|].
  apply Forall_cons_1 in Hk as [Hk Hks]. cbn [run_ccmds].
  destruct (run_ccmd_ok k s Hi Hk) as (s1 & -> & Hi1). rewrite bind_ok. by apply IH.
Qed.

Lemma call_back_ok r s : inv s → Forall ccmd_ok (snd r) →
  ∃ s', call_back r s = Ok s' ∧ inv s'.
Proof. destruct r as [a ks]. intros Hi Hk. by apply run_ccmds_ok. Qed.

(** No call of a callback starts a connection. *)
Lemma run_ccmd_idle k s s' :
  run_ccmd s k = Ok s' → connecting_ (client s) = false → connecting_ (client s') = false.
Proof.
  intros E Hc. destruct k; cbn [run_ccmd] in E;
    unfold SendPacket, SendRawData, Flush, on_conn, Close in E; try by injection E as <-.
  all: repeat match goal with
    | H : _ ≫= _ = Ok _ |- _ => apply bind_ok_inv in H as (? & ? & H)
    | H : Ok _ = Ok _ |- _ => injection H as ?; subst
    | H : Err _ = Ok _ |- _ => discriminate H
    | H : (let '(_, _) := ?x in _) = Ok _ |- _ => destruct x
    | H : context [match ?x with _ => _ end] |- _ => destruct x eqn:?
    end; by simpl in *.
Qed.

Lemma run_ccmds_idle ks : ∀ s s',
  run_ccmds s ks = Ok s' → connecting_ (client s) = false → connecting_ (client s') = false.
Proof.
  induction ks as [|k ks IH]; intros s s' E Hc; cbn in E; [by injection E as <-|].
  apply bind_ok_inv in E as (s1 & E1 & E). eapply IH; [done|]. by eapply run_ccmd_idle.
Qed.

Lemma call_back_idle r s : inv s → Forall ccmd_ok (snd r) → connecting_ (client s) = false →
  ∃ s', call_back r s = Ok s' ∧ inv s' ∧ connecting_ (client s') = false.
Proof.
  destruct r as [a ks]. intros Hi Hk Hc. unfold call_back.
  destruct (run_ccmds_ok ks (set_app a s)) as (s' & E & Hi'); [done|done|].
  exists s'. split_and!; [done|done|]. by eapply run_ccmds_idle.
Qed.

Context (Hcb : client_callback_ok cb).

Lemma OnConnect_ok ev s : inv s → is_Some (pending_ (client s)) →
  Z.land ev BEV_EVENT_CONNECTED ≠ 0 ∨ Z.land ev BEV_EVENT_ERROR ≠ 0 →
  ∃ s', OnConnect cb ev s = Ok s' ∧ inv s' ∧ connecting_ (client s') = false.
Proof using Hcb.
  intros [Ht Hl] [p Hp] Hev. pose proof Hl as (Hk & Ha & Hf). unfold link_ok in Hk.
  rewrite Hp in Hk. destruct (conn_ (client s)) as [c|] eqn:Ec; [done|].
  unfold OnConnect. rewrite Hp, Ec, Hk. cbn. destruct Hcb as (H1 & _).
  destruct (Z.land ev BEV_EVENT_CONNECTED =? 0) eqn:E1; cbn.
  - destruct Hev as [Hev|Hev]; [lia|]. rewrite (proj2 (Z.eqb_neq _ 0)) by done. cbn.
    destruct (ScheduleNextTry_ok (clock (world s)) (set_link (Some p) None false (client s)))
      as (next & iv & -> & Ht'); [done|]. cbn.
    destruct (bev_close_ok p (world s)) as (w' & E & Hw & Haw); [apply Ha; by left|].
    unfold bufferevent_free. rewrite E, bind_ok.
    apply call_back_idle; [|apply H1|done]. split; [cbn; by rewrite (proj1 Hw)|].
    exact (linked_close _ _ p w' Hl (or_introl Hp) Hw Haw).
  - apply call_back_idle; [|apply H1|done]. split; [done|]. split_and!; cbn; try done.
    intros i. rewrite Ha, Hp. tauto.
Qed.

Lemma inv_activity now s : inv s → now = clock (world s) → ∀ try, try = now ∨ try = last_try_ts_ (client s) →
  inv (set_client (set_activity try now (client s)) s).
Proof using.
  intros [(H0 & H1 & H2 & H3 & H4 & H5 & H6) Hl] -> try Htry. split; [|done].
  split_and!; cbn; try done; try lia; destruct Htry as [->| ->]; lia.
Qed.

Lemma bev_new_linked x w : linked x w → pending_ x = None → conn_ x = None →
  ∀ p w', bev_new w = (p, w') →
  linked (set_link (Some p) None true x) w' ∧ clock w' = clock w.
Proof using.
  intros (Hk & Ha & Hf) Hp Hc p w' [= <- <-]. split; [|done]. split_and!; [done| |].
  - intros i. rewrite alive_insert, Ha, Hp, Hc. cbn. destruct (decide (next_id w = i)) as [->|Hn].
    + split; [by left|]. intros _. left. by split.
    + split; [intros [[? _]|[_ [?|?]]]; done|]. intros [[= ?]|?]; done.
  - intros i Hi. cbn in *. rewrite lookup_insert_ne by lia. apply Hf. lia.
Qed.

Lemma Connect_ok t s : inv s → ∃ b s', Connect cb t s = Ok (b, s') ∧ inv s'.
Proof using Hcb.
  intros Hi. unfold Connect. destruct (connecting_ (client s)) eqn:Hc; [by do 2 eexists|].
  pose proof (inv_activity _ s Hi eq_refl _ (or_introl eq_refl)) as Hi1.
  set (s1 := set_client _ s) in *.
  assert (pending_ (client s1) = None) as Hp1.
  { destruct Hi as [_ (Hk & _)]. unfold link_ok in Hk. cbn.
    destruct (pending_ (client s)), (conn_ (client s)); try done. congruence. }
  assert (∃ s2, match conn_ (client s1) with
    | Some c => w ← bev_call c CCloseAndDestroy (world s1);
        Ok (mkState (set_link (pending_ (client s1)) None (connecting_ (client s1)) (client s1)) w (app s1))
    | None => Ok s1 end = Ok s2 ∧ inv s2 ∧ pending_ (client s2) = None ∧ conn_ (client s2) = None)
    as (s2 & -> & Hi2 & Hp2 & Hc2).
  { destruct (conn_ (client s1)) as [c|] eqn:Ec; [|by exists s1].
    destruct Hi1 as [Ht1 Hl1]. pose proof Hl1 as (_ & Ha & _).
    destruct (bev_close_ok c (world s1)) as (w' & E & Hw & Haw); [apply Ha; by right|].
    rewrite E, bind_ok. eexists; split; [done|]. split; [|by split].
    split; [cbn; by rewrite (proj1 Hw)|].
    change (linked (set_link (pending_ (client s1)) None (connecting_ (client s1)) (client s1)) w').
    rewrite Hp1. replace (connecting_ (client s1)) with false by (symmetry; exact Hc).
    exact (linked_close _ _ c w' Hl1 (or_intror Ec) Hw Haw). }
  rewrite bind_ok. clear Hi1 Hp1. destruct (negb (socket_ok t)); [by do 2 eexists|].
  destruct (negb (nonblocking_ok t)); [by do 2 eexists|].
  destruct (bev_new (world s2)) as [p w'] eqn:En.
  destruct Hi2 as [Ht2 Hl2].
  destruct (bev_new_linked _ _ Hl2 Hp2 Hc2 p w' En) as [Hl3 Hclk].
  rewrite Hc2. set (s3 := mkState _ w' (app s2)).
  assert (inv s3) as Hi3 by (split; [cbn; by rewrite Hclk|done]).
  destruct (_ && _).
  - destruct (bev_close_ok p w') as (w4 & E & Hw & Haw); [apply Hl3; by left|].
    unfold bufferevent_free. cbn. rewrite E, bind_ok. do 2 eexists. split; [done|].
    split; [cbn; by rewrite (proj1 Hw), Hclk|]. cbn.
    apply (linked_close _ _ p w4 Hl3); auto.
  - destruct (negb (connect_ok t)); [|by do 2 eexists].
    destruct (OnConnect_ok BEV_EVENT_ERROR s3 Hi3) as (s4 & E & Hi4 & Hid); [by eexists|by right|].
    rewrite E, bind_ok. do 2 eexists. split; [done|].
    rewrite <- Hid, link_eta. by destruct s4.
Qed.

Lemma schedule_ok s : inv s → ∃ x, ScheduleNextTry (clock (world s)) (client s) = Ok x ∧
  inv (set_client x s) ∧ pending_ x = pending_ (client s) ∧ conn_ x = conn_ (client s).
Proof using.
  intros [Ht Hl]. destruct (ScheduleNextTry_ok _ _ Ht) as (n & i & E & Ht').
  eexists; split; [exact E|]. by split_and!.
Qed.

Lemma OnError_ok c s : inv s → conn_ (client s) = Some c →
  ∃ s', OnError cb c s = Ok s' ∧ inv s'.
Proof using Hcb.
  intros Hi Hc. unfold OnError. rewrite bool_decide_true by done. cbn.
  destruct (schedule_ok s Hi) as (x & -> & Hi1 & _). rewrite bind_ok.
  destruct (Close_ok _ Hi1) as (w' & -> & _ & Hi2). rewrite bind_ok.
  apply call_back_ok; [done|]. apply Hcb.
Qed.

Lemma OnPacketReceived_ok c u st uri s : inv s → conn_ (client s) = Some c →
  is_ok (OnReceived cb (app s) u st uri) = true →
  ∃ s', OnPacketReceived cb c u st uri s = Ok s' ∧ inv s'.
Proof using Hcb.
  intros Hi Hc Hr. unfold OnPacketReceived. rewrite bool_decide_true by done. cbn.
  destruct (OnReceived cb (app s) u st uri) as [[a ks]|] eqn:E; [|done]. rewrite bind_ok.
  apply call_back_ok; [by apply (inv_activity _ s Hi eq_refl _ (or_intror eq_refl))|].
  destruct Hcb as (_ & H2 & _). by eapply H2.
Qed.

Lemma silent_ok s : inv s → silent (clock (world s)) (client s) =
  Ok (IsConnected (client s) &&
      (last_active_ts_ (client s) + reconnect_timeout_ (client s) <? clock (world s))).
Proof using.
  intros [(H0 & H1 & H2 & H3 & H4 & _) _]. unfold silent. destruct (IsConnected _); [|done].
  unfold kMaxTimeout in *. by rewrite add32_ok by lia.
Qed.

Lemma OnTimer_ok t s : inv s → ∃ s', OnTimer cb t s = Ok s' ∧ inv s'.
Proof using Hcb.
  intros Hi. unfold OnTimer. rewrite silent_ok, bind_ok by done. destruct (_ && _).
  { destruct (schedule_ok s Hi) as (x & -> & Hi1 & _). rewrite bind_ok.
    destruct (Close_ok _ Hi1) as (w' & -> & _ & Hi2). by eexists. }
  destruct (IsConnected _); [apply call_back_ok; [done|]; apply Hcb|].
  destruct (_ && _); [|by exists s].
  destruct (Connect_ok t s Hi) as (b & s' & -> & Hi'). by exists s'.
Qed.

Lemma step_ok e s : inv s → enabled cb s e → ∃ s', step cb s e = Ok s' ∧ inv s'.
Proof using Hcb.
  intros Hi He. destruct e as [n|t|ev| |u st uri|t|k]; cbn [step enabled] in *.
  - eexists; split; [done|]. destruct Hi as [(H0 & H1 & H2 & H3 & H4 & H5 & H6) Hl].
    split; [|done]. split_and!; cbn; first [done|lia].
  - by apply OnTimer_ok.
  - destruct He as [Hp Hev]. destruct (OnConnect_ok ev s Hi Hp Hev) as (s' & -> & ? & _). eauto.
  - destruct He as [c Hc]. rewrite Hc. by apply OnError_ok.
  - destruct He as [[c Hc] Hr]. rewrite Hc. by apply OnPacketReceived_ok.
  - destruct (Connect_ok t s Hi) as (b & s' & -> & Hi'). by exists s'.
  - by apply run_ccmd_ok.
Qed.

Lemma run_ok es : ∀ s, inv s → enabled_run cb s es → ∃ s', run cb s es = Ok s' ∧ inv s'.
Proof using Hcb.
  induction es as [|e es IH]; intros s Hi He; [by exists s|]. destruct He as [He Hes].
  destruct (step_ok e s Hi He) as (s1 & E & Hi1). cbn [run]. rewrite E, bind_ok.
  apply IH; [done|]. by apply Hes.
Qed.

End invariants.

(** In a state a client can be in, its local address is the connection's; without a
    connection asking for it fails the assertion. *)
Lemma GetLocalAddress_spec {A} (local_ : nat → SocketAddress4) (s : State A) : inv s →
  GetLocalAddress local_ (client s) (world s) =
  match conn_ (client s) with
  | Some c => Ok (SocketAddress4_sockaddr (local_ c))
  | None => Err AssertFailed
  end.
Proof.
  intros [_ (_ & Ha & _)]. unfold GetLocalAddress, GetLocalAddress2.
  destruct (conn_ (client s)) as [c|]; [|done].
  destruct (proj2 (Ha c) (or_intror eq_refl)) as [out E]. cbn. by rewrite E.
Qed.

(** *** What can change the state of the callback *)

Section app.
Context {A : Type} (cb : ClientCallback A).
Implicit Types s : State A.

Lemma Close_app s s' : Close s = Ok s' → app s' = app s.
Proof.
  unfold Close. intros E.
  destruct (pending_ (client s)), (conn_ (client s)); repeat
    (apply bind_ok_inv in E as (? & _ & E)); by injection E as <-.
Qed.

Lemma on_conn_app k s s' : on_conn k s = Ok s' → app s' = app s.
Proof.
  unfold on_conn. destruct (conn_ (client s)); [|done].
  by intros (w & _ & [= <-])%bind_ok_inv.
Qed.

Lemma run_ccmd_app k s s' : run_ccmd s k = Ok s' → app s' = app s.
Proof.
  intros E. destruct k; cbn [run_ccmd] in E; unfold SendPacket, SendRawData, Flush in E;
    try (by injection E as <-); try (by apply Close_app in E);
    try (destruct (IsConnected _); [|by injection E as <-];
         apply bind_ok_inv in E as ([b s1] & (s2 & E & [= <- <-])%bind_ok_inv & [= <-])).
  3: destruct (conn_ _); [|by injection E as <-].
  all: by eapply on_conn_app.
Qed.

Lemma run_ccmds_app ks : ∀ s s', run_ccmds s ks = Ok s' → app s' = app s.
Proof.
  induction ks as [|k ks IH]; intros s s' E; cbn in E; [by injection E as <-|].
  apply bind_ok_inv in E as (s1 & E1 & E). rewrite (IH _ _ E). by eapply run_ccmd_app.
Qed.

Lemma call_back_app r s s' : call_back r s = Ok s' → app s' = fst r.
Proof. destruct r as [a ks]. unfold call_back. intros E. by rewrite (run_ccmds_app _ _ _ E). Qed.

(** No operation changes the address of the server or the clock. *)
Definition steady s s' : Prop :=
  addr_ (client s') = addr_ (client s) ∧ clock (world s') = clock (world s).

Ltac results := repeat match goal with
  | H : _ ≫= _ = Ok _ |- _ => apply bind_ok_inv in H as (? & ? & H)
  | H : Ok _ = Ok _ |- _ => injection H as ?; subst
  | H : Err _ = Ok _ |- _ => discriminate H
  | H : (let '(_, _) := ?x in _) = Ok _ |- _ => destruct x
  | H : context [if ?x then _ else _] |- _ => destruct x
  | H : context [match ?x with _ => _ end] |- _ => destruct x eqn:?
  end.

Lemma bev_call_clock i k w w' : bev_call i k w = Ok w' → clock w' = clock w.
Proof. unfold bev_call. intros E. by results. Qed.

Lemma run_ccmd_steady k s s' : run_ccmd s k = Ok s' → steady s s'.
Proof.
  intros E. destruct k; cbn [run_ccmd] in E;
    unfold SendPacket, SendRawData, Flush, on_conn, Close, bufferevent_free in E; results;
    repeat match goal with H : bev_call _ _ _ = Ok _ |- _ => apply bev_call_clock in H end; by split.
Qed.

Lemma call_back_steady r s s' : call_back r s = Ok s' → steady s s'.
Proof.
  destruct r as [a ks]. unfold call_back. revert s.
  assert (∀ s, run_ccmds s ks = Ok s' → steady s s') as H; [|intros s; apply (H (set_app a s))].
  induction ks as [|k ks IH]; intros s E; cbn in E; [by injection E as <-|].
  apply bind_ok_inv in E as (s1 & E1 & E). apply run_ccmd_steady in E1 as [? ?].
  destruct (IH _ E). split; congruence.
Qed.

Lemma OnConnect_steady ev s s' : OnConnect cb ev s = Ok s' → steady s s'.
Proof.
  unfold OnConnect. intros (p & _ & (_ & _ & (_ & _ & E)%bind_ok_inv)%bind_ok_inv)%bind_ok_inv.
  destruct (negb _); [by apply call_back_steady in E|].
  destruct (negb _); [|by injection E as <-].
  apply bind_ok_inv in E as (x & Ex & (w & Ew & E)%bind_ok_inv).
  apply call_back_steady in E as [E1 E2]. apply bev_call_clock in Ew. cbn in *.
  unfold ScheduleNextTry in Ex. results; split; cbn in *; congruence.
Qed.

Lemma Connect_steady t s b s' : Connect cb t s = Ok (b, s') → steady s s'.
Proof.
  unfold Connect. destruct (connecting_ _); [intros E; by injection E as _ <-|]. intros E.
  apply bind_ok_inv in E as (s1 & E1 & E).
  assert (steady s s1) as [Ha Hk].
  { destruct (conn_ _); [|by injection E1 as <-].
    apply bind_ok_inv in E1 as (w & Ew%bev_call_clock & [= <-]). by split. }
  destruct (negb _); [by injection E as _ <-|]. destruct (negb _); [by injection E as _ <-|].
  destruct (bev_new _) as [p w] eqn:En. injection En as <- <-. destruct (_ && _).
  { by apply bind_ok_inv in E as (w' & Ew%bev_call_clock & [= _ <-]); split; cbn in *; congruence. }
  destruct (negb _); [|by injection E as _ <-].
  apply bind_ok_inv in E as (s2 & E2 & [= _ <-]). apply OnConnect_steady in E2 as [? ?].
  split; cbn in *; congruence.
Qed.

Lemma ScheduleNextTry_addr now x x' : ScheduleNextTry now x = Ok x' → addr_ x' = addr_ x.
Proof. unfold ScheduleNextTry. intros E. by results. Qed.

Lemma OnError_steady c s s' : OnError cb c s = Ok s' → steady s s'.
Proof.
  unfold OnError. intros (u & _ & E)%bind_ok_inv. apply bind_ok_inv in E as (x & Ex%ScheduleNextTry_addr & E).
  apply bind_ok_inv in E as (s1 & E1 & E). apply call_back_steady in E as [? ?].
  apply (run_ccmd_steady KClose) in E1 as [? ?]. split; cbn in *; congruence.
Qed.

Lemma OnPacketReceived_steady c u st uri s s' : OnPacketReceived cb c u st uri s = Ok s' → steady s s'.
Proof.
  unfold OnPacketReceived. intros (v & _ & E)%bind_ok_inv. apply bind_ok_inv in E as (r & _ & E).
  by apply call_back_steady in E.
Qed.

Lemma OnTimer_steady t s s' : OnTimer cb t s = Ok s' → steady s s'.
Proof.
  unfold OnTimer. intros (b & _ & E)%bind_ok_inv. destruct b.
  { apply bind_ok_inv in E as (x & Ex%ScheduleNextTry_addr & E).
    apply (run_ccmd_steady KClose) in E as [? ?]. split; cbn in *; congruence. }
  destruct (IsConnected _); [by apply call_back_steady in E|].
  destruct (_ && _); [|by injection E as <-].
  apply bind_ok_inv in E as ([b s1] & E & [= <-]). by apply Connect_steady in E.
Qed.

(** Only the passing of time changes the clock. *)
Lemma step_steady e s s' : step cb s e = Ok s' → (∀ n, e ≠ Tick n) → steady s s'.
Proof.
  destruct e as [n|t|ev| |u st uri|t|k]; cbn [step]; intros E Hn.
  - by destruct (Hn n).
  - by apply OnTimer_steady in E.
  - by apply OnConnect_steady in E.
  - destruct (conn_ _); [|done]. by apply OnError_steady in E.
  - destruct (conn_ _); [|done]. by apply OnPacketReceived_steady in E.
  - apply bind_ok_inv in E as ([b s1] & E & [= <-]). by apply Connect_steady in E.
  - by apply run_ccmd_steady in E.
Qed.

(** The app state after an event: unchanged, or what one callback made of it. *)
Definition app_step (a : A) (e : event) (a' : A) : Prop :=
  a' = a ∨ (∃ b, a' = fst (OnConnected cb a b)) ∨ a' = fst (OnSocketError cb a) ∨
  a' = fst (TimeToPing cb a) ∨
  (∃ u st uri ks, e = Packet u st uri ∧ OnReceived cb a u st uri = Ok (a', ks)).

Lemma OnConnect_app ev s s' : OnConnect cb ev s = Ok s' →
  app s' = app s ∨ ∃ b, app s' = fst (OnConnected cb (app s) b).
Proof.
  unfold OnConnect. intros (p & _ & (_ & _ & (_ & _ & E)%bind_ok_inv)%bind_ok_inv)%bind_ok_inv.
  destruct (negb _); [right; exists true; by apply call_back_app in E|].
  destruct (negb _); [|left; by injection E as <-].
  apply bind_ok_inv in E as (x & _ & (w & _ & E)%bind_ok_inv).
  right. exists false. by apply call_back_app in E.
Qed.

Lemma Connect_app t s b s' : Connect cb t s = Ok (b, s') →
  app s' = app s ∨ ∃ b, app s' = fst (OnConnected cb (app s) b).
Proof.
  unfold Connect. destruct (connecting_ _); [intros [= _ <-]; by left|]. intros E.
  apply bind_ok_inv in E as (s1 & E1 & E).
  assert (app s1 = app s) as <-.
  { destruct (conn_ _); [|by injection E1 as <-].
    by apply bind_ok_inv in E1 as (w & _ & [= <-]). }
  destruct (negb _); [injection E as _ <-; by left|].
  destruct (negb _); [injection E as _ <-; by left|].
  destruct (bev_new _) as [p w]. destruct (_ && _).
  { apply bind_ok_inv in E as (w' & _ & [= _ <-]). by left. }
  destruct (negb _); [|injection E as _ <-; by left].
  apply bind_ok_inv in E as (s2 & E2 & [= _ <-]). by apply OnConnect_app in E2.
Qed.

Lemma OnTimer_app t s s' : OnTimer cb t s = Ok s' → ∀ e, app_step (app s) e (app s').
Proof.
  unfold OnTimer, app_step. intros (x & _ & E)%bind_ok_inv e. destruct x.
  { apply bind_ok_inv in E as (x & _ & E). apply Close_app in E. by left. }
  destruct (IsConnected _); [apply call_back_app in E; auto|].
  destruct (_ && _); [|left; by injection E as <-].
  apply bind_ok_inv in E as ([b s1] & E & [= <-]). apply Connect_app in E as [?|?]; auto.
Qed.

Lemma step_app e s s' : step cb s e = Ok s' → app_step (app s) e (app s').
Proof.
  intros E. destruct e as [n|t|ev| |u st uri|t|k]; cbn [step] in E.
  - injection E as <-. by left.
  - by eapply OnTimer_app.
  - apply OnConnect_app in E. unfold app_step. intuition.
  - destruct (conn_ _); [|done]. unfold OnError in E.
    apply bind_ok_inv in E as (_ & _ & (x & _ & (s1 & E1 & E)%bind_ok_inv)%bind_ok_inv).
    apply Close_app in E1. apply call_back_app in E. cbn in E1. rewrite E1 in E.
    unfold app_step. auto.
  - destruct (conn_ _); [|done]. unfold OnPacketReceived in E.
    apply bind_ok_inv in E as (_ & _ & ([a ks] & E1 & E)%bind_ok_inv).
    apply call_back_app in E. cbn in E. subst a. unfold app_step. do 4 right. eauto 8.
  - apply bind_ok_inv in E as ([b s1] & E & [= <-]). apply Connect_app in E.
    unfold app_step. intuition.
  - apply run_ccmd_app in E. by left.
Qed.

End app.

(** *** The timer of a client without a connection *)

Definition attempt_ok (t : attempt) : bool :=
  socket_ok t && nonblocking_ok t && bind_ok_ t && connect_ok t.

Lemma OnTimer_waits {A} (cb : ClientCallback A) t s :
  conn_ (client s) = None → clock (world s) < next_try_ts_ (client s) → OnTimer cb t s = Ok s.
Proof.
  intros Hc Hn. unfold OnTimer, silent, IsConnected. rewrite Hc.
  rewrite bool_decide_false, andb_false_r, bind_ok by (by intros []).
  by rewrite (proj2 (Z.leb_gt _ _)), andb_false_r by lia.
Qed.

Lemma OnTimer_retries {A} (cb : ClientCallback A) t s :
  conn_ (client s) = None → connecting_ (client s) = false →
  next_try_ts_ (client s) ≤ clock (world s) → attempt_ok t = true →
  ∃ s', OnTimer cb t s = Ok s' ∧ connecting_ (client s') = true ∧
        last_try_ts_ (client s') = clock (world s).
Proof.
  intros Hc Hn Hl (((Hso & Hnb)%andb_prop & Hbi)%andb_prop & Hco)%andb_prop.
  unfold OnTimer, silent, IsConnected. rewrite Hc, Hn.
  rewrite bool_decide_false, andb_false_r, bind_ok by (by intros []).
  rewrite (proj2 (Z.leb_le _ _)) by lia. unfold Connect. rewrite Hn. cbn [negb andb client set_client conn_ set_activity].
  rewrite Hc. cbn. rewrite Hso, Hnb, Hbi, Hco. cbn. rewrite andb_false_r. by eexists.
Qed.

(** *** The initial state *)

Definition initial {A} (now : Z) (remote : SocketAddress4) (local_port : Z) (a : A) : State A :=
  mkState (Init now remote local_port) (mkWorld now 0 ∅) a.

Lemma initial_inv {A} now remote local_port (a : A) :
  0 ≤ now → now + kMaxTimeout < 2 ^ 31 → inv (initial now remote local_port a).
Proof.
  intros H0 H1. split.
  - unfold kMaxTimeout in *. split_and!; cbn; unfold kReconnectTimeout, kMaxTimeout;
      first [lia|done|by vm_compute].
  - split_and!; [done| |].
    + intros i. split; [|by intros [?|?]]. intros [out Hi]. cbn in Hi.
      by rewrite lookup_empty in Hi.
    + intros i _. apply lookup_empty.
Qed.

(** ** Properties *)

(** A callback that greets, acknowledges every packet, closes on uri 9, asks for a
    short timeout on uri 8, and pings. *)
Definition greeter : ClientCallback nat :=
  mkClientCallback
    (λ n (connected : bool), (n, if connected then [KSendRawData [104]] else []))
    (λ n _ _ uri, Ok (S n,
       if uri =? 9 then [KClose; KSendRawData [1]]
       else if uri =? 8 then [KSetTimeout 2; KSetBackoff float_one] else [KSendRawData [97]]))
    (λ n, (n, []))
    (λ n, (n, [KSendRawData [112]; KFlush])).

Lemma greeter_ok : client_callback_ok greeter.
Proof.
  split_and!.
  - intros n []; repeat constructor.
  - intros n u st uri n' ks [= _ <-]. repeat case_match; repeat constructor; done.
  - intros n. constructor.
  - intros n. repeat constructor.
Qed.


(** An attempt that succeeds, one that fails at once. *)
Definition try_ok : attempt := mkAttempt true true true true.
Definition try_refused : attempt := mkAttempt true true true false.

Definition client_story : list event :=
  [CallConnect try_ok; Connecting BEV_EVENT_CONNECTED; Packet (Unpacker.opened_unpacker false []) 17 8;
   Tick 3; Timer try_ok; Packet (Unpacker.opened_unpacker false []) 17 9; Tick 20; Timer try_refused;
   Tick 20; Timer try_ok; Connecting BEV_EVENT_CONNECTED; SocketEvent; Call KClose].


(** [later n s]: the same state, [n] seconds later. *)
Definition later {A} (n : Z) (s : State A) : State A :=
  set_world (mkWorld (clock (world s) + n) (next_id (world s)) (bevs (world s))) s.

(** C18: reconnection waits for the backoff.  When the socket of a connection that
    was opened less than a minute ago breaks (and the callback leaves the client
    alone), timer ticks do nothing until the retry interval has passed, and the
    first one after it makes an attempt; the next interval is the product with the
    backoff, at most five minutes.  A connection that lasted longer is retried at
    the next tick, and the interval is reset. *)
Theorem reconnect_backs_off {A} (cb : ClientCallback A) (s : State A) (a : A) (c : nat)
    (Hs : inv s) (Hc : conn_ (client s) = Some c) (Ha : OnSocketError cb (app s) = (a, [])) :
  let brief := clock (world s) <=? last_try_ts_ (client s) + kShortConnectionInterval in
  let wait := if brief then next_try_interval_ (client s) else 0 in
  ∃ s', step cb s SocketEvent = Ok s' ∧ app s' = a ∧
    (if brief then next_interval (backoff_ (client s)) (next_try_interval_ (client s)) =
                   Ok (next_try_interval_ (client s'))
     else next_try_interval_ (client s') = reconnect_timeout_ (client s)) ∧
    (∀ n t, 0 ≤ n < wait → step cb (later n s') (Timer t) = Ok (later n s')) ∧
    (∀ n t, wait ≤ n → 0 ≤ n → attempt_ok t = true →
       ∃ s'', step cb (later n s') (Timer t) = Ok s'' ∧ connecting_ (client s'') = true ∧
              last_try_ts_ (client s'') = clock (world s) + n).
Proof.
  intros brief wait. pose proof Hs as [Ht _]. pose proof Ht as (H0 & H1 & H2 & H3 & H4 & H5 & H6).
  unfold kMaxTimeout in *.
  assert (∃ iv, ScheduleNextTry (clock (world s)) (client s) =
    Ok (set_schedule (if brief then clock (world s) + wait else 0) iv (client s)) ∧
    (if brief then next_interval (backoff_ (client s)) (next_try_interval_ (client s)) = Ok iv
     else iv = reconnect_timeout_ (client s))) as (iv & Es & Hiv).
  { unfold ScheduleNextTry, kShortConnectionInterval.
    rewrite (add32_ok (last_try_ts_ (client s))), bind_ok by lia.
    unfold wait, brief, kShortConnectionInterval. destruct (_ <=? _); [|by eexists].
    rewrite add32_ok, bind_ok by lia.
    destruct (next_interval_fits (backoff_ (client s)) (next_try_interval_ (client s)))
      as (v & -> & _); [done|done|]. by exists v. }
  destruct (schedule_ok s Hs) as (x & E & Hi & _). rewrite Es in E. injection E as <-.
  destruct (Close_ok _ Hi) as (w' & E & Hclk & _).
  eexists. cbn [step]. rewrite Hc. unfold OnError. rewrite bool_decide_true by done.
  cbn [assert_ mbind result_bind]. rewrite Es, bind_ok, E, bind_ok. cbn [app set_client].
  rewrite Ha. split; [reflexivity|]. split; [done|].
  split; [unfold brief in *; by destruct (_ <=? _)|]. split.
  - intros n t Hn. cbn [step]. apply OnTimer_waits; [done|].
    unfold later, set_world. cbn [clock world client set_link next_try_ts_ set_schedule set_app set_client].
    rewrite Hclk. unfold wait in *. cbn [world set_client]. destruct brief; lia.
  - intros n t Hn H0n Hok. cbn [step].
    destruct (OnTimer_retries cb t (later n (set_app a (mkState (set_link None None false
      (set_schedule (if brief then clock (world s) + wait else 0) iv (client s))) w' (app s)))))
      as (s'' & E2 & Hcn & Hlt); [done|done| |done|].
    { unfold later, set_world. cbn [clock world client set_link next_try_ts_ set_schedule set_app].
      rewrite Hclk. cbn [world set_client]. destruct brief; lia. }
    exists s''. split_and!; [exact E2|done|]. rewrite Hlt. unfold later, set_world.
    cbn [clock world set_app]. by rewrite Hclk.
Qed.

(** A connected client, and the same after its connection was opened at 1000. *)
Definition connected_greeter (now : Z) : State nat :=
  mkState (set_link None (Some 0%nat) false (set_activity 1000 1000 (Init 1000 (0, 0) 0)))
    (mkWorld now 1 {[ 0%nat := Some [104] ]}) 0%nat.

Lemma connected_greeter_inv now : 1000 ≤ now → now + kMaxTimeout < 2 ^ 31 → inv (connected_greeter now).
Proof.
  intros H0 H1. unfold kMaxTimeout in *. split.
  - split_and!; cbn; unfold kReconnectTimeout, kMaxTimeout; first [lia|done|by vm_compute].
  - split_and!; [done| |].
    + intros i. unfold alive. cbn. destruct (decide (i = 0%nat)) as [->|Hn].
      * rewrite lookup_singleton_eq. split; [by right|eauto].
      * rewrite lookup_singleton_ne by done. split; [by intros []|]. intros [?|[= ?]]; congruence.
    + intros i Hi. cbn in *. rewrite lookup_singleton_ne; [done|lia].
Qed.

Lemma reconnect_backs_off_witness :
  ∃ s', step greeter (connected_greeter 1005) SocketEvent = Ok s' ∧ app s' = 0%nat ∧
    next_interval float_one 10 = Ok (next_try_interval_ (client s')) ∧
    (∀ n t, 0 ≤ n < 10 → step greeter (later n s') (Timer t) = Ok (later n s')) ∧
    (∀ n t, 10 ≤ n → 0 ≤ n → attempt_ok t = true →
       ∃ s'', step greeter (later n s') (Timer t) = Ok s'' ∧ connecting_ (client s'') = true ∧
              last_try_ts_ (client s'') = 1005 + n).
Proof.
  refine (reconnect_backs_off greeter (connected_greeter 1005) 0%nat 0%nat _ eq_refl eq_refl).
  apply connected_greeter_inv; unfold kMaxTimeout; lia.
Defined.

(** The retry interval never exceeds five minutes, whatever the backoff; and
    with the default backoff, 1.0, it does not change: every interval from 0 to
    five minutes goes through the [float] product unaltered. *)
Theorem retry_interval_bounded b n v :
  (next_interval b n = Ok v → v ≤ kMaxTimeout) ∧
  (0 ≤ n ≤ kMaxTimeout → next_interval float_one n = Ok n).
Proof.
  split.
  - intros E. apply bind_ok_inv in E as (w & _ & [= <-]). unfold kMaxTimeout. lia.
  - intros Hn. assert (forallb (λ k, bool_decide
      (next_interval float_one (Z.of_nat k) = Ok (Z.of_nat k))) (seq 0 301) = true) as Hall
      by (by vm_compute).
    rewrite forallb_forall in Hall. specialize (Hall (Z.to_nat n)).
    rewrite Z2Nat.id in Hall by lia. apply bool_decide_eq_true in Hall; [done|].
    apply in_seq. unfold kMaxTimeout in Hn. lia.
Qed.

Lemma retry_interval_bounded_witness :
  next_interval (SFdiv 24 128 (float_of_int 3) (float_of_int 2)) 10 = Ok 15 ∧ 15 ≤ kMaxTimeout ∧
  next_interval float_one 10 = Ok 10.
Proof.
  assert (next_interval (SFdiv 24 128 (float_of_int 3) (float_of_int 2)) 10 = Ok 15) as E
    by (by vm_compute).
  destruct (retry_interval_bounded (SFdiv 24 128 (float_of_int 3) (float_of_int 2)) 10 15) as [H1 H2].
  split_and!; [exact E|exact (H1 E)|]. apply H2. unfold kMaxTimeout. lia.
Defined.

(** a connection on which nothing was received for longer than the timeout is
    closed at the next timer tick, and the callback is not told: its state does
    not change, and the owner finds out only by asking [IsConnected]. *)
Theorem silent_connection_closed_unreported {A} (cb : ClientCallback A) (s : State A) t
    (Hs : inv s) (Hc : IsConnected (client s) = true)
    (Hq : last_active_ts_ (client s) + reconnect_timeout_ (client s) < clock (world s)) :
  ∃ s', step cb s (Timer t) = Ok s' ∧ app s' = app s ∧ IsConnected (client s') = false ∧
        ∀ i, ¬ alive (world s') i.
Proof.
  cbn [step]. unfold OnTimer. rewrite silent_ok, bind_ok, Hc by done.
  rewrite (proj2 (Z.ltb_lt _ _)) by done. cbn [andb].
  destruct (schedule_ok s Hs) as (x & -> & Hi & _). rewrite bind_ok.
  destruct (Close_ok _ Hi) as (w' & -> & _ & _ & _ & Ha & _).
  eexists; split; [done|]. split_and!; try done. intros i. cbn in *. rewrite Ha. by intros [?|?].
Qed.

Lemma silent_connection_closed_unreported_witness :
  ∃ s', step greeter (connected_greeter 1011) (Timer try_ok) = Ok s' ∧ app s' = 0%nat ∧
        IsConnected (client s') = false ∧ ∀ i, ¬ alive (world s') i.
Proof.
  apply (silent_connection_closed_unreported greeter (connected_greeter 1011) try_ok);
    [|done|cbn; unfold kReconnectTimeout; lia].
  apply connected_greeter_inv; unfold kMaxTimeout; lia.
Defined.

(** a timeout of 2^31 seconds or more, which [SetTimeout] accepts as
    [uint32_t], becomes negative in the [int32_t] member: the next timer tick then
    closes a connection that is receiving data. *)
Theorem huge_timeout_is_negative (seconds now : Z) (x : Client)
    (Hs : 2 ^ 31 ≤ seconds < 2 ^ 32) (Hn : 0 ≤ now < 2 ^ 31)
    (Hc : IsConnected x = true) (Ha : last_active_ts_ x = now) :
  reconnect_timeout_ (SetTimeout seconds x) < 0 ∧ silent now (SetTimeout seconds x) = Ok true.
Proof.
  assert (reconnect_timeout_ (SetTimeout seconds x) = seconds - 2 ^ 32) as E.
  { cbn. rewrite Z.max_r by lia. unfold i32.
    replace (seconds + 2 ^ 31) with (seconds - 2 ^ 31 + 1 * 2 ^ 32) by lia.
    rewrite Z.mod_add, Z.mod_small by lia. lia. }
  split; [lia|]. unfold silent.
  replace (IsConnected (SetTimeout seconds x)) with (IsConnected x) by done. rewrite Hc, E.
  cbn [last_active_ts_ SetTimeout set_options]. rewrite Ha, add32_ok, bind_ok by lia.
  by rewrite (proj2 (Z.ltb_lt _ _)) by lia.
Qed.

Lemma huge_timeout_is_negative_witness :
  reconnect_timeout_ (SetTimeout (2 ^ 32 - 1) (client (connected_greeter 1000))) < 0 ∧
  silent 1000 (SetTimeout (2 ^ 32 - 1) (client (connected_greeter 1000))) = Ok true.
Proof. apply huge_timeout_is_negative; [lia|lia|done|done]. Defined.
