(* ===== verification/TcpClientReentry.v ===== *)
(** * TcpClientReentry: callbacks that connect their client again

    [TcpClient] models a client whose callbacks send, close and set options.  The
    interface lets a callback do more: call [Connect] on the client that is calling
    it, and [RegisterCallback].  Both are here, with the handlers as in
    network/tcp_client.cpp: a callback hands back the calls it makes ([rcmd]), and the
    handler runs them where the code calls the callback.

    [Connect] may call a callback itself, when a connection is refused at once, so
    the calls nest: [calls] unrolls them, and its fuel is how deep they may nest.
    Callback objects are numbered ([objects]; [callback_] is a pointer to one, or
    null), and so are the attempts of the client: [tries n] is what the system
    answers to the n-th.  A callback that deletes its client is left out. *)

From stdpp Require Import gmap.
From S2P Require Import Prelude Bytes Packer Unpacker Addresses TcpConnection TcpClient Outcome.

(** ** State *)

(** What a callback may do with the client that calls it. *)
Inductive rcmd :=
  | RCall (k : ccmd)
  | RConnect
  | RRegister (cb : option nat).

(** [TcpClientCallback], on the state [A] that the callback objects share. *)
Record Callback (A : Type) := mkCallback {
  ROnConnect : A → bool → A * list rcmd;
  ROnPacketReceived : A → Unpacker.Unpacker → Z → Z → result (A * list rcmd);
  ROnSocketError : A → A * list rcmd;
  RTimeToPing : A → A * list rcmd;
}.
Arguments mkCallback {A}.
Arguments ROnConnect {A}.
Arguments ROnPacketReceived {A}.
Arguments ROnSocketError {A}.
Arguments RTimeToPing {A}.

(** The client without its callback, the attempts it has made, and [callback_]. *)
Record RState (A : Type) := mkRState {
  base : State A;
  tried : nat;
  callback_ : option nat;
}.
Arguments mkRState {A}.
Arguments base {A}.
Arguments tried {A}.
Arguments callback_ {A}.

Definition set_base {A} (b : State A) (s : RState A) : RState A :=
  mkRState b (tried s) (callback_ s).
Definition set_tried {A} (n : nat) (s : RState A) : RState A :=
  mkRState (base s) n (callback_ s).

Definition RegisterCallback {A} (cb : option nat) (s : RState A) : RState A :=
  mkRState (base s) (tried s) cb.

(** An operation that makes no callback. *)
Definition on_base {A} (r : result (State A)) (s : RState A) : outcome (RState A) :=
  b ← of_result r; Done (set_base b s).

Section reentry.
Context {A : Type} (objects : nat → Callback A) (tries : nat → attempt).

(** The object that [callback_] points to. *)
Definition callee (s : RState A) : outcome (Callback A) :=
  match callback_ s with Some i => Done (objects i) | None => Fault NullDeref end.

(** ** The handlers, given how the calls of a callback are run *)

Section handlers.
Context (run_calls : list rcmd → RState A → outcome (RState A)).

(** A callback that cannot fail: its new state, then its calls. *)
Definition call_back (r : A * list rcmd) (s : RState A) : outcome (RState A) :=
  let '(a, ks) := r in run_calls ks (set_base (set_app a (base s)) s).

Definition OnConnect (events : Z) (s : RState A) : outcome (RState A) :=
  let x := client (base s) in
  p ← match pending_ x with Some p => Done p | None => Fault AssertFailed end;
  _ ← of_result (assert_ (bool_decide (conn_ x = None)));
  _ ← of_result (assert_ (connecting_ x));
  let x := set_link (pending_ x) (conn_ x) false x in
  if negb (Z.land events BEV_EVENT_CONNECTED =? 0) then
    let s := set_base (set_client (set_link None (Some p) false x) (base s)) s in
    cb ← callee s;
    call_back (ROnConnect cb (app (base s)) true) s
  else if negb (Z.land events BEV_EVENT_ERROR =? 0) then
    x ← of_result (ScheduleNextTry (clock (world (base s))) x);
    w ← of_result (bufferevent_free p (world (base s)));
    let s := set_base (mkState (set_link None (conn_ x) (connecting_ x) x) w (app (base s))) s in
    cb ← callee s;
    call_back (ROnConnect cb (app (base s)) false) s
  else
    Done (set_base (set_client (set_link None (conn_ x) false x) (base s)) s).

(** [ConnectCallback]: [bev] is the bufferevent that the event is about. *)
Definition ConnectCallback (bev : nat) (events : Z) (s : RState A) : outcome (RState A) :=
  _ ← of_result (assert_ (bool_decide (pending_ (client (base s)) = Some bev)));
  OnConnect events s.

(** [Connect].  [connecting_ = false] comes after the callback that is told about a
    refusal, whatever that callback has done. *)
Definition Connect (s : RState A) : outcome (bool * RState A) :=
  if connecting_ (client (base s)) then Done (true, s)
  else
    let now := clock (world (base s)) in
    let b := set_client (set_activity now now (client (base s))) (base s) in
    b ← of_result match conn_ (client b) with
        | Some c =>
            w ← bev_call c CCloseAndDestroy (world b);
            let x := client b in
            Ok (mkState (set_link (pending_ x) None (connecting_ x) x) w (app b))
        | None => Ok b
        end;
    let t := tries (tried s) in
    let s := set_tried (S (tried s)) s in
    if negb (socket_ok t) then Done (false, set_base b s)
    else if negb (nonblocking_ok t) then Done (false, set_base b s)
    else
      let '(p, w) := bev_new (world b) in
      let b := mkState (set_link (Some p) (conn_ (client b)) true (client b)) w (app b) in
      if negb (local_port_ (client b) =? 0) && negb (bind_ok_ t) then
        w ← of_result (bufferevent_free p (world b));
        Done (false,
          set_base (mkState (set_link None (conn_ (client b)) false (client b)) w (app b)) s)
      else if negb (connect_ok t) then
        s ← OnConnect BEV_EVENT_ERROR (set_base b s);
        let x := client (base s) in
        Done (false, set_base (set_client (set_link (pending_ x) (conn_ x) false x) (base s)) s)
      else Done (true, set_base b s).

(** [OnError], called by the connection. *)
Definition OnError (c : nat) (s : RState A) : outcome (RState A) :=
  _ ← of_result (assert_ (bool_decide (conn_ (client (base s)) = Some c)));
  x ← of_result (ScheduleNextTry (clock (world (base s))) (client (base s)));
  s ← on_base (Close (set_client x (base s))) s;
  cb ← callee s;
  call_back (ROnSocketError cb (app (base s))) s.

(** [OnPacketReceived], called by the connection. *)
Definition OnPacketReceived (c : nat) (u : Unpacker.Unpacker) (server_type uri : Z)
    (s : RState A) : outcome (RState A) :=
  _ ← of_result (assert_ (bool_decide (conn_ (client (base s)) = Some c)));
  let x := client (base s) in
  let s := set_base
    (set_client (set_activity (last_try_ts_ x) (clock (world (base s))) x) (base s)) s in
  cb ← callee s;
  r ← of_result (ROnPacketReceived cb (app (base s)) u server_type uri);
  call_back r s.

Definition OnTimer (s : RState A) : outcome (RState A) :=
  let cur_tick := clock (world (base s)) in
  let x := client (base s) in
  expired ← of_result (silent cur_tick x);
  if (expired : bool) then
    x ← of_result (ScheduleNextTry cur_tick x);
    on_base (Close (set_client x (base s))) s
  else if IsConnected x then
    cb ← callee s;
    call_back (RTimeToPing cb (app (base s))) s
  else if negb (connecting_ x) && (next_try_ts_ x <=? cur_tick) then
    '(_, s) ← Connect s; Done s
  else Done s.

Definition run_rcmd (k : rcmd) (s : RState A) : outcome (RState A) :=
  match k with
  | RCall k => on_base (run_ccmd (base s) k) s
  | RConnect => '(_, s) ← Connect s; Done s
  | RRegister cb => Done (RegisterCallback cb s)
  end.

Fixpoint run_rcmds (ks : list rcmd) (s : RState A) : outcome (RState A) :=
  match ks with
  | [] => Done s
  | k :: ks => s ← run_rcmd k s; run_rcmds ks s
  end.

End handlers.

(** The calls of a callback that may itself be called from [Connect]. *)
Fixpoint calls (depth : nat) (ks : list rcmd) (s : RState A) : outcome (RState A) :=
  match depth with
  | O => OutOfFuel
  | S depth => run_rcmds (calls depth) ks s
  end.

(** ** Events *)

(** What the event loop and the owner of the client do. *)
Inductive revent :=
  | RTick (seconds : Z)
  | RTimer
  | RConnecting (bev : nat) (events : Z)
  | RSocketEvent
  | RPacket (u : Unpacker.Unpacker) (server_type uri : Z)
  | ROwner (k : rcmd).

Definition rstep (depth : nat) (s : RState A) (e : revent) : outcome (RState A) :=
  match e with
  | RTick n =>
      let w := world (base s) in
      Done (set_base (set_world (mkWorld (clock w + n) (next_id w) (bevs w)) (base s)) s)
  | RTimer => OnTimer (calls depth) s
  | RConnecting bev events => ConnectCallback (calls depth) bev events s
  | RSocketEvent =>
      match conn_ (client (base s)) with
      | Some c => OnError (calls depth) c s
      | None => Fault NullDeref
      end
  | RPacket u st uri =>
      match conn_ (client (base s)) with
      | Some c => OnPacketReceived (calls depth) c u st uri s
      | None => Fault NullDeref
      end
  | ROwner k => run_rcmd (calls depth) k s
  end.

Fixpoint rrun (depth : nat) (s : RState A) (es : list revent) : outcome (RState A) :=
  match es with
  | [] => Done s
  | e :: es => s ← rstep depth s e; rrun depth s es
  end.

End reentry.

(** ** Handlers as handlers of [TcpClient], followed by the calls *)

(** The same callback, making no calls. *)
Definition mute {A} (cb : Callback A) : ClientCallback A :=
  mkClientCallback (λ a b, (fst (ROnConnect cb a b), []))
    (λ a u st uri, r ← ROnPacketReceived cb a u st uri; Ok (fst r, []))
    (λ a, (fst (ROnSocketError cb a), [])) (λ a, (fst (RTimeToPing cb a), [])).

Lemma mute_ok {A} (cb : Callback A) : client_callback_ok (mute cb).
Proof.
  split_and!; try (intros; by constructor). intros a u st uri a' ks E.
  by apply bind_ok_inv in E as (r & _ & [= _ <-]).
Qed.

Lemma of_result_bind {A B} (m : result A) (f : A → result B) :
  of_result (m ≫= f) = of_result m ≫= λ a, of_result (f a).
Proof. by destruct m. Qed.

Lemma outcome_bind_assoc {A B C} (m : outcome A) (f : A → outcome B) (g : B → outcome C) :
  (m ≫= f) ≫= g = m ≫= λ a, f a ≫= g.
Proof. by destruct m. Qed.

Lemma of_result_ok {A} (m : result A) a : m = Ok a → of_result m = Done a.
Proof. by intros ->. Qed.

(** After a connecting event the client is no longer connecting, unless its callback
    has connected it again, which a callback of [TcpClient] cannot. *)
Lemma OnConnect_idle {A} (cb : ClientCallback A) ev (b b' : State A) :
  TcpClient.OnConnect cb ev b = Ok b' → connecting_ (client b') = false.
Proof.
  unfold TcpClient.OnConnect.
  intros (p & _ & (_ & _ & (_ & _ & E)%bind_ok_inv)%bind_ok_inv)%bind_ok_inv.
  destruct (negb _).
  { unfold TcpClient.call_back in E. destruct (OnConnected _ _ _). by eapply run_ccmds_idle. }
  destruct (negb _); [|by injection E as <-].
  apply bind_ok_inv in E as (x & Ex & (w & _ & E)%bind_ok_inv).
  assert (connecting_ x = false) as Hx.
  { unfold ScheduleNextTry in Ex. apply bind_ok_inv in Ex as (? & _ & Ex).
    destruct (_ <=? _); [|by injection Ex as <-].
    by apply bind_ok_inv in Ex as (? & _ & (? & _ & [= <-])%bind_ok_inv). }
  unfold TcpClient.call_back in E. destruct (OnConnected _ _ _). by eapply run_ccmds_idle.
Qed.

Lemma idle_unchanged {A} (b : State A) : connecting_ (client b) = false →
  set_client (set_link (pending_ (client b)) (conn_ (client b)) false (client b)) b = b.
Proof. destruct b as [[] ? ?]. cbn. by intros ->. Qed.

(** The attempt is refused at once: [bufferevent_socket_connect] is reached and fails. *)
Definition refused_at_once (t : attempt) (x : Client) : bool :=
  socket_ok t && nonblocking_ok t && ((local_port_ x =? 0) || bind_ok_ t) && negb (connect_ok t).

Lemma Connect_refused {A} (cb : ClientCallback A) t (b b' : State A) r :
  connecting_ (client b) = false → refused_at_once t (client b) = true →
  TcpClient.Connect cb t b = Ok (r, b') → r = false ∧ connecting_ (client b') = false.
Proof.
  intros Hc Href E. unfold refused_at_once in Href.
  apply andb_prop in Href as [((Hso & Hnb)%andb_prop & Hport)%andb_prop Hco].
  unfold TcpClient.Connect in E. rewrite Hc, Hso, Hnb, Hco in E. cbn in E.
  apply bind_ok_inv in E as (b1 & E1 & E).
  assert (local_port_ (client b1) = local_port_ (client b)) as Hp.
  { destruct (conn_ (client b)); [|by injection E1 as <-].
    by apply bind_ok_inv in E1 as (w & _ & [= <-]). }
  rewrite Hp in E. replace (negb (local_port_ (client b) =? 0) && negb (bind_ok_ t)) with false in E
    by (by destruct (_ =? _), (bind_ok_ t)).
  by apply bind_ok_inv in E as (b2 & _ & [= <- <-]).
Qed.

Section muted.
Context {A : Type} (objects : nat → Callback A) (tries : nat → attempt)
  (run_calls : list rcmd → RState A → outcome (RState A)).
Implicit Types (s : RState A) (b : State A) (i : nat).

Definition is_connected (events : Z) : bool := negb (Z.land events BEV_EVENT_CONNECTED =? 0).
Definition is_error (events : Z) : bool := negb (Z.land events BEV_EVENT_ERROR =? 0).

Lemma OnConnect_muted i ev s : callback_ s = Some i → is_connected ev || is_error ev = true →
  OnConnect objects run_calls ev s =
    (b ← of_result (TcpClient.OnConnect (mute (objects i)) ev (base s));
     run_calls (snd (ROnConnect (objects i) (app (base s)) (is_connected ev))) (set_base b s)).
Proof.
  intros Hi Hev. unfold OnConnect, TcpClient.OnConnect, is_connected, is_error in *.
  destruct (pending_ _) as [p|]; [|done]. destruct (bool_decide _); [|done].
  destruct (connecting_ _); [|done]. unfold callee. cbn [callback_ set_base]. rewrite Hi. cbn.
  destruct (negb (Z.land ev BEV_EVENT_CONNECTED =? 0)); [by destruct (ROnConnect _ _ _)|].
  cbn in Hev. rewrite Hev. destruct (ScheduleNextTry _ _) as [x|]; [|done]. cbn.
  destruct (bufferevent_free _ _); [|done]. cbn. by destruct (ROnConnect _ _ _).
Qed.

Lemma OnError_muted i c s : callback_ s = Some i →
  OnError objects run_calls c s =
    (b ← of_result (TcpClient.OnError (mute (objects i)) c (base s));
     run_calls (snd (ROnSocketError (objects i) (app (base s)))) (set_base b s)).
Proof.
  intros Hi. unfold OnError, TcpClient.OnError, on_base, callee. destruct (bool_decide _); [|done].
  cbn. destruct (ScheduleNextTry _ _) as [x|]; [|done]. cbn.
  destruct (Close _) as [b|] eqn:E; [|done]. apply Close_app in E. cbn in *. rewrite Hi, E.
  cbn. by destruct (ROnSocketError _ _).
Qed.

Lemma OnPacketReceived_muted i c u st uri s : callback_ s = Some i →
  OnPacketReceived objects run_calls c u st uri s =
    (b ← of_result (TcpClient.OnPacketReceived (mute (objects i)) c u st uri (base s));
     r ← of_result (ROnPacketReceived (objects i) (app (base s)) u st uri);
     run_calls (snd r) (set_base b s)).
Proof.
  intros Hi. unfold OnPacketReceived, TcpClient.OnPacketReceived, callee.
  destruct (bool_decide _); [|done]. cbn. rewrite Hi. cbn.
  destruct (ROnPacketReceived _ _ _ _ _) as [[a ks]|]; done.
Qed.

Lemma Connect_muted i s : callback_ s = Some i →
  let refused := negb (connecting_ (client (base s))) &&
                 refused_at_once (tries (tried s)) (client (base s)) in
  Connect objects tries run_calls s =
    ('(r, b) ← of_result (TcpClient.Connect (mute (objects i)) (tries (tried s)) (base s));
     let s' := set_base b (if connecting_ (client (base s)) then s else set_tried (S (tried s)) s) in
     if refused then
       s' ← run_calls (snd (ROnConnect (objects i) (app (base s)) false)) s';
       let x := client (base s') in
       Done (false,
         set_base (set_client (set_link (pending_ x) (conn_ x) false x) (base s')) s')
     else Done (r, s')).
Proof.
  intros Hi. cbn zeta. unfold Connect, TcpClient.Connect, refused_at_once.
  destruct (connecting_ (client (base s))) eqn:Hc; [by destruct s|]. cbn [negb andb].
  set (b0 := set_client _ (base s)).
  set (closing := match conn_ (client b0) with Some _ => _ | None => _ end).
  assert (∀ b1, closing = Ok b1 → app b1 = app (base s) ∧ local_port_ (client b1) = local_port_ (client (base s)))
    as Hclosing.
  { intros b1. unfold closing. destruct (conn_ (client b0)); [|by intros [= <-]].
    by intros (w & _ & [= <-])%bind_ok_inv. }
  destruct closing as [b1|]; [|done]. destruct (Hclosing b1 eq_refl) as [Happ Hport].
  cbn -[OnConnect TcpClient.OnConnect]. rewrite Hport.
  destruct (tries (tried s)) as [so nb bi co]. cbn -[OnConnect TcpClient.OnConnect].
  destruct so, nb; try done. cbn -[OnConnect TcpClient.OnConnect].
  destruct (local_port_ _ =? 0), bi; cbn -[OnConnect TcpClient.OnConnect]; try (by destruct (bufferevent_free _ _)).
  all: destruct co; cbn -[OnConnect TcpClient.OnConnect]; [done|].
  all: rewrite (OnConnect_muted i) by done; cbn -[OnConnect TcpClient.OnConnect].
  all: rewrite Happ.
  all: destruct (TcpClient.OnConnect _ _ _) as [b2|] eqn:E; [|done].
  all: apply OnConnect_idle, idle_unchanged in E; cbn -[set_client]; by rewrite E.
Qed.

Lemma OnTimer_muted i s : callback_ s = Some i →
  let x := client (base s) in
  let connects := negb (IsConnected x) && negb (connecting_ x) &&
                  (next_try_ts_ x <=? clock (world (base s))) in
  let pings := bool_decide (silent (clock (world (base s))) x = Ok false) && IsConnected x in
  OnTimer objects tries run_calls s =
    if connects then '(_, s) ← Connect objects tries run_calls s; Done s
    else
      b ← of_result (TcpClient.OnTimer (mute (objects i)) (tries (tried s)) (base s));
      if pings then run_calls (snd (RTimeToPing (objects i) (app (base s)))) (set_base b s)
      else Done (set_base b s).
Proof.
  intros Hi. cbn zeta. unfold OnTimer, TcpClient.OnTimer, on_base, callee. rewrite Hi.
  destruct (IsConnected (client (base s))) eqn:Hc.
  - destruct (silent _ _) as [[]|]; [| |done]; cbn.
    + by destruct (ScheduleNextTry _ _) as [x|]; [destruct (Close (set_client x (base s)))|].
    + by destruct (RTimeToPing _ _).
  - unfold silent. rewrite Hc. cbn. rewrite andb_false_r. destruct (_ && _); [done|].
    by destruct s as [[] ? ?].
Qed.

End muted.

(** ** Running the client *)

Definition is_connect (k : rcmd) : bool := match k with RConnect => true | _ => false end.

Definition rcmd_ok (k : rcmd) : Prop :=
  match k with RCall k => ccmd_ok k | RConnect => True | RRegister cb => is_Some cb end.

Definition callback_ok {A} (cb : Callback A) : Prop :=
  (∀ a c, Forall rcmd_ok (snd (ROnConnect cb a c))) ∧
  (∀ a u st uri a' ks, ROnPacketReceived cb a u st uri = Ok (a', ks) → Forall rcmd_ok ks) ∧
  (∀ a, Forall rcmd_ok (snd (ROnSocketError cb a))) ∧
  (∀ a, Forall rcmd_ok (snd (RTimeToPing cb a))).

(** Either no attempt is refused before [Connect] returns, or no callback connects
    when it is told of a failure. *)
Definition patient {A} (objects : nat → Callback A) (tries : nat → attempt) : Prop :=
  (∀ n, connect_ok (tries n) = true) ∨
  (∀ i a, Forall (λ k, is_connect k = false) (snd (ROnConnect (objects i) a false))).

Definition rinv {A} (s : RState A) : Prop := inv (base s) ∧ is_Some (callback_ s).

(** What libevent and the owner may do in a state: events come from bufferevents that
    are alive, those of [pending_] still with [ConnectCallback] as their callback. *)
Definition renabled {A} (objects : nat → Callback A) (s : RState A) (e : revent) : Prop :=
  match e with
  | RTick n => 0 ≤ n ∧ clock (world (base s)) + n + kMaxTimeout < 2 ^ 31
  | RTimer => True
  | RConnecting bev ev =>
      alive (world (base s)) bev ∧ conn_ (client (base s)) ≠ Some bev ∧
      is_connected ev || is_error ev = true
  | RSocketEvent => is_Some (conn_ (client (base s)))
  | RPacket u st uri => is_Some (conn_ (client (base s))) ∧
      match callback_ s with
      | Some i => is_ok (ROnPacketReceived (objects i) (app (base s)) u st uri) = true
      | None => False
      end
  | ROwner k => rcmd_ok k
  end.

#[export] Instance alive_dec w i : Decision (alive w i).
Proof.
  refine (match bevs w !! i as o return bevs w !! i = o → _ with
    | Some (Some out) => λ E, left (ex_intro _ out E) | _ => λ E, right _ end eq_refl);
    intros [out' E']; congruence.
Defined.
#[export] Instance rcmd_ok_dec k : Decision (rcmd_ok k).
Proof. destruct k; unfold rcmd_ok; apply _. Defined.
#[export] Instance renabled_dec {A} (objects : nat → Callback A) s e : Decision (renabled objects s e).
Proof. destruct e; unfold renabled; try destruct (callback_ s); apply _. Defined.

Section runs.
Context {A : Type} (objects : nat → Callback A) (tries : nat → attempt)
  (Hcb : ∀ i, callback_ok (objects i)) (Hpat : patient objects tries).
Implicit Types (s : RState A) (b : State A).

Fixpoint renabled_run (depth : nat) s (es : list revent) : Prop :=
  match es with
  | [] => True
  | e :: es => renabled objects s e ∧
      ∀ s', rstep objects tries depth s e = Done s' → renabled_run depth s' es
  end.

Fixpoint renabled_runb (depth : nat) s (es : list revent) : bool :=
  match es with
  | [] => true
  | e :: es => bool_decide (renabled objects s e) &&
      match rstep objects tries depth s e with Done s' => renabled_runb depth s' es | _ => true end
  end.

Lemma renabled_runb_run depth es : ∀ s, renabled_runb depth s es = true → renabled_run depth s es.
Proof using.
  induction es as [|e es IH]; intros s; [done|]. cbn [renabled_runb renabled_run].
  intros [He Hes]%andb_prop. split; [by apply bool_decide_eq_true in He|].
  intros s' E. rewrite E in Hes. auto.
Qed.

Lemma on_base_ok r s b : r = Ok b → rinv s → inv b → ∃ s', on_base r s = Done s' ∧ rinv s'.
Proof using. intros -> [_ Hr] Hb. by eexists. Qed.

(** Calls that do not connect leave an idle client idle. *)
Lemma quiet_calls run ks : ∀ s, rinv s → Forall rcmd_ok ks → Forall (λ k, is_connect k = false) ks →
  ∃ s', run_rcmds objects tries run ks s = Done s' ∧ rinv s' ∧
        (connecting_ (client (base s)) = false → connecting_ (client (base s')) = false).
Proof using.
  induction ks as [|k ks IH]; intros s Hs Hok Hq; [by exists s|].
  apply Forall_cons_1 in Hok as [Hk Hks]. apply Forall_cons_1 in Hq as [Hqk Hq].
  assert (∃ s1, run_rcmd objects tries run k s = Done s1 ∧ rinv s1 ∧
    (connecting_ (client (base s)) = false → connecting_ (client (base s1)) = false))
    as (s1 & E & Hs1 & Hidle).
  { destruct k as [k| |cb]; [|done|].
    - destruct (run_ccmd_ok k (base s)) as (b & E & Hb); [apply Hs|done|]. cbn.
      unfold on_base. rewrite E. eexists; split; [done|]. split; [by split; [|apply Hs]|].
      by apply (run_ccmd_idle k).
    - eexists; split; [done|]. split; [by split; [apply Hs|]|done]. }
  cbn [run_rcmds]. rewrite E. destruct (IH s1 Hs1 Hks Hq) as (s' & E' & Hs' & Hidle').
  exists s'. split_and!; [exact E'|done|auto].
Qed.

Lemma Connect_done depth s : rinv s →
  ∃ r s', Connect objects tries (calls objects tries (S depth)) s = Done (r, s') ∧ rinv s'.
Proof using Hcb Hpat.
  intros [Hb [i Hi]]. rewrite (Connect_muted objects tries _ i s Hi).
  destruct (Connect_ok (mute (objects i)) (mute_ok _) (tries (tried s)) (base s) Hb)
    as (r & b & E & Hb'). rewrite E. cbn -[calls]. set (s1 := set_base b _).
  assert (rinv s1) as Hs1.
  { split; [done|]. unfold s1. by destruct (connecting_ _); exists i. }
  destruct (negb (connecting_ _) && _) eqn:Href; [|by do 2 eexists].
  apply andb_prop in Href as [Hc%negb_true_iff Href]. destruct Hpat as [Hacc|Hquiet].
  { exfalso. unfold refused_at_once in Href. rewrite Hacc, andb_false_r in Href. done. }
  destruct (quiet_calls (calls objects tries depth)
    (snd (ROnConnect (objects i) (app (base s)) false)) s1 Hs1) as (s' & E' & Hs' & Hidle);
    [apply Hcb|apply Hquiet|]. cbn [calls]. rewrite E'. cbn.
  rewrite idle_unchanged.
  - do 2 eexists. split; [done|]. by destruct s'.
  - apply Hidle. by eapply Connect_refused.
Qed.

Lemma calls_done depth ks : ∀ s, rinv s → Forall rcmd_ok ks →
  ∃ s', calls objects tries (S (S depth)) ks s = Done s' ∧ rinv s'.
Proof using Hcb Hpat.
  cbn [calls]. induction ks as [|k ks IH]; intros s Hs Hok; [by exists s|].
  apply Forall_cons_1 in Hok as [Hk Hks]. cbn [run_rcmds].
  destruct k as [k| |cb]; cbn [run_rcmd].
  - destruct (run_ccmd_ok k (base s)) as (b & E & Hb); [apply Hs|done|].
    destruct (on_base_ok _ s b E Hs Hb) as (s1 & -> & Hs1). by apply IH.
  - destruct (Connect_done depth s Hs) as (r & s1 & E & Hs1). cbn [calls] in E.
    rewrite E. by apply IH.
  - apply IH; [by split; [apply Hs|]|done].
Qed.

(** What a handler of [TcpClient] leaves, its callback's calls can be made in. *)
Lemma muted_calls depth ks (r : result (State A)) s :
  rinv s → (∃ b, r = Ok b ∧ inv b) → Forall rcmd_ok ks →
  ∃ s', (b ← of_result r; calls objects tries (S (S depth)) ks (set_base b s)) = Done s' ∧ rinv s'.
Proof using Hcb Hpat.
  intros [_ Hr] (b & -> & Hb) Hks. apply (calls_done depth); [|done]. by split.
Qed.

Lemma rstep_done depth e s : rinv s → renabled objects s e →
  ∃ s', rstep objects tries (S (S depth)) s e = Done s' ∧ rinv s'.
Proof using Hcb Hpat.
  intros Hs He. pose proof Hs as [Hb [i Hi]]. pose proof (mute_ok (objects i)) as Hm.
  pose proof (Hcb i) as (Hok1 & Hok2 & Hok3 & Hok4).
  destruct e as [n| |bev ev| |u st uri|k]; cbn [rstep renabled] in *.
  - eexists; split; [done|]. split; [|apply Hs].
    destruct (step_ok (mute (objects i)) Hm (Tick n) (base s)) as (b & [= <-] & Hb'); done.
  - rewrite (OnTimer_muted objects tries _ i s Hi).
    destruct (_ && _ && _).
    { destruct (Connect_done (S depth) s Hs) as (r & s' & -> & Hs'). by exists s'. }
    pose proof (OnTimer_ok (mute (objects i)) Hm (tries (tried s)) (base s) Hb) as Ht.
    destruct (_ && _); [by apply (muted_calls depth)|].
    destruct Ht as (b & -> & Hb'). eexists; split; [done|]. by split; [|apply Hs].
  - destruct He as (Ha & Hc & Hev). pose proof Hb as [_ (_ & Hal & _)].
    apply Hal in Ha as [Hp|?]; [|done]. unfold ConnectCallback.
    rewrite bool_decide_true by done. cbn [assert_ of_result mbind outcome_bind].
    rewrite (OnConnect_muted objects _ i ev s Hi Hev).
    apply (muted_calls depth); [done| |apply Hok1].
    destruct (OnConnect_ok (mute (objects i)) Hm ev (base s)) as (b & E & Hb' & _); [done|by eexists| |by exists b].
    unfold is_connected, is_error in Hev. destruct (Z.eqb_spec (Z.land ev BEV_EVENT_CONNECTED) 0); [|by left].
    destruct (Z.eqb_spec (Z.land ev BEV_EVENT_ERROR) 0); [done|by right].
  - destruct He as [c Hc]. rewrite Hc, (OnError_muted objects _ i c s Hi).
    apply (muted_calls depth); [done|by apply OnError_ok, Hc|apply Hok3].
  - destruct He as [[c Hc] Hp]. rewrite Hi in Hp. rewrite Hc, (OnPacketReceived_muted objects _ i) by done.
    destruct (ROnPacketReceived _ _ _ _ _) as [[a ks]|] eqn:E; [|done].
    cbn [of_result mbind outcome_bind snd].
    apply (muted_calls depth); [done| |by eapply Hok2].
    apply OnPacketReceived_ok; [done|done|done|]. cbn. by rewrite E.
  - destruct (calls_done (S depth) [k] s Hs) as (s' & E & Hs'); [by constructor|].
    change (calls objects tries (S (S (S depth))) [k] s) with
      (s ← run_rcmd objects tries (calls objects tries (S (S depth))) k s; Done s) in E.
    destruct (run_rcmd _ _ _ k s); [|done|done]. exists s'. by injection E as ->.
Qed.

Lemma rrun_done depth es : ∀ s, rinv s → renabled_run (S (S depth)) s es →
  ∃ s', rrun objects tries (S (S depth)) s es = Done s' ∧ rinv s'.
Proof using Hcb Hpat.
  induction es as [|e es IH]; intros s Hs He; [by exists s|]. destruct He as [He Hes].
  destruct (rstep_done depth e s Hs He) as (s1 & E & Hs1). cbn [rrun].
  rewrite E. cbn [mbind outcome_bind]. apply IH; [done|]. by apply Hes.
Qed.
End runs.

(** ** Callbacks of [TcpClient] *)

(** A callback of [TcpClient] as one that could connect, and does not. *)
Definition embed {A} (cb : ClientCallback A) : Callback A :=
  mkCallback (λ a c, let '(a, ks) := OnConnected cb a c in (a, map RCall ks))
    (λ a u st uri, '(a, ks) ← OnReceived cb a u st uri; Ok (a, map RCall ks))
    (λ a, let '(a, ks) := OnSocketError cb a in (a, map RCall ks))
    (λ a, let '(a, ks) := TimeToPing cb a in (a, map RCall ks)).

(** An event of the client as one of [TcpClient], which carries its attempt. *)
Definition plain (t : attempt) (e : revent) : option event :=
  match e with
  | RTick n => Some (Tick n)
  | RTimer => Some (Timer t)
  | RConnecting _ ev => Some (Connecting ev)
  | RSocketEvent => Some SocketEvent
  | RPacket u st uri => Some (Packet u st uri)
  | ROwner (RCall k) => Some (Call k)
  | ROwner RConnect => Some (CallConnect t)
  | ROwner (RRegister _) => None
  end.

Section embedded.
Context {A : Type} (cb : ClientCallback A) (tries : nat → attempt) (depth : nat).
Abbreviation objects := (λ _ : nat, embed cb).
Abbreviation run := (calls objects tries (S depth)).
Implicit Types (s : RState A).

Lemma calls_embedded ks : ∀ s, run (map RCall ks) s = on_base (run_ccmds (base s) ks) s.
Proof.
  cbn [calls]. induction ks as [|k ks IH]; intros s; [by destruct s|]. cbn -[calls].
  unfold on_base at 2. destruct (run_ccmd (base s) k) as [b|]; [|done]. cbn -[calls].
  rewrite IH. cbn. unfold on_base. by destruct (run_ccmds b ks).
Qed.

Lemma call_back_embedded a ks s :
  call_back run (a, map RCall ks) s = on_base (TcpClient.call_back (a, ks) (base s)) s.
Proof.
  unfold call_back, TcpClient.call_back. rewrite calls_embedded. unfold on_base. cbn.
  by destruct (run_ccmds _ _).
Qed.

Lemma OnConnect_embedded i ev s : callback_ s = Some i →
  OnConnect objects run ev s = on_base (TcpClient.OnConnect cb ev (base s)) s.
Proof.
  intros Hi. unfold OnConnect, TcpClient.OnConnect, callee.
  destruct (pending_ _); [|done]. destruct (bool_decide _); [|done].
  destruct (connecting_ _); [|done]. cbn -[calls call_back TcpClient.call_back]. rewrite Hi.
  cbn -[calls call_back TcpClient.call_back].
  destruct (negb _).
  { destruct (OnConnected _ _ _). by rewrite call_back_embedded. }
  destruct (negb _); [|done].
  destruct (ScheduleNextTry _ _) as [x|]; [|done]. cbn -[calls call_back TcpClient.call_back].
  destruct (bufferevent_free _ _); [|done]. cbn -[calls call_back TcpClient.call_back].
  destruct (OnConnected _ _ _). by rewrite call_back_embedded.
Qed.

Lemma Connect_embedded i s : callback_ s = Some i →
  ('(r, s') ← Connect objects tries run s; Done (r, base s')) =
  of_result (TcpClient.Connect cb (tries (tried s)) (base s)).
Proof.
  intros Hi. unfold Connect, TcpClient.Connect. destruct (connecting_ _); [done|].
  set (b0 := set_client _ (base s)).
  destruct (match conn_ (client b0) with Some _ => _ | None => _ end) as [b1|]; [|done].
  cbn -[OnConnect TcpClient.OnConnect calls]. destruct (tries (tried s)) as [so nb bi co].
  cbn -[OnConnect TcpClient.OnConnect calls].
  destruct so, nb; try done. cbn -[OnConnect TcpClient.OnConnect calls].
  destruct (_ && _); [by destruct (bufferevent_free _ _)|].
  destruct co; [done|]. cbn -[OnConnect TcpClient.OnConnect calls].
  rewrite (OnConnect_embedded i) by done. unfold on_base. cbn -[TcpClient.OnConnect].
  by destruct (TcpClient.OnConnect _ _ _).
Qed.

Lemma OnError_embedded i c s : callback_ s = Some i →
  OnError objects run c s = on_base (TcpClient.OnError cb c (base s)) s.
Proof.
  intros Hi. unfold OnError, TcpClient.OnError, on_base at 1, callee.
  destruct (bool_decide _); [|done]. cbn -[calls call_back TcpClient.call_back].
  destruct (ScheduleNextTry _ _) as [x|]; [|done]. cbn -[calls call_back TcpClient.call_back].
  destruct (Close _) as [b|]; [|done]. cbn -[calls call_back TcpClient.call_back]. rewrite Hi.
  cbn -[calls call_back TcpClient.call_back].
  destruct (OnSocketError _ _). by rewrite call_back_embedded.
Qed.

Lemma OnPacketReceived_embedded i c u st uri s : callback_ s = Some i →
  OnPacketReceived objects run c u st uri s =
  on_base (TcpClient.OnPacketReceived cb c u st uri (base s)) s.
Proof.
  intros Hi. unfold OnPacketReceived, TcpClient.OnPacketReceived, callee.
  destruct (bool_decide _); [|done]. cbn -[calls call_back TcpClient.call_back]. rewrite Hi.
  cbn -[calls call_back TcpClient.call_back].
  destruct (OnReceived _ _ _ _ _) as [[a ks]|]; [|done].
  cbn -[calls call_back TcpClient.call_back]. by rewrite call_back_embedded.
Qed.

Lemma OnTimer_embedded i s : callback_ s = Some i →
  (s' ← OnTimer objects tries run s; Done (base s')) =
  of_result (TcpClient.OnTimer cb (tries (tried s)) (base s)).
Proof.
  intros Hi. unfold OnTimer, TcpClient.OnTimer, callee. rewrite Hi.
  destruct (silent _ _) as [b|]; [|done]. cbn -[calls Connect call_back TcpClient.Connect TcpClient.call_back].
  destruct b.
  { destruct (ScheduleNextTry _ _) as [x|]; [|done]. cbn. unfold on_base.
    by destruct (Close (set_client x (base s))). }
  destruct (IsConnected _).
  { destruct (TimeToPing _ _). rewrite call_back_embedded. unfold on_base.
    by destruct (TcpClient.call_back _ _). }
  destruct (_ && _); [|done]. rewrite of_result_bind, <- (Connect_embedded i s Hi).
  by destruct (Connect _ _ _ s) as [[r s']| |].
Qed.

End embedded.

(** ** Properties *)

(** A callback that neither connects its client again nor replaces itself runs as
    in [TcpClient]: each event has the same outcome, faults included. *)
Theorem clients_agree {A} (cb : ClientCallback A) tries depth (s : RState A) i e e'
    (Hi : callback_ s = Some i) (He : plain (tries (tried s)) e = Some e')
    (Hbev : ∀ bev ev, e = RConnecting bev ev → pending_ (client (base s)) = Some bev) :
  (s' ← rstep (λ _, embed cb) tries (S depth) s e; Done (base s')) =
  of_result (step cb (base s) e').
Proof.
  destruct e as [n| |bev ev| |u st uri|[k| |c]]; try (injection He as <-); cbn [rstep step].
  - done.
  - by apply (OnTimer_embedded cb tries depth i).
  - unfold ConnectCallback. rewrite (Hbev bev ev eq_refl), bool_decide_true by done.
    cbn [assert_ of_result mbind outcome_bind]. rewrite (OnConnect_embedded cb tries depth i) by done.
    unfold on_base. by destruct (TcpClient.OnConnect _ _ _).
  - destruct (conn_ _); [|done]. rewrite (OnError_embedded cb tries depth i) by done.
    unfold on_base. by destruct (TcpClient.OnError _ _ _).
  - destruct (conn_ _); [|done]. rewrite (OnPacketReceived_embedded cb tries depth i) by done.
    unfold on_base. by destruct (TcpClient.OnPacketReceived _ _ _ _ _ _).
  - cbn [run_rcmd]. unfold on_base. by destruct (run_ccmd _ _).
  - cbn [run_rcmd]. rewrite of_result_bind, <- (Connect_embedded cb tries depth i s Hi).
    by destruct (Connect _ _ _ s) as [[r s']| |].
  - done.
Qed.

(** The attempt gets as far as [bufferevent_socket_connect], which fails. *)
Definition refused (t : attempt) : bool :=
  socket_ok t && nonblocking_ok t && bind_ok_ t && negb (connect_ok t).

Lemma refused_refuses t x : refused t = true → refused_at_once t x = true.
Proof.
  unfold refused, refused_at_once. destruct (socket_ok t), (nonblocking_ok t), (bind_ok_ t); try done.
  by rewrite orb_true_r.
Qed.

(** An attempt that is not refused leaves the client connecting. *)
Lemma Connect_accepted {A} (cb : ClientCallback A) t (b b' : State A) r :
  connecting_ (client b) = false → attempt_ok t = true →
  TcpClient.Connect cb t b = Ok (r, b') →
  r = true ∧ connecting_ (client b') = true ∧ pending_ (client b') = Some (next_id (world b)).
Proof.
  intros Hc (((Hso & Hnb)%andb_prop & Hbi)%andb_prop & Hco)%andb_prop E.
  unfold TcpClient.Connect in E. rewrite Hc, Hso, Hnb, Hbi, Hco in E. cbn in E.
  apply bind_ok_inv in E as (b1 & E1 & E). rewrite andb_false_r in E. injection E as <- <-. split_and!; try done. cbn. f_equal.
  destruct (conn_ (client b)); [|by injection E1 as <-].
  apply bind_ok_inv in E1 as (w & Ew & [= <-]). cbn. unfold bev_call in Ew.
  destruct (bevs (world b) !! _) as [[out|]|]; try done.
  by apply bind_ok_inv in Ew as (a & _ & [= <-]).
Qed.

Section eager.
Context {A : Type} (objects : nat → Callback A) (tries : nat → attempt) (i : nat)
  (Heager : ∀ a, snd (ROnConnect (objects i) a false) = [RConnect]).
Implicit Types (s : RState A) (b : State A).

Definition set_flag (c : bool) b : State A :=
  set_client (set_link (pending_ (client b)) (conn_ (client b)) c (client b)) b.

(** A refused attempt is followed by the next one, inside it. *)
Lemma Connect_eager depth s : inv (base s) → callback_ s = Some i →
  connecting_ (client (base s)) = false → refused (tries (tried s)) = true →
  ∃ b, inv b ∧ connecting_ (client b) = false ∧
    Connect objects tries (calls objects tries depth) s =
    (s' ← calls objects tries depth [RConnect] (mkRState b (S (tried s)) (Some i));
     Done (false, set_base (set_flag false (base s')) s')).
Proof using Heager.
  intros Hb Hi Hc Ht%(refused_refuses _ (client (base s))).
  rewrite (Connect_muted objects tries _ i s Hi), Hc, Ht, Heager.
  destruct (Connect_ok (mute (objects i)) (mute_ok _) (tries (tried s)) (base s) Hb)
    as (r & b & E & Hb'). destruct (Connect_refused _ _ _ _ _ Hc Ht E) as [_ Hcb].
  exists b. split_and!; [done|done|]. rewrite E. cbn -[calls]. unfold set_base, set_tried.
  cbn -[calls]. by rewrite Hi.
Qed.

Lemma calls_connect depth s : calls objects tries (S depth) [RConnect] s =
  ('(_, s) ← Connect objects tries (calls objects tries depth) s; Done s).
Proof using. cbn [calls run_rcmds run_rcmd]. by destruct (Connect _ _ _ s) as [[r s']| |]. Qed.

Lemma eager_overflows depth : ∀ s, inv (base s) → callback_ s = Some i →
  connecting_ (client (base s)) = false → (∀ n, refused (tries n) = true) →
  Connect objects tries (calls objects tries depth) s = OutOfFuel.
Proof using Heager.
  induction depth as [|depth IH]; intros s Hb Hi Hc Hall.
  - by destruct (Connect_eager 0 s Hb Hi Hc (Hall _)) as (b & _ & _ & ->).
  - destruct (Connect_eager (S depth) s Hb Hi Hc (Hall _)) as (b & Hb' & Hc' & ->).
    rewrite calls_connect, IH; done.
Qed.

Lemma set_flag_twice c c' b : set_flag c (set_flag c' b) = set_flag c b.
Proof using. done. Qed.

(** Once an attempt is not refused, each of those around it clears the flag. *)
Lemma eager_connects n : ∀ depth s, (n ≤ depth)%nat → inv (base s) → callback_ s = Some i →
  connecting_ (client (base s)) = false →
  (∀ k, (k < n)%nat → refused (tries (tried s + k)) = true) →
  attempt_ok (tries (tried s + n)) = true →
  ∃ b, inv b ∧ connecting_ (client b) = true ∧ is_Some (pending_ (client b)) ∧
    Connect objects tries (calls objects tries depth) s =
    Done (bool_decide (n = 0%nat),
      mkRState (set_flag (bool_decide (n = 0%nat)) b) (S (tried s + n)) (Some i)).
Proof using Heager.
  induction n as [|n IH]; intros depth s Hd Hb Hi Hc Href Hacc.
  - rewrite Nat.add_0_r in *. rewrite (Connect_muted objects tries _ i s Hi), Hc.
    destruct (Connect_ok (mute (objects i)) (mute_ok _) (tries (tried s)) (base s) Hb)
      as (r & b & E & Hb').
    destruct (Connect_accepted _ _ _ _ _ Hc Hacc E) as (-> & Hcb & Hp).
    exists b. split_and!; [done|done|by eexists|]. rewrite E. unfold refused_at_once.
    apply andb_prop in Hacc as [_ ->]. cbn. rewrite andb_false_r. unfold set_base, set_tried.
    cbn. rewrite Hi. do 3 f_equal. destruct b as [[] w a]. cbn in *. by rewrite Hcb.
  - destruct depth as [|depth]; [lia|].
    assert (refused (tries (tried s)) = true) as H0 by (rewrite <- (Href 0%nat) by lia; do 2 f_equal; lia).
    destruct (Connect_eager (S depth) s Hb Hi Hc H0) as (b1 & Hb1 & Hc1 & ->).
    rewrite calls_connect.
    destruct (IH depth (mkRState b1 (S (tried s)) (Some i))) as (b & Hb' & Hcb & Hp & ->); cbn [base tried callback_]; try done.
    + lia.
    + intros k Hk. rewrite <- (Href (S k)) by lia. do 2 f_equal. lia.
    + rewrite <- Hacc. do 2 f_equal. lia.
    + exists b. split_and!; try done. cbn. unfold set_base. cbn. rewrite set_flag_twice. by rewrite Nat.add_succ_r.
Qed.

End eager.

(** Callbacks: [redialer] connects again on a socket error, on a failed connection
    and, instead of pinging, on every tick, and lets object 1 take over on uri 7;
    object 1 only counts packets. *)
Definition redialer (on_failure : list rcmd) : Callback nat :=
  mkCallback (λ n (connected : bool), (n, if connected then [RCall (KSendRawData [104])] else on_failure))
    (λ n _ _ uri, Ok (S n, if uri =? 7 then [RRegister (Some 1%nat)] else [RConnect; RCall KFlush]))
    (λ n, (n, [RConnect])) (λ n, (n, [RConnect])).
Definition silent_counter : Callback nat :=
  mkCallback (λ n _, (n, [])) (λ n _ _ _, Ok (S n, [])) (λ n, (n, [])) (λ n, (n, [])).
Definition dialers (on_failure : list rcmd) (i : nat) : Callback nat :=
  match i with O => redialer on_failure | _ => silent_counter end.

Lemma dialers_ok ks i : Forall rcmd_ok ks → callback_ok (dialers ks i).
Proof.
  intros Hks. destruct i as [|i]; split_and!; try (intros; by constructor).
  - intros n []; [|done]. by repeat constructor.
  - intros n u st uri n' ks' [= _ <-]. case_match; repeat constructor. by eexists.
  - intros n u st uri n' ks' [= _ <-]. constructor.
Qed.

Definition rinitial {A} (now : Z) (remote : SocketAddress4) (local_port : Z) (a : A) (i : nat) : RState A :=
  mkRState (initial now remote local_port a) 0 (Some i).

Lemma rinitial_inv {A} now remote local_port (a : A) i :
  0 ≤ now → now + kMaxTimeout < 2 ^ 31 → rinv (rinitial now remote local_port a i).
Proof. intros. split; [by apply initial_inv|by eexists]. Qed.

(** C19: callbacks may connect the client that calls them, and replace themselves.
    If no attempt is refused before [Connect] returns, or no callback connects when
    told of a failure, then any sequence of events is handled, with calls nested at
    most twice: no assertion fails, nothing freed is used, no arithmetic overflows,
    and the bufferevents alive are exactly the ones the client points to. *)
Theorem reconnecting_client_never_faults {A} (objects : nat → Callback A) tries
    now remote local_port (a : A) i es
    (Hcb : ∀ i, callback_ok (objects i)) (Hpat : patient objects tries)
    (H0 : 0 ≤ now) (H1 : now + kMaxTimeout < 2 ^ 31)
    (Hes : renabled_run objects tries 2 (rinitial now remote local_port a i) es) :
  ∃ s', rrun objects tries 2 (rinitial now remote local_port a i) es = Done s' ∧
    link_ok (client (base s')) ∧
    (∀ b, alive (world (base s')) b ↔
       pending_ (client (base s')) = Some b ∨ conn_ (client (base s')) = Some b).
Proof.
  destruct (rrun_done objects tries Hcb Hpat 0 es _ (rinitial_inv now remote local_port a i H0 H1) Hes)
    as (s' & E & [[_ (Hl & Ha & _)] _]). by exists s'.
Qed.

(** Every third attempt is refused at once. *)
Definition some_tries (n : nat) : attempt :=
  if (n `mod` 3 =? 1)%nat then try_refused else try_ok.

Definition redial_story : list revent :=
  [ROwner RConnect; RConnecting 0 BEV_EVENT_CONNECTED; RSocketEvent; RTick 20; RTimer;
   RConnecting 2 BEV_EVENT_CONNECTED; RTimer; RConnecting 3 BEV_EVENT_CONNECTED;
   RPacket (Unpacker.opened_unpacker false []) 17 7;
   ROwner (RCall KClose); RTimer].

Lemma reconnecting_client_never_faults_witness :
  ∃ s', rrun (dialers []) some_tries 2 (rinitial 1000 (0, 0) 0 0%nat 0) redial_story = Done s' ∧
    link_ok (client (base s')) ∧
    (∀ b, alive (world (base s')) b ↔
       pending_ (client (base s')) = Some b ∨ conn_ (client (base s')) = Some b).
Proof.
  apply (reconnecting_client_never_faults (dialers []) some_tries 1000 (0, 0) 0 0%nat 0 redial_story).
  - intros i. by apply dialers_ok.
  - right. intros [|i] a; constructor.
  - lia.
  - unfold kMaxTimeout. lia.
  - apply renabled_runb_run. by vm_compute.
Defined.

(** a callback that answers a failed connection by connecting again, while every
    attempt is refused at once (no route to the server), never returns: [Connect]
    calls it, it calls [Connect], and so on, deeper than any stack. *)
Theorem refused_client_recurses {A} (objects : nat → Callback A) tries i depth (s : RState A)
    (Heager : ∀ a, snd (ROnConnect (objects i) a false) = [RConnect])
    (Hall : ∀ n, refused (tries n) = true) (Hs : inv (base s)) (Hi : callback_ s = Some i)
    (Hc : connecting_ (client (base s)) = false) :
  Connect objects tries (calls objects tries depth) s = OutOfFuel.
Proof. by apply (eager_overflows objects tries i). Qed.

(** C20: when a callback that connects again on failure has its second (or a later) attempt accepted, the
    [Connect] calls that surround it answer false and clear [connecting_], although
    the accepted attempt is pending: its event then fails an assertion, and the next
    [Connect] opens another bufferevent and loses the pending one. *)
Theorem reconnecting_loses_the_attempt {A} (objects : nat → Callback A) tries i depth n (s : RState A)
    (Heager : ∀ a, snd (ROnConnect (objects i) a false) = [RConnect])
    (Hn : (0 < n ≤ depth)%nat) (Href : ∀ k, (k < n)%nat → refused (tries (tried s + k)%nat) = true)
    (Hacc : attempt_ok (tries (tried s + n)%nat) = true)
    (Hs : inv (base s)) (Hi : callback_ s = Some i) (Hc : connecting_ (client (base s)) = false) :
  ∃ s' p, Connect objects tries (calls objects tries depth) s = Done (false, s') ∧
    pending_ (client (base s')) = Some p ∧ alive (world (base s')) p ∧
    connecting_ (client (base s')) = false ∧
    (∀ run events, ConnectCallback objects run p events s' = Fault AssertFailed) ∧
    (∀ run, attempt_ok (tries (tried s')) = true →
       ∃ s'' p', Connect objects tries run s' = Done (true, s'') ∧
         pending_ (client (base s'')) = Some p' ∧ p' ≠ p ∧ conn_ (client (base s'')) = None ∧
         alive (world (base s'')) p).
Proof.
  destruct (eager_connects objects tries i Heager n depth s) as (b & Hb & Hcb & [p Hp] & E); try done.
  { lia. }
  rewrite bool_decide_false in E by lia. pose proof Hb as [_ (Hl & Ha & Hf)].
  unfold link_ok in Hl. rewrite Hp in Hl. destruct (conn_ (client b)) eqn:Ec; [done|].
  assert (alive (world b) p) as Hal by (apply Ha; by left).
  eexists _, p. split; [exact E|]. split_and!; [done|done|done| |].
  - intros run events. unfold ConnectCallback, OnConnect. cbn. rewrite Hp, Ec.
    by rewrite !bool_decide_true.
  - intros run (((Hso & Hnb)%andb_prop & Hbi)%andb_prop & Hco)%andb_prop. unfold Connect.
    cbn in Hso, Hnb, Hbi, Hco. cbn. rewrite Ec. cbn. rewrite Hso, Hnb, Hbi, Hco. cbn.
    rewrite andb_false_r. assert (next_id (world b) ≠ p) as Hne.
    { intros <-. destruct Hal as [out Ho]. by rewrite Hf in Ho. }
    eexists _, _. split; [done|]. split_and!; try done.
    apply alive_insert. right. by split.
Qed.

Lemma eager_dialer a : snd (ROnConnect (dialers [RConnect] 0) a false) = [RConnect].
Proof. done. Qed.

Lemma refused_client_recurses_witness :
  refused try_refused = true ∧
  Connect (dialers [RConnect]) (λ _, try_refused) (calls (dialers [RConnect]) (λ _, try_refused) 50)
    (rinitial 1000 (0, 0) 0 0%nat 0) = OutOfFuel.
Proof.
  split; [done|]. apply (refused_client_recurses _ _ 0); try done.
  apply initial_inv; unfold kMaxTimeout; lia.
Defined.

(** The first attempt is refused, the second is accepted. *)
Definition second_try (n : nat) : attempt := match n with O => try_refused | _ => try_ok end.

Lemma reconnecting_loses_the_attempt_witness :
  ∃ s' p, Connect (dialers [RConnect]) second_try (calls (dialers [RConnect]) second_try 1)
      (rinitial 1000 (0, 0) 0 0%nat 0) = Done (false, s') ∧
    pending_ (client (base s')) = Some p ∧ alive (world (base s')) p ∧
    connecting_ (client (base s')) = false ∧
    (∀ run events, ConnectCallback (dialers [RConnect]) run p events s' = Fault AssertFailed) ∧
    (∀ run, attempt_ok (second_try (tried s')) = true →
       ∃ s'' p', Connect (dialers [RConnect]) second_try run s' = Done (true, s'') ∧
         pending_ (client (base s'')) = Some p' ∧ p' ≠ p ∧ conn_ (client (base s'')) = None ∧
         alive (world (base s'')) p).
Proof.
  apply (reconnecting_loses_the_attempt (dialers [RConnect]) second_try 0 1 1); try done.
  - lia.
  - intros k Hk. by replace k with 0%nat by lia.
  - apply initial_inv; unfold kMaxTimeout; lia.
Defined.

Lemma clients_agree_witness :
  (s' ← rstep (λ _, embed greeter) some_tries 1 (rinitial 1000 (0, 0) 0 0%nat 0) (ROwner RConnect);
   Done (base s')) = of_result (step greeter (initial 1000 (0, 0) 0 0%nat) (CallConnect try_ok)).
Proof.
  by apply (clients_agree greeter some_tries 0 (rinitial 1000 (0, 0) 0 0%nat 0) 0%nat (ROwner RConnect)
    (CallConnect try_ok)).
Defined.
