(* ===== verification/UniLbsConnection.v ===== *)
(** * UniLbsConnection: lbs/uni_lbs_connection.h and uni_lbs_connection.cpp

    The conversation with one unified LBS server: the join request, the replies,
    the pings with the load of this server, and the channel lists.  The class is
    a callback of [TcpClient]: [lbs_callback] is its vtable, over the state
    [LbsState].  The members that never change after construction are
    [LbsConfig]; the [UniLbsEventCallback] above it acts on a state [V]. *)

From stdpp Require Import gmap.
From S2P Require Import Prelude Bytes Wire Packer Unpacker Codec Packet Structs Protocols.
From S2P Require Import Addresses TcpConnection TcpClient.

(* server_id.h, error_code.h *)
Definition kUniLbsType : Z := 17.
Definition kOk : Z := 0.

Record ChannelInfo := mkChannelInfo {
  vid : Z;               (* uint32_t *)
  cid : Z;               (* uint32_t *)
  channel_name : bytes;
}.

(** [operator<(ChannelInfo)]. *)
Definition ChannelInfo_lt (a b : ChannelInfo) : bool :=
  (vid a <? vid b) || ((vid a =? vid b) && bytes_ltb (channel_name a) (channel_name b)).

(** The members fixed by the constructor; [service_port_] is a [uint16_t]. *)
Record LbsConfig := mkLbsConfig {
  service_id_ : Z;
  service_port_ : Z;
  service_name_ : bytes;
  release_version_ : bytes;
}.

Record LbsState (V : Type) := mkLbsState { joined_ : bool; visitor : V }.
Arguments mkLbsState {V}.
Arguments joined_ {V}.
Arguments visitor {V}.

(** A packet to send: what [SendPacket] packs. *)
Definition packing : Type := Packer.Packer → result Packer.Packer.

(** [UniLbsEventCallback]; a notification may send packets on the connection. *)
Record EventCallback (V : Type) := mkEventCallback {
  OnLbsConnected : V → V * list packing;
  OnLbsDisconnected : V → V * list packing;
  OnLbsMessageReceived : V → Unpacker.Unpacker → Z → result (V * list packing);
  OnUpdateEdgeServerLoadQuota : V → Z → V;
  OnJoinReplied : V → Lbs.DetailInfo2Map → V * list ChannelInfo;
  (* users, cpu, rx_kbps, tx_kbps; the pointers hold 0 before the call *)
  OnEdgeServerPerformanceRequired : V → V * (Z * Z * Z * Z);
}.
Arguments mkEventCallback {V}.
Arguments OnLbsConnected {V}.
Arguments OnLbsDisconnected {V}.
Arguments OnLbsMessageReceived {V}.
Arguments OnUpdateEdgeServerLoadQuota {V}.
Arguments OnJoinReplied {V}.
Arguments OnEdgeServerPerformanceRequired {V}.

(** [map[k] = v] and [map[k]] of [std::map]: the subscript inserts a default. *)
Fixpoint map_assign {T} (m : list (Z * T)) (k : Z) (v : T) : list (Z * T) :=
  match m with
  | [] => [(k, v)]
  | y :: m' => if k <? fst y then (k, v) :: m
               else if fst y <? k then y :: map_assign m' k v
               else (k, v) :: m'
  end.
Fixpoint map_subscript {T} (m : list (Z * T)) (k : Z) (d : T) : T :=
  match m with
  | [] => d
  | y :: m => if fst y =? k then snd y else map_subscript m k d
  end.

(** [p.Pack(&pk)] of a packet object of the class. *)
Definition pack_packet {M} (cls : PacketClass M) (server : Z) (m : M) : packing :=
  pack_value (packet_codec cls) (mkDeclared (Packet.base (Packet.construct_server cls server)) m).

Definition KSend {M} (cls : PacketClass M) (m : M) : ccmd :=
  KSendPacket (pack_packet cls kUniLbsType m).

Section lbs.
Context {V : Type} (cfg : LbsConfig) (cb : EventCallback V).

Definition set_joined (j : bool) (l : LbsState V) : LbsState V := mkLbsState j (visitor l).
Definition set_visitor (v : V) (l : LbsState V) : LbsState V := mkLbsState (joined_ l) v.

(** [UniLbsConnection::SendPacket] asks [IsConnected], as [TcpClient::SendPacket]
    does again. *)
Definition send_packings (ps : list packing) : list ccmd := KSendPacket <$> ps.

(* id, service_name, port, detail *)
Definition join_request : ccmd :=
  KSend Lbs.LbsJoinReq2
    (service_id_ cfg, service_name_ cfg, service_port_ cfg,
     map_assign [] Lbs.kServerVersion (release_version_ cfg)).

Definition OnConnect (l : LbsState V) (connected : bool) : LbsState V * list ccmd :=
  if negb connected then
    let l := set_joined false l in
    let '(v, ps) := OnLbsDisconnected cb (visitor l) in
    (set_visitor v l, send_packings ps)
  else
    let '(v, ps) := OnLbsConnected cb (visitor l) in
    (set_visitor v l, send_packings ps ++ [join_request]).

(** [SendFullChannelList]. *)
Definition SendFullChannelList (channels : list ChannelInfo) : list ccmd :=
  [KSend Lbs.LbsFullChannelList
     (service_id_ cfg, (λ c, (vid c, channel_name c)) <$> channels)].

Definition OnJoinAccepted (l : LbsState V) (details : Lbs.DetailInfo2Map)
    : LbsState V * list ccmd :=
  let l := set_joined true l in
  let '(v, channels) := OnJoinReplied cb (visitor l) details in
  (set_visitor v l, SendFullChannelList channels).

(** [OnJoinReplied(c, p)]: the reply without details. *)
Definition OnJoin1Replied (l : LbsState V) (p : Unpacker.Unpacker)
    : result (LbsState V * list ccmd) :=
  '(reply, _) ← Packet.unmarshall Lbs.LbsJoinRes (Packet.construct Lbs.LbsJoinRes) p;
  let '(_, code) := Packet.members reply in
  if code =? kOk then Ok (OnJoinAccepted l []) else Ok (l, []).

Definition OnJoin2Replied (l : LbsState V) (p : Unpacker.Unpacker)
    : result (LbsState V * list ccmd) :=
  '(reply, _) ← Packet.unmarshall Lbs.LbsJoinRes2 (Packet.construct Lbs.LbsJoinRes2) p;
  let '(_, code, detail) := Packet.members reply in
  if code =? kOk then Ok (OnJoinAccepted l detail) else Ok (l, []).

Definition OnPong (l : LbsState V) (p : Unpacker.Unpacker)
    : result (LbsState V * list ccmd) :=
  '(pong, _) ← Packet.unmarshall Lbs.LbsPong (Packet.construct Lbs.LbsPong) p;
  let '(_, load_detail) := Packet.members pong in
  let load := map_subscript load_detail Lbs.kUserLoadMax 0 in
  Ok (set_visitor (OnUpdateEdgeServerLoadQuota cb (visitor l) load) l, []).

Definition OnPacketReceived (l : LbsState V) (p : Unpacker.Unpacker) (service_type uri : Z)
    : result (LbsState V * list ccmd) :=
  if negb (service_type =? kUniLbsType) then Ok (l, [])
  else if uri =? Lbs.kLbsJoinResUri then OnJoin1Replied l p
  else if uri =? Lbs.kLbsJoinRes2Uri then OnJoin2Replied l p
  else if uri =? Lbs.kLbsPongUri then OnPong l p
  else
    '(v, ps) ← OnLbsMessageReceived cb (visitor l) p uri;
    Ok (set_visitor v l, send_packings ps).

Definition ping (load : Z * Z * Z * Z) : ccmd :=
  let '(users, cpu, rx_kbps, tx_kbps) := load in
  KSend Lbs.LbsPing
    (service_id_ cfg,
     map_assign (map_assign (map_assign (map_assign [] Lbs.kUserLoad users)
       Lbs.kCpuLoad cpu) Lbs.kTrafficInLoad rx_kbps) Lbs.kTrafficOutLoad tx_kbps).

Definition OnTimeToPing (l : LbsState V) : LbsState V * list ccmd :=
  if negb (joined_ l) then (l, [])
  else
    let '(v, load) := OnEdgeServerPerformanceRequired cb (visitor l) in
    (set_visitor v l, [ping load]).

Definition OnSocketBroken (l : LbsState V) : LbsState V * list ccmd := (set_joined false l, []).

(** The functions of [TcpClientCallback] that the class overrides. *)
Definition lbs_callback : ClientCallback (LbsState V) :=
  mkClientCallback OnConnect OnPacketReceived OnSocketBroken OnTimeToPing.

(** The object: its [TcpClient] with [this] as callback.  [lbs_addr] goes through
    [sockaddr_in]. *)
Definition make (now : Z) (lbs_addr : NewSockAddress4) (v : V) : State (LbsState V) :=
  initial now (SocketAddress4_of (NewSockAddress4_sockaddr lbs_addr)) 0 (mkLbsState false v).

(* id, added, removed *)
Definition delta (added removed : list (Z * bytes)) : ccmd :=
  KSend Lbs.LbsDeltaChannelList (service_id_ cfg, added, removed).

Definition DoChannelCreate (c : ChannelInfo) (s : State (LbsState V))
    : result (State (LbsState V)) :=
  if negb (joined_ (app s)) then Ok s
  else run_ccmd s (delta [(vid c, channel_name c)] []).

Definition DoChannelDestroy (c : ChannelInfo) (s : State (LbsState V))
    : result (State (LbsState V)) :=
  if negb (joined_ (app s)) then Ok s
  else run_ccmd s (delta [] [(vid c, channel_name c)]).

Definition Connect (t : attempt) (s : State (LbsState V)) : result (bool * State (LbsState V)) :=
  TcpClient.Connect lbs_callback t s.

End lbs.

(** ** What a packet looks like on the wire *)

Lemma pack_data_value {T} (c : Codec T) `{CodecOk T c} t :
  valid c t → Packer.room (enc c t) 1 → pack_data (pack_value c t) = Ok (frame (enc c t)).
Proof.
  intros Ht Hr. destruct (room_frame _ _ Hr) as [Hb _]; [lia|].
  destruct (pack_value_packed c t Ht Hr) as (p & Hp & Hpk & _).
  unfold pack_data. rewrite Hp, bind_ok.
  by destruct (Packer.packed_Data p _ Hpk Hb) as (HD & _).
Qed.

(** The bytes [written] for a packet of class [declare_packet uri c]. *)
Definition packet_value {M} (uri : Z) (m : M) : Declared M :=
  mkDeclared (mkPacket (u16 kUniLbsType) (u16 uri)) m.
Definition written {M} (uri : Z) (c : Codec M) `{CodecSpec M c} (m : M) : bytes :=
  frame (enc (packet_codec (declare_packet uri c)) (packet_value uri m)).

(** The members fit a packet. *)
Definition sendable {M} (c : Codec M) `{CodecSpec M c} (m : M) : Prop :=
  valid c m ∧ Z.of_nat (length (enc c m)) < 2 ^ 20.

Lemma pack_packet_data {M} uri (c : Codec M) `{CodecOk M c} m :
  sendable c m → pack_data (pack_packet (declare_packet uri c) kUniLbsType m) =
    Ok (written uri c m).
Proof.
  intros [Hm Hl]. unfold pack_packet, written.
  apply (pack_data_value (packet_codec (declare_packet uri c)) (packet_value uri m)).
  - split; [|done]. split; apply u16_bound.
  - unfold Packer.room, Packer.kMaxPacketSize. cbn [enc packet_spec members].
    rewrite length_app. cbn. lia.
Qed.

Lemma KSend_ok {M} uri (c : Codec M) `{CodecOk M c} m :
  sendable c m → ccmd_ok (KSend (declare_packet uri c) m).
Proof.
  intros Hm. cbn [ccmd_ok KSend].
  pose proof (pack_packet_data uri c m Hm) as E. unfold packing in E. by rewrite E.
Qed.

Lemma run_KSend {A M} uri (c : Codec M) `{CodecOk M c} m (s : State A) i out :
  sendable c m → connecting_ (client s) = false → conn_ (client s) = Some i →
  bevs (world s) !! i = Some (Some out) →
  run_ccmd s (KSend (declare_packet uri c) m) =
    Ok (set_world (mkWorld (clock (world s)) (next_id (world s))
          (<[i := Some (out ++ written uri c m)]> (bevs (world s)))) s).
Proof.
  intros Hm Hn Hc Hi. pose proof (pack_packet_data uri c m Hm) as E.
  unfold pack_data in E. apply bind_ok_inv in E as (pk & E1 & E2).
  cbn [run_ccmd KSend]. unfold SendPacket, IsConnected, on_conn, bev_call.
  rewrite Hn, Hc, Hi, bool_decide_true by eauto. cbn [negb andb abs_cmd].
  rewrite E1, bind_ok, E2. done.
Qed.

(** ** Interfaces *)

Definition join_codec : Codec (Z * bytes * Z * Lbs.DetailInfo2Map) :=
  uint32_codec ⊗ string_codec ⊗ uint16_codec ⊗ Lbs.DetailInfo2Map_codec.
Definition channels_codec : Codec (Z * Lbs.AllChannelVector) :=
  uint32_codec ⊗ Lbs.AllChannelVector_codec.
Definition load_codec : Codec (Z * Lbs.DetailInfoMap) := uint32_codec ⊗ Lbs.DetailInfoMap_codec.
Definition delta_codec : Codec (Z * Lbs.AllChannelVector * Lbs.AllChannelVector) :=
  uint32_codec ⊗ Lbs.AllChannelVector_codec ⊗ Lbs.AllChannelVector_codec.

Definition entries (channels : list ChannelInfo) : Lbs.AllChannelVector :=
  (λ c, (vid c, channel_name c)) <$> channels.

Definition name_ok (s : bytes) : Prop := Z.of_nat (length s) < 2 ^ 16 ∧ bytes_ok s.

Definition cfg_ok (cfg : LbsConfig) : Prop :=
  u32_ok (service_id_ cfg) ∧ u16_ok (service_port_ cfg) ∧
  name_ok (service_name_ cfg) ∧ name_ok (release_version_ cfg).

Definition packing_ok (p : packing) : Prop := is_ok (pack_data p) = true.

Definition load_ok (load : Z * Z * Z * Z) : Prop :=
  let '(users, cpu, rx, tx) := load in u32_ok users ∧ u32_ok cpu ∧ u32_ok rx ∧ u32_ok tx.

(** What the connection relies on: its owner sends packable packets, gives channel
    lists that fit a packet, and loads of 32 bits. *)
Class EventCallbackOk {V} (cfg : LbsConfig) (cb : EventCallback V) : Prop := {
  connected_ok : ∀ v, Forall packing_ok (snd (OnLbsConnected cb v));
  disconnected_ok : ∀ v, Forall packing_ok (snd (OnLbsDisconnected cb v));
  message_ok : ∀ v u uri v' ps,
    OnLbsMessageReceived cb v u uri = Ok (v', ps) → Forall packing_ok ps;
  channels_ok : ∀ v d,
    sendable channels_codec (service_id_ cfg, entries (snd (OnJoinReplied cb v d)));
  performance_ok : ∀ v, load_ok (snd (OnEdgeServerPerformanceRequired cb v));
}.

Definition join_members (cfg : LbsConfig) : Z * bytes * Z * Lbs.DetailInfo2Map :=
  (service_id_ cfg, service_name_ cfg, service_port_ cfg,
   [(Lbs.kServerVersion, release_version_ cfg)]).

Definition ping_members (cfg : LbsConfig) (load : Z * Z * Z * Z) : Z * Lbs.DetailInfoMap :=
  let '(users, cpu, rx, tx) := load in
  (service_id_ cfg, [(Lbs.kUserLoad, users); (Lbs.kCpuLoad, cpu); (Lbs.kTrafficInLoad, rx);
                     (Lbs.kTrafficOutLoad, tx)]).

(** Splits a length in [Z] into the lengths of the parts. *)
Ltac wire_length :=
  repeat (rewrite length_app || rewrite Nat2Z.inj_add);
  rewrite ?length_le_bytes, ?length_str_enc, ?length_var_enc; cbn [length].

Lemma join_sendable cfg : cfg_ok cfg → sendable join_codec (join_members cfg).
Proof.
  intros (Hi & Hp & [Hn1 Hn2] & [Hv1 Hv2]). split.
  - cbn. split_and!; try done; try apply Hi; try apply Hp; try lia.
    + split; [done|]. repeat constructor; cbn; done || lia.
    + repeat constructor.
  - change (enc join_codec (join_members cfg)) with
      (((le_bytes 4 (service_id_ cfg) ++ str_enc (service_name_ cfg)) ++
        le_bytes 2 (service_port_ cfg)) ++
       (var_enc 1 ++ ((le_bytes 4 Lbs.kServerVersion ++ str_enc (release_version_ cfg)) ++ []))).
    wire_length. pose proof (var_size_bound (Z.of_nat (length (service_name_ cfg)))).
    pose proof (var_size_bound (Z.of_nat (length (release_version_ cfg)))).
    pose proof (var_size_bound 1). lia.
Qed.

Lemma ping_sendable cfg load : cfg_ok cfg → load_ok load → sendable load_codec (ping_members cfg load).
Proof.
  destruct load as [[[users cpu] rx] tx]. intros (Hi & _) (H1 & H2 & H3 & H4). split.
  - cbn. split_and!; try apply Hi.
    + split; [done|]. repeat constructor; cbn; (apply H1 || apply H2 || apply H3 || apply H4 || done).
    + repeat constructor.
  - by vm_compute.
Qed.

Definition channel_ok (c : ChannelInfo) : Prop := u32_ok (vid c) ∧ name_ok (channel_name c).

Lemma one_channel_valid c : channel_ok c →
  valid Lbs.AllChannelVector_codec [(vid c, channel_name c)].
Proof.
  intros (Hv & Hn1 & Hn2). split; [done|]. repeat constructor; cbn; try apply Hv; done || lia.
Qed.

Lemma one_channel_length c : channel_ok c →
  Z.of_nat (length (enc Lbs.AllChannelVector_codec [(vid c, channel_name c)])) < 2 ^ 17.
Proof.
  intros (Hv & Hn1 & Hn2). change (enc Lbs.AllChannelVector_codec _) with
    (var_enc 1 ++ ((le_bytes 4 (vid c) ++ str_enc (channel_name c)) ++ [])).
  wire_length. pose proof (var_size_bound (Z.of_nat (length (channel_name c)))).
  pose proof (var_size_bound 1). lia.
Qed.

Lemma delta_sendable cfg c : u32_ok (service_id_ cfg) → channel_ok c →
  sendable delta_codec (service_id_ cfg, [(vid c, channel_name c)], []) ∧
  sendable delta_codec (service_id_ cfg, [], [(vid c, channel_name c)]).
Proof.
  intros Hi Hc. pose proof (one_channel_valid c Hc) as Hv. pose proof (one_channel_length c Hc).
  assert (valid Lbs.AllChannelVector_codec []) as Hn by (by split; [|constructor]).
  split; (split; [by split; [split; [apply Hi|]|]|]).
  all: change (enc delta_codec (?a, ?b, ?d)) with
    ((le_bytes 4 a ++ enc Lbs.AllChannelVector_codec b) ++ enc Lbs.AllChannelVector_codec d).
  all: wire_length; change (length (enc Lbs.AllChannelVector_codec [])) with 2%nat; lia.
Qed.

Lemma delta_ok cfg c : u32_ok (service_id_ cfg) → channel_ok c →
  ccmd_ok (delta cfg [(vid c, channel_name c)] []) ∧
  ccmd_ok (delta cfg [] [(vid c, channel_name c)]).
Proof.
  intros Hi Hc. destruct (delta_sendable cfg c Hi Hc).
  by split; apply (KSend_ok Lbs.kLbsDeltaChannelListUri delta_codec).
Qed.

(** ** The callback keeps to the interface of [TcpClient] *)

Section callback.
Context {V : Type} (cfg : LbsConfig) (cb : EventCallback V) `{!EventCallbackOk cfg cb}.
Context (Hcfg : cfg_ok cfg).

Lemma send_packings_ok ps : Forall packing_ok ps → Forall ccmd_ok (send_packings ps).
Proof using. induction 1; by constructor. Qed.

Lemma join_request_ok : ccmd_ok (join_request cfg).
Proof using Hcfg. by apply (KSend_ok Lbs.kLbsJoinReq2Uri join_codec), join_sendable. Qed.

Lemma ping_ok load : load_ok load → ccmd_ok (ping cfg load).
Proof using Hcfg.
  intros Hl. pose proof (ping_sendable cfg load Hcfg Hl) as Hs.
  destruct load as [[[users cpu] rx] tx].
  by apply (KSend_ok Lbs.kLbsPingUri load_codec).
Qed.

Lemma OnJoinAccepted_ok l d : Forall ccmd_ok (snd (OnJoinAccepted cfg cb l d)).
Proof using All.
  unfold OnJoinAccepted. pose proof (channels_ok (visitor (set_joined true l)) d) as Hc.
  destruct (OnJoinReplied cb _ d) as [v channels]. repeat constructor.
  by apply (KSend_ok Lbs.kLbsFullChannelListUri channels_codec).
Qed.

Lemma OnPacketReceived_cmds l u st uri l' ks :
  OnPacketReceived cfg cb l u st uri = Ok (l', ks) → Forall ccmd_ok ks.
Proof using All.
  unfold OnPacketReceived, OnJoin1Replied, OnJoin2Replied, OnPong. intros E.
  destruct (negb _); [by injection E as <- <-|].
  destruct (_ =? _).
  { apply bind_ok_inv in E as ([reply p] & _ & E). destruct (Packet.members reply) as [i code].
    destruct (_ =? _); [injection E as E|by injection E as <- <-].
    pose proof (OnJoinAccepted_ok l []) as H. by rewrite E in H. }
  destruct (_ =? _).
  { apply bind_ok_inv in E as ([reply p] & _ & E).
    destruct (Packet.members reply) as [[i code] detail].
    destruct (_ =? _); [injection E as E|by injection E as <- <-].
    pose proof (OnJoinAccepted_ok l detail) as H. by rewrite E in H. }
  destruct (_ =? _).
  { apply bind_ok_inv in E as ([pong p] & _ & E). destruct (Packet.members pong) as [i load].
    by injection E as <- <-. }
  apply bind_ok_inv in E as ([v ps] & E & [= <- <-]).
  eapply send_packings_ok, message_ok, E.
Qed.

Lemma lbs_callback_ok : client_callback_ok (lbs_callback cfg cb).
Proof using All.
  split_and!; cbn.
  - intros l []; unfold OnConnect; cbn.
    + pose proof (connected_ok (visitor l)) as H. destruct (OnLbsConnected cb _) as [v ps].
      apply Forall_app_2; [by apply send_packings_ok|]. repeat constructor. apply join_request_ok.
    + pose proof (disconnected_ok (visitor l)) as H. cbn.
      destruct (OnLbsDisconnected cb _) as [v ps]. by apply send_packings_ok.
  - apply OnPacketReceived_cmds.
  - intros l. constructor.
  - intros l. unfold OnTimeToPing. destruct (negb _); [constructor|].
    pose proof (performance_ok (visitor l)) as H.
    destruct (OnEdgeServerPerformanceRequired cb _) as [v load]. repeat constructor.
    by apply ping_ok.
Qed.

(** Nothing but an accepted join makes the connection joined. *)
Definition join_reply (e : event) : bool :=
  match e with
  | Packet _ st uri => (st =? kUniLbsType) &&
      ((uri =? Lbs.kLbsJoinResUri) || (uri =? Lbs.kLbsJoinRes2Uri))
  | _ => false
  end.

Lemma step_not_joined e s s' :
  step (lbs_callback cfg cb) s e = Ok s' → join_reply e = false →
  joined_ (app s) = false → joined_ (app s') = false.
Proof using.
  intros E He Hj. apply step_app in E as [->|[[b ->]|[->|[->|(u & st & uri & ks & -> & E)]]]]; cbn.
  - done.
  - unfold OnConnect. destruct b; cbn.
    + by destruct (OnLbsConnected _ _).
    + by destruct (OnLbsDisconnected _ _).
  - done.
  - unfold OnTimeToPing. by rewrite Hj.
  - cbn in E, He. unfold OnPacketReceived, OnPong in E.
    destruct (st =? kUniLbsType); [|by injection E as <- <-]. cbn in *.
    apply orb_false_elim in He as [H1 H2]. rewrite H1, H2 in E. destruct (_ =? _).
    + apply bind_ok_inv in E as ([pong p] & _ & E). destruct (Packet.members pong).
      by injection E as <- <-.
    + apply bind_ok_inv in E as ([v ps] & _ & E). by injection E as <- <-.
Qed.

End callback.

(** ** Properties *)

(** An owner that counts what it is told, reports one channel, and a fixed load. *)
Definition counter : EventCallback nat :=
  mkEventCallback
    (λ n, (S n, [])) (λ n, (S n, []))
    (λ n _ _, Ok (S n, [])) (λ n _, S n)
    (λ n _, (S n, [mkChannelInfo 5 6 [99]]))
    (λ n, (n, (1, 2, 3, 4))).
Definition some_config : LbsConfig := mkLbsConfig 42 8000 [118; 111; 115] [49; 46; 48].
Definition some_address : NewSockAddress4 := mkNewSockAddress4 0x0a000001 6000.

#[export] Instance counter_ok : EventCallbackOk some_config counter.
Proof.
  split; try by constructor.
  - by intros v u uri v' ps [= _ <-].
  - intros v d. split; [|by vm_compute].
    cbn. split; [done|]. split; [done|]. repeat constructor; cbn; try lia; unfold is_byte; lia.
Qed.
Lemma some_config_ok : cfg_ok some_config.
Proof.
  split_and!; cbn; try (split; cbn); try lia;
    by apply (bool_decide_unpack (bytes_ok _)).
Qed.

(** The members of a reply of the LBS, as it arrives. *)
Definition join_reply_body (id code : Z) (detail : Lbs.DetailInfo2Map) : bytes :=
  enc (packet_codec Lbs.LbsJoinRes2)
    (packet_value Lbs.kLbsJoinRes2Uri (id, code, detail)).

(** a connection is joined only by an accepted reply.  From construction,
    through any sequence of events without a join reply of the LBS (type 17, uri
    1002 or 1008), whatever happens to the sockets, the connection is not joined,
    and while it is not, it sends no ping and no channel update. *)
Theorem joined_only_by_reply {V} cfg (cb : EventCallback V) now addr v es s'
    (Hr : run (lbs_callback cfg cb) (make now addr v) es = Ok s')
    (Hes : Forall (λ e, join_reply e = false) es) :
  joined_ (app s') = false ∧ OnTimeToPing cfg cb (app s') = (app s', []) ∧
  ∀ c, DoChannelCreate cfg c s' = Ok s' ∧ DoChannelDestroy cfg c s' = Ok s'.
Proof.
  assert (joined_ (app s') = false) as Hj.
  { assert (joined_ (app (make now addr v)) = false) as H0 by done.
    revert H0 Hr. generalize (make now addr v). clear now addr v.
    induction Hes as [|e es He _ IH]; intros s H0 Hr; cbn in Hr; [by injection Hr as <-|].
    apply bind_ok_inv in Hr as (s1 & E & Hr). apply (IH s1); [|done].
    by eapply step_not_joined. }
  unfold OnTimeToPing, DoChannelCreate, DoChannelDestroy. by rewrite Hj.
Qed.

Definition dropped_story : list event :=
  [CallConnect try_ok; Connecting BEV_EVENT_CONNECTED; Timer try_ok; SocketEvent;
   Tick 10; Timer try_refused].

Lemma joined_only_by_reply_witness :
  ∃ s', run (lbs_callback some_config counter) (make 1000 some_address 0%nat) dropped_story = Ok s' ∧
    joined_ (app s') = false.
Proof.
  eexists. split; [vm_compute; reflexivity|].
  refine (proj1 (joined_only_by_reply some_config counter 1000 some_address 0%nat dropped_story _ _ _)).
  - vm_compute. reflexivity.
  - by repeat constructor.
Defined.

(** when the TCP connection is established, the LBS receives exactly one join
    request, after what the owner sends in its notification (here nothing): the
    service id, the service name, the port in host order and the release version. *)
Theorem join_request_sent {V} cfg (cb : EventCallback V) `{!EventCallbackOk cfg cb}
    (s : State (LbsState V)) p out v'
    (Hcfg : cfg_ok cfg) (Hs : inv s) (Hp : pending_ (client s) = Some p)
    (Hb : bevs (world s) !! p = Some (Some out))
    (Hv : OnLbsConnected cb (visitor (app s)) = (v', [])) :
  ∃ s', step (lbs_callback cfg cb) s (Connecting BEV_EVENT_CONNECTED) = Ok s' ∧
    conn_ (client s') = Some p ∧ app s' = mkLbsState (joined_ (app s)) v' ∧
    bevs (world s') !! p =
      Some (Some (out ++ written Lbs.kLbsJoinReq2Uri join_codec (join_members cfg))).
Proof.
  destruct Hs as [_ (Hk & _)]. unfold link_ok in Hk. rewrite Hp in Hk.
  destruct (conn_ (client s)) eqn:Ec; [done|].
  cbn [step]. unfold TcpClient.OnConnect. rewrite Hp, Ec, Hk. cbn [assert_ negb].
  rewrite bool_decide_true by done. cbn [mbind result_bind assert_].
  change (negb (Z.land BEV_EVENT_CONNECTED BEV_EVENT_CONNECTED =? 0)) with true. cbv iota.
  cbn [OnConnected lbs_callback]. unfold OnConnect. cbn [app set_client].
  rewrite Hv. cbn [negb send_packings fmap list_fmap Datatypes.app call_back run_ccmds].
  change (join_request cfg) with
    (KSend (declare_packet Lbs.kLbsJoinReq2Uri join_codec) (join_members cfg)).
  rewrite (run_KSend Lbs.kLbsJoinReq2Uri join_codec (join_members cfg) _ p out);
    [|by apply join_sendable|done|done|done].
  eexists; split; [reflexivity|]. split_and!; [done|done|]. apply lookup_insert_eq.
Qed.

(** A client whose socket is just being opened, and one connected and joined, since
    1000, which has written [h]. *)
Definition opening : State (LbsState nat) :=
  mkState (set_link (Some 0%nat) None true (client (make 1000 some_address 0%nat)))
    (mkWorld 1000 1 {[ 0%nat := Some [] ]}) (mkLbsState false 0%nat).
Definition joined_at (now : Z) (h : bytes) : State (LbsState nat) :=
  mkState (set_link None (Some 0%nat) false
             (set_activity 1000 1000 (client (make 1000 some_address 0%nat))))
    (mkWorld now 1 {[ 0%nat := Some h ]}) (mkLbsState true 0%nat).

Lemma one_bev_linked x now h (b : bool) :
  linked (set_link (if b then Some 0%nat else None) (if b then None else Some 0%nat) b x)
    (mkWorld now 1 {[ 0%nat := Some h ]}).
Proof.
  split_and!; [by destruct b| |].
  - intros i. unfold alive. cbn. destruct (decide (i = 0%nat)) as [->|Hn].
    + rewrite lookup_singleton_eq. split; [|by eauto]. by destruct b; [left|right].
    + rewrite lookup_singleton_ne by done. split; [by intros []|].
      destruct b; intros [?|?]; congruence.
  - intros i Hi. cbn in *. rewrite lookup_singleton_ne; [done|lia].
Qed.

Lemma opening_inv : inv opening.
Proof.
  split; [|exact (one_bev_linked _ 1000 [] true)].
  unfold kMaxTimeout. split_and!; cbn; unfold kReconnectTimeout, kMaxTimeout; first [lia|done|by vm_compute].
Qed.

Lemma joined_at_inv now h : 1000 ≤ now → now + kMaxTimeout < 2 ^ 31 → inv (joined_at now h).
Proof.
  intros H0 H1. unfold kMaxTimeout in *. split; [|exact (one_bev_linked _ now h false)].
  split_and!; cbn; unfold kReconnectTimeout, kMaxTimeout; first [lia|done|by vm_compute].
Qed.

Lemma join_request_sent_witness :
  ∃ s', step (lbs_callback some_config counter) opening (Connecting BEV_EVENT_CONNECTED) = Ok s' ∧
    conn_ (client s') = Some 0%nat ∧ app s' = mkLbsState false 1%nat ∧
    bevs (world s') !! 0%nat =
      Some (Some ([] ++ written Lbs.kLbsJoinReq2Uri join_codec (join_members some_config))).
Proof.
  apply (join_request_sent some_config counter opening 0%nat [] 1%nat); try done.
  - exact some_config_ok.
  - exact opening_inv.
Defined.

Definition reply_codec : Codec (Z * Z * Lbs.DetailInfo2Map) :=
  uint32_codec ⊗ uint32_codec ⊗ Lbs.DetailInfo2Map_codec.

(** Opening a received packet gives the value that was sent. *)
Lemma unmarshall_body {M} uri (c : Codec M) `{CodecOk M c} m : sendable c m →
  ∃ u', Packet.unmarshall (declare_packet uri c) (Packet.construct (declare_packet uri c))
    (Unpacker.opened_unpacker false (enc (packet_codec (declare_packet uri c)) (packet_value uri m))) =
    Ok (packet_value uri m, u').
Proof.
  intros [Hm Hl]. set (body := enc _ _).
  assert (frame_len body < 2 ^ 23) as Hf.
  { pose proof (frame_len_bound body) as Hb. unfold body in *. cbn [enc packet_spec members] in *.
    rewrite length_app in *. cbn in *. lia. }
  pose proof (Unpacker.opened_unpacker_opened false body Hf) as (Hv & _).
  assert (valid (packet_codec (declare_packet uri c)) (packet_value uri m)) as Hval
    by (split; [split; apply u16_bound|done]).
  assert (Unpacker.view (Unpacker.opened_unpacker false body) (body ++ [])) as Hv'
    by (by rewrite app_nil_r).
  pose proof (pop_enc (dflt (packet_codec (declare_packet uri c))) _ _ _ Hval Hv') as E.
  rewrite absorb_dflt in E by done. eexists. exact E.
Qed.

(** a join reply with code [kOk] makes the connection joined and is answered
    with the full channel list: the owner is given the details of the reply, and
    the (vid, name) pairs it returns are written in its order, in one packet.  A
    reply with another code changes nothing and sends nothing. *)
Theorem join_reply_accepted {V} cfg (cb : EventCallback V) `{!EventCallbackOk cfg cb}
    (s : State (LbsState V)) i out id code detail
    (Hs : inv s) (Hc : conn_ (client s) = Some i)
    (Hb : bevs (world s) !! i = Some (Some out))
    (Hm : sendable reply_codec (id, code, detail)) :
  ∃ s', step (lbs_callback cfg cb) s
      (Packet (Unpacker.opened_unpacker false (join_reply_body id code detail))
         kUniLbsType Lbs.kLbsJoinRes2Uri) = Ok s' ∧
    let '(v', channels) := OnJoinReplied cb (visitor (app s)) detail in
    if code =? kOk then
      app s' = mkLbsState true v' ∧
      bevs (world s') = <[i := Some (out ++ written Lbs.kLbsFullChannelListUri channels_codec
                                             (service_id_ cfg, entries channels))]> (bevs (world s))
    else app s' = app s ∧ bevs (world s') = bevs (world s).
Proof.
  destruct Hs as [_ (Hk & _)]. unfold link_ok in Hk. rewrite Hc in Hk.
  assert (connecting_ (client s) = false) as Hn by (by destruct (pending_ (client s))).
  cbn [step]. rewrite Hc. unfold TcpClient.OnPacketReceived.
  rewrite bool_decide_true by done. cbn [assert_ mbind result_bind OnReceived lbs_callback].
  unfold OnPacketReceived. cbn [negb Z.eqb kUniLbsType Pos.eqb].
  change (Lbs.kLbsJoinRes2Uri =? Lbs.kLbsJoinResUri) with false.
  change (Lbs.kLbsJoinRes2Uri =? Lbs.kLbsJoinRes2Uri) with true. cbv iota.
  unfold OnJoin2Replied.
  destruct (unmarshall_body Lbs.kLbsJoinRes2Uri reply_codec (id, code, detail) Hm) as (u' & E).
  change (Packet.unmarshall Lbs.LbsJoinRes2 (Packet.construct Lbs.LbsJoinRes2)
    (Unpacker.opened_unpacker false (join_reply_body id code detail))) with
    (Packet.unmarshall (declare_packet Lbs.kLbsJoinRes2Uri reply_codec)
      (Packet.construct (declare_packet Lbs.kLbsJoinRes2Uri reply_codec))
      (Unpacker.opened_unpacker false (enc (packet_codec (declare_packet Lbs.kLbsJoinRes2Uri reply_codec))
         (packet_value Lbs.kLbsJoinRes2Uri (id, code, detail))))).
  rewrite E, bind_ok. cbn [Packet.members packet_value].
  unfold OnJoinAccepted. cbn [visitor set_joined app set_client].
  pose proof (channels_ok (visitor (app s)) detail) as Hch.
  destruct (OnJoinReplied cb (visitor (app s)) detail) as [v' channels]. cbn [snd] in Hch.
  destruct (code =? kOk); rewrite bind_ok; cbn [call_back run_ccmds].
  - change (SendFullChannelList cfg channels) with
      [KSend (declare_packet Lbs.kLbsFullChannelListUri channels_codec)
         (service_id_ cfg, entries channels)].
    cbn [run_ccmds].
    rewrite (run_KSend Lbs.kLbsFullChannelListUri channels_codec _ _ i out) by done.
    eexists. by split; [reflexivity|].
  - eexists. by split; [reflexivity|].
Qed.

Lemma join_reply_accepted_witness :
  ∃ s', step (lbs_callback some_config counter) (joined_at 1002 [7])
      (Packet (Unpacker.opened_unpacker false (join_reply_body 42 0 [(7, [120])]))
         kUniLbsType Lbs.kLbsJoinRes2Uri) = Ok s' ∧
    app s' = mkLbsState true 1%nat ∧
    bevs (world s') = <[0%nat := Some ([7] ++ written Lbs.kLbsFullChannelListUri channels_codec
                                             (42, [(5, [99])]))]> (bevs (world (joined_at 1002 [7]))).
Proof.
  apply (join_reply_accepted some_config counter (joined_at 1002 [7]) 0%nat [7] 42 0 [(7, [120])]);
    try done.
  - apply joined_at_inv; unfold kMaxTimeout; lia.
  - split; [|by vm_compute]. cbn. split_and!; try lia.
    + split; [done|]. repeat constructor; cbn; try lia; unfold is_byte; lia.
    + repeat constructor.
Defined.

(** a timeout leaves a stale joined state behind.  When the timer closes a
    silent connection, the owner class is not told and stays joined; the next
    connection then starts joined, and the timer pings the LBS although no reply
    to the new join request has arrived. *)
Theorem stale_join_after_timeout {V} cfg (cb : EventCallback V) (s : State (LbsState V)) t
    (Hs : inv s) (Hc : IsConnected (client s) = true) (Hj : joined_ (app s) = true)
    (Hq : last_active_ts_ (client s) + reconnect_timeout_ (client s) < clock (world s)) :
  ∃ s', step (lbs_callback cfg cb) s (Timer t) = Ok s' ∧
    IsConnected (client s') = false ∧ joined_ (app s') = true ∧
    let reconnected := fst (OnConnect cfg cb (app s') true) in
    joined_ reconnected = true ∧
    snd (OnTimeToPing cfg cb reconnected) =
      [ping cfg (snd (OnEdgeServerPerformanceRequired cb (visitor reconnected)))].
Proof.
  cbn [step]. unfold OnTimer. rewrite silent_ok, bind_ok, Hc by done.
  rewrite (proj2 (Z.ltb_lt _ _)) by done. cbn [andb].
  destruct (schedule_ok s Hs) as (x & -> & Hi & _). rewrite bind_ok.
  destruct (Close_ok _ Hi) as (w' & -> & _).
  eexists; split; [done|]. split; [done|]. split; [done|]. cbn [app set_client].
  set (r := fst (OnConnect cfg cb (app s) true)).
  assert (joined_ r = true) as Hr.
  { unfold r, OnConnect. cbn. by destruct (OnLbsConnected cb _). }
  split; [done|]. unfold OnTimeToPing. rewrite Hr. cbn [negb].
  by destruct (OnEdgeServerPerformanceRequired cb (visitor r)).
Qed.

Lemma stale_join_after_timeout_witness :
  ∃ s', step (lbs_callback some_config counter) (joined_at 1011 []) (Timer try_ok) = Ok s' ∧
    IsConnected (client s') = false ∧ joined_ (app s') = true ∧
    let reconnected := fst (OnConnect some_config counter (app s') true) in
    joined_ reconnected = true ∧
    snd (OnTimeToPing some_config counter reconnected) =
      [ping some_config (snd (OnEdgeServerPerformanceRequired counter (visitor reconnected)))].
Proof.
  apply (stale_join_after_timeout some_config counter (joined_at 1011 []) try_ok); try done.
  apply joined_at_inv; unfold kMaxTimeout; lia.
Defined.
