(* ===== verification/UniLbsClient.v ===== *)
(** * UniLbsClient: lbs/uni_lbs_client.h and uni_lbs_client.cpp

    The set of connections to the unified LBS servers, one per ip, kept in step
    with the addresses the host name resolves to.

    [connections_] maps a host-ordered ip to a [unique_ptr]: the number of a
    connection object in the store [objs], or [None] once it has been moved from.
    Deleting an object removes it from the store, so a dangling pointer or a
    second deletion is a fault, and an object nobody points to is a leak.  The
    answers of the resolver and of the system calls are arguments. *)

From stdpp Require Import gmap.
From S2P Require Import Prelude Bytes Packer Unpacker Protocols Addresses TcpConnection TcpClient.
From S2P Require Import UniLbsConnection.

Definition INADDR_LOOPBACK : Z := 0x7f000001.

(** [UniLbsClient::Visitor]. *)
Record Visitor (V : Type) := mkVisitor {
  VisitPerformance : V → V * (Z * Z * Z * Z);       (* OnEdgeServerPerformanceRequired *)
  VisitFullChannelList : V → V * list ChannelInfo;  (* OnFullChannelListRequired *)
  VisitMessage : V → Unpacker.Unpacker → Z → result (V * list packing);
  VisitLoadQuota : V → Z → V;                       (* OnUpdateEdgeServerLoadQuota *)
}.
Arguments mkVisitor {V}.
Arguments VisitPerformance {V}.
Arguments VisitFullChannelList {V}.
Arguments VisitMessage {V}.
Arguments VisitLoadQuota {V}.

(** The functions of [UniLbsEventCallback] as the client overrides them:
    [OnLbsConnected] and [OnLbsDisconnected] do nothing. *)
Definition client_events {V} (vis : Visitor V) : EventCallback V :=
  mkEventCallback
    (λ v, (v, [])) (λ v, (v, []))
    (VisitMessage vis) (VisitLoadQuota vis)
    (λ v _, VisitFullChannelList vis v)
    (VisitPerformance vis).

(** A connection object, with the members its constructor fixed. *)
Abbreviation connection V := (LbsConfig * State (LbsState V))%type.

Record LbsClient (V : Type) := mkLbsClient {
  lbs_host_ : bytes;
  lbs_port_ : Z;                 (* uint16_t, host order *)
  service_name_ : bytes;
  service_id_ : Z;               (* uint32_t *)
  service_port_ : Z;             (* uint32_t *)
  reloading_interval_ : Z;       (* uint32_t, seconds *)
  timer_ : option Z;             (* the interval of the timer, in ms *)
  release_version_ : bytes;
  connections_ : gmap Z (option nat);
  objs : gmap nat (connection V);
  next_conn : nat;
  visitor_ : V;
  now : Z;
}.
Arguments mkLbsClient {V}.
Arguments lbs_host_ {V}.
Arguments lbs_port_ {V}.
Arguments service_name_ {V}.
Arguments service_id_ {V}.
Arguments service_port_ {V}.
Arguments reloading_interval_ {V}.
Arguments timer_ {V}.
Arguments release_version_ {V}.
Arguments connections_ {V}.
Arguments objs {V}.
Arguments next_conn {V}.
Arguments visitor_ {V}.
Arguments now {V}.

(** [connections_] is an unordered map: a loop visits its entries in the order that the
    library has them in. *)
Class IterationOrder : Type := {
  visit : gmap Z (option nat) → list (Z * option nat);
  visit_all m : visit m ≡ₚ map_to_list m;
}.

Section client.
Context {V : Type} `{IterationOrder} (vis : Visitor V).
Implicit Types c : LbsClient V.

Definition set_store (m : gmap Z (option nat)) (o : gmap nat (connection V)) (n : nat) (v : V)
    (c : LbsClient V) : LbsClient V :=
  mkLbsClient (lbs_host_ c) (lbs_port_ c) (service_name_ c) (service_id_ c) (service_port_ c)
    (reloading_interval_ c) (timer_ c) (release_version_ c) m o n v (now c).
Definition set_service (id port interval : Z) (t : option Z) (c : LbsClient V) : LbsClient V :=
  mkLbsClient (lbs_host_ c) (lbs_port_ c) (service_name_ c) id port
    interval t (release_version_ c) (connections_ c) (objs c) (next_conn c) (visitor_ c) (now c).

(** The constructor. *)
Definition Create (host service_name : bytes) (lbs_port : Z) (release_version : bytes)
    (t : Z) (v : V) : LbsClient V :=
  mkLbsClient host lbs_port service_name 0 0 600 None release_version ∅ ∅ 0 v t.

Definition SetReloadingInterval (seconds : Z) (c : LbsClient V) : LbsClient V :=
  set_service (service_id_ c) (service_port_ c) (Z.max seconds 100) (timer_ c) c.

(** The object as it runs now: its clock and its owner's state are shared. *)
Definition present (t : Z) (v : V) (s : State (LbsState V)) : State (LbsState V) :=
  mkState (client s) (mkWorld t (next_id (world s)) (bevs (world s)))
    (mkLbsState (joined_ (app s)) v).

Definition config (c : LbsClient V) : LbsConfig :=
  mkLbsConfig (service_id_ c) (u16 (service_port_ c)) (service_name_ c) (release_version_ c).

(** [delete] of a connection: its destructor runs. *)
Definition destroy_conn (i : nat) (o : gmap nat (connection V)) : result (gmap nat (connection V)) :=
  match o !! i with
  | None => Err UseAfterFree
  | Some (_, s) => _ ← Destroy s; Ok (delete i o)
  end.

Definition reset_ptr (p : option (option nat)) (o : gmap nat (connection V))
    : result (gmap nat (connection V)) :=
  match p with Some (Some i) => destroy_conn i o | _ => Ok o end.

(** One address of the loop of [ReloadLbsAddresses]: the old and the new map, the
    store, the next number and the visitor. *)
Record reloading := mkReloading {
  old_conns : gmap Z (option nat);
  new_conns : gmap Z (option nat);
  store : gmap nat (connection V);
  fresh : nat;
  visited : V;
}.

Definition reload_one (c : LbsClient V) (ts : nat → attempt) (r : reloading)
    (addr : NewSockAddress4) : result reloading :=
  let ip := ip_ addr in
  match old_conns r !! ip with
  | Some p =>
      match new_conns r !! ip with
      | None => Ok (mkReloading (<[ip := None]> (old_conns r)) (<[ip := p]> (new_conns r))
                      (store r) (fresh r) (visited r))
      | Some _ => Ok r
      end
  | None =>
      let i := fresh r in
      let cfg := config c in
      '(_, s) ← UniLbsConnection.Connect cfg (client_events vis) (ts i)
                  (make (now c) addr (visited r));
      o ← reset_ptr (new_conns r !! ip) (<[i := (cfg, s)]> (store r));
      Ok (mkReloading (old_conns r) (<[ip := Some i]> (new_conns r)) o (S i)
            (visitor (app s)))
  end.

Fixpoint reload_all (c : LbsClient V) (ts : nat → attempt) (r : reloading)
    (addrs : list NewSockAddress4) : result reloading :=
  match addrs with
  | [] => Ok r
  | addr :: addrs => r ← reload_one c ts r addr; reload_all c ts r addrs
  end.

(** The end of the scope: the old map is destroyed with what it still holds. *)
Fixpoint destroy_all (ps : list (Z * option nat)) (o : gmap nat (connection V))
    : result (gmap nat (connection V)) :=
  match ps with
  | [] => Ok o
  | (_, p) :: ps => o ← reset_ptr (Some p) o; destroy_all ps o
  end.

Definition present_store (c : LbsClient V) : gmap nat (connection V) :=
  (λ x, (fst x, present (now c) (visitor_ c) (snd x))) <$> objs c.

Definition ReloadLbsAddresses (ts : nat → attempt) (new_addresses : list NewSockAddress4)
    (c : LbsClient V) : result (LbsClient V) :=
  r ← reload_all c ts
        (mkReloading (connections_ c) ∅ (present_store c) (next_conn c) (visitor_ c))
        new_addresses;
  o ← destroy_all (visit (old_conns r)) (store r);
  Ok (set_store (new_conns r) o (fresh r) (visited r) c).

(** [ReloadLbsHosts]: [ips] is what [ResolveHost(lbs_host_)] answers. *)
Definition ReloadLbsHosts (ts : nat → attempt) (ips : list Z) (c : LbsClient V)
    : result (LbsClient V) :=
  let ips := match ips with [] => [INADDR_LOOPBACK] | _ => ips end in
  ReloadLbsAddresses ts ((λ ip, mkNewSockAddress4 ip (lbs_port_ c)) <$> ips) c.

Definition UpdateLbsAddresses (ts : nat → attempt) (new_addresses : list NewSockAddress4)
    (c : LbsClient V) : result (LbsClient V) :=
  let c := set_service (service_id_ c) (service_port_ c) (reloading_interval_ c) None c in
  if service_id_ c =? 0 then Ok c else ReloadLbsAddresses ts new_addresses c.

(** The overload for network-ordered addresses. *)
Definition UpdateLbsAddresses4 (ts : nat → attempt) (new_addresses : list SocketAddress4)
    (c : LbsClient V) : result (LbsClient V) :=
  UpdateLbsAddresses ts (NewSockAddress4_of <$> new_addresses) c.

Definition SetServiceInformation (ts : nat → attempt) (ips : list Z) (id port : Z)
    (c : LbsClient V) : result (LbsClient V) :=
  let c := set_service id port (reloading_interval_ c) (timer_ c) c in
  c ← ReloadLbsHosts ts ips c;
  Ok (set_service (service_id_ c) (service_port_ c) (reloading_interval_ c)
        (Some (u32 (reloading_interval_ c * 1000))) c).

(** [for (auto &p : connections_) p.second->f(channel)]. *)
Fixpoint for_connections (f : LbsConfig → State (LbsState V) → result (State (LbsState V)))
    (ps : list (Z * option nat)) (o : gmap nat (connection V))
    : result (gmap nat (connection V)) :=
  match ps with
  | [] => Ok o
  | (_, None) :: _ => Err NullDeref
  | (_, Some i) :: ps =>
      match o !! i with
      | None => Err UseAfterFree
      | Some (cfg, s) => s ← f cfg s; for_connections f ps (<[i := (cfg, s)]> o)
      end
  end.

Definition DoChannelCreate (ch : ChannelInfo) (c : LbsClient V) : result (LbsClient V) :=
  o ← for_connections (λ cfg, UniLbsConnection.DoChannelCreate cfg ch)
        (visit (connections_ c)) (present_store c);
  Ok (set_store (connections_ c) o (next_conn c) (visitor_ c) c).

Definition DoChannelDestroy (ch : ChannelInfo) (c : LbsClient V) : result (LbsClient V) :=
  o ← for_connections (λ cfg, UniLbsConnection.DoChannelDestroy cfg ch)
        (visit (connections_ c)) (present_store c);
  Ok (set_store (connections_ c) o (next_conn c) (visitor_ c) c).

(** An event of the event loop for connection [i]. *)
Definition on_connection (i : nat) (e : event) (c : LbsClient V) : result (LbsClient V) :=
  match present_store c !! i with
  | None => Err UseAfterFree
  | Some (cfg, s) =>
      s ← step (lbs_callback cfg (client_events vis)) s e;
      Ok (set_store (connections_ c) (<[i := (cfg, s)]> (objs c)) (next_conn c)
            (visitor (app s)) c)
  end.

End client.

(** ** Ownership *)

(** The two maps of a reload as one: [false] is the old map. *)
Definition slot (m1 m2 : gmap Z (option nat)) (b : bool) (ip : Z) : option (option nat) :=
  (if b then m2 else m1) !! ip.

Section ownership.
Context {V : Type}.
Implicit Types (o : gmap nat (connection V)) (m : gmap Z (option nat)).

(** The pointers of the two maps own the objects of the store: each object has
    exactly one owner, and keeps the invariant of its client. *)
Record store_ok (t : Z) (m1 m2 : gmap Z (option nat)) (o : gmap nat (connection V)) (n : nat) : Prop := {
  so_owned : ∀ i, is_Some (o !! i) ↔ ∃ b ip, slot m1 m2 b ip = Some (Some i);
  so_unique : ∀ b1 ip1 b2 ip2 i, slot m1 m2 b1 ip1 = Some (Some i) →
    slot m1 m2 b2 ip2 = Some (Some i) → b1 = b2 ∧ ip1 = ip2;
  so_inv : ∀ i x, o !! i = Some x → inv (snd x) ∧ clock (world (snd x)) = t;
  so_fresh : ∀ i, (n ≤ i)%nat → o !! i = None;
}.

Lemma store_ok_ext t m1 m2 m1' m2' o n :
  (∀ b ip i, slot m1' m2' b ip = Some (Some i) ↔ slot m1 m2 b ip = Some (Some i)) →
  store_ok t m1 m2 o n → store_ok t m1' m2' o n.
Proof.
  intros E [H1 H2 H3 H4]. split; [|intros * Ha Hb|done|done].
  - intros i. rewrite H1. by setoid_rewrite E.
  - rewrite E in Ha, Hb. by eapply H2.
Qed.

Lemma store_ok_swap t m1 m2 o n : store_ok t m1 m2 o n → store_ok t m2 m1 o n.
Proof.
  assert (∀ b ip, slot m2 m1 b ip = slot m1 m2 (negb b) ip) as E by (by intros []).
  intros [H1 H2 H3 H4]. split; [|intros * Ha Hb|done|done].
  - intros i. rewrite H1. split; intros (b & ip & Hs); exists (negb b), ip;
      by rewrite E, ?negb_involutive in *.
  - rewrite E in Ha, Hb. destruct (H2 _ _ _ _ _ Ha Hb) as [Hb' ->]. by destruct b1, b2.
Qed.

(** Moving a pointer from the old map to the new one. *)
Lemma store_ok_move t m1 m2 o n ip p :
  store_ok t m1 m2 o n → m1 !! ip = Some p → m2 !! ip = None →
  store_ok t (<[ip := None]> m1) (<[ip := p]> m2) o n.
Proof.
  intros [H1 H2 H3 H4] Hp Hn.
  (* where a pointer of the new maps was before *)
  set (src b jp := if decide (jp = ip) then negb b else b).
  assert (∀ b jp i, slot (<[ip := None]> m1) (<[ip := p]> m2) b jp = Some (Some i) →
            slot m1 m2 (src b jp) jp = Some (Some i)) as Hfwd.
  { intros [] jp i; unfold slot, src; destruct (decide (jp = ip)) as [->|Hj];
      rewrite ?lookup_insert_eq, ?lookup_insert_ne by done; cbn; [|done..].
    intros [= ->]. done. }
  assert (∀ b jp i, slot m1 m2 b jp = Some (Some i) →
            slot (<[ip := None]> m1) (<[ip := p]> m2) (src b jp) jp = Some (Some i)) as Hbwd.
  { intros b jp i. unfold src. destruct (decide (jp = ip)) as [->|Hj].
    - unfold slot. destruct b; cbn; [by rewrite Hn|]. rewrite lookup_insert_eq. congruence.
    - unfold slot. by destruct b; rewrite lookup_insert_ne by done. }
  split; [|intros * Ha Hb|done|done].
  - intros i. rewrite H1. split; intros (b & jp & Hs); eauto.
  - destruct (H2 _ _ _ _ _ (Hfwd _ _ _ Ha) (Hfwd _ _ _ Hb)) as [E ->].
    split; [|done]. unfold src in E. by destruct (decide _), b1, b2.
Qed.

(** A new object, owned by a slot of the new map that owned nothing. *)
Lemma store_ok_add t m1 m2 o n ip x :
  store_ok t m1 m2 o n → inv (snd x) ∧ clock (world (snd x)) = t → (∀ j, m2 !! ip ≠ Some (Some j)) →
  store_ok t m1 (<[ip := Some n]> m2) (<[n := x]> o) (S n).
Proof.
  intros [H1 H2 H3 H4] Hx Hm.
  assert (∀ b jp i, slot m1 (<[ip := Some n]> m2) b jp = Some (Some i) ↔
    (b = true ∧ jp = ip ∧ i = n) ∨ slot m1 m2 b jp = Some (Some i)) as E.
  { intros [] jp i; unfold slot; [|by (split; [by right|]; intros [[? _]|?])].
    destruct (decide (jp = ip)) as [->|Hj].
    - rewrite lookup_insert_eq. split; [intros [= <-]; by left|].
      intros [(_ & _ & ->)|Hs]; [done|]. by destruct (Hm i).
    - rewrite lookup_insert_ne by done. split; [by right|]. by intros [(_ & ? & _)|?]. }
  assert (∀ b jp, slot m1 m2 b jp ≠ Some (Some n)) as Hfr.
  { intros b jp Hs. assert (is_Some (o !! n)) as [y Hy] by (apply H1; eauto).
    by rewrite H4 in Hy by lia. }
  split.
  - intros i. destruct (decide (i = n)) as [->|Hi].
    + rewrite lookup_insert_eq. split; [|done]. intros _. exists true, ip. apply E. by left.
    + rewrite lookup_insert_ne, H1 by done. split; intros (b & jp & Hs); exists b, jp.
      * apply E. by right.
      * apply E in Hs as [(_ & _ & ->)|Hs]; done.
  - intros b1 ip1 b2 ip2 i Ha Hb. apply E in Ha, Hb.
    destruct Ha as [(-> & -> & ->)|Ha], Hb as [(-> & -> & ?)|Hb]; [done|..].
    + by destruct (Hfr b2 ip2).
    + subst i. by destruct (Hfr b1 ip1).
    + by eapply H2.
  - intros i y. destruct (decide (i = n)) as [->|Hi].
    + rewrite lookup_insert_eq. by intros [= <-].
    + rewrite lookup_insert_ne by done. apply H3.
  - intros i Hi. rewrite lookup_insert_ne by lia. apply H4. lia.
Qed.

(** Deleting the object of a slot, which is then null. *)
Lemma destroy_conn_ok t m1 m2 o n i :
  store_ok t m1 m2 o n → is_Some (o !! i) → destroy_conn i o = Ok (delete i o).
Proof.
  intros Ho [[cfg s] Hi]. unfold destroy_conn. rewrite Hi.
  destruct (Close_ok s (proj1 (so_inv _ _ _ _ _ Ho _ _ Hi))) as (w' & E & _).
  unfold Destroy. by rewrite E.
Qed.

Lemma store_ok_drop t m1 m2 o n b ip i :
  store_ok t m1 m2 o n → slot m1 m2 b ip = Some (Some i) →
  store_ok t (if b then m1 else <[ip := None]> m1) (if b then <[ip := None]> m2 else m2)
    (delete i o) n.
Proof.
  intros [H1 H2 H3 H4] Hs.
  assert (∀ b' jp j, slot (if b then m1 else <[ip := None]> m1) (if b then <[ip := None]> m2 else m2)
      b' jp = Some (Some j) ↔ slot m1 m2 b' jp = Some (Some j) ∧ j ≠ i) as E.
  { intros b' jp j. destruct (decide (b' = b ∧ jp = ip)) as [[-> ->]|Hne].
    - split.
      + unfold slot. destruct b; by rewrite lookup_insert_eq.
      + intros [Hj Hji]. congruence.
    - assert (slot (if b then m1 else <[ip := None]> m1) (if b then <[ip := None]> m2 else m2)
        b' jp = slot m1 m2 b' jp) as ->.
      { unfold slot. destruct b, b'; try done; rewrite lookup_insert_ne; try done;
          intros <-; by apply Hne. }
      split; [|by intros [? _]]. intros Hj. split; [done|]. intros ->. apply Hne.
      by eapply H2. }
  split.
  - intros j. destruct (decide (j = i)) as [->|Hj].
    + rewrite lookup_delete_eq. split; [by intros []|]. intros (b' & jp & Hx).
      by apply E in Hx as [_ ?].
    + rewrite lookup_delete_ne, H1 by done. split; intros (b' & jp & Hx); exists b', jp.
      * by apply E.
      * by apply E in Hx as [? _].
  - intros b1 ip1 b2 ip2 j Ha Hb. apply E in Ha as [Ha _], Hb as [Hb _]. by eapply H2.
  - intros j x. rewrite lookup_delete_Some. intros [_ Hx]. by eapply H3.
  - intros j Hj. rewrite lookup_delete_None. right. by apply H4.
Qed.

End ownership.

(** ** Reloading *)

Lemma make_inv {V} t addr (v : V) : 0 ≤ t → t + kMaxTimeout < 2 ^ 31 → inv (make t addr v).
Proof. apply initial_inv. Qed.

Section reload.
Context {V : Type} (vis : Visitor V) (c : LbsClient V).
Context `{!EventCallbackOk (config c) (client_events vis)}.
Context (Hcfg : cfg_ok (config c)).
Context (Hnow : 0 ≤ now c) (Hend : now c + kMaxTimeout < 2 ^ 31).

(** The loop after the addresses of the ips [seen]. *)
Record reloaded (seen : list Z) (r : @reloading V) : Prop := {
  rl_store : store_ok (now c) (old_conns r) (new_conns r) (store r) (fresh r);
  rl_fresh : (next_conn c ≤ fresh r)%nat;
  rl_dom : ∀ ip, is_Some (new_conns r !! ip) ↔ ip ∈ seen;
  rl_seen : ∀ ip p, connections_ c !! ip = Some p → ip ∈ seen →
    new_conns r !! ip = Some p ∧ old_conns r !! ip = Some None;
  rl_unseen : ∀ ip p, connections_ c !! ip = Some p → ip ∉ seen → old_conns r !! ip = Some p;
  rl_absent : ∀ ip, connections_ c !! ip = None → old_conns r !! ip = None;
  rl_objs : ∀ ip i, connections_ c !! ip = Some (Some i) → store r !! i = present_store c !! i;
  rl_new : ∀ ip, connections_ c !! ip = None → ip ∈ seen →
    ∃ i s, new_conns r !! ip = Some (Some i) ∧ (next_conn c ≤ i)%nat ∧
           store r !! i = Some (config c, s) ∧ Ip (addr_ (client s)) = ip;
}.

(** The pointer of a kept connection is in one of the maps. *)
Lemma reloaded_kept seen r ip i : reloaded seen r → connections_ c !! ip = Some (Some i) →
  ∃ b, slot (old_conns r) (new_conns r) b ip = Some (Some i).
Proof using.
  intros Hr Hi. destruct (decide (ip ∈ seen)) as [Hs|Hs].
  - exists true. by destruct (rl_seen _ _ Hr _ _ Hi Hs).
  - exists false. by apply (rl_unseen _ _ Hr).
Qed.

Lemma slot_store t m1 m2 o n b ip i :
  @store_ok V t m1 m2 o n → slot m1 m2 b ip = Some (Some i) → is_Some (o !! i) ∧ (i < n)%nat.
Proof using.
  intros Ho Hs. assert (is_Some (o !! i)) as Hi by (apply (so_owned _ _ _ _ _ Ho); eauto).
  split; [done|]. destruct (decide (i < n)%nat); [done|].
  destruct Hi as [x Hx]. by rewrite (so_fresh _ _ _ _ _ Ho i) in Hx by lia.
Qed.

(** An ip that has a connection: the first time, its pointer moves. *)
Lemma reload_known ts seen r addr p :
  reloaded seen r → old_conns r !! ip_ addr = Some p →
  ∃ r', reload_one vis c ts r addr = Ok r' ∧ reloaded (ip_ addr :: seen) r'.
Proof using.
  intros Hr Hp. unfold reload_one. rewrite Hp. pose proof Hr as [H1 H2 H3 H4 H5 H6 H7 H8].
  assert (∃ q, connections_ c !! ip_ addr = Some q) as [q Hq].
  { destruct (connections_ c !! ip_ addr) eqn:E; [eauto|]. by rewrite H6 in Hp. }
  destruct (new_conns r !! ip_ addr) as [p'|] eqn:En.
  - exists r. split; [done|].
    assert (ip_ addr ∈ seen) as Hin by (apply H3; eauto).
    split; try done.
    + intros ip. rewrite elem_of_cons, H3. split; [by right|]. by intros [->|?].
    + intros ip p0 Hip [->|Hs]%elem_of_cons; [by apply H4|]. by apply H4.
    + intros ip p0 Hip Hs. apply H5; [done|]. intros ?. apply Hs. by right.
    + intros ip Hip [->|Hs]%elem_of_cons; [congruence|]. by apply H8.
  - assert (ip_ addr ∉ seen) as Hns by (intros Hs; apply H3 in Hs as [? ?]; congruence).
    rewrite (H5 _ _ Hq Hns) in Hp. injection Hp as ->.
    eexists; split; [done|]. split; cbn.
    + apply store_ok_move; [done|by apply H5|done].
    + done.
    + intros ip. rewrite elem_of_cons. destruct (decide (ip = ip_ addr)) as [->|Hne].
      * rewrite lookup_insert_eq. split; [by left|eauto].
      * rewrite lookup_insert_ne, H3 by done. split; [by right|]. by intros [?|?].
    + intros ip p0 Hip Hs. destruct (decide (ip = ip_ addr)) as [->|Hne].
      * rewrite !lookup_insert_eq. split; congruence.
      * rewrite !lookup_insert_ne by done. apply elem_of_cons in Hs as [?|?]; [done|]. by apply H4.
    + intros ip p0 Hip Hs. apply not_elem_of_cons in Hs as [Hne Hs].
      rewrite lookup_insert_ne by done. by apply H5.
    + intros ip Hip. destruct (decide (ip = ip_ addr)) as [->|Hne]; [congruence|].
      rewrite lookup_insert_ne by done. by apply H6.
    + done.
    + intros ip Hip [->|Hs]%elem_of_cons; [congruence|].
      destruct (H8 ip Hip Hs) as (i & s & Hn & ?). exists i, s.
      rewrite lookup_insert_ne; [done|]. intros <-. congruence.
Qed.

(** An ip without a connection: a new one connects; one made for the same ip before
    is deleted. *)
Lemma reload_unknown ts seen r addr :
  reloaded seen r → u32_ok (ip_ addr) → old_conns r !! ip_ addr = None →
  ∃ r', reload_one vis c ts r addr = Ok r' ∧ reloaded (ip_ addr :: seen) r'.
Proof using All.
  intros Hr Hip Hp. unfold reload_one. rewrite Hp. pose proof Hr as [H1 H2 H3 H4 H5 H6 H7 H8].
  assert (connections_ c !! ip_ addr = None) as Hn.
  { destruct (connections_ c !! ip_ addr) as [p|] eqn:E; [|done]. exfalso.
    destruct (decide (ip_ addr ∈ seen)) as [Hs|Hs].
    - destruct (H4 _ _ E Hs). congruence.
    - rewrite (H5 _ _ E Hs) in Hp. congruence. }
  destruct (Connect_ok (lbs_callback (config c) (client_events vis)) (lbs_callback_ok _ _ Hcfg)
    (ts (fresh r)) (make (now c) addr (visited r))) as (b & s & E & Hs); [by apply make_inv|].
  unfold UniLbsConnection.Connect. rewrite E, bind_ok.
  assert (Ip (addr_ (client s)) = ip_ addr) as Ha.
  { rewrite (proj1 (Connect_steady _ _ _ _ _ E)). exact (ntohl_htonl _ Hip). }
  set (n := fresh r) in *. set (x := (config c, s)).
  (* the map and the store once the old object of the slot is gone *)
  assert (∃ m o, reset_ptr (new_conns r !! ip_ addr) (<[n := x]> (store r)) = Ok (<[n := x]> o) ∧
    store_ok (now c) (old_conns r) m o n ∧ (∀ j, m !! ip_ addr ≠ Some (Some j)) ∧
    <[ip_ addr := Some n]> m = <[ip_ addr := Some n]> (new_conns r) ∧
    (∀ i ip b, ip ≠ ip_ addr → slot (old_conns r) (new_conns r) b ip = Some (Some i) →
       o !! i = store r !! i))
    as (m & o & -> & Ho & Hm & Em & Hkeep).
  { destruct (new_conns r !! ip_ addr) as [[j|]|] eqn:En.
    - destruct (slot_store _ _ _ _ _ true _ _ H1 En) as [Hj Hjn].
      exists (<[ip_ addr := None]> (new_conns r)), (delete j (store r)). split_and!.
      + cbn. unfold destroy_conn. rewrite lookup_insert_ne by lia.
        pose proof (destroy_conn_ok _ _ _ _ _ j H1 Hj) as Hd. unfold destroy_conn in Hd.
        destruct Hj as [[cfg s1] Hj]. rewrite Hj in Hd |- *.
        destruct (Destroy s1); [|done]. cbn. by rewrite delete_insert_ne by lia.
      + exact (store_ok_drop _ _ _ _ _ true _ _ H1 En).
      + intros k. by rewrite lookup_insert_eq.
      + by rewrite insert_insert_eq.
      + intros i ip b' Hne Hi. apply lookup_delete_ne. intros ->.
        by destruct (so_unique _ _ _ _ _ H1 _ _ _ _ _ Hi (En : slot _ _ true _ = _)) as [_ ?].
    - exists (new_conns r), (store r). by split_and!; try done; rewrite En.
    - exists (new_conns r), (store r). by split_and!; try done; rewrite En. }
  rewrite bind_ok, <- Em. eexists; split; [done|]. split; cbn.
  - apply store_ok_add; [done| |done]. split; [done|]. exact (proj2 (Connect_steady _ _ _ _ _ E)).
  - lia.
  - intros ip. rewrite Em, elem_of_cons. destruct (decide (ip = ip_ addr)) as [->|Hne].
    + rewrite lookup_insert_eq. split; [by left|eauto].
    + rewrite lookup_insert_ne, H3 by done. split; [by right|]. by intros [?|?].
  - intros ip p Hc Hsn. assert (ip ≠ ip_ addr) as Hne by congruence.
    rewrite Em, lookup_insert_ne by done. apply elem_of_cons in Hsn as [?|?]; [done|]. by apply H4.
  - intros ip p Hc Hsn. apply not_elem_of_cons in Hsn as [_ Hsn]. by apply H5.
  - done.
  - intros ip i Hc. assert (ip ≠ ip_ addr) as Hne by congruence.
    destruct (reloaded_kept seen r ip i Hr Hc) as [b' Hi].
    destruct (slot_store _ _ _ _ _ _ _ _ H1 Hi) as [_ Hlt].
    rewrite lookup_insert_ne by lia. rewrite (Hkeep i ip b' Hne Hi). by eapply H7.
  - intros ip Hc Hsn. rewrite Em. destruct (decide (ip = ip_ addr)) as [->|Hne].
    + exists n, s. rewrite !lookup_insert_eq. split_and!; [done|lia|done|done].
    + apply elem_of_cons in Hsn as [?|Hsn]; [done|].
      destruct (H8 ip Hc Hsn) as (i & s1 & Hi & Hle & Hst & Hip1). exists i, s1.
      rewrite lookup_insert_ne by done. split_and!; try done.
      destruct (slot_store _ _ _ _ _ true _ _ H1 Hi) as [_ Hlt].
      rewrite lookup_insert_ne by lia. by rewrite (Hkeep i ip true Hne Hi).
Qed.

Lemma reload_all_ok ts addrs : ∀ seen r,
  Forall (λ a, u32_ok (ip_ a)) addrs → reloaded seen r →
  ∃ r', reload_all vis c ts r addrs = Ok r' ∧ reloaded (rev (ip_ <$> addrs) ++ seen) r'.
Proof using All.
  induction addrs as [|a addrs IH]; intros seen r Hok Hr; [by exists r|].
  apply Forall_cons_1 in Hok as [Ha Hok]. cbn [reload_all].
  assert (∃ r1, reload_one vis c ts r a = Ok r1 ∧ reloaded (ip_ a :: seen) r1) as (r1 & -> & Hr1).
  { destruct (old_conns r !! ip_ a) eqn:E; [by eapply reload_known|by apply reload_unknown]. }
  rewrite bind_ok. destruct (IH _ _ Hok Hr1) as (r' & -> & Hr'). exists r'. split; [done|].
  cbn. by rewrite <- app_assoc.
Qed.

End reload.

Lemma destroy_all_ok {V} t m2 n ps : ∀ o : gmap nat (connection V), NoDup ps.*1 →
  store_ok t (list_to_map ps) m2 o n →
  ∃ o', destroy_all ps o = Ok o' ∧ store_ok t ∅ m2 o' n ∧
    ∀ ip i, m2 !! ip = Some (Some i) → o' !! i = o !! i.
Proof.
  induction ps as [|[k p] ps IH]; intros o Hnd Ho; [by exists o|].
  inversion Hnd as [|? ? Hk Hnd']; subst; clear Hnd; rename Hnd' into Hnd.
  change (k ∉ ps.*1) in Hk. change (NoDup ps.*1) in Hnd. cbn [list_to_map foldr fst snd] in Ho.
  assert ((list_to_map ps : gmap Z (option nat)) !! k = None) as Hlk
    by (by apply not_elem_of_list_to_map).
  (* the slot of k set to null is the map without k *)
  assert (∀ o' : gmap nat (connection V), store_ok t (<[k := None]> (list_to_map ps)) m2 o' n →
            store_ok t (list_to_map ps) m2 o' n) as Hnull.
  { intros o'. apply store_ok_ext. intros [] jp i; [done|]. unfold slot.
    destruct (decide (jp = k)) as [->|Hj]; [|by rewrite lookup_insert_ne].
    rewrite lookup_insert_eq, Hlk. by split. }
  cbn [destroy_all]. destruct p as [i|].
  - assert (slot (<[k := Some i]> (list_to_map ps)) m2 false k = Some (Some i)) as Hs
      by apply lookup_insert_eq.
    cbn [reset_ptr]. rewrite (destroy_conn_ok _ _ _ _ _ i Ho);
      [|by apply (slot_store _ _ _ _ _ _ _ _ Ho Hs)].
    rewrite bind_ok. pose proof (store_ok_drop _ _ _ _ _ _ _ _ Ho Hs) as Hd. cbn in Hd.
    rewrite insert_insert_eq in Hd.
    destruct (IH _ Hnd (Hnull _ Hd)) as (o' & -> & Ho' & Hkeep). exists o'. split_and!; try done.
    intros ip j Hj. rewrite (Hkeep ip j Hj). apply lookup_delete_ne. intros ->.
    by destruct (so_unique _ _ _ _ _ Ho _ _ _ _ _ Hs (Hj : slot _ m2 true ip = _)).
  - cbn [reset_ptr]. rewrite bind_ok. apply (IH o Hnd). by apply Hnull.
Qed.

(** ** The loops over the connections *)

Lemma for_connections_ok {V} (f : LbsConfig → State (LbsState V) → result (State (LbsState V))) ps :
  ∀ o : gmap nat (connection V), NoDup (ps.*2) →
  (∀ p, p ∈ ps.*2 → ∃ i cfg s s', p = Some i ∧ o !! i = Some (cfg, s) ∧ f cfg s = Ok s') →
  ∃ o', for_connections f ps o = Ok o' ∧
    ∀ i, (Some i ∈ ps.*2 → ∃ cfg s s', o !! i = Some (cfg, s) ∧ f cfg s = Ok s' ∧ o' !! i = Some (cfg, s')) ∧
         (Some i ∉ ps.*2 → o' !! i = o !! i).
Proof.
  induction ps as [|[k p] ps IH]; intros o Hnd Hok.
  { exists o. split; [done|]. intros i. split; [by intros []%not_elem_of_nil|done]. }
  inversion Hnd as [|? ? Hp Hnd']; subst. change (p ∉ ps.*2) in Hp. change (NoDup ps.*2) in Hnd'.
  destruct (Hok p) as (i & cfg & s & s' & -> & Hi & Hf); [by left|].
  cbn [for_connections]. rewrite Hi, Hf, bind_ok.
  destruct (IH (<[i := (cfg, s')]> o) Hnd') as (o' & -> & Ho').
  { intros q Hq. destruct (Hok q) as (j & cfgj & sj & sj' & -> & Hj & Hfj); [by right|].
    exists j, cfgj, sj, sj'. rewrite lookup_insert_ne; [done|]. by intros <-. }
  exists o'. split; [done|]. intros j. destruct (Ho' j) as [Hin Hout].
  change (((k, Some i) :: ps).*2) with (Some i :: ps.*2).
  destruct (decide (j = i)) as [->|Hne].
  - split; [|intros Hn; exfalso; apply Hn; by left]. intros _. exists cfg, s, s'.
    split_and!; try done. rewrite (Hout Hp). apply lookup_insert_eq.
  - rewrite lookup_insert_ne in Hin, Hout by done. split.
    + intros [[= ->]|Hj]%elem_of_cons; [done|]. by apply Hin.
    + intros Hn. apply Hout. intros Hj. apply Hn. by right.
Qed.

(** Every order visits each entry once. *)
Lemma visit_NoDup `{IterationOrder} m : NoDup ((visit m).*1).
Proof. rewrite visit_all. apply NoDup_fst_map_to_list. Qed.
Lemma visit_map `{IterationOrder} m : list_to_map (visit m) = m.
Proof. rewrite (list_to_map_proper _ _ (visit_NoDup m) (visit_all m)). apply list_to_map_to_list. Qed.

(** The entries of the map of a consistent client, as the loops see them. *)
Lemma client_entries `{IterationOrder} {V} (c : LbsClient V) :
  store_ok (now c) (connections_ c) ∅ (present_store c) (next_conn c) →
  (∀ ip, connections_ c !! ip ≠ Some None) →
  NoDup ((visit (connections_ c)).*2) ∧
  (∀ p, p ∈ (visit (connections_ c)).*2 ↔
     ∃ i, p = Some i ∧ is_Some (present_store c !! i)).
Proof.
  intros Hs Hf. rewrite visit_all.
  assert (∀ ip i, connections_ c !! ip = Some (Some i) → is_Some (present_store c !! i)) as Hown.
  { intros ip i Hi. apply (so_owned _ _ _ _ _ Hs). by exists false, ip. }
  assert (∀ ip p, (ip, p) ∈ map_to_list (connections_ c) → ∃ i, p = Some i ∧
    connections_ c !! ip = Some (Some i)) as He.
  { intros ip p Hip%elem_of_map_to_list. destruct p as [i|]; [eauto|]. by destruct (Hf ip). }
  split.
  - pose proof (NoDup_map_to_list (connections_ c)) as Hnd. revert Hnd He.
    induction (map_to_list (connections_ c)) as [|[ip p] l IH]; intros Hnd He; [constructor|].
    inversion Hnd as [|? ? Hx Hnd']; subst. constructor.
    + intros ([ip' p'] & Ep & Hin)%list_elem_of_fmap. cbn in Ep. subst p'.
      destruct (He ip p) as (i & -> & Hi); [by left|]. destruct (He ip' (Some i)) as (j & [= <-] & Hj);
        [by right|].
      destruct (so_unique _ _ _ _ _ Hs _ _ _ _ _ (Hi : slot _ ∅ false ip = _)
        (Hj : slot _ ∅ false ip' = _)) as [_ ->]. done.
    + apply IH; [done|]. intros jp q Hq. apply He. by right.
  - intros p. rewrite visit_all, list_elem_of_fmap. split.
    + intros ([ip q] & -> & Hq). destruct (He _ _ Hq) as (i & -> & Hi). eauto.
    + intros (i & -> & Hi). apply (so_owned _ _ _ _ _ Hs) in Hi as ([] & ip & Hi).
      * unfold slot in Hi. by rewrite lookup_empty in Hi.
      * exists (ip, Some i). split; [done|]. by apply elem_of_map_to_list.
Qed.

(** ** Properties *)

(** Between two calls: every entry of the map owns one object of the store, no
    object is unowned, and each satisfies the invariant of its client. *)
Record client_inv {V} (c : LbsClient V) : Prop := {
  ci_store : store_ok (now c) (connections_ c) ∅ (present_store c) (next_conn c);
  ci_now : 0 ≤ now c ∧ now c + kMaxTimeout < 2 ^ 31;
  ci_full : ∀ ip, connections_ c !! ip ≠ Some None;
}.

Lemma present_store_self {V} (c : LbsClient V) o m n v :
  (∀ i x, o !! i = Some x → inv (snd x) ∧ clock (world (snd x)) = now c) →
  ∀ i x, present_store (set_store m o n v c) !! i = Some x →
    inv (snd x) ∧ clock (world (snd x)) = now c.
Proof.
  intros Ho i x. unfold present_store. rewrite lookup_fmap. cbn [objs set_store].
  destruct (o !! i) as [y|] eqn:E; [|done]. cbn. intros [= <-]. cbn.
  destruct (Ho _ _ E) as [[Ht Hl] Hc]. split; [|done]. split; [|done]. cbn. by rewrite <- Hc.
Qed.

(** A reload keeps the invariant and follows the addresses. *)
Lemma reload_in_step `{IterationOrder} {V} (vis : Visitor V) (c : LbsClient V) ts addrs
    (Hvis : EventCallbackOk (config c) (client_events vis)) (Hcfg : cfg_ok (config c))
    (Hc : client_inv c) (Ha : Forall (λ a, u32_ok (ip_ a)) addrs) :
  ∃ c', ReloadLbsAddresses vis ts addrs c = Ok c' ∧ client_inv c' ∧
    (∀ ip, is_Some (connections_ c' !! ip) ↔ ip ∈ ip_ <$> addrs) ∧
    (∀ ip i, connections_ c !! ip = Some (Some i) → ip ∈ ip_ <$> addrs →
       connections_ c' !! ip = Some (Some i) ∧ objs c' !! i = present_store c !! i) ∧
    (∀ ip i, connections_ c !! ip = Some (Some i) → ip ∉ ip_ <$> addrs → objs c' !! i = None) ∧
    (∀ ip, connections_ c !! ip = None → ip ∈ ip_ <$> addrs →
       ∃ i s, connections_ c' !! ip = Some (Some i) ∧ (next_conn c ≤ i)%nat ∧
              objs c' !! i = Some (config c, s) ∧ Ip (addr_ (client s)) = ip) ∧
    (∀ i, is_Some (objs c' !! i) ↔ ∃ ip, connections_ c' !! ip = Some (Some i)).
Proof.
  destruct Hc as [Hs [Hn He] Hf].
  destruct (reload_all_ok vis c Hcfg Hn He ts addrs []
    (mkReloading (connections_ c) ∅ (present_store c) (next_conn c) (visitor_ c)))
    as (r & E & Hr); [done| |].
  { split; cbn; try done.
    - intros ip. rewrite lookup_empty. split; [by intros []|by intros []%not_elem_of_nil].
    - by intros ip p _ []%not_elem_of_nil.
    - by intros ip _ []%not_elem_of_nil. }
  rewrite app_nil_r in Hr. pose proof Hr as [H1 H2 H3 H4 H5 H6 H7 H8].
  assert (∀ ip, ip ∈ rev (ip_ <$> addrs) ↔ ip ∈ ip_ <$> addrs) as Hin.
  { intros ip. by rewrite !list_elem_of_In, <- in_rev. }
  unfold ReloadLbsAddresses. rewrite E, bind_ok.
  destruct (destroy_all_ok (now c) (new_conns r) (fresh r) (visit (old_conns r)) (store r))
    as (o & -> & Ho & Hkeep); [apply visit_NoDup|by rewrite visit_map|].
  rewrite bind_ok. eexists; split; [done|].
  assert (∀ i, is_Some (o !! i) ↔ ∃ ip, new_conns r !! ip = Some (Some i)) as Hown.
  { intros i. rewrite (so_owned _ _ _ _ _ Ho). split.
    - intros ([] & ip & Hi); [by exists ip|]. unfold slot in Hi. by rewrite lookup_empty in Hi.
    - intros [ip Hi]. by exists true, ip. }
  split_and!; cbn [connections_ objs set_store]; try done.
  - destruct (store_ok_swap _ _ _ _ _ Ho) as [G1 G2 G3 G4]. split; [split|done|]; cbn.
    + intros i. unfold present_store. rewrite lookup_fmap, fmap_is_Some. apply G1.
    + done.
    + by apply (present_store_self c o (new_conns r) (fresh r) (visited r) G3).
    + intros i Hi. unfold present_store. rewrite lookup_fmap. cbn. by rewrite G4.
    + intros ip Hip. assert (ip ∈ rev (ip_ <$> addrs)) as Hs' by (apply H3; eauto).
      destruct (connections_ c !! ip) as [p|] eqn:Ec.
      * destruct (H4 _ _ Ec Hs') as [Hp _]. destruct p; [congruence|]. by destruct (Hf ip).
      * destruct (H8 _ Ec Hs') as (i & s & Hi & _). congruence.
  - intros ip. by rewrite H3.
  - intros ip i Hi Hip%Hin. destruct (H4 _ _ Hi Hip) as [Hnew _]. split; [done|].
    rewrite (Hkeep _ _ Hnew). by eapply H7.
  - intros ip i Hi Hip. destruct (o !! i) as [x|] eqn:Eo; [|done]. exfalso.
    destruct (proj1 (Hown i)) as [jp Hj]; [eauto|].
    assert (ip ∉ rev (ip_ <$> addrs)) as Hns by (by rewrite Hin).
    pose proof (H5 _ _ Hi Hns) as Hold.
    by destruct (so_unique _ _ _ _ _ H1 _ _ _ _ _ (Hold : slot _ (new_conns r) false ip = _)
      (Hj : slot _ _ true jp = _)).
  - intros ip Hi Hip%Hin. destruct (H8 ip Hi Hip) as (i & s & Hnew & Hle & Hst & Haddr).
    exists i, s. split_and!; try done. by rewrite (Hkeep _ _ Hnew).
Qed.


(** One order. *)
Definition map_order : IterationOrder :=
  {| visit := map_to_list; visit_all m := reflexivity (map_to_list m) |}.
#[local] Existing Instance map_order.

(** A visitor that counts messages and reports one channel. *)
Definition quiet_visitor : Visitor nat :=
  mkVisitor (λ n, (n, (1, 2, 3, 4))) (λ n, (n, [mkChannelInfo 5 6 [99]]))
    (λ n _ _, Ok (S n, [])) (λ n _, n).

(** A client that was given its service information before any address. *)
Definition fresh_client : LbsClient nat :=
  set_service 42 8000 600 None (Create [108; 98; 115] [118; 111; 115] 6000 [49] 1000 0%nat).

Lemma fresh_client_inv : client_inv fresh_client.
Proof.
  split; [split| |].
  - intros i. split; [by intros [? ?]|]. intros ([] & ip & H); discriminate H.
  - intros [] ip1 b2 ip2 i H; discriminate H.
  - done.
  - done.
  - unfold kMaxTimeout. cbn. lia.
  - done.
Qed.


(** A loop over the connections that keeps each consistent keeps the client consistent. *)
Lemma for_connections_keep `{IterationOrder} {V} (c : LbsClient V)
    (f : LbsConfig → State (LbsState V) → result (State (LbsState V))) (Hc : client_inv c)
    (Hf : ∀ i cfg s, present_store c !! i = Some (cfg, s) → ∃ s', f cfg s = Ok s' ∧
       inv s' ∧ clock (world s') = now c) :
  ∃ o, for_connections f (visit (connections_ c)) (present_store c) = Ok o ∧
    client_inv (set_store (connections_ c) o (next_conn c) (visitor_ c) c) ∧
    (∀ i cfg s, present_store c !! i = Some (cfg, s) → ∃ s', o !! i = Some (cfg, s') ∧ f cfg s = Ok s') ∧
    (∀ i, present_store c !! i = None → o !! i = None).
Proof.
  destruct Hc as [Hs Hn Hfull]. destruct (client_entries c Hs Hfull) as [Hnd Hent].
  destruct (for_connections_ok f (visit (connections_ c)) (present_store c) Hnd)
    as (o & E & Ho).
  { intros p Hp. apply Hent in Hp as (i & -> & [[cfg s] Hi]).
    destruct (Hf _ _ _ Hi) as (s' & E & _). eauto 8. }
  assert (∀ i cfg s, present_store c !! i = Some (cfg, s) → ∃ s', o !! i = Some (cfg, s') ∧
    f cfg s = Ok s') as Hto.
  { intros i cfg s Hi. destruct (Ho i) as [Hin _].
    destruct Hin as (cfg1 & s1 & s1' & Hi1 & Hf' & Hres); [apply Hent; eauto|].
    rewrite Hi in Hi1. injection Hi1 as <- <-. eauto. }
  assert (∀ i, present_store c !! i = None → o !! i = None) as Hnone.
  { intros i Hi. destruct (Ho i) as [_ Hout]. rewrite Hout; [done|].
    intros (j & [= <-] & Hj)%Hent. rewrite Hi in Hj. by destruct Hj. }
  exists o. split_and!; [done| |done|done]. destruct Hs as [G1 G2 G3 G4]. split; [split|done|done].
  - intros i. unfold present_store. rewrite lookup_fmap, fmap_is_Some. cbn. rewrite <- G1.
    destruct (present_store c !! i) as [[cfg s]|] eqn:Ei.
    + destruct (Hto _ _ _ Ei) as (s' & -> & _). split; eauto.
    + by rewrite (Hnone _ Ei).
  - done.
  - apply (present_store_self c o (connections_ c) (next_conn c) (visitor_ c)). intros i x Hx.
    destruct (present_store c !! i) as [[cfg s]|] eqn:Ei; [|by rewrite Hnone in Hx].
    destruct (Hto _ _ _ Ei) as (s' & Hoi & Hs'). rewrite Hoi in Hx. injection Hx as <-.
    destruct (Hf _ _ _ Ei) as (s1 & Hs1 & Hi1 & Hc1). rewrite Hs' in Hs1. by injection Hs1 as <-.
  - intros i Hi. unfold present_store. rewrite lookup_fmap. cbn. by rewrite Hnone by (by apply G4).
Qed.

(** Both channel updates: what a joined connection sends fits, an unjoined one is left alone. *)
Lemma channel_update_ok {V} (c : LbsClient V) ch (f : LbsConfig → State (LbsState V) → result (State (LbsState V)))
    (Hcf : f = (λ cfg, UniLbsConnection.DoChannelCreate cfg ch) ∨ f = (λ cfg, UniLbsConnection.DoChannelDestroy cfg ch))
    (Hc : client_inv c) (Hch : channel_ok ch)
    (Hcfg : ∀ i x, objs c !! i = Some x → u32_ok (UniLbsConnection.service_id_ (fst x))) :
  ∀ i cfg s, present_store c !! i = Some (cfg, s) → ∃ s', f cfg s = Ok s' ∧ inv s' ∧
    clock (world s') = now c ∧ (joined_ (app s) = false → s' = s).
Proof.
  destruct Hc as [Hs Hn Hfull]. intros i cfg s Hi.
  destruct (so_inv _ _ _ _ _ Hs _ _ Hi) as [Hinv Hclk]. cbn in Hinv, Hclk.
  assert (u32_ok (UniLbsConnection.service_id_ cfg)) as Hu.
  { unfold present_store in Hi. rewrite lookup_fmap in Hi.
    destruct (objs c !! i) as [x|] eqn:E; [|done]. injection Hi as <- _. by eapply Hcfg. }
  assert (∀ k, ccmd_ok k → ∃ s', run_ccmd s k = Ok s' ∧ inv s' ∧ clock (world s') = now c) as Hk.
  { intros k Hk. destruct (run_ccmd_ok k s Hinv Hk) as (s' & E & Hinv').
    exists s'. split_and!; [done|done|]. by rewrite (proj2 (run_ccmd_steady _ _ _ E)). }
  destruct Hcf as [-> | ->]; unfold UniLbsConnection.DoChannelCreate, UniLbsConnection.DoChannelDestroy;
    (destruct (joined_ (app s)); [|by exists s]).
  - destruct (Hk _ (proj1 (delta_ok cfg ch Hu Hch))) as (s' & ? & ? & ?). by exists s'.
  - destruct (Hk _ (proj2 (delta_ok cfg ch Hu Hch))) as (s' & ? & ? & ?). by exists s'.
Qed.

(** calls between reloads keep the client consistent.  A channel announcement
    or withdrawal on a client whose invariant holds goes to every connection
    without touching a null or deleted pointer, and a connection that is not joined
    writes nothing. *)
Theorem channel_updates_reach_all `{IterationOrder} {V} (c : LbsClient V) ch
    (Hc : client_inv c) (Hch : channel_ok ch)
    (Hcfg : ∀ i x, objs c !! i = Some x → u32_ok (UniLbsConnection.service_id_ (fst x))) :
  ∃ c', DoChannelCreate ch c = Ok c' ∧ client_inv c' ∧ connections_ c' = connections_ c ∧
    ∀ i cfg s, present_store c !! i = Some (cfg, s) →
      ∃ s', objs c' !! i = Some (cfg, s') ∧ UniLbsConnection.DoChannelCreate cfg ch s = Ok s' ∧
            (joined_ (app s) = false → s' = s).
Proof.
  pose proof (channel_update_ok c ch _ (or_introl eq_refl) Hc Hch Hcfg) as Hf.
  destruct (for_connections_keep c (λ cfg, UniLbsConnection.DoChannelCreate cfg ch) Hc) as (o & E & Hi & Hto & _).
  { intros i cfg s Hi. destruct (Hf i cfg s Hi) as (s' & E & ? & ? & _). exists s'. split_and!; [exact E|done|done]. }
  unfold DoChannelCreate. rewrite E, bind_ok. eexists; split_and!; [done|done|done|].
  intros i cfg s Hs. destruct (Hto _ _ _ Hs) as (s' & Ho & Hs'). exists s'. split_and!; [done|done|].
  destruct (Hf _ _ _ Hs) as (s1 & Hs1 & _ & _ & Hj). rewrite Hs' in Hs1. by injection Hs1 as <-.
Qed.

(** A client with one joined connection, to 10.0.0.1. *)
Definition one_connection : LbsClient nat :=
  set_store {[ 0x0a000001 := Some 0%nat ]} {[ 0%nat := (some_config, joined_at 1000 [7]) ]} 1 0%nat
    fresh_client.

Lemma one_connection_inv : client_inv one_connection.
Proof.
  assert (∀ i x, present_store one_connection !! i = Some x →
    i = 0%nat ∧ x = (some_config, present 1000 0%nat (joined_at 1000 [7]))) as Hp.
  { intros i x. unfold present_store, one_connection. cbn [objs set_store].
    rewrite map_fmap_singleton. by intros [<- <-]%lookup_singleton_Some. }
  split; [split| |].
  - intros i. split.
    + intros [x Hx]. destruct (Hp _ _ Hx) as [-> _]. exists false, 0x0a000001. done.
    + intros ([] & ip & Hi); [by unfold slot in Hi; rewrite lookup_empty in Hi|].
      unfold slot in Hi. cbn [connections_ one_connection set_store] in Hi.
      apply lookup_singleton_Some in Hi as [_ [= <-]]. by eexists.
  - intros b1 ip1 b2 ip2 i H1 H2. unfold slot in *.
    destruct b1; [by rewrite lookup_empty in H1|]. destruct b2; [by rewrite lookup_empty in H2|].
    cbn [connections_ one_connection set_store] in *.
    apply lookup_singleton_Some in H1 as [<- _], H2 as [<- _]. done.
  - intros i x Hx. destruct (Hp _ _ Hx) as [_ ->]. split; [|done].
    apply (joined_at_inv 1000 [7]); unfold kMaxTimeout; lia.
  - intros i Hi. destruct (present_store one_connection !! i) eqn:E; [|done].
    destruct (Hp _ _ E) as [-> _]. cbn in Hi. lia.
  - unfold kMaxTimeout. cbn. lia.
  - intros ip Hi. cbn in Hi. by apply lookup_singleton_Some in Hi as [_ ?].
Qed.

Lemma channel_updates_reach_all_witness :
  ∃ c', DoChannelCreate (mkChannelInfo 9 1 [120]) one_connection = Ok c' ∧ client_inv c' ∧
    connections_ c' = connections_ one_connection ∧
    ∀ i cfg s, present_store one_connection !! i = Some (cfg, s) →
      ∃ s', objs c' !! i = Some (cfg, s') ∧
            UniLbsConnection.DoChannelCreate cfg (mkChannelInfo 9 1 [120]) s = Ok s' ∧
            (joined_ (app s) = false → s' = s).
Proof.
  apply (channel_updates_reach_all one_connection (mkChannelInfo 9 1 [120])).
  - exact one_connection_inv.
  - split; [unfold u32_ok; cbn; lia|]. split; [done|]. by apply (bool_decide_unpack (bytes_ok _)).
  - intros i x Hx. cbn [objs one_connection set_store] in Hx.
    apply lookup_singleton_Some in Hx as [_ <-]. unfold u32_ok; cbn; lia.
Defined.
