(* ===== verification/UniLbsInterface.v ===== *)
(** * UniLbsInterface: lbs/uni_lbs_client_interface.h and .cpp

    The class that hides [UniLbsClient] from its users: an adaptor around their callback
    and functions that forward.  The interface keeps what the client does and fixes its
    release version to the empty text. *)

From stdpp Require Import gmap.
From S2P Require Import Prelude Bytes Addresses TcpClient UniLbsConnection UniLbsClient.

(** [UniLbsClientInterface::Callback], the functions that have an effect here. *)
Record Callback (V : Type) := mkCallback {
  CbMessageReceived : V → Unpacker.Unpacker → Z → result (V * list packing);
  CbFullChannelListRequired : V → V * list ChannelInfo;
  CbEdgeServerPerformanceRequired : V → V * (Z * Z * Z * Z);
  CbUpdateEdgeServerLoadQuota : V → Z → V;
}.
Arguments mkCallback {V}.
Arguments CbMessageReceived {V}.
Arguments CbFullChannelListRequired {V}.
Arguments CbEdgeServerPerformanceRequired {V}.
Arguments CbUpdateEdgeServerLoadQuota {V}.

Section interface.
Context {V : Type} `{IterationOrder} (callback : Callback V).

(** [CallbackAdaptor] is a visitor of the client. *)
Definition CallbackAdaptor : Visitor V :=
  mkVisitor
    (λ v, CbEdgeServerPerformanceRequired callback v)
    (λ v, CbFullChannelListRequired callback v)
    (λ v p uri, CbMessageReceived callback v p uri)
    (λ v max_users, CbUpdateEdgeServerLoadQuota callback v max_users).

Definition Interface_make (host service_name : bytes) (lbs_port t : Z) (v : V) : LbsClient V :=
  Create host service_name lbs_port [] t v.
Definition Interface_SetReloadingInterval (seconds : Z) (c : LbsClient V) : LbsClient V :=
  SetReloadingInterval seconds c.
Definition Interface_SetServiceInformation (ts : nat → attempt) (ips : list Z) (service_id service_port : Z)
    (c : LbsClient V) : result (LbsClient V) :=
  SetServiceInformation CallbackAdaptor ts ips service_id service_port c.
Definition Interface_DoChannelCreate (vid cid : Z) (name : bytes) (c : LbsClient V) : result (LbsClient V) :=
  DoChannelCreate (mkChannelInfo vid cid name) c.
Definition Interface_DoChannelDestroy (vid cid : Z) (name : bytes) (c : LbsClient V) : result (LbsClient V) :=
  DoChannelDestroy (mkChannelInfo vid cid name) c.
End interface.

(** ** The client as it runs

    What its user, its timer, the clock and the network do to it. *)

Inductive occurrence :=
  | OSetReloadingInterval (seconds : Z)
  | OSetServiceInformation (ts : nat → attempt) (ips : list Z) (service_id service_port : Z)
  | ODoChannelCreate (vid cid : Z) (name : bytes)
  | ODoChannelDestroy (vid cid : Z) (name : bytes)
  | OReload (ts : nat → attempt) (ips : list Z)       (* the timer *)
  | OTime (seconds : Z)
  | OConnection (i : nat) (e : event).

(** Time passes for the client and all its connections. *)
Definition pass {V} (n : Z) (c : LbsClient V) : LbsClient V :=
  mkLbsClient (lbs_host_ c) (lbs_port_ c) (service_name_ c) (service_id_ c) (service_port_ c)
    (reloading_interval_ c) (timer_ c) (release_version_ c) (connections_ c) (objs c) (next_conn c)
    (visitor_ c) (now c + n).

Definition happens `{IterationOrder} {V} (callback : Callback V) (k : occurrence) (c : LbsClient V) : result (LbsClient V) :=
  match k with
  | OSetReloadingInterval n => Ok (Interface_SetReloadingInterval n c)
  | OSetServiceInformation ts ips id port => Interface_SetServiceInformation callback ts ips id port c
  | ODoChannelCreate vid cid name => Interface_DoChannelCreate vid cid name c
  | ODoChannelDestroy vid cid name => Interface_DoChannelDestroy vid cid name c
  | OReload ts ips => ReloadLbsHosts (CallbackAdaptor callback) ts ips c
  | OTime n => Ok (pass n c)
  | OConnection i e => on_connection (CallbackAdaptor callback) i e c
  end.

(** What can happen: 32-bit arguments, a timer that was started, a clock that goes on, and
    an event of a connection that is there and can have it. *)
Definition possible {V} (callback : Callback V) (k : occurrence) (c : LbsClient V) : Prop :=
  match k with
  | OSetReloadingInterval n => u32_ok n
  | OSetServiceInformation _ ips id _ => u32_ok id ∧ Forall u32_ok ips
  | ODoChannelCreate vid cid name | ODoChannelDestroy vid cid name => channel_ok (mkChannelInfo vid cid name)
  | OReload _ ips => timer_ c ≠ None ∧ Forall u32_ok ips
  | OTime n => 0 ≤ n ∧ now c + n + kMaxTimeout < 2 ^ 31
  | OConnection i e =>
      (∀ n, e ≠ Tick n) ∧ is_Some (present_store c !! i) ∧
      ∀ cfg s, present_store c !! i = Some (cfg, s) →
        enabled (lbs_callback cfg (client_events (CallbackAdaptor callback))) s e
  end.

(** The states that are reached, and how. *)
Inductive reached `{IterationOrder} {V} (callback : Callback V) (c0 : LbsClient V) : LbsClient V → Prop :=
  | reached_start : reached callback c0 c0
  | reached_next c k c' : reached callback c0 c → possible callback k c →
      happens callback k c = Ok c' → reached callback c0 c'.

(** A callback that keeps what the connections rely on, whatever their configuration. *)
Class CallbackOk {V} (callback : Callback V) : Prop :=
  callback_ok cfg : cfg_ok cfg → EventCallbackOk cfg (client_events (CallbackAdaptor callback)).

(** [client_inv], and the client and its connections have configurations that fit the wire. *)
Record running {V} (c : LbsClient V) : Prop := {
  run_inv : client_inv c;
  run_cfg : cfg_ok (config c);
  run_objs : ∀ i x, objs c !! i = Some x → cfg_ok (fst x);
}.

Section running.
Context `{IterationOrder} {V : Type} (callback : Callback V) `{!CallbackOk callback}.
Implicit Types c : LbsClient V.

Lemma present_cfg c i cfg s : present_store c !! i = Some (cfg, s) → ∃ s0, objs c !! i = Some (cfg, s0).
Proof.
  unfold present_store. rewrite lookup_fmap. destruct (objs c !! i) as [[cfg0 s0]|]; [|done].
  intros [= <- <-]. by exists s0.
Qed.

Lemma client_inv_ext c c' : now c' = now c → connections_ c' = connections_ c → objs c' = objs c →
  next_conn c' = next_conn c → visitor_ c' = visitor_ c → client_inv c → client_inv c'.
Proof.
  intros E1 E2 E3 E4 E5 [H1 H2 H3].
  assert (present_store c' = present_store c) as E by (unfold present_store; by rewrite E1, E3, E5).
  split; by rewrite ?E, ?E1, ?E2, ?E4.
Qed.

Lemma config_service id port t c : cfg_ok (config c) → u32_ok id →
  cfg_ok (config (set_service id port (reloading_interval_ c) t c)).
Proof.
  intros (_ & _ & Hn & Hv) Hid. split_and!; [done|apply u16_bound|done|done].
Qed.

(** A reload gives the new connections the configuration of the client. *)
Lemma reload_running ts ips c : running c → Forall u32_ok ips →
  ∃ c', ReloadLbsHosts (CallbackAdaptor callback) ts ips c = Ok c' ∧ running c' ∧ timer_ c' = timer_ c.
Proof.
  intros [Hi Hcfg Ho] Hips. unfold ReloadLbsHosts.
  set (ips' := match ips with [] => [INADDR_LOOPBACK] | _ => ips end).
  assert (Forall (λ a, u32_ok (ip_ a)) ((λ ip, mkNewSockAddress4 ip (lbs_port_ c)) <$> ips')) as Ha.
  { apply Forall_fmap. assert (Forall u32_ok ips') as Hips'; [|exact Hips'].
    unfold ips'. destruct ips; [|exact Hips].
    apply List.Forall_cons; [|done]. unfold u32_ok, INADDR_LOOPBACK. lia. }
  destruct (reload_in_step (CallbackAdaptor callback) c ts _ (callback_ok _ Hcfg) Hcfg Hi Ha)
    as (c' & E & Hi' & Hdom & Hkeep & _ & Hnew & Hown).
  assert (config c' = config c ∧ timer_ c' = timer_ c) as [Ecfg Et].
  { unfold ReloadLbsAddresses in E. apply bind_ok_inv in E as (r & _ & E).
    by apply bind_ok_inv in E as (o & _ & [= <-]). }
  exists c'. split; [exact E|]. split; [|done]. split; [done|by rewrite Ecfg|].
  intros i x Hx. destruct (proj1 (Hown i)) as [ip Hip]; [eauto|].
  assert (ip ∈ ip_ <$> ((λ ip, mkNewSockAddress4 ip (lbs_port_ c)) <$> ips')) as Hin by (apply Hdom; eauto).
  destruct (connections_ c !! ip) as [[j|]|] eqn:Ec.
  - destruct (Hkeep _ _ Ec Hin) as [Hj Hst]. rewrite Hip in Hj. injection Hj as ->.
    rewrite Hst in Hx. destruct x as [cfg s]. apply present_cfg in Hx as [s0 Hx]. exact (Ho _ _ Hx).
  - by destruct (ci_full _ Hi ip).
  - destruct (Hnew _ Ec Hin) as (j & s & Hj & _ & Hst & _). rewrite Hip in Hj. injection Hj as ->.
    rewrite Hst in Hx. by injection Hx as <-.
Qed.

Lemma channels_running ch c f : running c → channel_ok ch →
  f = (λ cfg, UniLbsConnection.DoChannelCreate cfg ch) ∨ f = (λ cfg, UniLbsConnection.DoChannelDestroy cfg ch) →
  ∃ o, for_connections f (visit (connections_ c)) (present_store c) = Ok o ∧
    running (set_store (connections_ c) o (next_conn c) (visitor_ c) c).
Proof using.
  intros [Hi Hcfg Ho] Hch Hf.
  assert (∀ i x, objs c !! i = Some x → u32_ok (UniLbsConnection.service_id_ (fst x))) as Hu.
  { intros i x Hx. by destruct (Ho _ _ Hx). }
  destruct (for_connections_keep c f Hi) as (o & E & Hi' & Hto & Hnone).
  { intros i cfg s Hs. destruct (channel_update_ok c ch f Hf Hi Hch Hu i cfg s Hs) as (s' & ? & ? & ? & _).
    by exists s'. }
  exists o. split; [done|]. split; [done|done|]. cbn [objs set_store]. intros i x Hx.
  destruct (present_store c !! i) as [[cfg s]|] eqn:Ei; [|by rewrite Hnone in Hx].
  destruct (Hto _ _ _ Ei) as (s' & Hs' & _). rewrite Hs' in Hx. injection Hx as <-.
  apply present_cfg in Ei as [s0 Ei]. exact (Ho _ _ Ei).
Qed.

(** An event of one connection: the others stay, and see what it made of the owner. *)
Lemma connection_running i e c : running c → possible callback (OConnection i e) c →
  ∃ c', on_connection (CallbackAdaptor callback) i e c = Ok c' ∧ running c'.
Proof.
  intros [[[G1 G2 G3 G4] Hn Hfull] Hcfg Ho] (Htick & [[cfg s] Hi] & He). specialize (He _ _ Hi).
  pose proof (present_cfg _ _ _ _ Hi) as [s0 Hi0]. pose proof (Ho _ _ Hi0) as Hok. cbn in Hok.
  destruct (G3 _ _ Hi) as [Hs Hclk]. cbn in Hs, Hclk. pose proof (callback_ok cfg Hok) as Hcb.
  destruct (step_ok _ (lbs_callback_ok cfg _ Hok) e s Hs He) as (s' & E & Hs').
  pose proof (proj2 (step_steady _ _ _ _ E Htick)) as Hclk'. rewrite Hclk in Hclk'.
  unfold on_connection. rewrite Hi, E, bind_ok. eexists; split; [done|]. split; [split| |].
  - assert (∀ j, is_Some (present_store (set_store (connections_ c) (<[i:=(cfg, s')]> (objs c)) (next_conn c)
      (visitor (app s')) c) !! j) ↔ is_Some (present_store c !! j)) as Hdom.
    { intros j. unfold present_store. rewrite !lookup_fmap, !fmap_is_Some. cbn [objs set_store].
      destruct (decide (j = i)) as [->|Hne]; [|by rewrite lookup_insert_ne].
      rewrite lookup_insert_eq, Hi0. split; eauto. }
    split.
    + intros j. rewrite Hdom. apply G1.
    + exact G2.
    + intros j x. unfold present_store. rewrite lookup_fmap. cbn [objs set_store].
      destruct (decide (j = i)) as [->|Hne].
      * rewrite lookup_insert_eq. intros [= <-]. split; [|done].
        destruct Hs' as [Ht Hl]. split; [|done]. cbn. by rewrite <- Hclk'.
      * rewrite lookup_insert_ne by done. destruct (objs c !! j) as [[cj sj]|] eqn:Ej; [|done].
        intros [= <-]. destruct (G3 j (cj, present (now c) (visitor_ c) sj)) as [Hj _]; [|done].
        unfold present_store. by rewrite lookup_fmap, Ej.
    + intros j Hj. destruct (present_store _ !! j) as [x|] eqn:Ej; [|done].
      assert (is_Some (present_store c !! j)) as [y Hy] by (apply Hdom; eauto). by rewrite G4 in Hy.
  - exact Hn.
  - exact Hfull.
  - exact Hcfg.
  - cbn [objs set_store]. intros j x. destruct (decide (j = i)) as [->|Hne].
    + rewrite lookup_insert_eq. by intros [= <-].
    + rewrite lookup_insert_ne by done. apply Ho.
Qed.

Lemma pass_running n c : running c → 0 ≤ n → now c + n + kMaxTimeout < 2 ^ 31 → running (pass n c).
Proof using.
  intros [[[G1 G2 G3 G4] [Hn Hm] Hfull] Hcfg Ho] H0 Hend.
  assert (∀ i, present_store (pass n c) !! i =
    (λ p, (fst p, present (now c + n) (visitor_ c) (snd p))) <$> present_store c !! i) as E.
  { intros i. unfold present_store. rewrite !lookup_fmap. cbn [objs pass now visitor_].
    by destruct (objs c !! i) as [[cfg s]|]. }
  split; [split|exact Hcfg|exact Ho].
  - split; [|exact G2| |].
    + intros i. rewrite E, fmap_is_Some. apply G1.
    + intros i x. rewrite E. destruct (present_store c !! i) as [y|] eqn:Ei; [|done]. intros [= <-].
      destruct (G3 _ _ Ei) as [[(T0 & T1 & T2 & T3 & T4 & T5 & T6) Hl] Hc]. split; [|done]. split; [|done].
      rewrite Hc in *. split_and!; cbn; first [done|lia].
    + intros i Hi. rewrite E. by rewrite G4.
  - cbn. lia.
  - exact Hfull.
Qed.

Lemma happens_running k c : running c → possible callback k c →
  ∃ c', happens callback k c = Ok c' ∧ running c'.
Proof.
  intros Hc Hk. destruct k as [n|ts ips id port|vid cid name|vid cid name|ts ips|n|i e]; cbn [happens].
  - eexists; split; [done|]. destruct Hc as [Hi Hcfg Ho]. split; [by apply (client_inv_ext c)|done|done].
  - destruct Hk as [Hid Hips]. unfold Interface_SetServiceInformation, SetServiceInformation. cbv zeta.
    destruct Hc as [Hi Hcfg Ho]. set (c1 := set_service id port _ _ c).
    destruct (reload_running ts ips c1) as (c2 & -> & [Hi2 Hcfg2 Ho2] & _); [|done|].
    { split; [by apply (client_inv_ext c)|by apply config_service|exact Ho]. }
    rewrite bind_ok. eexists; split; [done|].
    split; [by apply (client_inv_ext c2)|exact Hcfg2|exact Ho2].
  - unfold Interface_DoChannelCreate, DoChannelCreate.
    destruct (channels_running _ c _ Hc Hk (or_introl eq_refl)) as (o & -> & Ho). rewrite bind_ok. eauto.
  - unfold Interface_DoChannelDestroy, DoChannelDestroy.
    destruct (channels_running _ c _ Hc Hk (or_intror eq_refl)) as (o & -> & Ho). rewrite bind_ok. eauto.
  - destruct Hk as [_ Hips]. destruct (reload_running ts ips c Hc Hips) as (c' & ? & ? & _). eauto.
  - destruct Hk. eexists; split; [done|]. by apply pass_running.
  - by apply connection_running.
Qed.

Lemma make_running host service_name lbs_port t (v : V) : name_ok service_name → 0 ≤ t → t + kMaxTimeout < 2 ^ 31 →
  running (Interface_make host service_name lbs_port t v).
Proof using.
  intros Hname H0 Hend. assert (∀ i, present_store (Interface_make host service_name lbs_port t v) !! i = None) as E.
  { intros i. unfold present_store. by rewrite lookup_fmap. }
  split; [split; [split| |]| |].
  - intros i. rewrite E. split; [by intros []|]. intros ([] & ip & Hi); unfold slot in Hi; cbn in Hi; by rewrite lookup_empty in Hi.
  - intros [] ip1 b2 ip2 i Hi; unfold slot in Hi; cbn in Hi; by rewrite lookup_empty in Hi.
  - intros i x. by rewrite E.
  - done.
  - done.
  - intros ip. cbn. by rewrite lookup_empty.
  - split_and!; [unfold u32_ok; cbn; lia|apply u16_bound|exact Hname|split; [cbn; lia|constructor]].
  - intros i x. cbn. by rewrite lookup_empty.
Qed.
End running.

(** ** Properties *)


#[export] Instance possible_dec {V} (callback : Callback V) k c : Decision (possible callback k c).
Proof.
  destruct k as [n|ts ips id port|vid cid name|vid cid name|ts ips|n|i e]; cbn [possible];
    unfold channel_ok, name_ok; cbn [UniLbsConnection.vid UniLbsConnection.channel_name]; try apply _.
  destruct (present_store c !! i) as [[cfg s]|] eqn:E.
  - destruct e as [n|t|ev| |u st uri|t|kk] eqn:Ee; [right; intros [H _]; by destruct (H n)|..];
      (destruct (decide (enabled (lbs_callback cfg (client_events (CallbackAdaptor callback))) s e)) as [He|He];
        subst e; [left; split; [done|]; split; [by eexists|]; by intros ?? [= <- <-]
                 |right; intros (_ & _ & H); apply He, H; done]).
  - right. intros (_ & [x Hx] & _). done.
Defined.

(** Occurrences one after the other, as long as they can happen. *)
Fixpoint occurs `{IterationOrder} {V} (callback : Callback V) (ks : list occurrence) (c : LbsClient V) : option (LbsClient V) :=
  match ks with
  | [] => Some c
  | k :: ks =>
      if decide (possible callback k c) then
        match happens callback k c with Ok c => occurs callback ks c | Err _ => None end
      else None
  end.
Lemma occurs_reached `{IterationOrder} {V} (callback : Callback V) ks c0 c c' :
  reached callback c0 c → occurs callback ks c = Some c' → reached callback c0 c'.
Proof.
  revert c. induction ks as [|k ks IH]; intros c Hc; cbn [occurs]; [by intros [= <-]|].
  destruct (decide _) as [Hk|]; [|done]. destruct (happens callback k c) as [c1|] eqn:E; [|done].
  apply IH. by eapply reached_next.
Qed.

#[local] Existing Instance map_order.

Definition demo_callback : Callback nat :=
  mkCallback (λ n _ _, Ok (S n, [])) (λ n, (n, [mkChannelInfo 5 6 [99]])) (λ n, (n, (1, 2, 3, 4))) (λ n _, n).
Lemma demo_callback_ok : CallbackOk demo_callback.
Proof.
  intros cfg (Hid & _). split; try by constructor.
  - by intros v u uri v' ps [= _ <-].
  - intros v d. split; [|by vm_compute].
    cbn. split; [exact Hid|]. split; [done|]. repeat constructor; cbn; try lia; unfold is_byte; lia.
Qed.

(** Two servers answer, one of them is dropped at the next reload. *)
Definition demo_occurrences : list occurrence :=
  [OSetReloadingInterval 5; OSetServiceInformation (λ _, try_ok) [0x0a000001; 0x0a000002] 42 8000;
   OTime 1; OConnection 0 (Connecting BEV_EVENT_CONNECTED); ODoChannelCreate 9 1 [120];
   OConnection 1 (Connecting BEV_EVENT_CONNECTED); OTime 700; OReload (λ _, try_ok) [0x0a000002; 0x0a000003];
   OConnection 1 SocketEvent; ODoChannelDestroy 9 1 [120]].

