(* ===== verification/WorkerSocket.v ===== *)
(** * WorkerSocket: the class WorkerTCPSocket of turnserver_main.cc

    A stream socket of libjingle whose [Send] writes whole messages and whose
    [ProcessInput] hands over whatever has arrived.  libjingle is not in the
    repository: the classes [RtcAddress] and [AsyncTCPSocketBase] list the
    operations the program calls, [RtcAddressOk] and [AsyncTCPSocketBaseOk] the
    documented behaviour it relies on, and [rtc_socket] is an instance. *)

From S2P Require Import Prelude Bytes.

(** ** libjingle *)

(** [rtc::SocketAddress]; the ip of the integer interface is host-ordered. *)
Class RtcAddress (A : Type) := {
  no_address : A;
  socket_address : Z → Z → A;
  addr_ip : A → Z;
  addr_port : A → Z;
  SetIP : Z → A → A;
  SetPort : Z → A → A;
  addr_eqb : A → A → bool;
}.

Class RtcAddressOk (A : Type) `{RtcAddress A} : Prop := {
  no_address_ok : addr_ip no_address = 0 ∧ addr_port no_address = 0;
  socket_address_ok : ∀ ip port, addr_ip (socket_address ip port) = ip ∧
                                 addr_port (socket_address ip port) = port;
  SetIP_ok : ∀ ip a, addr_ip (SetIP ip a) = ip ∧ addr_port (SetIP ip a) = addr_port a;
  SetPort_ok : ∀ port a, addr_ip (SetPort port a) = addr_ip a ∧
                         addr_port (SetPort port a) = port;
}.

(** [AsyncPacketSocket::State]. *)
Inductive sock_state :=
  STATE_CLOSED | STATE_BINDING | STATE_BOUND | STATE_CONNECTING | STATE_CONNECTED.

#[export] Instance sock_state_eq_dec : EqDecision sock_state.
Proof. solve_decision. Defined.

(** [rtc::AsyncTCPSocketBase]: [out_buffer] is what waits to be written, [wire]
    what the network took. *)
Class AsyncTCPSocketBase (T A : Type) := {
  out_buffer : T → bytes;
  wire : T → bytes;
  IsOutBufferEmpty : T → bool;
  AppendToOutBuffer : bytes → T → T;
  FlushOutBuffer : T → Z * T;
  ClearOutBuffer : T → T;
  SetError : Z → T → T;
  GetState : T → sock_state;
  GetLocalAddress : T → A;
  GetRemoteAddress : T → A;
  CloseSocket : T → T;
  Connect : A → T → Z * T;
}.

Class AsyncTCPSocketBaseOk (T A : Type) `{AsyncTCPSocketBase T A} : Prop := {
  empty_ok : ∀ t, IsOutBufferEmpty t = true ↔ out_buffer t = [];
  append_ok : ∀ d t, out_buffer (AppendToOutBuffer d t) = out_buffer t ++ d ∧
                     wire (AppendToOutBuffer d t) = wire t;
  (* the number of bytes the network took; nothing moves on an error *)
  flush_ok : ∀ t, let '(n, t') := FlushOutBuffer t in
    n ≤ Z.of_nat (length (out_buffer t)) ∧
    wire t' = wire t ++ take (Z.to_nat n) (out_buffer t) ∧
    out_buffer t' = drop (Z.to_nat n) (out_buffer t);
  clear_ok : ∀ t, out_buffer (ClearOutBuffer t) = [] ∧ wire (ClearOutBuffer t) = wire t;
  set_error_ok : ∀ e t, out_buffer (SetError e t) = out_buffer t ∧ wire (SetError e t) = wire t;
  close_ok : ∀ t, GetState (CloseSocket t) = STATE_CLOSED ∧ wire (CloseSocket t) = wire t;
}.

(** ** The class *)

(** [WorkerConstants::kMaxPacketSize] and the error number. *)
Definition kMaxPacketSize : Z := 64 * 1024.
Definition EMSGSIZE : Z := 90.

(** [typedef uint16_t PacketLength]. *)
Definition PacketLength (n : Z) : Z := u16 n.

Section socket.
Context {T A : Type} `{AsyncTCPSocketBase T A}.

(** [WorkerTCPSocket::Create]: [answer] is what [ConnectSocket] returned. *)
Definition Create (answer : option T) : option T :=
  match answer with None => None | Some client => Some client end.

(** [Send]: the result and the socket.  [cb] is a [size_t], converted to [int]. *)
Definition Send (pv : bytes) (s : T) : Z * T :=
  let cb := Z.of_nat (length pv) in
  if kMaxPacketSize <? cb then (-1, SetError EMSGSIZE s)
  else if negb (IsOutBufferEmpty s) then (cb, s)
  else
    let s := AppendToOutBuffer pv s in
    let '(res, s) := FlushOutBuffer s in
    if res <=? 0 then (res, ClearOutBuffer s) else (cb, s).

(** [ProcessInput]: what the slots of [SignalReadPacket] are given (the memory at
    [data] and the length), and the bytes it leaves in the input buffer. *)
Definition ProcessInput (data : bytes) : (bytes * Z) * Z :=
  ((data, PacketLength (Z.of_nat (length data))), 0).

Definition ReConnect (s : T) : bool * T :=
  let '(r, s) := Connect (GetRemoteAddress s) s in
  (negb (r <? 0), s).
End socket.

(** ** A concrete socket *)

Record rtc_address := mkAddress { ra_ip : Z; ra_port : Z }.

#[export] Instance rtc_address_ops : RtcAddress rtc_address := {|
  no_address := mkAddress 0 0;
  socket_address := mkAddress;
  addr_ip := ra_ip;
  addr_port := ra_port;
  SetIP ip a := mkAddress ip (ra_port a);
  SetPort port a := mkAddress (ra_ip a) port;
  addr_eqb a b := (ra_ip a =? ra_ip b) && (ra_port a =? ra_port b);
|}.

#[export] Instance rtc_address_ok : RtcAddressOk rtc_address.
Proof. by split. Qed.

(** The network takes at most [rs_window] bytes at a time. *)
Record rtc_socket := mkSocket {
  rs_out : bytes; rs_wire : bytes; rs_window : nat;
  rs_state : sock_state; rs_local : rtc_address; rs_remote : rtc_address;
}.

#[export] Instance rtc_socket_ops : AsyncTCPSocketBase rtc_socket rtc_address := {|
  out_buffer := rs_out;
  wire := rs_wire;
  IsOutBufferEmpty s := match rs_out s with [] => true | _ => false end;
  AppendToOutBuffer d s :=
    mkSocket (rs_out s ++ d) (rs_wire s) (rs_window s) (rs_state s) (rs_local s) (rs_remote s);
  FlushOutBuffer s :=
    let n := Nat.min (rs_window s) (length (rs_out s)) in
    (Z.of_nat n, mkSocket (drop n (rs_out s)) (rs_wire s ++ take n (rs_out s))
                   (rs_window s) (rs_state s) (rs_local s) (rs_remote s));
  ClearOutBuffer s :=
    mkSocket [] (rs_wire s) (rs_window s) (rs_state s) (rs_local s) (rs_remote s);
  SetError _ s := s;
  GetState := rs_state;
  GetLocalAddress := rs_local;
  GetRemoteAddress := rs_remote;
  CloseSocket s :=
    mkSocket (rs_out s) (rs_wire s) (rs_window s) STATE_CLOSED (rs_local s) (rs_remote s);
  Connect a s :=
    (0, mkSocket (rs_out s) (rs_wire s) (rs_window s) STATE_CONNECTED (rs_local s) a);
|}.

#[export] Instance rtc_socket_ok : AsyncTCPSocketBaseOk rtc_socket rtc_address.
Proof.
  split; cbn; try done.
  - intros t. by destruct (rs_out t).
  - intros t. rewrite !Nat2Z.id. split_and!; [lia|done|done].
Qed.

(** ** Properties *)

(** What the peer will have received once the waiting bytes are written. *)
Definition stream {T A} `{AsyncTCPSocketBase T A} (s : T) : bytes := wire s ++ out_buffer s.

(** The messages of a sequence of [Send] calls that were taken. *)
Fixpoint send_all {T A} `{AsyncTCPSocketBase T A} (msgs : list bytes) (s : T) : T :=
  match msgs with
  | [] => s
  | pv :: msgs => send_all msgs (snd (Send pv s))
  end.

Section properties.
Context {T A : Type} `{AsyncTCPSocketBaseOk T A}.

(** A call of [Send] takes the whole message or none of it. *)
Lemma Send_whole pv s :
  stream (snd (Send pv s)) = stream s ∨ stream (snd (Send pv s)) = stream s ++ pv.
Proof using All.
  unfold Send, stream. case_match.
  { destruct (set_error_ok EMSGSIZE s) as [E1 E2]. cbn [snd]. rewrite E1, E2. by left. }
  destruct (IsOutBufferEmpty s) eqn:He; [|by left]. cbn [negb].
  apply empty_ok in He. destruct (append_ok pv s) as [E1 E2].
  pose proof (flush_ok (AppendToOutBuffer pv s)) as Hf.
  destruct (FlushOutBuffer (AppendToOutBuffer pv s)) as [res t]. rewrite E1, E2, He in Hf.
  cbn [app] in Hf. destruct Hf as (_ & Hw & Ho).
  rewrite He, app_nil_r. destruct (Z.leb_spec res 0); cbn [snd].
  - destruct (clear_ok t) as [E3 E4]. rewrite E3, E4, Hw, app_nil_r.
    replace (Z.to_nat res) with 0%nat by lia. left. by rewrite take_0, app_nil_r.
  - right. by rewrite Hw, Ho, <- app_assoc, take_drop.
Qed.

(** C28: however the network accepts bytes, what the peer receives is a sequence of
    whole messages, in the order of the calls: [Send] drops a message it cannot
    start, and never half of one. *)
Theorem Send_keeps_messages_whole msgs (s : T) :
  ∃ taken, sublist taken msgs ∧ stream (send_all msgs s) = stream s ++ concat taken.
Proof using All.
  revert s. induction msgs as [|pv msgs IH]; intros s; cbn [send_all].
  - exists []. split; [constructor|]. by rewrite app_nil_r.
  - destruct (IH (snd (Send pv s))) as (taken & Hs & E).
    destruct (Send_whole pv s) as [Ew|Ew]; rewrite Ew in E.
    + exists taken. split; [by apply sublist_cons|done].
    + exists (pv :: taken). split; [by apply sublist_skip|]. cbn [concat].
      by rewrite app_assoc.
Qed.

End properties.

Definition idle_socket (window : nat) : rtc_socket :=
  mkSocket [] [] window STATE_CONNECTED (mkAddress 1 2) (mkAddress 3 4).

(** A network that takes two bytes at a time: the second message is dropped. *)
Lemma Send_keeps_messages_whole_witness :
  ∃ taken, sublist taken [[1; 2; 3]; [4]] ∧
    stream (send_all [[1; 2; 3]; [4]] (idle_socket 2)) = concat taken.
Proof. exact (Send_keeps_messages_whole [[1; 2; 3]; [4]] (idle_socket 2)). Defined.

Example second_message_dropped :
  fst (Send [4] (snd (Send [1; 2; 3] (idle_socket 2)))) = 1 ∧
  stream (send_all [[1; 2; 3]; [4]] (idle_socket 2)) = [1; 2; 3].
Proof. by vm_compute. Qed.
