(* ===== verification/ElbsConnection.v ===== *)
(** * ElbsConnection: the class ElbsConnection of turnserver_main.cc

    Once a minute the program asks every edge LBS which edge server to use,
    connects to the one that is named, sends it its reports and pings it every
    three seconds.

    Sockets are created with [new] and never deleted: [sockets] is the list of all
    of them, with the slots that are connected to each, and a pointer is an index.
    The calls made on [rtc::Thread] are a trace; the resolver, the clock, and the
    outcome of [WorkerTCPSocket::Create] are arguments. *)

From S2P Require Import Prelude Bytes Wire Packer Unpacker Codec Packet Structs Protocols.
From S2P Require Import WorkerSocket.

Definition kElbsPort : Z := 9700.
Definition ARGUS_PING_LENGTH : Z := 2.

Inductive msg_id :=
  MSG_WORKER_ONTIMER | MSG_BANDWIDTH_GET | MSG_ELBS_ONTIMER | MSG_ARGUS_ONTIMER | MSG_LOG_ONTIMER.

#[export] Instance msg_id_eq_dec : EqDecision msg_id.
Proof. solve_decision. Defined.

(** What happens to the message queue of the thread: the calls of this program, and
    the delivery of a message to [OnMessage]. *)
Inductive thread_call :=
  | PostDelayed (milliseconds : Z) (id : msg_id)
  | Clear (id : msg_id)
  | Stop
  | Dispatched (id : msg_id).

(** [int64_t] addition. *)
Definition add64 (x y : Z) : result Z :=
  if (- 2 ^ 63 <=? x + y) && (x + y <? 2 ^ 63) then Ok (x + y) else Err SignedOverflow.

(** ** Reports *)

(** [ArgusReportHead], as it lies in memory. *)
Definition report_head (size type qos seq send_ts vid cid : Z) : bytes :=
  le_bytes 2 size ++ le_bytes 1 type ++ le_bytes 1 qos ++ le_bytes 4 seq ++
  le_bytes 4 send_ts ++ le_bytes 4 vid ++ le_bytes 4 cid.

Definition kHeadSize : Z := 20.

(** The report items the program fills in; [lts] is the clock in their header.  The
    other fields are constants. *)
Inductive report :=
  | SessionReport (lts : Z)
  | QuitReport (lts : Z)
  | ConnectReport (lts : Z) (clientaddr : bytes) (usercount ingress egress : Z).

Section elbs.
Context {T A : Type} `{AsyncTCPSocketBase T A} `{RtcAddress A}.
(** The bytes that [ReportItem::write] leaves in the memory transport. *)
Context (serialize : report → bytes).

(** The common end of the three functions. *)
Definition send_report (item : report) (cid now : Z) (socket : T) : T :=
  let payload := serialize item in
  let size := Z.of_nat (length payload) in
  if 0 <? size then
    let head := report_head (u16 (size + kHeadSize)) 3 0 0 (u32 (Z.quot now 1000)) 161891 cid in
    snd (Send (head ++ payload) socket)
  else socket.

Definition SendSessionReport (lts now : Z) : T → T :=
  send_report (SessionReport lts) 12345678 now.
Definition SendQuitReport (lts now : Z) : T → T :=
  send_report (QuitReport lts) 2888778408 now.
Definition SendConnectReport (clientaddr : bytes) (usercount ingress egress lts now : Z) : T → T :=
  send_report (ConnectReport lts clientaddr usercount ingress egress) 2888778408 now.

(** ** The class *)

(** The slots connected to the signals of a socket. *)
Inductive role := ElbsRole | ArgusRole.

#[export] Instance role_eq_dec : EqDecision role.
Proof. solve_decision. Defined.

Record ElbsConn := mkElbsConn {
  sockets : list (role * T);
  calls : list thread_call;
  elbs_socket_ : list nat;
  socket_connecting_ : option nat;   (* None: the constructor does not set it *)
  socket_ : option nat;
  connect_Addr_ : A;
  last_connect_ts_ : Z;              (* int64_t *)
  pingPkg_ : bytes;
}.

Definition make : ElbsConn := mkElbsConn [] [] [] None None no_address 0 [].

Definition set_sockets (l : list (role * T)) (e : ElbsConn) : ElbsConn :=
  mkElbsConn l (calls e) (elbs_socket_ e) (socket_connecting_ e) (socket_ e) (connect_Addr_ e)
    (last_connect_ts_ e) (pingPkg_ e).
Definition set_list (l : list nat) (e : ElbsConn) : ElbsConn :=
  mkElbsConn (sockets e) (calls e) l (socket_connecting_ e) (socket_ e) (connect_Addr_ e)
    (last_connect_ts_ e) (pingPkg_ e).
Definition set_connecting (p : option nat) (e : ElbsConn) : ElbsConn :=
  mkElbsConn (sockets e) (calls e) (elbs_socket_ e) p (socket_ e) (connect_Addr_ e)
    (last_connect_ts_ e) (pingPkg_ e).
Definition set_socket (p : option nat) (e : ElbsConn) : ElbsConn :=
  mkElbsConn (sockets e) (calls e) (elbs_socket_ e) (socket_connecting_ e) p (connect_Addr_ e)
    (last_connect_ts_ e) (pingPkg_ e).
Definition set_addr (a : A) (e : ElbsConn) : ElbsConn :=
  mkElbsConn (sockets e) (calls e) (elbs_socket_ e) (socket_connecting_ e) (socket_ e) a
    (last_connect_ts_ e) (pingPkg_ e).
Definition set_last (t : Z) (e : ElbsConn) : ElbsConn :=
  mkElbsConn (sockets e) (calls e) (elbs_socket_ e) (socket_connecting_ e) (socket_ e)
    (connect_Addr_ e) t (pingPkg_ e).
Definition set_ping (b : bytes) (e : ElbsConn) : ElbsConn :=
  mkElbsConn (sockets e) (calls e) (elbs_socket_ e) (socket_connecting_ e) (socket_ e)
    (connect_Addr_ e) (last_connect_ts_ e) b.
Definition call (c : list thread_call) (e : ElbsConn) : ElbsConn :=
  mkElbsConn (sockets e) (calls e ++ c) (elbs_socket_ e) (socket_connecting_ e) (socket_ e)
    (connect_Addr_ e) (last_connect_ts_ e) (pingPkg_ e).

(** The socket at a pointer, and a method call on it. *)
Definition deref (i : nat) (e : ElbsConn) : result (role * T) :=
  match sockets e !! i with Some s => Ok s | None => Err UseAfterFree end.
Definition on (i : nat) (f : T → T) (e : ElbsConn) : result ElbsConn :=
  '(r, t) ← deref i e;
  Ok (set_sockets (<[i := (r, f t)]> (sockets e)) e).

(** [WorkerTCPSocket::Create] and the connection of its signals. *)
Definition create (r : role) (answer : option T) (e : ElbsConn) : option nat * ElbsConn :=
  match Create answer with
  | None => (None, e)
  | Some t => (Some (length (sockets e)), set_sockets (sockets e ++ [(r, t)]) e)
  end.

Definition connectElbs (serverAddr : A) (answer : A → option T) (e : ElbsConn) : ElbsConn :=
  match create ElbsRole (answer serverAddr) e with
  | (None, e) => e
  | (Some i, e) => set_list (elbs_socket_ e ++ [i]) e
  end.

Definition connectEdgeServer (serverAddr : A) (answer : A → option T) (e : ElbsConn) : bool * ElbsConn :=
  match create ArgusRole (answer serverAddr) e with
  | (None, e) => (false, e)
  | (Some i, e) => (true, set_connecting (Some i) e)
  end.

(** [ips] is the answer of [resolve_host], in network order. *)
Fixpoint connect_each (ips : list Z) (answers : nat → A → option T) (n : nat) (e : ElbsConn) : ElbsConn :=
  match ips with
  | [] => e
  | ip :: ips =>
      connect_each ips answers (S n)
        (connectElbs (socket_address (ntohl ip) kElbsPort) (answers n) e)
  end.

Definition joinElbs (ips : list Z) (answers : nat → A → option T) (e : ElbsConn) : ElbsConn :=
  connect_each ips answers 0 (set_list [] e).

Definition start (ips : list Z) (answers : nat → A → option T) (e : ElbsConn) : ElbsConn :=
  let e := set_ping (le_bytes 2 ARGUS_PING_LENGTH) e in
  let e := call [PostDelayed (60 * 1000) MSG_ELBS_ONTIMER;
                 PostDelayed (3 * 1000) MSG_ARGUS_ONTIMER] e in
  joinElbs ips answers e.

Definition getArgusSocket (e : ElbsConn) : option nat := socket_ e.

(** The case [kRejoinResponseUri] of [OnResponsePacket], once the response is read;
    its [code] is not looked at. *)
Definition on_response (socket : nat) (ip port now : Z) (answer : A → option T) (e : ElbsConn)
    : result ElbsConn :=
  soonest ← add64 (last_connect_ts_ e) 3000;
  if now <? soonest then on socket CloseSocket e
  else if (ntohl ip =? addr_ip (connect_Addr_ e)) && (port =? addr_port (connect_Addr_ e))
  then Ok e
  else
    let e := set_addr (SetPort port (SetIP (ntohl ip) (connect_Addr_ e))) e in
    let '(connecting, e) := connectEdgeServer (connect_Addr_ e) answer e in
    let e := if connecting then set_last now e else e in
    on socket CloseSocket e.

(** [OnResponsePacket], for a packet of [size] bytes at the start of [data]. *)
Definition OnResponsePacket (socket : nat) (data : bytes) (size now : Z)
    (answer : A → option T) (e : ElbsConn) : result ElbsConn :=
  if size <? 4 then Ok e else
  unpkr ← Unpacker.make data size false;
  '(service_type, unpkr) ← Unpacker.PopUint16 unpkr;
  '(uri, unpkr) ← Unpacker.PopUint16 unpkr;
  unpkr ← Unpacker.Rewind unpkr;
  if uri =? Elbs.kRejoinResponseUri then
    '(resp, _) ← Packet.unmarshall Elbs.RejoinResponseProtocol
                   (Packet.construct Elbs.RejoinResponseProtocol) unpkr;
    let '(code, ip, port) := Packet.members resp in
    on_response socket ip port now answer e
  else Ok e.

Definition OnElbsSocketConnect (socket : nat) (e : ElbsConn) : result ElbsConn :=
  let request := mkDeclared (Packet.base (Packet.construct_server Elbs.RejoinRequestProtocol Elbs.ELBS_SERVER_TYPE))
                   (addr_ip (connect_Addr_ e), addr_port (connect_Addr_ e)) in
  pk ← pack_value (packet_codec Elbs.RejoinRequestProtocol) request
         (Packer.make Packer.kDefaultSize);
  data ← Packer.peek (Packer.Buffer pk) (Packer.Length pk) pk;
  on socket (λ t, snd (Send data t)) e.

Definition OnElbsSocketClose (socket : nat) (e : ElbsConn) : result ElbsConn :=
  on socket CloseSocket e.

(** "127.0.0.1:1234". *)
Definition kReportedClient : bytes := [49; 50; 55; 46; 48; 46; 48; 46; 49; 58; 49; 50; 51; 52].

(** The clock is read four times for the two reports. *)
Definition OnArgusSocketConnect (socket : nat) (clock : nat → Z) (e : ElbsConn) : result ElbsConn :=
  '(_, s) ← deref socket e;
  match socket_connecting_ e with
  | None => Err UninitRead
  | Some c =>
      '(_, sc) ← deref c e;
      if addr_eqb (GetLocalAddress s) (GetLocalAddress sc) then
        e ← match socket_ e with Some p => on p CloseSocket e | None => Ok e end;
        let e := set_socket (Some c) e in
        e ← on c (SendQuitReport (clock 0%nat) (clock 1%nat)) e;
        on c (SendConnectReport kReportedClient 0 0 0 (clock 2%nat) (clock 3%nat)) e
      else on socket CloseSocket e
  end.

Definition OnArgusSocketClose (socket : nat) (e : ElbsConn) : result ElbsConn :=
  on socket CloseSocket e.

(** [OnMessage]: the case of the ELBS timer, then that of the edge server. *)
Definition OnElbsTimer (ips : list Z) (answers : nat → A → option T) (e : ElbsConn) : ElbsConn :=
  let e := joinElbs ips answers e in
  call [Clear MSG_ELBS_ONTIMER; PostDelayed (60 * 1000) MSG_ELBS_ONTIMER] e.

Definition OnArgusTimer (e : ElbsConn) : result ElbsConn :=
  e ← match socket_ e with
      | Some p =>
          '(_, t) ← deref p e;
          if decide (GetState t = STATE_CONNECTED)
          then on p (λ t, snd (Send (pingPkg_ e) t)) e
          else Ok e
      | None => Ok e
      end;
  Ok (call [Clear MSG_ARGUS_ONTIMER; PostDelayed (3 * 1000) MSG_ARGUS_ONTIMER] e).

(** [~ElbsConnection]. *)
Definition destroy (e : ElbsConn) : result ElbsConn :=
  e ← match socket_ e with
      | Some p => e ← on p CloseSocket e; Ok (set_socket None e)
      | None => Ok e
      end;
  let e := call [Clear MSG_ELBS_ONTIMER; Clear MSG_ARGUS_ONTIMER; Stop] e in
  Ok (set_list [] e).

(** ** Events

    What reaches the object through the thread and the sockets.  [Network] is what
    libjingle does to a socket by itself. *)

Inductive event :=
  | Message_elbs (ips : list Z) (answers : nat → A → option T)
  | Message_argus
  | Connected (i : nat) (clock : nat → Z)
  | Closed (i : nat)
  | Received (i : nat) (data : bytes) (now : Z) (answer : A → option T)
  | Network (i : nat) (f : T → T).

Definition step (ev : event) (e : ElbsConn) : result ElbsConn :=
  match ev with
  | Message_elbs ips answers =>
      Ok (OnElbsTimer ips answers (call [Dispatched MSG_ELBS_ONTIMER] e))
  | Message_argus => OnArgusTimer (call [Dispatched MSG_ARGUS_ONTIMER] e)
  | Connected i clock =>
      '(r, _) ← deref i e;
      match r with
      | ElbsRole => OnElbsSocketConnect i e
      | ArgusRole => OnArgusSocketConnect i clock e
      end
  | Closed i =>
      '(r, _) ← deref i e;
      match r with
      | ElbsRole => OnElbsSocketClose i e
      | ArgusRole => OnArgusSocketClose i e
      end
  | Received i data now answer =>
      let '((data, size), _) := ProcessInput data in
      OnResponsePacket i data size now answer e
  | Network i f => on i f e
  end.

Fixpoint run (evs : list event) (e : ElbsConn) : result ElbsConn :=
  match evs with
  | [] => Ok e
  | ev :: evs => e ← step ev e; run evs e
  end.
End elbs.

(** ** Pointers and sockets *)

Section lemmas.
Context {T A : Type} `{AsyncTCPSocketBase T A} `{RtcAddress A}.
Context (serialize : report → bytes).
Implicit Types e : ElbsConn (T:=T) (A:=A).

Definition roles e : list role := (sockets e).*1.

(** A method call on a valid pointer leaves everything but that socket. *)
Lemma on_ok i r t f e :
  sockets e !! i = Some (r, t) →
  on i f e = Ok (set_sockets (<[i := (r, f t)]> (sockets e)) e).
Proof. intros Hi. unfold on, deref. by rewrite Hi. Qed.

Lemma on_roles i f e :
  (i < length (sockets e))%nat →
  ∃ l, on i f e = Ok (set_sockets l e) ∧ l.*1 = roles e.
Proof.
  intros [[r t] Hi]%lookup_lt_is_Some_2. rewrite (on_ok i r t f e Hi).
  eexists; split; [done|]. unfold roles. rewrite list_fmap_insert. simpl.
  apply list_insert_id. by rewrite list_lookup_fmap, Hi.
Qed.

Lemma on_inv i f e e' :
  on i f e = Ok e' → ∃ l, e' = set_sockets l e ∧ l.*1 = roles e.
Proof.
  intros E. destruct (decide (i < length (sockets e))%nat) as [Hi|Hi].
  - destruct (on_roles i f e Hi) as (l & E' & Hl). rewrite E in E'. simplify_eq. eauto.
  - unfold on, deref in E. by rewrite lookup_ge_None_2 in E by lia.
Qed.

(** ** Joining *)

(** The sockets that the attempts on [ips] give, the first attempt being the [n]th. *)
Fixpoint created (ips : list Z) (answers : nat → A → option T) (n : nat) : list T :=
  match ips with
  | [] => []
  | ip :: ips =>
      option_list (answers n (socket_address (ntohl ip) kElbsPort)) ++ created ips answers (S n)
  end.

Lemma connect_each_ok ips answers n e :
  let new := created ips answers n in
  connect_each ips answers n e =
    set_list (elbs_socket_ e ++ seq (length (sockets e)) (length new))
      (set_sockets (sockets e ++ (pair ElbsRole <$> new)) e).
Proof.
  revert n e. induction ips as [|ip ips IH]; intros n e; cbn zeta.
  - simpl. rewrite !app_nil_r. by destruct e.
  - cbn [connect_each created]. rewrite IH. unfold connectElbs, create, Create.
    destruct (answers n _) as [t|]; simpl.
    + rewrite length_app. simpl. rewrite <- !app_assoc. simpl.
      by rewrite Nat.add_1_r.
    + done.
Qed.

Lemma joinElbs_ok ips answers e :
  let new := created ips answers 0 in
  joinElbs ips answers e =
    set_list (seq (length (sockets e)) (length new))
      (set_sockets (sockets e ++ (pair ElbsRole <$> new)) e).
Proof. cbn zeta. unfold joinElbs. by rewrite connect_each_ok. Qed.

(** ** Timers *)

(** The messages [id] that wait in the queue. *)
Definition pending (id : msg_id) (cs : list thread_call) : nat :=
  foldl (λ n c, match c with
                | PostDelayed _ i => if decide (i = id) then S n else n
                | Clear i => if decide (i = id) then 0%nat else n
                | Dispatched i => if decide (i = id) then Nat.pred n else n
                | Stop => n
                end) 0%nat cs.

Definition timers_ok e : Prop :=
  pending MSG_ELBS_ONTIMER (calls e) = 1%nat ∧ pending MSG_ARGUS_ONTIMER (calls e) = 1%nat.

(** A timer that has just been dispatched and is set again. *)
Lemma rearm_ok id ms e :
  id = MSG_ELBS_ONTIMER ∨ id = MSG_ARGUS_ONTIMER → timers_ok e →
  timers_ok (call [Clear id; PostDelayed ms id] (call [Dispatched id] e)).
Proof.
  unfold timers_ok, pending. cbn [calls call]. rewrite !foldl_app.
  by intros [->| ->] [-> ->].
Qed.

(** ** Invariant *)

(** The pointers lead to sockets of the right kind, and [socket_connecting_] has
    been set when a socket can call [OnArgusSocketConnect]. *)
Definition pointers_ok (rs : list role) (elbs : list nat) (connecting argus : option nat) : Prop :=
  Forall (λ i, rs !! i = Some ElbsRole) elbs ∧
  (∀ j, connecting = Some j → rs !! j = Some ArgusRole) ∧
  (∀ j, argus = Some j → rs !! j = Some ArgusRole) ∧
  (ArgusRole ∈ rs → is_Some connecting).

Definition fields_ok e : Prop :=
  0 ≤ last_connect_ts_ e < 2 ^ 63 - 3000 ∧
  0 ≤ addr_ip (connect_Addr_ e) < 2 ^ 32 ∧ 0 ≤ addr_port (connect_Addr_ e) < 2 ^ 16.

Definition inv e : Prop :=
  pointers_ok (roles e) (elbs_socket_ e) (socket_connecting_ e) (socket_ e) ∧
  fields_ok e ∧ timers_ok e.

Lemma inv_set_sockets l e : l.*1 = roles e → inv e → inv (set_sockets l e).
Proof. unfold inv, roles. cbn. by intros ->. Qed.

(** A method call keeps the invariant. *)
Lemma on_inv_ok i f e :
  (i < length (sockets e))%nat → inv e → ∃ e', on i f e = Ok e' ∧ inv e'.
Proof.
  intros Hi He. destruct (on_roles i f e Hi) as (l & E & Hl).
  eexists. split; [exact E|]. by apply inv_set_sockets.
Qed.

Lemma roles_lt e i r : roles e !! i = Some r → (i < length (sockets e))%nat.
Proof. intros Hi%lookup_lt_Some. unfold roles in Hi. by rewrite length_fmap in Hi. Qed.

Lemma pointers_join rs elbs c a n new :
  n = length rs → pointers_ok rs elbs c a →
  pointers_ok (rs ++ replicate new ElbsRole) (seq n new) c a.
Proof.
  intros -> (_ & Hc & Ha & Hs). split_and!.
  - apply Forall_forall. intros i [Hi1 Hi2]%in_seq.
    rewrite lookup_app_r by lia. apply lookup_replicate. split; [done|lia].
  - intros j Hj. by apply lookup_app_l_Some, Hc.
  - intros j Hj. by apply lookup_app_l_Some, Ha.
  - intros [Hx|Hx]%elem_of_app; [by apply Hs|].
    apply elem_of_replicate in Hx as [? _]. done.
Qed.

Lemma pointers_edge rs elbs c a :
  pointers_ok rs elbs c a → pointers_ok (rs ++ [ArgusRole]) elbs (Some (length rs)) a.
Proof.
  intros (He & Hc & Ha & Hs). split_and!.
  - eapply Forall_impl; [|exact He]. intros i Hi. by apply lookup_app_l_Some.
  - intros j Hj. simplify_eq. by rewrite lookup_app_r, Nat.sub_diag by lia.
  - intros j Hj. by apply lookup_app_l_Some, Ha.
  - by eexists.
Qed.

(** ** Responses *)

Definition response_codec : Codec (Z * Z * Z) := uint32_codec ⊗ uint32_codec ⊗ uint16_codec.

(** The body of a packet, and that of a response followed by anything. *)
Definition packet_body (service_type uri : Z) (rest : bytes) : bytes :=
  le_bytes 2 service_type ++ le_bytes 2 uri ++ rest.
Definition response_body (service_type code ip port : Z) (rest : bytes) : bytes :=
  packet_body service_type Elbs.kRejoinResponseUri
    (le_bytes 4 code ++ le_bytes 4 ip ++ le_bytes 2 port ++ rest).

(** What the header of a whole packet leads to. *)
Lemma OnResponsePacket_header socket service_type uri rest now answer e :
  let body := packet_body service_type uri rest in
  0 ≤ service_type < 2 ^ 16 → 0 ≤ uri < 2 ^ 16 → frame_len body < 2 ^ 16 →
  ∃ u, Unpacker.opened u body ∧
    OnResponsePacket socket (frame body) (frame_len body) now answer e =
      if uri =? Elbs.kRejoinResponseUri then
        '(resp, _) ← Packet.unmarshall Elbs.RejoinResponseProtocol
                       (Packet.construct Elbs.RejoinResponseProtocol) u;
        let '(code, ip, port) := Packet.members resp in
        on_response socket ip port now answer e
      else Ok e.
Proof.
  cbn zeta. intros Hs Hu Hl. set (body := packet_body _ _ _) in *.
  destruct (Unpacker.make_opened body false) as (u & Em & Ho); [lia|].
  exists u. split; [done|]. unfold OnResponsePacket.
  assert (6 ≤ frame_len body) as H6.
  { pose proof (frame_len_size body) as E. pose proof (var_size_bound (frame_len body)).
    assert (length body = 4 + length rest)%nat by (unfold body, packet_body; rewrite !length_app, !length_le_bytes; lia).
    lia. }
  rewrite (proj2 (Z.ltb_ge _ _)), Em, bind_ok by lia.
  pose proof Ho as (Hv & _). unfold body, packet_body in Hv.
  rewrite (uint16_pop 0 _ _ _ Hs Hv : Unpacker.PopUint16 u = _), bind_ok.
  pose proof (Unpacker.advance_view_app 2 _ _ _ Hv eq_refl) as Hv2.
  rewrite (uint16_pop 0 _ _ _ Hu Hv2 : Unpacker.PopUint16 _ = _), bind_ok.
  change (Unpacker.advance 2 (Unpacker.advance 2 u)) with
    (Unpacker.set_position (u32 (Unpacker.position_ (Unpacker.advance 2 u) + 2)) u).
  by rewrite (Unpacker.Rewind_opened _ body _ Ho), bind_ok by lia.
Qed.

(** A whole response, with anything after its members. *)
Lemma OnResponsePacket_response socket st code ip port rest now answer e :
  let body := response_body st code ip port rest in
  0 ≤ st < 2 ^ 16 → 0 ≤ code < 2 ^ 32 → 0 ≤ ip < 2 ^ 32 → 0 ≤ port < 2 ^ 16 →
  frame_len body < 2 ^ 16 →
  OnResponsePacket socket (frame body) (frame_len body) now answer e =
    on_response socket ip port now answer e.
Proof.
  cbn zeta. intros Hs Hc Hi Hp Hl.
  destruct (OnResponsePacket_header socket st Elbs.kRejoinResponseUri
    (le_bytes 4 code ++ le_bytes 4 ip ++ le_bytes 2 port ++ rest) now answer e)
    as (u & (Hv & _) & E); [done|done|done|].
  unfold response_body. rewrite E. clear E. cbn [Z.eqb Elbs.kRejoinResponseUri Pos.eqb].
  set (x := mkDeclared (mkPacket st Elbs.kRejoinResponseUri) (code, ip, port)).
  assert (Unpacker.view u (enc (packet_codec (declare_packet 7 response_codec)) x ++ rest)) as Hv'.
  { revert Hv. unfold packet_body. cbn [enc packet_spec]. unfold header_enc. by cbn. }
  assert (valid (packet_codec (declare_packet 7 response_codec)) x) as Hx
    by (cbn; unfold header_valid, Elbs.kRejoinResponseUri; cbn; repeat split; lia).
  change (Packet.unmarshall Elbs.RejoinResponseProtocol (Packet.construct Elbs.RejoinResponseProtocol) u)
    with (pop (packet_codec (declare_packet 7 response_codec))
            (dflt (packet_codec (declare_packet 7 response_codec))) u).
  rewrite (pop_enc _ _ _ _ Hx Hv'), bind_ok. by rewrite absorb_dflt by done.
Qed.

(** ** Requests *)

Definition request_body (ip port : Z) : bytes :=
  packet_body Elbs.ELBS_SERVER_TYPE Elbs.kRejoinRequestUri (le_bytes 4 ip ++ le_bytes 2 port).

Lemma OnElbsSocketConnect_sends i e :
  0 ≤ addr_ip (connect_Addr_ e) < 2 ^ 32 → 0 ≤ addr_port (connect_Addr_ e) < 2 ^ 16 →
  OnElbsSocketConnect i e =
    on i (λ t, snd (Send (frame (request_body (addr_ip (connect_Addr_ e))
                                              (addr_port (connect_Addr_ e)))) t)) e.
Proof.
  intros Hi Hp. unfold OnElbsSocketConnect.
  set (c := packet_codec (declare_packet Elbs.kRejoinRequestUri (uint32_codec ⊗ uint16_codec))).
  set (x := mkDeclared _ _).
  assert (valid c x) as Hx by (split; [split; vm_compute; split; congruence|split; assumption]).
  destruct (pack_value_packed c x Hx) as (p & E & Hpk & _);
    [unfold Packer.room, Packer.kMaxPacketSize; cbn; lia|].
  change (packet_codec Elbs.RejoinRequestProtocol) with c. rewrite E, bind_ok.
  destruct (Packer.packed_Data p _ Hpk) as (Hd & _); [cbn; lia|].
  unfold Packer.Data in Hd. unfold Packer.Buffer, Packer.Length. by rewrite Hd, bind_ok.
Qed.

(** ** Safety *)

(** What reaches the object when the peer sends whole packets one at a time. *)
Definition whole_packet (data : bytes) : Prop :=
  ∃ st uri rest, data = frame (packet_body st uri rest) ∧
    0 ≤ st < 2 ^ 16 ∧ 0 ≤ uri < 2 ^ 16 ∧ Z.of_nat (length data) < 2 ^ 16 ∧
    (uri = Elbs.kRejoinResponseUri → ∃ code ip port tail,
       rest = le_bytes 4 code ++ le_bytes 4 ip ++ le_bytes 2 port ++ tail ∧
       0 ≤ code < 2 ^ 32 ∧ 0 ≤ ip < 2 ^ 32 ∧ 0 ≤ port < 2 ^ 16).

Definition enabled (ev : event (T:=T) (A:=A)) e : Prop :=
  match ev with
  | Message_elbs _ _ | Message_argus => True
  | Connected i _ | Closed i | Network i _ => (i < length (sockets e))%nat
  | Received i data now _ =>
      (i < length (sockets e))%nat ∧ 0 ≤ now < 2 ^ 63 - 3000 ∧ whole_packet data
  end.

Fixpoint enabled_run (evs : list event) e : Prop :=
  match evs with
  | [] => True
  | ev :: evs => enabled ev e ∧ ∀ e', step serialize ev e = Ok e' → enabled_run evs e'
  end.

Lemma inv_call cs e : inv e → timers_ok (call cs e) → inv (call cs e).
Proof. by intros (Hp & Hf & _) Ht. Qed.

Lemma roles_new (l : list T) : (pair ElbsRole <$> l).*1 = replicate (length l) ElbsRole.
Proof. induction l as [|t l IH]; [done|]. csimpl. by rewrite IH. Qed.

Lemma inv_join ips answers e : inv e → inv (joinElbs ips answers e).
Proof.
  intros (Hp & Hf & Ht). rewrite joinElbs_ok. split; [|done]. cbn [elbs_socket_ set_list].
  unfold roles in *. cbn [sockets set_list set_sockets socket_connecting_ socket_].
  rewrite fmap_app, roles_new.
  apply pointers_join with (elbs_socket_ e); [by rewrite length_fmap|done].
Qed.

Lemma on_length i f e e' : on i f e = Ok e' → length (sockets e') = length (sockets e).
Proof.
  intros (l & -> & Hl)%on_inv. apply (f_equal length) in Hl. unfold roles in Hl.
  by rewrite !length_fmap in Hl.
Qed.

Lemma inv_response `{!RtcAddressOk A} i ip port now answer e :
  inv e → (i < length (sockets e))%nat → 0 ≤ now < 2 ^ 63 - 3000 →
  0 ≤ ip < 2 ^ 32 → 0 ≤ port < 2 ^ 16 →
  ∃ e', on_response i ip port now answer e = Ok e' ∧ inv e'.
Proof.
  intros He Hi Hn Hip Hport. pose proof He as (Hp & ((Hl & Ha & Ha') & Ht)).
  unfold on_response, add64. rewrite (proj2 (Z.leb_le _ _)), (proj2 (Z.ltb_lt _ _)) by lia.
  cbn [andb]. rewrite bind_ok. case_match; [by apply on_inv_ok|].
  case_match; [by eauto|]. set (a := SetPort port _).
  assert (addr_ip a = ntohl ip ∧ addr_port a = port) as [Ei Ep].
  { unfold a. destruct (SetPort_ok port (SetIP (ntohl ip) (connect_Addr_ e))) as [-> ->].
    by destruct (SetIP_ok (ntohl ip) (connect_Addr_ e)) as [-> _]. }
  pose proof (ntohl_bound ip). unfold connectEdgeServer, create, Create. cbn [connect_Addr_ set_addr].
  destruct (answer a) as [t|]; cbn [fst snd].
  - apply on_inv_ok; [cbn; rewrite length_app; simpl; lia|].
    split; [|split; [by split; [cbn; lia|cbn; rewrite Ei, Ep]|exact Ht]].
    unfold roles in *. cbn. rewrite fmap_app. rewrite <- (length_fmap fst).
    by eapply pointers_edge.
  - apply on_inv_ok; [done|]. split; [done|].
    split; [by split; [cbn; lia|cbn; rewrite Ei, Ep]|exact Ht].
Qed.

Lemma inv_set_socket c e :
  roles e !! c = Some ArgusRole → inv e → inv (set_socket (Some c) e).
Proof.
  intros Hc ((He & Hcn & _ & Hs) & Hf & Ht). split; [|done]. split_and!; try done.
  cbn. intros j [= <-]. exact Hc.
Qed.

Lemma inv_argus_connect i s clock e :
  inv e → sockets e !! i = Some (ArgusRole, s) →
  ∃ e', OnArgusSocketConnect serialize i clock e = Ok e' ∧ inv e'.
Proof.
  intros He Hi. pose proof He as ((_ & Hc & Ha & Hs) & _).
  destruct Hs as [c Ec].
  { apply list_elem_of_lookup. exists i. unfold roles. by rewrite list_lookup_fmap, Hi. }
  pose proof (Hc c Ec) as Hrc. pose proof (roles_lt _ _ _ Hrc) as Hlc.
  destruct (lookup_lt_is_Some_2 _ _ Hlc) as [[rc sc] Hsc].
  unfold OnArgusSocketConnect, deref. rewrite Hi, bind_ok, Ec, Hsc, bind_ok.
  destruct (addr_eqb _ _); [|apply on_inv_ok; [by eapply lookup_lt_Some|done]].
  assert (∃ e1, match socket_ e with Some p => on p CloseSocket e | None => Ok e end = Ok e1 ∧
            inv e1 ∧ roles e1 = roles e) as (e1 & -> & He1 & Hr1).
  { destruct (socket_ e) as [p|] eqn:Ep; [|by eauto].
    destruct (on_roles p CloseSocket e) as (l & E & Hl); [exact (roles_lt _ _ _ (Ha p eq_refl))|].
    eexists. split; [exact E|]. split; [by apply inv_set_sockets|done]. }
  rewrite bind_ok, <- Hr1 in *. apply (inv_set_socket c) in He1; [|done].
  assert (c < length (sockets (set_socket (Some c) e1)))%nat as Hl1 by by eapply roles_lt.
  destruct (on_inv_ok c (SendQuitReport serialize (clock 0%nat) (clock 1%nat)) _ Hl1 He1)
    as (e2 & E2 & He2).
  cbv zeta. rewrite E2, bind_ok. apply on_inv_ok; [|done]. by rewrite (on_length _ _ _ _ E2).
Qed.

Lemma inv_argus_timer e :
  inv e → ∃ e', OnArgusTimer (call [Dispatched MSG_ARGUS_ONTIMER] e) = Ok e' ∧ inv e'.
Proof.
  intros He. set (e0 := call _ e).
  assert (∃ l, match socket_ e0 with
      | Some p => '(_, t) ← deref p e0;
          if decide (GetState t = STATE_CONNECTED)
          then on p (λ t, snd (Send (pingPkg_ e0) t)) e0 else Ok e0
      | None => Ok e0 end = Ok (set_sockets l e0) ∧ l.*1 = roles e) as (l & E & Hl).
  { pose proof He as ((_ & _ & Ha & _) & _). cbn [socket_ call e0].
    assert (Ok e0 = Ok (set_sockets (sockets e0) e0)) as Eself by done.
    destruct (socket_ e) as [p|] eqn:Ep; [|exists (sockets e); by split].
    pose proof (roles_lt _ _ _ (Ha p eq_refl)) as Hp.
    destruct (lookup_lt_is_Some_2 _ _ Hp) as [[rp sp] Hsp].
    unfold deref. cbn [sockets call e0]. rewrite Hsp, bind_ok.
    case_decide; [|exists (sockets e); by split]. by apply (on_roles p _ e0). }
  unfold OnArgusTimer. rewrite E, bind_ok. eexists. split; [done|].
  destruct He as (Hp & Hf & Ht). split; [|split; [done|]].
  - unfold roles in *. cbn. by rewrite Hl.
  - by apply (rearm_ok _ _ e); [right|].
Qed.

(** Every event leads to a state that satisfies the invariant. *)
Lemma step_inv `{!RtcAddressOk A} ev e :
  inv e → enabled ev e → ∃ e', step serialize ev e = Ok e' ∧ inv e'.
Proof.
  intros He Hen. destruct ev as [ips answers| |i clock|i|i data now answer|i f]; cbn [step].
  - eexists. split; [done|]. unfold OnElbsTimer.
    pose proof (rearm_ok MSG_ELBS_ONTIMER (60 * 1000) e (or_introl eq_refl) (proj2 (proj2 He))) as Ht.
    rewrite joinElbs_ok. pose proof (inv_join ips answers e He) as Hj.
    rewrite joinElbs_ok in Hj. destruct Hj as (Hp & Hf & _). by split; [|split].
  - by apply inv_argus_timer.
  - destruct (lookup_lt_is_Some_2 _ _ Hen) as [[[] s] Hi]; unfold deref; rewrite Hi, bind_ok.
    + destruct He as (Hp & (Hl & Ha & Ha') & Ht). rewrite OnElbsSocketConnect_sends by done.
      by apply on_inv_ok.
    + by eapply inv_argus_connect.
  - destruct (lookup_lt_is_Some_2 _ _ Hen) as [[[] s] Hi]; unfold deref; rewrite Hi, bind_ok;
      by apply on_inv_ok.
  - destruct Hen as (Hi & Hn & st & uri & rest & -> & Hst & Huri & Hlen & Hresp).
    unfold ProcessInput. cbv beta iota. unfold PacketLength. rewrite length_frame in *.
    rewrite u16_small by (pose proof (frame_len_bound (packet_body st uri rest)); lia).
    destruct (decide (uri = Elbs.kRejoinResponseUri)) as [Hu|Hu].
    + destruct (Hresp Hu) as (code & ip & port & tail & -> & Hc & Hip & Hp). rewrite Hu in *.
      pose proof (OnResponsePacket_response i st code ip port tail now answer e) as E.
      unfold response_body in E. rewrite E by done. by apply inv_response.
    + destruct (OnResponsePacket_header i st uri rest now answer e) as (u & _ & E); [done..|].
      rewrite E, (proj2 (Z.eqb_neq _ _)) by done. eauto.
  - by apply on_inv_ok.
Qed.

Lemma run_inv `{!RtcAddressOk A} evs e :
  inv e → enabled_run evs e → ∃ e', run serialize evs e = Ok e' ∧ inv e'.
Proof.
  revert e. induction evs as [|ev evs IH]; intros e He Hen; [by eexists|].
  destruct Hen as [H1 H2]. destruct (step_inv ev e He H1) as (e1 & E & He1).
  cbn [run]. rewrite E, bind_ok. by apply IH, H2.
Qed.

Lemma start_inv `{!RtcAddressOk A} ips answers : inv (start ips answers make).
Proof.
  unfold start. apply inv_join. destruct no_address_ok as [E1 E2].
  split; [|split; [|done]].
  - split_and!; [constructor|done|done|]. cbn. by intros ?%elem_of_nil.
  - split; [cbn; lia|]. cbn. rewrite E1, E2. lia.
Qed.

(** ** Edge connections *)

(** The connections to edge servers that were ever started. *)
Definition edges e : Z := Z.of_nat (length (filter (eq ArgusRole) (roles e))).

Definition spaced e e' : Prop :=
  3000 * (edges e' - edges e) ≤ last_connect_ts_ e' - last_connect_ts_ e.

Lemma spaced_same e e' : roles e' = roles e → last_connect_ts_ e' = last_connect_ts_ e → spaced e e'.
Proof. unfold spaced, edges. intros -> ->. lia. Qed.

Lemma spaced_on i f e e' : on i f e = Ok e' → spaced e e'.
Proof. intros (l & -> & Hl)%on_inv. by apply spaced_same. Qed.

Lemma spaced_trans e1 e2 e3 : spaced e1 e2 → spaced e2 e3 → spaced e1 e3.
Proof. unfold spaced. lia. Qed.

Lemma spaced_response i ip port now answer e e' :
  on_response i ip port now answer e = Ok e' → spaced e e'.
Proof.
  unfold on_response. intros (soonest & Es & E)%bind_ok_inv.
  assert (soonest = last_connect_ts_ e + 3000) as ->
    by (unfold add64 in Es; destruct (_ && _); congruence).
  revert E. destruct (Z.ltb_spec now (last_connect_ts_ e + 3000)) as [Hn|Hn]; [by apply spaced_on|].
  destruct (_ && _); [intros; simplify_eq; by apply spaced_same|].
  unfold connectEdgeServer, create, Create. cbn [connect_Addr_ set_addr].
  destruct (answer _) as [t|]; cbn [fst snd]; intros E.
  - eapply spaced_trans; [|by eapply spaced_on].
    unfold spaced, edges, roles. cbn. rewrite fmap_app, list.filter_app, length_app. simpl.
    lia.
  - eapply spaced_trans; [|by eapply spaced_on]. by apply spaced_same.
Qed.

Lemma spaced_join ips answers e : spaced e (joinElbs ips answers e).
Proof.
  rewrite joinElbs_ok. unfold spaced, edges, roles. cbn.
  rewrite fmap_app, roles_new, list.filter_app, length_app.
  replace (filter (eq ArgusRole) (replicate _ ElbsRole)) with (@nil role); [simpl; lia|].
  induction (length _) as [|n IH]; [done|]. simpl. exact IH.
Qed.

Lemma spaced_argus_connect i clock e e' :
  OnArgusSocketConnect serialize i clock e = Ok e' → spaced e e'.
Proof.
  unfold OnArgusSocketConnect. intros ([r s] & _ & E)%bind_ok_inv.
  destruct (socket_connecting_ e) as [c|]; [|done].
  apply bind_ok_inv in E as ([rc sc] & _ & E).
  destruct (addr_eqb _ _); [|by eapply spaced_on].
  apply bind_ok_inv in E as (e1 & E1 & E). apply bind_ok_inv in E as (e2 & E2 & E3).
  apply spaced_trans with e1.
  - destruct (socket_ e); [by eapply spaced_on|]. simplify_eq. by apply spaced_same.
  - apply spaced_trans with (set_socket (Some c) e1); [by apply spaced_same|].
    eapply spaced_trans; by eapply spaced_on.
Qed.

Lemma spaced_received i data size now answer e e' :
  OnResponsePacket i data size now answer e = Ok e' → spaced e e'.
Proof.
  unfold OnResponsePacket. case_match; [intros; simplify_eq; by apply spaced_same|].
  intros (u & _ & E)%bind_ok_inv. apply bind_ok_inv in E as ([st u1] & _ & E).
  apply bind_ok_inv in E as ([uri u2] & _ & E). apply bind_ok_inv in E as (u3 & _ & E).
  destruct (uri =? _); [|simplify_eq; by apply spaced_same].
  apply bind_ok_inv in E as ([resp u4] & _ & E).
  destruct (Packet.members resp) as [[code ip] port]. by eapply spaced_response.
Qed.

Lemma spaced_step ev e e' : step serialize ev e = Ok e' → spaced e e'.
Proof.
  destruct ev as [ips answers| |i clock|i|i data now answer|i f]; cbn [step].
  - intros [= <-]. apply spaced_trans with (call [Dispatched MSG_ELBS_ONTIMER] e);
      [by apply spaced_same|].
    eapply spaced_trans; [apply spaced_join|]. by apply spaced_same.
  - unfold OnArgusTimer. intros (e1 & E & [= <-])%bind_ok_inv.
    apply spaced_trans with e1; [|by apply spaced_same].
    eapply spaced_trans; [by apply (spaced_same e (call [Dispatched MSG_ARGUS_ONTIMER] e))|].
    destruct (socket_ _) as [p|]; [|simplify_eq; by apply spaced_same].
    apply bind_ok_inv in E as ([r t] & _ & E).
    case_decide; [by eapply spaced_on|simplify_eq; by apply spaced_same].
  - intros ([[] s] & _ & E)%bind_ok_inv; [|by eapply spaced_argus_connect].
    unfold OnElbsSocketConnect in E. apply bind_ok_inv in E as (pk & _ & E).
    apply bind_ok_inv in E as (d & _ & E). by eapply spaced_on.
  - intros ([[] s] & _ & E)%bind_ok_inv; by eapply spaced_on.
  - apply spaced_received.
  - apply spaced_on.
Qed.

Lemma spaced_run evs e e' : run serialize evs e = Ok e' → spaced e e'.
Proof.
  revert e. induction evs as [|ev evs IH]; cbn [run]; intros e E.
  - simplify_eq. by apply spaced_same.
  - apply bind_ok_inv in E as (e1 & E1 & E). eapply spaced_trans; [by eapply spaced_step|].
    by apply IH.
Qed.
End lemmas.

Lemma PopUint16_short u rest :
  Unpacker.view u rest → (length rest < 2)%nat → Unpacker.PopUint16 u = Err OutOfBounds.
Proof.
  intros Hv Hl. unfold Unpacker.PopUint16.
  assert (Unpacker.view (Unpacker.CheckSize 2 (Unpacker.position_ u) u) rest) as Hv'
    by (unfold Unpacker.CheckSize; by case_match).
  cbv zeta. by rewrite (Unpacker.fetch_oob 2 _ _ Hv') by lia.
Qed.

(** ** A concrete run *)

Definition no_report : report → bytes := λ _, [1; 2].

(** One ELBS answers at start; its response names 10.0.0.2:80, in network order. *)
Definition demo_start : ElbsConn (T:=rtc_socket) (A:=rtc_address) :=
  start [16777343] (λ _ a, Some (idle_socket 100)) make.
Definition demo_response : bytes := frame (response_body 305 0 33554442 80 []).
Definition demo_events : list (event (T:=rtc_socket) (A:=rtc_address)) :=
  [Connected 0 (λ _, 0); Received 0 demo_response 5000 (λ a, Some (idle_socket 100));
   Connected 1 (λ _, 6000); Message_argus; Message_elbs [16777343] (λ _ _, None)].

Lemma demo_whole : whole_packet demo_response.
Proof.
  exists 305, 7, (le_bytes 4 0 ++ le_bytes 4 33554442 ++ le_bytes 2 80 ++ []).
  split_and!; [reflexivity|lia|lia|lia|lia|vm_compute; reflexivity|].
  intros _. exists 0, 33554442, 80, []. split_and!; [reflexivity|lia..].
Qed.

Ltac next_event :=
  split; [cbn; first [exact I|lia|split_and!; [lia|lia|lia|exact demo_whole]]|
          intros ? E; vm_compute in E; injection E as <-].

Lemma demo_enabled : enabled_run no_report demo_events demo_start.
Proof. do 5 next_event. exact I. Qed.

(** ** Properties *)

Section properties.
Context {T A : Type} `{AsyncTCPSocketBase T A} `{RtcAddressOk A}.
Context (serialize : report → bytes).

(** C6: after [start], through any events in which the peers' packets arrive whole
    and one at a time, nothing faults: every pointer used leads to a socket,
    [socket_connecting_] is never read before it is set, no addition overflows; and
    between events each of the two timers waits exactly once, so neither stops nor
    doubles. *)
Theorem elbs_runs_without_fault ips answers evs :
  enabled_run serialize evs (start ips answers make) →
  ∃ e : ElbsConn, run serialize evs (start ips answers make) = Ok e ∧
    pending MSG_ELBS_ONTIMER (calls e) = 1%nat ∧ pending MSG_ARGUS_ONTIMER (calls e) = 1%nat ∧
    (∀ i, socket_ e = Some i → ∃ t, sockets e !! i = Some (ArgusRole, t)) ∧
    (∀ i, i ∈ elbs_socket_ e → ∃ t, sockets e !! i = Some (ElbsRole, t)).
Proof using All.
  intros Hen. destruct (run_inv serialize evs _ (start_inv ips answers) Hen)
    as (e & E & (Hel & _ & Ha & _) & _ & Ht1 & Ht2).
  assert (∀ i r, roles e !! i = Some r → ∃ t, sockets e !! i = Some (r, t)) as Hroles.
  { intros i r Hi. unfold roles in Hi. rewrite list_lookup_fmap in Hi.
    destruct (sockets e !! i) as [[r' t]|]; simplify_eq/=. eauto. }
  exists e. split_and!; [done..| |].
  - intros i Hi. by apply Hroles, Ha.
  - intros i Hi. apply Hroles. by eapply Forall_forall in Hel; [|apply list_elem_of_In].
Qed.

(** connections to edge servers are at least three seconds apart: over any
    events, the connections started cost three seconds each of the time between
    the first and the last clock reading that started one. *)
Theorem edge_connections_spaced evs (e e' : ElbsConn) :
  run serialize evs e = Ok e' →
  3000 * (edges e' - edges e) ≤ last_connect_ts_ e' - last_connect_ts_ e.
Proof using Type. apply spaced_run. Qed.

(** a response that arrives whole is obeyed, whatever its code: within three
    seconds of the last connection it only closes the socket it came on; if it
    names the address in use, nothing changes; otherwise the address is taken, in
    host order, a connection to it is tried, and the socket is closed. *)
Theorem response_obeyed i st code ip port rest now answer t (e : ElbsConn) :
  0 ≤ st < 2 ^ 16 → 0 ≤ code < 2 ^ 32 → 0 ≤ ip < 2 ^ 32 → 0 ≤ port < 2 ^ 16 →
  frame_len (response_body st code ip port rest) < 2 ^ 16 →
  0 ≤ last_connect_ts_ e < 2 ^ 63 - 3000 →
  sockets e !! i = Some (ElbsRole, t) →
  ∃ e', step serialize (Received i (frame (response_body st code ip port rest)) now answer) e = Ok e' ∧
    let closed := <[i := (ElbsRole, CloseSocket t)]> (sockets e) in
    let known := (ntohl ip =? addr_ip (connect_Addr_ e)) && (port =? addr_port (connect_Addr_ e)) in
    if now <? last_connect_ts_ e + 3000 then e' = set_sockets closed e
    else if known then e' = e
    else addr_ip (connect_Addr_ e') = ntohl ip ∧ addr_port (connect_Addr_ e') = port ∧
         elbs_socket_ e' = elbs_socket_ e ∧ socket_ e' = socket_ e ∧
         match answer (connect_Addr_ e') with
         | Some edge => sockets e' = closed ++ [(ArgusRole, edge)] ∧
             socket_connecting_ e' = Some (length (sockets e)) ∧ last_connect_ts_ e' = now
         | None => sockets e' = closed ∧ socket_connecting_ e' = socket_connecting_ e ∧
             last_connect_ts_ e' = last_connect_ts_ e
         end.
Proof using All.
  intros Hst Hc Hip Hp Hl Hlast Hi. cbn [step]. unfold ProcessInput. cbv beta iota.
  unfold PacketLength. rewrite length_frame, u16_small
    by (pose proof (frame_len_bound (response_body st code ip port rest)); lia).
  rewrite (OnResponsePacket_response i st) by done.
  unfold on_response, add64. rewrite (proj2 (Z.leb_le _ _)), (proj2 (Z.ltb_lt _ _)) by lia.
  cbn [andb]. rewrite bind_ok. destruct (now <? _).
  { rewrite (on_ok i ElbsRole t) by done. eauto. }
  destruct ((ntohl ip =? _) && (port =? _)); [by eauto|].
  unfold connectEdgeServer, create, Create. cbn [connect_Addr_ set_addr].
  set (a := SetPort port _).
  assert (addr_ip a = ntohl ip ∧ addr_port a = port) as [Ei Ep].
  { unfold a. destruct (SetPort_ok port (SetIP (ntohl ip) (connect_Addr_ e))) as [-> ->].
    by destruct (SetIP_ok (ntohl ip) (connect_Addr_ e)) as [-> _]. }
  destruct (answer a) as [edge|] eqn:Ea; cbn [fst snd].
  - rewrite (on_ok i ElbsRole t) by (cbn; by apply lookup_app_l_Some).
    eexists. split; [done|]. cbn. rewrite Ea. split_and!; try done.
    by rewrite insert_app_l by (by eapply lookup_lt_Some).
  - rewrite (on_ok i ElbsRole t) by done. eexists. split; [done|]. cbn. by rewrite Ea.
Qed.

(** What is sent on a new ELBS connection is one [RejoinRequestProtocol] packet
    whose ip is in host order, although its declaration wants network order: after
    a response naming [ip] was taken, the request carries [ntohl ip]. *)
Theorem request_ip_is_host_ordered i t (e : ElbsConn) :
  inv e → sockets e !! i = Some (ElbsRole, t) →
  step serialize (Connected i (λ _, 0)) e =
    Ok (set_sockets (<[i := (ElbsRole, snd (Send (frame
          (packet_body Elbs.ELBS_SERVER_TYPE Elbs.kRejoinRequestUri
             (le_bytes 4 (addr_ip (connect_Addr_ e)) ++ le_bytes 2 (addr_port (connect_Addr_ e))))) t))]>
          (sockets e)) e).
Proof using Type.
  intros (_ & (_ & Ha & Hp) & _) Hi. cbn [step]. unfold deref at 1. rewrite Hi, bind_ok.
  rewrite OnElbsSocketConnect_sends by done. by rewrite (on_ok i ElbsRole t).
Qed.

(** every minute the list of ELBS sockets is dropped, not closed: after a join
    all the sockets that existed are as they were, none of them is in the list any
    more, and the list holds exactly the new ones. *)
Theorem join_forgets_open_sockets ips answers (e : ElbsConn (T:=T) (A:=A)) :
  let e' := joinElbs ips answers e in
  (∀ i s, sockets e !! i = Some s → sockets e' !! i = Some s ∧ i ∉ elbs_socket_ e') ∧
  sockets e' = sockets e ++ (pair ElbsRole <$> created ips answers 0) ∧
  elbs_socket_ e' = seq (length (sockets e)) (length (created ips answers 0)).
Proof using Type.
  cbn zeta. rewrite joinElbs_ok. split_and!; [|done..]. intros i s Hi. split.
  - by apply lookup_app_l_Some.
  - cbn. apply lookup_lt_Some in Hi. rewrite list_elem_of_In, in_seq. lia.
Qed.

(** [size < 4] is not enough of a guard: four or five bytes pass it, and reading
    the uri goes past what was received. *)
Theorem short_response_faults i (data : bytes) now answer (e : ElbsConn) :
  (4 ≤ length data ≤ 5)%nat → bytes_ok data → le_val (take 2 data) < 2 ^ 15 →
  step serialize (Received i data now answer) e = Err OutOfBounds.
Proof using Type.
  intros Hl Hb Hp. cbn [step]. unfold ProcessInput, PacketLength. cbv beta iota.
  rewrite u16_small by lia. unfold OnResponsePacket. rewrite (proj2 (Z.ltb_ge _ _)) by lia.
  rewrite Unpacker.make_view by lia. set (u := Unpacker.mkUnpacker _ _ _ _ _).
  set (v := le_val (take 2 data)) in *.
  assert (length (take 2 data) = 2%nat) as H2 by (rewrite length_take; lia).
  assert (0 ≤ v) as Hv by (apply le_val_bound; by apply Forall_take).
  assert (data = var_enc v ++ take 2 (drop 2 data) ++ drop 4 data) as Ed.
  { unfold var_enc. rewrite (proj2 (Z.ltb_lt _ _)) by lia. unfold v. rewrite <- H2 at 1.
    rewrite le_bytes_le_val by (by apply Forall_take).
    change 4%nat with (2 + 2)%nat. rewrite <- drop_drop, take_drop. by rewrite take_drop. }
  assert (Unpacker.view u (var_enc v ++ take 2 (drop 2 data) ++ drop 4 data)) as Hu
    by (rewrite <- Ed; repeat split; cbn; lia).
  destruct (Unpacker.PopVariableUint32_small u v _ ltac:(lia) Hu) as [-> Hu1].
  rewrite !bind_ok. destruct (Unpacker.PopUint16_view _ _ _ Hu1) as [-> Hu2];
    [rewrite length_take, length_drop; lia|].
  rewrite bind_ok. rewrite (PopUint16_short _ _ Hu2); [done|]. rewrite length_drop. lia.
Qed.
End properties.

Lemma elbs_runs_without_fault_witness :
  ∃ e, run no_report demo_events demo_start = Ok e ∧
    pending MSG_ELBS_ONTIMER (calls e) = 1%nat ∧ pending MSG_ARGUS_ONTIMER (calls e) = 1%nat ∧
    (∀ i, socket_ e = Some i → ∃ t, sockets e !! i = Some (ArgusRole, t)) ∧
    (∀ i, i ∈ elbs_socket_ e → ∃ t, sockets e !! i = Some (ElbsRole, t)).
Proof.
  exact (elbs_runs_without_fault no_report [16777343] (λ _ a, Some (idle_socket 100)) demo_events
    demo_enabled).
Defined.

Definition demo_end : ElbsConn (T:=rtc_socket) (A:=rtc_address) :=
  match run no_report demo_events demo_start with Ok e => e | Err _ => demo_start end.

Lemma edge_connections_spaced_witness :
  3000 * (edges demo_end - edges demo_start) ≤
    last_connect_ts_ demo_end - last_connect_ts_ demo_start.
Proof. apply (edge_connections_spaced no_report demo_events). vm_compute. reflexivity. Defined.

Lemma response_obeyed_witness :
  ∃ e', step no_report (Received 0 demo_response 5000 (λ a, Some (idle_socket 100))) demo_start = Ok e' ∧
    addr_ip (connect_Addr_ e') = 167772162 ∧ last_connect_ts_ e' = 5000.
Proof.
  destruct (response_obeyed no_report 0 305 0 33554442 80 [] 5000 (λ a, Some (idle_socket 100))
    (idle_socket 100) demo_start) as (e' & E & Hi & _ & _ & _ & _ & _ & Hl);
    [lia|lia|lia|lia|vm_compute; reflexivity|cbn; lia|reflexivity|].
  exists e'. exact (conj E (conj Hi Hl)).
Defined.

Lemma demo_start_inv : inv demo_start.
Proof. apply start_inv. Qed.

Lemma request_ip_is_host_ordered_witness :
  step no_report (Connected 0 (λ _, 0)) demo_start =
    Ok (set_sockets (<[0%nat := (ElbsRole, snd (Send (frame
          (packet_body Elbs.ELBS_SERVER_TYPE Elbs.kRejoinRequestUri (le_bytes 4 0 ++ le_bytes 2 0)))
          (idle_socket 100)))]> (sockets demo_start)) demo_start).
Proof. exact (request_ip_is_host_ordered no_report 0 (idle_socket 100) demo_start demo_start_inv eq_refl). Defined.

Lemma join_forgets_open_sockets_witness :
  sockets (joinElbs [] (λ _ _, None) demo_start) !! 0%nat = Some (ElbsRole, idle_socket 100) ∧
  elbs_socket_ (joinElbs [] (λ _ _, None) demo_start) = [].
Proof.
  destruct (join_forgets_open_sockets [] (λ _ _, None) demo_start) as (Hs & _ & He).
  split; [exact (proj1 (Hs 0%nat _ eq_refl))|exact He].
Defined.

Lemma short_response_faults_witness :
  step no_report (Received 0 [4; 0; 49; 1] 0 (λ _, None)) demo_start = Err OutOfBounds.
Proof.
  apply (short_response_faults no_report); [simpl; lia| |vm_compute; reflexivity].
  repeat constructor; unfold is_byte; lia.
Defined.
