(* ===== verification/Worker.v ===== *)
(** * Worker: the class Worker of turnserver_main.cc

    The worker keeps a connection to the worker manager of its machine: it announces
    itself when it is connected, sends a ping every three seconds, and answers a request
    with the ports of the server.  The messages are JSON texts in [WorkerManagerComm]
    packets.

    As in [ElbsConnection], sockets are never deleted, a pointer is an index in
    [sockets], and the calls made on [rtc::Thread] are a trace.  The process id, the two
    ports, the clock, the counters of the TURN server and the outcome of
    [WorkerTCPSocket::Create] are arguments. *)

From Stdlib Require Import String.
From S2P Require Import Prelude Bytes Wire Packer Unpacker Codec Packet Structs Protocols.
From S2P Require Import Double CJson CJsonProofs CJsonParse JsonWrapper JsonWrapperProofs.
From S2P Require Import WorkerSocket ElbsConnection.

(** ** Messages *)

(** [setStringValue] of two [std::string]s. *)
Definition setString (n : string) (value : bytes) (w : JsonWrapper) : JsonWrapper :=
  setStringValue (Some (str n)) (Some (c_str value)) w.

(** [WorkerManagerComm comm(UAP_SERVER_TYPE)], packed: the bytes that are sent. *)
Definition comm_packet (jcstr : bytes) : result bytes :=
  let comm := mkDeclared
                (Packet.base (Packet.construct_server Elbs.WorkerManagerComm Elbs.UAP_SERVER_TYPE))
                jcstr in
  pk ← pack_value (packet_codec Elbs.WorkerManagerComm) comm (Packer.make Packer.kDefaultSize);
  Packer.peek (Packer.Buffer pk) (Packer.Length pk) pk.

Section messages.
Context (overflow : double → Z).

Definition connect_json (pid now : Z) : JsonWrapper :=
  let json := setObjectType in
  let json := setString "command" (str "connect") json in
  let json := setString "name" (str "webrtc_proxy") json in
  let json := setIntValue overflow (Some (str "pid")) pid json in
  let json := setDoubleValue overflow (Some (str "ts")) (of_int now) json in
  let json := setString "appId" [] json in
  let json := setString "cname" [] json in
  let json := setString "uid" [] json in
  let json := setString "minSdkVersion" (str "2.3.1") json in
  setString "maxSdkVersion" (str "2.6.2") json.

Definition ping_json (now ingress egress userCount : Z) : JsonWrapper :=
  let json := setObjectType in
  let json := setString "command" (str "ping") json in
  let json := setString "state" (str "idle") json in
  let json := setDoubleValue overflow (Some (str "ts")) (of_int now) json in
  let msg := setObjectType in
  let msg := setIntValue overflow (Some (str "cpu")) 0 msg in
  let msg := setIntValue overflow (Some (str "ingress")) ingress msg in
  let msg := setIntValue overflow (Some (str "egress")) egress msg in
  let msg := setIntValue overflow (Some (str "userCount")) userCount msg in
  setObjectValue (Some (str "workload")) (m_root msg) json.

Definition response_json (appid cname uid sid : bytes) (seq requestid now udpport tcpport : Z)
    : JsonWrapper :=
  let resp := setObjectType in
  let resp := setString "command" (str "response") resp in
  let resp := setString "appId" appid resp in
  let resp := setString "cname" cname resp in
  let resp := setString "uid" uid resp in
  let resp := setString "sid" sid resp in
  let resp := setIntValue overflow (Some (str "seq")) seq resp in
  let resp := setDoubleValue overflow (Some (str "ts")) (of_int now) resp in
  let resp := setIntValue overflow (Some (str "requestId")) requestid resp in
  let resp := setIntValue overflow (Some (str "code")) 200 resp in
  let resp := setString "reason" (str "Success") resp in
  let msg := setObjectType in
  let msg := setIntValue overflow (Some (str "udpport")) udpport msg in
  let msg := setIntValue overflow (Some (str "tcpport")) tcpport msg in
  let msg := setString "username" (str "test") msg in
  let msg := setString "password" (str "111111") msg in
  setObjectValue (Some (str "serverResponse")) (m_root msg) resp.
End messages.

(** ** The class Worker *)

Section worker.
Context {T A : Type} `{AsyncTCPSocketBase T A}.
Context (pow10 : double → double) (overflow : double → Z).
(** The globals that [main] sets before the worker starts. *)
Context (pid udpport tcpport : Z).

Record Worker := mkWorker {
  sockets : list T;
  calls : list thread_call;
  socket_ : option nat;
  counters : option (Z * Z * Z);   (* userCount, ingress, egress; not set by the constructor *)
}.

Definition make : Worker := mkWorker [] [] None None.

Definition set_sockets (l : list T) (w : Worker) : Worker :=
  mkWorker l (calls w) (socket_ w) (counters w).
Definition set_socket (p : option nat) (w : Worker) : Worker :=
  mkWorker (sockets w) (calls w) p (counters w).
Definition set_counters (c : Z * Z * Z) (w : Worker) : Worker :=
  mkWorker (sockets w) (calls w) (socket_ w) (Some c).
Definition call (c : list thread_call) (w : Worker) : Worker :=
  mkWorker (sockets w) (calls w ++ c) (socket_ w) (counters w).

Definition deref (i : nat) (w : Worker) : result T :=
  match sockets w !! i with Some t => Ok t | None => Err UseAfterFree end.
Definition update (i : nat) (t : T) (w : Worker) : Worker :=
  set_sockets (<[i := t]> (sockets w)) w.

(** [WorkerTCPSocket::Create], and the connection of the signals when it succeeds. *)
Definition create (answer : option T) (w : Worker) : Worker :=
  match Create answer with
  | Some t => set_socket (Some (length (sockets w))) (set_sockets (sockets w ++ [t]) w)
  | None => w
  end.

Definition AddWorkerManagerSocket (answer : option T) (w : Worker) : Worker :=
  call [PostDelayed 3000 MSG_WORKER_ONTIMER; PostDelayed (60 * 1000) MSG_LOG_ONTIMER;
        PostDelayed 500 MSG_BANDWIDTH_GET] (create answer w).

Definition sendMessage (pv : bytes) (w : Worker) : result (Z * Worker) :=
  match socket_ w with
  | None => Ok (0, w)
  | Some p =>
      t ← deref p w;
      if decide (GetState t = STATE_CONNECTED)
      then let '(ret, t) := Send pv t in Ok (ret, update p t w)
      else Ok (0, w)
  end.

(** The common end of the three messages. *)
Definition send_json (json : JsonWrapper) (w : Worker) : result (Z * Worker) :=
  jcstr ← toString false json;
  data ← comm_packet jcstr;
  sendMessage data w.

Definition sendConnectMsg (now : Z) (w : Worker) : result (Z * Worker) :=
  send_json (connect_json overflow pid now) w.

Definition sendPingMsg (now : Z) (w : Worker) : result (Z * Worker) :=
  match counters w with
  | Some (userCount, ingress, egress) =>
      send_json (ping_json overflow now ingress egress userCount) w
  | None => Err UninitRead
  end.

(** The integers of a request are read into variables that have no value yet. *)
Definition initialized (v : option Z) : result Z :=
  match v with Some v => Ok v | None => Err UninitRead end.

Definition answer_request (json : JsonWrapper) (now : Z) (w : Worker) : result (Z * Worker) :=
  let get n := snd (tryGetStringValue (Some (str n)) [] json) in
  let appid := get "appId"%string in
  let cname := get "cname"%string in
  let uid := get "uid"%string in
  let sid := get "sid"%string in
  let seq := snd (tryGetIntValue (Some (str "seq")) None json) in
  let requestid := snd (tryGetIntValue (Some (str "requestId")) None json) in
  seq ← initialized seq;
  requestid ← initialized requestid;
  send_json (response_json overflow appid cname uid sid seq requestid now udpport tcpport) w.

(** [size] bytes have arrived at the start of [data]; nothing compares it with what is
    read. *)
Definition OnWorkerManagerPacket (data : bytes) (size now : Z) (w : Worker) : result Worker :=
  unpkr ← Unpacker.make data size false;
  '(service_type, unpkr) ← Unpacker.PopUint16 unpkr;
  '(uri, unpkr) ← Unpacker.PopUint16 unpkr;
  '(jcstr, _) ← Unpacker.PopString unpkr;
  json ← JsonWrapper_text pow10 overflow (Some (c_str jcstr));
  let '(found, command) := tryGetStringValue (Some (str "command")) [] json in
  if found && bool_decide (command = str "request")
  then '(_, w) ← answer_request json now w; Ok w
  else Ok w.

Definition OnSocketConnect (now : Z) (w : Worker) : result Worker :=
  '(_, w) ← sendConnectMsg now w; Ok w.

(** The debug assertion that it is the current socket is not compiled in. *)
Definition OnSocketClose (socket : nat) (w : Worker) : result Worker :=
  t ← deref socket w; Ok (update socket (CloseSocket t) w).

(** [OnMessage], case by case; [look_after] is the case of the worker timer before the
    timer is set again. *)
Definition look_after (answer : option T) (now : Z) (w : Worker) : result Worker :=
  match socket_ w with
  | None => Ok (create answer w)
  | Some p =>
      t ← deref p w;
      match GetState t with
      | STATE_CONNECTED => '(_, w) ← sendPingMsg now w; Ok w
      | STATE_CLOSED => Ok (create answer w)
      | _ =>
          let '(connected, t) := ReConnect t in
          let w := update p t w in
          if connected : bool then '(_, w) ← sendPingMsg now w; Ok w else Ok w
      end
  end.
Definition OnWorkerTimer (answer : option T) (now : Z) (w : Worker) : result Worker :=
  w ← look_after answer now w;
  Ok (call [Clear MSG_WORKER_ONTIMER; PostDelayed 3000 MSG_WORKER_ONTIMER] w).

Definition OnBandwidth (allocations send recv : Z) (w : Worker) : Worker :=
  call [Clear MSG_BANDWIDTH_GET; PostDelayed 500 MSG_BANDWIDTH_GET]
    (set_counters (Z.quot allocations 2, send, recv) w).

Definition OnLogTimer (w : Worker) : Worker :=
  call [Clear MSG_LOG_ONTIMER; PostDelayed (60 * 1000) MSG_LOG_ONTIMER] w.

(** [~Worker]. *)
Definition destroy (w : Worker) : result Worker :=
  w ← match socket_ w with
      | Some p => t ← deref p w; Ok (set_socket None (update p (CloseSocket t) w))
      | None => Ok w
      end;
  Ok (call [Clear MSG_WORKER_ONTIMER; Clear MSG_BANDWIDTH_GET; Clear MSG_LOG_ONTIMER; Stop] w).

(** ** Events *)

Inductive worker_event :=
  | Message_worker (answer : option T) (now : Z)
  | Message_bandwidth (allocations send recv : Z)
  | Message_log
  | WorkerConnected (now : Z)
  | WorkerClosed (i : nat)
  | WorkerReceived (data : bytes) (now : Z)
  | WorkerNetwork (i : nat) (f : T → T).

Definition step (ev : worker_event) (w : Worker) : result Worker :=
  match ev with
  | Message_worker answer now => OnWorkerTimer answer now (call [Dispatched MSG_WORKER_ONTIMER] w)
  | Message_bandwidth allocations send recv =>
      Ok (OnBandwidth allocations send recv (call [Dispatched MSG_BANDWIDTH_GET] w))
  | Message_log => Ok (OnLogTimer (call [Dispatched MSG_LOG_ONTIMER] w))
  | WorkerConnected now => OnSocketConnect now w
  | WorkerClosed i => OnSocketClose i w
  | WorkerReceived data now =>
      let '((data, size), _) := ProcessInput data in OnWorkerManagerPacket data size now w
  | WorkerNetwork i f => t ← deref i w; Ok (update i (f t) w)
  end.

Fixpoint run (evs : list worker_event) (w : Worker) : result Worker :=
  match evs with
  | [] => Ok w
  | ev :: evs => w ← step ev w; run evs w
  end.
End worker.

(** ** The values of the messages *)

Definition connect_value (pid now : Z) : json :=
  JObj [(str "command", JStr (str "connect")); (str "name", JStr (str "webrtc_proxy"));
        (str "pid", JNum pid); (str "ts", JNum now); (str "appId", JStr []); (str "cname", JStr []);
        (str "uid", JStr []); (str "minSdkVersion", JStr (str "2.3.1"));
        (str "maxSdkVersion", JStr (str "2.6.2"))].

Definition ping_value (now ingress egress userCount : Z) : json :=
  JObj [(str "command", JStr (str "ping")); (str "state", JStr (str "idle")); (str "ts", JNum now);
        (str "workload", JObj [(str "cpu", JNum 0); (str "ingress", JNum ingress);
                               (str "egress", JNum egress); (str "userCount", JNum userCount)])].

Definition response_value (appid cname uid sid : bytes) (seq requestid now udpport tcpport : Z) : json :=
  JObj [(str "command", JStr (str "response")); (str "appId", JStr appid); (str "cname", JStr cname);
        (str "uid", JStr uid); (str "sid", JStr sid); (str "seq", JNum seq); (str "ts", JNum now);
        (str "requestId", JNum requestid); (str "code", JNum 200); (str "reason", JStr (str "Success"));
        (str "serverResponse", JObj [(str "udpport", JNum udpport); (str "tcpport", JNum tcpport);
                                     (str "username", JStr (str "test"));
                                     (str "password", JStr (str "111111"))])].

Section values.
Context (overflow : double → Z).

Lemma connect_json_value pid now :
  connect_json overflow pid now = assign (item_of overflow (connect_value pid now)).
Proof. reflexivity. Qed.

Lemma ping_json_value now ingress egress userCount :
  ping_json overflow now ingress egress userCount =
    assign (item_of overflow (ping_value now ingress egress userCount)).
Proof. reflexivity. Qed.

Lemma response_json_value appid cname uid sid seq requestid now udpport tcpport :
  response_json overflow appid cname uid sid seq requestid now udpport tcpport =
    assign (item_of overflow (response_value (c_str appid) (c_str cname) (c_str uid) (c_str sid)
                                seq requestid now udpport tcpport)).
Proof. reflexivity. Qed.
End values.

(** ** Packets *)

(** The body of a message to the manager. *)
Definition comm_body (service_type uri : Z) (jcstr : bytes) : bytes :=
  packet_body service_type uri (str_enc jcstr).

Lemma c_string_bytes s : c_string s → bytes_ok s.
Proof. intros Hs. eapply Forall_impl; [|exact Hs]. unfold is_byte. cbn. lia. Qed.

Lemma comm_packet_frame jcstr :
  c_string jcstr → Z.of_nat (length jcstr) < 2 ^ 22 →
  comm_packet jcstr = Ok (frame (comm_body Elbs.UAP_SERVER_TYPE Elbs.kUapUri jcstr)).
Proof.
  intros Hs Hl. unfold comm_packet.
  set (c := packet_codec (declare_packet Elbs.kUapUri string_codec)).
  set (x := mkDeclared _ _).
  assert (valid c x) as Hx.
  { split; [split; vm_compute; split; congruence|]. split; [cbn; lia|]. by apply c_string_bytes. }
  assert (Packer.room (enc c x) 1) as Hr.
  { unfold Packer.room, Packer.kMaxPacketSize. cbn [enc c packet_spec]. rewrite !length_app.
    cbn [enc string_spec str_spec]. rewrite !Nat2Z.inj_add, length_str_enc.
    pose proof (var_size_bound (Z.of_nat (length jcstr))). cbn. lia. }
  destruct (pack_value_packed c x Hx Hr) as (p & E & Hpk & _).
  change (packet_codec Elbs.WorkerManagerComm) with c. rewrite E, bind_ok.
  destruct (Packer.packed_Data p _ Hpk) as (Hd & _).
  { unfold Packer.room, Packer.kMaxPacketSize in Hr. lia. }
  unfold Packer.Data in Hd. unfold Packer.Buffer, Packer.Length. by rewrite Hd.
Qed.

Lemma c_str_c_string s : c_string s → c_str s = s.
Proof.
  induction 1 as [|c s Hc _ IH]; [done|]. cbn. rewrite (proj2 (Z.eqb_neq _ _)) by lia. by rewrite IH.
Qed.

(** ** Requests *)

(** The first member of a name, upper and lower case alike. *)
Fixpoint member (n : string) (ms : list (bytes * json)) : option json :=
  match ms with
  | [] => None
  | (k, j) :: ms => if same k (str n) then Some j else member n ms
  end.
Definition string_of (n : string) (ms : list (bytes * json)) : bytes :=
  match member n ms with Some (JStr s) => s | _ => [] end.

Section reading.
Context (overflow : double → Z).

Lemma find_member n ms :
  match member n ms with
  | Some j => ∃ k, find_item (str n) (child (item_of overflow (JObj ms))) =
                     Some (set_name (Some k) (item_of overflow j))
  | None => find_item (str n) (child (item_of overflow (JObj ms))) = None
  end.
Proof.
  cbn [item_of child set_child]. induction ms as [|[k j] ms IH]; [done|].
  rewrite fmap_cons, find_cons. cbn [member fst snd].
  change (named (str n) (set_name (Some k) (item_of overflow j))) with (same k (str n)).
  destruct (same k (str n)); [by eexists|done].
Qed.

Lemma findNode_typed_member n ty ms : str n ≠ [] →
  findNode_typed (Some (str n)) ty (assign (item_of overflow (JObj ms))) =
    match find_item (str n) (child (item_of overflow (JObj ms))) with
    | Some node => if type node =? ty then Some node else None
    | None => None
    end.
Proof. intros Hn. unfold findNode_typed, assign. by rewrite findNode_find. Qed.

Lemma tryGetString_member n v ms : str n ≠ [] →
  tryGetStringValue (Some (str n)) v (assign (item_of overflow (JObj ms))) =
    match member n ms with Some (JStr s) => (true, s) | _ => (false, v) end.
Proof.
  intros Hn. unfold tryGetStringValue. rewrite findNode_typed_member by done.
  pose proof (find_member n ms) as Hf. destruct (member n ms) as [j|]; [|by rewrite Hf].
  destruct Hf as [k ->]. by destruct j as [|[]| | | |].
Qed.

Lemma tryGetInt_member n v ms : str n ≠ [] →
  tryGetIntValue (Some (str n)) v (assign (item_of overflow (JObj ms))) =
    match member n ms with
    | Some (JNum z) => (true, Some (to_int overflow (of_int z)))
    | _ => (false, v)
    end.
Proof.
  intros Hn. unfold tryGetIntValue. rewrite findNode_typed_member by done.
  pose proof (find_member n ms) as Hf. destruct (member n ms) as [j|]; [|by rewrite Hf].
  destruct Hf as [k ->]. by destruct j as [|[]| | | |].
Qed.

Lemma string_of_ok n ms : json_ok (JObj ms) → c_string (string_of n ms).
Proof.
  intros Hok. apply (foldr_Forall (λ m, c_string (fst m) ∧ json_ok (snd m))) in Hok.
  unfold string_of. induction Hok as [|[k j] ms [_ Hj] _ IH]; [constructor|]. cbn [member].
  destruct (same k (str n)); [|done]. destruct j; try constructor. exact Hj.
Qed.
End reading.

(** ** What a packet does *)

Section worker_proofs.
Context {T A : Type} `{AsyncTCPSocketBase T A}.
Context (pow10 : double → double) (overflow : double → Z).
Context (pid udpport tcpport : Z).
Context (pow10_0 : pow10 (Zero false) = of_int 1).
Implicit Types w : Worker (T:=T).

(** The packet of a text, and what the worker makes of it. *)
Definition text_packet (service_type uri : Z) (j : json) (fmt : bool) : bytes :=
  frame (comm_body service_type uri (json_text fmt 0 j)).

Definition received (json : JsonWrapper) (now : Z) w : result Worker :=
  let '(found, command) := tryGetStringValue (Some (str "command")) [] json in
  if found && bool_decide (command = str "request")
  then '(_, w) ← answer_request overflow udpport tcpport json now w; Ok w
  else Ok w.

Lemma comm_body_length service_type uri text :
  Z.of_nat (length text) ≤ frame_len (comm_body service_type uri text).
Proof.
  set (body := comm_body _ _ _). pose proof (frame_len_size body) as E.
  pose proof (var_size_bound (frame_len body)).
  assert (length body = 4 + length (str_enc text))%nat as Eb
    by (unfold body, comm_body, packet_body; rewrite !length_app, !length_le_bytes; lia).
  pose proof (length_str_enc text). pose proof (var_size_bound (Z.of_nat (length text))). lia.
Qed.

Lemma JsonWrapper_of_text fmt j : json_ok j →
  JsonWrapper_text pow10 overflow (Some (json_text fmt 0 j)) = Ok (assign (item_of overflow j)).
Proof using pow10_0.
  intros Hok. unfold JsonWrapper_text, parse.
  destruct (json_text_head fmt 0 j) as (c & t & E & _). rewrite E, <- E.
  by rewrite parse_text.
Qed.

Lemma receive_text service_type uri fmt j now w :
  0 ≤ service_type < 2 ^ 16 → 0 ≤ uri < 2 ^ 16 → json_ok j →
  Z.of_nat (length (text_packet service_type uri j fmt)) < 2 ^ 16 →
  step pow10 overflow pid udpport tcpport
    (WorkerReceived (text_packet service_type uri j fmt) now) w =
    received (assign (item_of overflow j)) now w.
Proof using pow10_0.
  intros Hs Hu Hok Hl. cbn [step]. unfold ProcessInput, PacketLength. cbv beta iota.
  rewrite u16_small by lia. unfold text_packet in *. rewrite length_frame in Hl |- *.
  set (text := json_text fmt 0 j) in *. pose proof (comm_body_length service_type uri text).
  set (body := comm_body _ _ _) in *.
  destruct (Unpacker.make_opened body false) as (u & Em & Hv & _); [lia|].
  unfold OnWorkerManagerPacket. rewrite Em, bind_ok. unfold body, comm_body, packet_body in Hv.
  rewrite (uint16_pop 0 _ _ _ Hs Hv : Unpacker.PopUint16 u = _), bind_ok.
  pose proof (Unpacker.advance_view_app 2 _ _ _ Hv eq_refl) as Hv2.
  rewrite (uint16_pop 0 _ _ _ Hu Hv2 : Unpacker.PopUint16 _ = _), bind_ok.
  pose proof (Unpacker.advance_view_app 2 _ _ _ Hv2 eq_refl) as Hv4.
  rewrite <- (app_nil_r (str_enc text)) in Hv4.
  destruct (Unpacker.PopString_view _ text [] ltac:(lia) Hv4) as [HP _].
  unfold Unpacker.popped in HP. rewrite HP, bind_ok.
  rewrite c_str_c_string by (by apply c_string_json).
  unfold text. by rewrite JsonWrapper_of_text, bind_ok.
Qed.

(** ** Sending *)

(** One message on a connected socket; nothing otherwise. *)
Definition sent (data : bytes) w : Worker (T:=T) :=
  match socket_ w with
  | Some p =>
      match sockets w !! p with
      | Some t => if decide (GetState t = STATE_CONNECTED) then update p (snd (Send data t)) w else w
      | None => w
      end
  | None => w
  end.

(** The socket pointer leads to a socket. *)
Definition pointer_ok w : Prop := ∀ p, socket_ w = Some p → is_Some (sockets w !! p).

Lemma sendMessage_sent data w : pointer_ok w → ∃ n, sendMessage data w = Ok (n, sent data w).
Proof.
  intros Hp. unfold sendMessage, sent. destruct (socket_ w) as [p|] eqn:E; [|by eexists].
  destruct (Hp p E) as [t Ht]. unfold deref. rewrite Ht, bind_ok.
  case_decide; [|by eexists]. destruct (Send data t) as [n t']. by exists n.
Qed.

(** The packet that carries a value. *)
Definition value_packet (j : json) : bytes :=
  text_packet Elbs.UAP_SERVER_TYPE Elbs.kUapUri j false.

Lemma send_json_sent j w : json_ok j → Z.of_nat (length (json_text false 0 j)) < 2 ^ 22 →
  pointer_ok w → ∃ n, send_json (assign (item_of overflow j)) w = Ok (n, sent (value_packet j) w).
Proof.
  intros Hok Hl Hp. unfold send_json, toString, doToString, assign. cbn [m_root].
  unfold cJSON_PrintUnformatted. rewrite (print_value_text overflow false j Hok), !bind_ok.
  rewrite comm_packet_frame, bind_ok by (by first [apply c_string_json | lia]).
  by apply sendMessage_sent.
Qed.

(** A request of the manager. *)
Record is_request (ms : list (bytes * json)) (seq requestid : Z) : Prop := {
  request_command : member "command" ms = Some (JStr (str "request"));
  request_seq : member "seq" ms = Some (JNum seq);
  request_id : member "requestId" ms = Some (JNum requestid);
  seq_int : INT_MIN ≤ seq ≤ INT_MAX;
  id_int : INT_MIN ≤ requestid ≤ INT_MAX;
}.

Definition answer_of (ms : list (bytes * json)) (seq requestid now : Z) : json :=
  response_value (string_of "appId" ms) (string_of "cname" ms) (string_of "uid" ms)
    (string_of "sid" ms) seq requestid now udpport tcpport.

Lemma answer_of_ok ms seq requestid now :
  json_ok (JObj ms) → INT_MIN ≤ seq ≤ INT_MAX → INT_MIN ≤ requestid ≤ INT_MAX →
  exact_int now → exact_int udpport → exact_int tcpport →
  json_ok (answer_of ms seq requestid now).
Proof.
  intros Hok Hs Hi Hn Hu Ht. unfold answer_of, response_value. cbn [json_ok foldr fst snd].
  pose proof (λ n, string_of_ok n ms Hok) as Hstr.
  assert (∀ z, INT_MIN ≤ z ≤ INT_MAX → exact_int z) as Hex
    by (unfold exact_int, INT_MIN, INT_MAX; lia).
  assert (∀ s, forallb (λ c, (0 <? c) && (c <? 256)) s = true → c_string s) as Hlit.
  { intros s Hs'. apply Forall_forall. intros c Hc. rewrite forallb_forall in Hs'.
    apply Hs' in Hc. lia. }
  repeat split; (try done); first [by apply Hstr | by apply Hex | by apply Hlit].
Qed.

Lemma received_answer ms seq requestid now w :
  json_ok (JObj ms) → is_request ms seq requestid →
  received (assign (item_of overflow (JObj ms))) now w =
    '(_, w) ← send_json (assign (item_of overflow (answer_of ms seq requestid now))) w; Ok w.
Proof.
  intros Hok [Hc Hs Hi Hsr Hir]. unfold received. rewrite tryGetString_member, Hc by done.
  rewrite bool_decide_true by done. cbn [andb]. unfold answer_request.
  rewrite !tryGetInt_member, Hs, Hi by done. cbn [snd initialized]. rewrite !bind_ok.
  rewrite !to_int_int, response_json_value by done.
  assert (∀ n, str n ≠ [] → snd (tryGetStringValue (Some (str n)) []
            (assign (item_of overflow (JObj ms)))) = string_of n ms) as Hget.
  { intros n Hn. rewrite tryGetString_member by done. unfold string_of.
    by destruct (member n ms) as [[]|]. }
  rewrite !Hget by done. rewrite !c_str_c_string by (by apply string_of_ok). done.
Qed.

Lemma received_other ms now w :
  (∀ s, member "command" ms = Some (JStr s) → s ≠ str "request") →
  received (assign (item_of overflow (JObj ms))) now w = Ok w.
Proof.
  intros Hc. unfold received. rewrite tryGetString_member by done.
  destruct (member "command" ms) as [[]|]; try done. rewrite bool_decide_false; [done|].
  by apply Hc.
Qed.

(** ** Lengths *)

Lemma escape_string_long s : (length s ≤ length (escape_string s))%nat.
Proof.
  induction s as [|c s IH]; [done|]. rewrite escape_string_cons, length_app. cbn [length].
  assert (1 ≤ length (char_text c))%nat; [|lia].
  unfold char_text, escape. case_match; cbn; lia.
Qed.

Lemma member_text_length n ms j fmt depth : member n ms = Some j →
  (length (json_text fmt depth j) ≤
   length (object_body fmt depth
             ((λ m, (string_text (fst m), json_text fmt depth (snd m))) <$> ms)))%nat.
Proof.
  induction ms as [|[k i] ms IH]; [done|]. cbn [member]. rewrite fmap_cons, object_body_cons.
  rewrite !length_app. cbn [fst snd]. case_match; intros E; [simplify_eq; lia|].
  specialize (IH E). lia.
Qed.

Lemma string_of_length n ms fmt :
  (length (string_of n ms) ≤ length (json_text fmt 0 (JObj ms)))%nat.
Proof.
  unfold string_of. destruct (member n ms) as [[| | |s| |]|] eqn:E; try (cbn; lia).
  apply (member_text_length n ms _ fmt 1) in E. cbn [json_text] in E |- *.
  rewrite !length_app. unfold string_text in E at 1. rewrite !length_app in E.
  pose proof (escape_string_long s). lia.
Qed.

Lemma answer_length ms seq requestid now fmt st uri :
  json_ok (JObj ms) → INT_MIN ≤ seq ≤ INT_MAX → INT_MIN ≤ requestid ≤ INT_MAX →
  exact_int now → exact_int udpport → exact_int tcpport →
  Z.of_nat (length (text_packet st uri (JObj ms) fmt)) < 2 ^ 16 →
  Z.of_nat (length (json_text false 0 (answer_of ms seq requestid now))) < 2 ^ 22.
Proof.
  intros Hok Hs Hi Hn Hu Ht Hl.
  pose proof (json_text_length _ (answer_of_ok ms seq requestid now Hok Hs Hi Hn Hu Ht) 0) as Hb.
  unfold text_packet in Hl. rewrite length_frame in Hl.
  pose proof (comm_body_length st uri (json_text fmt 0 (JObj ms))) as Hc.
  pose proof (string_of_length "appId" ms fmt). pose proof (string_of_length "cname" ms fmt).
  pose proof (string_of_length "uid" ms fmt). pose proof (string_of_length "sid" ms fmt).
  unfold answer_of in *. cbn [response_value json_size foldr fst snd] in Hb.
  vm_compute (length (str _)) in Hb. lia.
Qed.
End worker_proofs.

(** ** Safety *)

Section safety.
Context {T A : Type} `{AsyncTCPSocketBase T A}.
Context (pow10 : double → double) (overflow : double → Z).
Context (pid udpport tcpport : Z).
Context (pow10_0 : pow10 (Zero false) = of_int 1).
Context (pid_ok : exact_int pid) (udpport_ok : exact_int udpport) (tcpport_ok : exact_int tcpport).
Implicit Types w : Worker (T:=T).
Abbreviation step := (step pow10 overflow pid udpport tcpport).
Abbreviation run := (run pow10 overflow pid udpport tcpport).

(** What the manager sends: whole packets of a JSON object, which is a request with its
    two integers or no request. *)
Definition manager_packet (data : bytes) : Prop :=
  ∃ st uri fmt ms, data = text_packet st uri (JObj ms) fmt ∧
    0 ≤ st < 2 ^ 16 ∧ 0 ≤ uri < 2 ^ 16 ∧ json_ok (JObj ms) ∧ Z.of_nat (length data) < 2 ^ 16 ∧
    ((∃ seq requestid, is_request ms seq requestid) ∨
     (∀ s, member "command" ms = Some (JStr s) → s ≠ str "request")).

(** The first ping comes after the counters were read. *)
Definition enabled (ev : worker_event (T:=T)) w : Prop :=
  match ev with
  | Message_worker _ now => exact_int now ∧ is_Some (counters w)
  | Message_bandwidth allocations send recv =>
      exact_int (Z.quot allocations 2) ∧ exact_int send ∧ exact_int recv
  | Message_log => True
  | WorkerConnected now => exact_int now
  | WorkerClosed i | WorkerNetwork i _ => (i < length (sockets w))%nat
  | WorkerReceived data now => exact_int now ∧ manager_packet data
  end.

Fixpoint enabled_run (evs : list (worker_event (T:=T))) w : Prop :=
  match evs with
  | [] => True
  | ev :: evs => enabled ev w ∧ ∀ w', step ev w = Ok w' → enabled_run evs w'
  end.

Definition counters_ok w : Prop :=
  match counters w with Some (u, i, e) => exact_int u ∧ exact_int i ∧ exact_int e | None => True end.
Definition timers_ok w : Prop :=
  pending MSG_WORKER_ONTIMER (calls w) = 1%nat ∧ pending MSG_BANDWIDTH_GET (calls w) = 1%nat ∧
  pending MSG_LOG_ONTIMER (calls w) = 1%nat.
Definition inv w : Prop := pointer_ok w ∧ counters_ok w ∧ timers_ok w.

Lemma worker_rearm_ok id ms w :
  id ∈ [MSG_WORKER_ONTIMER; MSG_BANDWIDTH_GET; MSG_LOG_ONTIMER] → timers_ok w →
  timers_ok (call [Clear id; PostDelayed ms id] (call [Dispatched id] w)).
Proof.
  unfold timers_ok, pending. cbn [calls call]. rewrite !foldl_app.
  intros Hin (-> & -> & ->). rewrite !elem_of_cons in Hin. by destruct Hin as [->|[->|[->|[]%elem_of_nil]]].
Qed.

(** Changing a socket changes nothing else. *)
Lemma update_ok p t w : pointer_ok w → pointer_ok (update p t w).
Proof.
  intros Hp q Hq. cbn in *. apply Hp in Hq as [s Hs]. destruct (decide (p = q)) as [<-|Hne].
  - rewrite list_lookup_insert_eq; [by eexists|by eapply lookup_lt_Some].
  - rewrite list_lookup_insert_ne by done. by eexists.
Qed.

Definition same_but_sockets w w' : Prop :=
  calls w' = calls w ∧ counters w' = counters w ∧ socket_ w' = socket_ w.

Lemma sent_ok data w : pointer_ok w → pointer_ok (sent data w) ∧ same_but_sockets w (sent data w).
Proof.
  intros Hp. unfold sent. repeat case_match; split; try done. by apply update_ok.
Qed.

Lemma send_value j w : json_ok j → Z.of_nat (length (json_text false 0 j)) < 2 ^ 22 →
  pointer_ok w → ∃ n, send_json (assign (item_of overflow j)) w = Ok (n, sent (value_packet j) w).
Proof. apply send_json_sent. Qed.

Lemma literal_ok s : forallb (λ c, (0 <? c) && (c <? 256)) s = true → c_string s.
Proof.
  intros Hs. apply Forall_forall. intros c Hc. rewrite forallb_forall in Hs. apply Hs in Hc. lia.
Qed.

Lemma connect_value_ok now : exact_int now → json_ok (connect_value pid now).
Proof using pid_ok.
  intros Hn. unfold connect_value. cbn [json_ok foldr fst snd].
  repeat split; first [done | by apply literal_ok].
Qed.
Lemma ping_value_ok now i e u :
  exact_int now → exact_int i → exact_int e → exact_int u → json_ok (ping_value now i e u).
Proof.
  intros. unfold ping_value. cbn [json_ok foldr fst snd].
  repeat split; first [done | by apply literal_ok].
Qed.

Lemma sendConnectMsg_sent now w : exact_int now → pointer_ok w →
  ∃ n, sendConnectMsg overflow pid now w = Ok (n, sent (value_packet (connect_value pid now)) w).
Proof using pid_ok.
  intros Hn Hp. unfold sendConnectMsg. rewrite connect_json_value.
  pose proof (json_text_length _ (connect_value_ok now Hn) 0) as Hl.
  vm_compute (json_size _) in Hl. apply send_value; [by apply connect_value_ok|lia|done].
Qed.

Lemma sendPingMsg_sent now u i e w : exact_int now → pointer_ok w → counters_ok w →
  counters w = Some (u, i, e) →
  ∃ n, sendPingMsg overflow now w = Ok (n, sent (value_packet (ping_value now i e u)) w).
Proof.
  intros Hn Hp Hc Ew. unfold counters_ok in Hc. rewrite Ew in Hc. destruct Hc as (Hu & Hi & He).
  unfold sendPingMsg. rewrite Ew, ping_json_value.
  pose proof (json_text_length _ (ping_value_ok now i e u Hn Hi He Hu) 0) as Hl.
  vm_compute (json_size _) in Hl. apply send_value; [by apply ping_value_ok|lia|done].
Qed.

Lemma create_ok answer w :
  pointer_ok w → pointer_ok (create answer w) ∧
  calls (create answer w) = calls w ∧ counters (create answer w) = counters w.
Proof.
  intros Hp. unfold create. destruct (Create answer) as [t|]; [|done].
  split; [|done]. intros p. cbn. intros [= <-]. rewrite lookup_app_r, Nat.sub_diag by lia. by eexists.
Qed.

Lemma sent_inv data w : inv w → inv (sent data w).
Proof.
  intros (Hp & Hc & Ht). destruct (sent_ok data w Hp) as (Hp' & Ec & Ek & _).
  unfold inv, counters_ok, timers_ok. by rewrite Ec, Ek.
Qed.

(** Before the timer is set again. *)
Definition in_timer id w w' : Prop :=
  pointer_ok w' ∧ counters_ok w' ∧ calls w' = calls w ++ [Dispatched id].

Lemma timer_inv id ms w w' :
  id ∈ [MSG_WORKER_ONTIMER; MSG_BANDWIDTH_GET; MSG_LOG_ONTIMER] → timers_ok w → in_timer id w w' →
  inv (call [Clear id; PostDelayed ms id] w').
Proof.
  intros Hid Ht (Hp & Hc & E). split; [done|]. split; [done|].
  pose proof (worker_rearm_ok id ms w Hid Ht) as Hr. unfold timers_ok in *. cbn [calls call] in *. by rewrite E.
Qed.

Lemma sent_in_timer id data w w' : in_timer id w w' → in_timer id w (sent data w').
Proof.
  intros (Hp & Hc & E). destruct (sent_ok data w' Hp) as (Hp' & Ec & Ek & _).
  unfold in_timer, counters_ok. by rewrite Ec, Ek.
Qed.

Lemma worker_timer_inv answer now w : inv w → exact_int now → is_Some (counters w) →
  ∃ w', step (Message_worker answer now) w = Ok w' ∧ inv w'.
Proof using pid_ok pow10_0.
  intros (Hp & Hc & Ht) Hn [[[u i] e] Ek]. cbn [Worker.step]. unfold OnWorkerTimer.
  set (w0 := call [Dispatched MSG_WORKER_ONTIMER] w).
  assert (in_timer MSG_WORKER_ONTIMER w w0) as H0 by done.
  enough (∃ w1, look_after overflow answer now w0 = Ok w1 ∧ in_timer MSG_WORKER_ONTIMER w w1)
    as (w1 & E & H1).
  { exists (call [Clear MSG_WORKER_ONTIMER; PostDelayed 3000 MSG_WORKER_ONTIMER] w1).
    split; [by rewrite E|]. eapply timer_inv; [|exact Ht|exact H1]. rewrite !elem_of_cons. tauto. }
  assert (∀ w2, in_timer MSG_WORKER_ONTIMER w w2 → counters w2 = counters w →
            ∃ w1, ('(_, w) ← sendPingMsg overflow now w2; Ok w) = Ok w1 ∧
                  in_timer MSG_WORKER_ONTIMER w w1) as Hping.
  { intros w2 H2 E2. destruct (sendPingMsg_sent now u i e w2) as [n En]; [done|apply H2|apply H2|by rewrite E2|].
    rewrite En, bind_ok. eexists. split; [done|]. by apply sent_in_timer. }
  assert (∃ w1, Ok (create answer w0) = Ok w1 ∧ in_timer MSG_WORKER_ONTIMER w w1) as Hcreate.
  { eexists. split; [done|]. destruct (create_ok answer w0 Hp) as (Hp1 & Ec & Ek1).
    split; [done|]. unfold counters_ok. by rewrite Ek1, Ec. }
  unfold look_after. destruct (socket_ w0) as [p|] eqn:Ep; [|done].
  destruct (Hp p Ep) as [t Htp]. unfold deref. change (sockets w0) with (sockets w). rewrite Htp, bind_ok.
  assert (∃ w1, (let '(connected, t) := ReConnect t in
                 let w := update p t w0 in
                 if connected : bool then '(_, w) ← sendPingMsg overflow now w; Ok w else Ok w) = Ok w1 ∧
                in_timer MSG_WORKER_ONTIMER w w1) as Hre.
  { destruct (ReConnect t) as [[] t'].
    - apply Hping; [|done]. split; [by apply update_ok|done].
    - eexists. split; [done|]. split; [by apply update_ok|done]. }
  destruct (GetState t); try done. by apply Hping.
Qed.

Lemma received_inv data now w : inv w → exact_int now → manager_packet data →
  ∃ w', step (WorkerReceived data now) w = Ok w' ∧ inv w'.
Proof using pow10_0 udpport_ok tcpport_ok.
  intros Hi Hn (st & uri & fmt & ms & -> & Hst & Hu & Hok & Hl & Hms).
  rewrite receive_text by done. destruct Hms as [(seq & rid & Hr)|Hother].
  - rewrite (received_answer _ _ _ _ seq rid) by done. pose proof Hr as [_ _ _ Hs Hid].
    destruct (send_value (answer_of udpport tcpport ms seq rid now) w) as [n En];
      [by apply answer_of_ok|by eapply answer_length|apply Hi|].
    rewrite En, bind_ok. eexists. split; [done|]. by apply sent_inv.
  - rewrite received_other by done. by exists w.
Qed.

Lemma worker_step_inv ev w : inv w → enabled ev w → ∃ w', step ev w = Ok w' ∧ inv w'.
Proof using All.
  intros Hi Hen. destruct ev as [answer now|a s r| |now|p|data now|p f].
  - destruct Hen. by apply worker_timer_inv.
  - eexists. split; [done|]. destruct Hi as (Hp & Hc & Ht). unfold OnBandwidth.
    apply timer_inv with (w := w); [rewrite !elem_of_cons; tauto|done|].
    split; [done|]. split; [|done]. by destruct Hen.
  - eexists. split; [done|]. destruct Hi as (Hp & Hc & Ht). unfold OnLogTimer.
    apply timer_inv with (w := w); [rewrite !elem_of_cons; tauto|done|done].
  - destruct (sendConnectMsg_sent now w Hen) as [n En]; [apply Hi|].
    eexists. split; [cbn [Worker.step]; unfold OnSocketConnect; by rewrite En|]. by apply sent_inv.
  - cbn [Worker.step]. unfold OnSocketClose, deref.
    destruct (lookup_lt_is_Some_2 _ _ Hen) as [t Htp]. rewrite Htp, bind_ok.
    eexists. split; [done|]. destruct Hi as (Hp & Hc & Ht). split; [by apply update_ok|done].
  - destruct Hen. by apply received_inv.
  - cbn [Worker.step]. unfold deref.
    destruct (lookup_lt_is_Some_2 _ _ Hen) as [t Htp]. rewrite Htp, bind_ok.
    eexists. split; [done|]. destruct Hi as (Hp & Hc & Ht). split; [by apply update_ok|done].
Qed.

Lemma worker_run_inv evs w : inv w → enabled_run evs w → ∃ w', run evs w = Ok w' ∧ inv w'.
Proof using All.
  revert w. induction evs as [|ev evs IH]; intros w Hi Hen; [by exists w|].
  destruct Hen as [Hev Hen]. destruct (worker_step_inv ev w Hi Hev) as (w1 & E & Hi1).
  cbn [Worker.run]. rewrite E, bind_ok. apply IH; [done|by apply Hen].
Qed.

Lemma worker_start_inv answer : inv (AddWorkerManagerSocket answer make).
Proof.
  unfold AddWorkerManagerSocket, inv. destruct answer as [t|].
  - split; [|by repeat split]. intros p. cbn. intros [= <-]. by eexists.
  - by repeat split.
Qed.

(** ** Properties *)


(** C11: A request that arrives as one packet is answered with one message on the
    connected socket: a [WorkerManagerComm] packet whose text is read back as the
    response, with the four names and the two integers of the request and the two ports
    of the server. *)
Theorem request_answered p t st uri fmt ms seq requestid now w :
  socket_ w = Some p → sockets w !! p = Some t → GetState t = STATE_CONNECTED →
  0 ≤ st < 2 ^ 16 → 0 ≤ uri < 2 ^ 16 → json_ok (JObj ms) →
  Z.of_nat (length (text_packet st uri (JObj ms) fmt)) < 2 ^ 16 →
  is_request ms seq requestid → exact_int now →
  let response := response_value (string_of "appId" ms) (string_of "cname" ms)
                    (string_of "uid" ms) (string_of "sid" ms) seq requestid now udpport tcpport in
  let text := json_text false 0 response in
  let packet := frame (comm_body Elbs.UAP_SERVER_TYPE Elbs.kUapUri text) in
  step (WorkerReceived (text_packet st uri (JObj ms) fmt) now) w =
    Ok (update p (snd (Send packet t)) w) ∧
  cJSON_Parse pow10 overflow text = Ok (Some (item_of overflow response)).
Proof using pow10_0 udpport_ok tcpport_ok.
  intros Ep Ht Hst Hs Hu Hok Hl Hr Hn. cbv zeta. pose proof Hr as [_ _ _ Hsr Hir].
  assert (pointer_ok w) as Hp by (intros q Hq; rewrite Ep in Hq; simplify_eq; by rewrite Ht).
  pose proof (answer_of_ok udpport tcpport ms seq requestid now Hok Hsr Hir Hn udpport_ok tcpport_ok)
    as Ha.
  split; [|by apply parse_text].
  rewrite receive_text, (received_answer _ _ _ _ seq requestid) by done.
  destruct (send_value (answer_of udpport tcpport ms seq requestid now) w) as [n En];
    [done|by eapply answer_length|done|].
  rewrite En, bind_ok. unfold sent. rewrite Ep, Ht. by rewrite decide_True by done.
Qed.

(** On every connection the worker announces itself: one packet whose text is read
    back as its name, its process id and the versions it supports. *)
Theorem connect_announced p t now w :
  socket_ w = Some p → sockets w !! p = Some t → GetState t = STATE_CONNECTED → exact_int now →
  let text := json_text false 0 (connect_value pid now) in
  step (WorkerConnected now) w =
    Ok (update p (snd (Send (frame (comm_body Elbs.UAP_SERVER_TYPE Elbs.kUapUri text)) t)) w) ∧
  cJSON_Parse pow10 overflow text = Ok (Some (item_of overflow (connect_value pid now))).
Proof using pow10_0 pid_ok.
  intros Ep Ht Hst Hn. cbv zeta.
  assert (pointer_ok w) as Hp by (intros q Hq; rewrite Ep in Hq; simplify_eq; by rewrite Ht).
  split; [|apply parse_text; [done|by apply connect_value_ok]].
  destruct (sendConnectMsg_sent now w Hn Hp) as [n En]. cbn [Worker.step]. unfold OnSocketConnect.
  rewrite En, bind_ok. unfold sent. rewrite Ep, Ht. by rewrite decide_True by done.
Qed.

(** A request without its sequence number or its request id makes the worker answer
    with a variable that was never set. *)
Theorem incomplete_request_faults st uri fmt ms now w :
  0 ≤ st < 2 ^ 16 → 0 ≤ uri < 2 ^ 16 → json_ok (JObj ms) →
  Z.of_nat (length (text_packet st uri (JObj ms) fmt)) < 2 ^ 16 →
  member "command" ms = Some (JStr (str "request")) →
  (∀ z, member "seq" ms ≠ Some (JNum z)) ∨ (∀ z, member "requestId" ms ≠ Some (JNum z)) →
  step (WorkerReceived (text_packet st uri (JObj ms) fmt) now) w = Err UninitRead.
Proof using pow10_0.
  intros Hs Hu Hok Hl Hc Hm. rewrite receive_text by done. unfold received.
  rewrite tryGetString_member, Hc by done. rewrite bool_decide_true by done. cbn [andb].
  unfold answer_request. rewrite !tryGetInt_member by done.
  destruct Hm as [Hm|Hm].
  - specialize (Hm : ∀ z, member "seq" ms ≠ Some (JNum z)).
    destruct (member "seq" ms) as [[]|]; try done. by destruct (Hm z).
  - destruct (member "seq" ms) as [[]|]; try done. cbn [snd initialized]. rewrite bind_ok.
    destruct (member "requestId" ms) as [[]|]; try done. by destruct (Hm z0).
Qed.
End safety.

(** ** Witnesses *)

Definition ones (_ : double) : double := of_int 1.
Definition no_overflow (_ : double) : Z := INT_MIN.

Definition demo_request : list (bytes * json) :=
  [(str "command", JStr (str "request")); (str "appId", JStr (str "a")); (str "seq", JNum 5);
   (str "requestId", JNum 6)].
Definition demo_data : bytes := text_packet 1000 1000 (JObj demo_request) false.
Definition demo_worker : Worker (T:=rtc_socket) :=
  AddWorkerManagerSocket (Some (idle_socket 1000)) make.

Lemma demo_request_ok : json_ok (JObj demo_request).
Proof.
  cbn [json_ok demo_request foldr fst snd].
  repeat split; first [done | by apply literal_ok].
Qed.

Lemma demo_is_request : is_request demo_request 5 6.
Proof. split; first [reflexivity | unfold INT_MIN, INT_MAX; lia]. Qed.

Lemma demo_manager_packet : manager_packet demo_data.
Proof.
  exists 1000, 1000, false, demo_request. split; [done|]. split; [lia|]. split; [lia|].
  split; [exact demo_request_ok|]. split; [vm_compute; reflexivity|].
  left. exists 5, 6. exact demo_is_request.
Qed.

Definition demo_events : list (worker_event (T:=rtc_socket)) :=
  [WorkerConnected 1700000000000; Message_bandwidth 4 10 20; WorkerReceived demo_data 1700000000500;
   Message_worker None 1700000003000; Message_log; WorkerClosed 0;
   Message_worker (Some (idle_socket 10)) 1700000006000].

Lemma worker_demo_enabled :
  enabled_run (A:=rtc_address) ones no_overflow 77 3478 3479 demo_events demo_worker.
Proof.
  do 7 (split; [cbn; first [exact I|lia|done|split; [done|by eexists]|by repeat split
                           |split; [done|exact demo_manager_packet]]|
        intros ? E; vm_compute in E; injection E as <-]).
  exact I.
Qed.


Lemma request_answered_witness :
  ∃ packet,
    step (A:=rtc_address) ones no_overflow 77 3478 3479 (WorkerReceived demo_data 1700000000500)
      demo_worker = Ok (update 0 (snd (Send packet (idle_socket 1000))) demo_worker).
Proof.
  eexists.
  apply (request_answered (A:=rtc_address) ones no_overflow 77 3478 3479 eq_refl eq_refl eq_refl
    0 (idle_socket 1000) 1000 1000 false demo_request 5 6 1700000000500 demo_worker);
    [reflexivity|reflexivity|reflexivity|lia|lia|exact demo_request_ok|vm_compute; reflexivity
    |exact demo_is_request|reflexivity].
Defined.

Lemma connect_announced_witness :
  ∃ packet,
    step (A:=rtc_address) ones no_overflow 77 3478 3479 (WorkerConnected 1700000000000)
      demo_worker = Ok (update 0 (snd (Send packet (idle_socket 1000))) demo_worker).
Proof.
  eexists.
  apply (connect_announced (A:=rtc_address) ones no_overflow 77 3478 3479 eq_refl eq_refl
    0 (idle_socket 1000) 1700000000000 demo_worker); reflexivity.
Defined.

Definition demo_incomplete : list (bytes * json) := [(str "command", JStr (str "request"))].

Lemma incomplete_request_faults_witness :
  step (A:=rtc_address) ones no_overflow 77 3478 3479
    (WorkerReceived (text_packet 1000 1000 (JObj demo_incomplete) false) 0) demo_worker =
    Err UninitRead.
Proof.
  apply (incomplete_request_faults (A:=rtc_address) ones no_overflow 77 3478 3479 eq_refl
    1000 1000 false demo_incomplete 0 demo_worker);
    [lia|lia| |vm_compute; reflexivity|reflexivity|left; done].
  cbn [json_ok demo_incomplete foldr fst snd]. repeat split; by apply literal_ok.
Defined.
