(* ===== verification/MemoryBuffer.v ===== *)
(** * MemoryBuffer: the class TMemoryBuffer of thrift/transport/TBufferTransports.h

    A growing block of memory that is written at [wBase_] and read from [rBase_].
    The fast paths of the base class [TBufferBase] and the slow paths of
    TBufferTransports.cpp are modelled as they are; pointers into the block are
    offsets from [buffer_], and a byte that was never written is [None].

    [Transport] is what the protocol calls, [TransportOk] what it relies on: the
    protocol's theorems are proved against it, and [TMemoryBuffer] implements it. *)

From S2P Require Import Prelude Bytes MemBuf Outcome.

(** ** The interface *)

Class Transport (T : Type) := {
  write : bytes → T → outcome T;
  readAll : Z → T → outcome (bytes * T);
  borrow : Z → T → outcome (option bytes * T);
  consume : Z → T → outcome T;
}.

(** [represents t l r]: [l] is what is left to read and [r] bytes can be written.
    [readAll] gives all the bytes asked for or none. *)
Class TransportOk (T : Type) `{Transport T} := {
  represents : T → bytes → Z → Prop;
  represents_bytes : ∀ t l r, represents t l r → bytes_ok l;
  write_ok : ∀ t l r d, represents t l r → bytes_ok d → Z.of_nat (length d) ≤ r →
    ∃ t', write d t = Done t' ∧ represents t' (l ++ d) (r - Z.of_nat (length d));
  readAll_ok : ∀ t d l r, represents t (d ++ l) r → 0 < Z.of_nat (length d) < 2 ^ 32 →
    ∃ t', readAll (Z.of_nat (length d)) t = Done (d, t') ∧ represents t' l r;
  readAll_short : ∀ t l r n, represents t l r → Z.of_nat (length l) < n < 2 ^ 32 →
    ∃ t' l', readAll n t = Done ([], t') ∧ represents t' l' r ∧ (length l' ≤ length l)%nat;
  borrow_ok : ∀ t l r n, represents t l r → 0 ≤ n < 2 ^ 32 →
    ∃ b t', borrow n t = Done (b, t') ∧ represents t' l r ∧
    ∀ d, b = Some d → n ≤ Z.of_nat (length d) ∧ d `prefix_of` l ∧
      ∀ k, 0 ≤ k ≤ Z.of_nat (length d) →
      ∃ t'', consume k t' = Done t'' ∧ represents t'' (drop (Z.to_nat k) l) r;
}.

(** ** The object *)

Record TMemoryBuffer := mkTMemoryBuffer {
  buffer_ : list cell;
  bufferSize_ : Z;         (* uint32_t *)
  rBase_ : Z;
  rBound_ : Z;
  wBase_ : Z;
  wBound_ : Z;
  owner_ : bool;
}.

Definition set_read (base bound : Z) (b : TMemoryBuffer) : TMemoryBuffer :=
  mkTMemoryBuffer (buffer_ b) (bufferSize_ b) base bound (wBase_ b) (wBound_ b) (owner_ b).

(** [memcpy] to [wBase_], which then moves behind the copied bytes. *)
Definition put (d : bytes) (b : TMemoryBuffer) : result TMemoryBuffer :=
  cells ← write_at (Z.to_nat (wBase_ b)) (Some <$> d) (buffer_ b);
  Ok (mkTMemoryBuffer cells (bufferSize_ b) (rBase_ b) (rBound_ b)
        (wBase_ b + Z.of_nat (length d)) (wBound_ b) (owner_ b)).

(** The bytes from an offset on. *)
Definition fetch (pos n : Z) (b : TMemoryBuffer) : result bytes :=
  cells ← read_at (Z.to_nat pos) (Z.to_nat n) (buffer_ b);
  match mapM id cells with Some d => Ok d | None => Err UninitRead end.

Definition available_read (b : TMemoryBuffer) : Z := u32 (wBase_ b - rBase_ b).
Definition available_write (b : TMemoryBuffer) : Z := u32 (wBound_ b - wBase_ b).

(** ** Writing *)

(** [while (len > avail)]: the size doubles, in 32 bits. *)
Fixpoint double_until (fuel : nat) (b : TMemoryBuffer) (len avail new_size : Z) : outcome Z :=
  if len <=? avail then Done new_size else
  match fuel with
  | O => OutOfFuel
  | S fuel =>
      let new_size := if 0 <? new_size then u32 (new_size * 2) else 1 in
      double_until fuel b len (u32 (available_write b + u32 (new_size - bufferSize_ b))) new_size
  end.

(** The sizes are periodic from the 34th on, so that 66 turns that did not end the
    loop mean that it does not end. *)
Definition kTurns : nat := 66.

(** [realloc(buffer_, 0)] frees the buffer and returns null in glibc: the following
    [assert(0)] fails. *)
Definition realloc (b : TMemoryBuffer) (new_size : Z) : outcome TMemoryBuffer :=
  if new_size =? 0 then Fault AssertFailed else
  let n := Z.to_nat new_size in
  Done (mkTMemoryBuffer (take n (buffer_ b) ++ replicate (n - length (buffer_ b)) None)
          new_size (rBase_ b) (rBound_ b) (wBase_ b) new_size (owner_ b)).

Definition ensureCanWrite (len : Z) (b : TMemoryBuffer) : outcome TMemoryBuffer :=
  let avail := available_write b in
  if len <=? avail then Done b else
  _ ← of_result (assert_ (owner_ b));
  new_size ← double_until kTurns b len avail (bufferSize_ b);
  realloc b new_size.

Definition writeSlow (d : bytes) (b : TMemoryBuffer) : outcome TMemoryBuffer :=
  b ← ensureCanWrite (Z.of_nat (length d)) b;
  of_result (put d b).

(** [TBufferBase::write]. *)
Definition write_buffer (d : bytes) (b : TMemoryBuffer) : outcome TMemoryBuffer :=
  if wBase_ b + Z.of_nat (length d) <=? wBound_ b then of_result (put d b)
  else writeSlow d b.

Definition wroteBytes (len : Z) (b : TMemoryBuffer) : result TMemoryBuffer :=
  _ ← assert_ (len <=? available_write b);
  Ok (mkTMemoryBuffer (buffer_ b) (bufferSize_ b) (rBase_ b) (rBound_ b)
        (wBase_ b + len) (wBound_ b) (owner_ b)).

(** ** Reading *)

(** Start and number of the bytes given, and the buffer behind them. *)
Definition computeRead (len : Z) (b : TMemoryBuffer) : Z * Z * TMemoryBuffer :=
  let give := Z.min len (available_read b) in
  (rBase_ b, give, set_read (rBase_ b + give) (wBase_ b) b).

Definition readSlow (len : Z) (b : TMemoryBuffer) : outcome (bytes * TMemoryBuffer) :=
  let '(start, give, b) := computeRead len b in
  d ← of_result (fetch start give b);
  Done (d, b).

(** [TBufferBase::read]. *)
Definition read (len : Z) (b : TMemoryBuffer) : outcome (bytes * TMemoryBuffer) :=
  if rBase_ b + len <=? rBound_ b then
    d ← of_result (fetch (rBase_ b) len b);
    Done (d, set_read (rBase_ b + len) (rBound_ b) b)
  else readSlow len b.

(** [readAll] of TTransport.h: [read] again and again until [len] bytes are there; none
    when it gives nothing. *)
Fixpoint read_until (fuel : nat) (len : Z) (have : bytes) (b : TMemoryBuffer)
    : outcome (bytes * TMemoryBuffer) :=
  if len <=? Z.of_nat (length have) then Done (have, b) else
  match fuel with
  | O => OutOfFuel
  | S fuel =>
      '(d, b) ← read (len - Z.of_nat (length have)) b;
      match d with
      | [] => Done ([], b)
      | _ :: _ => read_until fuel len (have ++ d) b
      end
  end.

(** [TBufferBase::readAll]; every turn of the loop takes a byte of what is there, but
    the last. *)
Definition readAll_buffer (len : Z) (b : TMemoryBuffer) : outcome (bytes * TMemoryBuffer) :=
  if rBase_ b + len <=? rBound_ b then
    d ← of_result (fetch (rBase_ b) len b);
    Done (d, set_read (rBase_ b + len) (rBound_ b) b)
  else read_until (S (Z.to_nat (available_read b))) len [] b.

(** [TBufferBase::borrow] with [borrowSlow]. *)
Definition borrow_buffer (len : Z) (b : TMemoryBuffer) : outcome (option bytes * TMemoryBuffer) :=
  if len <=? rBound_ b - rBase_ b then
    d ← of_result (fetch (rBase_ b) (rBound_ b - rBase_ b) b);
    Done (Some d, b)
  else
    let b := set_read (rBase_ b) (wBase_ b) b in
    if len <=? available_read b then
      d ← of_result (fetch (rBase_ b) (available_read b) b);
      Done (Some d, b)
    else Done (None, b).

Definition consume_buffer (len : Z) (b : TMemoryBuffer) : outcome TMemoryBuffer :=
  _ ← of_result (assert_ (len <=? rBound_ b - rBase_ b));
  Done (set_read (rBase_ b + len) (rBound_ b) b).

(** [readAppendToString] and [readAsString]. *)
Definition readAppendToString (str : bytes) (len : Z) (b : TMemoryBuffer)
    : outcome (Z * bytes * TMemoryBuffer) :=
  let '(start, give, b) := computeRead len b in
  d ← of_result (fetch start give b);
  Done (give, str ++ d, b).
Definition readAsString (len : Z) (b : TMemoryBuffer) : outcome (bytes * TMemoryBuffer) :=
  '(_, str, b) ← readAppendToString [] len b;
  Done (str, b).

(** [getBuffer], read through the pointer it gives; [getBufferAsString],
    [appendBufferToString]. *)
Definition getBuffer (b : TMemoryBuffer) : result bytes :=
  fetch (rBase_ b) (u32 (wBase_ b - rBase_ b)) b.
Definition appendBufferToString (str : bytes) (b : TMemoryBuffer) : result bytes :=
  d ← getBuffer b; Ok (str ++ d).

Definition peek (b : TMemoryBuffer) : bool := rBase_ b <? wBase_ b.

(** ** Construction and reuse *)

(** [initCommon]: without a buffer, one of [size] bytes is allocated. *)
Definition initCommon (buf : option (list cell)) (size : Z) (owner : bool) (wPos : Z)
    : result TMemoryBuffer :=
  match buf with
  | Some cells => Ok (mkTMemoryBuffer cells size 0 wPos wPos size owner)
  | None =>
      _ ← assert_ ((size =? 0) || owner);
      Ok (mkTMemoryBuffer (replicate (Z.to_nat size) None) size 0 wPos wPos size owner)
  end.

Inductive MemoryPolicy := OBSERVE | COPY | TAKE_OWNERSHIP.

Definition defaultSize : Z := 1024.

(** [TMemoryBuffer()] and [TMemoryBuffer(sz)]. *)
Definition make_sized (sz : Z) : result TMemoryBuffer := initCommon None sz true 0.
Definition make : result TMemoryBuffer := make_sized defaultSize.

(** [TMemoryBuffer(buf, sz, policy)] of a buffer that is not null. *)
Definition make_from (buf : bytes) (policy : MemoryPolicy) : outcome TMemoryBuffer :=
  let sz := Z.of_nat (length buf) in
  match policy with
  | OBSERVE => of_result (initCommon (Some (Some <$> buf)) sz false sz)
  | TAKE_OWNERSHIP => of_result (initCommon (Some (Some <$> buf)) sz true sz)
  | COPY => b ← of_result (initCommon None sz true 0); write_buffer buf b
  end.

Definition resetBuffer (b : TMemoryBuffer) : TMemoryBuffer :=
  if owner_ b then mkTMemoryBuffer (buffer_ b) (bufferSize_ b) 0 0 0 (wBound_ b) true
  else mkTMemoryBuffer (buffer_ b) 0 0 0 0 0 false.

(** [readEnd] and [writeEnd]: the bytes read, and written, so far. *)
Definition readEnd (b : TMemoryBuffer) : Z * TMemoryBuffer :=
  (u32 (rBase_ b), if rBase_ b =? wBase_ b then resetBuffer b else b).
Definition writeEnd (b : TMemoryBuffer) : Z := u32 (wBase_ b).

#[export] Instance TMemoryBuffer_Transport : Transport TMemoryBuffer := {|
  write := write_buffer;
  readAll := readAll_buffer;
  borrow := borrow_buffer;
  consume := consume_buffer;
|}.

(** ** What the buffer holds *)

Definition used (b : TMemoryBuffer) : Z := wBase_ b - rBase_ b.

(** How many bytes can still be written: an owned buffer grows up to 2 GB. *)
Definition room (b : TMemoryBuffer) : Z :=
  if owner_ b then 2 ^ 31 - wBase_ b else wBound_ b - wBase_ b.

Record holds (b : TMemoryBuffer) (l : bytes) : Prop := mkHolds {
  holds_order : 0 ≤ rBase_ b ≤ rBound_ b ∧ rBound_ b ≤ wBase_ b ≤ wBound_ b;
  holds_size : wBound_ b = bufferSize_ b ∧ bufferSize_ b < 2 ^ 32;
  holds_block : Z.of_nat (length (buffer_ b)) = bufferSize_ b;
  holds_unread : take (Z.to_nat (used b)) (drop (Z.to_nat (rBase_ b)) (buffer_ b)) = Some <$> l;
  holds_bytes : bytes_ok l;
}.

Lemma holds_length b l : holds b l → Z.of_nat (length l) = used b.
Proof.
  intros [Ho [Hs ?] Hb Hu _]. apply (f_equal length) in Hu.
  rewrite length_fmap, length_take, length_drop in Hu. unfold used in *. lia.
Qed.

Lemma fetch_ok b l n :
  holds b l → 0 ≤ n ≤ Z.of_nat (length l) → fetch (rBase_ b) n b = Ok (take (Z.to_nat n) l).
Proof.
  intros H Hn. pose proof (holds_length b l H) as Hl.
  destruct H as [Ho [Hs ?] Hb Hu _]. unfold fetch, used in *.
  rewrite read_at_ok, bind_ok by lia.
  replace (take (Z.to_nat n) (drop (Z.to_nat (rBase_ b)) (buffer_ b)))
    with (Some <$> take (Z.to_nat n) l).
  - by rewrite mapM_id_Some.
  - rewrite fmap_take, <- Hu, take_take. f_equal. lia.
Qed.

Lemma holds_consume b l n bound :
  holds b l → 0 ≤ n ≤ Z.of_nat (length l) → rBase_ b + n ≤ bound ≤ wBase_ b →
  holds (set_read (rBase_ b + n) bound b) (drop (Z.to_nat n) l).
Proof.
  intros H Hn Hb. pose proof (holds_length b l H) as Hl.
  destruct H as [Ho Hs Hbl Hu Hok]. split; cbn; [lia|lia|done| |by apply Forall_drop].
  unfold used in *. cbn. rewrite fmap_drop, <- Hu, skipn_firstn_comm, drop_drop. f_equal; [lia|].
  f_equal. lia.
Qed.

(** Moving [rBound_] up to [wBase_] changes nothing that matters. *)
Lemma holds_bound b l : holds b l → holds (set_read (rBase_ b) (wBase_ b) b) l.
Proof.
  intros H. pose proof (holds_length b l H). pose proof H as [Ho _ _ _ _].
  replace (rBase_ b) with (rBase_ b + 0) by lia. rewrite <- (drop_0 l).
  apply (holds_consume b l 0); [done|lia|lia].
Qed.

Lemma holds_available b l : holds b l → available_read b = Z.of_nat (length l).
Proof.
  intros H. pose proof (holds_length b l H) as Hl. destruct H as [Ho [Hs ?] _ _ _].
  unfold available_read, used in *. width.
Qed.

(** *** Writing *)

Lemma put_ok b l d :
  holds b l → bytes_ok d → wBase_ b + Z.of_nat (length d) ≤ wBound_ b →
  ∃ b', put d b = Ok b' ∧ holds b' (l ++ d) ∧
    wBase_ b' = wBase_ b + Z.of_nat (length d) ∧ owner_ b' = owner_ b ∧ wBound_ b' = wBound_ b.
Proof.
  intros H Hd Hf. pose proof (holds_length b l H) as Hl.
  destruct H as [Ho [Hs Hlt] Hbl Hu Hok]. unfold put.
  rewrite write_at_ok, bind_ok by (rewrite length_fmap; lia).
  eexists. split; [done|]. split; [|done]. unfold used in *.
  split; cbn; [lia|lia| | |by apply Forall_app].
  - rewrite length_splice; [done|]. rewrite length_fmap. lia.
  - rewrite fmap_app, <- Hu.
    pose proof (splice_extend (Z.to_nat (wBase_ b)) (Some <$> d) (buffer_ b) (Z.to_nat (rBase_ b))) as E.
    rewrite length_fmap in E. unfold used. cbn.
    replace (Z.to_nat (wBase_ b + Z.of_nat (length d) - rBase_ b))
      with (Z.to_nat (wBase_ b) - Z.to_nat (rBase_ b) + length d)%nat by lia.
    rewrite E by lia. f_equal. f_equal. lia.
Qed.

(** Doubling finds a size of at most 32 bits as long as 2 GB are enough. *)
Lemma double_until_ok b len : ∀ fuel n,
  bufferSize_ b = wBound_ b → 0 ≤ wBase_ b ≤ wBound_ b → wBound_ b ≤ n < 2 ^ 32 → 0 < n →
  wBase_ b + len ≤ 2 ^ 31 → wBase_ b + len ≤ n * 2 ^ Z.of_nat fuel →
  ∃ m, double_until fuel b len (n - wBase_ b) n = Done m ∧
    wBase_ b + len ≤ m < 2 ^ 32 ∧ n ≤ m.
Proof.
  induction fuel as [|fuel IH]; intros n Hb Hw Hn Hp Hlen Hf; cbn [double_until];
    (destruct (Z.leb_spec len (n - wBase_ b)); [exists n; repeat split; lia|]).
  { cbn in Hf. lia. }
  rewrite (proj2 (Z.ltb_lt 0 n)) by lia.
  rewrite (u32_small (n * 2)) by lia.
  destruct (IH (n * 2)) as (m & E & ? & ?); try lia.
  - replace (Z.of_nat (S fuel)) with (1 + Z.of_nat fuel) in Hf by lia.
    rewrite Z.pow_add_r in Hf by lia. lia.
  - exists m. split; [|lia]. rewrite <- E. f_equal. unfold available_write.
    rewrite (u32_small (n * 2 - bufferSize_ b)), (u32_small (wBound_ b - wBase_ b)) by lia.
    width.
Qed.

Lemma double_until_S fuel b len avail n :
  double_until (S fuel) b len avail n =
  if len <=? avail then Done n else
  let n := if 0 <? n then u32 (n * 2) else 1 in
  double_until fuel b len (u32 (available_write b + u32 (n - bufferSize_ b))) n.
Proof. reflexivity. Qed.

Lemma double_until_start b len :
  bufferSize_ b = wBound_ b → 0 ≤ wBase_ b ≤ wBound_ b → wBound_ b < 2 ^ 32 →
  available_write b < len → wBase_ b + len ≤ 2 ^ 31 →
  ∃ m, double_until kTurns b len (available_write b) (bufferSize_ b) = Done m ∧
    wBase_ b + len ≤ m < 2 ^ 32 ∧ wBound_ b ≤ m.
Proof.
  intros Hb Hw Hn Ha Hlen. rewrite Hb.
  assert (available_write b = wBound_ b - wBase_ b) as Ea by (unfold available_write; width).
  destruct (decide (wBound_ b = 0)) as [E0|].
  - assert (wBase_ b = 0) as E1 by lia.
    rewrite (double_until_S 65 b len), (proj2 (Z.leb_gt len (available_write b)) Ha), E0.
    change (0 <? 0) with false. cbv iota zeta.
    assert (2 ^ 31 ≤ 1 * 2 ^ Z.of_nat 65) as Ht by (by vm_compute).
    generalize dependent 65%nat. intros fuel Ht.
    destruct (double_until_ok b len fuel 1) as (m & E & ?); try lia.
    exists m. split; [|lia]. rewrite <- E. f_equal. by rewrite Ea, Hb, E0, E1.
  - rewrite Ea.
    assert (2 ^ 31 ≤ 2 ^ Z.of_nat kTurns) as Ht by (by vm_compute).
    generalize dependent kTurns. intros fuel Ht.
    apply double_until_ok; lia.
Qed.

Lemma realloc_holds b l n :
  holds b l → wBound_ b ≤ n < 2 ^ 32 → 0 < n →
  ∃ b', realloc b n = Done b' ∧ holds b' l ∧ wBase_ b' = wBase_ b ∧ wBound_ b' = n ∧
    owner_ b' = owner_ b.
Proof.
  intros [Ho [Hs Hlt] Hbl Hu Hok] Hn Hp. unfold realloc.
  rewrite (proj2 (Z.eqb_neq n 0)) by lia. eexists. split; [done|]. split; [|done].
  rewrite take_ge by lia. unfold used in *. split; cbn; [lia|lia| | |done].
  - rewrite length_app, length_replicate. lia.
  - unfold used. cbn. rewrite <- Hu, drop_app_le by lia. apply take_app_le.
    rewrite length_drop. lia.
Qed.

Lemma ensureCanWrite_grows b l len :
  holds b l → owner_ b = true → wBound_ b < wBase_ b + len → wBase_ b + len ≤ 2 ^ 31 →
  ∃ b', ensureCanWrite len b = Done b' ∧ holds b' l ∧ wBase_ b' = wBase_ b ∧
    wBase_ b + len ≤ wBound_ b' ∧ owner_ b' = true.
Proof.
  intros H Eo Hf Hr. pose proof H as [Ho [Hs Hlt] Hbl _ _].
  assert (available_write b < len) as Ha by (unfold available_write; width).
  destruct (double_until_start b len) as (m & E & Hm & Hm'); try done; try lia.
  destruct (realloc_holds b l m) as (b1 & Er & H1 & Hw1 & Hb1 & Ho1); [done|lia|lia|].
  exists b1. split; [|by rewrite Hw1, Hb1, Ho1, Eo; auto with lia].
  unfold ensureCanWrite. revert E. generalize (double_until kTurns b len). intros f E.
  rewrite (proj2 (Z.leb_gt _ _) Ha), Eo, E. exact Er.
Qed.

Lemma write_buffer_ok b l d :
  holds b l → bytes_ok d → Z.of_nat (length d) ≤ room b →
  ∃ b', write_buffer d b = Done b' ∧ holds b' (l ++ d) ∧ room b' = room b - Z.of_nat (length d).
Proof.
  intros H Hd Hr. pose proof H as [Ho [Hs Hlt] Hbl _ _]. unfold write_buffer, room in *.
  destruct (Z.leb_spec (wBase_ b + Z.of_nat (length d)) (wBound_ b)) as [Hf|Hf].
  { destruct (put_ok b l d) as (b' & -> & Hh & Hw & Hown & Hbd); try done.
    exists b'. split; [done|]. split; [done|]. rewrite Hown. destruct (owner_ b); lia. }
  destruct (owner_ b) eqn:Eo; [|lia]. unfold writeSlow.
  destruct (ensureCanWrite_grows b l (Z.of_nat (length d))) as (b1 & E & H1 & Hw1 & Hb1 & Ho1);
    try done; try lia.
  rewrite E. cbn [mbind outcome_bind].
  destruct (put_ok b1 l d) as (b' & -> & Hh & Hw & Hown & Hbd); [done|done|lia|].
  exists b'. split; [done|]. split; [done|]. rewrite Hown, Ho1. lia.
Qed.

(** *** Reading *)

Lemma readSlow_ok b l n :
  holds b l → 0 ≤ n →
  ∃ b', readSlow n b = Done (take (Z.to_nat n) l, b') ∧ holds b' (drop (Z.to_nat n) l) ∧
    room b' = room b ∧ (Z.of_nat (length l) ≤ n → rBase_ b' = rBound_ b').
Proof.
  intros H Hn. pose proof (holds_length b l H) as Hl. pose proof H as [Ho _ _ _ _].
  unfold readSlow, computeRead. rewrite (holds_available b l H).
  set (k := Z.min n (Z.of_nat (length l))).
  assert (take (Z.to_nat n) l = take (Z.to_nat k) l ∧ drop (Z.to_nat n) l = drop (Z.to_nat k) l)
    as [-> ->].
  { subst k. destruct (Z.min_spec n (Z.of_nat (length l))) as [[_ ->]|[? ->]]; [done|].
    by rewrite !take_ge, !drop_ge by lia. }
  change (fetch (rBase_ b) k (set_read (rBase_ b + k) (wBase_ b) b)) with (fetch (rBase_ b) k b).
  rewrite (fetch_ok b l k H) by lia. cbn [of_result mbind outcome_bind].
  eexists. split; [done|]. split; [|split; [done|]].
  - apply holds_consume; [done|lia|]. unfold used in *. lia.
  - intros. unfold used in *. cbn. lia.
Qed.

Lemma read_ok b l n :
  holds b l → 0 ≤ n →
  ∃ b', read n b = Done (take (Z.to_nat n) l, b') ∧ holds b' (drop (Z.to_nat n) l) ∧
    room b' = room b.
Proof.
  intros H Hn. pose proof (holds_length b l H) as Hl. pose proof H as [Ho _ _ _ _]. unfold read.
  destruct (Z.leb_spec (rBase_ b + n) (rBound_ b)) as [Hf|Hf].
  - unfold used in *. rewrite (fetch_ok b l n H) by lia. cbn. eexists. split; [done|].
    split; [|done]. apply holds_consume; [done|lia|lia].
  - destruct (readSlow_ok b l n H Hn) as (b' & ? & ? & ? & _). eauto.
Qed.

(** All the bytes that were asked for, or none and nothing left. *)
Lemma readAll_buffer_ok b l n :
  holds b l → 0 < n →
  ∃ b', holds b' (drop (Z.to_nat n) l) ∧ room b' = room b ∧
    readAll_buffer n b =
    Done (if decide (n ≤ Z.of_nat (length l)) then take (Z.to_nat n) l else [], b').
Proof.
  intros H Hn. pose proof (holds_length b l H) as Hl. pose proof H as [Ho _ _ _ _].
  unfold readAll_buffer. destruct (Z.leb_spec (rBase_ b + n) (rBound_ b)) as [Hf|Hf].
  { unfold used in *. rewrite (fetch_ok b l n H) by lia. cbn. rewrite decide_True by lia.
    eexists. split; [|split; [|done]]; [|done]. apply holds_consume; [done|lia|lia]. }
  rewrite (holds_available b l H), Nat2Z.id. cbn [read_until length].
  change (Z.of_nat 0) with 0. rewrite (proj2 (Z.leb_gt n 0)), Z.sub_0_r by lia.
  destruct (read_ok b l n H) as (b1 & -> & H1 & R1); [lia|]. cbn [mbind outcome_bind].
  destruct l as [|x l].
  { rewrite take_nil in *. exists b1. rewrite decide_False by (cbn; lia). done. }
  destruct (take (Z.to_nat n) (x :: l)) as [|y d] eqn:Ed.
  { replace (Z.to_nat n) with (S (Z.to_nat (n - 1))) in Ed by lia. done. }
  rewrite <- Ed, app_nil_l. clear y d Ed.
  assert (∃ m, length (x :: l) = S m) as [m Em] by (cbn; eauto).
  remember (x :: l) as xs eqn:Ex. clear x l Ex.
  replace (read_until (length xs) n) with (read_until (S m) n) by (by rewrite Em).
  cbn [read_until]. rewrite length_take. destruct (decide (n ≤ Z.of_nat (length xs))) as [Hle|Hgt].
  - rewrite (proj2 (Z.leb_le n (Z.of_nat (Z.to_nat n `min` length xs)))) by lia. by exists b1.
  - rewrite (proj2 (Z.leb_gt n (Z.of_nat (Z.to_nat n `min` length xs)))) by lia.
    rewrite drop_ge in * by lia.
    destruct (read_ok b1 [] (n - Z.of_nat (Z.to_nat n `min` length xs)) H1) as (b2 & -> & H2 & R2);
      [lia|]. rewrite take_nil, drop_nil in *. cbn. rewrite R1 in R2. eauto.
Qed.

Lemma borrow_buffer_ok b l n :
  holds b l → 0 ≤ n →
  ∃ o b', borrow_buffer n b = Done (o, b') ∧ holds b' l ∧ room b' = room b ∧
  ∀ d, o = Some d → n ≤ Z.of_nat (length d) ∧ d `prefix_of` l ∧
    Z.of_nat (length d) ≤ rBound_ b' - rBase_ b'.
Proof.
  intros H Hn. pose proof (holds_length b l H) as Hl. pose proof H as [Ho _ _ _ _].
  unfold borrow_buffer, used in *.
  destruct (Z.leb_spec n (rBound_ b - rBase_ b)) as [Hf|Hf].
  { rewrite (fetch_ok b l _ H) by lia. cbn. eexists _, b. split; [done|]. do 2 (split; [done|]).
    intros d [= <-]. rewrite length_take. split; [lia|]. split; [|lia].
    exists (drop (Z.to_nat (rBound_ b - rBase_ b)) l). by rewrite take_drop. }
  pose proof (holds_bound b l H) as H1.
  rewrite (holds_available _ l H1).
  destruct (Z.leb_spec n (Z.of_nat (length l))) as [Hg|Hg]; [|eexists None, _; split; [done|]; by split].
  rewrite (fetch_ok _ l (Z.of_nat (length l)) H1) by lia. cbn. eexists _, _. split; [done|]. do 2 (split; [done|]).
  intros d [= <-]. rewrite Nat2Z.id, take_ge by lia. cbn. split; [lia|].
  split; [done|]. lia.
Qed.

#[export, refine] Instance TMemoryBuffer_TransportOk : TransportOk TMemoryBuffer := {|
  represents b l r := holds b l ∧ r = room b;
|}.
Proof.
  - by intros b l r [[] _].
  - intros b l r d [H ->] Hd Hr. destruct (write_buffer_ok b l d H Hd Hr) as (b' & ? & ? & ?).
    exists b'. split; [done|]. split; [done|lia].
  - intros b d l r [H ->] Hd. cbn [readAll TMemoryBuffer_Transport].
    destruct (readAll_buffer_ok b (d ++ l) (Z.of_nat (length d)) H) as (b' & Hh & Hr & ->); [lia|].
    rewrite decide_True by (rewrite length_app; lia).
    rewrite Nat2Z.id, take_app_length, drop_app_length in *. eauto.
  - intros b l r n [H ->] Hn. cbn [readAll TMemoryBuffer_Transport].
    destruct (readAll_buffer_ok b l n H) as (b' & Hh & Hr & ->); [lia|].
    rewrite decide_False by lia. exists b', (drop (Z.to_nat n) l).
    rewrite length_drop. eauto with lia.
  - intros b l r n [H ->] Hn. cbn [borrow consume TMemoryBuffer_Transport].
    destruct (borrow_buffer_ok b l n H) as (o & b' & -> & H' & Hr & Hd); [lia|].
    exists o, b'. split; [done|]. split; [done|]. intros d ->.
    destruct (Hd d eq_refl) as (? & Hp & ?). do 2 (split; [done|]). intros k Hk.
    apply prefix_length in Hp as Hlen. pose proof (holds_length b' l H') as Hl.
    pose proof H' as [Ho _ _ _ _].
    eexists. unfold consume_buffer. rewrite (proj2 (Z.leb_le _ _)) by lia. split; [done|].
    split; [|done]. apply holds_consume; [done|lia|lia].
Defined.

Lemma make_new_holds : ∃ b, make = Ok b ∧ holds b [] ∧ room b = 2 ^ 31.
Proof. eexists. split; [done|]. split; [|done]. split; cbn; try lia; done. Qed.

Lemma getBuffer_ok b l : holds b l → getBuffer b = Ok l.
Proof.
  intros H. pose proof (holds_length b l H) as Hl. unfold getBuffer.
  fold (available_read b). rewrite (holds_available b l H), (fetch_ok b l _ H) by lia.
  by rewrite Nat2Z.id, take_ge by lia.
Qed.

(** ** What holds of the buffer *)

(** C32: whatever was written, in whatever chunks, is what is read, in whatever chunks:
    an owned buffer takes up to 2 GB, growing as needed, and no operation faults or
    loops for ever on the way. *)
Theorem written_is_read (chunks : list bytes) (b : TMemoryBuffer) (l : bytes) :
  holds b l → Forall bytes_ok chunks → Z.of_nat (length (concat chunks)) ≤ room b →
  ∃ b', foldl (λ o d, b ← o; write_buffer d b) (Done b) chunks = Done b' ∧
    ∀ n, 0 < n ≤ Z.of_nat (length (l ++ concat chunks)) →
    ∃ b'', readAll_buffer n b' = Done (take (Z.to_nat n) (l ++ concat chunks), b'') ∧
      holds b'' (drop (Z.to_nat n) (l ++ concat chunks)).
Proof.
  revert b l. induction chunks as [|d chunks IH]; intros b l H Hok Hr; cbn [foldl concat] in *.
  - exists b. split; [done|]. intros n Hn. rewrite app_nil_r in *.
    destruct (readAll_buffer_ok b l n H) as (b'' & Hh & _ & E); [lia|].
    rewrite decide_True in E by lia. eauto.
  - rewrite length_app in Hr. apply Forall_cons_1 in Hok as [Hd Hok].
    destruct (write_buffer_ok b l d H Hd) as (b1 & E & H1 & R1); [lia|].
    cbn [mbind outcome_bind]. rewrite E, app_assoc. apply IH; [done|done|lia].
Qed.
Lemma written_is_read_witness :
  ∃ b b', make = Ok b ∧ foldl (λ o d, b ← o; write_buffer d b) (Done b) [[1; 2]; [3]] = Done b' ∧
  ∃ b'', readAll_buffer 3 b' = Done ([1; 2; 3], b'').
Proof.
  destruct make_new_holds as (b & Em & Hb & Hr).
  destruct (written_is_read [[1; 2]; [3]] b [] Hb) as (b' & E & R).
  - repeat constructor; lia.
  - rewrite Hr. cbn. lia.
  - exists b, b'. split; [exact Em|]. split; [exact E|].
    destruct (R 3) as (b'' & E' & _); [cbn; lia|]. exists b''. exact E'.
Defined.

Lemma double_until_wraps b len fuel :
  bufferSize_ b = 2 ^ 31 → wBound_ b = 2 ^ 31 → 0 < wBase_ b ≤ 2 ^ 31 →
  2 ^ 31 - wBase_ b < len ≤ 2 ^ 32 - wBase_ b →
  double_until (S fuel) b len (2 ^ 31 - wBase_ b) (2 ^ 31) = Done 0.
Proof.
  intros Hs Hb Hw Hl. rewrite double_until_S, (proj2 (Z.leb_gt len (2 ^ 31 - wBase_ b))) by lia.
  change (0 <? 2 ^ 31) with true. change (u32 (2 ^ 31 * 2)) with 0. cbv iota zeta.
  rewrite Hs. change (u32 (0 - 2 ^ 31)) with (2 ^ 31).
  unfold available_write. rewrite Hb, (u32_small (2 ^ 31 - wBase_ b)), u32_small by lia.
  destruct fuel; cbn [double_until]; by rewrite (proj2 (Z.leb_le _ _)) by lia.
Qed.

(** past 2 GB the doubled size wraps around to 0: the buffer is released and the
    assertion behind [realloc] fails. *)
Theorem growth_wraps_to_zero (b : TMemoryBuffer) (d : bytes) :
  owner_ b = true → bufferSize_ b = 2 ^ 31 → wBound_ b = 2 ^ 31 → 0 < wBase_ b ≤ 2 ^ 31 →
  2 ^ 31 < wBase_ b + Z.of_nat (length d) ≤ 2 ^ 32 →
  write_buffer d b = Fault AssertFailed.
Proof.
  intros Ho Hs Hb Hw Hd. unfold write_buffer.
  rewrite (proj2 (Z.leb_gt (wBase_ b + Z.of_nat (length d)) (wBound_ b))) by lia.
  assert (available_write b = 2 ^ 31 - wBase_ b) as Ea by (unfold available_write; width).
  assert (∃ fuel, kTurns = S fuel) as [fuel Ek] by (by eexists).
  pose proof (double_until_wraps b (Z.of_nat (length d)) fuel Hs Hb Hw) as E.
  rewrite <- Ek in E. unfold writeSlow, ensureCanWrite. revert E.
  generalize (double_until kTurns). intros f E.
  rewrite Ea, (proj2 (Z.leb_gt (Z.of_nat (length d)) (2 ^ 31 - wBase_ b))), Ho, Hs, E by lia.
  reflexivity.
Qed.
Lemma growth_wraps_to_zero_witness :
  let b := mkTMemoryBuffer [] (2 ^ 31) 0 (2 ^ 31) (2 ^ 31) (2 ^ 31) true in
  write_buffer [7] b = Fault AssertFailed.
Proof. apply (growth_wraps_to_zero _ [7]); cbn; try lia; reflexivity. Defined.
