(* ===== verification/CompactProtocol.v ===== *)
(** * CompactProtocol: thrift/protocol/TCompactProtocol.tcc and TProtocol.h

    The class TCompactProtocolT over a transport, function by function, and the
    function [skip] of TProtocol.h.  This copy of the library reports errors with a
    flag ([setError], [hasError]) instead of exceptions: a reading function that
    returns early leaves its reference parameters as they were, which is [None] here;
    [into] gives the parameter its new value.  [x ←? m; k] is a call followed by
    [if (hasError()) return 0;].

    Writing functions return the number of bytes they wrote, as the program tests it.
    The counts of the reading functions are not used and not modelled.  A [double] is
    its 64 bits.  [string_buf_] only holds a string on its way to the caller. *)

From stdpp Require Import strings.
From S2P Require Import Prelude Bytes Outcome MemoryBuffer.

#[local] Open Scope Z_scope.

(** ** Types on the wire *)

Abbreviation TType := Z (only parsing).
Definition T_STOP : TType := 0.
Definition T_VOID : TType := 1.
Definition T_BOOL : TType := 2.
Definition T_BYTE : TType := 3.
Definition T_DOUBLE : TType := 4.
Definition T_I16 : TType := 6.
Definition T_I32 : TType := 8.
Definition T_U64 : TType := 9.
Definition T_I64 : TType := 10.
Definition T_STRING : TType := 11.
Definition T_STRUCT : TType := 12.
Definition T_MAP : TType := 13.
Definition T_SET : TType := 14.
Definition T_LIST : TType := 15.

Definition CT_STOP : Z := 0.
Definition CT_BOOLEAN_TRUE : Z := 1.
Definition CT_BOOLEAN_FALSE : Z := 2.
Definition CT_BYTE : Z := 3.
Definition CT_I16 : Z := 4.
Definition CT_I32 : Z := 5.
Definition CT_I64 : Z := 6.
Definition CT_DOUBLE : Z := 7.
Definition CT_BINARY : Z := 8.
Definition CT_LIST : Z := 9.
Definition CT_SET : Z := 10.
Definition CT_MAP : Z := 11.
Definition CT_STRUCT : Z := 12.

Definition TTypeToCType : list Z :=
  [CT_STOP; 0; CT_BOOLEAN_TRUE; CT_BYTE; CT_DOUBLE; 0; CT_I16; 0; CT_I32; 0; CT_I64;
   CT_BINARY; CT_STRUCT; CT_MAP; CT_SET; CT_LIST].

Definition getCompactType (ttype : TType) : result Z :=
  match TTypeToCType !! Z.to_nat ttype with
  | Some c => if 0 <=? ttype then Ok c else Err OutOfBounds
  | None => Err OutOfBounds
  end.

(** [None]: the error flag is set. *)
Definition ttype_of (type : Z) : option TType :=
  if type =? T_STOP then Some T_STOP
  else if (type =? CT_BOOLEAN_FALSE) || (type =? CT_BOOLEAN_TRUE) then Some T_BOOL
  else if type =? CT_BYTE then Some T_BYTE
  else if type =? CT_I16 then Some T_I16
  else if type =? CT_I32 then Some T_I32
  else if type =? CT_I64 then Some T_I64
  else if type =? CT_DOUBLE then Some T_DOUBLE
  else if type =? CT_BINARY then Some T_STRING
  else if type =? CT_LIST then Some T_LIST
  else if type =? CT_SET then Some T_SET
  else if type =? CT_MAP then Some T_MAP
  else if type =? CT_STRUCT then Some T_STRUCT
  else None.

(** ** Integers *)

Definition i64ToZigzag (l : Z) : Z := u64 (Z.lxor (Z.shiftl l 1) (Z.shiftr l 63)).
Definition i32ToZigzag (n : Z) : Z := u32 (Z.lxor (Z.shiftl n 1) (Z.shiftr n 31)).
Definition zigzagToI32 (n : Z) : Z := i32 (Z.lxor (Z.shiftr n 1) (u32 (- Z.land n 1))).
Definition zigzagToI64 (n : Z) : Z := i64 (Z.lxor (Z.shiftr n 1) (u64 (- Z.land n 1))).

(** The loops of [writeVarint32] and [writeVarint64]; [buf] has room for [room] bytes. *)
Fixpoint varint_loop (room : nat) (n : Z) : result bytes :=
  match room with
  | O => Err OutOfBounds
  | S room =>
      if Z.land n (Z.lnot 127) =? 0 then Ok [u8 n]
      else
        buf ← varint_loop room (Z.shiftr n 7);
        Ok (u8 (Z.lor (Z.land n 127) 128) :: buf)
  end.

(** The fast path of [readVarint64]: value and length, [None] for more than 10 bytes. *)
Fixpoint borrowed_loop (turns : nat) (borrowed : bytes) (rsize val shift : Z)
    : result (option (Z * Z)) :=
  match turns with
  | O => Ok None
  | S turns =>
      match borrowed with
      | [] => Err OutOfBounds
      | byte :: borrowed =>
          let val := Z.lor val (u64 (Z.shiftl (Z.land byte 127) shift)) in
          if Z.land byte 128 =? 0 then Ok (Some (val, rsize + 1))
          else borrowed_loop turns borrowed (rsize + 1) val (shift + 7)
      end
  end.

(** ** The object *)

Record protocol := mkProtocol {
  booleanField_ : option (TType * Z);   (* None: name is null *)
  boolValue_ : option bool;             (* None: hasBoolValue is false *)
  lastField_ : list Z;                  (* the top of the stack first *)
  lastFieldId_ : Z;                     (* int16_t *)
  string_limit_ : Z;
  container_limit_ : Z;
  recursion_depth_ : Z;                 (* uint32_t *)
  error_ : bool;
}.

Definition set_boolean (f : option (TType * Z)) (c : protocol) : protocol :=
  mkProtocol f (boolValue_ c) (lastField_ c) (lastFieldId_ c) (string_limit_ c)
    (container_limit_ c) (recursion_depth_ c) (error_ c).
Definition set_bool (v : option bool) (c : protocol) : protocol :=
  mkProtocol (booleanField_ c) v (lastField_ c) (lastFieldId_ c) (string_limit_ c)
    (container_limit_ c) (recursion_depth_ c) (error_ c).
Definition set_stack (l : list Z) (c : protocol) : protocol :=
  mkProtocol (booleanField_ c) (boolValue_ c) l (lastFieldId_ c) (string_limit_ c)
    (container_limit_ c) (recursion_depth_ c) (error_ c).
Definition set_last (id : Z) (c : protocol) : protocol :=
  mkProtocol (booleanField_ c) (boolValue_ c) (lastField_ c) id (string_limit_ c)
    (container_limit_ c) (recursion_depth_ c) (error_ c).
Definition set_depth (n : Z) (c : protocol) : protocol :=
  mkProtocol (booleanField_ c) (boolValue_ c) (lastField_ c) (lastFieldId_ c) (string_limit_ c)
    (container_limit_ c) n (error_ c).
Definition set_error (c : protocol) : protocol :=
  mkProtocol (booleanField_ c) (boolValue_ c) (lastField_ c) (lastFieldId_ c) (string_limit_ c)
    (container_limit_ c) (recursion_depth_ c) true.

(** [TCompactProtocolT(trans, string_limit, container_limit)]; the factory's defaults
    are 0, no limit. *)
Definition make_protocol (string_limit container_limit : Z) : protocol :=
  mkProtocol None None [] 0 string_limit container_limit 0 false.

Definition DEFAULT_RECURSION_LIMIT : Z := 64.

Section protocol.
Context {T : Type} `{Transport T}.

Definition M (A : Type) : Type := state (T * protocol) A.

Definition hasError : M bool := λ s, Done (s, error_ s.2).
Definition setError : M unit := λ '(t, c), Done ((t, set_error c), tt).
Definition update (f : protocol → protocol) : M unit := λ '(t, c), Done ((t, f c), tt).
Definition look {A} (f : protocol → A) : M A := λ s, Done (s, f s.2).

(** A call, and [if (hasError()) return 0;]. *)
Definition checked {A B} (m : M (option A)) (k : A → M (option B)) : M (option B) :=
  o ← m;
  e ← hasError;
  if e : bool then mret None else
  match o with Some a => k a | None => mret None end.
Notation "x ←? m ; k" := (checked m (λ x, k)) (at level 20, m at level 100, k at level 200).

(** A reference parameter that held [old]. *)
Definition into {A} (old : A) (m : M (option A)) : M A :=
  o ← m; mret (default old o).

(** ** Writing *)

(** [wsize += ...], call by call. *)
Fixpoint total (calls : list (M Z)) : M Z :=
  match calls with
  | [] => mret 0
  | m :: calls => a ← m; b ← total calls; mret (u32 (a + b))
  end.

Definition trans_write (d : bytes) : M unit := λ '(t, c),
  t ← write d t; Done ((t, c), tt).

(** The byte is an [int8_t]. *)
Definition writeByte (byte : Z) : M Z :=
  _ ← trans_write [u8 byte]; mret 1.

Definition writeVarint (room : nat) (n : Z) : M Z :=
  buf ← lift (of_result (varint_loop room n));
  _ ← trans_write buf;
  mret (Z.of_nat (length buf)).
Definition writeVarint32 (n : Z) : M Z := writeVarint 5 n.
Definition writeVarint64 (n : Z) : M Z := writeVarint 10 n.

Definition writeI16 (v : Z) : M Z := writeVarint32 (i32ToZigzag v).
Definition writeI32 (v : Z) : M Z := writeVarint32 (i32ToZigzag v).
Definition writeI64 (v : Z) : M Z := writeVarint64 (i64ToZigzag v).

Definition writeDouble (bits : Z) : M Z :=
  _ ← trans_write (le_bytes 8 bits); mret 8.

Definition kMaxU32 : Z := 2 ^ 32 - 1.

Definition writeBinary (str : bytes) : M Z :=
  let size := Z.of_nat (length str) in
  if kMaxU32 <? size then _ ← setError; mret 0 else
  wsize ← writeVarint32 size;
  if kMaxU32 - wsize <? size then _ ← setError; mret 0 else
  _ ← trans_write str;
  mret (wsize + size).
Definition writeString (str : bytes) : M Z := writeBinary str.

(** [name] is not used; [typeOverride] is [-1] for none. *)
Definition writeFieldBeginInternal (fieldType : TType) (fieldId typeOverride : Z) : M Z :=
  typeToWrite ← (if typeOverride =? -1 then lift (of_result (getCompactType fieldType))
                 else mret typeOverride);
  last ← look lastFieldId_;
  wsize ← (if (last <? fieldId) && (fieldId - last <=? 15)
           then writeByte (i8 (Z.lor (Z.shiftl (fieldId - last) 4) typeToWrite))
           else total [writeByte typeToWrite; writeI16 fieldId]);
  _ ← update (set_last fieldId);
  mret wsize.

Definition writeFieldBegin (name : string) (fieldType : TType) (fieldId : Z) : M Z :=
  if fieldType =? T_BOOL then
    _ ← update (set_boolean (Some (fieldType, fieldId))); mret 0
  else writeFieldBeginInternal fieldType fieldId (-1).

Definition writeFieldEnd : M Z := mret 0.
Definition writeFieldStop : M Z := writeByte T_STOP.

Definition writeStructBegin (name : string) : M Z :=
  _ ← update (λ c, set_last 0 (set_stack (lastFieldId_ c :: lastField_ c) c));
  mret 0.

(** [top] and [pop] of an empty stack are undefined. *)
Definition pop_field : M unit :=
  l ← look lastField_;
  match l with
  | [] => fail OutOfBounds
  | id :: l => update (λ c, set_stack l (set_last id c))
  end.
Definition writeStructEnd : M Z := _ ← pop_field; mret 0.

Definition writeBool (value : bool) : M Z :=
  let ct := if value then CT_BOOLEAN_TRUE else CT_BOOLEAN_FALSE in
  f ← look booleanField_;
  match f with
  | Some (fieldType, fieldId) =>
      wsize ← writeFieldBeginInternal fieldType fieldId ct;
      _ ← update (set_boolean None);
      mret wsize
  | None => writeByte ct
  end.

(** The size is a [uint32_t] that becomes an [int32_t]. *)
Definition writeCollectionBegin (elemType : TType) (size : Z) : M Z :=
  let size := i32 size in
  ct ← lift (of_result (getCompactType elemType));
  if size <=? 14 then writeByte (i8 (Z.lor (Z.shiftl size 4) ct))
  else total [writeByte (i8 (Z.lor 240 ct)); writeVarint32 (u32 size)].
Definition writeListBegin (elemType : TType) (size : Z) : M Z := writeCollectionBegin elemType size.
Definition writeSetBegin (elemType : TType) (size : Z) : M Z := writeCollectionBegin elemType size.
Definition writeListEnd : M Z := mret 0.

Definition writeMapBegin (keyType valType : TType) (size : Z) : M Z :=
  if size =? 0 then writeByte 0 else
  total [writeVarint32 size;
         k ← lift (of_result (getCompactType keyType));
         v ← lift (of_result (getCompactType valType));
         writeByte (i8 (Z.lor (Z.shiftl k 4) v))].

Definition PROTOCOL_ID : Z := -126.
Definition VERSION_N : Z := 1.
Definition VERSION_MASK : Z := 31.
Definition TYPE_MASK : Z := -32.
Definition TYPE_BITS : Z := 7.
Definition TYPE_SHIFT_AMOUNT : Z := 5.

Definition writeMessageBegin (name : bytes) (messageType seqid : Z) : M Z :=
  total [writeByte PROTOCOL_ID;
         writeByte (i8 (Z.lor (Z.land VERSION_N VERSION_MASK)
                              (Z.land (Z.shiftl messageType TYPE_SHIFT_AMOUNT) TYPE_MASK)));
         writeVarint32 (u32 seqid);
         writeString name].

Definition incrementRecursionDepth : M unit :=
  _ ← update (λ c, set_depth (u32 (recursion_depth_ c + 1)) c);
  d ← look recursion_depth_;
  lift (of_result (assert_ (d <=? DEFAULT_RECURSION_LIMIT))).
Definition decrementRecursionDepth : M unit :=
  update (λ c, set_depth (u32 (recursion_depth_ c - 1)) c).

(** ** Reading *)

(** The method [readAll] of the protocol: the error flag when nothing was read. *)
Definition trans_readAll (len : Z) : M bytes :=
  e ← hasError;
  if e : bool then mret [] else
  d ← (λ '(t, c), '(d, t) ← readAll len t; Done ((t, c), d)) : M bytes;
  match d with
  | [] => _ ← setError; mret []
  | _ :: _ => mret d
  end.

(** Indeterminate when there is an error, which every caller tests first. *)
Definition trans_read (len : Z) : M (option bytes) :=
  d ← trans_readAll len; mret (Some d).

Definition readByte : M (option Z) :=
  b ←? trans_read 1;
  mret (i8 <$> head b).

(** The slow path of [readVarint64]. *)
Fixpoint slow_loop (turns : nat) (val shift : Z) : M (option Z) :=
  match turns with
  | O => _ ← setError; mret None
  | S turns =>
      d ← trans_readAll 1;
      match d with
      | [] => mret None
      | byte :: _ =>
          let val := Z.lor val (u64 (Z.shiftl (Z.land byte 127) shift)) in
          if Z.land byte 128 =? 0 then mret (Some (i64 val))
          else slow_loop turns val (shift + 7)
      end
  end.

Definition kVarintSize : Z := 10.

Definition readVarint64 : M (option Z) :=
  e ← hasError;
  if e : bool then mret None else
  borrowed ← (λ '(t, c), '(d, t) ← borrow kVarintSize t; Done ((t, c), d)) : M (option bytes);
  match borrowed with
  | Some d =>
      r ← lift (of_result (borrowed_loop 10 d 0 0 0));
      match r with
      | Some (val, rsize) =>
          _ ← (λ '(t, c), t ← consume rsize t; Done ((t, c), tt)) : M unit;
          mret (Some (i64 val))
      | None => _ ← setError; mret None
      end
  | None => slow_loop 10 0 0
  end.

(** After an error [val] is indeterminate and so is the result, which every caller
    drops. *)
Definition readVarint32 : M (option Z) :=
  val ← readVarint64;
  mret (i32 <$> val).

Definition readI16 : M (option Z) :=
  value ←? readVarint32;
  mret (Some (i16 (zigzagToI32 (u32 value)))).
Definition readI32 : M (option Z) :=
  value ←? readVarint32;
  mret (Some (zigzagToI32 (u32 value))).
Definition readI64 : M (option Z) :=
  value ←? readVarint64;
  mret (Some (zigzagToI64 (u64 value))).

Definition readDouble : M (option Z) :=
  b ←? trans_read 8;
  mret (Some (le_val b)).

Definition readBinary : M (option bytes) :=
  size ←? readVarint32;
  if size =? 0 then mret (Some []) else
  if size <? 0 then _ ← setError; mret None else
  limit ← look string_limit_;
  if (0 <? limit) && (limit <? size) then _ ← setError; mret None else
  str ←? trans_read size;
  mret (Some str).
Definition readString : M (option bytes) := readBinary.

Definition getTType (type : Z) : M (option TType) :=
  match ttype_of type with
  | Some t => mret (Some t)
  | None => _ ← setError; mret (Some (-1))
  end.

Definition readStructBegin : M unit :=
  update (λ c, set_last 0 (set_stack (lastFieldId_ c :: lastField_ c) c)).
Definition readStructEnd : M unit := pop_field.
Definition readFieldEnd : M unit := mret tt.
Definition readListEnd : M unit := mret tt.

(** The part of [readFieldBegin] that can return early with an error. *)
Definition readFieldHeader : M (option (TType * Z)) :=
  byte ←? readByte;
  let type := Z.land byte 15 in
  if type =? T_STOP then mret (Some (T_STOP, 0)) else
  let modifier := Z.shiftr (Z.land (u8 byte) 240) 4 in
  last ← look lastFieldId_;
  fieldId ←? (if modifier =? 0 then readI16 else mret (Some (i16 (last + modifier))));
  fieldType ←? getTType type;
  _ ← (if (type =? CT_BOOLEAN_TRUE) || (type =? CT_BOOLEAN_FALSE)
       then update (set_bool (Some (type =? CT_BOOLEAN_TRUE))) else mret tt);
  _ ← update (set_last fieldId);
  mret (Some (fieldType, fieldId)).

(** Field type and id; an error reads as the end of the struct. *)
Definition readFieldBegin : M (TType * Z) :=
  into (T_STOP, 0) readFieldHeader.

Definition readMapBegin : M (option (TType * TType * Z)) :=
  msize ←? readVarint32;
  kvType ←? (if msize =? 0 then mret (Some 0) else readByte);
  limit ← look container_limit_;
  if msize <? 0 then _ ← setError; mret None
  else if negb (limit =? 0) && (limit <? msize) then _ ← setError; mret None
  else
    keyType ←? getTType (Z.shiftr (u8 kvType) 4);
    valType ←? getTType (Z.land (u8 kvType) 15);
    mret (Some (keyType, valType, msize)).

Definition readListBegin : M (option (TType * Z)) :=
  size_and_type ←? readByte;
  let lsize := Z.land (Z.shiftr (u8 size_and_type) 4) 15 in
  lsize ←? (if lsize =? 15 then readVarint32 else mret (Some lsize));
  limit ← look container_limit_;
  if lsize <? 0 then _ ← setError; mret None
  else if negb (limit =? 0) && (limit <? lsize) then _ ← setError; mret None
  else
    elemType ←? getTType (Z.land size_and_type 15);
    mret (Some (elemType, lsize)).
Definition readSetBegin : M (option (TType * Z)) := readListBegin.

Definition readBool : M (option bool) :=
  b ← look boolValue_;
  match b with
  | Some value => _ ← update (set_bool None); mret (Some value)
  | None =>
      val ←? readByte;
      mret (Some (val =? CT_BOOLEAN_TRUE))
  end.

Definition readMessageBegin : M (option (bytes * Z * Z)) :=
  protocolId ←? readByte;
  if negb (protocolId =? PROTOCOL_ID) then _ ← setError; mret None else
  versionAndType ←? readByte;
  if negb (Z.land versionAndType VERSION_MASK =? VERSION_N) then _ ← setError; mret None else
  let messageType := Z.land (Z.shiftr versionAndType TYPE_SHIFT_AMOUNT) TYPE_BITS in
  seqid ←? readVarint32;
  name ←? readString;
  mret (Some (name, messageType, seqid)).

(** *** Skipping *)

(** [while (!hasError()) { readFieldBegin ...; if (ftype == T_STOP) break; skip; }]. *)
Fixpoint skip_fields (fuel : nat) (skip : TType → M unit) : M unit :=
  match fuel with
  | O => no_fuel
  | S fuel =>
      e ← hasError;
      if e : bool then mret tt else
      '(ftype, _) ← readFieldBegin;
      e ← hasError;
      if e : bool then mret tt else
      if ftype =? T_STOP then mret tt else
      _ ← skip ftype;
      e ← hasError;
      if e : bool then mret tt else
      _ ← readFieldEnd;
      skip_fields fuel skip
  end.

(** [for (i = 0; !hasError() && i < size; i++)]. *)
Fixpoint skip_elements (size : nat) (skip : M unit) : M unit :=
  match size with
  | O => mret tt
  | S size =>
      e ← hasError;
      if e : bool then mret tt else
      _ ← skip; skip_elements size skip
  end.

(** The recursion goes as deep as the input is nested: there is no limit. *)
Fixpoint skip (fuel : nat) (type : TType) : M unit :=
  match fuel with
  | O => no_fuel
  | S fuel =>
      if type =? T_BOOL then _ ← readBool; mret tt
      else if type =? T_BYTE then _ ← readByte; mret tt
      else if type =? T_I16 then _ ← readI16; mret tt
      else if type =? T_I32 then _ ← readI32; mret tt
      else if type =? T_I64 then _ ← readI64; mret tt
      else if type =? T_DOUBLE then _ ← readDouble; mret tt
      else if type =? T_STRING then _ ← readBinary; mret tt
      else if type =? T_STRUCT then
        _ ← readStructBegin;
        _ ← skip_fields fuel (skip fuel);
        e ← hasError;
        if e : bool then mret tt else readStructEnd
      else if type =? T_MAP then
        h ← readMapBegin;
        match h with
        | Some (keyType, valType, size) =>
            skip_elements (Z.to_nat size)
              (_ ← skip fuel keyType;
               e ← hasError;
               if e : bool then mret tt else skip fuel valType)
        | None => mret tt
        end
      else if (type =? T_SET) || (type =? T_LIST) then
        h ← readListBegin;
        match h with
        | Some (elemType, size) => skip_elements (Z.to_nat size) (skip fuel elemType)
        | None => mret tt
        end
      else mret tt
  end.
End protocol.

Notation "x ←? m ; k" := (checked m (λ x, k)) (at level 20, m at level 100, k at level 200).
