(* ===== verification/CompactSpec.v ===== *)
(** * CompactSpec: what the compact protocol means

    [tval] is a thrift value of any type, [enc] its bytes.  [produces] and [consumes]
    say what a call of the protocol writes and reads, over any transport that keeps
    the promises of [TransportOk]; here are the integers and the headers. *)

From S2P Require Import Prelude Bytes Outcome MemoryBuffer CompactProtocol.

(** [lia] with divisions. *)
Ltac div_lia := Z.to_euclidean_division_equations; lia.

(** ** Integers *)

(** A base-128 number, least significant digit first, of at most [turns] digits: its
    value and what follows. *)
Fixpoint varint_parse (turns : nat) (l : bytes) : option (Z * bytes) :=
  match turns, l with
  | S turns, b :: l =>
      if b <? 128 then Some (b, l) else
      match varint_parse turns l with
      | Some (v, rest) => Some (b - 128 + 128 * v, rest)
      | None => None
      end
  | _, _ => None
  end.

Definition varint (n : Z) : bytes :=
  match varint_loop 10 n with Ok l => l | Err _ => [] end.

Lemma land_high n : 0 ≤ n → (Z.land n (Z.lnot 127) =? 0) = (n <? 128).
Proof.
  intros. rewrite <- Z.ldiff_land. change 127 with (Z.ones 7).
  rewrite Z.ldiff_ones_r, Z.shiftr_div_pow2, Z.shiftl_mul_pow2 by lia.
  change (2 ^ 7) with 128.
  destruct (Z.ltb_spec n 128); [apply Z.eqb_eq|apply Z.eqb_neq]; div_lia.
Qed.

Lemma varint_byte n : 0 ≤ n → u8 (Z.lor (Z.land n 127) 128) = n mod 128 + 128.
Proof.
  intros. change 127 with (2 ^ 7 - 1). rewrite land_low by lia.
  change 128 with (Z.shiftl 1 7) at 1. rewrite lor_shiftl_add by div_lia.
  change (2 ^ 7) with 128. rewrite u8_small; div_lia.
Qed.

Lemma varint_loop_ok k : ∀ n, 0 ≤ n < 2 ^ (7 * Z.of_nat k) → (0 < k)%nat →
  ∃ l, varint_loop k n = Ok l ∧ bytes_ok l ∧ (0 < length l ≤ k)%nat ∧
    ∀ j rest, (length l ≤ j)%nat → varint_parse j (l ++ rest) = Some (n, rest).
Proof.
  induction k as [|k IH]; intros n Hn Hk; [lia|]. cbn [varint_loop].
  rewrite land_high by lia. destruct (Z.ltb_spec n 128) as [Hs|Hs].
  - exists [u8 n]. rewrite u8_small by lia. split; [done|]. split; [repeat constructor; lia|].
    split; [cbn; lia|]. intros [|j] rest Hj; [cbn in Hj; lia|]. cbn.
    by rewrite (proj2 (Z.ltb_lt n 128)) by lia.
  - assert (0 < k)%nat as Hk'.
    { destruct k; [|lia]. change (2 ^ (7 * Z.of_nat 1)) with 128 in Hn. lia. }
    destruct (IH (Z.shiftr n 7)) as (l & E & Hb & Hl & Hp); [|done|].
    { rewrite Z.shiftr_div_pow2 by lia. split; [div_lia|].
      replace (7 * Z.of_nat (S k)) with (7 + 7 * Z.of_nat k) in Hn by lia.
      rewrite Z.pow_add_r in Hn by lia. change (2 ^ 7) with 128 in *.
      apply Z.div_lt_upper_bound; lia. }
    rewrite E, bind_ok, varint_byte by lia. eexists. split; [done|].
    split; [constructor; [unfold is_byte; div_lia|done]|]. split; [cbn; lia|].
    intros [|j] rest Hj; [cbn in Hj; lia|]. cbn in Hj |- *.
    rewrite (proj2 (Z.ltb_ge (n mod 128 + 128) 128)) by div_lia. rewrite Hp by lia.
    rewrite Z.shiftr_div_pow2 by lia. change (2 ^ 7) with 128. do 2 f_equal. div_lia.
Qed.

Lemma varint_loop_mono k : ∀ j n l, (k ≤ j)%nat → varint_loop k n = Ok l → varint_loop j n = Ok l.
Proof.
  induction k as [|k IH]; intros [|j] n l Hj E; try done; try lia. cbn [varint_loop] in *.
  case_match; [done|]. apply bind_ok_inv in E as (b & E & ?). by rewrite (IH j _ b) by (lia || done).
Qed.

Lemma varint_ok n : 0 ≤ n < 2 ^ 64 →
  varint_loop 10 n = Ok (varint n) ∧ bytes_ok (varint n) ∧ (0 < length (varint n) ≤ 10)%nat ∧
  ∀ rest, varint_parse 10 (varint n ++ rest) = Some (n, rest).
Proof.
  intros. destruct (varint_loop_ok 10 n) as (l & E & ? & ? & Hp); [|lia|].
  { change (2 ^ (7 * Z.of_nat 10)) with (2 ^ 70). lia. }
  unfold varint. rewrite E. repeat split; try done; try lia. intros. apply Hp. lia.
Qed.

Lemma varint32_ok n : 0 ≤ n < 2 ^ 32 →
  varint_loop 5 n = Ok (varint n) ∧ (length (varint n) ≤ 5)%nat.
Proof.
  intros. destruct (varint_loop_ok 5 n) as (l & E & ? & ? & _); [|lia|].
  { change (2 ^ (7 * Z.of_nat 5)) with (2 ^ 35). lia. }
  unfold varint. rewrite (varint_loop_mono 5 10 n l) by (lia || done). split; [done|lia].
Qed.

Lemma length_varint n : 0 ≤ n < 2 ^ 64 → (0 < length (varint n) ≤ 10)%nat.
Proof. intros. by destruct (varint_ok n) as (_ & _ & ? & _). Qed.

(** *** Zigzag *)

Lemma lxor_ones w x : 0 ≤ w → 0 ≤ x < 2 ^ w → Z.lxor x (2 ^ w - 1) = 2 ^ w - 1 - x.
Proof.
  intros Hw Hx. replace (2 ^ w - 1) with (Z.ones w) by (rewrite Z.ones_equiv; lia).
  assert (Z.ldiff x (Z.ones w) = 0) as Hd.
  { rewrite Z.ldiff_ones_r, Z.shiftr_div_pow2, Z.div_small by lia. by rewrite Z.shiftl_0_l. }
  rewrite (Z.sub_nocarry_ldiff _ _ Hd). apply Z.bits_inj'. intros n Hn.
  rewrite Z.lxor_spec, Z.ldiff_spec, Z.testbit_ones by lia.
  destruct (Z.ltb_spec n w); cbn.
  - rewrite (proj2 (Z.leb_le 0 n)) by lia. cbn. by destruct (Z.testbit x n).
  - rewrite (testbit_high x w) by lia. by rewrite andb_false_r.
Qed.

Lemma zigzag w n : 0 < w → - 2 ^ w ≤ n < 2 ^ w →
  Z.lxor (Z.shiftl n 1) (Z.shiftr n w) = if n <? 0 then - 2 * n - 1 else 2 * n.
Proof.
  intros Hw Hn. rewrite Z.shiftl_mul_pow2, Z.shiftr_div_pow2 by lia.
  destruct (Z.ltb_spec n 0).
  - replace (n / 2 ^ w) with (-1).
    + rewrite Z.lxor_m1_r. unfold Z.lnot. lia.
    + replace n with (n + 2 ^ w + (-1) * 2 ^ w) by lia.
      rewrite Z.div_add, Z.div_small by lia. lia.
  - rewrite Z.div_small, Z.lxor_0_r by lia. lia.
Qed.

Lemma unzigzag w z : 0 < w → 0 ≤ z < 2 ^ w →
  Z.lxor (Z.shiftr z 1) ((- Z.land z 1) mod 2 ^ w) =
  if z mod 2 =? 0 then z / 2 else 2 ^ w - 1 - z / 2.
Proof.
  intros Hw Hz. change 1 with (2 ^ 1 - 1) at 2. rewrite land_low, Z.shiftr_div_pow2 by lia.
  change (2 ^ 1) with 2. destruct (Z.eqb_spec (z mod 2) 0) as [->|Hne].
  - rewrite Z.mod_0_l by (apply Z.pow_nonzero; lia). by rewrite Z.lxor_0_r.
  - replace (z mod 2) with 1 by div_lia. change (- (1)) with (-1).
    replace (-1 mod 2 ^ w) with (2 ^ w - 1).
    + rewrite lxor_ones; [done|lia|div_lia].
    + apply (Z.mod_unique_pos _ _ (-1)); lia.
Qed.

Lemma i32ToZigzag_bound n : 0 ≤ i32ToZigzag n < 2 ^ 32.
Proof. apply u32_bound. Qed.
Lemma i64ToZigzag_bound n : 0 ≤ i64ToZigzag n < 2 ^ 64.
Proof. apply u64_bound. Qed.

Lemma zigzag32 n : - 2 ^ 31 ≤ n < 2 ^ 31 → zigzagToI32 (i32ToZigzag n) = n.
Proof.
  intros Hn. unfold zigzagToI32, i32ToZigzag. rewrite (zigzag 31) by lia.
  rewrite u32_small by (destruct (Z.ltb_spec n 0); lia). unfold u32.
  rewrite (unzigzag 32) by (destruct (Z.ltb_spec n 0); lia).
  unfold i32. destruct (Z.ltb_spec n 0).
  - rewrite (proj2 (Z.eqb_neq ((-2 * n - 1) mod 2) 0)) by div_lia. div_lia.
  - rewrite (proj2 (Z.eqb_eq ((2 * n) mod 2) 0)) by div_lia. div_lia.
Qed.

Lemma zigzag64 n : - 2 ^ 63 ≤ n < 2 ^ 63 → zigzagToI64 (i64ToZigzag n) = n.
Proof.
  intros Hn. unfold zigzagToI64, i64ToZigzag. rewrite (zigzag 63) by lia.
  rewrite u64_small by (destruct (Z.ltb_spec n 0); lia). unfold u64.
  rewrite (unzigzag 64) by (destruct (Z.ltb_spec n 0); lia).
  unfold i64. destruct (Z.ltb_spec n 0).
  - rewrite (proj2 (Z.eqb_neq ((-2 * n - 1) mod 2) 0)) by div_lia. div_lia.
  - rewrite (proj2 (Z.eqb_eq ((2 * n) mod 2) 0)) by div_lia. div_lia.
Qed.

(** ** Values and their bytes *)

Inductive tval :=
  | VBool (b : bool)
  | VByte (z : Z)
  | VI16 (z : Z)
  | VI32 (z : Z)
  | VI64 (z : Z)
  | VDouble (bits : Z)
  | VString (s : bytes)
  | VStruct (fs : list (Z * tval))
  | VMap (kt vt : TType) (kvs : list (tval * tval))
  | VSet (et : TType) (l : list tval)
  | VList (et : TType) (l : list tval).

Definition ttype (v : tval) : TType :=
  match v with
  | VBool _ => T_BOOL | VByte _ => T_BYTE | VI16 _ => T_I16 | VI32 _ => T_I32
  | VI64 _ => T_I64 | VDouble _ => T_DOUBLE | VString _ => T_STRING | VStruct _ => T_STRUCT
  | VMap _ _ _ => T_MAP | VSet _ _ => T_SET | VList _ _ => T_LIST
  end.

Definition types : list TType :=
  [T_BOOL; T_BYTE; T_I16; T_I32; T_I64; T_DOUBLE; T_STRING; T_STRUCT; T_MAP; T_SET; T_LIST].

Definition ctype (t : TType) : Z := default 0 (TTypeToCType !! Z.to_nat t).

(** The type in a field header tells the value of a boolean. *)
Definition field_ctype (v : tval) : Z :=
  match v with VBool false => CT_BOOLEAN_FALSE | v => ctype (ttype v) end.

Definition enc_header (last id ct : Z) : bytes :=
  if (last <? id) && (id - last <=? 15) then [16 * (id - last) + ct]
  else ct :: varint (i32ToZigzag id).

Definition enc_collection (et : TType) (size : Z) : bytes :=
  if size <=? 14 then [16 * size + ctype et] else (240 + ctype et) :: varint size.

Definition enc_map (kt vt : TType) (size : Z) : bytes :=
  if size =? 0 then [0] else varint size ++ [16 * ctype kt + ctype vt].

Definition enc_binary (s : bytes) : bytes := varint (Z.of_nat (length s)) ++ s.

Fixpoint enc (v : tval) : bytes :=
  match v with
  | VBool b => [if b then CT_BOOLEAN_TRUE else CT_BOOLEAN_FALSE]
  | VByte z => [u8 z]
  | VI16 z | VI32 z => varint (i32ToZigzag z)
  | VI64 z => varint (i64ToZigzag z)
  | VDouble bits => le_bytes 8 bits
  | VString s => enc_binary s
  | VStruct fs =>
      (fix go last fs :=
         match fs with
         | [] => [T_STOP]
         | (id, x) :: fs =>
             enc_header last id (field_ctype x) ++
             match x with VBool _ => [] | _ => enc x end ++ go id fs
         end) 0 fs
  | VMap kt vt kvs =>
      enc_map kt vt (Z.of_nat (length kvs)) ++
      (fix go kvs :=
         match kvs with [] => [] | (k, x) :: kvs => enc k ++ enc x ++ go kvs end) kvs
  | VSet et l | VList et l =>
      enc_collection et (Z.of_nat (length l)) ++
      (fix go l := match l with [] => [] | x :: l => enc x ++ go l end) l
  end.

(** What follows the header of a field. *)
Definition enc_body (v : tval) : bytes := match v with VBool _ => [] | _ => enc v end.

Definition enc_field (last id : Z) (v : tval) : bytes :=
  enc_header last id (field_ctype v) ++ enc_body v.

Fixpoint enc_fields (last : Z) (fs : list (Z * tval)) : bytes :=
  match fs with
  | [] => [T_STOP]
  | (id, x) :: fs => enc_field last id x ++ enc_fields id fs
  end.

Lemma enc_struct fs : enc (VStruct fs) = enc_fields 0 fs.
Proof.
  cbn [enc]. generalize 0. induction fs as [|[id x] fs IH]; intros last; cbn [enc_fields]; [done|].
  rewrite IH. unfold enc_field, enc_body. by rewrite <- app_assoc.
Qed.

Definition enc_list (l : list tval) : bytes := concat (enc <$> l).

Lemma enc_VList et l : enc (VList et l) = enc_collection et (Z.of_nat (length l)) ++ enc_list l.
Proof. cbn [enc]. f_equal. induction l as [|x l IH]; [done|]. unfold enc_list. cbn. by rewrite IH. Qed.

(** Values that a program can hold; the elements of a container have its type. *)
Inductive wf_val : tval → Prop :=
  | wf_bool b : wf_val (VBool b)
  | wf_byte z : - 2 ^ 7 ≤ z < 2 ^ 7 → wf_val (VByte z)
  | wf_i16 z : - 2 ^ 15 ≤ z < 2 ^ 15 → wf_val (VI16 z)
  | wf_i32 z : - 2 ^ 31 ≤ z < 2 ^ 31 → wf_val (VI32 z)
  | wf_i64 z : - 2 ^ 63 ≤ z < 2 ^ 63 → wf_val (VI64 z)
  | wf_double z : 0 ≤ z < 2 ^ 64 → wf_val (VDouble z)
  | wf_string s : bytes_ok s → Z.of_nat (length s) < 2 ^ 31 → wf_val (VString s)
  | wf_struct fs : Forall (λ f, - 2 ^ 15 ≤ f.1 < 2 ^ 15 ∧ wf_val f.2) fs → wf_val (VStruct fs)
  | wf_map kt vt kvs : In kt types → In vt types → Z.of_nat (length kvs) < 2 ^ 31 →
      Forall (λ p, (ttype p.1 = kt ∧ wf_val p.1) ∧ ttype p.2 = vt ∧ wf_val p.2) kvs →
      wf_val (VMap kt vt kvs)
  | wf_set et l : In et types → Z.of_nat (length l) < 2 ^ 31 →
      Forall (λ x, ttype x = et ∧ wf_val x) l → wf_val (VSet et l)
  | wf_list et l : In et types → Z.of_nat (length l) < 2 ^ 31 →
      Forall (λ x, ttype x = et ∧ wf_val x) l → wf_val (VList et l).

(** Induction that reaches the values inside. *)
Section ind.
Context (P : tval → Prop).
Context (Hflat : ∀ v, match v with
  | VStruct _ | VMap _ _ _ | VSet _ _ | VList _ _ => True | _ => P v end).
Context (Hstruct : ∀ fs, Forall (λ f, P f.2) fs → P (VStruct fs)).
Context (Hmap : ∀ kt vt kvs, Forall (λ p, P p.1 ∧ P p.2) kvs → P (VMap kt vt kvs)).
Context (Hset : ∀ et l, Forall P l → P (VSet et l)).
Context (Hlist : ∀ et l, Forall P l → P (VList et l)).

Fixpoint tval_nested_ind (v : tval) : P v :=
  match v return P v with
  | VStruct fs => Hstruct fs
      ((fix go fs : Forall (λ f, P f.2) fs :=
          match fs with
          | [] => Forall_nil_2 _
          | f :: fs => Forall_cons_2 _ f fs (tval_nested_ind f.2) (go fs)
          end) fs)
  | VMap kt vt kvs => Hmap kt vt kvs
      ((fix go kvs : Forall (λ p, P p.1 ∧ P p.2) kvs :=
          match kvs with
          | [] => Forall_nil_2 _
          | p :: kvs =>
              Forall_cons_2 _ p kvs (conj (tval_nested_ind p.1) (tval_nested_ind p.2)) (go kvs)
          end) kvs)
  | VSet et l => Hset et l
      ((fix go l : Forall P l :=
          match l with
          | [] => Forall_nil_2 _
          | x :: l => Forall_cons_2 _ x l (tval_nested_ind x) (go l)
          end) l)
  | VList et l => Hlist et l
      ((fix go l : Forall P l :=
          match l with
          | [] => Forall_nil_2 _
          | x :: l => Forall_cons_2 _ x l (tval_nested_ind x) (go l)
          end) l)
  | v => Hflat v
  end.
End ind.

Lemma ttype_types v : In (ttype v) types.
Proof. destruct v; cbn; tauto. Qed.

(** The two tables are inverse to each other. *)
Lemma ttype_ctype t : In t types → ttype_of (ctype t) = Some t ∧ 0 < ctype t < 13 ∧
  getCompactType t = Ok (ctype t).
Proof. intros H. repeat destruct H as [<-|H]; by cbn; repeat split; lia || done. Qed.

Lemma field_ctype_ok v : ttype_of (field_ctype v) = Some (ttype v) ∧ 0 < field_ctype v < 13.
Proof. destruct v as [[]| | | | | | | | | |]; by vm_compute. Qed.

Lemma length_enc_header last id ct : (0 < length (enc_header last id ct))%nat.
Proof. unfold enc_header. case_match; cbn; lia. Qed.

Lemma enc_header_bytes last id ct : 0 < ct < 13 → bytes_ok (enc_header last id ct).
Proof.
  intros. unfold enc_header. destruct (_ && _) eqn:E.
  - apply andb_true_iff in E as [?%Z.ltb_lt ?%Z.leb_le]. repeat constructor; lia.
  - constructor; [unfold is_byte; lia|]. apply varint_ok.
    pose proof (i32ToZigzag_bound id). lia.
Qed.

Lemma enc_collection_bytes et n :
  In et types → 0 ≤ n < 2 ^ 31 → bytes_ok (enc_collection et n).
Proof.
  intros Ht Hn. destruct (ttype_ctype et Ht) as (_ & Hc & _). unfold enc_collection.
  destruct (Z.leb_spec n 14); [repeat constructor; unfold is_byte; lia|].
  constructor; [unfold is_byte; lia|]. apply varint_ok. lia.
Qed.
