(* ===== verification/CompactProofs.v ===== *)
(** * CompactProofs: the protocol reads and writes what CompactSpec says

    [produces m c l c' a]: called on the protocol object [c], [m] writes the bytes [l],
    leaves the object [c'] and returns [a], on any transport with room for them;
    [consumes m c l c' a]: it reads exactly the bytes [l].  The lemmas follow the
    functions of TCompactProtocol.tcc. *)

From S2P Require Import Prelude Bytes Outcome MemoryBuffer CompactProtocol CompactSpec.

Create HintDb silent.

Section proofs.
Context {T : Type} `{TransportOk T}.
Implicit Types (t : T) (c : protocol) (l rest : bytes) (r : Z).

Abbreviation M := (M (T := T)).

Definition produces {A} (m : M A) c l c' (a : A) : Prop :=
  ∀ t p r, represents t p r → Z.of_nat (length l) ≤ r →
  ∃ t', m (t, c) = Done ((t', c'), a) ∧ represents t' (p ++ l) (r - Z.of_nat (length l)).

Definition consumes {A} (m : M A) c l c' (a : A) : Prop :=
  ∀ t rest r, represents t (l ++ rest) r →
  ∃ t', m (t, c) = Done ((t', c'), a) ∧ represents t' rest r.

(** ** Composition *)

Lemma produces_ret {A} c (a : A) : produces (mret a) c [] c a.
Proof. intros t p r Hp _. exists t. rewrite app_nil_r, Z.sub_0_r. done. Qed.

Lemma consumes_ret {A} c (a : A) : consumes (mret a) c [] c a.
Proof. intros t rest r Hp. by exists t. Qed.

Lemma produces_bind {A B} (m : M A) (k : A → M B) c l1 c1 a l2 c2 b :
  produces m c l1 c1 a → produces (k a) c1 l2 c2 b → produces (m ≫= k) c (l1 ++ l2) c2 b.
Proof.
  intros Hm Hk t p r Hp Hr. rewrite length_app in *.
  destruct (Hm t p r Hp) as (t1 & E1 & H1); [lia|].
  destruct (Hk t1 _ _ H1) as (t2 & E2 & H2); [lia|].
  exists t2. split; [by rewrite (bind_done _ _ _ _ _ E1)|].
  rewrite app_assoc. by replace (r - _) with (r - Z.of_nat (length l1) - Z.of_nat (length l2)) by lia.
Qed.

Lemma consumes_bind {A B} (m : M A) (k : A → M B) c l1 c1 a l2 c2 b :
  consumes m c l1 c1 a → consumes (k a) c1 l2 c2 b → consumes (m ≫= k) c (l1 ++ l2) c2 b.
Proof.
  intros Hm Hk t rest r Hp. rewrite <- app_assoc in Hp.
  destruct (Hm t _ r Hp) as (t1 & E1 & H1). destruct (Hk t1 _ _ H1) as (t2 & E2 & H2).
  exists t2. split; [by rewrite (bind_done _ _ _ _ _ E1)|done].
Qed.

(** A call that only looks at the object or changes it. *)
Definition silent {A} (m : M A) c c' (a : A) : Prop := ∀ t, m (t, c) = Done ((t, c'), a).

Lemma silent_produces {A B} (m : M A) (k : A → M B) c c1 a l c2 b :
  silent m c c1 a → produces (k a) c1 l c2 b → produces (m ≫= k) c l c2 b.
Proof. intros Hm Hk t p r Hp Hr. rewrite (bind_done _ _ _ _ _ (Hm t)). by apply (Hk t p r). Qed.

Lemma silent_consumes {A B} (m : M A) (k : A → M B) c c1 a l c2 b :
  silent m c c1 a → consumes (k a) c1 l c2 b → consumes (m ≫= k) c l c2 b.
Proof. intros Hm Hk t p r Hp. rewrite (bind_done _ _ _ _ _ (Hm t)). by apply (Hk t p r). Qed.

Lemma silent_hasError c : silent hasError c c (error_ c).
Proof. done. Qed.
Lemma silent_look {A} (f : protocol → A) c : silent (look f) c c (f c).
Proof. done. Qed.
Lemma silent_update f c : silent (update f) c (f c) tt.
Proof. done. Qed.
Lemma silent_setError c : silent setError c (set_error c) tt.
Proof. done. Qed.
Lemma silent_ret {A} (a : A) c : silent (mret a) c c a.
Proof. done. Qed.
Lemma silent_result {A} (o : result A) a c : o = Ok a → silent (lift (of_result o) : M A) c c a.
Proof. by intros -> t. Qed.
Hint Resolve silent_hasError silent_look silent_update silent_setError silent_ret : silent.

Lemma silent_is_produced {A} (m : M A) c c' a : silent m c c' a → produces m c [] c' a.
Proof. intros Hm t p r Hp _. exists t. by rewrite app_nil_r, Z.sub_0_r. Qed.

Lemma consumes_into {A} (m : M (option A)) old c l c' a :
  consumes m c l c' (Some a) → consumes (into old m) c l c' a.
Proof.
  intros Hm. rewrite <- (app_nil_r l). eapply consumes_bind; [exact Hm|]. apply consumes_ret.
Qed.

Lemma consumes_checked {A B} (m : M (option A)) (k : A → M (option B)) c l1 c1 a l2 c2 b :
  consumes m c l1 c1 (Some a) → error_ c1 = false → consumes (k a) c1 l2 c2 b →
  consumes (checked m k) c (l1 ++ l2) c2 b.
Proof.
  intros Hm He Hk. eapply consumes_bind; [exact Hm|]. eapply silent_consumes; [auto with silent|].
  cbn. by rewrite He.
Qed.

Lemma consumes_checked_ret {A B} (m : M (option A)) (k : A → M (option B)) c l c1 a b :
  consumes m c l c1 (Some a) → error_ c1 = false → k a = mret b → consumes (checked m k) c l c1 b.
Proof.
  intros Hm He E. rewrite <- (app_nil_r l). eapply consumes_checked; [exact Hm|done|].
  rewrite E. apply consumes_ret.
Qed.

(** The count of [total]. *)
Lemma produces_total_nil c : produces (total []) c [] c 0.
Proof. apply produces_ret. Qed.

Lemma produces_total_cons (m : M Z) calls c l1 c1 a l2 c2 b :
  produces m c l1 c1 a → produces (total calls) c1 l2 c2 b →
  produces (total (m :: calls)) c (l1 ++ l2) c2 (u32 (a + b)).
Proof.
  intros Hm Hk. cbn [total]. eapply produces_bind; [exact Hm|].
  rewrite <- (app_nil_r l2). eapply produces_bind; [exact Hk|]. apply produces_ret.
Qed.

(** Calls that return the number of bytes they write. *)
Definition writes (m : M Z) c l c' : Prop := ∃ n, produces m c l c' n ∧ u32 n = u32 (Z.of_nat (length l)).

Lemma writes_ret c : writes (mret 0) c [] c.
Proof. exists 0. split; [apply produces_ret|done]. Qed.

Lemma writes_exact m c l c' : produces m c l c' (Z.of_nat (length l)) → writes m c l c'.
Proof. intros ?. by eexists. Qed.

Lemma writes_total_nil c : writes (total []) c [] c.
Proof. exists 0. split; [apply produces_total_nil|done]. Qed.

Lemma writes_total_cons m calls c l1 c1 l2 c2 :
  writes m c l1 c1 → writes (total calls) c1 l2 c2 → writes (total (m :: calls)) c (l1 ++ l2) c2.
Proof.
  intros (a & Ha & Ea) (b & Hb & Eb). exists (u32 (a + b)).
  split; [by eapply produces_total_cons|]. rewrite length_app, Nat2Z.inj_add.
  unfold u32 in *. rewrite Z.mod_mod by lia. rewrite Z.add_mod, Ea, Eb by lia.
  by rewrite <- Z.add_mod by lia.
Qed.

Lemma writes_silent {A} (m : M A) (k : A → M Z) c c1 a l c2 :
  silent m c c1 a → writes (k a) c1 l c2 → writes (m ≫= k) c l c2.
Proof. intros Hm (n & Hk & E). exists n. split; [by eapply silent_produces|done]. Qed.

(** [total] returns a number of 32 bits. *)
Lemma total_small calls c l c' n : produces (total calls) c l c' n →
  (∃ t p r, represents t p r ∧ Z.of_nat (length l) ≤ r) → u32 n = n.
Proof.
  intros Hp (t & p & r & Hr & Hl). destruct (Hp t p r Hr Hl) as (t' & E & _).
  destruct calls as [|m calls]; cbn in E; [by injection E as _ _ <-|].
  unfold mbind, state_bind in E. destruct (m (t, c)) as [[s1 a]| |]; try done.
  destruct (total calls s1) as [[s2 b]| |]; try done. injection E as _ <-.
  unfold u32. by rewrite Z.mod_mod by lia.
Qed.

(** ** Writing *)

Lemma trans_write_ok c l : bytes_ok l → produces (trans_write l) c l c tt.
Proof.
  intros Hl t p r Hp Hr. destruct (write_ok t p r l Hp Hl Hr) as (t' & E & ?).
  exists t'. unfold trans_write. rewrite E. done.
Qed.

Lemma writeByte_ok c z : writes (writeByte z) c [u8 z] c.
Proof.
  exists 1. split; [|done]. unfold writeByte. rewrite <- (app_nil_r [u8 z]).
  eapply produces_bind; [|apply produces_ret]. apply trans_write_ok.
  repeat constructor; apply u8_bound.
Qed.

Lemma writeVarint_ok room c n l :
  varint_loop room n = Ok l → bytes_ok l → produces (writeVarint room n) c l c (Z.of_nat (length l)).
Proof.
  intros E Hl. unfold writeVarint.
  eapply silent_produces; [by apply silent_result|]. rewrite <- (app_nil_r l) at 2.
  eapply produces_bind; [by apply trans_write_ok|]. apply produces_ret.
Qed.

Lemma writeVarint32_produces c n : 0 ≤ n < 2 ^ 32 →
  produces (writeVarint32 n) c (varint n) c (Z.of_nat (length (varint n))).
Proof.
  intros Hn. destruct (varint32_ok n Hn) as [E _].
  apply writeVarint_ok; [done|]. apply varint_ok. lia.
Qed.
Lemma writeVarint32_ok c n : 0 ≤ n < 2 ^ 32 → writes (writeVarint32 n) c (varint n) c.
Proof. intros. by apply writes_exact, writeVarint32_produces. Qed.

Lemma writeVarint64_ok c n : 0 ≤ n < 2 ^ 64 → writes (writeVarint64 n) c (varint n) c.
Proof.
  intros Hn. destruct (varint_ok n Hn) as (E & ? & _). by apply writes_exact, writeVarint_ok.
Qed.

Lemma writeI16_ok c z : writes (writeI16 z) c (enc (VI16 z)) c.
Proof. apply writeVarint32_ok, i32ToZigzag_bound. Qed.
Lemma writeI32_ok c z : writes (writeI32 z) c (enc (VI32 z)) c.
Proof. apply writeVarint32_ok, i32ToZigzag_bound. Qed.
Lemma writeI64_ok c z : writes (writeI64 z) c (enc (VI64 z)) c.
Proof. apply writeVarint64_ok, i64ToZigzag_bound. Qed.

Lemma writeDouble_ok c z : writes (writeDouble z) c (enc (VDouble z)) c.
Proof.
  exists 8. split; [|done]. unfold writeDouble. cbn [enc]. rewrite <- (app_nil_r (le_bytes 8 z)).
  eapply produces_bind; [|apply produces_ret]. apply trans_write_ok, le_bytes_ok.
Qed.

Lemma writeBinary_ok c s : wf_val (VString s) → writes (writeBinary s) c (enc (VString s)) c.
Proof.
  inversion_clear 1 as [| | | | | |? Hs Hl| | | |]. cbn [enc]. unfold enc_binary.
  set (n := Z.of_nat (length s)) in *.
  pose proof (length_varint n ltac:(lia)) as Hv.
  eexists. split.
  - unfold writeBinary. fold n. rewrite (proj2 (Z.ltb_ge kMaxU32 n)) by (unfold kMaxU32; lia).
    eapply produces_bind; [apply writeVarint32_produces; lia|]. cbv beta.
    rewrite (proj2 (Z.ltb_ge (kMaxU32 - _) n)) by (unfold kMaxU32; lia).
    rewrite <- (app_nil_r s) at 2. eapply produces_bind; [by apply trans_write_ok|].
    apply produces_ret.
  - f_equal. rewrite length_app. lia.
Qed.

Lemma getCompactType_ok c ty : In ty types →
  silent (lift (of_result (getCompactType ty)) : M Z) c c (ctype ty).
Proof. intros Ht. by apply silent_result, ttype_ctype. Qed.

(** The header, with an explicit compact type or the one of the field's type. *)
Lemma writeFieldBeginInternal_ok c ty id ovr ct :
  0 < ct < 13 → - 2 ^ 15 ≤ id < 2 ^ 15 →
  (ovr = -1 ∧ In ty types ∧ ct = ctype ty ∨ ovr = ct) →
  writes (writeFieldBeginInternal ty id ovr) c (enc_header (lastFieldId_ c) id ct) (set_last id c).
Proof.
  intros Hc Hid Ho. unfold writeFieldBeginInternal. eapply (writes_silent _ _ _ c ct).
  { destruct Ho as [(-> & Ht & ->)| ->]; [by apply getCompactType_ok|].
    rewrite (proj2 (Z.eqb_neq ct (-1))) by lia. auto with silent. }
  eapply writes_silent; [auto with silent|]. cbv beta. unfold enc_header.
  assert (∀ (m : M Z) l, writes m c l c →
    writes (wsize ← m; _ ← update (set_last id); mret wsize) c l (set_last id c)) as Hk.
  { intros m l (n & Hp & En). exists n. split; [|done]. rewrite <- (app_nil_r l).
    eapply produces_bind; [exact Hp|]. eapply silent_produces; [auto with silent|]. apply produces_ret. }
  destruct (_ && _) eqn:E; apply Hk.
  - apply andb_true_iff in E as [?%Z.ltb_lt ?%Z.leb_le].
    replace (16 * (id - lastFieldId_ c) + ct)
      with (u8 (i8 (Z.lor (Z.shiftl (id - lastFieldId_ c) 4) ct))); [apply writeByte_ok|].
    rewrite Z.lor_comm, lor_shiftl_add by lia. unfold i8, u8. div_lia.
  - replace ct with (u8 ct) at 2 by (apply u8_small; lia).
    change (u8 ct :: varint (i32ToZigzag id)) with ([u8 ct] ++ varint (i32ToZigzag id)).
    rewrite <- (app_nil_r (varint _)).
    eapply writes_total_cons; [apply writeByte_ok|].
    eapply writes_total_cons; [apply writeI16_ok|apply writes_total_nil].
Qed.

Lemma pop_field_ok c id st : lastField_ c = id :: st →
  silent (pop_field : M unit) c (set_stack st (set_last id c)) tt.
Proof. intros E t. unfold pop_field, mbind, state_bind, look. cbn. by rewrite E. Qed.

Lemma writeStructBegin_ok c name :
  writes (writeStructBegin name) c [] (set_last 0 (set_stack (lastFieldId_ c :: lastField_ c) c)).
Proof. eapply writes_silent; [auto with silent|apply writes_ret]. Qed.

Lemma writeStructEnd_ok c id st : lastField_ c = id :: st →
  writes writeStructEnd c [] (set_stack st (set_last id c)).
Proof.
  intros E. eapply (writes_silent _ _ _ (set_stack st (set_last id c)) tt); [|apply writes_ret].
  by apply pop_field_ok.
Qed.

Lemma writeFieldStop_ok c : writes writeFieldStop c [T_STOP] c.
Proof. apply (writeByte_ok c T_STOP). Qed.

Lemma writeListBegin_ok c et n : In et types → 0 ≤ n < 2 ^ 31 →
  writes (writeListBegin et n) c (enc_collection et n) c.
Proof.
  intros Ht Hn. destruct (ttype_ctype et Ht) as (_ & Hc & _).
  unfold writeListBegin, writeCollectionBegin. rewrite i32_small by lia.
  eapply writes_silent; [by apply getCompactType_ok|]. cbv beta. unfold enc_collection.
  destruct (Z.leb_spec n 14).
  - replace (16 * n + ctype et) with (u8 (i8 (Z.lor (Z.shiftl n 4) (ctype et))));
      [apply writeByte_ok|].
    rewrite Z.lor_comm, lor_shiftl_add by lia. unfold i8, u8. div_lia.
  - replace (240 + ctype et) with (u8 (i8 (Z.lor 240 (ctype et)))).
    + rewrite u32_small by lia.
      change (?x :: varint n) with ([x] ++ varint n). rewrite <- (app_nil_r (varint n)).
      eapply writes_total_cons; [apply writeByte_ok|].
      eapply writes_total_cons; [apply writeVarint32_ok; lia|apply writes_total_nil].
    + change 240 with (Z.shiftl 15 4) at 1. rewrite Z.lor_comm, lor_shiftl_add by lia.
      unfold i8, u8. div_lia.
Qed.

(** ** Reading *)

(** An object that reads without limits and has met no error. *)
Definition calm c : Prop :=
  error_ c = false ∧ string_limit_ c = 0 ∧ container_limit_ c = 0.

Lemma trans_readAll_ok c l : error_ c = false → 0 < Z.of_nat (length l) < 2 ^ 32 →
  consumes (trans_readAll (Z.of_nat (length l))) c l c l.
Proof.
  intros He Hl t rest r Hp. destruct (readAll_ok t l rest r Hp Hl) as (t' & E & Hp').
  exists t'. split; [|done]. unfold trans_readAll, mbind, state_bind, hasError. cbn.
  rewrite He, E. cbn. destruct l; [cbn in Hl; lia|done].
Qed.

(** When the bytes are not there, the error flag is set. *)
Lemma trans_readAll_short c l n t r :
  error_ c = false → represents t l r → Z.of_nat (length l) < n < 2 ^ 32 →
  ∃ t' l', trans_readAll n (t, c) = Done ((t', set_error c), []) ∧ represents t' l' r ∧
    (length l' ≤ length l)%nat.
Proof.
  intros He Hp Hl. destruct (readAll_short t l r n Hp Hl) as (t' & l' & E & Hp' & Hl').
  exists t', l'. split; [|done]. unfold trans_readAll, mbind, state_bind, hasError. cbn.
  by rewrite He, E.
Qed.

Lemma trans_read_ok c l : error_ c = false → 0 < Z.of_nat (length l) < 2 ^ 32 →
  consumes (trans_read (Z.of_nat (length l))) c l c (Some l).
Proof.
  intros He Hl. rewrite <- (app_nil_r l) at 2. eapply consumes_bind; [by apply trans_readAll_ok|].
  apply consumes_ret.
Qed.

Lemma readByte_ok c b : error_ c = false → is_byte b →
  consumes readByte c [b] c (Some (i8 b)).
Proof.
  intros He Hb. unfold readByte. change [b] with ([b] ++ []).
  eapply consumes_checked; [apply (trans_read_ok c [b]); [done|cbn; lia]|done|].
  apply consumes_ret.
Qed.

(** *** Variable-length integers: the fast and the slow path *)

Lemma varint_digit val x shift :
  0 ≤ shift ≤ 63 → 0 ≤ val < 2 ^ shift → 0 ≤ x < 128 →
  Z.lor val (u64 (Z.shiftl x shift)) = u64 (val + 2 ^ shift * x).
Proof.
  intros Hs Hv Hx. rewrite Z.shiftl_mul_pow2 by lia. unfold u64.
  replace (2 ^ 64) with (2 ^ shift * 2 ^ (64 - shift)) at 1
    by (rewrite <- Z.pow_add_r by lia; f_equal; lia).
  rewrite (Z.mul_comm x), Z.mul_mod_distr_l by (apply Z.pow_nonzero; lia).
  rewrite Z.mul_comm. rewrite <- Z.shiftl_mul_pow2, lor_shiftl_add by lia.
  replace (val + 2 ^ shift * x) with (x * 2 ^ shift + val) by lia.
  pose proof (Z.mod_pos_bound x (2 ^ (64 - shift)) ltac:(apply Z.pow_pos_nonneg; lia)).
  assert (2 ^ shift * 2 ^ (64 - shift) = 2 ^ 64) as E by (rewrite <- Z.pow_add_r by lia; f_equal; lia).
  apply (Z.mod_unique_pos _ _ (x / 2 ^ (64 - shift))).
  - nia.
  - pose proof (Z.div_mod x (2 ^ (64 - shift)) ltac:(apply Z.pow_nonzero; lia)). nia.
Qed.

Lemma varint_digit_bound val x shift :
  0 ≤ shift → 0 ≤ val < 2 ^ shift → 0 ≤ x < 128 →
  0 ≤ u64 (val + 2 ^ shift * x) < 2 ^ (shift + 7).
Proof.
  intros Hs Hv Hx. rewrite Z.pow_add_r by lia. change (2 ^ 7) with 128.
  pose proof (u64_bound (val + 2 ^ shift * x)).
  assert (u64 (val + 2 ^ shift * x) ≤ val + 2 ^ shift * x) by (apply Z.mod_le; nia).
  nia.
Qed.

Lemma land_byte b : is_byte b →
  Z.land b 127 = (if b <? 128 then b else b - 128) ∧ (Z.land b 128 =? 0) = (b <? 128).
Proof.
  intros Hb. unfold is_byte in Hb. split.
  - change 127 with (2 ^ 7 - 1). rewrite land_low by lia. change (2 ^ 7) with 128.
    destruct (Z.ltb_spec b 128); div_lia.
  - assert (forallb (λ b, Bool.eqb (Z.land b 128 =? 0) (b <? 128)) (seqZ 0 256) = true) as Hf
      by (by vm_compute).
    rewrite forallb_forall in Hf. apply Bool.eqb_prop, Hf, list_elem_of_In, elem_of_seqZ. lia.
Qed.

(** A number that was parsed is what remains of a non-negative sum. *)
Lemma borrowed_loop_ok turns : ∀ d rsize val shift,
  bytes_ok d → (turns ≤ length d)%nat → 0 ≤ shift → shift + 7 * Z.of_nat turns ≤ 70 →
  0 ≤ val < 2 ^ shift →
  borrowed_loop turns d rsize val shift =
  Ok (match varint_parse turns d with
      | Some (v, rest) =>
          Some (u64 (val + 2 ^ shift * v), rsize + Z.of_nat (length d) - Z.of_nat (length rest))
      | None => None
      end).
Proof.
  induction turns as [|turns IH]; intros d rsize val shift Hd Hl Hs Ht Hv; [done|].
  destruct d as [|b d]; [cbn in Hl; lia|]. apply Forall_cons_1 in Hd as [Hb Hd].
  cbn [length] in *. destruct (land_byte b Hb) as [E1 E2]. cbn [borrowed_loop varint_parse].
  rewrite E2, E1, varint_digit by (destruct (Z.ltb_spec b 128); unfold is_byte in *; lia).
  destruct (Z.ltb_spec b 128); [repeat f_equal; lia|].
  unfold is_byte in Hb. rewrite IH; try done; try lia; [|apply varint_digit_bound; lia].
  destruct (varint_parse turns d) as [[v rest]|]; [|done]. do 3 f_equal; [|lia].
  rewrite Z.pow_add_r by lia. change (2 ^ 7) with 128.
  destruct (decide (shift + 7 < 64)) as [Hsm|Hbig].
  - rewrite (u64_small (val + _)); [f_equal; lia|].
    pose proof (varint_digit_bound val (b - 128) shift). split; [nia|].
    assert (2 ^ shift * 128 ≤ 2 ^ 63); [|nia].
    change 128 with (2 ^ 7). rewrite <- Z.pow_add_r by lia. apply Z.pow_le_mono_r; lia.
  - unfold u64. rewrite Z.add_mod_idemp_l by lia. f_equal. lia.
Qed.

Lemma varint_parse_app turns : ∀ d e, (turns ≤ length d)%nat →
  varint_parse turns (d ++ e) =
  match varint_parse turns d with Some (v, rest) => Some (v, rest ++ e) | None => None end.
Proof.
  induction turns as [|turns IH]; intros [|b d] e Hl; try done; cbn in *; try lia.
  case_match; [done|]. rewrite IH by lia. by destruct (varint_parse turns d) as [[]|].
Qed.

Lemma varint_parse_length turns : ∀ l v rest, varint_parse turns l = Some (v, rest) →
  ∃ d, l = d ++ rest ∧ (0 < length d ≤ turns)%nat.
Proof.
  induction turns as [|turns IH]; intros [|b l] v rest E; try done. cbn in E.
  case_match; [injection E as _ <-; exists [b]; split; [done|cbn; lia]|].
  destruct (varint_parse turns l) as [[v' rest']|] eqn:Ep; [|done]. injection E as _ <-.
  destruct (IH l v' rest' Ep) as (d & -> & Hd). exists (b :: d). split; [done|cbn; lia].
Qed.

Lemma slow_loop_ok turns : ∀ c t l r val shift,
  error_ c = false → represents t l r → 0 ≤ shift → shift + 7 * Z.of_nat turns ≤ 70 →
  0 ≤ val < 2 ^ shift →
  match varint_parse turns l with
  | Some (v, rest) => ∃ t', slow_loop turns val shift (t, c) =
      Done ((t', c), Some (i64 (u64 (val + 2 ^ shift * v)))) ∧ represents t' rest r
  | None => ∃ t' l', slow_loop turns val shift (t, c) = Done ((t', set_error c), None) ∧
      represents t' l' r ∧ (length l' ≤ length l)%nat
  end.
Proof.
  induction turns as [|turns IH]; intros c t l r val shift He Hp Hs Ht Hv; [by exists t, l|].
  destruct l as [|b l].
  { destruct (trans_readAll_short c [] 1 t r He Hp) as (t' & l' & E & Hp' & Hl'); [cbn; lia|].
    exists t', l'. cbn [slow_loop]. by rewrite (bind_done _ _ _ _ _ E). }
  pose proof (represents_bytes _ _ _ Hp) as [Hb Hd]%Forall_cons_1.
  destruct (trans_readAll_ok c [b] He ltac:(cbn; lia) t l r Hp) as (t1 & E & H1).
  destruct (land_byte b Hb) as [E1 E2]. cbn [slow_loop varint_parse].
  rewrite (bind_done _ _ _ _ _ E). cbv beta iota.
  rewrite E2, E1, varint_digit by (destruct (Z.ltb_spec b 128); unfold is_byte in *; lia).
  destruct (Z.ltb_spec b 128); [by exists t1|]. unfold is_byte in Hb.
  specialize (IH c t1 l r (u64 (val + 2 ^ shift * (b - 128))) (shift + 7) He H1 ltac:(lia) ltac:(lia)
    (varint_digit_bound val (b - 128) shift Hs Hv ltac:(lia))).
  destruct (varint_parse turns l) as [[v rest]|].
  - destruct IH as (t' & -> & ?). exists t'. split; [|done]. do 4 f_equal.
    rewrite Z.pow_add_r by lia. change (2 ^ 7) with 128. unfold u64.
    rewrite Z.add_mod_idemp_l by lia. f_equal. lia.
  - destruct IH as (t' & l' & -> & ? & ?). exists t', l'. split; [done|]. split; [done|cbn; lia].
Qed.

Lemma i64_u64_any z : i64 (u64 z) = i64 z.
Proof. unfold i64, u64. rewrite Z.add_mod_idemp_l by lia. done. Qed.

(** Both paths read the base-128 number that the next ten bytes hold, or set the error
    flag if they hold none. *)
Lemma readVarint64_spec c t l r :
  error_ c = false → represents t l r →
  match varint_parse 10 l with
  | Some (v, rest) => ∃ t', readVarint64 (t, c) = Done ((t', c), Some (i64 v)) ∧
      represents t' rest r
  | None => ∃ t' l', readVarint64 (t, c) = Done ((t', set_error c), None) ∧
      represents t' l' r ∧ (length l' ≤ length l)%nat
  end.
Proof.
  intros He Hp. destruct (borrow_ok t l r kVarintSize Hp) as (b & t1 & Eb & H1 & Hd).
  { unfold kVarintSize. lia. }
  unfold readVarint64. rewrite (bind_done _ _ _ _ _ (silent_hasError c t)), He.
  rewrite (bind_done _ _ (t, c) (t1, c) b) by (by rewrite Eb).
  destruct b as [d|].
  - destruct (Hd d eq_refl) as (Hn & [e ->] & Hk). unfold kVarintSize in Hn.
    pose proof (represents_bytes _ _ _ H1) as Hdo. apply Forall_app in Hdo as [Hdo _].
    rewrite (bind_done _ _ _ _ _ (silent_result _ _ c
      (borrowed_loop_ok 10 d 0 0 0 Hdo ltac:(lia) ltac:(lia) ltac:(lia) ltac:(lia)) t1)).
    rewrite varint_parse_app by lia.
    destruct (varint_parse 10 d) as [[v rest]|] eqn:Ep.
    + apply varint_parse_length in Ep as (d' & -> & Hd').
      rewrite length_app in *. destruct (Hk (Z.of_nat (length d'))) as (t2 & E2 & H2); [lia|].
      exists t2. replace (0 + _ - _) with (Z.of_nat (length d')) by lia.
      rewrite (bind_done _ _ (t1, c) (t2, c) tt) by (by rewrite E2).
      rewrite Nat2Z.id, <- app_assoc, drop_app_length in H2. split; [|done].
      unfold mret, state_ret. rewrite Z.mul_1_l, Z.add_0_l. by rewrite i64_u64_any.
    + by exists t1, (d ++ e).
  - pose proof (slow_loop_ok 10 c t1 l r 0 0 He H1 ltac:(lia) ltac:(lia) ltac:(lia)) as Hs.
    destruct (varint_parse 10 l) as [[v rest]|]; [|done].
    destruct Hs as (t' & -> & ?). exists t'. split; [|done].
    by rewrite Z.mul_1_l, Z.add_0_l, i64_u64_any.
Qed.

(** *** The other readers *)

Lemma readVarint64_ok c n : error_ c = false → 0 ≤ n < 2 ^ 64 →
  consumes readVarint64 c (varint n) c (Some (i64 n)).
Proof.
  intros He Hn t rest r Hp. pose proof (readVarint64_spec c t _ r He Hp) as Hs.
  destruct (varint_ok n Hn) as (_ & _ & _ & Hv). rewrite Hv in Hs. exact Hs.
Qed.

Lemma u32_i32 n : 0 ≤ n < 2 ^ 32 → u32 (i32 n) = n.
Proof. intros. unfold u32, i32. div_lia. Qed.
Lemma u64_i64 n : 0 ≤ n < 2 ^ 64 → u64 (i64 n) = n.
Proof. intros. unfold u64, i64. div_lia. Qed.

Lemma readVarint32_ok c n : error_ c = false → 0 ≤ n < 2 ^ 32 →
  consumes readVarint32 c (varint n) c (Some (i32 n)).
Proof.
  intros He Hn. rewrite <- (app_nil_r (varint n)). unfold readVarint32.
  eapply consumes_bind; [apply readVarint64_ok; [done|lia]|]. cbn.
  replace (i64 n) with n by (unfold i64; div_lia). apply consumes_ret.
Qed.

Lemma readI32_ok c z : error_ c = false → - 2 ^ 31 ≤ z < 2 ^ 31 →
  consumes readI32 c (enc (VI32 z)) c (Some z).
Proof.
  intros He Hz. pose proof (i32ToZigzag_bound z). cbn [enc].
  rewrite <- (app_nil_r (varint _)). unfold readI32.
  eapply consumes_checked; [by apply readVarint32_ok|done|]. rewrite u32_i32, zigzag32 by lia.
  apply consumes_ret.
Qed.

Lemma readI16_ok c z : error_ c = false → - 2 ^ 15 ≤ z < 2 ^ 15 →
  consumes readI16 c (enc (VI16 z)) c (Some z).
Proof.
  intros He Hz. pose proof (i32ToZigzag_bound z). cbn [enc].
  rewrite <- (app_nil_r (varint _)). unfold readI16.
  eapply consumes_checked; [by apply readVarint32_ok|done|]. rewrite u32_i32, zigzag32 by lia.
  replace (i16 z) with z by (unfold i16; div_lia). apply consumes_ret.
Qed.

Lemma readI64_ok c z : error_ c = false → - 2 ^ 63 ≤ z < 2 ^ 63 →
  consumes readI64 c (enc (VI64 z)) c (Some z).
Proof.
  intros He Hz. pose proof (i64ToZigzag_bound z). cbn [enc].
  rewrite <- (app_nil_r (varint _)). unfold readI64.
  eapply consumes_checked; [by apply readVarint64_ok|done|]. rewrite u64_i64, zigzag64 by lia.
  apply consumes_ret.
Qed.

Lemma readDouble_ok c z : error_ c = false → 0 ≤ z < 2 ^ 64 →
  consumes readDouble c (enc (VDouble z)) c (Some z).
Proof.
  intros He Hz. cbn [enc]. rewrite <- (app_nil_r (le_bytes 8 z)). unfold readDouble.
  pose proof (trans_read_ok c (le_bytes 8 z) He) as Hr. rewrite length_le_bytes in Hr.
  eapply consumes_checked; [apply Hr; lia|done|].
  rewrite le_val_le_bytes_small by lia. apply consumes_ret.
Qed.

Lemma readBinary_ok c s : calm c → wf_val (VString s) →
  consumes readBinary c (enc (VString s)) c (Some s).
Proof.
  intros (He & Hs & _). inversion_clear 1 as [| | | | | |? Hok Hl| | | |].
  cbn [enc]. unfold enc_binary, readBinary.
  eapply consumes_checked; [apply readVarint32_ok; [done|lia]|done|]. rewrite i32_small by lia.
  destruct s as [|b s]; [apply consumes_ret|].
  rewrite (proj2 (Z.eqb_neq _ 0)), (proj2 (Z.ltb_ge _ 0)) by (cbn [length]; lia).
  eapply silent_consumes; [auto with silent|]. cbv beta. rewrite Hs. cbn [Z.ltb andb].
  eapply consumes_checked_ret; [apply trans_read_ok; [done|cbn [length] in *; lia]|done|done].
Qed.

Lemma getTType_ok c ct ty : ttype_of ct = Some ty → silent (getTType ct : M _) c c (Some ty).
Proof. intros E t. unfold getTType. by rewrite E. Qed.

Lemma silent_is_consumed {A} (m : M A) c c' a : silent m c c' a → consumes m c [] c' a.
Proof. intros Hm t rest r Hp. exists t. by rewrite Hm. Qed.

(** What the header of a field leaves in the object: a boolean is already read. *)
Definition after_header (v : tval) c : protocol :=
  match v with VBool b => set_bool (Some b) c | _ => c end.

Lemma header_bits d ct : 0 ≤ d < 16 → 0 ≤ ct < 16 →
  u8 (i8 (16 * d + ct)) = 16 * d + ct ∧
  Z.land (i8 (16 * d + ct)) 15 = ct ∧ Z.shiftr (Z.land (16 * d + ct) 240) 4 = d.
Proof.
  intros Hd Hc. split; [unfold u8, i8; div_lia|].
  change 15 with (2 ^ 4 - 1) at 1. rewrite land_low by lia.
  rewrite Z.shiftr_land. change (Z.shiftr 240 4) with (2 ^ 4 - 1).
  rewrite land_low, Z.shiftr_div_pow2 by lia. change (2 ^ 4) with 16. unfold i8. split; div_lia.
Qed.

Lemma readFieldHeader_ok c id v :
  error_ c = false → - 2 ^ 15 ≤ id < 2 ^ 15 →
  consumes readFieldHeader c (enc_header (lastFieldId_ c) id (field_ctype v))
    (set_last id (after_header v c)) (Some (ttype v, id)).
Proof.
  intros He Hid. destruct (field_ctype_ok v) as [Et Hc].
  assert (∃ d tail, enc_header (lastFieldId_ c) id (field_ctype v) =
      [16 * d + field_ctype v] ++ tail ++ [] ∧ 0 ≤ d < 16 ∧
      consumes (if d =? 0 then readI16 else mret (Some (i16 (lastFieldId_ c + d)))) c tail c (Some id))
    as (d & tail & -> & Hd & Hr).
  { unfold enc_header. destruct (_ && _) eqn:E.
    - apply andb_true_iff in E as [?%Z.ltb_lt ?%Z.leb_le].
      exists (id - lastFieldId_ c), []. split; [done|]. split; [lia|].
      rewrite (proj2 (Z.eqb_neq _ 0)) by lia.
      replace (i16 _) with id by (unfold i16; div_lia). apply consumes_ret.
    - exists 0, (varint (i32ToZigzag id)). rewrite app_nil_r. split; [done|]. split; [lia|].
      by apply readI16_ok. }
  destruct (header_bits d (field_ctype v)) as (E1 & E2 & E3); [lia|lia|].
  unfold readFieldHeader. eapply consumes_checked; [apply readByte_ok; [done|unfold is_byte; lia]|done|].
  cbv zeta. rewrite E1, E2, E3. rewrite (proj2 (Z.eqb_neq _ T_STOP)) by (unfold T_STOP; lia).
  eapply silent_consumes; [auto with silent|]. cbv beta.
  eapply consumes_checked; [exact Hr|done|]. change [] with (@nil Z ++ []) at 1.
  eapply consumes_checked; [apply silent_is_consumed, getTType_ok, Et|done|].
  eapply (silent_consumes _ _ c (after_header v c) tt).
  { intros t. by destruct v as [[]| | | | | | | | | |]. }
  eapply silent_consumes; [auto with silent|]. apply consumes_ret.
Qed.

Lemma readFieldBegin_ok c id v :
  error_ c = false → - 2 ^ 15 ≤ id < 2 ^ 15 →
  consumes readFieldBegin c (enc_header (lastFieldId_ c) id (field_ctype v))
    (set_last id (after_header v c)) (ttype v, id).
Proof. intros. by apply consumes_into, readFieldHeader_ok. Qed.

Lemma readFieldBegin_stop c : error_ c = false →
  consumes readFieldBegin c [T_STOP] c (T_STOP, 0).
Proof.
  intros He. apply consumes_into. change [T_STOP] with ([T_STOP] ++ []). unfold readFieldHeader.
  eapply consumes_checked; [apply readByte_ok; [done|unfold is_byte, T_STOP; lia]|done|].
  apply consumes_ret.
Qed.

Lemma readListBegin_ok c et n : calm c → In et types → 0 ≤ n < 2 ^ 31 →
  consumes readListBegin c (enc_collection et n) c (Some (et, n)).
Proof.
  intros (He & _ & Hl) Ht Hn. destruct (ttype_ctype et Ht) as (Et & Hc & _).
  assert (∃ d tail, enc_collection et n = [16 * d + ctype et] ++ tail ++ [] ∧ 0 ≤ d < 16 ∧
      consumes (if d =? 15 then readVarint32 else mret (Some d)) c tail c (Some n))
    as (d & tail & -> & Hd & Hr).
  { unfold enc_collection. destruct (Z.leb_spec n 14).
    - exists n, []. split; [done|]. split; [lia|]. rewrite (proj2 (Z.eqb_neq n 15)) by lia.
      apply consumes_ret.
    - exists 15, (varint n). rewrite app_nil_r. split; [done|]. split; [lia|].
      pose proof (readVarint32_ok c n He ltac:(lia)) as Hv. by rewrite i32_small in Hv by lia. }
  destruct (header_bits d (ctype et)) as (E1 & E2 & E3); [lia|lia|].
  assert (Z.land (Z.shiftr (16 * d + ctype et) 4) 15 = d) as E4 by (rewrite <- E3 at 2; by rewrite Z.shiftr_land).
  unfold readListBegin. eapply consumes_checked; [apply readByte_ok; [done|unfold is_byte; lia]|done|].
  cbv zeta. rewrite E1, E2, E4. eapply consumes_checked; [exact Hr|done|].
  eapply silent_consumes; [auto with silent|]. cbv beta.
  rewrite Hl, (proj2 (Z.ltb_ge n 0)) by lia. change [] with (@nil Z ++ []).
  eapply consumes_checked; [apply silent_is_consumed, getTType_ok, Et|done|].
  apply consumes_ret.
Qed.

Lemma readMapBegin_ok c kt vt n : calm c → In kt types → In vt types → 0 < n < 2 ^ 31 →
  consumes readMapBegin c (enc_map kt vt n) c (Some (kt, vt, n)).
Proof.
  intros (He & _ & Hl) Hk Hv Hn. destruct (ttype_ctype kt Hk) as (Ek & Hck & _).
  destruct (ttype_ctype vt Hv) as (Ev & Hcv & _).
  destruct (header_bits (ctype kt) (ctype vt)) as (E1 & E2 & E3); [lia|lia|].
  unfold enc_map, readMapBegin. rewrite (proj2 (Z.eqb_neq n 0)) by lia.
  eapply consumes_checked; [apply readVarint32_ok; [done|lia]|done|]. rewrite i32_small by lia.
  rewrite (proj2 (Z.eqb_neq n 0)) by lia. rewrite <- (app_nil_r [_]).
  eapply consumes_checked; [apply readByte_ok; [done|unfold is_byte; lia]|done|].
  eapply silent_consumes; [auto with silent|]. cbv beta.
  rewrite Hl, (proj2 (Z.ltb_ge n 0)), E1 by lia. change [] with (@nil Z ++ [] ++ []).
  replace (Z.shiftr (16 * ctype kt + ctype vt) 4) with (ctype kt)
    by (rewrite Z.shiftr_div_pow2 by lia; change (2 ^ 4) with 16; div_lia).
  eapply consumes_checked; [apply silent_is_consumed, getTType_ok, Ek|done|].
  replace (Z.land (16 * ctype kt + ctype vt) 15) with (ctype vt)
    by (change 15 with (2 ^ 4 - 1); rewrite land_low by lia; change (2 ^ 4) with 16; div_lia).
  eapply consumes_checked; [apply silent_is_consumed, getTType_ok, Ev|done|].
  apply consumes_ret.
Qed.

Lemma readMapBegin_empty c kt vt : calm c →
  consumes readMapBegin c (enc_map kt vt 0) c (Some (T_STOP, T_STOP, 0)).
Proof.
  intros (He & _ & Hl). change (enc_map kt vt 0) with (varint 0 ++ [] ++ []).
  unfold readMapBegin. eapply consumes_checked; [apply readVarint32_ok; [done|lia]|done|].
  eapply consumes_checked; [apply consumes_ret|done|].
  eapply silent_consumes; [auto with silent|]. cbv beta. rewrite Hl.
  change (consumes (keyType ←? getTType 0; valType ←? getTType 0;
    mret (Some (keyType, valType, 0))) c ([] ++ []) c (Some (T_STOP, T_STOP, 0))).
  eapply consumes_checked; [by apply silent_is_consumed, getTType_ok|done|].
  eapply consumes_checked_ret; [by apply silent_is_consumed, getTType_ok|done|done].
Qed.

Lemma readBool_field c b : consumes readBool (set_bool (Some b) c) [] (set_bool None c) (Some b).
Proof. intros t rest r Hp. by exists t. Qed.

Lemma readBool_element c b : error_ c = false → boolValue_ c = None →
  consumes readBool c (enc (VBool b)) c (Some b).
Proof.
  intros He Hb. unfold readBool. eapply silent_consumes; [auto with silent|]. cbv beta. rewrite Hb.
  cbn [enc]. rewrite <- (app_nil_r [_]).
  eapply consumes_checked; [apply readByte_ok; [done|destruct b; unfold is_byte, CT_BOOLEAN_TRUE, CT_BOOLEAN_FALSE; lia]|done|].
  replace (_ =? _) with b by (by destruct b). apply consumes_ret.
Qed.
End proofs.

#[export] Hint Resolve silent_hasError silent_look silent_update silent_setError silent_ret : silent.
