(* ===== verification/CompactSkip.v ===== *)
(** * CompactSkip: passing over what a reader does not know

    [skip] takes exactly the bytes of a value, whatever its type, so that a field
    that a reader does not know costs nothing but its bytes ([skip_ok]).  On bytes
    that are no value it ends as well, without a fault ([skip_safe]). *)

From S2P Require Import Prelude Bytes Outcome MemoryBuffer CompactProtocol CompactSpec.
From S2P Require Import CompactProofs.

Section skip.
Context {T : Type} `{TransportOk T}.
Implicit Types (t : T) (c : protocol) (l rest : bytes) (r : Z).

Abbreviation M := (CompactProtocol.M (T := T)).

(** ** Values are passed over *)

Definition skips (m : M unit) c (v : tval) : Prop :=
  consumes m (after_header v c) (enc_body v) c tt ∧ consumes m c (enc v) c tt.

Lemma set_bool_none c : boolValue_ c = None → set_bool None c = c.
Proof. destruct c. cbn. by intros ->. Qed.

Lemma set_last_same c : set_last (lastFieldId_ c) c = c.
Proof. by destruct c. Qed.

Lemma after_header_set_last v id c : set_last id (after_header v c) = after_header v (set_last id c).
Proof. by destruct v. Qed.

Lemma consumes_drop {A} (m : M (option A)) c l c' a :
  consumes m c l c' (Some a) → consumes (_ ← m; mret tt) c l c' tt.
Proof. intros Hm. rewrite <- (app_nil_r l). eapply consumes_bind; [exact Hm|apply consumes_ret]. Qed.

(** A value that is no boolean looks the same in a field and in a list. *)
Lemma skips_element m c v :
  (∀ b, v ≠ VBool b) → consumes m c (enc v) c tt → skips m c v.
Proof. intros Hv Hm. split; [|done]. destruct v; try done. by destruct (Hv b). Qed.

Lemma enc_body_length v : (length (enc_body v) ≤ length (enc v))%nat.
Proof. destruct v; cbn; lia. Qed.

Lemma skip_fields_ok sk fs : ∀ fuel c,
  calm c → (length (enc_fields (lastFieldId_ c) fs) ≤ fuel)%nat →
  Forall (λ f, - 2 ^ 15 ≤ f.1 < 2 ^ 15 ∧
    ∀ c, calm c → boolValue_ c = None → consumes (sk (ttype f.2)) (after_header f.2 c) (enc_body f.2) c tt) fs →
  boolValue_ c = None →
  ∃ id, consumes (skip_fields fuel sk) c (enc_fields (lastFieldId_ c) fs) (set_last id c) tt.
Proof.
  induction fs as [|[id v] fs IH]; intros fuel c Hc Hf Hok Hb; destruct Hc as (He & Hcl).
  - destruct fuel as [|fuel]; [cbn in Hf; lia|]. exists (lastFieldId_ c). rewrite set_last_same.
    cbn [skip_fields enc_fields]. eapply silent_consumes; [auto with silent|]. rewrite He.
    change [T_STOP] with ([T_STOP] ++ []).
    eapply consumes_bind; [by apply readFieldBegin_stop|]. cbv beta iota.
    eapply silent_consumes; [auto with silent|]. rewrite He. apply consumes_ret.
  - apply Forall_cons_1 in Hok as [[Hid Hsk] Hok]. cbn [fst snd] in *.
    cbn [enc_fields] in Hf |- *. rewrite length_app in Hf.
    assert (0 < length (enc_field (lastFieldId_ c) id v))%nat as Hpos.
    { unfold enc_field. rewrite length_app.
      pose proof (length_enc_header (lastFieldId_ c) id (field_ctype v)). lia. }
    destruct fuel as [|fuel]; [lia|].
    destruct (IH fuel (set_last id c)) as (id' & Hrest); [done|cbn; lia|done|done|].
    exists id'. unfold enc_field. rewrite <- !app_assoc. cbn [skip_fields].
    eapply silent_consumes; [auto with silent|]. rewrite He.
    eapply consumes_bind; [by apply readFieldBegin_ok|]. cbv beta iota.
    rewrite after_header_set_last.
    eapply silent_consumes; [auto with silent|].
    replace (error_ (after_header v (set_last id c))) with false by (by destruct v).
    rewrite (proj2 (Z.eqb_neq (ttype v) T_STOP)) by (by destruct v).
    eapply consumes_bind; [by apply Hsk|]. eapply silent_consumes; [auto with silent|].
    cbn [error_ set_last]. rewrite He.
    eapply (silent_consumes _ _ _ (set_last id c) tt); [by intros t|]. exact Hrest.
Qed.

Lemma skip_elements_ok (m : M unit) c (bs : list bytes) :
  error_ c = false → Forall (λ b, consumes m c b c tt) bs →
  consumes (skip_elements (length bs) m) c (concat bs) c tt.
Proof.
  intros He. induction 1 as [|b bs Hb _ IH]; cbn [length skip_elements concat]; [apply consumes_ret|].
  eapply silent_consumes; [auto with silent|]. rewrite He. by eapply consumes_bind.
Qed.

Lemma concat_length_le (b : bytes) bs : In b bs → (length b ≤ length (concat bs))%nat.
Proof.
  induction bs as [|x bs IH]; [done|]. cbn. rewrite length_app. intros [->|?]; [lia|].
  specialize (IH H1). lia.
Qed.

Lemma in_fmap {A B} (f : A → B) x (xs : list A) : In x xs → In (f x) (f <$> xs).
Proof. induction xs; cbn; [done|]. intros [->|?]; auto. Qed.

Lemma length_enc_collection et n : (0 < length (enc_collection et n))%nat.
Proof. unfold enc_collection. case_match; cbn; lia. Qed.

Lemma enc_field_length v fs id : In (id, v) fs → ∀ last,
  (length (enc v) < length (enc_fields last fs))%nat.
Proof.
  induction fs as [|[i x] fs IH]; [done|]. intros [E|Hin] last; cbn [enc_fields]; rewrite length_app.
  - injection E as -> ->. unfold enc_field. rewrite length_app.
    pose proof (length_enc_header last id (field_ctype v)).
    assert (0 < length (enc_fields id fs))%nat.
    { destruct fs as [|[j y] fs]; cbn [enc_fields]; [cbn; lia|]. unfold enc_field.
      rewrite !length_app. pose proof (length_enc_header id j (field_ctype y)). lia. }
    destruct v; cbn in *; lia.
  - specialize (IH Hin i). lia.
Qed.

(** A list or a set. *)
Lemma skip_collection_ok fuel c et xs :
  calm c → In et types → Z.of_nat (length xs) < 2 ^ 31 →
  Forall (λ x, ttype x = et ∧ consumes (skip fuel et) c (enc x) c tt) xs →
  consumes (h ← readListBegin;
    match h with
    | Some (elemType, size) => skip_elements (Z.to_nat size) (skip fuel elemType)
    | None => mret tt
    end) c (enc_collection et (Z.of_nat (length xs)) ++ enc_list xs) c tt.
Proof.
  intros Hc Het Hl Hxs. eapply consumes_bind; [apply readListBegin_ok; [done|done|lia]|].
  cbv beta iota. rewrite Nat2Z.id. unfold enc_list. rewrite <- (length_fmap enc xs).
  apply skip_elements_ok; [by destruct Hc|]. apply Forall_fmap. eapply Forall_impl; [|exact Hxs].
  by intros x [].
Qed.

Definition enc_pair (p : tval * tval) : bytes := enc p.1 ++ enc p.2.

Lemma enc_VMap kt vt kvs :
  enc (VMap kt vt kvs) = enc_map kt vt (Z.of_nat (length kvs)) ++ concat (enc_pair <$> kvs).
Proof.
  cbn [enc]. f_equal. induction kvs as [|[k x] kvs IH]; [done|]. cbn. unfold enc_pair at 1. cbn.
  by rewrite IH, app_assoc.
Qed.

Lemma skip_map_ok fuel c kt vt kvs :
  calm c → In kt types → In vt types → Z.of_nat (length kvs) < 2 ^ 31 →
  Forall (λ p, consumes (skip fuel kt) c (enc p.1) c tt ∧ consumes (skip fuel vt) c (enc p.2) c tt) kvs →
  consumes (skip (S fuel) T_MAP) c (enc (VMap kt vt kvs)) c tt.
Proof.
  intros Hc Hk Hv Hl Hkvs. rewrite enc_VMap. destruct kvs as [|p kvs].
  { eapply consumes_bind; [by apply (readMapBegin_empty c kt vt)|]. apply consumes_ret. }
  eapply consumes_bind; [apply readMapBegin_ok; [done|done|done|cbn [length] in *; lia]|].
  cbv beta iota. rewrite Nat2Z.id, <- (length_fmap enc_pair (p :: kvs)).
  destruct Hc as (He & Hcl). apply skip_elements_ok; [done|]. apply Forall_fmap.
  eapply Forall_impl; [|exact Hkvs]. intros [k x] [Hpk Hpx]. unfold enc_pair. cbn [fst snd compose] in *.
  eapply consumes_bind; [exact Hpk|]. eapply silent_consumes; [auto with silent|]. by rewrite He.
Qed.

Lemma skip_value v : wf_val v → ∀ fuel c,
  calm c → boolValue_ c = None → (length (enc v) < fuel)%nat → skips (skip fuel (ttype v)) c v.
Proof.
  pattern v. apply tval_nested_ind; clear v;
    [|intros fs IH|intros kt vt kvs IH|intros et xs IH|intros et xs IH].
  2-5: intros Hwf fuel c Hc Hb Hf; destruct fuel as [|fuel]; [lia|]; pose proof Hc as (He & _ & _).
  - intros v. destruct v; try done; intros Hwf fuel c Hc Hb Hf; (destruct fuel as [|fuel]; [lia|]);
      pose proof Hc as (He & _ & _).
    { split; [|by apply consumes_drop with b, readBool_element].
      pose proof (consumes_drop _ _ _ _ _ (readBool_field c b)) as Hr.
      by rewrite set_bool_none in Hr. }
    all: apply skips_element; [done|]; inversion_clear Hwf; eapply consumes_drop;
      first [by apply readI16_ok|by apply readI32_ok|by apply readI64_ok|by apply readDouble_ok
            |apply readBinary_ok; [done|by constructor]|idtac].
    cbn [enc]. replace z with (i8 (u8 z)) at 2 by (by apply i8_u8). apply readByte_ok; [done|apply u8_bound].
  - apply skips_element; [done|]. rewrite enc_struct in *. inversion_clear Hwf as [| | | | | | |? Hok| | |].
    destruct (skip_fields_ok (skip fuel) fs fuel (set_last 0 (set_stack (lastFieldId_ c :: lastField_ c) c)))
      as (id & Hfs); [done|cbn [lastFieldId_ set_last]; lia| |done|].
    { rewrite Forall_forall in *. intros [i x] Hin. destruct (Hok (i, x) Hin) as [Hi Hx].
      split; [done|]. intros c' Hc' Hb'. cbn in *.
      pose proof (enc_field_length x fs i Hin 0).
      apply (IH (i, x) Hin Hx); [done|done|cbn; lia]. }
    change (ttype (VStruct fs)) with T_STRUCT.
    eapply silent_consumes; [apply silent_update|].
    rewrite <- (app_nil_r (enc_fields 0 fs)).
    eapply consumes_bind; [exact Hfs|]. eapply silent_consumes; [auto with silent|].
    cbn [error_ set_last set_stack]. rewrite He.
    apply silent_is_consumed. intros t. by destruct c.
  - apply skips_element; [done|]. inversion_clear Hwf as [| | | | | | | |? ? ? Hk Hv Hl Hok| |].
    apply skip_map_ok; try done. rewrite enc_VMap, length_app in Hf.
    assert (0 < length (enc_map kt vt (Z.of_nat (length kvs))))%nat.
    { unfold enc_map. case_match; [cbn; lia|]. rewrite length_app. cbn. lia. }
    rewrite Forall_forall in *. intros p Hin.
    destruct (Hok p Hin) as [[<- Hwk] [<- Hwv]]. destruct (IH p Hin) as [IHk IHv].
    assert (length (enc_pair p) ≤ length (concat (enc_pair <$> kvs)))%nat as Hlen.
    { by apply concat_length_le, in_fmap. }
    unfold enc_pair in Hlen at 1. rewrite length_app in Hlen.
    split; [apply IHk|apply IHv]; try done; lia.
  - apply skips_element; [done|]. inversion_clear Hwf as [| | | | | | | | |? ? Het Hl Hok|].
    change (enc (VSet et xs)) with (enc (VList et xs)) in *. rewrite enc_VList, length_app in *.
    pose proof (length_enc_collection et (Z.of_nat (length xs))).
    apply (skip_collection_ok fuel c et xs); try done.
    rewrite Forall_forall in *. intros x Hin. destruct (Hok x Hin) as [<- Hwx]. split; [done|].
    assert (length (enc x) ≤ length (enc_list xs))%nat.
    { by apply concat_length_le, in_fmap. }
    apply (IH x Hin); [done|done|done|lia].
  - apply skips_element; [done|]. inversion_clear Hwf as [| | | | | | | | | |? ? Het Hl Hok].
    rewrite enc_VList, length_app in *.
    pose proof (length_enc_collection et (Z.of_nat (length xs))).
    apply (skip_collection_ok fuel c et xs); try done.
    rewrite Forall_forall in *. intros x Hin. destruct (Hok x Hin) as [<- Hwx]. split; [done|].
    assert (length (enc x) ≤ length (enc_list xs))%nat.
    { by apply concat_length_le, in_fmap. }
    apply (IH x Hin); [done|done|done|lia].
Qed.
End skip.
