(* ===== verification/CompactSafe.v ===== *)
(** * CompactSafe: reading bytes that nobody vouches for

    [safe N m Q]: with at most [N] bytes to read, whatever they are, [m] ends without
    a fault, never un-sets the error flag, leaves at least the stack of fields it found
    (and exactly that one unless there is an error), and [Q] holds of its result and the
    number of bytes it took. *)

From S2P Require Import Prelude Bytes Outcome MemoryBuffer CompactProtocol CompactSpec.
From S2P Require Import CompactProofs.

Create HintDb safe.

Section safe.
Context {T : Type} `{TransportOk T}.
Implicit Types (t : T) (c : protocol) (l : bytes) (r : Z) (N : nat).

Abbreviation M := (CompactProtocol.M (T := T)).

Record keeps c c' : Prop := mkKeeps {
  keeps_error : error_ c = true → error_ c' = true;
  keeps_deeper : suffix (lastField_ c) (lastField_ c');
  keeps_stack : error_ c' = false → lastField_ c' = lastField_ c;
}.

Definition safe {A} N (m : M A) (Q : A → nat → Prop) : Prop :=
  ∀ t c l r, represents t l r → (length l ≤ N)%nat →
  ∃ t' c' a l' n, m (t, c) = Done ((t', c'), a) ∧ represents t' l' r ∧
    length l = (n + length l')%nat ∧ keeps c c' ∧ Q a n.

Lemma keeps_refl c : keeps c c.
Proof. by split. Qed.

Lemma keeps_trans c1 c2 c3 : keeps c1 c2 → keeps c2 c3 → keeps c1 c3.
Proof.
  intros [E1 D1 S1] [E2 D2 S2]. split; [auto|by etrans|].
  intros E3. rewrite S2 by done. apply S1. destruct (error_ c2) eqn:E; [|done].
  by rewrite E2 in E3.
Qed.

Lemma safe_weaken {A} N N' (m : M A) (Q Q' : A → nat → Prop) :
  safe N m Q → (N' ≤ N)%nat → (∀ a n, Q a n → Q' a n) → safe N' m Q'.
Proof.
  intros Hm HN HQ t c l r Hr Hl. destruct (Hm t c l r Hr) as (t' & c' & a & l' & n & ?); [lia|].
  exists t', c', a, l', n. intuition.
Qed.

Lemma safe_ret {A} N (a : A) (Q : A → nat → Prop) : Q a 0%nat → safe N (mret a) Q.
Proof. intros HQ t c l r Hr _. exists t, c, a, l, 0%nat. repeat split; by try apply keeps_refl. Qed.

Lemma safe_bind {A B} N (m : M A) (k : A → M B) (Q : A → nat → Prop) (R : B → nat → Prop) :
  safe N m Q → (∀ a n, Q a n → (n ≤ N)%nat → safe (N - n) (k a) (λ b i, R b (n + i)%nat)) →
  safe N (m ≫= k) R.
Proof.
  intros Hm Hk t c l r Hr Hl.
  destruct (Hm t c l r Hr Hl) as (t1 & c1 & a & l1 & n & E1 & Hr1 & Hl1 & K1 & HQ).
  destruct (Hk a n HQ ltac:(lia) t1 c1 l1 r Hr1) as (t2 & c2 & b & l2 & i & E2 & Hr2 & Hl2 & K2 & HR);
    [lia|].
  exists t2, c2, b, l2, (n + i)%nat. rewrite (bind_done _ _ _ _ _ E1).
  repeat split; try done; try lia; by eapply keeps_trans.
Qed.

Definition anything {A} (a : A) (n : nat) : Prop := True.

(** When nothing need be said about the first part. *)
Lemma safe_seq {A B} N (m : M A) (k : A → M B) :
  safe N m anything → (∀ a, safe N (k a) anything) → safe N (m ≫= k) anything.
Proof.
  intros Hm Hk. eapply safe_bind; [exact Hm|]. intros a n _ _.
  eapply safe_weaken; [apply Hk|lia|done].
Qed.

Lemma safe_any {A} N (m : M A) Q : safe N m Q → safe N m anything.
Proof. intros Hm. by eapply safe_weaken. Qed.

Lemma safe_silent {A} N (m : M A) (f : protocol → protocol * A) (Q : A → nat → Prop) :
  (∀ c, silent m c (f c).1 (f c).2 ∧ keeps c (f c).1 ∧ Q (f c).2 0%nat) → safe N m Q.
Proof.
  intros Hf t c l r Hr _. destruct (Hf c) as (E & K & HQ).
  exists t, (f c).1, (f c).2, l, 0%nat. repeat split; by try apply K.
Qed.

Lemma safe_hasError N : safe N hasError anything.
Proof. apply (safe_silent _ _ (λ c, (c, error_ c))). intros c. split; [done|]. split; [apply keeps_refl|done]. Qed.
Lemma safe_look {A} N (f : protocol → A) : safe N (look f) anything.
Proof. apply (safe_silent _ _ (λ c, (c, f c))). intros c. split; [done|]. split; [apply keeps_refl|done]. Qed.
Lemma safe_update N f : (∀ c, keeps c (f c)) → safe N (update f) anything.
Proof. intros Hf. apply (safe_silent _ _ (λ c, (f c, tt))). intros c. by split. Qed.
Lemma keeps_set_error c : keeps c (set_error c).
Proof. by split. Qed.
Lemma safe_setError N : safe N setError anything.
Proof.
  apply (safe_silent _ _ (λ c, (set_error c, tt))). intros c. split; [done|].
  split; [apply keeps_set_error|done].
Qed.
Lemma safe_setError_none {A} N (Q : option A → nat → Prop) :
  Q None 0%nat → safe N (_ ← setError; mret None) Q.
Proof. intros HQ t c l r Hr _. exists t, (set_error c), None, l, 0%nat. repeat split; by try apply keeps_set_error. Qed.

(** A call, and [if (hasError()) return 0;]. *)
Lemma safe_checked {A B} N (m : M (option A)) (k : A → M (option B)) Q (R : option B → nat → Prop) :
  safe N m Q → (∀ n, (n ≤ N)%nat → R None n) →
  (∀ a n, Q (Some a) n → (n ≤ N)%nat → safe (N - n) (k a) (λ b i, R b (n + i)%nat)) →
  safe N (checked m k) R.
Proof.
  intros Hm Hnone Hk. eapply safe_bind; [exact Hm|]. intros o n HQ Hn.
  intros t c l r Hr Hl. destruct (error_ c) eqn:E.
  - exists t, c, None, l, 0%nat.
    split; [rewrite (bind_done _ _ _ _ _ (silent_hasError c t)); by rewrite E|].
    repeat split; try done. rewrite Nat.add_0_r. auto.
  - destruct o as [a|].
    + destruct (Hk a n HQ Hn t c l r Hr Hl) as (t' & c' & b & l' & i & Ek & ?).
      exists t', c', b, l', i. split; [|done].
      rewrite (bind_done _ _ _ _ _ (silent_hasError c t)). by rewrite E.
    + exists t, c, None, l, 0%nat.
      split; [rewrite (bind_done _ _ _ _ _ (silent_hasError c t)); by rewrite E|].
      repeat split; try done. rewrite Nat.add_0_r. auto.
Qed.

(** *** The readers *)

Lemma safe_readAll N n : 0 < n < 2 ^ 32 →
  safe N (trans_readAll n) (λ d i, d = [] ∨ Z.of_nat (length d) = n ∧ i = length d).
Proof.
  intros Hn t c l r Hr _. destruct (error_ c) eqn:Ee.
  { exists t, c, [], l, 0%nat. unfold trans_readAll.
    rewrite (bind_done _ _ _ _ _ (silent_hasError c t)), Ee.
    repeat split; try done. by left. }
  destruct (decide (n ≤ Z.of_nat (length l))) as [Hle|Hgt].
  - rewrite <- (take_drop (Z.to_nat n) l) in Hr.
    assert (Z.of_nat (length (take (Z.to_nat n) l)) = n) as El by (rewrite length_take; lia).
    destruct (trans_readAll_ok c (take (Z.to_nat n) l) Ee ltac:(lia) t _ r Hr) as (t' & E & Hr').
    rewrite El in E. eexists t', c, _, _, _. split; [exact E|]. split; [exact Hr'|].
    split; [|split; [apply keeps_refl|right; split; [exact El|reflexivity]]].
    rewrite length_take, length_drop. lia.
  - destruct (trans_readAll_short c l n t r Ee Hr) as (t' & l' & E & Hr' & Hl'); [lia|].
    exists t', (set_error c), [], l', (length l - length l')%nat.
    split; [done|]. split; [done|]. split; [lia|]. split; [apply keeps_set_error|by left].
Qed.

Lemma safe_trans_read N n : 0 < n < 2 ^ 32 → safe N (trans_read n) anything.
Proof. intros Hn. apply safe_seq; [by eapply safe_any, safe_readAll|]. intros d. by apply safe_ret. Qed.

(** A byte that was read is gone. *)
Lemma safe_readByte N : safe N readByte (λ o n, is_Some o → (1 ≤ n)%nat).
Proof.
  unfold readByte. unfold trans_read.
  eapply (safe_checked _ _ _ (λ o n, ∀ d, o = Some d → d ≠ [] → (1 ≤ n)%nat)).
  - eapply safe_bind; [apply (safe_readAll N 1); lia|]. cbn. intros d n Hd _.
    apply safe_ret. intros d' [= <-] Hne. destruct Hd as [->|[Hl ->]]; [done|lia].
  - intros n _ [? ?]. done.
  - cbn. intros d n Hd _. apply safe_ret. intros [z Hz]. rewrite Nat.add_0_r. apply (Hd d); [done|].
    by destruct d.
Qed.

Lemma i32_small_or z : - 2 ^ 31 ≤ i32 z < 2 ^ 31.
Proof. apply i32_bound. Qed.

Lemma safe_readVarint64 N : safe N readVarint64 (λ o n, is_Some o → (1 ≤ n)%nat).
Proof.
  intros t c l r Hr _. destruct (error_ c) eqn:Ee.
  { exists t, c, None, l, 0%nat. unfold readVarint64.
    rewrite (bind_done _ _ _ _ _ (silent_hasError c t)), Ee.
    repeat split; try done. }
  pose proof (readVarint64_spec c t l r Ee Hr) as Hs.
  destruct (varint_parse 10 l) as [[v rest]|] eqn:Ep.
  - destruct Hs as (t' & E & Hr'). apply varint_parse_length in Ep as (d & -> & Hd).
    eexists t', c, _, rest, (length d). split; [exact E|]. split; [done|].
    rewrite length_app. split; [lia|]. split; [apply keeps_refl|]. intros _. lia.
  - destruct Hs as (t' & l' & E & Hr' & Hl').
    eexists t', (set_error c), _, l', (length l - length l')%nat. split; [exact E|].
    split; [done|]. split; [lia|]. split; [apply keeps_set_error|]. by intros [? ?].
Qed.

Lemma safe_readVarint32 N :
  safe N readVarint32 (λ o n, (is_Some o → (1 ≤ n)%nat) ∧ ∀ z, o = Some z → - 2 ^ 31 ≤ z < 2 ^ 31).
Proof.
  eapply safe_bind; [apply safe_readVarint64|]. cbn. intros o n Hn _. apply safe_ret.
  rewrite Nat.add_0_r. split; [intros; apply Hn; destruct o; [eauto|by destruct H1]|].
  intros z Hz. destruct o; [|done].
  injection Hz as <-. apply i32_bound.
Qed.

Definition took {A} (o : option A) (n : nat) : Prop := is_Some o → (1 ≤ n)%nat.

Lemma took_none {A} n : took (@None A) n.
Proof. by intros [? ?]. Qed.

(** Anything behind a call that took a byte has taken a byte. *)
Lemma safe_took {A B} N (m : M (option A)) (k : A → M (option B)) (Q : option A → nat → Prop) :
  safe N m Q → (∀ o n, Q o n → took o n) → (∀ a n, Q (Some a) n → safe N (k a) anything) →
  safe N (checked m k) took.
Proof.
  intros Hm HQ Hk. eapply safe_checked; [exact Hm|intros; apply took_none|].
  intros a n Ha Hn. eapply safe_weaken; [by eapply Hk|lia|].
  cbn. intros b i _ _. specialize (HQ _ _ Ha ltac:(eauto)). lia.
Qed.

Lemma safe_checked_any {A B} N (m : M (option A)) (k : A → M (option B)) (Q : option A → nat → Prop) :
  safe N m Q → (∀ a n, Q (Some a) n → safe N (k a) anything) → safe N (checked m k) anything.
Proof.
  intros Hm Hk. eapply safe_checked; [exact Hm|done|].
  intros a n Ha Hn. eapply safe_weaken; [by eapply Hk|lia|done].
Qed.

Lemma safe_readI16 N : safe N readI16 took.
Proof.
  eapply safe_took; [apply safe_readVarint32|by intros o n []|].
  intros a n _. by apply safe_ret.
Qed.
Lemma safe_readI32 N : safe N readI32 took.
Proof.
  eapply safe_took; [apply safe_readVarint32|by intros o n []|].
  intros a n _. by apply safe_ret.
Qed.
Lemma safe_readI64 N : safe N readI64 took.
Proof.
  eapply safe_took; [apply safe_readVarint64|done|]. intros a n _. by apply safe_ret.
Qed.
Lemma safe_readDouble N : safe N readDouble anything.
Proof.
  eapply safe_checked_any; [apply safe_trans_read; lia|]. intros a n _. by apply safe_ret.
Qed.

Lemma safe_readBinary N : safe N readBinary took.
Proof.
  eapply safe_took; [apply safe_readVarint32|by intros o n []|].
  intros size n [_ Hsize]. specialize (Hsize size eq_refl).
  destruct (Z.eqb_spec size 0); [by apply safe_ret|].
  destruct (Z.ltb_spec size 0); [by apply safe_setError_none|].
  apply safe_seq; [apply safe_look|]. intros limit.
  case_match; [by apply safe_setError_none|].
  eapply safe_checked_any; [apply (safe_trans_read _ size); lia|]. intros a i _. by apply safe_ret.
Qed.

Lemma safe_getTType N type : safe N (getTType type) anything.
Proof.
  unfold getTType. destruct (ttype_of type); [by apply safe_ret|].
  apply safe_seq; [apply safe_setError|]. intros _. by apply safe_ret.
Qed.

Lemma safe_readBool N : safe N readBool anything.
Proof.
  apply safe_seq; [apply safe_look|]. intros [b|].
  - apply safe_seq; [apply safe_update|intros _; by apply safe_ret].
    intros c. by split.
  - eapply safe_checked_any; [apply safe_readByte|]. intros a n _. by apply safe_ret.
Qed.

(** A header that is not the end took a byte. *)
Lemma safe_readFieldBegin N :
  safe N readFieldBegin (λ p n, p.1 ≠ T_STOP → (1 ≤ n)%nat).
Proof.
  unfold readFieldBegin, into. eapply (safe_bind _ _ _ took).
  - eapply safe_took; [apply safe_readByte|done|]. intros byte n _.
    cbv zeta. case_match; [by apply safe_ret|]. apply safe_seq; [apply safe_look|]. intros last.
    eapply (safe_checked_any _ _ _ anything).
    { case_match; [eapply safe_any, safe_readI16|by apply safe_ret]. }
    intros id i _. eapply safe_checked_any; [apply safe_getTType|]. intros ty j _.
    apply safe_seq.
    { case_match; [|by apply safe_ret]. apply safe_update. intros c. by split. }
    intros _. apply safe_seq; [apply safe_update; intros c; by split|].
    intros _. by apply safe_ret.
  - cbn. intros o n Ho _. apply safe_ret. rewrite Nat.add_0_r. destruct o; [|done].
    intros _. apply Ho. eauto.
Qed.

Lemma safe_readListBegin N : safe N readListBegin took.
Proof.
  eapply safe_took; [apply safe_readByte|done|]. intros b n _. cbv zeta.
  eapply (safe_checked_any _ _ _ anything).
  { case_match; [eapply safe_any, safe_readVarint32|by apply safe_ret]. }
  intros size i _. apply safe_seq; [apply safe_look|]. intros limit.
  case_match; [by apply safe_setError_none|]. case_match; [by apply safe_setError_none|].
  eapply safe_checked_any; [apply safe_getTType|]. intros ty j _. by apply safe_ret.
Qed.

Lemma safe_readMapBegin N : safe N readMapBegin took.
Proof.
  eapply safe_took; [apply safe_readVarint32|by intros o n []|]. intros size n _.
  eapply (safe_checked_any _ _ _ anything).
  { case_match; [by apply safe_ret|eapply safe_any, safe_readByte]. }
  intros kv i _. apply safe_seq; [apply safe_look|]. intros limit.
  case_match; [by apply safe_setError_none|]. case_match; [by apply safe_setError_none|].
  eapply safe_checked_any; [apply safe_getTType|]. intros kt j _.
  eapply safe_checked_any; [apply safe_getTType|]. intros vt k _. by apply safe_ret.
Qed.

(** *** Structs and containers *)

(** What [readStructBegin] does to the object; what [readStructEnd] finds later. *)
Definition pushed c : protocol := set_last 0 (set_stack (lastFieldId_ c :: lastField_ c) c).

Lemma readStructBegin_ok c : silent (readStructBegin : M unit) c (pushed c) tt.
Proof. done. Qed.

Lemma keeps_pop c c' : keeps (pushed c) c' →
  ∃ c'', silent (readStructEnd : M unit) c' c'' tt ∧ keeps c c''.
Proof.
  intros [He [pre Hd] Hs]. cbn [lastField_ set_last set_stack pushed] in Hd, Hs.
  destruct (pre ++ lastFieldId_ c :: lastField_ c) as [|id st] eqn:Ep; [by destruct pre|].
  exists (set_stack st (set_last id c')). split; [by apply pop_field_ok|]. split.
  - exact He.
  - cbn. destruct pre as [|x pre]; injection Ep as <- <-; [done|].
    exists (pre ++ [lastFieldId_ c]). by rewrite <- app_assoc.
  - cbn. intros Hc'. rewrite (Hs Hc') in Hd. by injection Hd.
Qed.

(** [skip] returns without [readStructEnd] when there is an error. *)
Lemma safe_skipStruct N (m : M unit) :
  safe N m anything →
  safe N (_ ← readStructBegin; _ ← m; e ← hasError; if e : bool then mret tt else readStructEnd) anything.
Proof.
  intros Hm t c l r Hr Hl.
  destruct (Hm t (pushed c) l r Hr Hl) as (t' & c' & a & l' & n & E & Hr' & Hl' & K & _).
  destruct (error_ c') eqn:Ee; [|destruct (keeps_pop c c' K) as (c'' & Ep & K'')].
  - exists t', c', tt, l', n. destruct K as [He Hd Hs].
    split; [|split; [done|split; [done|split; [split|done]]]].
    + rewrite (bind_done _ _ _ _ _ (readStructBegin_ok c t)).
      rewrite (bind_done _ _ _ _ _ E), (bind_done _ _ _ _ _ (silent_hasError c' t')).
      by rewrite Ee.
    + done.
    + etrans; [|exact Hd]. by exists [lastFieldId_ c].
    + by rewrite Ee.
  - exists t', c'', tt, l', n. split; [|done].
    rewrite (bind_done _ _ _ _ _ (readStructBegin_ok c t)).
    rewrite (bind_done _ _ _ _ _ E), (bind_done _ _ _ _ _ (silent_hasError c' t')).
    rewrite Ee. apply Ep.
Qed.

Lemma safe_check N (k : M unit) :
  safe N k anything → safe N (e ← hasError; if e : bool then mret tt else k) anything.
Proof. intros Hk. apply safe_seq; [apply safe_hasError|]. intros []; [by apply safe_ret|done]. Qed.

Lemma safe_skip_elements N (m : M unit) size :
  safe N m anything → safe N (skip_elements size m) anything.
Proof.
  intros Hm. induction size as [|size IH]; cbn [skip_elements]; [by apply safe_ret|].
  apply safe_check. by apply safe_seq.
Qed.

Lemma safe_skip_fields fuel : ∀ N sk, (N < fuel)%nat →
  (∀ ty i, (i < N)%nat → safe i (sk ty) anything) → safe N (skip_fields fuel sk) anything.
Proof.
  induction fuel as [|fuel IH]; intros N sk Hf Hsk; [lia|]. cbn [skip_fields]. apply safe_check.
  eapply safe_bind; [apply safe_readFieldBegin|]. intros [ftype id] n Hn HnN. cbn [fst] in Hn.
  eapply (safe_weaken _ _ _ anything); [|reflexivity|done]. apply safe_check.
  destruct (Z.eqb_spec ftype T_STOP) as [|Hne]; [by apply safe_ret|]. specialize (Hn Hne).
  apply safe_seq; [apply Hsk; lia|]. intros _. apply safe_check.
  apply safe_seq; [by apply safe_ret|]. intros _. apply IH; [lia|].
  intros ty i Hi. apply Hsk. lia.
Qed.

(** Whatever the bytes and the type, and however deep the input is nested, [skip]
    ends without a fault: fuel for two calls more than there are bytes is enough. *)
Lemma safe_skip fuel : ∀ N type, (N + 2 ≤ fuel)%nat → safe N (skip fuel type) anything.
Proof.
  induction fuel as [|fuel IH]; intros N type Hf; [lia|]. cbn [skip].
  assert (∀ (m : M (option Z)) Q, safe N m Q → safe N (_ ← m; mret tt) anything) as Hdrop.
  { intros m Q Hm. apply safe_seq; [by eapply safe_any|]. intros _. by apply safe_ret. }
  case_match; [apply safe_seq; [apply safe_readBool|intros _; by apply safe_ret]|].
  case_match; [eapply Hdrop, safe_readByte|]. case_match; [eapply Hdrop, safe_readI16|].
  case_match; [eapply Hdrop, safe_readI32|]. case_match; [eapply Hdrop, safe_readI64|].
  case_match; [eapply Hdrop, safe_readDouble|].
  case_match; [apply safe_seq; [eapply safe_any, safe_readBinary|intros _; by apply safe_ret]|].
  case_match.
  { apply safe_skipStruct, safe_skip_fields; [lia|]. intros ty i Hi. apply IH. lia. }
  case_match.
  { eapply safe_bind; [apply safe_readMapBegin|]. intros [[[kt vt] size]|] n Hn HnN;
      (eapply (safe_weaken _ _ _ anything); [|reflexivity|done]); [|by apply safe_ret].
    specialize (Hn ltac:(eauto)). apply safe_skip_elements, safe_seq; [apply IH; lia|].
    intros _. apply safe_check, IH. lia. }
  case_match; [|by apply safe_ret].
  eapply safe_bind; [apply safe_readListBegin|]. intros [[et size]|] n Hn HnN;
    (eapply (safe_weaken _ _ _ anything); [|reflexivity|done]); [|by apply safe_ret].
  specialize (Hn ltac:(eauto)). apply safe_skip_elements, IH. lia.
Qed.
End safe.
