(* ===== verification/ThriftStruct.v ===== *)
(** * ThriftStruct: the code that the thrift compiler writes for a struct

    The shape that all classes of thrift/gen-cpp/report_item_types.cpp share: the loop
    over the fields of [read], the calls of [write], lists.  A [field] is a member
    together with its bit in [__isset].

    The second half is the reference: a class is a list of fields, each with an
    identifier and a [kind] of value ([schema]); it denotes a value of CompactSpec
    ([to_fields]); reading is setting the known fields one after the other
    ([of_fields]).  What a class writes ([out_fields]) is described on its own: the
    code of one class does not write what it denotes.  [KindOk] is what the type of a
    member promises to the classes that contain it. *)

From stdpp Require Import strings.
From S2P Require Import Prelude Bytes Outcome MemoryBuffer CompactProtocol CompactSpec.
From S2P Require Import CompactProofs CompactSkip CompactSafe.

#[local] Open Scope Z_scope.

(** ** The code *)

Record field (A : Type) := mkField { val : A; isset : bool }.
Arguments mkField {A} _ _.
Arguments val {A} _.
Arguments isset {A} _.

(** A member that the constructor initialises. *)
Definition unset {A} (a : A) : field A := mkField a false.

(** [if (__isset.x != rhs.__isset.x) return false;] *)
Definition isset_eqb {A} (f g : field A) : bool :=
  if negb (Bool.eqb (isset f) (isset g)) then false else true.
(** [if (__isset.x && !(x == rhs.x)) return false;] *)
Definition val_eqb {A} (eqb : A → A → bool) (f g : field A) : bool :=
  if isset f && negb (eqb (val f) (val g)) then false else true.
(** One after the other, and [if (!(x == rhs.x)) return false;] for a required member. *)
Definition field_eqb {A} (eqb : A → A → bool) (f g : field A) : bool :=
  if isset_eqb f g then val_eqb eqb f g else false.
Definition required_eqb {A} (eqb : A → A → bool) (a b : A) : bool :=
  if negb (eqb a b) then false else true.
(** The tests of [operator==]: it returns false at the first that fails. *)
Definition all (tests : list bool) : bool := forallb id tests.

Definition bytes_eqb (a b : bytes) : bool := bool_decide (a = b).

(** [operator==] of vectors. *)
Fixpoint list_eqb {A} (eqb : A → A → bool) (a b : list A) : bool :=
  match a, b with
  | [], [] => true
  | x :: a, y :: b => eqb x y && list_eqb eqb a b
  | _, _ => false
  end.

(** [switch (x)], every case of which ends in [break]. *)
Fixpoint switch {A} (x : Z) (cases : list (Z * A)) (otherwise : A) : A :=
  match cases with
  | [] => otherwise
  | (k, a) :: cases => if x =? k then a else switch x cases otherwise
  end.

Section code.
Context {T : Type} `{Transport T}.

Definition when (b : bool) (calls : list (M Z)) : M (T := T) Z :=
  if b then total calls else mret 0.

(** [xfer += iprot->skip(ftype);] *)
Definition skip_as {X} (fuel : nat) (ftype : TType) (v : X) : M (T := T) X :=
  _ ← skip fuel ftype; mret v.

(** [while (true)]: a field header, its case, [readFieldEnd]. *)
Fixpoint read_fields {X} (fuel : nat) (cases : Z → TType → X → M (T := T) X) (v : X) : M X :=
  match fuel with
  | O => no_fuel
  | S fuel =>
      '(ftype, fid) ← readFieldBegin;
      if ftype =? T_STOP then mret v else
      v ← cases fid ftype v;
      _ ← readFieldEnd;
      read_fields fuel cases v
  end.

Definition read_struct {X} (fuel : nat) (cases : Z → TType → X → M (T := T) X) (v : X) : M X :=
  _ ← readStructBegin;
  v ← read_fields fuel cases v;
  _ ← readStructEnd;
  mret v.

(** The elements of a vector that was just resized. *)
Fixpoint read_elements {A} (size : nat) (read : M (T := T) A) : M (list A) :=
  match size with
  | O => mret []
  | S size => x ← read; l ← read_elements size read; mret (x :: l)
  end.

(** [clear], [readListBegin(_etype, _size)], [resize(_size)] and the loop: after an error
    [_size] was never written. *)
Definition read_list {A} (make : A) (read : A → M (T := T) A) : M (list A) :=
  h ← readListBegin;
  match h with
  | None => fail UninitRead
  | Some (_, size) =>
      l ← read_elements (Z.to_nat size) (read make);
      _ ← readListEnd;
      mret l
  end.

Definition write_list {A} (elemType : TType) (write : A → M (T := T) Z) (l : list A) : M Z :=
  total (writeListBegin elemType (u32 (Z.of_nat (length l))) :: (write <$> l) ++ [writeListEnd]).

Definition write_struct (name : string) (fields : list (M Z)) : M (T := T) Z :=
  _ ← incrementRecursionDepth;
  xfer ← total (writeStructBegin name :: fields ++ [writeFieldStop; writeStructEnd]);
  _ ← decrementRecursionDepth;
  mret xfer.
End code.

(** ** The reference *)

(** One type of members: its wire type, the value a member denotes and the one it is
    written as, and how a value that is read changes it.  [k_faithful]: the member is
    written as what it denotes. *)
Record kind (A : Type) := mkKind {
  k_type : TType;
  k_default : A;
  k_den : A → tval;
  k_enc : A → tval;
  k_upd : tval → A → A;
  k_acc : tval → Prop;
  k_valid : A → Prop;
  k_faithful : A → Prop;
  k_eqb : A → A → bool;
  k_height : nat;
}.
Arguments k_type {A} _.
Arguments k_default {A} _.
Arguments k_den {A} _ _.
Arguments k_enc {A} _ _.
Arguments k_upd {A} _ _ _.
Arguments k_acc {A} _ _.
Arguments k_valid {A} _ _.
Arguments k_faithful {A} _ _.
Arguments k_eqb {A} _ _ _.
Arguments k_height {A} _.

Record fspec (X : Type) := mkF {
  f_A : Type;
  f_id : Z;
  f_name : string;
  f_kind : kind f_A;
  f_get : X → field f_A;
  f_set : f_A → X → X;
}.
Arguments mkF {X} _ _ _ _ _ _.
Arguments f_A {X} _.
Arguments f_id {X} _.
Arguments f_name {X} _.
Arguments f_kind {X} _.
Arguments f_get {X} _ _.
Arguments f_set {X} _ _ _.

Section schema.
Context {X : Type} (schema : list (fspec X)).

Definition field_val (v : X) (f : fspec X) : option (Z * tval) :=
  if isset (f_get f v) then Some (f_id f, k_den (f_kind f) (val (f_get f v))) else None.
Definition to_fields (v : X) : list (Z * tval) := omap (field_val v) schema.

Definition field_out (v : X) (f : fspec X) : option (Z * tval) :=
  if isset (f_get f v) then Some (f_id f, k_enc (f_kind f) (val (f_get f v))) else None.
Definition out_fields (v : X) : list (Z * tval) := omap (field_out v) schema.

Definition find_field (id : Z) : option (fspec X) := List.find (λ f, id =? f_id f) schema.

(** The field is known and of the type that is expected. *)
Definition known (id : Z) (x : tval) : option (fspec X) :=
  match find_field id with
  | Some f => if ttype x =? k_type (f_kind f) then Some f else None
  | None => None
  end.

Definition put_field (v : X) (p : Z * tval) : X :=
  match known p.1 p.2 with
  | Some f => f_set f (k_upd (f_kind f) p.2 (val (f_get f v))) v
  | None => v
  end.
Definition of_fields (fs : list (Z * tval)) (v : X) : X := foldl put_field v fs.

(** What a reader can take: the elements of a known list have the expected type. *)
Definition acc_fields (fs : list (Z * tval)) : Prop :=
  Forall (λ p, ∀ f, known p.1 p.2 = Some f → k_acc (f_kind f) p.2) fs.

Definition valid (v : X) : Prop :=
  Forall (λ f, isset (f_get f v) = true → k_valid (f_kind f) (val (f_get f v))) schema.

Definition faithful (v : X) : Prop :=
  Forall (λ f, isset (f_get f v) = true → k_faithful (f_kind f) (val (f_get f v))) schema.

Definition schema_eqb (v w : X) : bool :=
  forallb (λ f, field_eqb (k_eqb (f_kind f)) (f_get f v) (f_get f w)) schema.

Definition height : nat := S (foldr (λ f n, Nat.max (k_height (f_kind f)) n) 0%nat schema).
End schema.

(** *** What is promised *)

Class KindOk {A} (k : kind A) : Prop := {
  k_types : In (k_type k) types;
  k_ttype : ∀ a, ttype (k_enc k a) = k_type k ∧ ttype (k_den k a) = k_type k;
  k_wf : ∀ a, k_valid k a → wf_val (k_enc k a);
  k_acceptable : ∀ a, k_valid k a → k_acc k (k_enc k a);
  k_written : ∀ a, k_faithful k a → k_enc k a = k_den k a;
  k_round : ∀ a, k_faithful k a → k_den k (k_upd k (k_den k a) (k_default k)) = k_den k a;
  k_eqb_spec : ∀ a b, k_eqb k a b = true ↔ k_den k a = k_den k b;
}.

(** One field, its setter and the others. *)
Definition independent {X} (f g : fspec X) : Prop :=
  (∀ a v, f_get f (f_set g a v) = f_get f v) ∧ (∀ a v, f_get g (f_set f a v) = f_get g v).

Class SchemaOk {X} (schema : list (fspec X)) (default : X) : Prop := {
  s_ids : NoDup (f_id <$> schema);
  s_range : Forall (λ f, - 2 ^ 15 ≤ f_id f < 2 ^ 15) schema;
  s_kinds : Forall (λ f, KindOk (f_kind f)) schema;
  s_set : Forall (λ f, ∀ a v, f_get f (f_set f a v) = mkField a true) schema;
  s_others : ForallOrdPairs independent schema;
  s_default : Forall (λ f, val (f_get f default) = k_default (f_kind f) ∧
    (isset (f_get f default) = true → ∀ v, isset (f_get f v) = true)) schema;
}.

(** What the calls of [write] write; several may use the same number. *)
Class WrittenOk {X} (written : list (fspec X)) : Prop := {
  w_range : Forall (λ f, - 2 ^ 15 ≤ f_id f < 2 ^ 15) written;
  w_kinds : Forall (λ f, KindOk (f_kind f)) written;
}.

(** The kind of a member that is a struct. *)
Definition KStruct {X} (schema written : list (fspec X)) (default : X) (eqb : X → X → bool) : kind X := {|
  k_type := T_STRUCT;
  k_default := default;
  k_den v := VStruct (to_fields schema v);
  k_enc v := VStruct (out_fields written v);
  k_upd x v := match x with VStruct fs => of_fields schema fs v | _ => v end;
  k_acc x := match x with VStruct fs => acc_fields schema fs | _ => False end;
  k_valid v := valid written v ∧ acc_fields schema (out_fields written v);
  k_faithful v := out_fields written v = to_fields schema v ∧ faithful schema v;
  k_eqb := eqb;
  k_height := height written;
|}.

Definition in_range (w : Z) (z : Z) : Prop := - 2 ^ w ≤ z < 2 ^ w.
Definition short_string (s : bytes) : Prop := bytes_ok s ∧ Z.of_nat (length s) < 2 ^ 31.

(** A scalar is written as what it denotes. *)
Definition KFlat {A} (ty : TType) (default : A) (C : A → tval) (upd : tval → A → A)
    (valid : A → Prop) (eqb : A → A → bool) : kind A :=
  mkKind A ty default C C upd (λ _, True) valid (λ _, True) eqb 0.

Definition KBool : kind bool :=
  KFlat T_BOOL false VBool (λ x a, match x with VBool b => b | _ => a end) (λ _, True) Bool.eqb.
Definition KI16 : kind Z :=
  KFlat T_I16 0 VI16 (λ x a, match x with VI16 z => z | _ => a end) (in_range 15) Z.eqb.
Definition KI32 : kind Z :=
  KFlat T_I32 0 VI32 (λ x a, match x with VI32 z => z | _ => a end) (in_range 31) Z.eqb.
Definition KI64 : kind Z :=
  KFlat T_I64 0 VI64 (λ x a, match x with VI64 z => z | _ => a end) (in_range 63) Z.eqb.
Definition KString : kind bytes :=
  KFlat T_STRING [] VString (λ x a, match x with VString s => s | _ => a end) short_string bytes_eqb.

(** A vector: reading replaces it by new elements. *)
Definition KList {A} (k : kind A) : kind (list A) := {|
  k_type := T_LIST;
  k_default := [];
  k_den l := VList (k_type k) (k_den k <$> l);
  k_enc l := VList (k_type k) (k_enc k <$> l);
  k_upd x a := match x with VList _ xs => (λ x, k_upd k x (k_default k)) <$> xs | _ => a end;
  k_acc x := match x with VList et xs => xs = [] ∨ et = k_type k ∧ Forall (k_acc k) xs | _ => False end;
  k_valid l := Z.of_nat (length l) < 2 ^ 31 ∧ Forall (k_valid k) l;
  k_faithful := Forall (k_faithful k);
  k_eqb := list_eqb (k_eqb k);
  k_height := k_height k;
|}.
