(* ===== verification/ThriftStructProofs.v ===== *)
(** * ThriftStructProofs: what holds of every struct

    A class that is given by a list of independent fields is one more kind of member
    ([KStruct_ok]); the generic reader and writer of its fields read and write the
    value it denotes, over any transport. *)

From stdpp Require Import strings.
From S2P Require Import Prelude Bytes Outcome MemoryBuffer CompactProtocol CompactSpec.
From S2P Require Import CompactProofs CompactSkip CompactSafe ThriftStruct.

#[local] Open Scope Z_scope.

(** ** Kinds *)

Lemma KFlat_ok {A} ty default (C : A → tval) upd valid eqb :
  In ty types → (∀ a, ttype (C a) = ty) → (∀ a, valid a → wf_val (C a)) →
  (∀ a, C (upd (C a) default) = C a) → (∀ a b, eqb a b = true ↔ C a = C b) →
  KindOk (KFlat ty default C upd valid eqb).
Proof. intros. by split; cbn. Qed.

Lemma zkind_eqb (C : Z → tval) (a b : Z) : (∀ a b, C a = C b → a = b) → (a =? b) = true ↔ C a = C b.
Proof. intros Hinj. rewrite Z.eqb_eq. split; [by intros ->|apply Hinj]. Qed.

#[export] Instance KBool_ok : KindOk KBool.
Proof.
  apply KFlat_ok; [by cbn; tauto|done|by constructor|done|].
  intros a b. rewrite Bool.eqb_true_iff. split; [by intros ->|by intros [=]].
Qed.
#[export] Instance KI16_ok : KindOk KI16.
Proof.
  apply KFlat_ok; [by cbn; tauto|done|by constructor|done|].
  intros a b. apply zkind_eqb. by intros ?? [=].
Qed.
#[export] Instance KI32_ok : KindOk KI32.
Proof.
  apply KFlat_ok; [by cbn; tauto|done|by constructor|done|].
  intros a b. apply zkind_eqb. by intros ?? [=].
Qed.
#[export] Instance KI64_ok : KindOk KI64.
Proof.
  apply KFlat_ok; [by cbn; tauto|done|by constructor|done|].
  intros a b. apply zkind_eqb. by intros ?? [=].
Qed.
#[export] Instance KString_ok : KindOk KString.
Proof.
  apply KFlat_ok; [by cbn; tauto|done|by intros a []; constructor|done|].
  intros a b. unfold bytes_eqb. rewrite bool_decide_eq_true. split; [by intros ->|by intros [=]].
Qed.

#[export] Instance KList_ok {A} (k : kind A) : KindOk k → KindOk (KList k).
Proof.
  intros Hk. split; cbn; [tauto|done| | | | |].
  - intros l [Hl Hv]. constructor; [apply k_types|by rewrite length_fmap|].
    apply Forall_fmap. eapply Forall_impl; [|exact Hv]. intros a Ha. cbn.
    split; [apply k_ttype|by apply k_wf].
  - intros l [_ Hv]. right. split; [done|]. apply Forall_fmap.
    eapply Forall_impl; [|exact Hv]. apply k_acceptable.
  - intros l Hf. f_equal. induction Hf as [|a l Ha _ IH]; [done|]. cbn. by rewrite IH, k_written.
  - intros l Hf. f_equal. induction Hf as [|a l Ha _ IH]; [done|]. cbn. rewrite IH.
    f_equal. by apply k_round.
  - intros a b. revert b. induction a as [|x a IH]; intros [|y b]; cbn; try done.
    rewrite andb_true_iff, k_eqb_spec, IH. split.
    + intros [E1 [=E2]]. by rewrite E1, E2.
    + intros [= E1 E2]. by rewrite E1, E2.
Qed.

(** ** Structs *)

Section schema.
Context {X : Type} (schema : list (fspec X)) (default : X) {Hs : SchemaOk schema default}.
Implicit Types (f g : fspec X) (v w : X).

Lemma schema_in_kind f : In f schema → KindOk (f_kind f).
Proof. intros. pose proof s_kinds as Hk. rewrite Forall_forall in Hk. by apply Hk. Qed.

Lemma nodup_inj (l : list (fspec X)) f g :
  NoDup (f_id <$> l) → In f l → In g l → f_id f = f_id g → f = g.
Proof.
  induction l as [|h l IH]; [done|]. cbn. intros [Hn Hd]%list.NoDup_cons [->|Hf] [->|Hg] E; try done.
  - destruct Hn. rewrite E. by apply list_elem_of_fmap_2, list_elem_of_In.
  - destruct Hn. rewrite <- E. by apply list_elem_of_fmap_2, list_elem_of_In.
  - by apply IH.
Qed.

Lemma find_in f : In f schema → find_field schema (f_id f) = Some f.
Proof.
  intros Hf. pose proof s_ids as Hn. unfold find_field.
  destruct (List.find (λ g, f_id f =? f_id g) schema) as [g|] eqn:E.
  - apply find_some in E as [Hg Ei%Z.eqb_eq]. f_equal. symmetry. by eapply nodup_inj.
  - exfalso. by apply find_none with (x := f) in E; [apply Z.eqb_neq in E|].
Qed.

Lemma known_in id x f : known schema id x = Some f →
  In f schema ∧ f_id f = id ∧ ttype x = k_type (f_kind f).
Proof.
  unfold known. destruct (find_field schema id) as [g|] eqn:E; [|done].
  apply find_some in E as [Hg Ei%Z.eqb_eq]. destruct (Z.eqb_spec (ttype x) (k_type (f_kind g))); [|done].
  by intros [= <-].
Qed.

Lemma known_self f v : In f schema →
  known schema (f_id f) (k_den (f_kind f) (val (f_get f v))) = Some f.
Proof.
  intros Hf. unfold known. rewrite (find_in f Hf).
  pose proof (schema_in_kind f Hf). destruct (k_ttype (val (f_get f v))) as [_ ->]. by rewrite Z.eqb_refl.
Qed.

Lemma set_self f a v : In f schema → f_get f (f_set f a v) = mkField a true.
Proof. intros Hf. pose proof s_set as H. rewrite Forall_forall in H. by apply H. Qed.

Lemma set_other f g a v : In f schema → In g schema → f_id f ≠ f_id g →
  f_get g (f_set f a v) = f_get g v.
Proof.
  intros Hf Hg Hne.
  destruct (ForallOrdPairs_In s_others f g Hf Hg) as [->|[[_ H]|[H _]]]; [done|apply H|apply H].
Qed.

(** Setting the field [f] to what it is in [v]. *)
Definition put_self v f w : X :=
  if isset (f_get f v)
  then f_set f (k_upd (f_kind f) (k_den (f_kind f) (val (f_get f v))) (val (f_get f w))) w
  else w.

Lemma of_fields_step v f fs w : In f schema →
  of_fields schema (omap (field_val v) (f :: fs)) w =
  of_fields schema (omap (field_val v) fs) (put_self v f w).
Proof.
  intros Hf. cbn. unfold put_self. unfold field_val at 1. destruct (isset (f_get f v)); [|done].
  cbn. unfold of_fields at 1, put_field at 2. cbn. by rewrite known_self.
Qed.

(** What is left of a list of fields after setting them. *)
Lemma of_fields_others v fs g : ∀ w,
  incl fs schema → In g schema → ¬ In (f_id g) (f_id <$> fs) →
  f_get g (of_fields schema (omap (field_val v) fs) w) = f_get g w.
Proof.
  induction fs as [|f fs IH]; intros w Hincl Hg Hnot; [done|]. apply incl_cons_inv in Hincl as [Hf Hincl].
  cbn in Hnot. rewrite of_fields_step, IH by tauto. unfold put_self.
  case_match; [|done]. apply set_other; tauto.
Qed.

Lemma of_fields_self v fs : ∀ w,
  incl fs schema → NoDup (f_id <$> fs) → ∀ g, In g fs →
  f_get g (of_fields schema (omap (field_val v) fs) w) =
  if isset (f_get g v)
  then mkField (k_upd (f_kind g) (k_den (f_kind g) (val (f_get g v))) (val (f_get g w))) true
  else f_get g w.
Proof.
  induction fs as [|f fs IH]; intros w Hincl Hn g Hg; [done|].
  apply incl_cons_inv in Hincl as [Hf Hincl]. cbn in Hn. apply list.NoDup_cons in Hn as [Hnf Hn].
  rewrite of_fields_step by done. rewrite list_elem_of_In in Hnf. destruct Hg as [<-|Hg].
  - rewrite of_fields_others by done. unfold put_self. case_match; [by apply set_self|done].
  - assert (f_id f ≠ f_id g) as Hne.
    { intros E. apply Hnf. rewrite E. by apply list_elem_of_In, list_elem_of_fmap_2, list_elem_of_In. }
    assert (In g schema) as Hgs by (by apply Hincl).
    rewrite IH by done. unfold put_self. destruct (isset (f_get f v)); [|done].
    by rewrite set_other.
Qed.

Lemma to_fields_ext v w :
  Forall (λ f, field_val v f = field_val w f) schema → to_fields schema v = to_fields schema w.
Proof.
  unfold to_fields. generalize schema. intros l. induction 1 as [|f fs E _ IH]; [done|].
  cbn. by rewrite E, IH.
Qed.

(** Reading what was written into a new object gives an equal object. *)
Lemma struct_round v : faithful schema v →
  to_fields schema (of_fields schema (to_fields schema v) default) = to_fields schema v.
Proof.
  intros Hv. apply to_fields_ext. rewrite Forall_forall. intros f Hf.
  pose proof (of_fields_self v schema default (incl_refl _) s_ids f Hf) as E.
  fold (to_fields schema v) in E. unfold field_val. rewrite E.
  pose proof s_default as Hd. rewrite Forall_forall in Hd. destruct (Hd f Hf) as [Ed Hreq].
  unfold faithful in Hv. rewrite Forall_forall in Hv. pose proof (schema_in_kind f Hf).
  destruct (isset (f_get f v)) eqn:Ei; cbn [isset val].
  - rewrite Ed, k_round by (by apply Hv). done.
  - destruct (isset (f_get f default)) eqn:Edf; [|done]. by rewrite Hreq in Ei.
Qed.

Lemma field_eqb_spec f v w : In f schema →
  field_eqb (k_eqb (f_kind f)) (f_get f v) (f_get f w) = true ↔ field_val v f = field_val w f.
Proof.
  intros Hf. pose proof (schema_in_kind f Hf). unfold field_eqb, isset_eqb, val_eqb, field_val.
  destruct (isset (f_get f v)), (isset (f_get f w)); cbn; try done.
  pose proof (k_eqb_spec (val (f_get f v)) (val (f_get f w))) as E.
  destruct (k_eqb _ _ _); cbn; split; try done.
  - intros _. by rewrite (proj1 E eq_refl).
  - intros [= E']. by apply E in E'.
Qed.

(** A field is found in the list by its number. *)
Lemma field_val_lookup v f : In f schema →
  field_val v f = List.find (λ p, f_id f =? p.1) (to_fields schema v).
Proof.
  pose proof s_ids as Hn. unfold to_fields. revert Hn. generalize schema. intros l.
  induction l as [|g l IH]; [done|]. cbn. intros [Hng Hn]%list.NoDup_cons [->|Hf].
  - destruct (field_val v f) as [[id x]|] eqn:E.
    + cbn. unfold field_val in E. case_match; [|done]. injection E as <- _. by rewrite Z.eqb_refl.
    + destruct (List.find _ _) as [[id x]|] eqn:Ef; [|done].
      apply find_some in Ef as [Hin Ei%Z.eqb_eq]. cbn in Ei. destruct Hng.
      rewrite <- list_elem_of_In, list_elem_of_omap in Hin. destruct Hin as (h & Hh & Eh).
      unfold field_val in Eh. case_match; [|done]. injection Eh as <- _. rewrite Ei.
      by apply list_elem_of_fmap_2.
  - rewrite IH by done. destruct (field_val v g) as [[id x]|] eqn:E; [|done]. cbn.
    unfold field_val in E. case_match; [|done]. injection E as <- _.
    destruct (Z.eqb_spec (f_id f) (f_id g)) as [Ei|]; [|done]. destruct Hng. rewrite <- Ei.
    by apply list_elem_of_fmap_2, list_elem_of_In.
Qed.

Lemma schema_eqb_spec v w :
  schema_eqb schema v w = true ↔ to_fields schema v = to_fields schema w.
Proof.
  unfold schema_eqb. rewrite forallb_forall. split.
  - intros Hall. apply to_fields_ext. rewrite Forall_forall. intros f Hf.
    by apply field_eqb_spec, Hall.
  - intros E f Hf. apply field_eqb_spec; [done|]. by rewrite !field_val_lookup, E.
Qed.

(** A class whose members are all written as what they denote, under their own
    numbers, is written as what it denotes. *)
Lemma out_fields_faithful v : faithful schema v → out_fields schema v = to_fields schema v.
Proof.
  pose proof s_kinds as Hk. unfold faithful, out_fields, to_fields. revert Hk.
  generalize schema. intros l. induction l as [|f l IH]; [done|].
  intros [Hf Hk]%Forall_cons_1 [Hv Hl]%Forall_cons_1. cbn.
  unfold field_out at 1, field_val at 1. destruct (isset (f_get f v)); [|by apply IH].
  rewrite k_written by (by apply Hv). by rewrite IH.
Qed.

(** The bytes of the members are in range and can be read. *)
Lemma out_fields_in written v id x : In (id, x) (out_fields written v) →
  ∃ f, In f written ∧ isset (f_get f v) = true ∧ id = f_id f ∧ x = k_enc (f_kind f) (val (f_get f v)).
Proof.
  unfold out_fields. rewrite <- list_elem_of_In, list_elem_of_omap.
  intros (f & Hf & E). unfold field_out in E. destruct (isset (f_get f v)) eqn:Ei; [|done].
  injection E as <- <-. exists f. by rewrite <- list_elem_of_In.
Qed.

Lemma struct_wf written v : WrittenOk written → valid written v →
  wf_val (VStruct (out_fields written v)).
Proof.
  intros Hw Hv. constructor. rewrite Forall_forall. intros [id x] Hin.
  apply out_fields_in in Hin as (f & Hf & Ei & -> & ->). cbn.
  unfold valid in Hv. rewrite Forall_forall in Hv. pose proof w_range as Hr.
  pose proof w_kinds as Hk. rewrite Forall_forall in Hr, Hk. pose proof (Hk f Hf).
  split; [by apply Hr|by apply k_wf, Hv].
Qed.

(** A class can read what it writes under its own numbers. *)
Lemma struct_acc v : valid schema v → acc_fields schema (out_fields schema v).
Proof.
  intros Hv. unfold acc_fields. rewrite Forall_forall. intros [id x] Hin f Hk.
  apply out_fields_in in Hin as (g & Hg & Ei & -> & ->). cbn in *.
  apply known_in in Hk as (Hf & E & _).
  assert (f = g) as -> by (by eapply nodup_inj; [apply s_ids|..]).
  unfold valid in Hv. rewrite Forall_forall in Hv. pose proof (schema_in_kind g Hg).
  by apply k_acceptable, Hv.
Qed.

(** A struct is a kind of member. *)
Lemma KStruct_ok written eqb : WrittenOk written → (∀ v w, eqb v w = schema_eqb schema v w) →
  KindOk (KStruct schema written default eqb).
Proof.
  intros Hw He. split; cbn; [tauto|done| | | | |].
  - intros v [Hv _]. by apply struct_wf.
  - by intros v [_ Hv].
  - by intros v [-> _].
  - intros v [_ Hv]. by rewrite struct_round.
  - intros v w. rewrite He, schema_eqb_spec. split; [by intros ->|by intros [=]].
Qed.
End schema.

#[export] Instance SchemaOk_WrittenOk {X} (schema : list (fspec X)) default :
  SchemaOk schema default → WrittenOk schema.
Proof. intros Hs. split; [apply s_range|apply s_kinds]. Qed.

(** The order of the cases does not matter. *)
Lemma find_field_same {X} (l l' : list (fspec X)) id :
  NoDup (f_id <$> l) → l ≡ₚ l' → find_field l id = find_field l' id.
Proof.
  intros Hn Hp. assert (NoDup (f_id <$> l')) as Hn' by (by rewrite <- Hp).
  unfold find_field. destruct (List.find _ l) as [f|] eqn:E, (List.find _ l') as [g|] eqn:E'; try done.
  - apply find_some in E as [Hf Ef%Z.eqb_eq]. apply find_some in E' as [Hg Eg%Z.eqb_eq].
    f_equal. apply (nodup_inj l); [done|done| |by rewrite <- Ef].
    apply list_elem_of_In. rewrite Hp. by apply list_elem_of_In.
  - apply find_some in E as [Hf Ef]. apply find_none with (x := f) in E'; [by rewrite Ef in E'|].
    apply list_elem_of_In. rewrite <- Hp. by apply list_elem_of_In.
  - apply find_some in E' as [Hg Eg]. apply find_none with (x := g) in E; [by rewrite Eg in E|].
    apply list_elem_of_In. rewrite Hp. by apply list_elem_of_In.
Qed.
