(* ===== verification/ThriftCode.v ===== *)
(** * ThriftCode: generated code against the reference

    [codes k rd wr] says that a pair of functions reads and writes the members of kind
    [k].  The members of scalar and list kinds are read and written by the calls that
    the thrift compiler writes; a class whose [read] and [write] have the shape of
    [gen_read] and [gen_write] is one more such pair ([KStruct_codes]).  [read_safe]
    is the other side: its [read] ends without a fault on any bytes at all. *)

From stdpp Require Import strings.
From S2P Require Import Prelude Bytes Outcome MemoryBuffer CompactProtocol CompactSpec.
From S2P Require Import CompactProofs CompactSkip CompactSafe ThriftStruct ThriftStructProofs.

#[local] Open Scope Z_scope.

Create HintDb thrift.

Section code.
Context {T : Type} `{TransportOk T}.
Implicit Types (c : protocol).

Abbreviation M := (CompactProtocol.M (T := T)).

(** ** Members *)

(** An object that writes no boolean field yet and may nest [h] structs more. *)
Definition writable c (h : nat) : Prop :=
  booleanField_ c = None ∧ 0 ≤ recursion_depth_ c ∧
  recursion_depth_ c + Z.of_nat h ≤ DEFAULT_RECURSION_LIMIT.

Definition readable c : Prop := calm c ∧ boolValue_ c = None.

Definition reads {A} (k : kind A) (rd : nat → A → M A) : Prop :=
  ∀ x a c fuel, k_acc k x → wf_val x → ttype x = k_type k → readable c →
    (length (enc x) < fuel)%nat →
    consumes (rd fuel a) (after_header x c) (enc_body x) c (k_upd k x a) ∧
    consumes (rd fuel a) c (enc x) c (k_upd k x a).

Definition field_calls (name : string) (ty : TType) (id : Z) (w : M Z) : list (M Z) :=
  [writeFieldBegin name ty id; w; writeFieldEnd].

Record codes {A} (k : kind A) (rd : nat → A → M A) (wr : A → M Z) : Prop := mkCodes {
  code_rd : reads k rd;
  code_wr : ∀ a c, k_valid k a → writable c (k_height k) → writes (wr a) c (enc (k_enc k a)) c;
  code_field : ∀ a c name id, k_valid k a → writable c (k_height k) → - 2 ^ 15 ≤ id < 2 ^ 15 →
    writes (total (field_calls name (k_type k) id (wr a))) c
      (enc_field (lastFieldId_ c) id (k_enc k a)) (set_last id c);
}.

Lemma writable_set_last c h id : writable c h → writable (set_last id c) h.
Proof. done. Qed.
Lemma writable_le c h h' : writable c h → (h' ≤ h)%nat → writable c h'.
Proof. intros (? & ? & ?) ?. split; [done|]. lia. Qed.

Lemma writeFieldEnd_ok c : writes writeFieldEnd c [] c.
Proof. apply writes_ret. Qed.

(** All types but the boolean write the header first. *)
Lemma code_field_header name ty id (w : M Z) v c :
  ttype v = ty → ty ≠ T_BOOL → - 2 ^ 15 ≤ id < 2 ^ 15 →
  writes w (set_last id c) (enc v) (set_last id c) →
  writes (total (field_calls name ty id w)) c (enc_field (lastFieldId_ c) id v) (set_last id c).
Proof.
  intros <- Hb Hid Hw. unfold enc_field, field_calls.
  replace (enc_body v) with (enc v ++ [] ++ []) by (rewrite !app_nil_r; by destruct v).
  replace (field_ctype v) with (ctype (ttype v)) by (by destruct v as [[]| | | | | | | | | |]).
  eapply writes_total_cons.
  - unfold writeFieldBegin. rewrite (proj2 (Z.eqb_neq _ T_BOOL)) by done.
    apply writeFieldBeginInternal_ok; [apply ttype_ctype, ttype_types|done|].
    left. split; [done|]. split; [apply ttype_types|done].
  - eapply writes_total_cons; [exact Hw|]. eapply writes_total_cons; [apply writeFieldEnd_ok|].
    apply writes_total_nil.
Qed.

(** A kind that is no boolean: the field is the element behind a header. *)
Lemma make_codes {A} (k : kind A) rd wr :
  KindOk k → k_type k ≠ T_BOOL →
  (∀ x a c fuel, k_acc k x → wf_val x → ttype x = k_type k → readable c →
    (length (enc x) < fuel)%nat → consumes (rd fuel a) c (enc x) c (k_upd k x a)) →
  (∀ a c, k_valid k a → writable c (k_height k) → writes (wr a) c (enc (k_enc k a)) c) →
  codes k rd wr.
Proof.
  intros Hk Hne Hrd Hwr. split; [|done|].
  - intros x a c fuel Ha Hw Ht Hc Hf. specialize (Hrd x a c fuel Ha Hw Ht Hc Hf).
    split; [|done]. destruct x; try done.
  - intros a c name id Ha Hc Hid. apply code_field_header; [apply k_ttype|done|done|by apply Hwr].
Qed.

Lemma KBool_codes : codes KBool (λ _ a, into a readBool) writeBool.
Proof.
  split.
  - intros [b| | | | | | | | | |] a c fuel _ _ Ht [(He & _) Hb] _; try done.
    split; apply consumes_into; [|by apply readBool_element].
    pose proof (readBool_field c b) as Hr. by rewrite set_bool_none in Hr.
  - intros b c _ (Hb & _). unfold writeBool. eapply writes_silent; [auto with silent|].
    cbv beta. rewrite Hb. cbn [k_enc KBool KFlat enc]. destruct b; apply (writeByte_ok c).
  - intros b c name id _ (Hb & _) Hid. unfold field_calls, enc_field. cbn [k_enc KBool KFlat enc_body k_type].
    rewrite app_nil_r.
    change (enc_header (lastFieldId_ c) id (field_ctype (VBool b)))
      with ([] ++ enc_header (lastFieldId_ c) id (field_ctype (VBool b))).
    set (c1 := set_boolean (Some (T_BOOL, id)) c).
    apply (writes_total_cons _ _ _ _ c1).
    { eapply writes_silent; [apply silent_update|]. apply writes_ret. }
    rewrite <- (app_nil_r (enc_header _ _ _)).
    apply (writes_total_cons _ _ _ _ (set_last id c)).
    + unfold writeBool. eapply writes_silent; [auto with silent|]. cbv beta iota.
      cbn [booleanField_ c1 set_boolean].
      destruct (writeFieldBeginInternal_ok c1 T_BOOL id
        (if b then CT_BOOLEAN_TRUE else CT_BOOLEAN_FALSE) (field_ctype (VBool b))) as (n & Hp & En);
        [apply field_ctype_ok|done|right; by destruct b|].
      exists n. split; [|done]. rewrite <- (app_nil_r (enc_header _ _ _)).
      eapply produces_bind; [exact Hp|]. eapply silent_produces; [auto with silent|].
      replace (set_boolean None (set_last id c1)) with (set_last id c); [apply produces_ret|].
      destruct c. cbn in Hb. by subst.
    + eapply (writes_total_cons _ _ _ []); [apply writeFieldEnd_ok|apply writes_total_nil].
Qed.

Lemma KI16_codes : codes KI16 (λ _ a, into a readI16) writeI16.
Proof.
  apply make_codes; [apply _|done| |intros; apply writeI16_ok].
  intros x a c fuel _ Hw Ht [(He & _) _] _. destruct x; try done. inversion_clear Hw.
  by apply consumes_into, readI16_ok.
Qed.
Lemma KI32_codes : codes KI32 (λ _ a, into a readI32) writeI32.
Proof.
  apply make_codes; [apply _|done| |intros; apply writeI32_ok].
  intros x a c fuel _ Hw Ht [(He & _) _] _. destruct x; try done. inversion_clear Hw.
  by apply consumes_into, readI32_ok.
Qed.
Lemma KI64_codes : codes KI64 (λ _ a, into a readI64) writeI64.
Proof.
  apply make_codes; [apply _|done| |intros; apply writeI64_ok].
  intros x a c fuel _ Hw Ht [(He & _) _] _. destruct x; try done. inversion_clear Hw.
  by apply consumes_into, readI64_ok.
Qed.

Lemma KBinary_codes : codes KString (λ _ a, into a readBinary) writeBinary.
Proof.
  apply make_codes; [apply _|done| |].
  - intros x a c fuel _ Hw Ht [Hc _] _. destruct x; try done. by apply consumes_into, readBinary_ok.
  - intros s c Hs _. apply writeBinary_ok. by destruct Hs; constructor.
Qed.
Lemma KString_codes : codes KString (λ _ a, into a readString) writeString.
Proof. exact KBinary_codes. Qed.

Lemma read_elements_consume {A} (k : kind A) (rd : A → M A) xs c :
  Forall (λ x, consumes (rd (k_default k)) c (enc x) c (k_upd k x (k_default k))) xs →
  consumes (read_elements (length xs) (rd (k_default k))) c (enc_list xs) c
    ((λ x, k_upd k x (k_default k)) <$> xs).
Proof.
  unfold enc_list. induction 1 as [|x xs Hx _ IH]; [apply consumes_ret|]. cbn.
  eapply consumes_bind; [exact Hx|]. rewrite <- (app_nil_r (concat _)).
  eapply consumes_bind; [exact IH|]. apply consumes_ret.
Qed.

Lemma write_elements {A} (k : kind A) (wr : A → M Z) l c :
  Forall (λ a, writes (wr a) c (enc (k_enc k a)) c) l →
  writes (total ((wr <$> l) ++ [writeListEnd])) c (enc_list (k_enc k <$> l)) c.
Proof.
  unfold enc_list. induction 1 as [|a l Ha _ IH].
  - apply (writes_total_cons _ _ _ [] c); [apply writes_ret|apply writes_total_nil].
  - cbn. by eapply writes_total_cons.
Qed.

Lemma KList_codes {A} (k : kind A) rd wr :
  KindOk k → codes k rd wr →
  codes (KList k) (λ fuel _, read_list (k_default k) (rd fuel)) (write_list (k_type k) wr).
Proof.
  intros Hk Hc. apply make_codes; [apply _|done| |].
  - intros x a c fuel Ha Hw Ht [Hcalm Hb] Hf.
    destruct x as [| | | | | | | | | |et xs]; try done. clear Ht.
    inversion_clear Hw as [| | | | | | | | | |? ? Het Hl Hwf]. rewrite enc_VList, length_app in *.
    unfold read_list. eapply consumes_bind; [apply readListBegin_ok; [done|done|lia]|].
    cbv beta iota. rewrite Nat2Z.id, <- (app_nil_r (enc_list xs)).
    eapply consumes_bind; [|eapply (silent_consumes _ _ c c tt); [done|apply consumes_ret]].
    apply (read_elements_consume k (rd fuel)). rewrite Forall_forall in *. intros x Hx.
    destruct (Hwf x Hx) as [Et Hwx]. destruct Ha as [->|[-> Hacc]]; [done|].
    rewrite Forall_forall in Hacc.
    assert (length (enc x) ≤ length (enc_list xs))%nat by (by apply concat_length_le, in_fmap).
    destruct (code_rd k rd wr Hc x (k_default k) c fuel) as [_ Hr]; auto; [by split|lia].
  - intros l c [Hl Hv] Hwc. cbn [k_enc KList]. rewrite enc_VList, length_fmap.
    unfold write_list. rewrite u32_small by lia.
    eapply writes_total_cons; [apply writeListBegin_ok; [apply k_types|lia]|].
    apply write_elements. eapply Forall_impl; [|exact Hv]. intros a Ha. by apply (code_wr k rd wr Hc).
Qed.

(** ** Classes *)

(** A field of [X] with the calls that read and write it. *)
Record fcode (X : Type) := mkFC {
  fc_spec : fspec X;
  fc_read : nat → f_A fc_spec → M (f_A fc_spec);
  fc_write : f_A fc_spec → M Z;
}.
Arguments mkFC {X} _ _ _.
Arguments fc_spec {X} _.
Arguments fc_read {X} _ _ _.
Arguments fc_write {X} _ _.

Section class.
Context {X : Type} (cs : list (fcode X)).
Abbreviation specs := (fc_spec <$> cs).

Definition gen_case (fuel : nat) (ftype : TType) (v : X) (fc : fcode X) : M X :=
  let f := fc_spec fc in
  if ftype =? k_type (f_kind f) then
    x ← fc_read fc fuel (val (f_get f v)); mret (f_set f x v)
  else skip_as fuel ftype v.

Definition gen_cases (fuel : nat) (fid : Z) (ftype : TType) (v : X) : M X :=
  switch fid ((λ fc, (f_id (fc_spec fc), gen_case fuel ftype v fc)) <$> cs) (skip_as fuel ftype v).

Definition gen_read (fuel : nat) (v : X) : M X := read_struct fuel (gen_cases fuel) v.

Definition gen_field (v : X) (fc : fcode X) : M Z :=
  let f := fc_spec fc in
  when (isset (f_get f v))
    (field_calls (f_name f) (k_type (f_kind f)) (f_id f) (fc_write fc (val (f_get f v)))).

Definition gen_write (name : string) (v : X) : M Z :=
  write_struct name (gen_field v <$> cs).

Definition fcode_ok (fc : fcode X) : Prop :=
  codes (f_kind (fc_spec fc)) (fc_read fc) (fc_write fc).
Context (Hcodes : Forall fcode_ok cs).

(** *** Reading *)

Lemma skip_as_ok x (v : X) c fuel :
  wf_val x → readable c → (length (enc x) < fuel)%nat →
  consumes (skip_as fuel (ttype x) v) (after_header x c) (enc_body x) c v.
Proof.
  intros Hw [Hc Hb] Hf. destruct (skip_value x Hw fuel c Hc Hb Hf) as [Hk _].
  rewrite <- (app_nil_r (enc_body x)). eapply consumes_bind; [exact Hk|apply consumes_ret].
Qed.

Lemma switch_find {A} id (g : fcode X → A) otherwise l :
  switch id ((λ fc, (f_id (fc_spec fc), g fc)) <$> l) otherwise =
  match List.find (λ fc, id =? f_id (fc_spec fc)) l with Some fc => g fc | None => otherwise end.
Proof. induction l as [|fc l IH]; [done|]. cbn. by destruct (id =? _). Qed.

Lemma find_spec id (l : list (fcode X)) :
  find_field (fc_spec <$> l) id =
  match List.find (λ fc, id =? f_id (fc_spec fc)) l with Some fc => Some (fc_spec fc) | None => None end.
Proof. induction l as [|fc l IH]; [done|]. unfold find_field in *. cbn. by destruct (id =? _). Qed.

Lemma gen_cases_ok id x v c fuel :
  wf_val x → (∀ f, known specs id x = Some f → k_acc (f_kind f) x) → readable c →
  (length (enc x) < fuel)%nat →
  consumes (gen_cases fuel id (ttype x) v) (after_header x c) (enc_body x) c
    (put_field specs v (id, x)).
Proof.
  intros Hw Hacc Hc Hf. unfold gen_cases, put_field. cbn [fst snd]. rewrite switch_find.
  unfold known in *. rewrite find_spec in *.
  destruct (List.find _ cs) as [fc|] eqn:E; [|by apply skip_as_ok].
  apply find_some in E as [Hin _]. unfold gen_case.
  destruct (Z.eqb_spec (ttype x) (k_type (f_kind (fc_spec fc)))) as [Et|]; [|by apply skip_as_ok].
  rewrite Forall_forall in Hcodes. destruct (Hcodes fc Hin) as [Hrd _ _].
  destruct (Hrd x (val (f_get (fc_spec fc) v)) c fuel) as [Hr _]; auto.
  rewrite <- (app_nil_r (enc_body x)). eapply consumes_bind; [exact Hr|apply consumes_ret].
Qed.

Lemma read_fields_ok fuel0 fs : ∀ fuel v c,
  Forall (λ f, - 2 ^ 15 ≤ f.1 < 2 ^ 15 ∧ wf_val f.2) fs → acc_fields specs fs → readable c →
  (length (enc_fields (lastFieldId_ c) fs) ≤ fuel)%nat →
  (length (enc_fields (lastFieldId_ c) fs) ≤ fuel0)%nat →
  ∃ id, consumes (read_fields fuel (gen_cases fuel0) v) c (enc_fields (lastFieldId_ c) fs)
    (set_last id c) (of_fields specs fs v).
Proof.
  induction fs as [|[id x] fs IH]; intros fuel v c Hwf Hacc Hr Hf Hf0;
    pose proof Hr as [[He _] _].
  - destruct fuel as [|fuel]; [cbn in Hf; lia|]. exists (lastFieldId_ c). rewrite set_last_same.
    cbn [read_fields enc_fields]. change [T_STOP] with ([T_STOP] ++ []).
    eapply consumes_bind; [by apply readFieldBegin_stop|]. apply consumes_ret.
  - pose proof (enc_field_length x ((id, x) :: fs) id ltac:(by left) (lastFieldId_ c)) as Hlx.
    apply Forall_cons_1 in Hwf as [[Hid Hwx] Hwf]. apply Forall_cons_1 in Hacc as [Hax Hacc].
    cbn [fst snd] in *. cbn [enc_fields] in Hf, Hf0, Hlx |- *. rewrite length_app in Hf, Hf0, Hlx.
    assert (0 < length (enc_field (lastFieldId_ c) id x))%nat as Hpos.
    { unfold enc_field. rewrite length_app.
      pose proof (length_enc_header (lastFieldId_ c) id (field_ctype x)). lia. }
    destruct fuel as [|fuel]; [lia|].
    destruct (IH fuel (put_field specs v (id, x)) (set_last id c)) as (id' & Hrest);
      [done|done|done|cbn; lia|cbn; lia|].
    exists id'. unfold enc_field. rewrite <- !app_assoc. cbn [read_fields].
    eapply consumes_bind; [by apply readFieldBegin_ok|]. cbv beta iota.
    rewrite after_header_set_last, (proj2 (Z.eqb_neq (ttype x) T_STOP)) by (by destruct x).
    eapply consumes_bind; [apply gen_cases_ok; [done|done|done|lia]|].
    eapply (silent_consumes _ _ _ (set_last id c) tt); [by intros t|]. exact Hrest.
Qed.

Lemma read_struct_ok fuel cases v w c l :
  (∀ c, readable c → lastFieldId_ c = 0 →
    ∃ id, consumes (read_fields fuel cases v) c l (set_last id c) w) →
  readable c → consumes (read_struct fuel cases v) c l c (w : X).
Proof.
  intros Hf Hc. destruct (Hf (set_last 0 (set_stack (lastFieldId_ c :: lastField_ c) c)) Hc eq_refl)
    as (id & Hr). unfold read_struct.
  eapply silent_consumes; [apply silent_update|]. rewrite <- (app_nil_r l).
  eapply consumes_bind; [exact Hr|].
  eapply (silent_consumes _ _ _ c tt); [|apply consumes_ret]. intros t. by destruct c.
Qed.

Lemma gen_read_ok fs v c fuel :
  wf_val (VStruct fs) → acc_fields specs fs → readable c →
  (length (enc (VStruct fs)) < fuel)%nat →
  consumes (gen_read fuel v) c (enc (VStruct fs)) c (of_fields specs fs v).
Proof.
  intros Hw Hacc Hc Hf. inversion_clear Hw as [| | | | | | |? Hwf| | |]. rewrite enc_struct in *.
  apply read_struct_ok; [|done]. intros c' Hc' E. rewrite <- E in *.
  apply read_fields_ok; [done|done|done|lia|lia].
Qed.

(** *** Writing *)

Lemma gen_fields_ok v tail c' : ∀ cs' c,
  incl cs' cs → Forall (λ f, - 2 ^ 15 ≤ f_id f < 2 ^ 15) (fc_spec <$> cs') →
  valid (fc_spec <$> cs') v → writable c (pred (height specs)) →
  (∀ id, writes (total tail) (set_last id c) [T_STOP] c') →
  writes (total ((gen_field v <$> cs') ++ tail)) c
    (enc_fields (lastFieldId_ c) (out_fields (fc_spec <$> cs') v)) c'.
Proof.
  induction cs' as [|fc cs' IH]; intros c Hin Hr Hv Hw Ht; cbn [fmap list_fmap app].
  { rewrite <- (set_last_same c) at 1. apply Ht. }
  apply incl_cons_inv in Hin as [Hfc Hin]. apply Forall_cons_1 in Hr as [Hid Hr].
  apply Forall_cons_1 in Hv as [Hval Hv].
  pose proof Hcodes as Hall. rewrite Forall_forall in Hall. destruct (Hall fc Hfc) as [_ _ Hfield].
  unfold gen_field at 1, out_fields. cbn [omap list_omap]. unfold field_out at 1.
  destruct (isset (f_get (fc_spec fc) v)) eqn:Ei; cbn [when].
  - cbn [enc_fields]. eapply writes_total_cons; [|by apply (IH (set_last (f_id (fc_spec fc)) c))].
    apply Hfield; [by apply Hval| |done]. eapply writable_le; [exact Hw|].
    unfold height. cbn [pred]. clear -Hfc. induction cs as [|x l IH]; [done|].
    cbn. destruct Hfc as [->|Hfc]; [lia|]. specialize (IH Hfc). lia.
  - rewrite <- (app_nil_l (enc_fields _ _)).
    eapply writes_total_cons; [apply writes_ret|by apply IH].
Qed.

Lemma writes_bind_ret (m : M Z) (k : Z → M Z) c l c1 c2 :
  writes m c l c1 → (∀ n, silent (k n) c1 c2 n) → writes (m ≫= k) c l c2.
Proof.
  intros (n & Hp & En) Hk. exists n. split; [|done]. rewrite <- (app_nil_r l).
  eapply produces_bind; [exact Hp|]. by apply silent_is_produced.
Qed.

Lemma gen_write_ok name v c : WrittenOk specs →
  valid specs v → writable c (height specs) →
  writes (gen_write name v) c (enc (VStruct (out_fields specs v))) c.
Proof.
  intros Hok Hv Hw. pose proof Hw as (Hb & Hd & Hh). unfold height in Hh. cbn in Hh.
  unfold DEFAULT_RECURSION_LIMIT in Hh.
  unfold gen_write, write_struct. rewrite enc_struct.
  set (c1 := set_depth (recursion_depth_ c + 1) c).
  set (c2 := set_last 0 (set_stack (lastFieldId_ c1 :: lastField_ c1) c1)).
  eapply (writes_silent _ _ _ c1 tt).
  { intros t. unfold incrementRecursionDepth, mbind, state_bind. cbn.
    unfold DEFAULT_RECURSION_LIMIT. rewrite !u32_small, (proj2 (Z.leb_le _ _)) by lia. done. }
  eapply (writes_bind_ret _ _ _ _ c1).
  - rewrite <- (app_nil_l (enc_fields _ _)).
    eapply writes_total_cons; [apply writeStructBegin_ok|]. fold c2.
    change 0 with (lastFieldId_ c2).
    apply gen_fields_ok; [apply incl_refl|apply w_range|done| |].
    + split; [done|]. unfold height. cbn [pred]. cbn. unfold DEFAULT_RECURSION_LIMIT. lia.
    + intros id. change [T_STOP] with ([T_STOP] ++ [] ++ []).
      eapply writes_total_cons; [apply writeFieldStop_ok|].
      eapply writes_total_cons; [by apply writeStructEnd_ok|].
      replace (set_stack _ _) with c1 by (by destruct c). apply writes_total_nil.
  - intros n t. unfold decrementRecursionDepth, mbind, state_bind. cbn.
    replace (u32 (recursion_depth_ c + 1 - 1)) with (recursion_depth_ c) by width.
    by destruct c.
Qed.

End class.

(** A class with the generated code is one more kind of member: [rcs] are the cases of
    [read], [wcs] the calls of [write]. *)
Lemma KStruct_codes {X} (schema : list (fspec X)) default rcs wcs name eqb rd wr :
  SchemaOk schema default → WrittenOk (fc_spec <$> wcs) → schema ≡ₚ fc_spec <$> rcs →
  Forall fcode_ok rcs → Forall fcode_ok wcs →
  (∀ v w, eqb v w = schema_eqb schema v w) →
  (∀ fuel v, rd fuel v = gen_read rcs fuel v) → (∀ v, wr v = gen_write wcs name v) →
  codes (KStruct schema (fc_spec <$> wcs) default eqb) rd wr.
Proof.
  intros Hs Hw Hp Hr Hwc He Hrd Hwr.
  assert (∀ id x, known (fc_spec <$> rcs) id x = known schema id x) as Hk.
  { intros id x. unfold known. by rewrite (find_field_same schema (fc_spec <$> rcs)) by (apply s_ids || done). }
  apply make_codes.
  - by apply KStruct_ok.
  - done.
  - intros x v c fuel Hacc Hwf _ Hc Hf. destruct x as [| | | | | | |fs| | |]; try done. rewrite Hrd.
    cbn [k_upd KStruct].
    replace (of_fields schema fs v) with (of_fields (fc_spec <$> rcs) fs v).
    + apply gen_read_ok; try done. eapply Forall_impl; [|exact Hacc].
      intros p Hpa f. rewrite Hk. apply Hpa.
    + unfold of_fields. clear -Hk. revert v. induction fs as [|p fs IH]; intros v; [done|].
      cbn. unfold put_field at 2 4. rewrite Hk. apply IH.
  - intros v c [Hv _] Hc. rewrite Hwr. by apply gen_write_ok.
Qed.
End code.

Arguments mkFC {T X} _ _ _.
Arguments fc_spec {T X} _.
Arguments fc_read {T X} _ _ _.
Arguments fc_write {T X} _ _.
