(* ===== verification/ThriftSafe.v ===== *)
(** * ThriftSafe: reading a struct from bytes that nobody vouches for

    [ends b N m]: with at most [N] bytes to read, whatever they are, [m] ends; it is a
    fault only if [b] allows it, and then the one of [read_list], the size that was
    never written. *)

From S2P Require Import Prelude Bytes Outcome MemoryBuffer CompactProtocol CompactSpec.
From S2P Require Import CompactProofs CompactSkip CompactSafe ThriftStruct ThriftStructProofs ThriftCode.

#[local] Open Scope Z_scope.

Section ends.
Context {T : Type} `{TransportOk T}.
Implicit Types (t : T) (c : protocol) (l : bytes) (r : Z) (N : nat) (b : bool).

Abbreviation M := (CompactProtocol.M (T := T)).

Definition ends {A} b N (m : M A) : Prop :=
  ∀ t c l r, represents t l r → (length l ≤ N)%nat →
  (∃ t' c' a l', m (t, c) = Done ((t', c'), a) ∧ represents t' l' r ∧
    (length l' ≤ length l)%nat ∧ keeps c c') ∨
  (b = true ∧ m (t, c) = Fault UninitRead).

Lemma ends_safe {A} b N (m : M A) Q : safe N m Q → ends b N m.
Proof.
  intros Hm t c l r Hr Hl. destruct (Hm t c l r Hr Hl) as (t' & c' & a & l' & n & ? & ? & ? & ? & _).
  left. exists t', c', a, l'. auto with lia.
Qed.

Lemma ends_less {A} b N N' (m : M A) : ends b N m → (N' ≤ N)%nat → ends b N' m.
Proof. intros Hm HN t c l r Hr Hl. apply (Hm t c l r Hr). lia. Qed.

Lemma ends_may {A} b N (m : M A) : ends false N m → ends b N m.
Proof. intros Hm t c l r Hr Hl. destruct (Hm t c l r Hr Hl) as [?|[? _]]; [by left|done]. Qed.

(** A first part of which something is known. *)
Lemma ends_after {A B} b N (m : M A) (k : A → M B) (Q : A → nat → Prop) :
  safe N m Q → (∀ a n, Q a n → (n ≤ N)%nat → ends b (N - n) (k a)) → ends b N (m ≫= k).
Proof.
  intros Hm Hk t c l r Hr Hl.
  destruct (Hm t c l r Hr Hl) as (t1 & c1 & a & l1 & n & E1 & Hr1 & Hl1 & K1 & HQ).
  rewrite (bind_done _ _ _ _ _ E1).
  destruct (Hk a n HQ ltac:(lia) t1 c1 l1 r Hr1) as [(t2 & c2 & x & l2 & E2 & Hr2 & Hl2 & K2)|E2];
    [lia| |by right].
  left. exists t2, c2, x, l2. repeat split; try done; try lia; by eapply keeps_trans.
Qed.

Lemma ends_bind {A B} b N (m : M A) (k : A → M B) :
  ends b N m → (∀ a, ends b N (k a)) → ends b N (m ≫= k).
Proof.
  intros Hm Hk t c l r Hr Hl.
  destruct (Hm t c l r Hr Hl) as [(t1 & c1 & a & l1 & E1 & Hr1 & Hl1 & K1)|[Hb E1]];
    [|right; split; [done|by rewrite (bind_fault _ _ _ _ E1)]].
  rewrite (bind_done _ _ _ _ _ E1).
  destruct (Hk a t1 c1 l1 r Hr1) as [(t2 & c2 & x & l2 & E2 & Hr2 & Hl2 & K2)|E2]; [lia| |by right].
  left. exists t2, c2, x, l2. repeat split; try done; try lia; by eapply keeps_trans.
Qed.

Lemma ends_ret {A} b N (a : A) : ends b N (mret a).
Proof. eapply (ends_safe _ _ _ anything). by apply safe_ret. Qed.

Lemma ends_struct {X} b N (cases : Z → TType → X → M X) fuel (v : X) :
  ends b N (read_fields fuel cases v) → ends b N (read_struct fuel cases v).
Proof.
  intros Hm t c l r Hr Hl. unfold read_struct.
  rewrite (bind_done _ _ _ _ _ (readStructBegin_ok c t)).
  destruct (Hm t (pushed c) l r Hr Hl) as [(t1 & c1 & a & l1 & E & Hr1 & Hl1 & K)|[Hb E]];
    [|right; split; [done|by rewrite (bind_fault _ _ _ _ E)]].
  destruct (keeps_pop (T := T) c c1 K) as (c2 & Ep & K2). left. exists t1, c2, a, l1.
  split; [|done]. rewrite (bind_done _ _ _ _ _ E). by rewrite (bind_done _ _ _ _ _ (Ep t1)).
Qed.

(** Fuel for one turn more than there are bytes. *)
Lemma ends_fields {X} b fuel : ∀ N (cases : Z → TType → X → M X) v, (N < fuel)%nat →
  (∀ i fid ftype v, (i < N)%nat → ends b i (cases fid ftype v)) →
  ends b N (read_fields fuel cases v).
Proof.
  induction fuel as [|fuel IH]; intros N cases v Hf Hc; [lia|]. cbn [read_fields].
  eapply ends_after; [apply safe_readFieldBegin|]. intros [ftype fid] n Hn HnN. cbn [fst] in Hn.
  destruct (Z.eqb_spec ftype T_STOP) as [|Hne]; [apply ends_ret|]. specialize (Hn Hne).
  apply ends_bind; [apply Hc; lia|]. intros v'. apply ends_bind; [apply ends_ret|]. intros _.
  apply IH; [lia|]. intros i fid' ftype' v'' Hi. apply Hc. lia.
Qed.

Lemma ends_elements {A} b N (m : M A) size : ends b N m → ends b N (read_elements size m).
Proof.
  intros Hm. induction size as [|size IH]; cbn [read_elements]; [apply ends_ret|].
  apply ends_bind; [done|]. intros x. apply ends_bind; [done|]. intros l. apply ends_ret.
Qed.

(** Readers of members: fuel for two calls more than there are bytes. *)
Definition total_reader {A} b (rd : nat → A → M A) : Prop :=
  ∀ N fuel a, (N + 2 ≤ fuel)%nat → ends b N (rd fuel a).

Lemma total_into {A} b (m : M (option A)) Q :
  (∀ N, safe N m Q) → total_reader b (λ _ a, into a m).
Proof.
  intros Hm N fuel a _. eapply ends_after; [apply Hm|]. intros o n _ _. apply ends_ret.
Qed.

Lemma total_list {A} b (make : A) rd :
  total_reader b rd → total_reader true (λ fuel (_ : list A), read_list make (rd fuel)).
Proof.
  intros Hrd N fuel a Hf. eapply ends_after; [apply safe_readListBegin|].
  intros [[et size]|] n Hn HnN; [|intros t c l r _ _; by right].
  apply ends_bind; [|intros l; apply ends_bind; [apply ends_ret|intros _; apply ends_ret]].
  apply ends_elements. intros t c l r Hr Hl.
  destruct (Hrd (N - n)%nat fuel make ltac:(lia) t c l r Hr Hl) as [?|[_ ?]]; auto.
Qed.

Section class.
Context {X : Type} (cs : list (fcode (T := T) X)) (b : bool).
Context (Hcs : Forall (λ fc, total_reader b (fc_read fc)) cs).

Lemma total_gen_read : total_reader b (gen_read cs).
Proof.
  intros N fuel v Hf. apply ends_struct, ends_fields; [lia|].
  intros i fid ftype w Hi. unfold gen_cases. rewrite switch_find.
  assert (ends b i (skip_as fuel ftype w)) as Hskip.
  { eapply ends_after; [apply (safe_skip fuel i); lia|]. intros a n _ _. apply ends_ret. }
  destruct (List.find _ cs) as [fc|] eqn:E; [|done]. apply find_some in E as [Hin _].
  unfold gen_case. case_match; [|done]. pose proof Hcs as Hall. rewrite Forall_forall in Hall.
  apply ends_bind; [apply (Hall fc Hin); lia|]. intros x. apply ends_ret.
Qed.

Lemma total_class rd : (∀ fuel v, rd fuel v = gen_read cs fuel v) → total_reader b rd.
Proof. intros E N fuel v Hf. rewrite E. by apply total_gen_read. Qed.
End class.
End ends.
