(* ===== verification/ReportTypes.v ===== *)
(** * ReportTypes: the classes of thrift/gen-cpp/report_item_types.h and .cpp

    One module per class: its members, its constructor, the setters, [operator==], the
    cases of [read] and the calls of [write], as the source has them.  The shapes they
    share are in ThriftStruct.  A member that has a bit in [__isset] is a [field]; the
    members without one are the required ones. *)

From stdpp Require Import strings.
From S2P Require Import Prelude Bytes Outcome MemoryBuffer CompactProtocol ThriftStruct.

#[local] Open Scope Z_scope.

Module EncryptedItem.
Record t := make {
  encType : field Z;
  key1 : field bytes;
  key2 : field bytes;
  key3 : field bytes;
  key4 : field bytes;
  payload : field bytes;
}.

Definition default : t :=
  make
    (unset 0) (unset []) (unset []) (unset []) (unset []) (unset []).

Definition __set_encType (a : Z) (v : t) : t :=
  make
    (mkField a true) (key1 v) (key2 v) (key3 v) (key4 v) (payload v).
Definition __set_key1 (a : bytes) (v : t) : t :=
  make
    (encType v) (mkField a true) (key2 v) (key3 v) (key4 v) (payload v).
Definition __set_key2 (a : bytes) (v : t) : t :=
  make
    (encType v) (key1 v) (mkField a true) (key3 v) (key4 v) (payload v).
Definition __set_key3 (a : bytes) (v : t) : t :=
  make
    (encType v) (key1 v) (key2 v) (mkField a true) (key4 v) (payload v).
Definition __set_key4 (a : bytes) (v : t) : t :=
  make
    (encType v) (key1 v) (key2 v) (key3 v) (mkField a true) (payload v).
Definition __set_payload (a : bytes) (v : t) : t :=
  make
    (encType v) (key1 v) (key2 v) (key3 v) (key4 v) (mkField a true).

Definition eqb (v rhs : t) : bool :=
  all
    [field_eqb Z.eqb (encType v) (encType rhs);
     field_eqb bytes_eqb (key1 v) (key1 rhs);
     field_eqb bytes_eqb (key2 v) (key2 rhs);
     field_eqb bytes_eqb (key3 v) (key3 rhs);
     field_eqb bytes_eqb (key4 v) (key4 rhs);
     field_eqb bytes_eqb (payload v) (payload rhs)].

Section code.
Context {T : Type} `{Transport T}.

Definition read_case (fuel : nat) (fid : Z) (ftype : TType) (v : t) : M (T := T) t :=
  switch fid [
    (1, if ftype =? T_I32 then x ← into (val (encType v)) readI32; mret (__set_encType x v)
       else skip_as fuel ftype v);
    (2, if ftype =? T_STRING then x ← into (val (key1 v)) readBinary; mret (__set_key1 x v)
       else skip_as fuel ftype v);
    (3, if ftype =? T_STRING then x ← into (val (key2 v)) readBinary; mret (__set_key2 x v)
       else skip_as fuel ftype v);
    (4, if ftype =? T_STRING then x ← into (val (key3 v)) readBinary; mret (__set_key3 x v)
       else skip_as fuel ftype v);
    (5, if ftype =? T_STRING then x ← into (val (key4 v)) readBinary; mret (__set_key4 x v)
       else skip_as fuel ftype v);
    (10, if ftype =? T_STRING then x ← into (val (payload v)) readBinary; mret (__set_payload x v)
       else skip_as fuel ftype v)]
    (skip_as fuel ftype v).
Definition read (fuel : nat) (v : t) : M (T := T) t := read_struct fuel (read_case fuel) v.

Definition write (v : t) : M (T := T) Z :=
  write_struct "EncryptedItem" [
    when (isset (encType v))
       [writeFieldBegin "encType" T_I32 1;
        writeI32 (val (encType v)); writeFieldEnd];
    when (isset (key1 v))
       [writeFieldBegin "key1" T_STRING 2;
        writeBinary (val (key1 v)); writeFieldEnd];
    when (isset (key2 v))
       [writeFieldBegin "key2" T_STRING 3;
        writeBinary (val (key2 v)); writeFieldEnd];
    when (isset (key3 v))
       [writeFieldBegin "key3" T_STRING 4;
        writeBinary (val (key3 v)); writeFieldEnd];
    when (isset (key4 v))
       [writeFieldBegin "key4" T_STRING 5;
        writeBinary (val (key4 v)); writeFieldEnd];
    when (isset (payload v))
       [writeFieldBegin "payload" T_STRING 10;
        writeBinary (val (payload v)); writeFieldEnd]].
End code.
End EncryptedItem.

Module VosdkHeader.
Record t := make {
  sid : field bytes;
  cname : field bytes;
  cid : field Z;
  lts : field Z;
  ip : field bytes;
  uid : field Z;
  success : field bool;
  elapse : field Z;
  peer : field Z;
}.

Definition default : t :=
  make
    (unset []) (unset []) (unset 0) (unset 0) (unset []) (unset 0) (unset false) (unset 0)
    (unset 0).

Definition __set_sid (a : bytes) (v : t) : t :=
  make
    (mkField a true) (cname v) (cid v) (lts v) (ip v) (uid v) (success v) (elapse v) (peer v).
Definition __set_cname (a : bytes) (v : t) : t :=
  make
    (sid v) (mkField a true) (cid v) (lts v) (ip v) (uid v) (success v) (elapse v) (peer v).
Definition __set_cid (a : Z) (v : t) : t :=
  make
    (sid v) (cname v) (mkField a true) (lts v) (ip v) (uid v) (success v) (elapse v) (peer v).
Definition __set_lts (a : Z) (v : t) : t :=
  make
    (sid v) (cname v) (cid v) (mkField a true) (ip v) (uid v) (success v) (elapse v) (peer v).
Definition __set_ip (a : bytes) (v : t) : t :=
  make
    (sid v) (cname v) (cid v) (lts v) (mkField a true) (uid v) (success v) (elapse v) (peer v).
Definition __set_uid (a : Z) (v : t) : t :=
  make
    (sid v) (cname v) (cid v) (lts v) (ip v) (mkField a true) (success v) (elapse v) (peer v).
Definition __set_success (a : bool) (v : t) : t :=
  make
    (sid v) (cname v) (cid v) (lts v) (ip v) (uid v) (mkField a true) (elapse v) (peer v).
Definition __set_elapse (a : Z) (v : t) : t :=
  make
    (sid v) (cname v) (cid v) (lts v) (ip v) (uid v) (success v) (mkField a true) (peer v).
Definition __set_peer (a : Z) (v : t) : t :=
  make
    (sid v) (cname v) (cid v) (lts v) (ip v) (uid v) (success v) (elapse v) (mkField a true).

Definition eqb (v rhs : t) : bool :=
  all
    [field_eqb bytes_eqb (sid v) (sid rhs);
     field_eqb bytes_eqb (cname v) (cname rhs);
     field_eqb Z.eqb (cid v) (cid rhs);
     field_eqb Z.eqb (lts v) (lts rhs);
     field_eqb bytes_eqb (ip v) (ip rhs);
     field_eqb Z.eqb (uid v) (uid rhs);
     field_eqb Bool.eqb (success v) (success rhs);
     field_eqb Z.eqb (elapse v) (elapse rhs);
     field_eqb Z.eqb (peer v) (peer rhs)].

Section code.
Context {T : Type} `{Transport T}.

Definition read_case (fuel : nat) (fid : Z) (ftype : TType) (v : t) : M (T := T) t :=
  switch fid [
    (1, if ftype =? T_STRING then x ← into (val (sid v)) readString; mret (__set_sid x v)
       else skip_as fuel ftype v);
    (2, if ftype =? T_STRING then x ← into (val (cname v)) readString; mret (__set_cname x v)
       else skip_as fuel ftype v);
    (3, if ftype =? T_I64 then x ← into (val (cid v)) readI64; mret (__set_cid x v)
       else skip_as fuel ftype v);
    (4, if ftype =? T_I64 then x ← into (val (lts v)) readI64; mret (__set_lts x v)
       else skip_as fuel ftype v);
    (5, if ftype =? T_STRING then x ← into (val (ip v)) readString; mret (__set_ip x v)
       else skip_as fuel ftype v);
    (6, if ftype =? T_I64 then x ← into (val (uid v)) readI64; mret (__set_uid x v)
       else skip_as fuel ftype v);
    (7, if ftype =? T_BOOL then x ← into (val (success v)) readBool; mret (__set_success x v)
       else skip_as fuel ftype v);
    (8, if ftype =? T_I64 then x ← into (val (elapse v)) readI64; mret (__set_elapse x v)
       else skip_as fuel ftype v);
    (9, if ftype =? T_I64 then x ← into (val (peer v)) readI64; mret (__set_peer x v)
       else skip_as fuel ftype v)]
    (skip_as fuel ftype v).
Definition read (fuel : nat) (v : t) : M (T := T) t := read_struct fuel (read_case fuel) v.

Definition write (v : t) : M (T := T) Z :=
  write_struct "VosdkHeader" [
    when (isset (sid v))
       [writeFieldBegin "sid" T_STRING 1;
        writeString (val (sid v)); writeFieldEnd];
    when (isset (cname v))
       [writeFieldBegin "cname" T_STRING 2;
        writeString (val (cname v)); writeFieldEnd];
    when (isset (cid v))
       [writeFieldBegin "cid" T_I64 3;
        writeI64 (val (cid v)); writeFieldEnd];
    when (isset (lts v))
       [writeFieldBegin "lts" T_I64 4;
        writeI64 (val (lts v)); writeFieldEnd];
    when (isset (ip v))
       [writeFieldBegin "ip" T_STRING 5;
        writeString (val (ip v)); writeFieldEnd];
    when (isset (uid v))
       [writeFieldBegin "uid" T_I64 6;
        writeI64 (val (uid v)); writeFieldEnd];
    when (isset (success v))
       [writeFieldBegin "success" T_BOOL 7;
        writeBool (val (success v)); writeFieldEnd];
    when (isset (elapse v))
       [writeFieldBegin "elapse" T_I64 8;
        writeI64 (val (elapse v)); writeFieldEnd];
    when (isset (peer v))
       [writeFieldBegin "peer" T_I64 9;
        writeI64 (val (peer v)); writeFieldEnd]].
End code.
End VosdkHeader.

Module VosdkCounterItem.
Record t := make {
  name : field bytes;
  lts : field Z;
  value : field Z;
  id : field Z;
  tagErrorCode : field Z;
}.

Definition default : t :=
  make
    (unset []) (unset 0) (unset 0) (unset 0) (unset 0).

Definition __set_name (a : bytes) (v : t) : t :=
  make
    (mkField a true) (lts v) (value v) (id v) (tagErrorCode v).
Definition __set_lts (a : Z) (v : t) : t :=
  make
    (name v) (mkField a true) (value v) (id v) (tagErrorCode v).
Definition __set_value (a : Z) (v : t) : t :=
  make
    (name v) (lts v) (mkField a true) (id v) (tagErrorCode v).
Definition __set_id (a : Z) (v : t) : t :=
  make
    (name v) (lts v) (value v) (mkField a true) (tagErrorCode v).
Definition __set_tagErrorCode (a : Z) (v : t) : t :=
  make
    (name v) (lts v) (value v) (id v) (mkField a true).

Definition eqb (v rhs : t) : bool :=
  all
    [field_eqb bytes_eqb (name v) (name rhs);
     field_eqb Z.eqb (lts v) (lts rhs);
     field_eqb Z.eqb (value v) (value rhs);
     field_eqb Z.eqb (id v) (id rhs);
     field_eqb Z.eqb (tagErrorCode v) (tagErrorCode rhs)].

Section code.
Context {T : Type} `{Transport T}.

Definition read_case (fuel : nat) (fid : Z) (ftype : TType) (v : t) : M (T := T) t :=
  switch fid [
    (1, if ftype =? T_STRING then x ← into (val (name v)) readString; mret (__set_name x v)
       else skip_as fuel ftype v);
    (2, if ftype =? T_I64 then x ← into (val (lts v)) readI64; mret (__set_lts x v)
       else skip_as fuel ftype v);
    (3, if ftype =? T_I32 then x ← into (val (value v)) readI32; mret (__set_value x v)
       else skip_as fuel ftype v);
    (4, if ftype =? T_I32 then x ← into (val (id v)) readI32; mret (__set_id x v)
       else skip_as fuel ftype v);
    (5, if ftype =? T_I32 then x ← into (val (tagErrorCode v)) readI32; mret (__set_tagErrorCode x v)
       else skip_as fuel ftype v)]
    (skip_as fuel ftype v).
Definition read (fuel : nat) (v : t) : M (T := T) t := read_struct fuel (read_case fuel) v.

Definition write (v : t) : M (T := T) Z :=
  write_struct "VosdkCounterItem" [
    when (isset (name v))
       [writeFieldBegin "name" T_STRING 1;
        writeString (val (name v)); writeFieldEnd];
    when (isset (lts v))
       [writeFieldBegin "lts" T_I64 2;
        writeI64 (val (lts v)); writeFieldEnd];
    when (isset (value v))
       [writeFieldBegin "value" T_I32 3;
        writeI32 (val (value v)); writeFieldEnd];
    when (isset (id v))
       [writeFieldBegin "id" T_I32 4;
        writeI32 (val (id v)); writeFieldEnd];
    when (isset (tagErrorCode v))
       [writeFieldBegin "tagErrorCode" T_I32 5;
        writeI32 (val (tagErrorCode v)); writeFieldEnd]].
End code.
End VosdkCounterItem.

Module VosdkCounter.
Record t := make {
  header : field VosdkHeader.t;
  items : field (list VosdkCounterItem.t);
}.

Definition default : t :=
  make
    (unset VosdkHeader.default) (unset []).

Definition __set_header (a : VosdkHeader.t) (v : t) : t :=
  make
    (mkField a true) (items v).
Definition __set_items (a : list VosdkCounterItem.t) (v : t) : t :=
  make
    (header v) (mkField a true).

Definition eqb (v rhs : t) : bool :=
  all
    [field_eqb VosdkHeader.eqb (header v) (header rhs);
     field_eqb (list_eqb VosdkCounterItem.eqb) (items v) (items rhs)].

Section code.
Context {T : Type} `{Transport T}.

Definition read_case (fuel : nat) (fid : Z) (ftype : TType) (v : t) : M (T := T) t :=
  switch fid [
    (1, if ftype =? T_STRUCT then x ← VosdkHeader.read fuel (val (header v)); mret (__set_header x v)
       else skip_as fuel ftype v);
    (2, if ftype =? T_LIST then x ← read_list VosdkCounterItem.default (VosdkCounterItem.read fuel); mret (__set_items x v)
       else skip_as fuel ftype v)]
    (skip_as fuel ftype v).
Definition read (fuel : nat) (v : t) : M (T := T) t := read_struct fuel (read_case fuel) v.

Definition write (v : t) : M (T := T) Z :=
  write_struct "VosdkCounter" [
    when (isset (header v))
       [writeFieldBegin "header" T_STRUCT 1;
        VosdkHeader.write (val (header v)); writeFieldEnd];
    when (isset (items v))
       [writeFieldBegin "items" T_LIST 2;
        write_list T_STRUCT VosdkCounterItem.write (val (items v)); writeFieldEnd]].
End code.
End VosdkCounter.

Module VosdkSession.
Record t := make {
  header : field VosdkHeader.t;
  vk : field bytes;
  ver : field bytes;
  net1 : field Z;
  net2 : field Z;
  localIp : field bytes;
  ssid : field bytes;
  bssid : field bytes;
  siglevel : field Z;
  rssi : field Z;
  os1 : field Z;
  did : field bytes;
  pnq : field Z;
  lost : field Z;
  info : field bytes;
  lsid : field bytes;
  channelMode : field Z;
  cheVer : field bytes;
  sdkBuildNumber : field Z;
  cheBuildNumber : field Z;
  fsid : field bytes;
  channelProfile : field Z;
  netSubType : field Z;
  clientType : field Z;
  appCategory : field Z;
  clientRole : field Z;
  installId : field bytes;
}.

Definition default : t :=
  make
    (unset VosdkHeader.default) (unset []) (unset []) (unset 0) (unset 0) (unset []) (unset [])
    (unset []) (unset 0) (unset 0) (unset 0) (unset []) (unset 0) (unset 0) (unset [])
    (unset []) (unset 0) (unset []) (unset 0) (unset 0) (unset []) (unset 0) (unset 0) (unset 0)
    (unset 0) (unset 0) (unset []).

Definition __set_header (a : VosdkHeader.t) (v : t) : t :=
  make
    (mkField a true) (vk v) (ver v) (net1 v) (net2 v) (localIp v) (ssid v) (bssid v)
    (siglevel v) (rssi v) (os1 v) (did v) (pnq v) (lost v) (info v) (lsid v) (channelMode v)
    (cheVer v) (sdkBuildNumber v) (cheBuildNumber v) (fsid v) (channelProfile v) (netSubType v)
    (clientType v) (appCategory v) (clientRole v) (installId v).
Definition __set_vk (a : bytes) (v : t) : t :=
  make
    (header v) (mkField a true) (ver v) (net1 v) (net2 v) (localIp v) (ssid v) (bssid v)
    (siglevel v) (rssi v) (os1 v) (did v) (pnq v) (lost v) (info v) (lsid v) (channelMode v)
    (cheVer v) (sdkBuildNumber v) (cheBuildNumber v) (fsid v) (channelProfile v) (netSubType v)
    (clientType v) (appCategory v) (clientRole v) (installId v).
Definition __set_ver (a : bytes) (v : t) : t :=
  make
    (header v) (vk v) (mkField a true) (net1 v) (net2 v) (localIp v) (ssid v) (bssid v)
    (siglevel v) (rssi v) (os1 v) (did v) (pnq v) (lost v) (info v) (lsid v) (channelMode v)
    (cheVer v) (sdkBuildNumber v) (cheBuildNumber v) (fsid v) (channelProfile v) (netSubType v)
    (clientType v) (appCategory v) (clientRole v) (installId v).
Definition __set_net1 (a : Z) (v : t) : t :=
  make
    (header v) (vk v) (ver v) (mkField a true) (net2 v) (localIp v) (ssid v) (bssid v)
    (siglevel v) (rssi v) (os1 v) (did v) (pnq v) (lost v) (info v) (lsid v) (channelMode v)
    (cheVer v) (sdkBuildNumber v) (cheBuildNumber v) (fsid v) (channelProfile v) (netSubType v)
    (clientType v) (appCategory v) (clientRole v) (installId v).
Definition __set_net2 (a : Z) (v : t) : t :=
  make
    (header v) (vk v) (ver v) (net1 v) (mkField a true) (localIp v) (ssid v) (bssid v)
    (siglevel v) (rssi v) (os1 v) (did v) (pnq v) (lost v) (info v) (lsid v) (channelMode v)
    (cheVer v) (sdkBuildNumber v) (cheBuildNumber v) (fsid v) (channelProfile v) (netSubType v)
    (clientType v) (appCategory v) (clientRole v) (installId v).
Definition __set_localIp (a : bytes) (v : t) : t :=
  make
    (header v) (vk v) (ver v) (net1 v) (net2 v) (mkField a true) (ssid v) (bssid v) (siglevel v)
    (rssi v) (os1 v) (did v) (pnq v) (lost v) (info v) (lsid v) (channelMode v) (cheVer v)
    (sdkBuildNumber v) (cheBuildNumber v) (fsid v) (channelProfile v) (netSubType v)
    (clientType v) (appCategory v) (clientRole v) (installId v).
Definition __set_ssid (a : bytes) (v : t) : t :=
  make
    (header v) (vk v) (ver v) (net1 v) (net2 v) (localIp v) (mkField a true) (bssid v)
    (siglevel v) (rssi v) (os1 v) (did v) (pnq v) (lost v) (info v) (lsid v) (channelMode v)
    (cheVer v) (sdkBuildNumber v) (cheBuildNumber v) (fsid v) (channelProfile v) (netSubType v)
    (clientType v) (appCategory v) (clientRole v) (installId v).
Definition __set_bssid (a : bytes) (v : t) : t :=
  make
    (header v) (vk v) (ver v) (net1 v) (net2 v) (localIp v) (ssid v) (mkField a true)
    (siglevel v) (rssi v) (os1 v) (did v) (pnq v) (lost v) (info v) (lsid v) (channelMode v)
    (cheVer v) (sdkBuildNumber v) (cheBuildNumber v) (fsid v) (channelProfile v) (netSubType v)
    (clientType v) (appCategory v) (clientRole v) (installId v).
Definition __set_siglevel (a : Z) (v : t) : t :=
  make
    (header v) (vk v) (ver v) (net1 v) (net2 v) (localIp v) (ssid v) (bssid v) (mkField a true)
    (rssi v) (os1 v) (did v) (pnq v) (lost v) (info v) (lsid v) (channelMode v) (cheVer v)
    (sdkBuildNumber v) (cheBuildNumber v) (fsid v) (channelProfile v) (netSubType v)
    (clientType v) (appCategory v) (clientRole v) (installId v).
Definition __set_rssi (a : Z) (v : t) : t :=
  make
    (header v) (vk v) (ver v) (net1 v) (net2 v) (localIp v) (ssid v) (bssid v) (siglevel v)
    (mkField a true) (os1 v) (did v) (pnq v) (lost v) (info v) (lsid v) (channelMode v)
    (cheVer v) (sdkBuildNumber v) (cheBuildNumber v) (fsid v) (channelProfile v) (netSubType v)
    (clientType v) (appCategory v) (clientRole v) (installId v).
Definition __set_os1 (a : Z) (v : t) : t :=
  make
    (header v) (vk v) (ver v) (net1 v) (net2 v) (localIp v) (ssid v) (bssid v) (siglevel v)
    (rssi v) (mkField a true) (did v) (pnq v) (lost v) (info v) (lsid v) (channelMode v)
    (cheVer v) (sdkBuildNumber v) (cheBuildNumber v) (fsid v) (channelProfile v) (netSubType v)
    (clientType v) (appCategory v) (clientRole v) (installId v).
Definition __set_did (a : bytes) (v : t) : t :=
  make
    (header v) (vk v) (ver v) (net1 v) (net2 v) (localIp v) (ssid v) (bssid v) (siglevel v)
    (rssi v) (os1 v) (mkField a true) (pnq v) (lost v) (info v) (lsid v) (channelMode v)
    (cheVer v) (sdkBuildNumber v) (cheBuildNumber v) (fsid v) (channelProfile v) (netSubType v)
    (clientType v) (appCategory v) (clientRole v) (installId v).
Definition __set_pnq (a : Z) (v : t) : t :=
  make
    (header v) (vk v) (ver v) (net1 v) (net2 v) (localIp v) (ssid v) (bssid v) (siglevel v)
    (rssi v) (os1 v) (did v) (mkField a true) (lost v) (info v) (lsid v) (channelMode v)
    (cheVer v) (sdkBuildNumber v) (cheBuildNumber v) (fsid v) (channelProfile v) (netSubType v)
    (clientType v) (appCategory v) (clientRole v) (installId v).
Definition __set_lost (a : Z) (v : t) : t :=
  make
    (header v) (vk v) (ver v) (net1 v) (net2 v) (localIp v) (ssid v) (bssid v) (siglevel v)
    (rssi v) (os1 v) (did v) (pnq v) (mkField a true) (info v) (lsid v) (channelMode v)
    (cheVer v) (sdkBuildNumber v) (cheBuildNumber v) (fsid v) (channelProfile v) (netSubType v)
    (clientType v) (appCategory v) (clientRole v) (installId v).
Definition __set_info (a : bytes) (v : t) : t :=
  make
    (header v) (vk v) (ver v) (net1 v) (net2 v) (localIp v) (ssid v) (bssid v) (siglevel v)
    (rssi v) (os1 v) (did v) (pnq v) (lost v) (mkField a true) (lsid v) (channelMode v)
    (cheVer v) (sdkBuildNumber v) (cheBuildNumber v) (fsid v) (channelProfile v) (netSubType v)
    (clientType v) (appCategory v) (clientRole v) (installId v).
Definition __set_lsid (a : bytes) (v : t) : t :=
  make
    (header v) (vk v) (ver v) (net1 v) (net2 v) (localIp v) (ssid v) (bssid v) (siglevel v)
    (rssi v) (os1 v) (did v) (pnq v) (lost v) (info v) (mkField a true) (channelMode v)
    (cheVer v) (sdkBuildNumber v) (cheBuildNumber v) (fsid v) (channelProfile v) (netSubType v)
    (clientType v) (appCategory v) (clientRole v) (installId v).
Definition __set_channelMode (a : Z) (v : t) : t :=
  make
    (header v) (vk v) (ver v) (net1 v) (net2 v) (localIp v) (ssid v) (bssid v) (siglevel v)
    (rssi v) (os1 v) (did v) (pnq v) (lost v) (info v) (lsid v) (mkField a true) (cheVer v)
    (sdkBuildNumber v) (cheBuildNumber v) (fsid v) (channelProfile v) (netSubType v)
    (clientType v) (appCategory v) (clientRole v) (installId v).
Definition __set_cheVer (a : bytes) (v : t) : t :=
  make
    (header v) (vk v) (ver v) (net1 v) (net2 v) (localIp v) (ssid v) (bssid v) (siglevel v)
    (rssi v) (os1 v) (did v) (pnq v) (lost v) (info v) (lsid v) (channelMode v) (mkField a true)
    (sdkBuildNumber v) (cheBuildNumber v) (fsid v) (channelProfile v) (netSubType v)
    (clientType v) (appCategory v) (clientRole v) (installId v).
Definition __set_sdkBuildNumber (a : Z) (v : t) : t :=
  make
    (header v) (vk v) (ver v) (net1 v) (net2 v) (localIp v) (ssid v) (bssid v) (siglevel v)
    (rssi v) (os1 v) (did v) (pnq v) (lost v) (info v) (lsid v) (channelMode v) (cheVer v)
    (mkField a true) (cheBuildNumber v) (fsid v) (channelProfile v) (netSubType v)
    (clientType v) (appCategory v) (clientRole v) (installId v).
Definition __set_cheBuildNumber (a : Z) (v : t) : t :=
  make
    (header v) (vk v) (ver v) (net1 v) (net2 v) (localIp v) (ssid v) (bssid v) (siglevel v)
    (rssi v) (os1 v) (did v) (pnq v) (lost v) (info v) (lsid v) (channelMode v) (cheVer v)
    (sdkBuildNumber v) (mkField a true) (fsid v) (channelProfile v) (netSubType v)
    (clientType v) (appCategory v) (clientRole v) (installId v).
Definition __set_fsid (a : bytes) (v : t) : t :=
  make
    (header v) (vk v) (ver v) (net1 v) (net2 v) (localIp v) (ssid v) (bssid v) (siglevel v)
    (rssi v) (os1 v) (did v) (pnq v) (lost v) (info v) (lsid v) (channelMode v) (cheVer v)
    (sdkBuildNumber v) (cheBuildNumber v) (mkField a true) (channelProfile v) (netSubType v)
    (clientType v) (appCategory v) (clientRole v) (installId v).
Definition __set_channelProfile (a : Z) (v : t) : t :=
  make
    (header v) (vk v) (ver v) (net1 v) (net2 v) (localIp v) (ssid v) (bssid v) (siglevel v)
    (rssi v) (os1 v) (did v) (pnq v) (lost v) (info v) (lsid v) (channelMode v) (cheVer v)
    (sdkBuildNumber v) (cheBuildNumber v) (fsid v) (mkField a true) (netSubType v)
    (clientType v) (appCategory v) (clientRole v) (installId v).
Definition __set_netSubType (a : Z) (v : t) : t :=
  make
    (header v) (vk v) (ver v) (net1 v) (net2 v) (localIp v) (ssid v) (bssid v) (siglevel v)
    (rssi v) (os1 v) (did v) (pnq v) (lost v) (info v) (lsid v) (channelMode v) (cheVer v)
    (sdkBuildNumber v) (cheBuildNumber v) (fsid v) (channelProfile v) (mkField a true)
    (clientType v) (appCategory v) (clientRole v) (installId v).
Definition __set_clientType (a : Z) (v : t) : t :=
  make
    (header v) (vk v) (ver v) (net1 v) (net2 v) (localIp v) (ssid v) (bssid v) (siglevel v)
    (rssi v) (os1 v) (did v) (pnq v) (lost v) (info v) (lsid v) (channelMode v) (cheVer v)
    (sdkBuildNumber v) (cheBuildNumber v) (fsid v) (channelProfile v) (netSubType v)
    (mkField a true) (appCategory v) (clientRole v) (installId v).
Definition __set_appCategory (a : Z) (v : t) : t :=
  make
    (header v) (vk v) (ver v) (net1 v) (net2 v) (localIp v) (ssid v) (bssid v) (siglevel v)
    (rssi v) (os1 v) (did v) (pnq v) (lost v) (info v) (lsid v) (channelMode v) (cheVer v)
    (sdkBuildNumber v) (cheBuildNumber v) (fsid v) (channelProfile v) (netSubType v)
    (clientType v) (mkField a true) (clientRole v) (installId v).
Definition __set_clientRole (a : Z) (v : t) : t :=
  make
    (header v) (vk v) (ver v) (net1 v) (net2 v) (localIp v) (ssid v) (bssid v) (siglevel v)
    (rssi v) (os1 v) (did v) (pnq v) (lost v) (info v) (lsid v) (channelMode v) (cheVer v)
    (sdkBuildNumber v) (cheBuildNumber v) (fsid v) (channelProfile v) (netSubType v)
    (clientType v) (appCategory v) (mkField a true) (installId v).
Definition __set_installId (a : bytes) (v : t) : t :=
  make
    (header v) (vk v) (ver v) (net1 v) (net2 v) (localIp v) (ssid v) (bssid v) (siglevel v)
    (rssi v) (os1 v) (did v) (pnq v) (lost v) (info v) (lsid v) (channelMode v) (cheVer v)
    (sdkBuildNumber v) (cheBuildNumber v) (fsid v) (channelProfile v) (netSubType v)
    (clientType v) (appCategory v) (clientRole v) (mkField a true).

Definition eqb (v rhs : t) : bool :=
  all
    [field_eqb VosdkHeader.eqb (header v) (header rhs);
     field_eqb bytes_eqb (vk v) (vk rhs);
     field_eqb bytes_eqb (ver v) (ver rhs);
     field_eqb Z.eqb (net1 v) (net1 rhs);
     field_eqb Z.eqb (net2 v) (net2 rhs);
     field_eqb bytes_eqb (localIp v) (localIp rhs);
     field_eqb bytes_eqb (ssid v) (ssid rhs);
     field_eqb bytes_eqb (bssid v) (bssid rhs);
     field_eqb Z.eqb (siglevel v) (siglevel rhs);
     field_eqb Z.eqb (rssi v) (rssi rhs);
     field_eqb Z.eqb (os1 v) (os1 rhs);
     field_eqb bytes_eqb (did v) (did rhs);
     field_eqb Z.eqb (pnq v) (pnq rhs);
     field_eqb Z.eqb (lost v) (lost rhs);
     field_eqb bytes_eqb (info v) (info rhs);
     field_eqb bytes_eqb (lsid v) (lsid rhs);
     field_eqb Z.eqb (channelMode v) (channelMode rhs);
     field_eqb bytes_eqb (cheVer v) (cheVer rhs);
     field_eqb Z.eqb (sdkBuildNumber v) (sdkBuildNumber rhs);
     field_eqb Z.eqb (cheBuildNumber v) (cheBuildNumber rhs);
     field_eqb bytes_eqb (fsid v) (fsid rhs);
     field_eqb Z.eqb (channelProfile v) (channelProfile rhs);
     field_eqb Z.eqb (netSubType v) (netSubType rhs);
     field_eqb Z.eqb (clientType v) (clientType rhs);
     field_eqb Z.eqb (appCategory v) (appCategory rhs);
     field_eqb Z.eqb (clientRole v) (clientRole rhs);
     field_eqb bytes_eqb (installId v) (installId rhs)].

Section code.
Context {T : Type} `{Transport T}.

Definition read_case (fuel : nat) (fid : Z) (ftype : TType) (v : t) : M (T := T) t :=
  switch fid [
    (1, if ftype =? T_STRUCT then x ← VosdkHeader.read fuel (val (header v)); mret (__set_header x v)
       else skip_as fuel ftype v);
    (5, if ftype =? T_STRING then x ← into (val (vk v)) readString; mret (__set_vk x v)
       else skip_as fuel ftype v);
    (6, if ftype =? T_STRING then x ← into (val (ver v)) readString; mret (__set_ver x v)
       else skip_as fuel ftype v);
    (7, if ftype =? T_I32 then x ← into (val (net1 v)) readI32; mret (__set_net1 x v)
       else skip_as fuel ftype v);
    (8, if ftype =? T_I32 then x ← into (val (net2 v)) readI32; mret (__set_net2 x v)
       else skip_as fuel ftype v);
    (9, if ftype =? T_STRING then x ← into (val (localIp v)) readString; mret (__set_localIp x v)
       else skip_as fuel ftype v);
    (10, if ftype =? T_STRING then x ← into (val (ssid v)) readString; mret (__set_ssid x v)
       else skip_as fuel ftype v);
    (11, if ftype =? T_STRING then x ← into (val (bssid v)) readString; mret (__set_bssid x v)
       else skip_as fuel ftype v);
    (12, if ftype =? T_I32 then x ← into (val (siglevel v)) readI32; mret (__set_siglevel x v)
       else skip_as fuel ftype v);
    (13, if ftype =? T_I32 then x ← into (val (rssi v)) readI32; mret (__set_rssi x v)
       else skip_as fuel ftype v);
    (14, if ftype =? T_I32 then x ← into (val (os1 v)) readI32; mret (__set_os1 x v)
       else skip_as fuel ftype v);
    (15, if ftype =? T_STRING then x ← into (val (did v)) readString; mret (__set_did x v)
       else skip_as fuel ftype v);
    (16, if ftype =? T_I32 then x ← into (val (pnq v)) readI32; mret (__set_pnq x v)
       else skip_as fuel ftype v);
    (17, if ftype =? T_I32 then x ← into (val (lost v)) readI32; mret (__set_lost x v)
       else skip_as fuel ftype v);
    (18, if ftype =? T_STRING then x ← into (val (info v)) readString; mret (__set_info x v)
       else skip_as fuel ftype v);
    (19, if ftype =? T_STRING then x ← into (val (lsid v)) readString; mret (__set_lsid x v)
       else skip_as fuel ftype v);
    (20, if ftype =? T_I32 then x ← into (val (channelMode v)) readI32; mret (__set_channelMode x v)
       else skip_as fuel ftype v);
    (21, if ftype =? T_STRING then x ← into (val (cheVer v)) readString; mret (__set_cheVer x v)
       else skip_as fuel ftype v);
    (22, if ftype =? T_I32 then x ← into (val (sdkBuildNumber v)) readI32; mret (__set_sdkBuildNumber x v)
       else skip_as fuel ftype v);
    (23, if ftype =? T_I32 then x ← into (val (cheBuildNumber v)) readI32; mret (__set_cheBuildNumber x v)
       else skip_as fuel ftype v);
    (24, if ftype =? T_STRING then x ← into (val (fsid v)) readString; mret (__set_fsid x v)
       else skip_as fuel ftype v);
    (25, if ftype =? T_I32 then x ← into (val (channelProfile v)) readI32; mret (__set_channelProfile x v)
       else skip_as fuel ftype v);
    (26, if ftype =? T_I32 then x ← into (val (netSubType v)) readI32; mret (__set_netSubType x v)
       else skip_as fuel ftype v);
    (27, if ftype =? T_I32 then x ← into (val (clientType v)) readI32; mret (__set_clientType x v)
       else skip_as fuel ftype v);
    (28, if ftype =? T_I32 then x ← into (val (appCategory v)) readI32; mret (__set_appCategory x v)
       else skip_as fuel ftype v);
    (29, if ftype =? T_I32 then x ← into (val (clientRole v)) readI32; mret (__set_clientRole x v)
       else skip_as fuel ftype v);
    (30, if ftype =? T_STRING then x ← into (val (installId v)) readString; mret (__set_installId x v)
       else skip_as fuel ftype v)]
    (skip_as fuel ftype v).
Definition read (fuel : nat) (v : t) : M (T := T) t := read_struct fuel (read_case fuel) v.

Definition write (v : t) : M (T := T) Z :=
  write_struct "VosdkSession" [
    when (isset (header v))
       [writeFieldBegin "header" T_STRUCT 1;
        VosdkHeader.write (val (header v)); writeFieldEnd];
    when (isset (vk v))
       [writeFieldBegin "vk" T_STRING 5;
        writeString (val (vk v)); writeFieldEnd];
    when (isset (ver v))
       [writeFieldBegin "ver" T_STRING 6;
        writeString (val (ver v)); writeFieldEnd];
    when (isset (net1 v))
       [writeFieldBegin "net1" T_I32 7;
        writeI32 (val (net1 v)); writeFieldEnd];
    when (isset (net2 v))
       [writeFieldBegin "net2" T_I32 8;
        writeI32 (val (net2 v)); writeFieldEnd];
    when (isset (localIp v))
       [writeFieldBegin "localIp" T_STRING 9;
        writeString (val (localIp v)); writeFieldEnd];
    when (isset (ssid v))
       [writeFieldBegin "ssid" T_STRING 10;
        writeString (val (ssid v)); writeFieldEnd];
    when (isset (bssid v))
       [writeFieldBegin "bssid" T_STRING 11;
        writeString (val (bssid v)); writeFieldEnd];
    when (isset (siglevel v))
       [writeFieldBegin "siglevel" T_I32 12;
        writeI32 (val (siglevel v)); writeFieldEnd];
    when (isset (rssi v))
       [writeFieldBegin "rssi" T_I32 13;
        writeI32 (val (rssi v)); writeFieldEnd];
    when (isset (os1 v))
       [writeFieldBegin "os1" T_I32 14;
        writeI32 (val (os1 v)); writeFieldEnd];
    when (isset (did v))
       [writeFieldBegin "did" T_STRING 15;
        writeString (val (did v)); writeFieldEnd];
    when (isset (pnq v))
       [writeFieldBegin "pnq" T_I32 16;
        writeI32 (val (pnq v)); writeFieldEnd];
    when (isset (lost v))
       [writeFieldBegin "lost" T_I32 17;
        writeI32 (val (lost v)); writeFieldEnd];
    when (isset (info v))
       [writeFieldBegin "info" T_STRING 18;
        writeString (val (info v)); writeFieldEnd];
    when (isset (lsid v))
       [writeFieldBegin "lsid" T_STRING 19;
        writeString (val (lsid v)); writeFieldEnd];
    when (isset (channelMode v))
       [writeFieldBegin "channelMode" T_I32 20;
        writeI32 (val (channelMode v)); writeFieldEnd];
    when (isset (cheVer v))
       [writeFieldBegin "cheVer" T_STRING 21;
        writeString (val (cheVer v)); writeFieldEnd];
    when (isset (sdkBuildNumber v))
       [writeFieldBegin "sdkBuildNumber" T_I32 22;
        writeI32 (val (sdkBuildNumber v)); writeFieldEnd];
    when (isset (cheBuildNumber v))
       [writeFieldBegin "cheBuildNumber" T_I32 23;
        writeI32 (val (cheBuildNumber v)); writeFieldEnd];
    when (isset (fsid v))
       [writeFieldBegin "fsid" T_STRING 24;
        writeString (val (fsid v)); writeFieldEnd];
    when (isset (channelProfile v))
       [writeFieldBegin "channelProfile" T_I32 25;
        writeI32 (val (channelProfile v)); writeFieldEnd];
    when (isset (netSubType v))
       [writeFieldBegin "netSubType" T_I32 26;
        writeI32 (val (netSubType v)); writeFieldEnd];
    when (isset (clientType v))
       [writeFieldBegin "clientType" T_I32 27;
        writeI32 (val (clientType v)); writeFieldEnd];
    when (isset (appCategory v))
       [writeFieldBegin "appCategory" T_I32 28;
        writeI32 (val (appCategory v)); writeFieldEnd];
    when (isset (clientRole v))
       [writeFieldBegin "clientRole" T_I32 29;
        writeI32 (val (clientRole v)); writeFieldEnd];
    when (isset (installId v))
       [writeFieldBegin "installId" T_STRING 30;
        writeString (val (installId v)); writeFieldEnd]].
End code.
End VosdkSession.

Module VosdkVocs.
Record t := make {
  header : field VosdkHeader.t;
  ec : field Z;
  sc : field Z;
  serverIp : field bytes;
  firstSuccess : field bool;
  responseTime : field Z;
  serverIpList : field (list bytes);
  ssid : field bytes;
  bssid : field bytes;
  localWanIp : field bytes;
  ispName : field bytes;
  minorIsp : field bool;
}.

Definition default : t :=
  make
    (unset VosdkHeader.default) (unset 0) (unset 0) (unset []) (unset false) (unset 0)
    (unset []) (unset []) (unset []) (unset []) (unset []) (unset false).

Definition __set_header (a : VosdkHeader.t) (v : t) : t :=
  make
    (mkField a true) (ec v) (sc v) (serverIp v) (firstSuccess v) (responseTime v)
    (serverIpList v) (ssid v) (bssid v) (localWanIp v) (ispName v) (minorIsp v).
Definition __set_ec (a : Z) (v : t) : t :=
  make
    (header v) (mkField a true) (sc v) (serverIp v) (firstSuccess v) (responseTime v)
    (serverIpList v) (ssid v) (bssid v) (localWanIp v) (ispName v) (minorIsp v).
Definition __set_sc (a : Z) (v : t) : t :=
  make
    (header v) (ec v) (mkField a true) (serverIp v) (firstSuccess v) (responseTime v)
    (serverIpList v) (ssid v) (bssid v) (localWanIp v) (ispName v) (minorIsp v).
Definition __set_serverIp (a : bytes) (v : t) : t :=
  make
    (header v) (ec v) (sc v) (mkField a true) (firstSuccess v) (responseTime v) (serverIpList v)
    (ssid v) (bssid v) (localWanIp v) (ispName v) (minorIsp v).
Definition __set_firstSuccess (a : bool) (v : t) : t :=
  make
    (header v) (ec v) (sc v) (serverIp v) (mkField a true) (responseTime v) (serverIpList v)
    (ssid v) (bssid v) (localWanIp v) (ispName v) (minorIsp v).
Definition __set_responseTime (a : Z) (v : t) : t :=
  make
    (header v) (ec v) (sc v) (serverIp v) (firstSuccess v) (mkField a true) (serverIpList v)
    (ssid v) (bssid v) (localWanIp v) (ispName v) (minorIsp v).
Definition __set_serverIpList (a : list bytes) (v : t) : t :=
  make
    (header v) (ec v) (sc v) (serverIp v) (firstSuccess v) (responseTime v) (mkField a true)
    (ssid v) (bssid v) (localWanIp v) (ispName v) (minorIsp v).
Definition __set_ssid (a : bytes) (v : t) : t :=
  make
    (header v) (ec v) (sc v) (serverIp v) (firstSuccess v) (responseTime v) (serverIpList v)
    (mkField a true) (bssid v) (localWanIp v) (ispName v) (minorIsp v).
Definition __set_bssid (a : bytes) (v : t) : t :=
  make
    (header v) (ec v) (sc v) (serverIp v) (firstSuccess v) (responseTime v) (serverIpList v)
    (ssid v) (mkField a true) (localWanIp v) (ispName v) (minorIsp v).
Definition __set_localWanIp (a : bytes) (v : t) : t :=
  make
    (header v) (ec v) (sc v) (serverIp v) (firstSuccess v) (responseTime v) (serverIpList v)
    (ssid v) (bssid v) (mkField a true) (ispName v) (minorIsp v).
Definition __set_ispName (a : bytes) (v : t) : t :=
  make
    (header v) (ec v) (sc v) (serverIp v) (firstSuccess v) (responseTime v) (serverIpList v)
    (ssid v) (bssid v) (localWanIp v) (mkField a true) (minorIsp v).
Definition __set_minorIsp (a : bool) (v : t) : t :=
  make
    (header v) (ec v) (sc v) (serverIp v) (firstSuccess v) (responseTime v) (serverIpList v)
    (ssid v) (bssid v) (localWanIp v) (ispName v) (mkField a true).

Definition eqb (v rhs : t) : bool :=
  all
    [field_eqb VosdkHeader.eqb (header v) (header rhs);
     field_eqb Z.eqb (ec v) (ec rhs);
     field_eqb Z.eqb (sc v) (sc rhs);
     field_eqb bytes_eqb (serverIp v) (serverIp rhs);
     field_eqb Bool.eqb (firstSuccess v) (firstSuccess rhs);
     field_eqb Z.eqb (responseTime v) (responseTime rhs);
     field_eqb (list_eqb bytes_eqb) (serverIpList v) (serverIpList rhs);
     field_eqb bytes_eqb (ssid v) (ssid rhs);
     field_eqb bytes_eqb (bssid v) (bssid rhs);
     field_eqb bytes_eqb (localWanIp v) (localWanIp rhs);
     field_eqb bytes_eqb (ispName v) (ispName rhs);
     field_eqb Bool.eqb (minorIsp v) (minorIsp rhs)].

Section code.
Context {T : Type} `{Transport T}.

Definition read_case (fuel : nat) (fid : Z) (ftype : TType) (v : t) : M (T := T) t :=
  switch fid [
    (1, if ftype =? T_STRUCT then x ← VosdkHeader.read fuel (val (header v)); mret (__set_header x v)
       else skip_as fuel ftype v);
    (5, if ftype =? T_I32 then x ← into (val (ec v)) readI32; mret (__set_ec x v)
       else skip_as fuel ftype v);
    (6, if ftype =? T_I32 then x ← into (val (sc v)) readI32; mret (__set_sc x v)
       else skip_as fuel ftype v);
    (7, if ftype =? T_STRING then x ← into (val (serverIp v)) readString; mret (__set_serverIp x v)
       else skip_as fuel ftype v);
    (8, if ftype =? T_BOOL then x ← into (val (firstSuccess v)) readBool; mret (__set_firstSuccess x v)
       else skip_as fuel ftype v);
    (9, if ftype =? T_I32 then x ← into (val (responseTime v)) readI32; mret (__set_responseTime x v)
       else skip_as fuel ftype v);
    (10, if ftype =? T_LIST then x ← read_list [] (λ a, into a readString); mret (__set_serverIpList x v)
       else skip_as fuel ftype v);
    (11, if ftype =? T_STRING then x ← into (val (ssid v)) readString; mret (__set_ssid x v)
       else skip_as fuel ftype v);
    (12, if ftype =? T_STRING then x ← into (val (bssid v)) readString; mret (__set_bssid x v)
       else skip_as fuel ftype v);
    (13, if ftype =? T_STRING then x ← into (val (localWanIp v)) readString; mret (__set_localWanIp x v)
       else skip_as fuel ftype v);
    (14, if ftype =? T_STRING then x ← into (val (ispName v)) readString; mret (__set_ispName x v)
       else skip_as fuel ftype v);
    (15, if ftype =? T_BOOL then x ← into (val (minorIsp v)) readBool; mret (__set_minorIsp x v)
       else skip_as fuel ftype v)]
    (skip_as fuel ftype v).
Definition read (fuel : nat) (v : t) : M (T := T) t := read_struct fuel (read_case fuel) v.

Definition write (v : t) : M (T := T) Z :=
  write_struct "VosdkVocs" [
    when (isset (header v))
       [writeFieldBegin "header" T_STRUCT 1;
        VosdkHeader.write (val (header v)); writeFieldEnd];
    when (isset (ec v))
       [writeFieldBegin "ec" T_I32 5;
        writeI32 (val (ec v)); writeFieldEnd];
    when (isset (sc v))
       [writeFieldBegin "sc" T_I32 6;
        writeI32 (val (sc v)); writeFieldEnd];
    when (isset (serverIp v))
       [writeFieldBegin "serverIp" T_STRING 7;
        writeString (val (serverIp v)); writeFieldEnd];
    when (isset (firstSuccess v))
       [writeFieldBegin "firstSuccess" T_BOOL 8;
        writeBool (val (firstSuccess v)); writeFieldEnd];
    when (isset (responseTime v))
       [writeFieldBegin "responseTime" T_I32 9;
        writeI32 (val (responseTime v)); writeFieldEnd];
    when (isset (serverIpList v))
       [writeFieldBegin "serverIpList" T_LIST 10;
        write_list T_STRING writeString (val (serverIpList v)); writeFieldEnd];
    when (isset (ssid v))
       [writeFieldBegin "ssid" T_STRING 11;
        writeString (val (ssid v)); writeFieldEnd];
    when (isset (bssid v))
       [writeFieldBegin "bssid" T_STRING 12;
        writeString (val (bssid v)); writeFieldEnd];
    when (isset (localWanIp v))
       [writeFieldBegin "localWanIp" T_STRING 13;
        writeString (val (localWanIp v)); writeFieldEnd];
    when (isset (ispName v))
       [writeFieldBegin "ispName" T_STRING 14;
        writeString (val (ispName v)); writeFieldEnd];
    when (isset (minorIsp v))
       [writeFieldBegin "minorIsp" T_BOOL 15;
        writeBool (val (minorIsp v)); writeFieldEnd]].
End code.
End VosdkVocs.

Module VosdkVos.
Record t := make {
  header : field VosdkHeader.t;
  ec : field Z;
  sc : field Z;
  serverIp : field bytes;
  vosList : field (list bytes);
  firstSuccess : field bool;
  channelCount : field Z;
  responseTime : field Z;
}.

Definition default : t :=
  make
    (unset VosdkHeader.default) (unset 0) (unset 0) (unset []) (unset []) (unset false)
    (unset 0) (unset 0).

Definition __set_header (a : VosdkHeader.t) (v : t) : t :=
  make
    (mkField a true) (ec v) (sc v) (serverIp v) (vosList v) (firstSuccess v) (channelCount v)
    (responseTime v).
Definition __set_ec (a : Z) (v : t) : t :=
  make
    (header v) (mkField a true) (sc v) (serverIp v) (vosList v) (firstSuccess v)
    (channelCount v) (responseTime v).
Definition __set_sc (a : Z) (v : t) : t :=
  make
    (header v) (ec v) (mkField a true) (serverIp v) (vosList v) (firstSuccess v)
    (channelCount v) (responseTime v).
Definition __set_serverIp (a : bytes) (v : t) : t :=
  make
    (header v) (ec v) (sc v) (mkField a true) (vosList v) (firstSuccess v) (channelCount v)
    (responseTime v).
Definition __set_vosList (a : list bytes) (v : t) : t :=
  make
    (header v) (ec v) (sc v) (serverIp v) (mkField a true) (firstSuccess v) (channelCount v)
    (responseTime v).
Definition __set_firstSuccess (a : bool) (v : t) : t :=
  make
    (header v) (ec v) (sc v) (serverIp v) (vosList v) (mkField a true) (channelCount v)
    (responseTime v).
Definition __set_channelCount (a : Z) (v : t) : t :=
  make
    (header v) (ec v) (sc v) (serverIp v) (vosList v) (firstSuccess v) (mkField a true)
    (responseTime v).
Definition __set_responseTime (a : Z) (v : t) : t :=
  make
    (header v) (ec v) (sc v) (serverIp v) (vosList v) (firstSuccess v) (channelCount v)
    (mkField a true).

Definition eqb (v rhs : t) : bool :=
  all
    [field_eqb VosdkHeader.eqb (header v) (header rhs);
     field_eqb Z.eqb (ec v) (ec rhs);
     field_eqb Z.eqb (sc v) (sc rhs);
     field_eqb bytes_eqb (serverIp v) (serverIp rhs);
     field_eqb (list_eqb bytes_eqb) (vosList v) (vosList rhs);
     field_eqb Bool.eqb (firstSuccess v) (firstSuccess rhs);
     field_eqb Z.eqb (channelCount v) (channelCount rhs);
     field_eqb Z.eqb (responseTime v) (responseTime rhs)].

Section code.
Context {T : Type} `{Transport T}.

Definition read_case (fuel : nat) (fid : Z) (ftype : TType) (v : t) : M (T := T) t :=
  switch fid [
    (1, if ftype =? T_STRUCT then x ← VosdkHeader.read fuel (val (header v)); mret (__set_header x v)
       else skip_as fuel ftype v);
    (5, if ftype =? T_I32 then x ← into (val (ec v)) readI32; mret (__set_ec x v)
       else skip_as fuel ftype v);
    (6, if ftype =? T_I32 then x ← into (val (sc v)) readI32; mret (__set_sc x v)
       else skip_as fuel ftype v);
    (7, if ftype =? T_STRING then x ← into (val (serverIp v)) readString; mret (__set_serverIp x v)
       else skip_as fuel ftype v);
    (8, if ftype =? T_LIST then x ← read_list [] (λ a, into a readString); mret (__set_vosList x v)
       else skip_as fuel ftype v);
    (9, if ftype =? T_BOOL then x ← into (val (firstSuccess v)) readBool; mret (__set_firstSuccess x v)
       else skip_as fuel ftype v);
    (10, if ftype =? T_I32 then x ← into (val (channelCount v)) readI32; mret (__set_channelCount x v)
       else skip_as fuel ftype v);
    (11, if ftype =? T_I32 then x ← into (val (responseTime v)) readI32; mret (__set_responseTime x v)
       else skip_as fuel ftype v)]
    (skip_as fuel ftype v).
Definition read (fuel : nat) (v : t) : M (T := T) t := read_struct fuel (read_case fuel) v.

Definition write (v : t) : M (T := T) Z :=
  write_struct "VosdkVos" [
    when (isset (header v))
       [writeFieldBegin "header" T_STRUCT 1;
        VosdkHeader.write (val (header v)); writeFieldEnd];
    when (isset (ec v))
       [writeFieldBegin "ec" T_I32 5;
        writeI32 (val (ec v)); writeFieldEnd];
    when (isset (sc v))
       [writeFieldBegin "sc" T_I32 6;
        writeI32 (val (sc v)); writeFieldEnd];
    when (isset (serverIp v))
       [writeFieldBegin "serverIp" T_STRING 7;
        writeString (val (serverIp v)); writeFieldEnd];
    when (isset (vosList v))
       [writeFieldBegin "vosList" T_LIST 8;
        write_list T_STRING writeString (val (vosList v)); writeFieldEnd];
    when (isset (firstSuccess v))
       [writeFieldBegin "firstSuccess" T_BOOL 9;
        writeBool (val (firstSuccess v)); writeFieldEnd];
    when (isset (channelCount v))
       [writeFieldBegin "channelCount" T_I32 10;
        writeI32 (val (channelCount v)); writeFieldEnd];
    when (isset (responseTime v))
       [writeFieldBegin "responseTime" T_I32 11;
        writeI32 (val (responseTime v)); writeFieldEnd]].
End code.
End VosdkVos.

Module VosdkWebQuit.
Record t := make {
  header : field VosdkHeader.t;
  ec : field Z;
}.

Definition default : t :=
  make
    (unset VosdkHeader.default) (unset 0).

Definition __set_header (a : VosdkHeader.t) (v : t) : t :=
  make
    (mkField a true) (ec v).
Definition __set_ec (a : Z) (v : t) : t :=
  make
    (header v) (mkField a true).

Definition eqb (v rhs : t) : bool :=
  all
    [field_eqb VosdkHeader.eqb (header v) (header rhs);
     field_eqb Z.eqb (ec v) (ec rhs)].

Section code.
Context {T : Type} `{Transport T}.

Definition read_case (fuel : nat) (fid : Z) (ftype : TType) (v : t) : M (T := T) t :=
  switch fid [
    (1, if ftype =? T_STRUCT then x ← VosdkHeader.read fuel (val (header v)); mret (__set_header x v)
       else skip_as fuel ftype v);
    (2, if ftype =? T_I32 then x ← into (val (ec v)) readI32; mret (__set_ec x v)
       else skip_as fuel ftype v)]
    (skip_as fuel ftype v).
Definition read (fuel : nat) (v : t) : M (T := T) t := read_struct fuel (read_case fuel) v.

Definition write (v : t) : M (T := T) Z :=
  write_struct "VosdkWebQuit" [
    when (isset (header v))
       [writeFieldBegin "header" T_STRUCT 1;
        VosdkHeader.write (val (header v)); writeFieldEnd];
    when (isset (ec v))
       [writeFieldBegin "ec" T_I32 2;
        writeI32 (val (ec v)); writeFieldEnd]].
End code.
End VosdkWebQuit.

Module WrtcBrowser2Gateway.
Record t := make {
  vid : field Z;
  cid : field Z;
  uid : field Z;
  vos_id : field Z;
  source_ip : field Z;
  source_port : field Z;
  dest_ip : field Z;
  dest_port : field Z;
  delay : field Z;
  jitter100 : field Z;
  jitter95 : field Z;
  jitter90 : field Z;
  lost_ratio : field Z;
  lost_ratio2 : field Z;
  lost_ratio3 : field Z;
  lts : field Z;
  sid : field bytes;
}.

Definition default : t :=
  make
    (unset 0) (unset 0) (unset 0) (unset 0) (unset 0) (unset 0) (unset 0) (unset 0) (unset 0)
    (unset 0) (unset 0) (unset 0) (unset 0) (unset 0) (unset 0) (unset 0) (unset []).

Definition __set_vid (a : Z) (v : t) : t :=
  make
    (mkField a true) (cid v) (uid v) (vos_id v) (source_ip v) (source_port v) (dest_ip v)
    (dest_port v) (delay v) (jitter100 v) (jitter95 v) (jitter90 v) (lost_ratio v)
    (lost_ratio2 v) (lost_ratio3 v) (lts v) (sid v).
Definition __set_cid (a : Z) (v : t) : t :=
  make
    (vid v) (mkField a true) (uid v) (vos_id v) (source_ip v) (source_port v) (dest_ip v)
    (dest_port v) (delay v) (jitter100 v) (jitter95 v) (jitter90 v) (lost_ratio v)
    (lost_ratio2 v) (lost_ratio3 v) (lts v) (sid v).
Definition __set_uid (a : Z) (v : t) : t :=
  make
    (vid v) (cid v) (mkField a true) (vos_id v) (source_ip v) (source_port v) (dest_ip v)
    (dest_port v) (delay v) (jitter100 v) (jitter95 v) (jitter90 v) (lost_ratio v)
    (lost_ratio2 v) (lost_ratio3 v) (lts v) (sid v).
Definition __set_vos_id (a : Z) (v : t) : t :=
  make
    (vid v) (cid v) (uid v) (mkField a true) (source_ip v) (source_port v) (dest_ip v)
    (dest_port v) (delay v) (jitter100 v) (jitter95 v) (jitter90 v) (lost_ratio v)
    (lost_ratio2 v) (lost_ratio3 v) (lts v) (sid v).
Definition __set_source_ip (a : Z) (v : t) : t :=
  make
    (vid v) (cid v) (uid v) (vos_id v) (mkField a true) (source_port v) (dest_ip v)
    (dest_port v) (delay v) (jitter100 v) (jitter95 v) (jitter90 v) (lost_ratio v)
    (lost_ratio2 v) (lost_ratio3 v) (lts v) (sid v).
Definition __set_source_port (a : Z) (v : t) : t :=
  make
    (vid v) (cid v) (uid v) (vos_id v) (source_ip v) (mkField a true) (dest_ip v) (dest_port v)
    (delay v) (jitter100 v) (jitter95 v) (jitter90 v) (lost_ratio v) (lost_ratio2 v)
    (lost_ratio3 v) (lts v) (sid v).
Definition __set_dest_ip (a : Z) (v : t) : t :=
  make
    (vid v) (cid v) (uid v) (vos_id v) (source_ip v) (source_port v) (mkField a true)
    (dest_port v) (delay v) (jitter100 v) (jitter95 v) (jitter90 v) (lost_ratio v)
    (lost_ratio2 v) (lost_ratio3 v) (lts v) (sid v).
Definition __set_dest_port (a : Z) (v : t) : t :=
  make
    (vid v) (cid v) (uid v) (vos_id v) (source_ip v) (source_port v) (dest_ip v)
    (mkField a true) (delay v) (jitter100 v) (jitter95 v) (jitter90 v) (lost_ratio v)
    (lost_ratio2 v) (lost_ratio3 v) (lts v) (sid v).
Definition __set_delay (a : Z) (v : t) : t :=
  make
    (vid v) (cid v) (uid v) (vos_id v) (source_ip v) (source_port v) (dest_ip v) (dest_port v)
    (mkField a true) (jitter100 v) (jitter95 v) (jitter90 v) (lost_ratio v) (lost_ratio2 v)
    (lost_ratio3 v) (lts v) (sid v).
Definition __set_jitter100 (a : Z) (v : t) : t :=
  make
    (vid v) (cid v) (uid v) (vos_id v) (source_ip v) (source_port v) (dest_ip v) (dest_port v)
    (delay v) (mkField a true) (jitter95 v) (jitter90 v) (lost_ratio v) (lost_ratio2 v)
    (lost_ratio3 v) (lts v) (sid v).
Definition __set_jitter95 (a : Z) (v : t) : t :=
  make
    (vid v) (cid v) (uid v) (vos_id v) (source_ip v) (source_port v) (dest_ip v) (dest_port v)
    (delay v) (jitter100 v) (mkField a true) (jitter90 v) (lost_ratio v) (lost_ratio2 v)
    (lost_ratio3 v) (lts v) (sid v).
Definition __set_jitter90 (a : Z) (v : t) : t :=
  make
    (vid v) (cid v) (uid v) (vos_id v) (source_ip v) (source_port v) (dest_ip v) (dest_port v)
    (delay v) (jitter100 v) (jitter95 v) (mkField a true) (lost_ratio v) (lost_ratio2 v)
    (lost_ratio3 v) (lts v) (sid v).
Definition __set_lost_ratio (a : Z) (v : t) : t :=
  make
    (vid v) (cid v) (uid v) (vos_id v) (source_ip v) (source_port v) (dest_ip v) (dest_port v)
    (delay v) (jitter100 v) (jitter95 v) (jitter90 v) (mkField a true) (lost_ratio2 v)
    (lost_ratio3 v) (lts v) (sid v).
Definition __set_lost_ratio2 (a : Z) (v : t) : t :=
  make
    (vid v) (cid v) (uid v) (vos_id v) (source_ip v) (source_port v) (dest_ip v) (dest_port v)
    (delay v) (jitter100 v) (jitter95 v) (jitter90 v) (lost_ratio v) (mkField a true)
    (lost_ratio3 v) (lts v) (sid v).
Definition __set_lost_ratio3 (a : Z) (v : t) : t :=
  make
    (vid v) (cid v) (uid v) (vos_id v) (source_ip v) (source_port v) (dest_ip v) (dest_port v)
    (delay v) (jitter100 v) (jitter95 v) (jitter90 v) (lost_ratio v) (lost_ratio2 v)
    (mkField a true) (lts v) (sid v).
Definition __set_lts (a : Z) (v : t) : t :=
  make
    (vid v) (cid v) (uid v) (vos_id v) (source_ip v) (source_port v) (dest_ip v) (dest_port v)
    (delay v) (jitter100 v) (jitter95 v) (jitter90 v) (lost_ratio v) (lost_ratio2 v)
    (lost_ratio3 v) (mkField a true) (sid v).
Definition __set_sid (a : bytes) (v : t) : t :=
  make
    (vid v) (cid v) (uid v) (vos_id v) (source_ip v) (source_port v) (dest_ip v) (dest_port v)
    (delay v) (jitter100 v) (jitter95 v) (jitter90 v) (lost_ratio v) (lost_ratio2 v)
    (lost_ratio3 v) (lts v) (mkField a true).

Definition eqb (v rhs : t) : bool :=
  all
    [field_eqb Z.eqb (vid v) (vid rhs);
     field_eqb Z.eqb (cid v) (cid rhs);
     field_eqb Z.eqb (uid v) (uid rhs);
     field_eqb Z.eqb (vos_id v) (vos_id rhs);
     field_eqb Z.eqb (source_ip v) (source_ip rhs);
     field_eqb Z.eqb (source_port v) (source_port rhs);
     field_eqb Z.eqb (dest_ip v) (dest_ip rhs);
     field_eqb Z.eqb (dest_port v) (dest_port rhs);
     field_eqb Z.eqb (delay v) (delay rhs);
     field_eqb Z.eqb (jitter100 v) (jitter100 rhs);
     field_eqb Z.eqb (jitter95 v) (jitter95 rhs);
     field_eqb Z.eqb (jitter90 v) (jitter90 rhs);
     field_eqb Z.eqb (lost_ratio v) (lost_ratio rhs);
     field_eqb Z.eqb (lost_ratio2 v) (lost_ratio2 rhs);
     field_eqb Z.eqb (lost_ratio3 v) (lost_ratio3 rhs);
     field_eqb Z.eqb (lts v) (lts rhs);
     field_eqb bytes_eqb (sid v) (sid rhs)].

Section code.
Context {T : Type} `{Transport T}.

Definition read_case (fuel : nat) (fid : Z) (ftype : TType) (v : t) : M (T := T) t :=
  switch fid [
    (1, if ftype =? T_I32 then x ← into (val (vid v)) readI32; mret (__set_vid x v)
       else skip_as fuel ftype v);
    (2, if ftype =? T_I64 then x ← into (val (cid v)) readI64; mret (__set_cid x v)
       else skip_as fuel ftype v);
    (3, if ftype =? T_I64 then x ← into (val (uid v)) readI64; mret (__set_uid x v)
       else skip_as fuel ftype v);
    (4, if ftype =? T_I32 then x ← into (val (vos_id v)) readI32; mret (__set_vos_id x v)
       else skip_as fuel ftype v);
    (5, if ftype =? T_I32 then x ← into (val (source_ip v)) readI32; mret (__set_source_ip x v)
       else skip_as fuel ftype v);
    (6, if ftype =? T_I16 then x ← into (val (source_port v)) readI16; mret (__set_source_port x v)
       else skip_as fuel ftype v);
    (7, if ftype =? T_I32 then x ← into (val (dest_ip v)) readI32; mret (__set_dest_ip x v)
       else skip_as fuel ftype v);
    (8, if ftype =? T_I16 then x ← into (val (dest_port v)) readI16; mret (__set_dest_port x v)
       else skip_as fuel ftype v);
    (9, if ftype =? T_I16 then x ← into (val (delay v)) readI16; mret (__set_delay x v)
       else skip_as fuel ftype v);
    (10, if ftype =? T_I16 then x ← into (val (jitter100 v)) readI16; mret (__set_jitter100 x v)
       else skip_as fuel ftype v);
    (11, if ftype =? T_I16 then x ← into (val (jitter95 v)) readI16; mret (__set_jitter95 x v)
       else skip_as fuel ftype v);
    (12, if ftype =? T_I16 then x ← into (val (jitter90 v)) readI16; mret (__set_jitter90 x v)
       else skip_as fuel ftype v);
    (13, if ftype =? T_I16 then x ← into (val (lost_ratio v)) readI16; mret (__set_lost_ratio x v)
       else skip_as fuel ftype v);
    (14, if ftype =? T_I16 then x ← into (val (lost_ratio2 v)) readI16; mret (__set_lost_ratio2 x v)
       else skip_as fuel ftype v);
    (15, if ftype =? T_I16 then x ← into (val (lost_ratio3 v)) readI16; mret (__set_lost_ratio3 x v)
       else skip_as fuel ftype v);
    (16, if ftype =? T_I64 then x ← into (val (lts v)) readI64; mret (__set_lts x v)
       else skip_as fuel ftype v);
    (17, if ftype =? T_STRING then x ← into (val (sid v)) readString; mret (__set_sid x v)
       else skip_as fuel ftype v)]
    (skip_as fuel ftype v).
Definition read (fuel : nat) (v : t) : M (T := T) t := read_struct fuel (read_case fuel) v.

Definition write (v : t) : M (T := T) Z :=
  write_struct "WrtcBrowser2Gateway" [
    when (isset (vid v))
       [writeFieldBegin "vid" T_I32 1;
        writeI32 (val (vid v)); writeFieldEnd];
    when (isset (cid v))
       [writeFieldBegin "cid" T_I64 2;
        writeI64 (val (cid v)); writeFieldEnd];
    when (isset (uid v))
       [writeFieldBegin "uid" T_I64 3;
        writeI64 (val (uid v)); writeFieldEnd];
    when (isset (vos_id v))
       [writeFieldBegin "vos_id" T_I32 4;
        writeI32 (val (vos_id v)); writeFieldEnd];
    when (isset (source_ip v))
       [writeFieldBegin "source_ip" T_I32 5;
        writeI32 (val (source_ip v)); writeFieldEnd];
    when (isset (source_port v))
       [writeFieldBegin "source_port" T_I16 6;
        writeI16 (val (source_port v)); writeFieldEnd];
    when (isset (dest_ip v))
       [writeFieldBegin "dest_ip" T_I32 7;
        writeI32 (val (dest_ip v)); writeFieldEnd];
    when (isset (dest_port v))
       [writeFieldBegin "dest_port" T_I16 8;
        writeI16 (val (dest_port v)); writeFieldEnd];
    when (isset (delay v))
       [writeFieldBegin "delay" T_I16 9;
        writeI16 (val (delay v)); writeFieldEnd];
    when (isset (jitter100 v))
       [writeFieldBegin "jitter100" T_I16 10;
        writeI16 (val (jitter100 v)); writeFieldEnd];
    when (isset (jitter95 v))
       [writeFieldBegin "jitter95" T_I16 11;
        writeI16 (val (jitter95 v)); writeFieldEnd];
    when (isset (jitter90 v))
       [writeFieldBegin "jitter90" T_I16 12;
        writeI16 (val (jitter90 v)); writeFieldEnd];
    when (isset (lost_ratio v))
       [writeFieldBegin "lost_ratio" T_I16 13;
        writeI16 (val (lost_ratio v)); writeFieldEnd];
    when (isset (lost_ratio2 v))
       [writeFieldBegin "lost_ratio2" T_I16 14;
        writeI16 (val (lost_ratio2 v)); writeFieldEnd];
    when (isset (lost_ratio3 v))
       [writeFieldBegin "lost_ratio3" T_I16 15;
        writeI16 (val (lost_ratio3 v)); writeFieldEnd];
    when (isset (lts v))
       [writeFieldBegin "lts" T_I64 16;
        writeI64 (val (lts v)); writeFieldEnd];
    when (isset (sid v))
       [writeFieldBegin "sid" T_STRING 17;
        writeString (val (sid v)); writeFieldEnd]].
End code.
End WrtcBrowser2Gateway.

Module WrtcBrowser2Browser.
Record t := make {
  vid : field Z;
  cid : field Z;
  uid : field Z;
  vos_id : field Z;
  source_ip : field Z;
  source_port : field Z;
  dest_ip : field Z;
  dest_port : field Z;
  delay : field Z;
  jitter100 : field Z;
  jitter95 : field Z;
  jitter90 : field Z;
  lost_ratio : field Z;
  lost_ratio2 : field Z;
  lost_ratio3 : field Z;
  lts : field Z;
  sid : field bytes;
  peer_uid : field Z;
}.

Definition default : t :=
  make
    (unset 0) (unset 0) (unset 0) (unset 0) (unset 0) (unset 0) (unset 0) (unset 0) (unset 0)
    (unset 0) (unset 0) (unset 0) (unset 0) (unset 0) (unset 0) (unset 0) (unset []) (unset 0).

Definition __set_vid (a : Z) (v : t) : t :=
  make
    (mkField a true) (cid v) (uid v) (vos_id v) (source_ip v) (source_port v) (dest_ip v)
    (dest_port v) (delay v) (jitter100 v) (jitter95 v) (jitter90 v) (lost_ratio v)
    (lost_ratio2 v) (lost_ratio3 v) (lts v) (sid v) (peer_uid v).
Definition __set_cid (a : Z) (v : t) : t :=
  make
    (vid v) (mkField a true) (uid v) (vos_id v) (source_ip v) (source_port v) (dest_ip v)
    (dest_port v) (delay v) (jitter100 v) (jitter95 v) (jitter90 v) (lost_ratio v)
    (lost_ratio2 v) (lost_ratio3 v) (lts v) (sid v) (peer_uid v).
Definition __set_uid (a : Z) (v : t) : t :=
  make
    (vid v) (cid v) (mkField a true) (vos_id v) (source_ip v) (source_port v) (dest_ip v)
    (dest_port v) (delay v) (jitter100 v) (jitter95 v) (jitter90 v) (lost_ratio v)
    (lost_ratio2 v) (lost_ratio3 v) (lts v) (sid v) (peer_uid v).
Definition __set_vos_id (a : Z) (v : t) : t :=
  make
    (vid v) (cid v) (uid v) (mkField a true) (source_ip v) (source_port v) (dest_ip v)
    (dest_port v) (delay v) (jitter100 v) (jitter95 v) (jitter90 v) (lost_ratio v)
    (lost_ratio2 v) (lost_ratio3 v) (lts v) (sid v) (peer_uid v).
Definition __set_source_ip (a : Z) (v : t) : t :=
  make
    (vid v) (cid v) (uid v) (vos_id v) (mkField a true) (source_port v) (dest_ip v)
    (dest_port v) (delay v) (jitter100 v) (jitter95 v) (jitter90 v) (lost_ratio v)
    (lost_ratio2 v) (lost_ratio3 v) (lts v) (sid v) (peer_uid v).
Definition __set_source_port (a : Z) (v : t) : t :=
  make
    (vid v) (cid v) (uid v) (vos_id v) (source_ip v) (mkField a true) (dest_ip v) (dest_port v)
    (delay v) (jitter100 v) (jitter95 v) (jitter90 v) (lost_ratio v) (lost_ratio2 v)
    (lost_ratio3 v) (lts v) (sid v) (peer_uid v).
Definition __set_dest_ip (a : Z) (v : t) : t :=
  make
    (vid v) (cid v) (uid v) (vos_id v) (source_ip v) (source_port v) (mkField a true)
    (dest_port v) (delay v) (jitter100 v) (jitter95 v) (jitter90 v) (lost_ratio v)
    (lost_ratio2 v) (lost_ratio3 v) (lts v) (sid v) (peer_uid v).
Definition __set_dest_port (a : Z) (v : t) : t :=
  make
    (vid v) (cid v) (uid v) (vos_id v) (source_ip v) (source_port v) (dest_ip v)
    (mkField a true) (delay v) (jitter100 v) (jitter95 v) (jitter90 v) (lost_ratio v)
    (lost_ratio2 v) (lost_ratio3 v) (lts v) (sid v) (peer_uid v).
Definition __set_delay (a : Z) (v : t) : t :=
  make
    (vid v) (cid v) (uid v) (vos_id v) (source_ip v) (source_port v) (dest_ip v) (dest_port v)
    (mkField a true) (jitter100 v) (jitter95 v) (jitter90 v) (lost_ratio v) (lost_ratio2 v)
    (lost_ratio3 v) (lts v) (sid v) (peer_uid v).
Definition __set_jitter100 (a : Z) (v : t) : t :=
  make
    (vid v) (cid v) (uid v) (vos_id v) (source_ip v) (source_port v) (dest_ip v) (dest_port v)
    (delay v) (mkField a true) (jitter95 v) (jitter90 v) (lost_ratio v) (lost_ratio2 v)
    (lost_ratio3 v) (lts v) (sid v) (peer_uid v).
Definition __set_jitter95 (a : Z) (v : t) : t :=
  make
    (vid v) (cid v) (uid v) (vos_id v) (source_ip v) (source_port v) (dest_ip v) (dest_port v)
    (delay v) (jitter100 v) (mkField a true) (jitter90 v) (lost_ratio v) (lost_ratio2 v)
    (lost_ratio3 v) (lts v) (sid v) (peer_uid v).
Definition __set_jitter90 (a : Z) (v : t) : t :=
  make
    (vid v) (cid v) (uid v) (vos_id v) (source_ip v) (source_port v) (dest_ip v) (dest_port v)
    (delay v) (jitter100 v) (jitter95 v) (mkField a true) (lost_ratio v) (lost_ratio2 v)
    (lost_ratio3 v) (lts v) (sid v) (peer_uid v).
Definition __set_lost_ratio (a : Z) (v : t) : t :=
  make
    (vid v) (cid v) (uid v) (vos_id v) (source_ip v) (source_port v) (dest_ip v) (dest_port v)
    (delay v) (jitter100 v) (jitter95 v) (jitter90 v) (mkField a true) (lost_ratio2 v)
    (lost_ratio3 v) (lts v) (sid v) (peer_uid v).
Definition __set_lost_ratio2 (a : Z) (v : t) : t :=
  make
    (vid v) (cid v) (uid v) (vos_id v) (source_ip v) (source_port v) (dest_ip v) (dest_port v)
    (delay v) (jitter100 v) (jitter95 v) (jitter90 v) (lost_ratio v) (mkField a true)
    (lost_ratio3 v) (lts v) (sid v) (peer_uid v).
Definition __set_lost_ratio3 (a : Z) (v : t) : t :=
  make
    (vid v) (cid v) (uid v) (vos_id v) (source_ip v) (source_port v) (dest_ip v) (dest_port v)
    (delay v) (jitter100 v) (jitter95 v) (jitter90 v) (lost_ratio v) (lost_ratio2 v)
    (mkField a true) (lts v) (sid v) (peer_uid v).
Definition __set_lts (a : Z) (v : t) : t :=
  make
    (vid v) (cid v) (uid v) (vos_id v) (source_ip v) (source_port v) (dest_ip v) (dest_port v)
    (delay v) (jitter100 v) (jitter95 v) (jitter90 v) (lost_ratio v) (lost_ratio2 v)
    (lost_ratio3 v) (mkField a true) (sid v) (peer_uid v).
Definition __set_sid (a : bytes) (v : t) : t :=
  make
    (vid v) (cid v) (uid v) (vos_id v) (source_ip v) (source_port v) (dest_ip v) (dest_port v)
    (delay v) (jitter100 v) (jitter95 v) (jitter90 v) (lost_ratio v) (lost_ratio2 v)
    (lost_ratio3 v) (lts v) (mkField a true) (peer_uid v).
Definition __set_peer_uid (a : Z) (v : t) : t :=
  make
    (vid v) (cid v) (uid v) (vos_id v) (source_ip v) (source_port v) (dest_ip v) (dest_port v)
    (delay v) (jitter100 v) (jitter95 v) (jitter90 v) (lost_ratio v) (lost_ratio2 v)
    (lost_ratio3 v) (lts v) (sid v) (mkField a true).

Definition eqb (v rhs : t) : bool :=
  all
    [field_eqb Z.eqb (vid v) (vid rhs);
     field_eqb Z.eqb (cid v) (cid rhs);
     field_eqb Z.eqb (uid v) (uid rhs);
     field_eqb Z.eqb (vos_id v) (vos_id rhs);
     field_eqb Z.eqb (source_ip v) (source_ip rhs);
     field_eqb Z.eqb (source_port v) (source_port rhs);
     field_eqb Z.eqb (dest_ip v) (dest_ip rhs);
     field_eqb Z.eqb (dest_port v) (dest_port rhs);
     field_eqb Z.eqb (delay v) (delay rhs);
     field_eqb Z.eqb (jitter100 v) (jitter100 rhs);
     field_eqb Z.eqb (jitter95 v) (jitter95 rhs);
     field_eqb Z.eqb (jitter90 v) (jitter90 rhs);
     field_eqb Z.eqb (lost_ratio v) (lost_ratio rhs);
     field_eqb Z.eqb (lost_ratio2 v) (lost_ratio2 rhs);
     field_eqb Z.eqb (lost_ratio3 v) (lost_ratio3 rhs);
     field_eqb Z.eqb (lts v) (lts rhs);
     isset_eqb (sid v) (sid rhs);
     isset_eqb (peer_uid v) (peer_uid rhs);
     val_eqb bytes_eqb (sid v) (sid rhs);
     val_eqb Z.eqb (peer_uid v) (peer_uid rhs)].

Section code.
Context {T : Type} `{Transport T}.

Definition read_case (fuel : nat) (fid : Z) (ftype : TType) (v : t) : M (T := T) t :=
  switch fid [
    (1, if ftype =? T_I32 then x ← into (val (vid v)) readI32; mret (__set_vid x v)
       else skip_as fuel ftype v);
    (2, if ftype =? T_I64 then x ← into (val (cid v)) readI64; mret (__set_cid x v)
       else skip_as fuel ftype v);
    (3, if ftype =? T_I64 then x ← into (val (uid v)) readI64; mret (__set_uid x v)
       else skip_as fuel ftype v);
    (4, if ftype =? T_I32 then x ← into (val (vos_id v)) readI32; mret (__set_vos_id x v)
       else skip_as fuel ftype v);
    (5, if ftype =? T_I32 then x ← into (val (source_ip v)) readI32; mret (__set_source_ip x v)
       else skip_as fuel ftype v);
    (6, if ftype =? T_I16 then x ← into (val (source_port v)) readI16; mret (__set_source_port x v)
       else skip_as fuel ftype v);
    (7, if ftype =? T_I32 then x ← into (val (dest_ip v)) readI32; mret (__set_dest_ip x v)
       else skip_as fuel ftype v);
    (8, if ftype =? T_I16 then x ← into (val (dest_port v)) readI16; mret (__set_dest_port x v)
       else skip_as fuel ftype v);
    (9, if ftype =? T_I16 then x ← into (val (delay v)) readI16; mret (__set_delay x v)
       else skip_as fuel ftype v);
    (10, if ftype =? T_I16 then x ← into (val (jitter100 v)) readI16; mret (__set_jitter100 x v)
       else skip_as fuel ftype v);
    (11, if ftype =? T_I16 then x ← into (val (jitter95 v)) readI16; mret (__set_jitter95 x v)
       else skip_as fuel ftype v);
    (12, if ftype =? T_I16 then x ← into (val (jitter90 v)) readI16; mret (__set_jitter90 x v)
       else skip_as fuel ftype v);
    (13, if ftype =? T_I16 then x ← into (val (lost_ratio v)) readI16; mret (__set_lost_ratio x v)
       else skip_as fuel ftype v);
    (14, if ftype =? T_I16 then x ← into (val (lost_ratio2 v)) readI16; mret (__set_lost_ratio2 x v)
       else skip_as fuel ftype v);
    (15, if ftype =? T_I16 then x ← into (val (lost_ratio3 v)) readI16; mret (__set_lost_ratio3 x v)
       else skip_as fuel ftype v);
    (16, if ftype =? T_I64 then x ← into (val (lts v)) readI64; mret (__set_lts x v)
       else skip_as fuel ftype v);
    (17, if ftype =? T_STRING then x ← into (val (sid v)) readString; mret (__set_sid x v)
       else skip_as fuel ftype v);
    (18, if ftype =? T_I32 then x ← into (val (peer_uid v)) readI32; mret (__set_peer_uid x v)
       else skip_as fuel ftype v)]
    (skip_as fuel ftype v).
Definition read (fuel : nat) (v : t) : M (T := T) t := read_struct fuel (read_case fuel) v.

Definition write (v : t) : M (T := T) Z :=
  write_struct "WrtcBrowser2Browser" [
    when (isset (vid v))
       [writeFieldBegin "vid" T_I32 1;
        writeI32 (val (vid v)); writeFieldEnd];
    when (isset (cid v))
       [writeFieldBegin "cid" T_I64 2;
        writeI64 (val (cid v)); writeFieldEnd];
    when (isset (uid v))
       [writeFieldBegin "uid" T_I64 3;
        writeI64 (val (uid v)); writeFieldEnd];
    when (isset (vos_id v))
       [writeFieldBegin "vos_id" T_I32 4;
        writeI32 (val (vos_id v)); writeFieldEnd];
    when (isset (source_ip v))
       [writeFieldBegin "source_ip" T_I32 5;
        writeI32 (val (source_ip v)); writeFieldEnd];
    when (isset (source_port v))
       [writeFieldBegin "source_port" T_I16 6;
        writeI16 (val (source_port v)); writeFieldEnd];
    when (isset (dest_ip v))
       [writeFieldBegin "dest_ip" T_I32 7;
        writeI32 (val (dest_ip v)); writeFieldEnd];
    when (isset (dest_port v))
       [writeFieldBegin "dest_port" T_I16 8;
        writeI16 (val (dest_port v)); writeFieldEnd];
    when (isset (delay v))
       [writeFieldBegin "delay" T_I16 9;
        writeI16 (val (delay v)); writeFieldEnd];
    when (isset (jitter100 v))
       [writeFieldBegin "jitter100" T_I16 10;
        writeI16 (val (jitter100 v)); writeFieldEnd];
    when (isset (jitter95 v))
       [writeFieldBegin "jitter95" T_I16 11;
        writeI16 (val (jitter95 v)); writeFieldEnd];
    when (isset (jitter90 v))
       [writeFieldBegin "jitter90" T_I16 12;
        writeI16 (val (jitter90 v)); writeFieldEnd];
    when (isset (lost_ratio v))
       [writeFieldBegin "lost_ratio" T_I16 13;
        writeI16 (val (lost_ratio v)); writeFieldEnd];
    when (isset (lost_ratio2 v))
       [writeFieldBegin "lost_ratio2" T_I16 14;
        writeI16 (val (lost_ratio2 v)); writeFieldEnd];
    when (isset (lost_ratio3 v))
       [writeFieldBegin "lost_ratio3" T_I16 15;
        writeI16 (val (lost_ratio3 v)); writeFieldEnd];
    when (isset (lts v))
       [writeFieldBegin "lts" T_I64 16;
        writeI64 (val (lts v)); writeFieldEnd];
    when (isset (sid v))
       [writeFieldBegin "sid" T_STRING 17;
        writeString (val (sid v)); writeFieldEnd];
    when (isset (peer_uid v))
       [writeFieldBegin "peer_uid" T_I32 18;
        writeI32 (val (peer_uid v)); writeFieldEnd]].
End code.
End WrtcBrowser2Browser.

Module WrtcProfile.
Record t := make {
  header : field VosdkHeader.t;
  framerate : field Z;
  bitrate : field Z;
  width : field Z;
  height : field Z;
}.

Definition default : t :=
  make
    (unset VosdkHeader.default) (unset 0) (unset 0) (unset 0) (unset 0).

Definition __set_header (a : VosdkHeader.t) (v : t) : t :=
  make
    (mkField a true) (framerate v) (bitrate v) (width v) (height v).
Definition __set_framerate (a : Z) (v : t) : t :=
  make
    (header v) (mkField a true) (bitrate v) (width v) (height v).
Definition __set_bitrate (a : Z) (v : t) : t :=
  make
    (header v) (framerate v) (mkField a true) (width v) (height v).
Definition __set_width (a : Z) (v : t) : t :=
  make
    (header v) (framerate v) (bitrate v) (mkField a true) (height v).
Definition __set_height (a : Z) (v : t) : t :=
  make
    (header v) (framerate v) (bitrate v) (width v) (mkField a true).

Definition eqb (v rhs : t) : bool :=
  all
    [field_eqb VosdkHeader.eqb (header v) (header rhs);
     field_eqb Z.eqb (framerate v) (framerate rhs);
     field_eqb Z.eqb (bitrate v) (bitrate rhs);
     field_eqb Z.eqb (width v) (width rhs);
     field_eqb Z.eqb (height v) (height rhs)].

Section code.
Context {T : Type} `{Transport T}.

Definition read_case (fuel : nat) (fid : Z) (ftype : TType) (v : t) : M (T := T) t :=
  switch fid [
    (1, if ftype =? T_STRUCT then x ← VosdkHeader.read fuel (val (header v)); mret (__set_header x v)
       else skip_as fuel ftype v);
    (2, if ftype =? T_I16 then x ← into (val (framerate v)) readI16; mret (__set_framerate x v)
       else skip_as fuel ftype v);
    (3, if ftype =? T_I32 then x ← into (val (bitrate v)) readI32; mret (__set_bitrate x v)
       else skip_as fuel ftype v);
    (4, if ftype =? T_I32 then x ← into (val (width v)) readI32; mret (__set_width x v)
       else skip_as fuel ftype v);
    (5, if ftype =? T_I32 then x ← into (val (height v)) readI32; mret (__set_height x v)
       else skip_as fuel ftype v)]
    (skip_as fuel ftype v).
Definition read (fuel : nat) (v : t) : M (T := T) t := read_struct fuel (read_case fuel) v.

Definition write (v : t) : M (T := T) Z :=
  write_struct "WrtcProfile" [
    when (isset (header v))
       [writeFieldBegin "header" T_STRUCT 1;
        VosdkHeader.write (val (header v)); writeFieldEnd];
    when (isset (framerate v))
       [writeFieldBegin "framerate" T_I16 2;
        writeI16 (val (framerate v)); writeFieldEnd];
    when (isset (bitrate v))
       [writeFieldBegin "bitrate" T_I32 3;
        writeI32 (val (bitrate v)); writeFieldEnd];
    when (isset (width v))
       [writeFieldBegin "width" T_I32 4;
        writeI32 (val (width v)); writeFieldEnd];
    when (isset (height v))
       [writeFieldBegin "height" T_I32 5;
        writeI32 (val (height v)); writeFieldEnd]].
End code.
End WrtcProfile.

Module WrtcPubStream.
Record t := make {
  header : field VosdkHeader.t;
  audio : field bool;
  video : field bool;
}.

Definition default : t :=
  make
    (unset VosdkHeader.default) (unset false) (unset false).

Definition __set_header (a : VosdkHeader.t) (v : t) : t :=
  make
    (mkField a true) (audio v) (video v).
Definition __set_audio (a : bool) (v : t) : t :=
  make
    (header v) (mkField a true) (video v).
Definition __set_video (a : bool) (v : t) : t :=
  make
    (header v) (audio v) (mkField a true).

Definition eqb (v rhs : t) : bool :=
  all
    [field_eqb VosdkHeader.eqb (header v) (header rhs);
     field_eqb Bool.eqb (audio v) (audio rhs);
     field_eqb Bool.eqb (video v) (video rhs)].

Section code.
Context {T : Type} `{Transport T}.

Definition read_case (fuel : nat) (fid : Z) (ftype : TType) (v : t) : M (T := T) t :=
  switch fid [
    (1, if ftype =? T_STRUCT then x ← VosdkHeader.read fuel (val (header v)); mret (__set_header x v)
       else skip_as fuel ftype v);
    (2, if ftype =? T_BOOL then x ← into (val (audio v)) readBool; mret (__set_audio x v)
       else skip_as fuel ftype v);
    (3, if ftype =? T_BOOL then x ← into (val (video v)) readBool; mret (__set_video x v)
       else skip_as fuel ftype v)]
    (skip_as fuel ftype v).
Definition read (fuel : nat) (v : t) : M (T := T) t := read_struct fuel (read_case fuel) v.

Definition write (v : t) : M (T := T) Z :=
  write_struct "WrtcPubStream" [
    when (isset (header v))
       [writeFieldBegin "header" T_STRUCT 1;
        VosdkHeader.write (val (header v)); writeFieldEnd];
    when (isset (audio v))
       [writeFieldBegin "audio" T_BOOL 2;
        writeBool (val (audio v)); writeFieldEnd];
    when (isset (video v))
       [writeFieldBegin "video" T_BOOL 3;
        writeBool (val (video v)); writeFieldEnd]].
End code.
End WrtcPubStream.

Module WrtcUnpubStream.
Record t := make {
  header : field VosdkHeader.t;
}.

Definition default : t :=
  make
    (unset VosdkHeader.default).

Definition __set_header (a : VosdkHeader.t) (v : t) : t :=
  make
    (mkField a true).

Definition eqb (v rhs : t) : bool :=
  all
    [field_eqb VosdkHeader.eqb (header v) (header rhs)].

Section code.
Context {T : Type} `{Transport T}.

Definition read_case (fuel : nat) (fid : Z) (ftype : TType) (v : t) : M (T := T) t :=
  switch fid [
    (1, if ftype =? T_STRUCT then x ← VosdkHeader.read fuel (val (header v)); mret (__set_header x v)
       else skip_as fuel ftype v)]
    (skip_as fuel ftype v).
Definition read (fuel : nat) (v : t) : M (T := T) t := read_struct fuel (read_case fuel) v.

Definition write (v : t) : M (T := T) Z :=
  write_struct "WrtcUnpubStream" [
    when (isset (header v))
       [writeFieldBegin "header" T_STRUCT 1;
        VosdkHeader.write (val (header v)); writeFieldEnd]].
End code.
End WrtcUnpubStream.

Module WrtcSubStream.
Record t := make {
  header : field VosdkHeader.t;
  peerUid : field Z;
}.

Definition default : t :=
  make
    (unset VosdkHeader.default) (unset 0).

Definition __set_header (a : VosdkHeader.t) (v : t) : t :=
  make
    (mkField a true) (peerUid v).
Definition __set_peerUid (a : Z) (v : t) : t :=
  make
    (header v) (mkField a true).

Definition eqb (v rhs : t) : bool :=
  all
    [field_eqb VosdkHeader.eqb (header v) (header rhs);
     field_eqb Z.eqb (peerUid v) (peerUid rhs)].

Section code.
Context {T : Type} `{Transport T}.

Definition read_case (fuel : nat) (fid : Z) (ftype : TType) (v : t) : M (T := T) t :=
  switch fid [
    (1, if ftype =? T_STRUCT then x ← VosdkHeader.read fuel (val (header v)); mret (__set_header x v)
       else skip_as fuel ftype v);
    (2, if ftype =? T_I64 then x ← into (val (peerUid v)) readI64; mret (__set_peerUid x v)
       else skip_as fuel ftype v)]
    (skip_as fuel ftype v).
Definition read (fuel : nat) (v : t) : M (T := T) t := read_struct fuel (read_case fuel) v.

Definition write (v : t) : M (T := T) Z :=
  write_struct "WrtcSubStream" [
    when (isset (header v))
       [writeFieldBegin "header" T_STRUCT 1;
        VosdkHeader.write (val (header v)); writeFieldEnd];
    when (isset (peerUid v))
       [writeFieldBegin "peerUid" T_I64 2;
        writeI64 (val (peerUid v)); writeFieldEnd]].
End code.
End WrtcSubStream.

Module WrtcUnsubStream.
Record t := make {
  header : field VosdkHeader.t;
  peerUid : field Z;
}.

Definition default : t :=
  make
    (unset VosdkHeader.default) (unset 0).

Definition __set_header (a : VosdkHeader.t) (v : t) : t :=
  make
    (mkField a true) (peerUid v).
Definition __set_peerUid (a : Z) (v : t) : t :=
  make
    (header v) (mkField a true).

Definition eqb (v rhs : t) : bool :=
  all
    [field_eqb VosdkHeader.eqb (header v) (header rhs);
     field_eqb Z.eqb (peerUid v) (peerUid rhs)].

Section code.
Context {T : Type} `{Transport T}.

Definition read_case (fuel : nat) (fid : Z) (ftype : TType) (v : t) : M (T := T) t :=
  switch fid [
    (1, if ftype =? T_STRUCT then x ← VosdkHeader.read fuel (val (header v)); mret (__set_header x v)
       else skip_as fuel ftype v);
    (2, if ftype =? T_I64 then x ← into (val (peerUid v)) readI64; mret (__set_peerUid x v)
       else skip_as fuel ftype v)]
    (skip_as fuel ftype v).
Definition read (fuel : nat) (v : t) : M (T := T) t := read_struct fuel (read_case fuel) v.

Definition write (v : t) : M (T := T) Z :=
  write_struct "WrtcUnsubStream" [
    when (isset (header v))
       [writeFieldBegin "header" T_STRUCT 1;
        VosdkHeader.write (val (header v)); writeFieldEnd];
    when (isset (peerUid v))
       [writeFieldBegin "peerUid" T_I64 2;
        writeI64 (val (peerUid v)); writeFieldEnd]].
End code.
End WrtcUnsubStream.

Module WrtcEventsSequenceItem.
Record t := make {
  n : bytes;
  succ : bool;
  lts : field Z;
  elps : field Z;
  ec : field bytes;
  addl_s1 : field bytes;
  addl_s2 : field bytes;
  addl_i1 : field Z;
  addl_i2 : field Z;
  addl_i3 : field Z;
  addl_i4 : field Z;
}.

Definition default : t :=
  make
    [] false (unset 0) (unset 0) (unset []) (unset []) (unset []) (unset 0) (unset 0) (unset 0)
    (unset 0).

Definition __set_n (a : bytes) (v : t) : t :=
  make
    a (succ v) (lts v) (elps v) (ec v) (addl_s1 v) (addl_s2 v) (addl_i1 v) (addl_i2 v)
    (addl_i3 v) (addl_i4 v).
Definition __set_succ (a : bool) (v : t) : t :=
  make
    (n v) a (lts v) (elps v) (ec v) (addl_s1 v) (addl_s2 v) (addl_i1 v) (addl_i2 v) (addl_i3 v)
    (addl_i4 v).
Definition __set_lts (a : Z) (v : t) : t :=
  make
    (n v) (succ v) (mkField a true) (elps v) (ec v) (addl_s1 v) (addl_s2 v) (addl_i1 v)
    (addl_i2 v) (addl_i3 v) (addl_i4 v).
Definition __set_elps (a : Z) (v : t) : t :=
  make
    (n v) (succ v) (lts v) (mkField a true) (ec v) (addl_s1 v) (addl_s2 v) (addl_i1 v)
    (addl_i2 v) (addl_i3 v) (addl_i4 v).
Definition __set_ec (a : bytes) (v : t) : t :=
  make
    (n v) (succ v) (lts v) (elps v) (mkField a true) (addl_s1 v) (addl_s2 v) (addl_i1 v)
    (addl_i2 v) (addl_i3 v) (addl_i4 v).
Definition __set_addl_s1 (a : bytes) (v : t) : t :=
  make
    (n v) (succ v) (lts v) (elps v) (ec v) (mkField a true) (addl_s2 v) (addl_i1 v) (addl_i2 v)
    (addl_i3 v) (addl_i4 v).
Definition __set_addl_s2 (a : bytes) (v : t) : t :=
  make
    (n v) (succ v) (lts v) (elps v) (ec v) (addl_s1 v) (mkField a true) (addl_i1 v) (addl_i2 v)
    (addl_i3 v) (addl_i4 v).
Definition __set_addl_i1 (a : Z) (v : t) : t :=
  make
    (n v) (succ v) (lts v) (elps v) (ec v) (addl_s1 v) (addl_s2 v) (mkField a true) (addl_i2 v)
    (addl_i3 v) (addl_i4 v).
Definition __set_addl_i2 (a : Z) (v : t) : t :=
  make
    (n v) (succ v) (lts v) (elps v) (ec v) (addl_s1 v) (addl_s2 v) (addl_i1 v) (mkField a true)
    (addl_i3 v) (addl_i4 v).
Definition __set_addl_i3 (a : Z) (v : t) : t :=
  make
    (n v) (succ v) (lts v) (elps v) (ec v) (addl_s1 v) (addl_s2 v) (addl_i1 v) (addl_i2 v)
    (mkField a true) (addl_i4 v).
Definition __set_addl_i4 (a : Z) (v : t) : t :=
  make
    (n v) (succ v) (lts v) (elps v) (ec v) (addl_s1 v) (addl_s2 v) (addl_i1 v) (addl_i2 v)
    (addl_i3 v) (mkField a true).

Definition eqb (v rhs : t) : bool :=
  all
    [required_eqb bytes_eqb (n v) (n rhs);
     required_eqb Bool.eqb (succ v) (succ rhs);
     field_eqb Z.eqb (lts v) (lts rhs);
     field_eqb Z.eqb (elps v) (elps rhs);
     field_eqb bytes_eqb (ec v) (ec rhs);
     field_eqb bytes_eqb (addl_s1 v) (addl_s1 rhs);
     field_eqb bytes_eqb (addl_s2 v) (addl_s2 rhs);
     field_eqb Z.eqb (addl_i1 v) (addl_i1 rhs);
     field_eqb Z.eqb (addl_i2 v) (addl_i2 rhs);
     field_eqb Z.eqb (addl_i3 v) (addl_i3 rhs);
     field_eqb Z.eqb (addl_i4 v) (addl_i4 rhs)].

Section code.
Context {T : Type} `{Transport T}.

Definition read_case (fuel : nat) (fid : Z) (ftype : TType) (v : t) : M (T := T) t :=
  switch fid [
    (1, if ftype =? T_STRING then x ← into (n v) readString; mret (__set_n x v)
       else skip_as fuel ftype v);
    (2, if ftype =? T_BOOL then x ← into (succ v) readBool; mret (__set_succ x v)
       else skip_as fuel ftype v);
    (3, if ftype =? T_I64 then x ← into (val (lts v)) readI64; mret (__set_lts x v)
       else skip_as fuel ftype v);
    (4, if ftype =? T_I32 then x ← into (val (elps v)) readI32; mret (__set_elps x v)
       else skip_as fuel ftype v);
    (5, if ftype =? T_STRING then x ← into (val (ec v)) readString; mret (__set_ec x v)
       else skip_as fuel ftype v);
    (6, if ftype =? T_STRING then x ← into (val (addl_s1 v)) readString; mret (__set_addl_s1 x v)
       else skip_as fuel ftype v);
    (7, if ftype =? T_STRING then x ← into (val (addl_s2 v)) readString; mret (__set_addl_s2 x v)
       else skip_as fuel ftype v);
    (8, if ftype =? T_I64 then x ← into (val (addl_i1 v)) readI64; mret (__set_addl_i1 x v)
       else skip_as fuel ftype v);
    (9, if ftype =? T_I64 then x ← into (val (addl_i2 v)) readI64; mret (__set_addl_i2 x v)
       else skip_as fuel ftype v);
    (10, if ftype =? T_I32 then x ← into (val (addl_i3 v)) readI32; mret (__set_addl_i3 x v)
       else skip_as fuel ftype v);
    (11, if ftype =? T_I32 then x ← into (val (addl_i4 v)) readI32; mret (__set_addl_i4 x v)
       else skip_as fuel ftype v)]
    (skip_as fuel ftype v).
Definition read (fuel : nat) (v : t) : M (T := T) t := read_struct fuel (read_case fuel) v.

Definition write (v : t) : M (T := T) Z :=
  write_struct "WrtcEventsSequenceItem" [
    total
       [writeFieldBegin "n" T_STRING 1;
        writeString (n v); writeFieldEnd];
    total
       [writeFieldBegin "succ" T_BOOL 2;
        writeBool (succ v); writeFieldEnd];
    when (isset (lts v))
       [writeFieldBegin "lts" T_I64 3;
        writeI64 (val (lts v)); writeFieldEnd];
    when (isset (elps v))
       [writeFieldBegin "elps" T_I32 4;
        writeI32 (val (elps v)); writeFieldEnd];
    when (isset (ec v))
       [writeFieldBegin "ec" T_STRING 5;
        writeString (val (ec v)); writeFieldEnd];
    when (isset (addl_s1 v))
       [writeFieldBegin "addl_s1" T_STRING 6;
        writeString (val (addl_s1 v)); writeFieldEnd];
    when (isset (addl_s2 v))
       [writeFieldBegin "addl_s2" T_STRING 7;
        writeString (val (addl_s2 v)); writeFieldEnd];
    when (isset (addl_i1 v))
       [writeFieldBegin "addl_i1" T_I64 8;
        writeI64 (val (addl_i1 v)); writeFieldEnd];
    when (isset (addl_i2 v))
       [writeFieldBegin "addl_i2" T_I64 9;
        writeI64 (val (addl_i2 v)); writeFieldEnd];
    when (isset (addl_i3 v))
       [writeFieldBegin "addl_i3" T_I32 10;
        writeI32 (val (addl_i3 v)); writeFieldEnd];
    when (isset (addl_i4 v))
       [writeFieldBegin "addl_i4" T_I32 11;
        writeI32 (val (addl_i4 v)); writeFieldEnd]].
End code.
End WrtcEventsSequenceItem.

Module WrtcEventsSequence.
Record t := make {
  succ : bool;
  lts : field Z;
  elps : field Z;
  events : list WrtcEventsSequenceItem.t;
  appid : field bytes;
  ver : field bytes;
  brwsr : field bytes;
  prev_e : field WrtcEventsSequenceItem.t;
}.

Definition default : t :=
  make
    false (unset 0) (unset 0) [] (unset []) (unset []) (unset [])
    (unset WrtcEventsSequenceItem.default).

Definition __set_succ (a : bool) (v : t) : t :=
  make
    a (lts v) (elps v) (events v) (appid v) (ver v) (brwsr v) (prev_e v).
Definition __set_lts (a : Z) (v : t) : t :=
  make
    (succ v) (mkField a true) (elps v) (events v) (appid v) (ver v) (brwsr v) (prev_e v).
Definition __set_elps (a : Z) (v : t) : t :=
  make
    (succ v) (lts v) (mkField a true) (events v) (appid v) (ver v) (brwsr v) (prev_e v).
Definition __set_events (a : list WrtcEventsSequenceItem.t) (v : t) : t :=
  make
    (succ v) (lts v) (elps v) a (appid v) (ver v) (brwsr v) (prev_e v).
Definition __set_appid (a : bytes) (v : t) : t :=
  make
    (succ v) (lts v) (elps v) (events v) (mkField a true) (ver v) (brwsr v) (prev_e v).
Definition __set_ver (a : bytes) (v : t) : t :=
  make
    (succ v) (lts v) (elps v) (events v) (appid v) (mkField a true) (brwsr v) (prev_e v).
Definition __set_brwsr (a : bytes) (v : t) : t :=
  make
    (succ v) (lts v) (elps v) (events v) (appid v) (ver v) (mkField a true) (prev_e v).
Definition __set_prev_e (a : WrtcEventsSequenceItem.t) (v : t) : t :=
  make
    (succ v) (lts v) (elps v) (events v) (appid v) (ver v) (brwsr v) (mkField a true).

Definition eqb (v rhs : t) : bool :=
  all
    [required_eqb Bool.eqb (succ v) (succ rhs);
     field_eqb Z.eqb (lts v) (lts rhs);
     field_eqb Z.eqb (elps v) (elps rhs);
     required_eqb (list_eqb WrtcEventsSequenceItem.eqb) (events v) (events rhs);
     field_eqb bytes_eqb (appid v) (appid rhs);
     field_eqb bytes_eqb (ver v) (ver rhs);
     field_eqb bytes_eqb (brwsr v) (brwsr rhs);
     field_eqb WrtcEventsSequenceItem.eqb (prev_e v) (prev_e rhs)].

Section code.
Context {T : Type} `{Transport T}.

Definition read_case (fuel : nat) (fid : Z) (ftype : TType) (v : t) : M (T := T) t :=
  switch fid [
    (1, if ftype =? T_BOOL then x ← into (succ v) readBool; mret (__set_succ x v)
       else skip_as fuel ftype v);
    (2, if ftype =? T_I64 then x ← into (val (lts v)) readI64; mret (__set_lts x v)
       else skip_as fuel ftype v);
    (3, if ftype =? T_I32 then x ← into (val (elps v)) readI32; mret (__set_elps x v)
       else skip_as fuel ftype v);
    (4, if ftype =? T_LIST then x ← read_list WrtcEventsSequenceItem.default (WrtcEventsSequenceItem.read fuel); mret (__set_events x v)
       else skip_as fuel ftype v);
    (5, if ftype =? T_STRING then x ← into (val (appid v)) readString; mret (__set_appid x v)
       else skip_as fuel ftype v);
    (6, if ftype =? T_STRING then x ← into (val (ver v)) readString; mret (__set_ver x v)
       else skip_as fuel ftype v);
    (7, if ftype =? T_STRING then x ← into (val (brwsr v)) readString; mret (__set_brwsr x v)
       else skip_as fuel ftype v);
    (8, if ftype =? T_STRUCT then x ← WrtcEventsSequenceItem.read fuel (val (prev_e v)); mret (__set_prev_e x v)
       else skip_as fuel ftype v)]
    (skip_as fuel ftype v).
Definition read (fuel : nat) (v : t) : M (T := T) t := read_struct fuel (read_case fuel) v.

Definition write (v : t) : M (T := T) Z :=
  write_struct "WrtcEventsSequence" [
    total
       [writeFieldBegin "succ" T_BOOL 1;
        writeBool (succ v); writeFieldEnd];
    when (isset (lts v))
       [writeFieldBegin "lts" T_I64 2;
        writeI64 (val (lts v)); writeFieldEnd];
    when (isset (elps v))
       [writeFieldBegin "elps" T_I32 3;
        writeI32 (val (elps v)); writeFieldEnd];
    total
       [writeFieldBegin "events" T_LIST 4;
        write_list T_STRUCT WrtcEventsSequenceItem.write (events v); writeFieldEnd];
    when (isset (appid v))
       [writeFieldBegin "appid" T_STRING 5;
        writeString (val (appid v)); writeFieldEnd];
    when (isset (ver v))
       [writeFieldBegin "ver" T_STRING 6;
        writeString (val (ver v)); writeFieldEnd];
    when (isset (brwsr v))
       [writeFieldBegin "brwsr" T_STRING 7;
        writeString (val (brwsr v)); writeFieldEnd];
    when (isset (prev_e v))
       [writeFieldBegin "prev_e" T_STRUCT 8;
        WrtcEventsSequenceItem.write (val (prev_e v)); writeFieldEnd]].
End code.
End WrtcEventsSequence.

Module WrtcReceiverReport.
Record t := make {
  header : field VosdkHeader.t;
  sourceSsrc : field Z;
  fractionLost : field Z;
  cumulativeLost : field Z;
  highestSeqNumber : field Z;
  jitter : field Z;
  lsr : field Z;
  dlsr : field Z;
  vid : field Z;
}.

Definition default : t :=
  make
    (unset VosdkHeader.default) (unset 0) (unset 0) (unset 0) (unset 0) (unset 0) (unset 0)
    (unset 0) (unset 0).

Definition __set_header (a : VosdkHeader.t) (v : t) : t :=
  make
    (mkField a true) (sourceSsrc v) (fractionLost v) (cumulativeLost v) (highestSeqNumber v)
    (jitter v) (lsr v) (dlsr v) (vid v).
Definition __set_sourceSsrc (a : Z) (v : t) : t :=
  make
    (header v) (mkField a true) (fractionLost v) (cumulativeLost v) (highestSeqNumber v)
    (jitter v) (lsr v) (dlsr v) (vid v).
Definition __set_fractionLost (a : Z) (v : t) : t :=
  make
    (header v) (sourceSsrc v) (mkField a true) (cumulativeLost v) (highestSeqNumber v)
    (jitter v) (lsr v) (dlsr v) (vid v).
Definition __set_cumulativeLost (a : Z) (v : t) : t :=
  make
    (header v) (sourceSsrc v) (fractionLost v) (mkField a true) (highestSeqNumber v) (jitter v)
    (lsr v) (dlsr v) (vid v).
Definition __set_highestSeqNumber (a : Z) (v : t) : t :=
  make
    (header v) (sourceSsrc v) (fractionLost v) (cumulativeLost v) (mkField a true) (jitter v)
    (lsr v) (dlsr v) (vid v).
Definition __set_jitter (a : Z) (v : t) : t :=
  make
    (header v) (sourceSsrc v) (fractionLost v) (cumulativeLost v) (highestSeqNumber v)
    (mkField a true) (lsr v) (dlsr v) (vid v).
Definition __set_lsr (a : Z) (v : t) : t :=
  make
    (header v) (sourceSsrc v) (fractionLost v) (cumulativeLost v) (highestSeqNumber v)
    (jitter v) (mkField a true) (dlsr v) (vid v).
Definition __set_dlsr (a : Z) (v : t) : t :=
  make
    (header v) (sourceSsrc v) (fractionLost v) (cumulativeLost v) (highestSeqNumber v)
    (jitter v) (lsr v) (mkField a true) (vid v).
Definition __set_vid (a : Z) (v : t) : t :=
  make
    (header v) (sourceSsrc v) (fractionLost v) (cumulativeLost v) (highestSeqNumber v)
    (jitter v) (lsr v) (dlsr v) (mkField a true).

Definition eqb (v rhs : t) : bool :=
  all
    [field_eqb VosdkHeader.eqb (header v) (header rhs);
     field_eqb Z.eqb (sourceSsrc v) (sourceSsrc rhs);
     field_eqb Z.eqb (fractionLost v) (fractionLost rhs);
     field_eqb Z.eqb (cumulativeLost v) (cumulativeLost rhs);
     field_eqb Z.eqb (highestSeqNumber v) (highestSeqNumber rhs);
     field_eqb Z.eqb (jitter v) (jitter rhs);
     field_eqb Z.eqb (lsr v) (lsr rhs);
     field_eqb Z.eqb (dlsr v) (dlsr rhs);
     field_eqb Z.eqb (vid v) (vid rhs)].

Section code.
Context {T : Type} `{Transport T}.

Definition read_case (fuel : nat) (fid : Z) (ftype : TType) (v : t) : M (T := T) t :=
  switch fid [
    (1, if ftype =? T_STRUCT then x ← VosdkHeader.read fuel (val (header v)); mret (__set_header x v)
       else skip_as fuel ftype v);
    (2, if ftype =? T_I64 then x ← into (val (sourceSsrc v)) readI64; mret (__set_sourceSsrc x v)
       else skip_as fuel ftype v);
    (3, if ftype =? T_I64 then x ← into (val (fractionLost v)) readI64; mret (__set_fractionLost x v)
       else skip_as fuel ftype v);
    (4, if ftype =? T_I64 then x ← into (val (cumulativeLost v)) readI64; mret (__set_cumulativeLost x v)
       else skip_as fuel ftype v);
    (5, if ftype =? T_I64 then x ← into (val (highestSeqNumber v)) readI64; mret (__set_highestSeqNumber x v)
       else skip_as fuel ftype v);
    (6, if ftype =? T_I64 then x ← into (val (jitter v)) readI64; mret (__set_jitter x v)
       else skip_as fuel ftype v);
    (7, if ftype =? T_I64 then x ← into (val (lsr v)) readI64; mret (__set_lsr x v)
       else skip_as fuel ftype v);
    (8, if ftype =? T_I64 then x ← into (val (dlsr v)) readI64; mret (__set_dlsr x v)
       else skip_as fuel ftype v);
    (9, if ftype =? T_I64 then x ← into (val (vid v)) readI64; mret (__set_vid x v)
       else skip_as fuel ftype v)]
    (skip_as fuel ftype v).
Definition read (fuel : nat) (v : t) : M (T := T) t := read_struct fuel (read_case fuel) v.

Definition write (v : t) : M (T := T) Z :=
  write_struct "WrtcReceiverReport" [
    when (isset (header v))
       [writeFieldBegin "header" T_STRUCT 1;
        VosdkHeader.write (val (header v)); writeFieldEnd];
    when (isset (sourceSsrc v))
       [writeFieldBegin "sourceSsrc" T_I64 2;
        writeI64 (val (sourceSsrc v)); writeFieldEnd];
    when (isset (fractionLost v))
       [writeFieldBegin "fractionLost" T_I64 3;
        writeI64 (val (fractionLost v)); writeFieldEnd];
    when (isset (cumulativeLost v))
       [writeFieldBegin "cumulativeLost" T_I64 4;
        writeI64 (val (cumulativeLost v)); writeFieldEnd];
    when (isset (highestSeqNumber v))
       [writeFieldBegin "highestSeqNumber" T_I64 5;
        writeI64 (val (highestSeqNumber v)); writeFieldEnd];
    when (isset (jitter v))
       [writeFieldBegin "jitter" T_I64 6;
        writeI64 (val (jitter v)); writeFieldEnd];
    when (isset (lsr v))
       [writeFieldBegin "lsr" T_I64 7;
        writeI64 (val (lsr v)); writeFieldEnd];
    when (isset (dlsr v))
       [writeFieldBegin "dlsr" T_I64 8;
        writeI64 (val (dlsr v)); writeFieldEnd];
    when (isset (vid v))
       [writeFieldBegin "vid" T_I64 9;
        writeI64 (val (vid v)); writeFieldEnd]].
End code.
End WrtcReceiverReport.

Module WrtcGateway2Browser.
Record t := make {
  sid : field bytes;
  vid : field Z;
  cid : field Z;
  uid : field Z;
  spkUid : field Z;
  delay : field Z;
  jitter : field Z;
  lost : field Z;
}.

Definition default : t :=
  make
    (unset []) (unset 0) (unset 0) (unset 0) (unset 0) (unset 0) (unset 0) (unset 0).

Definition __set_sid (a : bytes) (v : t) : t :=
  make
    (mkField a true) (vid v) (cid v) (uid v) (spkUid v) (delay v) (jitter v) (lost v).
Definition __set_vid (a : Z) (v : t) : t :=
  make
    (sid v) (mkField a true) (cid v) (uid v) (spkUid v) (delay v) (jitter v) (lost v).
Definition __set_cid (a : Z) (v : t) : t :=
  make
    (sid v) (vid v) (mkField a true) (uid v) (spkUid v) (delay v) (jitter v) (lost v).
Definition __set_uid (a : Z) (v : t) : t :=
  make
    (sid v) (vid v) (cid v) (mkField a true) (spkUid v) (delay v) (jitter v) (lost v).
Definition __set_spkUid (a : Z) (v : t) : t :=
  make
    (sid v) (vid v) (cid v) (uid v) (mkField a true) (delay v) (jitter v) (lost v).
Definition __set_delay (a : Z) (v : t) : t :=
  make
    (sid v) (vid v) (cid v) (uid v) (spkUid v) (mkField a true) (jitter v) (lost v).
Definition __set_jitter (a : Z) (v : t) : t :=
  make
    (sid v) (vid v) (cid v) (uid v) (spkUid v) (delay v) (mkField a true) (lost v).
Definition __set_lost (a : Z) (v : t) : t :=
  make
    (sid v) (vid v) (cid v) (uid v) (spkUid v) (delay v) (jitter v) (mkField a true).

Definition eqb (v rhs : t) : bool :=
  all
    [field_eqb bytes_eqb (sid v) (sid rhs);
     field_eqb Z.eqb (vid v) (vid rhs);
     field_eqb Z.eqb (cid v) (cid rhs);
     field_eqb Z.eqb (uid v) (uid rhs);
     field_eqb Z.eqb (spkUid v) (spkUid rhs);
     field_eqb Z.eqb (delay v) (delay rhs);
     field_eqb Z.eqb (jitter v) (jitter rhs);
     field_eqb Z.eqb (lost v) (lost rhs)].

Section code.
Context {T : Type} `{Transport T}.

Definition read_case (fuel : nat) (fid : Z) (ftype : TType) (v : t) : M (T := T) t :=
  switch fid [
    (1, if ftype =? T_STRING then x ← into (val (sid v)) readString; mret (__set_sid x v)
       else skip_as fuel ftype v);
    (2, if ftype =? T_I32 then x ← into (val (vid v)) readI32; mret (__set_vid x v)
       else skip_as fuel ftype v);
    (3, if ftype =? T_I64 then x ← into (val (cid v)) readI64; mret (__set_cid x v)
       else skip_as fuel ftype v);
    (4, if ftype =? T_I64 then x ← into (val (uid v)) readI64; mret (__set_uid x v)
       else skip_as fuel ftype v);
    (5, if ftype =? T_I64 then x ← into (val (spkUid v)) readI64; mret (__set_spkUid x v)
       else skip_as fuel ftype v);
    (6, if ftype =? T_I16 then x ← into (val (delay v)) readI16; mret (__set_delay x v)
       else skip_as fuel ftype v);
    (7, if ftype =? T_I16 then x ← into (val (jitter v)) readI16; mret (__set_jitter x v)
       else skip_as fuel ftype v);
    (8, if ftype =? T_I16 then x ← into (val (lost v)) readI16; mret (__set_lost x v)
       else skip_as fuel ftype v)]
    (skip_as fuel ftype v).
Definition read (fuel : nat) (v : t) : M (T := T) t := read_struct fuel (read_case fuel) v.

Definition write (v : t) : M (T := T) Z :=
  write_struct "WrtcGateway2Browser" [
    when (isset (sid v))
       [writeFieldBegin "sid" T_STRING 1;
        writeString (val (sid v)); writeFieldEnd];
    when (isset (vid v))
       [writeFieldBegin "vid" T_I32 2;
        writeI32 (val (vid v)); writeFieldEnd];
    when (isset (cid v))
       [writeFieldBegin "cid" T_I64 3;
        writeI64 (val (cid v)); writeFieldEnd];
    when (isset (uid v))
       [writeFieldBegin "uid" T_I64 4;
        writeI64 (val (uid v)); writeFieldEnd];
    when (isset (spkUid v))
       [writeFieldBegin "spkUid" T_I64 5;
        writeI64 (val (spkUid v)); writeFieldEnd];
    when (isset (delay v))
       [writeFieldBegin "delay" T_I16 6;
        writeI16 (val (delay v)); writeFieldEnd];
    when (isset (jitter v))
       [writeFieldBegin "jitter" T_I16 7;
        writeI16 (val (jitter v)); writeFieldEnd];
    when (isset (lost v))
       [writeFieldBegin "lost" T_I16 8;
        writeI16 (val (lost v)); writeFieldEnd]].
End code.
End WrtcGateway2Browser.

Module WrtcStreamControl.
Record t := make {
  header : field VosdkHeader.t;
  operation : field bytes;
  streamUid : field Z;
}.

Definition default : t :=
  make
    (unset VosdkHeader.default) (unset []) (unset 0).

Definition __set_header (a : VosdkHeader.t) (v : t) : t :=
  make
    (mkField a true) (operation v) (streamUid v).
Definition __set_operation (a : bytes) (v : t) : t :=
  make
    (header v) (mkField a true) (streamUid v).
Definition __set_streamUid (a : Z) (v : t) : t :=
  make
    (header v) (operation v) (mkField a true).

Definition eqb (v rhs : t) : bool :=
  all
    [field_eqb VosdkHeader.eqb (header v) (header rhs);
     field_eqb bytes_eqb (operation v) (operation rhs);
     field_eqb Z.eqb (streamUid v) (streamUid rhs)].

Section code.
Context {T : Type} `{Transport T}.

Definition read_case (fuel : nat) (fid : Z) (ftype : TType) (v : t) : M (T := T) t :=
  switch fid [
    (1, if ftype =? T_STRUCT then x ← VosdkHeader.read fuel (val (header v)); mret (__set_header x v)
       else skip_as fuel ftype v);
    (2, if ftype =? T_STRING then x ← into (val (operation v)) readString; mret (__set_operation x v)
       else skip_as fuel ftype v);
    (3, if ftype =? T_I64 then x ← into (val (streamUid v)) readI64; mret (__set_streamUid x v)
       else skip_as fuel ftype v)]
    (skip_as fuel ftype v).
Definition read (fuel : nat) (v : t) : M (T := T) t := read_struct fuel (read_case fuel) v.

Definition write (v : t) : M (T := T) Z :=
  write_struct "WrtcStreamControl" [
    when (isset (header v))
       [writeFieldBegin "header" T_STRUCT 1;
        VosdkHeader.write (val (header v)); writeFieldEnd];
    when (isset (operation v))
       [writeFieldBegin "operation" T_STRING 2;
        writeString (val (operation v)); writeFieldEnd];
    when (isset (streamUid v))
       [writeFieldBegin "streamUid" T_I64 3;
        writeI64 (val (streamUid v)); writeFieldEnd]].
End code.
End WrtcStreamControl.

Module WrtcConnectProxyTurnWorker.
Record t := make {
  header : field VosdkHeader.t;
  clientAddr : field bytes;
  userCount : field Z;
  ingress : field Z;
  egress : field Z;
  extend : field bytes;
}.

Definition default : t :=
  make
    (unset VosdkHeader.default) (unset []) (unset 0) (unset 0) (unset 0) (unset []).

Definition __set_header (a : VosdkHeader.t) (v : t) : t :=
  make
    (mkField a true) (clientAddr v) (userCount v) (ingress v) (egress v) (extend v).
Definition __set_clientAddr (a : bytes) (v : t) : t :=
  make
    (header v) (mkField a true) (userCount v) (ingress v) (egress v) (extend v).
Definition __set_userCount (a : Z) (v : t) : t :=
  make
    (header v) (clientAddr v) (mkField a true) (ingress v) (egress v) (extend v).
Definition __set_ingress (a : Z) (v : t) : t :=
  make
    (header v) (clientAddr v) (userCount v) (mkField a true) (egress v) (extend v).
Definition __set_egress (a : Z) (v : t) : t :=
  make
    (header v) (clientAddr v) (userCount v) (ingress v) (mkField a true) (extend v).
Definition __set_extend (a : bytes) (v : t) : t :=
  make
    (header v) (clientAddr v) (userCount v) (ingress v) (egress v) (mkField a true).

Definition eqb (v rhs : t) : bool :=
  all
    [field_eqb VosdkHeader.eqb (header v) (header rhs);
     field_eqb bytes_eqb (clientAddr v) (clientAddr rhs);
     field_eqb Z.eqb (userCount v) (userCount rhs);
     field_eqb Z.eqb (ingress v) (ingress rhs);
     field_eqb Z.eqb (egress v) (egress rhs);
     field_eqb bytes_eqb (extend v) (extend rhs)].

Section code.
Context {T : Type} `{Transport T}.

Definition read_case (fuel : nat) (fid : Z) (ftype : TType) (v : t) : M (T := T) t :=
  switch fid [
    (1, if ftype =? T_STRUCT then x ← VosdkHeader.read fuel (val (header v)); mret (__set_header x v)
       else skip_as fuel ftype v);
    (2, if ftype =? T_STRING then x ← into (val (clientAddr v)) readString; mret (__set_clientAddr x v)
       else skip_as fuel ftype v);
    (3, if ftype =? T_I64 then x ← into (val (userCount v)) readI64; mret (__set_userCount x v)
       else skip_as fuel ftype v);
    (4, if ftype =? T_I64 then x ← into (val (ingress v)) readI64; mret (__set_ingress x v)
       else skip_as fuel ftype v);
    (5, if ftype =? T_I64 then x ← into (val (egress v)) readI64; mret (__set_egress x v)
       else skip_as fuel ftype v);
    (6, if ftype =? T_STRING then x ← into (val (extend v)) readString; mret (__set_extend x v)
       else skip_as fuel ftype v)]
    (skip_as fuel ftype v).
Definition read (fuel : nat) (v : t) : M (T := T) t := read_struct fuel (read_case fuel) v.

Definition write (v : t) : M (T := T) Z :=
  write_struct "WrtcConnectProxyTurnWorker" [
    when (isset (header v))
       [writeFieldBegin "header" T_STRUCT 1;
        VosdkHeader.write (val (header v)); writeFieldEnd];
    when (isset (clientAddr v))
       [writeFieldBegin "clientAddr" T_STRING 2;
        writeString (val (clientAddr v)); writeFieldEnd];
    when (isset (userCount v))
       [writeFieldBegin "userCount" T_I64 3;
        writeI64 (val (userCount v)); writeFieldEnd];
    when (isset (ingress v))
       [writeFieldBegin "ingress" T_I64 3;
        writeI64 (val (ingress v)); writeFieldEnd];
    when (isset (egress v))
       [writeFieldBegin "egress" T_I64 3;
        writeI64 (val (egress v)); writeFieldEnd];
    when (isset (extend v))
       [writeFieldBegin "extend" T_STRING 2;
        writeString (val (extend v)); writeFieldEnd]].
End code.
End WrtcConnectProxyTurnWorker.

Module ReportItem.
Record t := make {
  uri : Z;
  encryptedItem : field EncryptedItem.t;
  vosdkCounter : field VosdkCounter.t;
  vosdkSession : field VosdkSession.t;
  vosdkVocs : field VosdkVocs.t;
  vosdkVos : field VosdkVos.t;
  vosdkWebQuit : field VosdkWebQuit.t;
  wrtcBrowser2Gateway : field WrtcBrowser2Gateway.t;
  wrtcBrowser2GatewayVideo : field WrtcBrowser2Gateway.t;
  wrtcBrowser2BrowserAudio : field WrtcBrowser2Browser.t;
  wrtcBrowser2BrowserVideo : field WrtcBrowser2Browser.t;
  wrtcProfile : field WrtcProfile.t;
  wrtcPubStream : field WrtcPubStream.t;
  wrtcUnpubStream : field WrtcUnpubStream.t;
  wrtcSubStream : field WrtcSubStream.t;
  wrtcUnsubStream : field WrtcUnsubStream.t;
  wrtcEventsSequence : field WrtcEventsSequence.t;
  wrtcReceiverReport : field WrtcReceiverReport.t;
  wrtcGateway2Browser : field WrtcGateway2Browser.t;
  wrtcStreamControl : field WrtcStreamControl.t;
  wrtcConnectProxyTurnWorker : field WrtcConnectProxyTurnWorker.t;
}.

Definition default : t :=
  make
    0 (unset EncryptedItem.default) (unset VosdkCounter.default) (unset VosdkSession.default)
    (unset VosdkVocs.default) (unset VosdkVos.default) (unset VosdkWebQuit.default)
    (unset WrtcBrowser2Gateway.default) (unset WrtcBrowser2Gateway.default)
    (unset WrtcBrowser2Browser.default) (unset WrtcBrowser2Browser.default)
    (unset WrtcProfile.default) (unset WrtcPubStream.default) (unset WrtcUnpubStream.default)
    (unset WrtcSubStream.default) (unset WrtcUnsubStream.default)
    (unset WrtcEventsSequence.default) (unset WrtcReceiverReport.default)
    (unset WrtcGateway2Browser.default) (unset WrtcStreamControl.default)
    (unset WrtcConnectProxyTurnWorker.default).

Definition __set_uri (a : Z) (v : t) : t :=
  make
    a (encryptedItem v) (vosdkCounter v) (vosdkSession v) (vosdkVocs v) (vosdkVos v)
    (vosdkWebQuit v) (wrtcBrowser2Gateway v) (wrtcBrowser2GatewayVideo v)
    (wrtcBrowser2BrowserAudio v) (wrtcBrowser2BrowserVideo v) (wrtcProfile v) (wrtcPubStream v)
    (wrtcUnpubStream v) (wrtcSubStream v) (wrtcUnsubStream v) (wrtcEventsSequence v)
    (wrtcReceiverReport v) (wrtcGateway2Browser v) (wrtcStreamControl v)
    (wrtcConnectProxyTurnWorker v).
Definition __set_encryptedItem (a : EncryptedItem.t) (v : t) : t :=
  make
    (uri v) (mkField a true) (vosdkCounter v) (vosdkSession v) (vosdkVocs v) (vosdkVos v)
    (vosdkWebQuit v) (wrtcBrowser2Gateway v) (wrtcBrowser2GatewayVideo v)
    (wrtcBrowser2BrowserAudio v) (wrtcBrowser2BrowserVideo v) (wrtcProfile v) (wrtcPubStream v)
    (wrtcUnpubStream v) (wrtcSubStream v) (wrtcUnsubStream v) (wrtcEventsSequence v)
    (wrtcReceiverReport v) (wrtcGateway2Browser v) (wrtcStreamControl v)
    (wrtcConnectProxyTurnWorker v).
Definition __set_vosdkCounter (a : VosdkCounter.t) (v : t) : t :=
  make
    (uri v) (encryptedItem v) (mkField a true) (vosdkSession v) (vosdkVocs v) (vosdkVos v)
    (vosdkWebQuit v) (wrtcBrowser2Gateway v) (wrtcBrowser2GatewayVideo v)
    (wrtcBrowser2BrowserAudio v) (wrtcBrowser2BrowserVideo v) (wrtcProfile v) (wrtcPubStream v)
    (wrtcUnpubStream v) (wrtcSubStream v) (wrtcUnsubStream v) (wrtcEventsSequence v)
    (wrtcReceiverReport v) (wrtcGateway2Browser v) (wrtcStreamControl v)
    (wrtcConnectProxyTurnWorker v).
Definition __set_vosdkSession (a : VosdkSession.t) (v : t) : t :=
  make
    (uri v) (encryptedItem v) (vosdkCounter v) (mkField a true) (vosdkVocs v) (vosdkVos v)
    (vosdkWebQuit v) (wrtcBrowser2Gateway v) (wrtcBrowser2GatewayVideo v)
    (wrtcBrowser2BrowserAudio v) (wrtcBrowser2BrowserVideo v) (wrtcProfile v) (wrtcPubStream v)
    (wrtcUnpubStream v) (wrtcSubStream v) (wrtcUnsubStream v) (wrtcEventsSequence v)
    (wrtcReceiverReport v) (wrtcGateway2Browser v) (wrtcStreamControl v)
    (wrtcConnectProxyTurnWorker v).
Definition __set_vosdkVocs (a : VosdkVocs.t) (v : t) : t :=
  make
    (uri v) (encryptedItem v) (vosdkCounter v) (vosdkSession v) (mkField a true) (vosdkVos v)
    (vosdkWebQuit v) (wrtcBrowser2Gateway v) (wrtcBrowser2GatewayVideo v)
    (wrtcBrowser2BrowserAudio v) (wrtcBrowser2BrowserVideo v) (wrtcProfile v) (wrtcPubStream v)
    (wrtcUnpubStream v) (wrtcSubStream v) (wrtcUnsubStream v) (wrtcEventsSequence v)
    (wrtcReceiverReport v) (wrtcGateway2Browser v) (wrtcStreamControl v)
    (wrtcConnectProxyTurnWorker v).
Definition __set_vosdkVos (a : VosdkVos.t) (v : t) : t :=
  make
    (uri v) (encryptedItem v) (vosdkCounter v) (vosdkSession v) (vosdkVocs v) (mkField a true)
    (vosdkWebQuit v) (wrtcBrowser2Gateway v) (wrtcBrowser2GatewayVideo v)
    (wrtcBrowser2BrowserAudio v) (wrtcBrowser2BrowserVideo v) (wrtcProfile v) (wrtcPubStream v)
    (wrtcUnpubStream v) (wrtcSubStream v) (wrtcUnsubStream v) (wrtcEventsSequence v)
    (wrtcReceiverReport v) (wrtcGateway2Browser v) (wrtcStreamControl v)
    (wrtcConnectProxyTurnWorker v).
Definition __set_vosdkWebQuit (a : VosdkWebQuit.t) (v : t) : t :=
  make
    (uri v) (encryptedItem v) (vosdkCounter v) (vosdkSession v) (vosdkVocs v) (vosdkVos v)
    (mkField a true) (wrtcBrowser2Gateway v) (wrtcBrowser2GatewayVideo v)
    (wrtcBrowser2BrowserAudio v) (wrtcBrowser2BrowserVideo v) (wrtcProfile v) (wrtcPubStream v)
    (wrtcUnpubStream v) (wrtcSubStream v) (wrtcUnsubStream v) (wrtcEventsSequence v)
    (wrtcReceiverReport v) (wrtcGateway2Browser v) (wrtcStreamControl v)
    (wrtcConnectProxyTurnWorker v).
Definition __set_wrtcBrowser2Gateway (a : WrtcBrowser2Gateway.t) (v : t) : t :=
  make
    (uri v) (encryptedItem v) (vosdkCounter v) (vosdkSession v) (vosdkVocs v) (vosdkVos v)
    (vosdkWebQuit v) (mkField a true) (wrtcBrowser2GatewayVideo v) (wrtcBrowser2BrowserAudio v)
    (wrtcBrowser2BrowserVideo v) (wrtcProfile v) (wrtcPubStream v) (wrtcUnpubStream v)
    (wrtcSubStream v) (wrtcUnsubStream v) (wrtcEventsSequence v) (wrtcReceiverReport v)
    (wrtcGateway2Browser v) (wrtcStreamControl v) (wrtcConnectProxyTurnWorker v).
Definition __set_wrtcBrowser2GatewayVideo (a : WrtcBrowser2Gateway.t) (v : t) : t :=
  make
    (uri v) (encryptedItem v) (vosdkCounter v) (vosdkSession v) (vosdkVocs v) (vosdkVos v)
    (vosdkWebQuit v) (wrtcBrowser2Gateway v) (mkField a true) (wrtcBrowser2BrowserAudio v)
    (wrtcBrowser2BrowserVideo v) (wrtcProfile v) (wrtcPubStream v) (wrtcUnpubStream v)
    (wrtcSubStream v) (wrtcUnsubStream v) (wrtcEventsSequence v) (wrtcReceiverReport v)
    (wrtcGateway2Browser v) (wrtcStreamControl v) (wrtcConnectProxyTurnWorker v).
Definition __set_wrtcBrowser2BrowserAudio (a : WrtcBrowser2Browser.t) (v : t) : t :=
  make
    (uri v) (encryptedItem v) (vosdkCounter v) (vosdkSession v) (vosdkVocs v) (vosdkVos v)
    (vosdkWebQuit v) (wrtcBrowser2Gateway v) (wrtcBrowser2GatewayVideo v) (mkField a true)
    (wrtcBrowser2BrowserVideo v) (wrtcProfile v) (wrtcPubStream v) (wrtcUnpubStream v)
    (wrtcSubStream v) (wrtcUnsubStream v) (wrtcEventsSequence v) (wrtcReceiverReport v)
    (wrtcGateway2Browser v) (wrtcStreamControl v) (wrtcConnectProxyTurnWorker v).
Definition __set_wrtcBrowser2BrowserVideo (a : WrtcBrowser2Browser.t) (v : t) : t :=
  make
    (uri v) (encryptedItem v) (vosdkCounter v) (vosdkSession v) (vosdkVocs v) (vosdkVos v)
    (vosdkWebQuit v) (wrtcBrowser2Gateway v) (wrtcBrowser2GatewayVideo v)
    (wrtcBrowser2BrowserAudio v) (mkField a true) (wrtcProfile v) (wrtcPubStream v)
    (wrtcUnpubStream v) (wrtcSubStream v) (wrtcUnsubStream v) (wrtcEventsSequence v)
    (wrtcReceiverReport v) (wrtcGateway2Browser v) (wrtcStreamControl v)
    (wrtcConnectProxyTurnWorker v).
Definition __set_wrtcProfile (a : WrtcProfile.t) (v : t) : t :=
  make
    (uri v) (encryptedItem v) (vosdkCounter v) (vosdkSession v) (vosdkVocs v) (vosdkVos v)
    (vosdkWebQuit v) (wrtcBrowser2Gateway v) (wrtcBrowser2GatewayVideo v)
    (wrtcBrowser2BrowserAudio v) (wrtcBrowser2BrowserVideo v) (mkField a true) (wrtcPubStream v)
    (wrtcUnpubStream v) (wrtcSubStream v) (wrtcUnsubStream v) (wrtcEventsSequence v)
    (wrtcReceiverReport v) (wrtcGateway2Browser v) (wrtcStreamControl v)
    (wrtcConnectProxyTurnWorker v).
Definition __set_wrtcPubStream (a : WrtcPubStream.t) (v : t) : t :=
  make
    (uri v) (encryptedItem v) (vosdkCounter v) (vosdkSession v) (vosdkVocs v) (vosdkVos v)
    (vosdkWebQuit v) (wrtcBrowser2Gateway v) (wrtcBrowser2GatewayVideo v)
    (wrtcBrowser2BrowserAudio v) (wrtcBrowser2BrowserVideo v) (wrtcProfile v) (mkField a true)
    (wrtcUnpubStream v) (wrtcSubStream v) (wrtcUnsubStream v) (wrtcEventsSequence v)
    (wrtcReceiverReport v) (wrtcGateway2Browser v) (wrtcStreamControl v)
    (wrtcConnectProxyTurnWorker v).
Definition __set_wrtcUnpubStream (a : WrtcUnpubStream.t) (v : t) : t :=
  make
    (uri v) (encryptedItem v) (vosdkCounter v) (vosdkSession v) (vosdkVocs v) (vosdkVos v)
    (vosdkWebQuit v) (wrtcBrowser2Gateway v) (wrtcBrowser2GatewayVideo v)
    (wrtcBrowser2BrowserAudio v) (wrtcBrowser2BrowserVideo v) (wrtcProfile v) (wrtcPubStream v)
    (mkField a true) (wrtcSubStream v) (wrtcUnsubStream v) (wrtcEventsSequence v)
    (wrtcReceiverReport v) (wrtcGateway2Browser v) (wrtcStreamControl v)
    (wrtcConnectProxyTurnWorker v).
Definition __set_wrtcSubStream (a : WrtcSubStream.t) (v : t) : t :=
  make
    (uri v) (encryptedItem v) (vosdkCounter v) (vosdkSession v) (vosdkVocs v) (vosdkVos v)
    (vosdkWebQuit v) (wrtcBrowser2Gateway v) (wrtcBrowser2GatewayVideo v)
    (wrtcBrowser2BrowserAudio v) (wrtcBrowser2BrowserVideo v) (wrtcProfile v) (wrtcPubStream v)
    (wrtcUnpubStream v) (mkField a true) (wrtcUnsubStream v) (wrtcEventsSequence v)
    (wrtcReceiverReport v) (wrtcGateway2Browser v) (wrtcStreamControl v)
    (wrtcConnectProxyTurnWorker v).
Definition __set_wrtcUnsubStream (a : WrtcUnsubStream.t) (v : t) : t :=
  make
    (uri v) (encryptedItem v) (vosdkCounter v) (vosdkSession v) (vosdkVocs v) (vosdkVos v)
    (vosdkWebQuit v) (wrtcBrowser2Gateway v) (wrtcBrowser2GatewayVideo v)
    (wrtcBrowser2BrowserAudio v) (wrtcBrowser2BrowserVideo v) (wrtcProfile v) (wrtcPubStream v)
    (wrtcUnpubStream v) (wrtcSubStream v) (mkField a true) (wrtcEventsSequence v)
    (wrtcReceiverReport v) (wrtcGateway2Browser v) (wrtcStreamControl v)
    (wrtcConnectProxyTurnWorker v).
Definition __set_wrtcEventsSequence (a : WrtcEventsSequence.t) (v : t) : t :=
  make
    (uri v) (encryptedItem v) (vosdkCounter v) (vosdkSession v) (vosdkVocs v) (vosdkVos v)
    (vosdkWebQuit v) (wrtcBrowser2Gateway v) (wrtcBrowser2GatewayVideo v)
    (wrtcBrowser2BrowserAudio v) (wrtcBrowser2BrowserVideo v) (wrtcProfile v) (wrtcPubStream v)
    (wrtcUnpubStream v) (wrtcSubStream v) (wrtcUnsubStream v) (mkField a true)
    (wrtcReceiverReport v) (wrtcGateway2Browser v) (wrtcStreamControl v)
    (wrtcConnectProxyTurnWorker v).
Definition __set_wrtcReceiverReport (a : WrtcReceiverReport.t) (v : t) : t :=
  make
    (uri v) (encryptedItem v) (vosdkCounter v) (vosdkSession v) (vosdkVocs v) (vosdkVos v)
    (vosdkWebQuit v) (wrtcBrowser2Gateway v) (wrtcBrowser2GatewayVideo v)
    (wrtcBrowser2BrowserAudio v) (wrtcBrowser2BrowserVideo v) (wrtcProfile v) (wrtcPubStream v)
    (wrtcUnpubStream v) (wrtcSubStream v) (wrtcUnsubStream v) (wrtcEventsSequence v)
    (mkField a true) (wrtcGateway2Browser v) (wrtcStreamControl v)
    (wrtcConnectProxyTurnWorker v).
Definition __set_wrtcGateway2Browser (a : WrtcGateway2Browser.t) (v : t) : t :=
  make
    (uri v) (encryptedItem v) (vosdkCounter v) (vosdkSession v) (vosdkVocs v) (vosdkVos v)
    (vosdkWebQuit v) (wrtcBrowser2Gateway v) (wrtcBrowser2GatewayVideo v)
    (wrtcBrowser2BrowserAudio v) (wrtcBrowser2BrowserVideo v) (wrtcProfile v) (wrtcPubStream v)
    (wrtcUnpubStream v) (wrtcSubStream v) (wrtcUnsubStream v) (wrtcEventsSequence v)
    (wrtcReceiverReport v) (mkField a true) (wrtcStreamControl v) (wrtcConnectProxyTurnWorker v).
Definition __set_wrtcStreamControl (a : WrtcStreamControl.t) (v : t) : t :=
  make
    (uri v) (encryptedItem v) (vosdkCounter v) (vosdkSession v) (vosdkVocs v) (vosdkVos v)
    (vosdkWebQuit v) (wrtcBrowser2Gateway v) (wrtcBrowser2GatewayVideo v)
    (wrtcBrowser2BrowserAudio v) (wrtcBrowser2BrowserVideo v) (wrtcProfile v) (wrtcPubStream v)
    (wrtcUnpubStream v) (wrtcSubStream v) (wrtcUnsubStream v) (wrtcEventsSequence v)
    (wrtcReceiverReport v) (wrtcGateway2Browser v) (mkField a true)
    (wrtcConnectProxyTurnWorker v).
Definition __set_wrtcConnectProxyTurnWorker (a : WrtcConnectProxyTurnWorker.t) (v : t) : t :=
  make
    (uri v) (encryptedItem v) (vosdkCounter v) (vosdkSession v) (vosdkVocs v) (vosdkVos v)
    (vosdkWebQuit v) (wrtcBrowser2Gateway v) (wrtcBrowser2GatewayVideo v)
    (wrtcBrowser2BrowserAudio v) (wrtcBrowser2BrowserVideo v) (wrtcProfile v) (wrtcPubStream v)
    (wrtcUnpubStream v) (wrtcSubStream v) (wrtcUnsubStream v) (wrtcEventsSequence v)
    (wrtcReceiverReport v) (wrtcGateway2Browser v) (wrtcStreamControl v) (mkField a true).

Definition eqb (v rhs : t) : bool :=
  all
    [required_eqb Z.eqb (uri v) (uri rhs);
     field_eqb EncryptedItem.eqb (encryptedItem v) (encryptedItem rhs);
     field_eqb VosdkCounter.eqb (vosdkCounter v) (vosdkCounter rhs);
     field_eqb VosdkSession.eqb (vosdkSession v) (vosdkSession rhs);
     field_eqb VosdkVocs.eqb (vosdkVocs v) (vosdkVocs rhs);
     field_eqb VosdkVos.eqb (vosdkVos v) (vosdkVos rhs);
     field_eqb VosdkWebQuit.eqb (vosdkWebQuit v) (vosdkWebQuit rhs);
     field_eqb WrtcBrowser2Gateway.eqb (wrtcBrowser2Gateway v) (wrtcBrowser2Gateway rhs);
     field_eqb WrtcBrowser2Gateway.eqb (wrtcBrowser2GatewayVideo v) (wrtcBrowser2GatewayVideo rhs);
     field_eqb WrtcBrowser2Browser.eqb (wrtcBrowser2BrowserAudio v) (wrtcBrowser2BrowserAudio rhs);
     field_eqb WrtcBrowser2Browser.eqb (wrtcBrowser2BrowserVideo v) (wrtcBrowser2BrowserVideo rhs);
     field_eqb WrtcProfile.eqb (wrtcProfile v) (wrtcProfile rhs);
     field_eqb WrtcPubStream.eqb (wrtcPubStream v) (wrtcPubStream rhs);
     field_eqb WrtcUnpubStream.eqb (wrtcUnpubStream v) (wrtcUnpubStream rhs);
     field_eqb WrtcSubStream.eqb (wrtcSubStream v) (wrtcSubStream rhs);
     field_eqb WrtcUnsubStream.eqb (wrtcUnsubStream v) (wrtcUnsubStream rhs);
     field_eqb WrtcEventsSequence.eqb (wrtcEventsSequence v) (wrtcEventsSequence rhs);
     field_eqb WrtcReceiverReport.eqb (wrtcReceiverReport v) (wrtcReceiverReport rhs);
     field_eqb WrtcGateway2Browser.eqb (wrtcGateway2Browser v) (wrtcGateway2Browser rhs);
     field_eqb WrtcStreamControl.eqb (wrtcStreamControl v) (wrtcStreamControl rhs);
     field_eqb WrtcConnectProxyTurnWorker.eqb (wrtcConnectProxyTurnWorker v) (wrtcConnectProxyTurnWorker rhs)].

Section code.
Context {T : Type} `{Transport T}.

Definition read_case (fuel : nat) (fid : Z) (ftype : TType) (v : t) : M (T := T) t :=
  switch fid [
    (1, if ftype =? T_I32 then x ← into (uri v) readI32; mret (__set_uri x v)
       else skip_as fuel ftype v);
    (900, if ftype =? T_STRUCT then x ← EncryptedItem.read fuel (val (encryptedItem v)); mret (__set_encryptedItem x v)
       else skip_as fuel ftype v);
    (1000, if ftype =? T_STRUCT then x ← VosdkCounter.read fuel (val (vosdkCounter v)); mret (__set_vosdkCounter x v)
       else skip_as fuel ftype v);
    (1001, if ftype =? T_STRUCT then x ← VosdkSession.read fuel (val (vosdkSession v)); mret (__set_vosdkSession x v)
       else skip_as fuel ftype v);
    (1002, if ftype =? T_STRUCT then x ← VosdkVocs.read fuel (val (vosdkVocs v)); mret (__set_vosdkVocs x v)
       else skip_as fuel ftype v);
    (1003, if ftype =? T_STRUCT then x ← VosdkVos.read fuel (val (vosdkVos v)); mret (__set_vosdkVos x v)
       else skip_as fuel ftype v);
    (1029, if ftype =? T_STRUCT then x ← VosdkWebQuit.read fuel (val (vosdkWebQuit v)); mret (__set_vosdkWebQuit x v)
       else skip_as fuel ftype v);
    (2001, if ftype =? T_STRUCT then x ← WrtcBrowser2Gateway.read fuel (val (wrtcBrowser2Gateway v)); mret (__set_wrtcBrowser2Gateway x v)
       else skip_as fuel ftype v);
    (2002, if ftype =? T_STRUCT then x ← WrtcProfile.read fuel (val (wrtcProfile v)); mret (__set_wrtcProfile x v)
       else skip_as fuel ftype v);
    (2003, if ftype =? T_STRUCT then x ← WrtcPubStream.read fuel (val (wrtcPubStream v)); mret (__set_wrtcPubStream x v)
       else skip_as fuel ftype v);
    (2004, if ftype =? T_STRUCT then x ← WrtcUnpubStream.read fuel (val (wrtcUnpubStream v)); mret (__set_wrtcUnpubStream x v)
       else skip_as fuel ftype v);
    (2005, if ftype =? T_STRUCT then x ← WrtcSubStream.read fuel (val (wrtcSubStream v)); mret (__set_wrtcSubStream x v)
       else skip_as fuel ftype v);
    (2006, if ftype =? T_STRUCT then x ← WrtcUnsubStream.read fuel (val (wrtcUnsubStream v)); mret (__set_wrtcUnsubStream x v)
       else skip_as fuel ftype v);
    (2008, if ftype =? T_STRUCT then x ← WrtcEventsSequence.read fuel (val (wrtcEventsSequence v)); mret (__set_wrtcEventsSequence x v)
       else skip_as fuel ftype v);
    (2009, if ftype =? T_STRUCT then x ← WrtcReceiverReport.read fuel (val (wrtcReceiverReport v)); mret (__set_wrtcReceiverReport x v)
       else skip_as fuel ftype v);
    (2010, if ftype =? T_STRUCT then x ← WrtcGateway2Browser.read fuel (val (wrtcGateway2Browser v)); mret (__set_wrtcGateway2Browser x v)
       else skip_as fuel ftype v);
    (2011, if ftype =? T_STRUCT then x ← WrtcStreamControl.read fuel (val (wrtcStreamControl v)); mret (__set_wrtcStreamControl x v)
       else skip_as fuel ftype v);
    (2021, if ftype =? T_STRUCT then x ← WrtcBrowser2Gateway.read fuel (val (wrtcBrowser2GatewayVideo v)); mret (__set_wrtcBrowser2GatewayVideo x v)
       else skip_as fuel ftype v);
    (2022, if ftype =? T_STRUCT then x ← WrtcBrowser2Browser.read fuel (val (wrtcBrowser2BrowserAudio v)); mret (__set_wrtcBrowser2BrowserAudio x v)
       else skip_as fuel ftype v);
    (2023, if ftype =? T_STRUCT then x ← WrtcBrowser2Browser.read fuel (val (wrtcBrowser2BrowserVideo v)); mret (__set_wrtcBrowser2BrowserVideo x v)
       else skip_as fuel ftype v);
    (2026, if ftype =? T_STRUCT then x ← WrtcConnectProxyTurnWorker.read fuel (val (wrtcConnectProxyTurnWorker v)); mret (__set_wrtcConnectProxyTurnWorker x v)
       else skip_as fuel ftype v)]
    (skip_as fuel ftype v).
Definition read (fuel : nat) (v : t) : M (T := T) t := read_struct fuel (read_case fuel) v.

Definition write (v : t) : M (T := T) Z :=
  write_struct "ReportItem" [
    total
       [writeFieldBegin "uri" T_I32 1;
        writeI32 (uri v); writeFieldEnd];
    when (isset (encryptedItem v))
       [writeFieldBegin "encryptedItem" T_STRUCT 900;
        EncryptedItem.write (val (encryptedItem v)); writeFieldEnd];
    when (isset (vosdkCounter v))
       [writeFieldBegin "vosdkCounter" T_STRUCT 1000;
        VosdkCounter.write (val (vosdkCounter v)); writeFieldEnd];
    when (isset (vosdkSession v))
       [writeFieldBegin "vosdkSession" T_STRUCT 1001;
        VosdkSession.write (val (vosdkSession v)); writeFieldEnd];
    when (isset (vosdkVocs v))
       [writeFieldBegin "vosdkVocs" T_STRUCT 1002;
        VosdkVocs.write (val (vosdkVocs v)); writeFieldEnd];
    when (isset (vosdkVos v))
       [writeFieldBegin "vosdkVos" T_STRUCT 1003;
        VosdkVos.write (val (vosdkVos v)); writeFieldEnd];
    when (isset (vosdkWebQuit v))
       [writeFieldBegin "vosdkWebQuit" T_STRUCT 1029;
        VosdkWebQuit.write (val (vosdkWebQuit v)); writeFieldEnd];
    when (isset (wrtcBrowser2Gateway v))
       [writeFieldBegin "wrtcBrowser2Gateway" T_STRUCT 2001;
        WrtcBrowser2Gateway.write (val (wrtcBrowser2Gateway v)); writeFieldEnd];
    when (isset (wrtcBrowser2GatewayVideo v))
       [writeFieldBegin "wrtcBrowser2GatewayVideo" T_STRUCT 2021;
        WrtcBrowser2Gateway.write (val (wrtcBrowser2GatewayVideo v)); writeFieldEnd];
    when (isset (wrtcBrowser2BrowserAudio v))
       [writeFieldBegin "wrtcBrowser2BrowserAudio" T_STRUCT 2022;
        WrtcBrowser2Browser.write (val (wrtcBrowser2BrowserAudio v)); writeFieldEnd];
    when (isset (wrtcBrowser2BrowserVideo v))
       [writeFieldBegin "wrtcBrowser2BrowserVideo" T_STRUCT 2023;
        WrtcBrowser2Browser.write (val (wrtcBrowser2BrowserVideo v)); writeFieldEnd];
    when (isset (wrtcProfile v))
       [writeFieldBegin "wrtcProfile" T_STRUCT 2002;
        WrtcProfile.write (val (wrtcProfile v)); writeFieldEnd];
    when (isset (wrtcPubStream v))
       [writeFieldBegin "wrtcPubStream" T_STRUCT 2003;
        WrtcPubStream.write (val (wrtcPubStream v)); writeFieldEnd];
    when (isset (wrtcUnpubStream v))
       [writeFieldBegin "wrtcUnpubStream" T_STRUCT 2004;
        WrtcUnpubStream.write (val (wrtcUnpubStream v)); writeFieldEnd];
    when (isset (wrtcSubStream v))
       [writeFieldBegin "wrtcSubStream" T_STRUCT 2005;
        WrtcSubStream.write (val (wrtcSubStream v)); writeFieldEnd];
    when (isset (wrtcUnsubStream v))
       [writeFieldBegin "wrtcUnsubStream" T_STRUCT 2006;
        WrtcUnsubStream.write (val (wrtcUnsubStream v)); writeFieldEnd];
    when (isset (wrtcEventsSequence v))
       [writeFieldBegin "wrtcEventsSequence" T_STRUCT 2008;
        WrtcEventsSequence.write (val (wrtcEventsSequence v)); writeFieldEnd];
    when (isset (wrtcReceiverReport v))
       [writeFieldBegin "wrtcReceiverReport" T_STRUCT 2009;
        WrtcReceiverReport.write (val (wrtcReceiverReport v)); writeFieldEnd];
    when (isset (wrtcGateway2Browser v))
       [writeFieldBegin "wrtcGateway2Browser" T_STRUCT 2010;
        WrtcGateway2Browser.write (val (wrtcGateway2Browser v)); writeFieldEnd];
    when (isset (wrtcStreamControl v))
       [writeFieldBegin "wrtcStreamControl" T_STRUCT 2011;
        WrtcStreamControl.write (val (wrtcStreamControl v)); writeFieldEnd];
    when (isset (wrtcConnectProxyTurnWorker v))
       [writeFieldBegin "wrtcConnectProxyTurnWorker" T_STRUCT 2026;
        WrtcConnectProxyTurnWorker.write (val (wrtcConnectProxyTurnWorker v)); writeFieldEnd]].
End code.
End ReportItem.
