(* ===== verification/ReportCopies.v ===== *)
(** * ReportCopies: copying, swapping and printing the report classes

    The copy constructor, [operator=], [swap] and [operator<<] of every class of
    thrift/gen-cpp/report_item_types.cpp, as the source has them: one module per class,
    after the ones of ReportTypes.  The members are assigned one by one and [__isset] at
    the end; [operator<<] shows a member that is not set as null. *)

From stdpp Require Import strings.
From S2P Require Import Prelude Bytes Double Outcome MemoryBuffer CompactProtocol ThriftStruct ReportTypes.

#[local] Open Scope Z_scope.

(** ** The shared shape *)

(** [x = other.x;] and, after all of them, [__isset = other.__isset;] *)
Definition from {A} (x : field A) : field A := mkField (val x) (isset x).

(** [to_string] of thrift/TToString.h: numbers in decimal, booleans as 0 and 1, strings as
    they are, and vectors in brackets. *)
Definition show_string (s : bytes) : bytes := s.
Definition show_bool (b : bool) : bytes := if b then [49] else [48].
Fixpoint joined {A} (show : A → bytes) (l : list A) : bytes :=
  match l with
  | [] => []
  | [x] => show x
  | x :: l => show x ++ [44; 32] ++ joined show l
  end.
Definition show_list {A} (show : A → bytes) (l : list A) : bytes := [91] ++ joined show l ++ [93].

Definition shown {A} (name : string) (show : A → bytes) (x : field A) : bytes :=
  str name ++ [61] ++ if isset x then show (val x) else str "<null>".
Definition shown_required {A} (name : string) (show : A → bytes) (x : A) : bytes :=
  str name ++ [61] ++ show x.
Definition print_members (name : string) (members : list bytes) : bytes :=
  str name ++ [40] ++ joined id members ++ [41].

Lemma from_id {A} (x : field A) : from x = x.
Proof. by destruct x. Qed.


Module EncryptedItemC.
Import EncryptedItem.

Definition copy (other : t) : t :=
  make
    (from (encType other)) (from (key1 other)) (from (key2 other)) (from (key3 other))
    (from (key4 other)) (from (payload other)).
Definition assign (this other : t) : t :=
  make
    (from (encType other)) (from (key1 other)) (from (key2 other)) (from (key3 other))
    (from (key4 other)) (from (payload other)).
Definition swap (a b : t) : t * t :=
  (make
    (from (encType b)) (from (key1 b)) (from (key2 b)) (from (key3 b)) (from (key4 b))
    (from (payload b)),
   make
    (from (encType a)) (from (key1 a)) (from (key2 a)) (from (key3 a)) (from (key4 a))
    (from (payload a))).
Definition print (obj : t) : bytes :=
  print_members "EncryptedItem" [
    shown "encType" print_d (encType obj);
    shown "key1" show_string (key1 obj);
    shown "key2" show_string (key2 obj);
    shown "key3" show_string (key3 obj);
    shown "key4" show_string (key4 obj);
    shown "payload" show_string (payload obj)].

Lemma EncryptedItem_copied v other :
  copy other = other ∧ assign v other = other ∧ swap v other = (other, v).
Proof. unfold copy, assign, swap. rewrite ?from_id. by destruct v, other. Qed.
End EncryptedItemC.

Module VosdkHeaderC.
Import VosdkHeader.

Definition copy (other : t) : t :=
  make
    (from (sid other)) (from (cname other)) (from (cid other)) (from (lts other))
    (from (ip other)) (from (uid other)) (from (success other)) (from (elapse other))
    (from (peer other)).
Definition assign (this other : t) : t :=
  make
    (from (sid other)) (from (cname other)) (from (cid other)) (from (lts other))
    (from (ip other)) (from (uid other)) (from (success other)) (from (elapse other))
    (from (peer other)).
Definition swap (a b : t) : t * t :=
  (make
    (from (sid b)) (from (cname b)) (from (cid b)) (from (lts b)) (from (ip b)) (from (uid b))
    (from (success b)) (from (elapse b)) (from (peer b)),
   make
    (from (sid a)) (from (cname a)) (from (cid a)) (from (lts a)) (from (ip a)) (from (uid a))
    (from (success a)) (from (elapse a)) (from (peer a))).
Definition print (obj : t) : bytes :=
  print_members "VosdkHeader" [
    shown "sid" show_string (sid obj);
    shown "cname" show_string (cname obj);
    shown "cid" print_d (cid obj);
    shown "lts" print_d (lts obj);
    shown "ip" show_string (ip obj);
    shown "uid" print_d (uid obj);
    shown "success" show_bool (success obj);
    shown "elapse" print_d (elapse obj);
    shown "peer" print_d (peer obj)].

Lemma VosdkHeader_copied v other :
  copy other = other ∧ assign v other = other ∧ swap v other = (other, v).
Proof. unfold copy, assign, swap. rewrite ?from_id. by destruct v, other. Qed.
End VosdkHeaderC.

Module VosdkCounterItemC.
Import VosdkCounterItem.

Definition copy (other : t) : t :=
  make
    (from (name other)) (from (lts other)) (from (value other)) (from (id other))
    (from (tagErrorCode other)).
Definition assign (this other : t) : t :=
  make
    (from (name other)) (from (lts other)) (from (value other)) (from (id other))
    (from (tagErrorCode other)).
Definition swap (a b : t) : t * t :=
  (make
    (from (name b)) (from (lts b)) (from (value b)) (from (id b)) (from (tagErrorCode b)),
   make
    (from (name a)) (from (lts a)) (from (value a)) (from (id a)) (from (tagErrorCode a))).
Definition print (obj : t) : bytes :=
  print_members "VosdkCounterItem" [
    shown "name" show_string (name obj);
    shown "lts" print_d (lts obj);
    shown "value" print_d (value obj);
    shown "id" print_d (id obj);
    shown "tagErrorCode" print_d (tagErrorCode obj)].

Lemma VosdkCounterItem_copied v other :
  copy other = other ∧ assign v other = other ∧ swap v other = (other, v).
Proof. unfold copy, assign, swap. rewrite ?from_id. by destruct v, other. Qed.
End VosdkCounterItemC.

Module VosdkCounterC.
Import VosdkCounter.

Definition copy (other : t) : t :=
  make
    (from (header other)) (from (items other)).
Definition assign (this other : t) : t :=
  make
    (from (header other)) (from (items other)).
Definition swap (a b : t) : t * t :=
  (make
    (from (header b)) (from (items b)),
   make
    (from (header a)) (from (items a))).
Definition print (obj : t) : bytes :=
  print_members "VosdkCounter" [
    shown "header" VosdkHeaderC.print (header obj);
    shown "items" (show_list VosdkCounterItemC.print) (items obj)].

Lemma VosdkCounter_copied v other :
  copy other = other ∧ assign v other = other ∧ swap v other = (other, v).
Proof. unfold copy, assign, swap. rewrite ?from_id. by destruct v, other. Qed.
End VosdkCounterC.

Module VosdkSessionC.
Import VosdkSession.

Definition copy (other : t) : t :=
  make
    (from (header other)) (from (vk other)) (from (ver other)) (from (net1 other))
    (from (net2 other)) (from (localIp other)) (from (ssid other)) (from (bssid other))
    (from (siglevel other)) (from (rssi other)) (from (os1 other)) (from (did other))
    (from (pnq other)) (from (lost other)) (from (info other)) (from (lsid other))
    (from (channelMode other)) (from (cheVer other)) (from (sdkBuildNumber other))
    (from (cheBuildNumber other)) (from (fsid other)) (from (channelProfile other))
    (from (netSubType other)) (from (clientType other)) (from (appCategory other))
    (from (clientRole other)) (from (installId other)).
Definition assign (this other : t) : t :=
  make
    (from (header other)) (from (vk other)) (from (ver other)) (from (net1 other))
    (from (net2 other)) (from (localIp other)) (from (ssid other)) (from (bssid other))
    (from (siglevel other)) (from (rssi other)) (from (os1 other)) (from (did other))
    (from (pnq other)) (from (lost other)) (from (info other)) (from (lsid other))
    (from (channelMode other)) (from (cheVer other)) (from (sdkBuildNumber other))
    (from (cheBuildNumber other)) (from (fsid other)) (from (channelProfile other))
    (from (netSubType other)) (from (clientType other)) (from (appCategory other))
    (from (clientRole other)) (from (installId other)).
Definition swap (a b : t) : t * t :=
  (make
    (from (header b)) (from (vk b)) (from (ver b)) (from (net1 b)) (from (net2 b))
    (from (localIp b)) (from (ssid b)) (from (bssid b)) (from (siglevel b)) (from (rssi b))
    (from (os1 b)) (from (did b)) (from (pnq b)) (from (lost b)) (from (info b)) (from (lsid b))
    (from (channelMode b)) (from (cheVer b)) (from (sdkBuildNumber b)) (from (cheBuildNumber b))
    (from (fsid b)) (from (channelProfile b)) (from (netSubType b)) (from (clientType b))
    (from (appCategory b)) (from (clientRole b)) (from (installId b)),
   make
    (from (header a)) (from (vk a)) (from (ver a)) (from (net1 a)) (from (net2 a))
    (from (localIp a)) (from (ssid a)) (from (bssid a)) (from (siglevel a)) (from (rssi a))
    (from (os1 a)) (from (did a)) (from (pnq a)) (from (lost a)) (from (info a)) (from (lsid a))
    (from (channelMode a)) (from (cheVer a)) (from (sdkBuildNumber a)) (from (cheBuildNumber a))
    (from (fsid a)) (from (channelProfile a)) (from (netSubType a)) (from (clientType a))
    (from (appCategory a)) (from (clientRole a)) (from (installId a))).
Definition print (obj : t) : bytes :=
  print_members "VosdkSession" [
    shown "header" VosdkHeaderC.print (header obj);
    shown "vk" show_string (vk obj);
    shown "ver" show_string (ver obj);
    shown "net1" print_d (net1 obj);
    shown "net2" print_d (net2 obj);
    shown "localIp" show_string (localIp obj);
    shown "ssid" show_string (ssid obj);
    shown "bssid" show_string (bssid obj);
    shown "siglevel" print_d (siglevel obj);
    shown "rssi" print_d (rssi obj);
    shown "os1" print_d (os1 obj);
    shown "did" show_string (did obj);
    shown "pnq" print_d (pnq obj);
    shown "lost" print_d (lost obj);
    shown "info" show_string (info obj);
    shown "lsid" show_string (lsid obj);
    shown "channelMode" print_d (channelMode obj);
    shown "cheVer" show_string (cheVer obj);
    shown "sdkBuildNumber" print_d (sdkBuildNumber obj);
    shown "cheBuildNumber" print_d (cheBuildNumber obj);
    shown "fsid" show_string (fsid obj);
    shown "channelProfile" print_d (channelProfile obj);
    shown "netSubType" print_d (netSubType obj);
    shown "clientType" print_d (clientType obj);
    shown "appCategory" print_d (appCategory obj);
    shown "clientRole" print_d (clientRole obj);
    shown "installId" show_string (installId obj)].

Lemma VosdkSession_copied v other :
  copy other = other ∧ assign v other = other ∧ swap v other = (other, v).
Proof. unfold copy, assign, swap. rewrite ?from_id. by destruct v, other. Qed.
End VosdkSessionC.

Module VosdkVocsC.
Import VosdkVocs.

Definition copy (other : t) : t :=
  make
    (from (header other)) (from (ec other)) (from (sc other)) (from (serverIp other))
    (from (firstSuccess other)) (from (responseTime other)) (from (serverIpList other))
    (from (ssid other)) (from (bssid other)) (from (localWanIp other)) (from (ispName other))
    (from (minorIsp other)).
Definition assign (this other : t) : t :=
  make
    (from (header other)) (from (ec other)) (from (sc other)) (from (serverIp other))
    (from (firstSuccess other)) (from (responseTime other)) (from (serverIpList other))
    (from (ssid other)) (from (bssid other)) (from (localWanIp other)) (from (ispName other))
    (from (minorIsp other)).
Definition swap (a b : t) : t * t :=
  (make
    (from (header b)) (from (ec b)) (from (sc b)) (from (serverIp b)) (from (firstSuccess b))
    (from (responseTime b)) (from (serverIpList b)) (from (ssid b)) (from (bssid b))
    (from (localWanIp b)) (from (ispName b)) (from (minorIsp b)),
   make
    (from (header a)) (from (ec a)) (from (sc a)) (from (serverIp a)) (from (firstSuccess a))
    (from (responseTime a)) (from (serverIpList a)) (from (ssid a)) (from (bssid a))
    (from (localWanIp a)) (from (ispName a)) (from (minorIsp a))).
Definition print (obj : t) : bytes :=
  print_members "VosdkVocs" [
    shown "header" VosdkHeaderC.print (header obj);
    shown "ec" print_d (ec obj);
    shown "sc" print_d (sc obj);
    shown "serverIp" show_string (serverIp obj);
    shown "firstSuccess" show_bool (firstSuccess obj);
    shown "responseTime" print_d (responseTime obj);
    shown "serverIpList" (show_list show_string) (serverIpList obj);
    shown "ssid" show_string (ssid obj);
    shown "bssid" show_string (bssid obj);
    shown "localWanIp" show_string (localWanIp obj);
    shown "ispName" show_string (ispName obj);
    shown "minorIsp" show_bool (minorIsp obj)].

Lemma VosdkVocs_copied v other :
  copy other = other ∧ assign v other = other ∧ swap v other = (other, v).
Proof. unfold copy, assign, swap. rewrite ?from_id. by destruct v, other. Qed.
End VosdkVocsC.

Module VosdkVosC.
Import VosdkVos.

Definition copy (other : t) : t :=
  make
    (from (header other)) (from (ec other)) (from (sc other)) (from (serverIp other))
    (from (vosList other)) (from (firstSuccess other)) (from (channelCount other))
    (from (responseTime other)).
Definition assign (this other : t) : t :=
  make
    (from (header other)) (from (ec other)) (from (sc other)) (from (serverIp other))
    (from (vosList other)) (from (firstSuccess other)) (from (channelCount other))
    (from (responseTime other)).
Definition swap (a b : t) : t * t :=
  (make
    (from (header b)) (from (ec b)) (from (sc b)) (from (serverIp b)) (from (vosList b))
    (from (firstSuccess b)) (from (channelCount b)) (from (responseTime b)),
   make
    (from (header a)) (from (ec a)) (from (sc a)) (from (serverIp a)) (from (vosList a))
    (from (firstSuccess a)) (from (channelCount a)) (from (responseTime a))).
Definition print (obj : t) : bytes :=
  print_members "VosdkVos" [
    shown "header" VosdkHeaderC.print (header obj);
    shown "ec" print_d (ec obj);
    shown "sc" print_d (sc obj);
    shown "serverIp" show_string (serverIp obj);
    shown "vosList" (show_list show_string) (vosList obj);
    shown "firstSuccess" show_bool (firstSuccess obj);
    shown "channelCount" print_d (channelCount obj);
    shown "responseTime" print_d (responseTime obj)].

Lemma VosdkVos_copied v other :
  copy other = other ∧ assign v other = other ∧ swap v other = (other, v).
Proof. unfold copy, assign, swap. rewrite ?from_id. by destruct v, other. Qed.
End VosdkVosC.

Module VosdkWebQuitC.
Import VosdkWebQuit.

Definition copy (other : t) : t :=
  make
    (from (header other)) (from (ec other)).
Definition assign (this other : t) : t :=
  make
    (from (header other)) (from (ec other)).
Definition swap (a b : t) : t * t :=
  (make
    (from (header b)) (from (ec b)),
   make
    (from (header a)) (from (ec a))).
Definition print (obj : t) : bytes :=
  print_members "VosdkWebQuit" [
    shown "header" VosdkHeaderC.print (header obj);
    shown "ec" print_d (ec obj)].

Lemma VosdkWebQuit_copied v other :
  copy other = other ∧ assign v other = other ∧ swap v other = (other, v).
Proof. unfold copy, assign, swap. rewrite ?from_id. by destruct v, other. Qed.
End VosdkWebQuitC.

Module WrtcBrowser2GatewayC.
Import WrtcBrowser2Gateway.

Definition copy (other : t) : t :=
  make
    (from (vid other)) (from (cid other)) (from (uid other)) (from (vos_id other))
    (from (source_ip other)) (from (source_port other)) (from (dest_ip other))
    (from (dest_port other)) (from (delay other)) (from (jitter100 other))
    (from (jitter95 other)) (from (jitter90 other)) (from (lost_ratio other))
    (from (lost_ratio2 other)) (from (lost_ratio3 other)) (from (lts other)) (from (sid other)).
Definition assign (this other : t) : t :=
  make
    (from (vid other)) (from (cid other)) (from (uid other)) (from (vos_id other))
    (from (source_ip other)) (from (source_port other)) (from (dest_ip other))
    (from (dest_port other)) (from (delay other)) (from (jitter100 other))
    (from (jitter95 other)) (from (jitter90 other)) (from (lost_ratio other))
    (from (lost_ratio2 other)) (from (lost_ratio3 other)) (from (lts other)) (from (sid other)).
Definition swap (a b : t) : t * t :=
  (make
    (from (vid b)) (from (cid b)) (from (uid b)) (from (vos_id b)) (from (source_ip b))
    (from (source_port b)) (from (dest_ip b)) (from (dest_port b)) (from (delay b))
    (from (jitter100 b)) (from (jitter95 b)) (from (jitter90 b)) (from (lost_ratio b))
    (from (lost_ratio2 b)) (from (lost_ratio3 b)) (from (lts b)) (from (sid b)),
   make
    (from (vid a)) (from (cid a)) (from (uid a)) (from (vos_id a)) (from (source_ip a))
    (from (source_port a)) (from (dest_ip a)) (from (dest_port a)) (from (delay a))
    (from (jitter100 a)) (from (jitter95 a)) (from (jitter90 a)) (from (lost_ratio a))
    (from (lost_ratio2 a)) (from (lost_ratio3 a)) (from (lts a)) (from (sid a))).
Definition print (obj : t) : bytes :=
  print_members "WrtcBrowser2Gateway" [
    shown "vid" print_d (vid obj);
    shown "cid" print_d (cid obj);
    shown "uid" print_d (uid obj);
    shown "vos_id" print_d (vos_id obj);
    shown "source_ip" print_d (source_ip obj);
    shown "source_port" print_d (source_port obj);
    shown "dest_ip" print_d (dest_ip obj);
    shown "dest_port" print_d (dest_port obj);
    shown "delay" print_d (delay obj);
    shown "jitter100" print_d (jitter100 obj);
    shown "jitter95" print_d (jitter95 obj);
    shown "jitter90" print_d (jitter90 obj);
    shown "lost_ratio" print_d (lost_ratio obj);
    shown "lost_ratio2" print_d (lost_ratio2 obj);
    shown "lost_ratio3" print_d (lost_ratio3 obj);
    shown "lts" print_d (lts obj);
    shown "sid" show_string (sid obj)].

Lemma WrtcBrowser2Gateway_copied v other :
  copy other = other ∧ assign v other = other ∧ swap v other = (other, v).
Proof. unfold copy, assign, swap. rewrite ?from_id. by destruct v, other. Qed.
End WrtcBrowser2GatewayC.

Module WrtcBrowser2BrowserC.
Import WrtcBrowser2Browser.

Definition copy (other : t) : t :=
  make
    (from (vid other)) (from (cid other)) (from (uid other)) (from (vos_id other))
    (from (source_ip other)) (from (source_port other)) (from (dest_ip other))
    (from (dest_port other)) (from (delay other)) (from (jitter100 other))
    (from (jitter95 other)) (from (jitter90 other)) (from (lost_ratio other))
    (from (lost_ratio2 other)) (from (lost_ratio3 other)) (from (lts other)) (from (sid other))
    (from (peer_uid other)).
Definition assign (this other : t) : t :=
  make
    (from (vid other)) (from (cid other)) (from (uid other)) (from (vos_id other))
    (from (source_ip other)) (from (source_port other)) (from (dest_ip other))
    (from (dest_port other)) (from (delay other)) (from (jitter100 other))
    (from (jitter95 other)) (from (jitter90 other)) (from (lost_ratio other))
    (from (lost_ratio2 other)) (from (lost_ratio3 other)) (from (lts other)) (from (sid other))
    (from (peer_uid other)).
Definition swap (a b : t) : t * t :=
  (make
    (from (vid b)) (from (cid b)) (from (uid b)) (from (vos_id b)) (from (source_ip b))
    (from (source_port b)) (from (dest_ip b)) (from (dest_port b)) (from (delay b))
    (from (jitter100 b)) (from (jitter95 b)) (from (jitter90 b)) (from (lost_ratio b))
    (from (lost_ratio2 b)) (from (lost_ratio3 b)) (from (lts b)) (from (sid b))
    (from (peer_uid b)),
   make
    (from (vid a)) (from (cid a)) (from (uid a)) (from (vos_id a)) (from (source_ip a))
    (from (source_port a)) (from (dest_ip a)) (from (dest_port a)) (from (delay a))
    (from (jitter100 a)) (from (jitter95 a)) (from (jitter90 a)) (from (lost_ratio a))
    (from (lost_ratio2 a)) (from (lost_ratio3 a)) (from (lts a)) (from (sid a))
    (from (peer_uid a))).
Definition print (obj : t) : bytes :=
  print_members "WrtcBrowser2Browser" [
    shown "vid" print_d (vid obj);
    shown "cid" print_d (cid obj);
    shown "uid" print_d (uid obj);
    shown "vos_id" print_d (vos_id obj);
    shown "source_ip" print_d (source_ip obj);
    shown "source_port" print_d (source_port obj);
    shown "dest_ip" print_d (dest_ip obj);
    shown "dest_port" print_d (dest_port obj);
    shown "delay" print_d (delay obj);
    shown "jitter100" print_d (jitter100 obj);
    shown "jitter95" print_d (jitter95 obj);
    shown "jitter90" print_d (jitter90 obj);
    shown "lost_ratio" print_d (lost_ratio obj);
    shown "lost_ratio2" print_d (lost_ratio2 obj);
    shown "lost_ratio3" print_d (lost_ratio3 obj);
    shown "lts" print_d (lts obj);
    shown "sid" show_string (sid obj);
    shown "peer_uid" print_d (peer_uid obj)].

Lemma WrtcBrowser2Browser_copied v other :
  copy other = other ∧ assign v other = other ∧ swap v other = (other, v).
Proof. unfold copy, assign, swap. rewrite ?from_id. by destruct v, other. Qed.
End WrtcBrowser2BrowserC.

Module WrtcProfileC.
Import WrtcProfile.

Definition copy (other : t) : t :=
  make
    (from (header other)) (from (framerate other)) (from (bitrate other)) (from (width other))
    (from (height other)).
Definition assign (this other : t) : t :=
  make
    (from (header other)) (from (framerate other)) (from (bitrate other)) (from (width other))
    (from (height other)).
Definition swap (a b : t) : t * t :=
  (make
    (from (header b)) (from (framerate b)) (from (bitrate b)) (from (width b)) (from (height b)),
   make
    (from (header a)) (from (framerate a)) (from (bitrate a)) (from (width a)) (from (height a))).
Definition print (obj : t) : bytes :=
  print_members "WrtcProfile" [
    shown "header" VosdkHeaderC.print (header obj);
    shown "framerate" print_d (framerate obj);
    shown "bitrate" print_d (bitrate obj);
    shown "width" print_d (width obj);
    shown "height" print_d (height obj)].

Lemma WrtcProfile_copied v other :
  copy other = other ∧ assign v other = other ∧ swap v other = (other, v).
Proof. unfold copy, assign, swap. rewrite ?from_id. by destruct v, other. Qed.
End WrtcProfileC.

Module WrtcPubStreamC.
Import WrtcPubStream.

Definition copy (other : t) : t :=
  make
    (from (header other)) (from (audio other)) (from (video other)).
Definition assign (this other : t) : t :=
  make
    (from (header other)) (from (audio other)) (from (video other)).
Definition swap (a b : t) : t * t :=
  (make
    (from (header b)) (from (audio b)) (from (video b)),
   make
    (from (header a)) (from (audio a)) (from (video a))).
Definition print (obj : t) : bytes :=
  print_members "WrtcPubStream" [
    shown "header" VosdkHeaderC.print (header obj);
    shown "audio" show_bool (audio obj);
    shown "video" show_bool (video obj)].

Lemma WrtcPubStream_copied v other :
  copy other = other ∧ assign v other = other ∧ swap v other = (other, v).
Proof. unfold copy, assign, swap. rewrite ?from_id. by destruct v, other. Qed.
End WrtcPubStreamC.

Module WrtcUnpubStreamC.
Import WrtcUnpubStream.

Definition copy (other : t) : t :=
  make
    (from (header other)).
Definition assign (this other : t) : t :=
  make
    (from (header other)).
Definition swap (a b : t) : t * t :=
  (make
    (from (header b)),
   make
    (from (header a))).
Definition print (obj : t) : bytes :=
  print_members "WrtcUnpubStream" [
    shown "header" VosdkHeaderC.print (header obj)].

Lemma WrtcUnpubStream_copied v other :
  copy other = other ∧ assign v other = other ∧ swap v other = (other, v).
Proof. unfold copy, assign, swap. rewrite ?from_id. by destruct v, other. Qed.
End WrtcUnpubStreamC.

Module WrtcSubStreamC.
Import WrtcSubStream.

Definition copy (other : t) : t :=
  make
    (from (header other)) (from (peerUid other)).
Definition assign (this other : t) : t :=
  make
    (from (header other)) (from (peerUid other)).
Definition swap (a b : t) : t * t :=
  (make
    (from (header b)) (from (peerUid b)),
   make
    (from (header a)) (from (peerUid a))).
Definition print (obj : t) : bytes :=
  print_members "WrtcSubStream" [
    shown "header" VosdkHeaderC.print (header obj);
    shown "peerUid" print_d (peerUid obj)].

Lemma WrtcSubStream_copied v other :
  copy other = other ∧ assign v other = other ∧ swap v other = (other, v).
Proof. unfold copy, assign, swap. rewrite ?from_id. by destruct v, other. Qed.
End WrtcSubStreamC.

Module WrtcUnsubStreamC.
Import WrtcUnsubStream.

Definition copy (other : t) : t :=
  make
    (from (header other)) (from (peerUid other)).
Definition assign (this other : t) : t :=
  make
    (from (header other)) (from (peerUid other)).
Definition swap (a b : t) : t * t :=
  (make
    (from (header b)) (from (peerUid b)),
   make
    (from (header a)) (from (peerUid a))).
Definition print (obj : t) : bytes :=
  print_members "WrtcUnsubStream" [
    shown "header" VosdkHeaderC.print (header obj);
    shown "peerUid" print_d (peerUid obj)].

Lemma WrtcUnsubStream_copied v other :
  copy other = other ∧ assign v other = other ∧ swap v other = (other, v).
Proof. unfold copy, assign, swap. rewrite ?from_id. by destruct v, other. Qed.
End WrtcUnsubStreamC.

Module WrtcEventsSequenceItemC.
Import WrtcEventsSequenceItem.

Definition copy (other : t) : t :=
  make
    (n other) (succ other) (from (lts other)) (from (elps other)) (from (ec other))
    (from (addl_s1 other)) (from (addl_s2 other)) (from (addl_i1 other)) (from (addl_i2 other))
    (from (addl_i3 other)) (from (addl_i4 other)).
Definition assign (this other : t) : t :=
  make
    (n other) (succ other) (from (lts other)) (from (elps other)) (from (ec other))
    (from (addl_s1 other)) (from (addl_s2 other)) (from (addl_i1 other)) (from (addl_i2 other))
    (from (addl_i3 other)) (from (addl_i4 other)).
Definition swap (a b : t) : t * t :=
  (make
    (n b) (succ b) (from (lts b)) (from (elps b)) (from (ec b)) (from (addl_s1 b))
    (from (addl_s2 b)) (from (addl_i1 b)) (from (addl_i2 b)) (from (addl_i3 b))
    (from (addl_i4 b)),
   make
    (n a) (succ a) (from (lts a)) (from (elps a)) (from (ec a)) (from (addl_s1 a))
    (from (addl_s2 a)) (from (addl_i1 a)) (from (addl_i2 a)) (from (addl_i3 a))
    (from (addl_i4 a))).
Definition print (obj : t) : bytes :=
  print_members "WrtcEventsSequenceItem" [
    shown_required "n" show_string (n obj);
    shown_required "succ" show_bool (succ obj);
    shown "lts" print_d (lts obj);
    shown "elps" print_d (elps obj);
    shown "ec" show_string (ec obj);
    shown "addl_s1" show_string (addl_s1 obj);
    shown "addl_s2" show_string (addl_s2 obj);
    shown "addl_i1" print_d (addl_i1 obj);
    shown "addl_i2" print_d (addl_i2 obj);
    shown "addl_i3" print_d (addl_i3 obj);
    shown "addl_i4" print_d (addl_i4 obj)].

Lemma WrtcEventsSequenceItem_copied v other :
  copy other = other ∧ assign v other = other ∧ swap v other = (other, v).
Proof. unfold copy, assign, swap. rewrite ?from_id. by destruct v, other. Qed.
End WrtcEventsSequenceItemC.

Module WrtcEventsSequenceC.
Import WrtcEventsSequence.

Definition copy (other : t) : t :=
  make
    (succ other) (from (lts other)) (from (elps other)) (events other) (from (appid other))
    (from (ver other)) (from (brwsr other)) (from (prev_e other)).
Definition assign (this other : t) : t :=
  make
    (succ other) (from (lts other)) (from (elps other)) (events other) (from (appid other))
    (from (ver other)) (from (brwsr other)) (from (prev_e other)).
Definition swap (a b : t) : t * t :=
  (make
    (succ b) (from (lts b)) (from (elps b)) (events b) (from (appid b)) (from (ver b))
    (from (brwsr b)) (from (prev_e b)),
   make
    (succ a) (from (lts a)) (from (elps a)) (events a) (from (appid a)) (from (ver a))
    (from (brwsr a)) (from (prev_e a))).
Definition print (obj : t) : bytes :=
  print_members "WrtcEventsSequence" [
    shown_required "succ" show_bool (succ obj);
    shown "lts" print_d (lts obj);
    shown "elps" print_d (elps obj);
    shown_required "events" (show_list WrtcEventsSequenceItemC.print) (events obj);
    shown "appid" show_string (appid obj);
    shown "ver" show_string (ver obj);
    shown "brwsr" show_string (brwsr obj);
    shown "prev_e" WrtcEventsSequenceItemC.print (prev_e obj)].

Lemma WrtcEventsSequence_copied v other :
  copy other = other ∧ assign v other = other ∧ swap v other = (other, v).
Proof. unfold copy, assign, swap. rewrite ?from_id. by destruct v, other. Qed.
End WrtcEventsSequenceC.

Module WrtcReceiverReportC.
Import WrtcReceiverReport.

Definition copy (other : t) : t :=
  make
    (from (header other)) (from (sourceSsrc other)) (from (fractionLost other))
    (from (cumulativeLost other)) (from (highestSeqNumber other)) (from (jitter other))
    (from (lsr other)) (from (dlsr other)) (from (vid other)).
Definition assign (this other : t) : t :=
  make
    (from (header other)) (from (sourceSsrc other)) (from (fractionLost other))
    (from (cumulativeLost other)) (from (highestSeqNumber other)) (from (jitter other))
    (from (lsr other)) (from (dlsr other)) (from (vid other)).
Definition swap (a b : t) : t * t :=
  (make
    (from (header b)) (from (sourceSsrc b)) (from (fractionLost b)) (from (cumulativeLost b))
    (from (highestSeqNumber b)) (from (jitter b)) (from (lsr b)) (from (dlsr b)) (from (vid b)),
   make
    (from (header a)) (from (sourceSsrc a)) (from (fractionLost a)) (from (cumulativeLost a))
    (from (highestSeqNumber a)) (from (jitter a)) (from (lsr a)) (from (dlsr a)) (from (vid a))).
Definition print (obj : t) : bytes :=
  print_members "WrtcReceiverReport" [
    shown "header" VosdkHeaderC.print (header obj);
    shown "sourceSsrc" print_d (sourceSsrc obj);
    shown "fractionLost" print_d (fractionLost obj);
    shown "cumulativeLost" print_d (cumulativeLost obj);
    shown "highestSeqNumber" print_d (highestSeqNumber obj);
    shown "jitter" print_d (jitter obj);
    shown "lsr" print_d (lsr obj);
    shown "dlsr" print_d (dlsr obj);
    shown "vid" print_d (vid obj)].

Lemma WrtcReceiverReport_copied v other :
  copy other = other ∧ assign v other = other ∧ swap v other = (other, v).
Proof. unfold copy, assign, swap. rewrite ?from_id. by destruct v, other. Qed.
End WrtcReceiverReportC.

Module WrtcGateway2BrowserC.
Import WrtcGateway2Browser.

Definition copy (other : t) : t :=
  make
    (from (sid other)) (from (vid other)) (from (cid other)) (from (uid other))
    (from (spkUid other)) (from (delay other)) (from (jitter other)) (from (lost other)).
Definition assign (this other : t) : t :=
  make
    (from (sid other)) (from (vid other)) (from (cid other)) (from (uid other))
    (from (spkUid other)) (from (delay other)) (from (jitter other)) (from (lost other)).
Definition swap (a b : t) : t * t :=
  (make
    (from (sid b)) (from (vid b)) (from (cid b)) (from (uid b)) (from (spkUid b))
    (from (delay b)) (from (jitter b)) (from (lost b)),
   make
    (from (sid a)) (from (vid a)) (from (cid a)) (from (uid a)) (from (spkUid a))
    (from (delay a)) (from (jitter a)) (from (lost a))).
Definition print (obj : t) : bytes :=
  print_members "WrtcGateway2Browser" [
    shown "sid" show_string (sid obj);
    shown "vid" print_d (vid obj);
    shown "cid" print_d (cid obj);
    shown "uid" print_d (uid obj);
    shown "spkUid" print_d (spkUid obj);
    shown "delay" print_d (delay obj);
    shown "jitter" print_d (jitter obj);
    shown "lost" print_d (lost obj)].

Lemma WrtcGateway2Browser_copied v other :
  copy other = other ∧ assign v other = other ∧ swap v other = (other, v).
Proof. unfold copy, assign, swap. rewrite ?from_id. by destruct v, other. Qed.
End WrtcGateway2BrowserC.

Module WrtcStreamControlC.
Import WrtcStreamControl.

Definition copy (other : t) : t :=
  make
    (from (header other)) (from (operation other)) (from (streamUid other)).
Definition assign (this other : t) : t :=
  make
    (from (header other)) (from (operation other)) (from (streamUid other)).
Definition swap (a b : t) : t * t :=
  (make
    (from (header b)) (from (operation b)) (from (streamUid b)),
   make
    (from (header a)) (from (operation a)) (from (streamUid a))).
Definition print (obj : t) : bytes :=
  print_members "WrtcStreamControl" [
    shown "header" VosdkHeaderC.print (header obj);
    shown "operation" show_string (operation obj);
    shown "streamUid" print_d (streamUid obj)].

Lemma WrtcStreamControl_copied v other :
  copy other = other ∧ assign v other = other ∧ swap v other = (other, v).
Proof. unfold copy, assign, swap. rewrite ?from_id. by destruct v, other. Qed.
End WrtcStreamControlC.

Module WrtcConnectProxyTurnWorkerC.
Import WrtcConnectProxyTurnWorker.

Definition copy (other : t) : t :=
  make
    (from (header other)) (from (clientAddr other)) (from (userCount other))
    (from (ingress other)) (from (egress other)) (from (extend other)).
Definition assign (this other : t) : t :=
  make
    (from (header other)) (from (clientAddr other)) (from (userCount other))
    (from (ingress other)) (from (egress other)) (from (extend other)).
Definition swap (a b : t) : t * t :=
  (make
    (from (header b)) (from (clientAddr b)) (from (userCount b)) (from (ingress b))
    (from (egress b)) (from (extend b)),
   make
    (from (header a)) (from (clientAddr a)) (from (userCount a)) (from (ingress a))
    (from (egress a)) (from (extend a))).
Definition print (obj : t) : bytes :=
  print_members "WrtcConnectProxyTurnWorker" [
    shown "header" VosdkHeaderC.print (header obj);
    shown "clientAddr" show_string (clientAddr obj);
    shown "userCount" print_d (userCount obj);
    shown "ingress" print_d (ingress obj);
    shown "egress" print_d (egress obj);
    shown "extend" show_string (extend obj)].

Lemma WrtcConnectProxyTurnWorker_copied v other :
  copy other = other ∧ assign v other = other ∧ swap v other = (other, v).
Proof. unfold copy, assign, swap. rewrite ?from_id. by destruct v, other. Qed.
End WrtcConnectProxyTurnWorkerC.

Module ReportItemC.
Import ReportItem.

Definition copy (other : t) : t :=
  make
    (uri other) (from (encryptedItem other)) (from (vosdkCounter other))
    (from (vosdkSession other)) (from (vosdkVocs other)) (from (vosdkVos other))
    (from (vosdkWebQuit other)) (from (wrtcBrowser2Gateway other))
    (from (wrtcBrowser2GatewayVideo other)) (from (wrtcBrowser2BrowserAudio other))
    (from (wrtcBrowser2BrowserVideo other)) (from (wrtcProfile other))
    (from (wrtcPubStream other)) (from (wrtcUnpubStream other)) (from (wrtcSubStream other))
    (from (wrtcUnsubStream other)) (from (wrtcEventsSequence other))
    (from (wrtcReceiverReport other)) (from (wrtcGateway2Browser other))
    (from (wrtcStreamControl other)) (from (wrtcConnectProxyTurnWorker other)).
Definition assign (this other : t) : t :=
  make
    (uri other) (from (encryptedItem other)) (from (vosdkCounter other))
    (from (vosdkSession other)) (from (vosdkVocs other)) (from (vosdkVos other))
    (from (vosdkWebQuit other)) (from (wrtcBrowser2Gateway other))
    (from (wrtcBrowser2GatewayVideo other)) (from (wrtcBrowser2BrowserAudio other))
    (from (wrtcBrowser2BrowserVideo other)) (from (wrtcProfile other))
    (from (wrtcPubStream other)) (from (wrtcUnpubStream other)) (from (wrtcSubStream other))
    (from (wrtcUnsubStream other)) (from (wrtcEventsSequence other))
    (from (wrtcReceiverReport other)) (from (wrtcGateway2Browser other))
    (from (wrtcStreamControl other)) (from (wrtcConnectProxyTurnWorker other)).
Definition swap (a b : t) : t * t :=
  (make
    (uri b) (from (encryptedItem b)) (from (vosdkCounter b)) (from (vosdkSession b))
    (from (vosdkVocs b)) (from (vosdkVos b)) (from (vosdkWebQuit b))
    (from (wrtcBrowser2Gateway b)) (from (wrtcBrowser2GatewayVideo b))
    (from (wrtcBrowser2BrowserAudio b)) (from (wrtcBrowser2BrowserVideo b))
    (from (wrtcProfile b)) (from (wrtcPubStream b)) (from (wrtcUnpubStream b))
    (from (wrtcSubStream b)) (from (wrtcUnsubStream b)) (from (wrtcEventsSequence b))
    (from (wrtcReceiverReport b)) (from (wrtcGateway2Browser b)) (from (wrtcStreamControl b))
    (from (wrtcConnectProxyTurnWorker b)),
   make
    (uri a) (from (encryptedItem a)) (from (vosdkCounter a)) (from (vosdkSession a))
    (from (vosdkVocs a)) (from (vosdkVos a)) (from (vosdkWebQuit a))
    (from (wrtcBrowser2Gateway a)) (from (wrtcBrowser2GatewayVideo a))
    (from (wrtcBrowser2BrowserAudio a)) (from (wrtcBrowser2BrowserVideo a))
    (from (wrtcProfile a)) (from (wrtcPubStream a)) (from (wrtcUnpubStream a))
    (from (wrtcSubStream a)) (from (wrtcUnsubStream a)) (from (wrtcEventsSequence a))
    (from (wrtcReceiverReport a)) (from (wrtcGateway2Browser a)) (from (wrtcStreamControl a))
    (from (wrtcConnectProxyTurnWorker a))).
Definition print (obj : t) : bytes :=
  print_members "ReportItem" [
    shown_required "uri" print_d (uri obj);
    shown "encryptedItem" EncryptedItemC.print (encryptedItem obj);
    shown "vosdkCounter" VosdkCounterC.print (vosdkCounter obj);
    shown "vosdkSession" VosdkSessionC.print (vosdkSession obj);
    shown "vosdkVocs" VosdkVocsC.print (vosdkVocs obj);
    shown "vosdkVos" VosdkVosC.print (vosdkVos obj);
    shown "vosdkWebQuit" VosdkWebQuitC.print (vosdkWebQuit obj);
    shown "wrtcBrowser2Gateway" WrtcBrowser2GatewayC.print (wrtcBrowser2Gateway obj);
    shown "wrtcProfile" WrtcProfileC.print (wrtcProfile obj);
    shown "wrtcPubStream" WrtcPubStreamC.print (wrtcPubStream obj);
    shown "wrtcUnpubStream" WrtcUnpubStreamC.print (wrtcUnpubStream obj);
    shown "wrtcSubStream" WrtcSubStreamC.print (wrtcSubStream obj);
    shown "wrtcUnsubStream" WrtcUnsubStreamC.print (wrtcUnsubStream obj);
    shown "wrtcEventsSequence" WrtcEventsSequenceC.print (wrtcEventsSequence obj);
    shown "wrtcReceiverReport" WrtcReceiverReportC.print (wrtcReceiverReport obj);
    shown "wrtcGateway2Browser" WrtcGateway2BrowserC.print (wrtcGateway2Browser obj);
    shown "wrtcStreamControl" WrtcStreamControlC.print (wrtcStreamControl obj);
    shown "wrtcConnectProxyTurnWorker" WrtcConnectProxyTurnWorkerC.print (wrtcConnectProxyTurnWorker obj)].

Lemma ReportItem_copied v other :
  copy other = other ∧ assign v other = other ∧ swap v other = (other, v).
Proof. unfold copy, assign, swap. rewrite ?from_id. by destruct v, other. Qed.
End ReportItemC.

(** The text of a report item leaves out three of its members. *)
Lemma streams_not_printed v a b c :
  ReportItemC.print (ReportItem.__set_wrtcBrowser2GatewayVideo a
    (ReportItem.__set_wrtcBrowser2BrowserAudio b
      (ReportItem.__set_wrtcBrowser2BrowserVideo c v))) = ReportItemC.print v.
Proof. by destruct v. Qed.
