(* ===== verification/ReportSchema.v ===== *)
(** * ReportSchema: the classes of ReportTypes against the reference

    One module per class of ReportTypes: the fields in the order of the declaration
    ([schema]), what they promise ([SchemaOk]), the kind of value ([K]), the calls that
    read and write each field ([codes], in the order of the code), and that the code of
    the class is the one of these fields.  [read_total]: on any bytes [read] ends. *)

From stdpp Require Import strings.
From S2P Require Import Prelude Bytes Outcome MemoryBuffer CompactProtocol CompactSpec.
From S2P Require Import CompactProofs CompactSkip CompactSafe.
From S2P Require Import ThriftStruct ThriftStructProofs ThriftCode ThriftSafe ReportTypes.

#[local] Open Scope Z_scope.

Create HintDb report.

(** The conditions on a list of fields, which are computed. *)
Ltac schema_ok :=
  split;
  [ apply (bool_decide_unpack _); vm_compute; exact I
  | repeat constructor; cbn; lia
  | repeat (constructor; [apply _|]); constructor
  | repeat constructor
  | repeat (constructor; [repeat (constructor; [split; reflexivity|]); constructor|]); constructor
  | repeat (constructor; [split; [reflexivity|by cbn]|]); constructor ].

Section members.
Context {T : Type} `{TransportOk T}.
Abbreviation M := (CompactProtocol.M (T := T)).

Definition readBool_ (fuel : nat) (a : bool) : M bool := into a readBool.
Definition readI16_ (fuel : nat) (a : Z) : M Z := into a readI16.
Definition readI32_ (fuel : nat) (a : Z) : M Z := into a readI32.
Definition readI64_ (fuel : nat) (a : Z) : M Z := into a readI64.
Definition readString_ (fuel : nat) (a : bytes) : M bytes := into a readString.
Definition readBinary_ (fuel : nat) (a : bytes) : M bytes := into a readBinary.
Definition read_list_ {A} (make : A) (rd : nat → A → M A) (fuel : nat) (a : list A) : M (list A) :=
  read_list make (rd fuel).

Lemma fcode_intro {X A} id name (k : kind A) get set rd wr :
  codes k rd wr → fcode_ok (T := T) (mkFC (mkF (X := X) A id name k get set) rd wr).
Proof. done. Qed.

Lemma total_intro {X A} id name (k : kind A) get set rd wr b :
  total_reader b rd → total_reader b (fc_read (T := T) (mkFC (mkF (X := X) A id name k get set) rd wr)).
Proof. done. Qed.

Lemma codes_bool : codes KBool readBool_ writeBool.
Proof. exact KBool_codes. Qed.
Lemma codes_i16 : codes KI16 readI16_ writeI16.
Proof. exact KI16_codes. Qed.
Lemma codes_i32 : codes KI32 readI32_ writeI32.
Proof. exact KI32_codes. Qed.
Lemma codes_i64 : codes KI64 readI64_ writeI64.
Proof. exact KI64_codes. Qed.
Lemma codes_string : codes KString readString_ writeString.
Proof. exact KString_codes. Qed.
Lemma codes_binary : codes KString readBinary_ writeBinary.
Proof. exact KBinary_codes. Qed.
Lemma codes_list {A} (k : kind A) rd wr : KindOk k → codes k rd wr →
  codes (KList k) (read_list_ (k_default k) rd) (write_list (k_type k) wr).
Proof. exact (KList_codes k rd wr). Qed.

Lemma total_bool b : total_reader b readBool_.
Proof. apply (total_into _ _ _ safe_readBool). Qed.
Lemma total_i16 b : total_reader b readI16_.
Proof. apply (total_into _ _ _ safe_readI16). Qed.
Lemma total_i32 b : total_reader b readI32_.
Proof. apply (total_into _ _ _ safe_readI32). Qed.
Lemma total_i64 b : total_reader b readI64_.
Proof. apply (total_into _ _ _ safe_readI64). Qed.
Lemma total_string b : total_reader b readString_.
Proof. apply (total_into _ _ _ safe_readBinary). Qed.
Lemma total_binary b : total_reader b readBinary_.
Proof. apply (total_into _ _ _ safe_readBinary). Qed.
Lemma total_read_list {A} (make : A) rd : total_reader true rd → total_reader true (read_list_ make rd).
Proof. apply total_list. Qed.
End members.

Ltac codes_ok := repeat (constructor; [apply fcode_intro; eauto 2 with report|]); constructor.

Ltac total_ok := repeat (constructor; [apply total_intro; eauto 3 with report|]); constructor.

#[export] Hint Resolve codes_bool codes_i16 codes_i32 codes_i64 codes_string codes_binary : report.
#[export] Hint Resolve total_bool total_i16 total_i32 total_i64 total_string total_binary : report.
#[export] Hint Resolve total_read_list : report.
#[export] Hint Extern 2 (codes (KList _) _ _) =>
  eapply codes_list; [apply _|eauto 2 with report] : report.

Module EncryptedItemS.
Import EncryptedItem.

Definition fd_encType : fspec t := mkF (Z) 1 "encType" KI32 encType __set_encType.
Definition fd_key1 : fspec t := mkF (bytes) 2 "key1" KString key1 __set_key1.
Definition fd_key2 : fspec t := mkF (bytes) 3 "key2" KString key2 __set_key2.
Definition fd_key3 : fspec t := mkF (bytes) 4 "key3" KString key3 __set_key3.
Definition fd_key4 : fspec t := mkF (bytes) 5 "key4" KString key4 __set_key4.
Definition fd_payload : fspec t := mkF (bytes) 10 "payload" KString payload __set_payload.

Definition schema : list (fspec t) :=
  [fd_encType; fd_key1; fd_key2; fd_key3; fd_key4; fd_payload].

#[export] Instance EncryptedItem_schema : SchemaOk schema default.
Proof. schema_ok. Qed.
Lemma EncryptedItem_eqb v w : eqb v w = schema_eqb schema v w.
Proof. reflexivity. Qed.
Definition K : kind t := KStruct schema schema default eqb.
#[export] Instance EncryptedItem_kind : KindOk K.
Proof. apply KStruct_ok; [apply _|apply _|apply EncryptedItem_eqb]. Qed.

Section code.
Context {T : Type} `{TransportOk T}.

Definition codes : list (fcode (T := T) t) := [
  mkFC fd_encType readI32_ writeI32;
  mkFC fd_key1 readBinary_ writeBinary;
  mkFC fd_key2 readBinary_ writeBinary;
  mkFC fd_key3 readBinary_ writeBinary;
  mkFC fd_key4 readBinary_ writeBinary;
  mkFC fd_payload readBinary_ writeBinary].
Lemma EncryptedItem_rcodes : Forall fcode_ok codes.
Proof. codes_ok. Qed.
Lemma EncryptedItem_read fuel v : read fuel v = gen_read codes fuel v.
Proof. reflexivity. Qed.
Lemma EncryptedItem_write v : write v = gen_write codes "EncryptedItem" v.
Proof. reflexivity. Qed.
Lemma EncryptedItem_codes : ThriftCode.codes K read write.
Proof.
  apply (KStruct_codes schema default codes codes "EncryptedItem");
    [apply _|change (WrittenOk schema); apply _|reflexivity
    |apply EncryptedItem_rcodes|apply EncryptedItem_rcodes|apply EncryptedItem_eqb|apply EncryptedItem_read|apply EncryptedItem_write].
Qed.
Lemma EncryptedItem_total b : total_reader b read.
Proof. apply (total_class codes); [total_ok|apply EncryptedItem_read]. Qed.
End code.
#[export] Hint Resolve EncryptedItem_codes EncryptedItem_total : report.
End EncryptedItemS.
Export (hints) EncryptedItemS.

Module VosdkHeaderS.
Import VosdkHeader.

Definition fd_sid : fspec t := mkF (bytes) 1 "sid" KString sid __set_sid.
Definition fd_cname : fspec t := mkF (bytes) 2 "cname" KString cname __set_cname.
Definition fd_cid : fspec t := mkF (Z) 3 "cid" KI64 cid __set_cid.
Definition fd_lts : fspec t := mkF (Z) 4 "lts" KI64 lts __set_lts.
Definition fd_ip : fspec t := mkF (bytes) 5 "ip" KString ip __set_ip.
Definition fd_uid : fspec t := mkF (Z) 6 "uid" KI64 uid __set_uid.
Definition fd_success : fspec t := mkF (bool) 7 "success" KBool success __set_success.
Definition fd_elapse : fspec t := mkF (Z) 8 "elapse" KI64 elapse __set_elapse.
Definition fd_peer : fspec t := mkF (Z) 9 "peer" KI64 peer __set_peer.

Definition schema : list (fspec t) :=
  [fd_sid; fd_cname; fd_cid; fd_lts; fd_ip; fd_uid; fd_success; fd_elapse; fd_peer].

#[export] Instance VosdkHeader_schema : SchemaOk schema default.
Proof. schema_ok. Qed.
Lemma VosdkHeader_eqb v w : eqb v w = schema_eqb schema v w.
Proof. reflexivity. Qed.
Definition K : kind t := KStruct schema schema default eqb.
#[export] Instance VosdkHeader_kind : KindOk K.
Proof. apply KStruct_ok; [apply _|apply _|apply VosdkHeader_eqb]. Qed.

Section code.
Context {T : Type} `{TransportOk T}.

Definition codes : list (fcode (T := T) t) := [
  mkFC fd_sid readString_ writeString;
  mkFC fd_cname readString_ writeString;
  mkFC fd_cid readI64_ writeI64;
  mkFC fd_lts readI64_ writeI64;
  mkFC fd_ip readString_ writeString;
  mkFC fd_uid readI64_ writeI64;
  mkFC fd_success readBool_ writeBool;
  mkFC fd_elapse readI64_ writeI64;
  mkFC fd_peer readI64_ writeI64].
Lemma VosdkHeader_rcodes : Forall fcode_ok codes.
Proof. codes_ok. Qed.
Lemma VosdkHeader_read fuel v : read fuel v = gen_read codes fuel v.
Proof. reflexivity. Qed.
Lemma VosdkHeader_write v : write v = gen_write codes "VosdkHeader" v.
Proof. reflexivity. Qed.
Lemma VosdkHeader_codes : ThriftCode.codes K read write.
Proof.
  apply (KStruct_codes schema default codes codes "VosdkHeader");
    [apply _|change (WrittenOk schema); apply _|reflexivity
    |apply VosdkHeader_rcodes|apply VosdkHeader_rcodes|apply VosdkHeader_eqb|apply VosdkHeader_read|apply VosdkHeader_write].
Qed.
Lemma VosdkHeader_total b : total_reader b read.
Proof. apply (total_class codes); [total_ok|apply VosdkHeader_read]. Qed.
End code.
#[export] Hint Resolve VosdkHeader_codes VosdkHeader_total : report.
End VosdkHeaderS.
Export (hints) VosdkHeaderS.

Module VosdkCounterItemS.
Import VosdkCounterItem.

Definition fd_name : fspec t := mkF (bytes) 1 "name" KString name __set_name.
Definition fd_lts : fspec t := mkF (Z) 2 "lts" KI64 lts __set_lts.
Definition fd_value : fspec t := mkF (Z) 3 "value" KI32 value __set_value.
Definition fd_id : fspec t := mkF (Z) 4 "id" KI32 id __set_id.
Definition fd_tagErrorCode : fspec t := mkF (Z) 5 "tagErrorCode" KI32 tagErrorCode __set_tagErrorCode.

Definition schema : list (fspec t) :=
  [fd_name; fd_lts; fd_value; fd_id; fd_tagErrorCode].

#[export] Instance VosdkCounterItem_schema : SchemaOk schema default.
Proof. schema_ok. Qed.
Lemma VosdkCounterItem_eqb v w : eqb v w = schema_eqb schema v w.
Proof. reflexivity. Qed.
Definition K : kind t := KStruct schema schema default eqb.
#[export] Instance VosdkCounterItem_kind : KindOk K.
Proof. apply KStruct_ok; [apply _|apply _|apply VosdkCounterItem_eqb]. Qed.

Section code.
Context {T : Type} `{TransportOk T}.

Definition codes : list (fcode (T := T) t) := [
  mkFC fd_name readString_ writeString;
  mkFC fd_lts readI64_ writeI64;
  mkFC fd_value readI32_ writeI32;
  mkFC fd_id readI32_ writeI32;
  mkFC fd_tagErrorCode readI32_ writeI32].
Lemma VosdkCounterItem_rcodes : Forall fcode_ok codes.
Proof. codes_ok. Qed.
Lemma VosdkCounterItem_read fuel v : read fuel v = gen_read codes fuel v.
Proof. reflexivity. Qed.
Lemma VosdkCounterItem_write v : write v = gen_write codes "VosdkCounterItem" v.
Proof. reflexivity. Qed.
Lemma VosdkCounterItem_codes : ThriftCode.codes K read write.
Proof.
  apply (KStruct_codes schema default codes codes "VosdkCounterItem");
    [apply _|change (WrittenOk schema); apply _|reflexivity
    |apply VosdkCounterItem_rcodes|apply VosdkCounterItem_rcodes|apply VosdkCounterItem_eqb|apply VosdkCounterItem_read|apply VosdkCounterItem_write].
Qed.
Lemma VosdkCounterItem_total b : total_reader b read.
Proof. apply (total_class codes); [total_ok|apply VosdkCounterItem_read]. Qed.
End code.
#[export] Hint Resolve VosdkCounterItem_codes VosdkCounterItem_total : report.
End VosdkCounterItemS.
Export (hints) VosdkCounterItemS.

Module VosdkCounterS.
Import VosdkCounter.

Definition fd_header : fspec t := mkF (VosdkHeader.t) 1 "header" VosdkHeaderS.K header __set_header.
Definition fd_items : fspec t := mkF (list VosdkCounterItem.t) 2 "items" (KList VosdkCounterItemS.K) items __set_items.

Definition schema : list (fspec t) :=
  [fd_header; fd_items].

#[export] Instance VosdkCounter_schema : SchemaOk schema default.
Proof. schema_ok. Qed.
Lemma VosdkCounter_eqb v w : eqb v w = schema_eqb schema v w.
Proof. reflexivity. Qed.
Definition K : kind t := KStruct schema schema default eqb.
#[export] Instance VosdkCounter_kind : KindOk K.
Proof. apply KStruct_ok; [apply _|apply _|apply VosdkCounter_eqb]. Qed.

Section code.
Context {T : Type} `{TransportOk T}.

Definition codes : list (fcode (T := T) t) := [
  mkFC fd_header VosdkHeader.read VosdkHeader.write;
  mkFC fd_items (read_list_ VosdkCounterItem.default VosdkCounterItem.read) (write_list T_STRUCT VosdkCounterItem.write)].
Lemma VosdkCounter_rcodes : Forall fcode_ok codes.
Proof. codes_ok. Qed.
Lemma VosdkCounter_read fuel v : read fuel v = gen_read codes fuel v.
Proof. reflexivity. Qed.
Lemma VosdkCounter_write v : write v = gen_write codes "VosdkCounter" v.
Proof. reflexivity. Qed.
Lemma VosdkCounter_codes : ThriftCode.codes K read write.
Proof.
  apply (KStruct_codes schema default codes codes "VosdkCounter");
    [apply _|change (WrittenOk schema); apply _|reflexivity
    |apply VosdkCounter_rcodes|apply VosdkCounter_rcodes|apply VosdkCounter_eqb|apply VosdkCounter_read|apply VosdkCounter_write].
Qed.
Lemma VosdkCounter_total : total_reader true read.
Proof. apply (total_class codes); [total_ok|apply VosdkCounter_read]. Qed.
End code.
#[export] Hint Resolve VosdkCounter_codes VosdkCounter_total : report.
End VosdkCounterS.
Export (hints) VosdkCounterS.

Module VosdkSessionS.
Import VosdkSession.

Definition fd_header : fspec t := mkF (VosdkHeader.t) 1 "header" VosdkHeaderS.K header __set_header.
Definition fd_vk : fspec t := mkF (bytes) 5 "vk" KString vk __set_vk.
Definition fd_ver : fspec t := mkF (bytes) 6 "ver" KString ver __set_ver.
Definition fd_net1 : fspec t := mkF (Z) 7 "net1" KI32 net1 __set_net1.
Definition fd_net2 : fspec t := mkF (Z) 8 "net2" KI32 net2 __set_net2.
Definition fd_localIp : fspec t := mkF (bytes) 9 "localIp" KString localIp __set_localIp.
Definition fd_ssid : fspec t := mkF (bytes) 10 "ssid" KString ssid __set_ssid.
Definition fd_bssid : fspec t := mkF (bytes) 11 "bssid" KString bssid __set_bssid.
Definition fd_siglevel : fspec t := mkF (Z) 12 "siglevel" KI32 siglevel __set_siglevel.
Definition fd_rssi : fspec t := mkF (Z) 13 "rssi" KI32 rssi __set_rssi.
Definition fd_os1 : fspec t := mkF (Z) 14 "os1" KI32 os1 __set_os1.
Definition fd_did : fspec t := mkF (bytes) 15 "did" KString did __set_did.
Definition fd_pnq : fspec t := mkF (Z) 16 "pnq" KI32 pnq __set_pnq.
Definition fd_lost : fspec t := mkF (Z) 17 "lost" KI32 lost __set_lost.
Definition fd_info : fspec t := mkF (bytes) 18 "info" KString info __set_info.
Definition fd_lsid : fspec t := mkF (bytes) 19 "lsid" KString lsid __set_lsid.
Definition fd_channelMode : fspec t := mkF (Z) 20 "channelMode" KI32 channelMode __set_channelMode.
Definition fd_cheVer : fspec t := mkF (bytes) 21 "cheVer" KString cheVer __set_cheVer.
Definition fd_sdkBuildNumber : fspec t := mkF (Z) 22 "sdkBuildNumber" KI32 sdkBuildNumber __set_sdkBuildNumber.
Definition fd_cheBuildNumber : fspec t := mkF (Z) 23 "cheBuildNumber" KI32 cheBuildNumber __set_cheBuildNumber.
Definition fd_fsid : fspec t := mkF (bytes) 24 "fsid" KString fsid __set_fsid.
Definition fd_channelProfile : fspec t := mkF (Z) 25 "channelProfile" KI32 channelProfile __set_channelProfile.
Definition fd_netSubType : fspec t := mkF (Z) 26 "netSubType" KI32 netSubType __set_netSubType.
Definition fd_clientType : fspec t := mkF (Z) 27 "clientType" KI32 clientType __set_clientType.
Definition fd_appCategory : fspec t := mkF (Z) 28 "appCategory" KI32 appCategory __set_appCategory.
Definition fd_clientRole : fspec t := mkF (Z) 29 "clientRole" KI32 clientRole __set_clientRole.
Definition fd_installId : fspec t := mkF (bytes) 30 "installId" KString installId __set_installId.

Definition schema : list (fspec t) :=
  [fd_header; fd_vk; fd_ver; fd_net1; fd_net2; fd_localIp; fd_ssid; fd_bssid; fd_siglevel;
   fd_rssi; fd_os1; fd_did; fd_pnq; fd_lost; fd_info; fd_lsid; fd_channelMode; fd_cheVer;
   fd_sdkBuildNumber; fd_cheBuildNumber; fd_fsid; fd_channelProfile; fd_netSubType;
   fd_clientType; fd_appCategory; fd_clientRole; fd_installId].

#[export] Instance VosdkSession_schema : SchemaOk schema default.
Proof. schema_ok. Qed.
Lemma VosdkSession_eqb v w : eqb v w = schema_eqb schema v w.
Proof. reflexivity. Qed.
Definition K : kind t := KStruct schema schema default eqb.
#[export] Instance VosdkSession_kind : KindOk K.
Proof. apply KStruct_ok; [apply _|apply _|apply VosdkSession_eqb]. Qed.

Section code.
Context {T : Type} `{TransportOk T}.

Definition codes : list (fcode (T := T) t) := [
  mkFC fd_header VosdkHeader.read VosdkHeader.write;
  mkFC fd_vk readString_ writeString;
  mkFC fd_ver readString_ writeString;
  mkFC fd_net1 readI32_ writeI32;
  mkFC fd_net2 readI32_ writeI32;
  mkFC fd_localIp readString_ writeString;
  mkFC fd_ssid readString_ writeString;
  mkFC fd_bssid readString_ writeString;
  mkFC fd_siglevel readI32_ writeI32;
  mkFC fd_rssi readI32_ writeI32;
  mkFC fd_os1 readI32_ writeI32;
  mkFC fd_did readString_ writeString;
  mkFC fd_pnq readI32_ writeI32;
  mkFC fd_lost readI32_ writeI32;
  mkFC fd_info readString_ writeString;
  mkFC fd_lsid readString_ writeString;
  mkFC fd_channelMode readI32_ writeI32;
  mkFC fd_cheVer readString_ writeString;
  mkFC fd_sdkBuildNumber readI32_ writeI32;
  mkFC fd_cheBuildNumber readI32_ writeI32;
  mkFC fd_fsid readString_ writeString;
  mkFC fd_channelProfile readI32_ writeI32;
  mkFC fd_netSubType readI32_ writeI32;
  mkFC fd_clientType readI32_ writeI32;
  mkFC fd_appCategory readI32_ writeI32;
  mkFC fd_clientRole readI32_ writeI32;
  mkFC fd_installId readString_ writeString].
Lemma VosdkSession_rcodes : Forall fcode_ok codes.
Proof. codes_ok. Qed.
Lemma VosdkSession_read fuel v : read fuel v = gen_read codes fuel v.
Proof. reflexivity. Qed.
Lemma VosdkSession_write v : write v = gen_write codes "VosdkSession" v.
Proof. reflexivity. Qed.
Lemma VosdkSession_codes : ThriftCode.codes K read write.
Proof.
  apply (KStruct_codes schema default codes codes "VosdkSession");
    [apply _|change (WrittenOk schema); apply _|reflexivity
    |apply VosdkSession_rcodes|apply VosdkSession_rcodes|apply VosdkSession_eqb|apply VosdkSession_read|apply VosdkSession_write].
Qed.
Lemma VosdkSession_total b : total_reader b read.
Proof. apply (total_class codes); [total_ok|apply VosdkSession_read]. Qed.
End code.
#[export] Hint Resolve VosdkSession_codes VosdkSession_total : report.
End VosdkSessionS.
Export (hints) VosdkSessionS.

Module VosdkVocsS.
Import VosdkVocs.

Definition fd_header : fspec t := mkF (VosdkHeader.t) 1 "header" VosdkHeaderS.K header __set_header.
Definition fd_ec : fspec t := mkF (Z) 5 "ec" KI32 ec __set_ec.
Definition fd_sc : fspec t := mkF (Z) 6 "sc" KI32 sc __set_sc.
Definition fd_serverIp : fspec t := mkF (bytes) 7 "serverIp" KString serverIp __set_serverIp.
Definition fd_firstSuccess : fspec t := mkF (bool) 8 "firstSuccess" KBool firstSuccess __set_firstSuccess.
Definition fd_responseTime : fspec t := mkF (Z) 9 "responseTime" KI32 responseTime __set_responseTime.
Definition fd_serverIpList : fspec t := mkF (list bytes) 10 "serverIpList" (KList KString) serverIpList __set_serverIpList.
Definition fd_ssid : fspec t := mkF (bytes) 11 "ssid" KString ssid __set_ssid.
Definition fd_bssid : fspec t := mkF (bytes) 12 "bssid" KString bssid __set_bssid.
Definition fd_localWanIp : fspec t := mkF (bytes) 13 "localWanIp" KString localWanIp __set_localWanIp.
Definition fd_ispName : fspec t := mkF (bytes) 14 "ispName" KString ispName __set_ispName.
Definition fd_minorIsp : fspec t := mkF (bool) 15 "minorIsp" KBool minorIsp __set_minorIsp.

Definition schema : list (fspec t) :=
  [fd_header; fd_ec; fd_sc; fd_serverIp; fd_firstSuccess; fd_responseTime; fd_serverIpList;
   fd_ssid; fd_bssid; fd_localWanIp; fd_ispName; fd_minorIsp].

#[export] Instance VosdkVocs_schema : SchemaOk schema default.
Proof. schema_ok. Qed.
Lemma VosdkVocs_eqb v w : eqb v w = schema_eqb schema v w.
Proof. reflexivity. Qed.
Definition K : kind t := KStruct schema schema default eqb.
#[export] Instance VosdkVocs_kind : KindOk K.
Proof. apply KStruct_ok; [apply _|apply _|apply VosdkVocs_eqb]. Qed.

Section code.
Context {T : Type} `{TransportOk T}.

Definition codes : list (fcode (T := T) t) := [
  mkFC fd_header VosdkHeader.read VosdkHeader.write;
  mkFC fd_ec readI32_ writeI32;
  mkFC fd_sc readI32_ writeI32;
  mkFC fd_serverIp readString_ writeString;
  mkFC fd_firstSuccess readBool_ writeBool;
  mkFC fd_responseTime readI32_ writeI32;
  mkFC fd_serverIpList (read_list_ [] readString_) (write_list T_STRING writeString);
  mkFC fd_ssid readString_ writeString;
  mkFC fd_bssid readString_ writeString;
  mkFC fd_localWanIp readString_ writeString;
  mkFC fd_ispName readString_ writeString;
  mkFC fd_minorIsp readBool_ writeBool].
Lemma VosdkVocs_rcodes : Forall fcode_ok codes.
Proof. codes_ok. Qed.
Lemma VosdkVocs_read fuel v : read fuel v = gen_read codes fuel v.
Proof. reflexivity. Qed.
Lemma VosdkVocs_write v : write v = gen_write codes "VosdkVocs" v.
Proof. reflexivity. Qed.
Lemma VosdkVocs_codes : ThriftCode.codes K read write.
Proof.
  apply (KStruct_codes schema default codes codes "VosdkVocs");
    [apply _|change (WrittenOk schema); apply _|reflexivity
    |apply VosdkVocs_rcodes|apply VosdkVocs_rcodes|apply VosdkVocs_eqb|apply VosdkVocs_read|apply VosdkVocs_write].
Qed.
Lemma VosdkVocs_total : total_reader true read.
Proof. apply (total_class codes); [total_ok|apply VosdkVocs_read]. Qed.
End code.
#[export] Hint Resolve VosdkVocs_codes VosdkVocs_total : report.
End VosdkVocsS.
Export (hints) VosdkVocsS.

Module VosdkVosS.
Import VosdkVos.

Definition fd_header : fspec t := mkF (VosdkHeader.t) 1 "header" VosdkHeaderS.K header __set_header.
Definition fd_ec : fspec t := mkF (Z) 5 "ec" KI32 ec __set_ec.
Definition fd_sc : fspec t := mkF (Z) 6 "sc" KI32 sc __set_sc.
Definition fd_serverIp : fspec t := mkF (bytes) 7 "serverIp" KString serverIp __set_serverIp.
Definition fd_vosList : fspec t := mkF (list bytes) 8 "vosList" (KList KString) vosList __set_vosList.
Definition fd_firstSuccess : fspec t := mkF (bool) 9 "firstSuccess" KBool firstSuccess __set_firstSuccess.
Definition fd_channelCount : fspec t := mkF (Z) 10 "channelCount" KI32 channelCount __set_channelCount.
Definition fd_responseTime : fspec t := mkF (Z) 11 "responseTime" KI32 responseTime __set_responseTime.

Definition schema : list (fspec t) :=
  [fd_header; fd_ec; fd_sc; fd_serverIp; fd_vosList; fd_firstSuccess; fd_channelCount;
   fd_responseTime].

#[export] Instance VosdkVos_schema : SchemaOk schema default.
Proof. schema_ok. Qed.
Lemma VosdkVos_eqb v w : eqb v w = schema_eqb schema v w.
Proof. reflexivity. Qed.
Definition K : kind t := KStruct schema schema default eqb.
#[export] Instance VosdkVos_kind : KindOk K.
Proof. apply KStruct_ok; [apply _|apply _|apply VosdkVos_eqb]. Qed.

Section code.
Context {T : Type} `{TransportOk T}.

Definition codes : list (fcode (T := T) t) := [
  mkFC fd_header VosdkHeader.read VosdkHeader.write;
  mkFC fd_ec readI32_ writeI32;
  mkFC fd_sc readI32_ writeI32;
  mkFC fd_serverIp readString_ writeString;
  mkFC fd_vosList (read_list_ [] readString_) (write_list T_STRING writeString);
  mkFC fd_firstSuccess readBool_ writeBool;
  mkFC fd_channelCount readI32_ writeI32;
  mkFC fd_responseTime readI32_ writeI32].
Lemma VosdkVos_rcodes : Forall fcode_ok codes.
Proof. codes_ok. Qed.
Lemma VosdkVos_read fuel v : read fuel v = gen_read codes fuel v.
Proof. reflexivity. Qed.
Lemma VosdkVos_write v : write v = gen_write codes "VosdkVos" v.
Proof. reflexivity. Qed.
Lemma VosdkVos_codes : ThriftCode.codes K read write.
Proof.
  apply (KStruct_codes schema default codes codes "VosdkVos");
    [apply _|change (WrittenOk schema); apply _|reflexivity
    |apply VosdkVos_rcodes|apply VosdkVos_rcodes|apply VosdkVos_eqb|apply VosdkVos_read|apply VosdkVos_write].
Qed.
Lemma VosdkVos_total : total_reader true read.
Proof. apply (total_class codes); [total_ok|apply VosdkVos_read]. Qed.
End code.
#[export] Hint Resolve VosdkVos_codes VosdkVos_total : report.
End VosdkVosS.
Export (hints) VosdkVosS.

Module VosdkWebQuitS.
Import VosdkWebQuit.

Definition fd_header : fspec t := mkF (VosdkHeader.t) 1 "header" VosdkHeaderS.K header __set_header.
Definition fd_ec : fspec t := mkF (Z) 2 "ec" KI32 ec __set_ec.

Definition schema : list (fspec t) :=
  [fd_header; fd_ec].

#[export] Instance VosdkWebQuit_schema : SchemaOk schema default.
Proof. schema_ok. Qed.
Lemma VosdkWebQuit_eqb v w : eqb v w = schema_eqb schema v w.
Proof. reflexivity. Qed.
Definition K : kind t := KStruct schema schema default eqb.
#[export] Instance VosdkWebQuit_kind : KindOk K.
Proof. apply KStruct_ok; [apply _|apply _|apply VosdkWebQuit_eqb]. Qed.

Section code.
Context {T : Type} `{TransportOk T}.

Definition codes : list (fcode (T := T) t) := [
  mkFC fd_header VosdkHeader.read VosdkHeader.write;
  mkFC fd_ec readI32_ writeI32].
Lemma VosdkWebQuit_rcodes : Forall fcode_ok codes.
Proof. codes_ok. Qed.
Lemma VosdkWebQuit_read fuel v : read fuel v = gen_read codes fuel v.
Proof. reflexivity. Qed.
Lemma VosdkWebQuit_write v : write v = gen_write codes "VosdkWebQuit" v.
Proof. reflexivity. Qed.
Lemma VosdkWebQuit_codes : ThriftCode.codes K read write.
Proof.
  apply (KStruct_codes schema default codes codes "VosdkWebQuit");
    [apply _|change (WrittenOk schema); apply _|reflexivity
    |apply VosdkWebQuit_rcodes|apply VosdkWebQuit_rcodes|apply VosdkWebQuit_eqb|apply VosdkWebQuit_read|apply VosdkWebQuit_write].
Qed.
Lemma VosdkWebQuit_total b : total_reader b read.
Proof. apply (total_class codes); [total_ok|apply VosdkWebQuit_read]. Qed.
End code.
#[export] Hint Resolve VosdkWebQuit_codes VosdkWebQuit_total : report.
End VosdkWebQuitS.
Export (hints) VosdkWebQuitS.

Module WrtcBrowser2GatewayS.
Import WrtcBrowser2Gateway.

Definition fd_vid : fspec t := mkF (Z) 1 "vid" KI32 vid __set_vid.
Definition fd_cid : fspec t := mkF (Z) 2 "cid" KI64 cid __set_cid.
Definition fd_uid : fspec t := mkF (Z) 3 "uid" KI64 uid __set_uid.
Definition fd_vos_id : fspec t := mkF (Z) 4 "vos_id" KI32 vos_id __set_vos_id.
Definition fd_source_ip : fspec t := mkF (Z) 5 "source_ip" KI32 source_ip __set_source_ip.
Definition fd_source_port : fspec t := mkF (Z) 6 "source_port" KI16 source_port __set_source_port.
Definition fd_dest_ip : fspec t := mkF (Z) 7 "dest_ip" KI32 dest_ip __set_dest_ip.
Definition fd_dest_port : fspec t := mkF (Z) 8 "dest_port" KI16 dest_port __set_dest_port.
Definition fd_delay : fspec t := mkF (Z) 9 "delay" KI16 delay __set_delay.
Definition fd_jitter100 : fspec t := mkF (Z) 10 "jitter100" KI16 jitter100 __set_jitter100.
Definition fd_jitter95 : fspec t := mkF (Z) 11 "jitter95" KI16 jitter95 __set_jitter95.
Definition fd_jitter90 : fspec t := mkF (Z) 12 "jitter90" KI16 jitter90 __set_jitter90.
Definition fd_lost_ratio : fspec t := mkF (Z) 13 "lost_ratio" KI16 lost_ratio __set_lost_ratio.
Definition fd_lost_ratio2 : fspec t := mkF (Z) 14 "lost_ratio2" KI16 lost_ratio2 __set_lost_ratio2.
Definition fd_lost_ratio3 : fspec t := mkF (Z) 15 "lost_ratio3" KI16 lost_ratio3 __set_lost_ratio3.
Definition fd_lts : fspec t := mkF (Z) 16 "lts" KI64 lts __set_lts.
Definition fd_sid : fspec t := mkF (bytes) 17 "sid" KString sid __set_sid.

Definition schema : list (fspec t) :=
  [fd_vid; fd_cid; fd_uid; fd_vos_id; fd_source_ip; fd_source_port; fd_dest_ip; fd_dest_port;
   fd_delay; fd_jitter100; fd_jitter95; fd_jitter90; fd_lost_ratio; fd_lost_ratio2;
   fd_lost_ratio3; fd_lts; fd_sid].

#[export] Instance WrtcBrowser2Gateway_schema : SchemaOk schema default.
Proof. schema_ok. Qed.
Lemma WrtcBrowser2Gateway_eqb v w : eqb v w = schema_eqb schema v w.
Proof. reflexivity. Qed.
Definition K : kind t := KStruct schema schema default eqb.
#[export] Instance WrtcBrowser2Gateway_kind : KindOk K.
Proof. apply KStruct_ok; [apply _|apply _|apply WrtcBrowser2Gateway_eqb]. Qed.

Section code.
Context {T : Type} `{TransportOk T}.

Definition codes : list (fcode (T := T) t) := [
  mkFC fd_vid readI32_ writeI32;
  mkFC fd_cid readI64_ writeI64;
  mkFC fd_uid readI64_ writeI64;
  mkFC fd_vos_id readI32_ writeI32;
  mkFC fd_source_ip readI32_ writeI32;
  mkFC fd_source_port readI16_ writeI16;
  mkFC fd_dest_ip readI32_ writeI32;
  mkFC fd_dest_port readI16_ writeI16;
  mkFC fd_delay readI16_ writeI16;
  mkFC fd_jitter100 readI16_ writeI16;
  mkFC fd_jitter95 readI16_ writeI16;
  mkFC fd_jitter90 readI16_ writeI16;
  mkFC fd_lost_ratio readI16_ writeI16;
  mkFC fd_lost_ratio2 readI16_ writeI16;
  mkFC fd_lost_ratio3 readI16_ writeI16;
  mkFC fd_lts readI64_ writeI64;
  mkFC fd_sid readString_ writeString].
Lemma WrtcBrowser2Gateway_rcodes : Forall fcode_ok codes.
Proof. codes_ok. Qed.
Lemma WrtcBrowser2Gateway_read fuel v : read fuel v = gen_read codes fuel v.
Proof. reflexivity. Qed.
Lemma WrtcBrowser2Gateway_write v : write v = gen_write codes "WrtcBrowser2Gateway" v.
Proof. reflexivity. Qed.
Lemma WrtcBrowser2Gateway_codes : ThriftCode.codes K read write.
Proof.
  apply (KStruct_codes schema default codes codes "WrtcBrowser2Gateway");
    [apply _|change (WrittenOk schema); apply _|reflexivity
    |apply WrtcBrowser2Gateway_rcodes|apply WrtcBrowser2Gateway_rcodes|apply WrtcBrowser2Gateway_eqb|apply WrtcBrowser2Gateway_read|apply WrtcBrowser2Gateway_write].
Qed.
Lemma WrtcBrowser2Gateway_total b : total_reader b read.
Proof. apply (total_class codes); [total_ok|apply WrtcBrowser2Gateway_read]. Qed.
End code.
#[export] Hint Resolve WrtcBrowser2Gateway_codes WrtcBrowser2Gateway_total : report.
End WrtcBrowser2GatewayS.
Export (hints) WrtcBrowser2GatewayS.

Module WrtcBrowser2BrowserS.
Import WrtcBrowser2Browser.

Definition fd_vid : fspec t := mkF (Z) 1 "vid" KI32 vid __set_vid.
Definition fd_cid : fspec t := mkF (Z) 2 "cid" KI64 cid __set_cid.
Definition fd_uid : fspec t := mkF (Z) 3 "uid" KI64 uid __set_uid.
Definition fd_vos_id : fspec t := mkF (Z) 4 "vos_id" KI32 vos_id __set_vos_id.
Definition fd_source_ip : fspec t := mkF (Z) 5 "source_ip" KI32 source_ip __set_source_ip.
Definition fd_source_port : fspec t := mkF (Z) 6 "source_port" KI16 source_port __set_source_port.
Definition fd_dest_ip : fspec t := mkF (Z) 7 "dest_ip" KI32 dest_ip __set_dest_ip.
Definition fd_dest_port : fspec t := mkF (Z) 8 "dest_port" KI16 dest_port __set_dest_port.
Definition fd_delay : fspec t := mkF (Z) 9 "delay" KI16 delay __set_delay.
Definition fd_jitter100 : fspec t := mkF (Z) 10 "jitter100" KI16 jitter100 __set_jitter100.
Definition fd_jitter95 : fspec t := mkF (Z) 11 "jitter95" KI16 jitter95 __set_jitter95.
Definition fd_jitter90 : fspec t := mkF (Z) 12 "jitter90" KI16 jitter90 __set_jitter90.
Definition fd_lost_ratio : fspec t := mkF (Z) 13 "lost_ratio" KI16 lost_ratio __set_lost_ratio.
Definition fd_lost_ratio2 : fspec t := mkF (Z) 14 "lost_ratio2" KI16 lost_ratio2 __set_lost_ratio2.
Definition fd_lost_ratio3 : fspec t := mkF (Z) 15 "lost_ratio3" KI16 lost_ratio3 __set_lost_ratio3.
Definition fd_lts : fspec t := mkF (Z) 16 "lts" KI64 lts __set_lts.
Definition fd_sid : fspec t := mkF (bytes) 17 "sid" KString sid __set_sid.
Definition fd_peer_uid : fspec t := mkF (Z) 18 "peer_uid" KI32 peer_uid __set_peer_uid.

Definition schema : list (fspec t) :=
  [fd_vid; fd_cid; fd_uid; fd_vos_id; fd_source_ip; fd_source_port; fd_dest_ip; fd_dest_port;
   fd_delay; fd_jitter100; fd_jitter95; fd_jitter90; fd_lost_ratio; fd_lost_ratio2;
   fd_lost_ratio3; fd_lts; fd_sid; fd_peer_uid].

#[export] Instance WrtcBrowser2Browser_schema : SchemaOk schema default.
Proof. schema_ok. Qed.
Lemma WrtcBrowser2Browser_eqb v w : eqb v w = schema_eqb schema v w.
Proof.
  unfold eqb, schema_eqb, all, schema. cbn [forallb]. repeat (refine (f_equal (andb _) _)).
  unfold field_eqb. cbn. by destruct (isset_eqb _ _), (isset_eqb _ _), (val_eqb _ _ _), (val_eqb _ _ _).
Qed.
Definition K : kind t := KStruct schema schema default eqb.
#[export] Instance WrtcBrowser2Browser_kind : KindOk K.
Proof. apply KStruct_ok; [apply _|apply _|apply WrtcBrowser2Browser_eqb]. Qed.

Section code.
Context {T : Type} `{TransportOk T}.

Definition codes : list (fcode (T := T) t) := [
  mkFC fd_vid readI32_ writeI32;
  mkFC fd_cid readI64_ writeI64;
  mkFC fd_uid readI64_ writeI64;
  mkFC fd_vos_id readI32_ writeI32;
  mkFC fd_source_ip readI32_ writeI32;
  mkFC fd_source_port readI16_ writeI16;
  mkFC fd_dest_ip readI32_ writeI32;
  mkFC fd_dest_port readI16_ writeI16;
  mkFC fd_delay readI16_ writeI16;
  mkFC fd_jitter100 readI16_ writeI16;
  mkFC fd_jitter95 readI16_ writeI16;
  mkFC fd_jitter90 readI16_ writeI16;
  mkFC fd_lost_ratio readI16_ writeI16;
  mkFC fd_lost_ratio2 readI16_ writeI16;
  mkFC fd_lost_ratio3 readI16_ writeI16;
  mkFC fd_lts readI64_ writeI64;
  mkFC fd_sid readString_ writeString;
  mkFC fd_peer_uid readI32_ writeI32].
Lemma WrtcBrowser2Browser_rcodes : Forall fcode_ok codes.
Proof. codes_ok. Qed.
Lemma WrtcBrowser2Browser_read fuel v : read fuel v = gen_read codes fuel v.
Proof. reflexivity. Qed.
Lemma WrtcBrowser2Browser_write v : write v = gen_write codes "WrtcBrowser2Browser" v.
Proof. reflexivity. Qed.
Lemma WrtcBrowser2Browser_codes : ThriftCode.codes K read write.
Proof.
  apply (KStruct_codes schema default codes codes "WrtcBrowser2Browser");
    [apply _|change (WrittenOk schema); apply _|reflexivity
    |apply WrtcBrowser2Browser_rcodes|apply WrtcBrowser2Browser_rcodes|apply WrtcBrowser2Browser_eqb|apply WrtcBrowser2Browser_read|apply WrtcBrowser2Browser_write].
Qed.
Lemma WrtcBrowser2Browser_total b : total_reader b read.
Proof. apply (total_class codes); [total_ok|apply WrtcBrowser2Browser_read]. Qed.
End code.
#[export] Hint Resolve WrtcBrowser2Browser_codes WrtcBrowser2Browser_total : report.
End WrtcBrowser2BrowserS.
Export (hints) WrtcBrowser2BrowserS.

Module WrtcProfileS.
Import WrtcProfile.

Definition fd_header : fspec t := mkF (VosdkHeader.t) 1 "header" VosdkHeaderS.K header __set_header.
Definition fd_framerate : fspec t := mkF (Z) 2 "framerate" KI16 framerate __set_framerate.
Definition fd_bitrate : fspec t := mkF (Z) 3 "bitrate" KI32 bitrate __set_bitrate.
Definition fd_width : fspec t := mkF (Z) 4 "width" KI32 width __set_width.
Definition fd_height : fspec t := mkF (Z) 5 "height" KI32 height __set_height.

Definition schema : list (fspec t) :=
  [fd_header; fd_framerate; fd_bitrate; fd_width; fd_height].

#[export] Instance WrtcProfile_schema : SchemaOk schema default.
Proof. schema_ok. Qed.
Lemma WrtcProfile_eqb v w : eqb v w = schema_eqb schema v w.
Proof. reflexivity. Qed.
Definition K : kind t := KStruct schema schema default eqb.
#[export] Instance WrtcProfile_kind : KindOk K.
Proof. apply KStruct_ok; [apply _|apply _|apply WrtcProfile_eqb]. Qed.

Section code.
Context {T : Type} `{TransportOk T}.

Definition codes : list (fcode (T := T) t) := [
  mkFC fd_header VosdkHeader.read VosdkHeader.write;
  mkFC fd_framerate readI16_ writeI16;
  mkFC fd_bitrate readI32_ writeI32;
  mkFC fd_width readI32_ writeI32;
  mkFC fd_height readI32_ writeI32].
Lemma WrtcProfile_rcodes : Forall fcode_ok codes.
Proof. codes_ok. Qed.
Lemma WrtcProfile_read fuel v : read fuel v = gen_read codes fuel v.
Proof. reflexivity. Qed.
Lemma WrtcProfile_write v : write v = gen_write codes "WrtcProfile" v.
Proof. reflexivity. Qed.
Lemma WrtcProfile_codes : ThriftCode.codes K read write.
Proof.
  apply (KStruct_codes schema default codes codes "WrtcProfile");
    [apply _|change (WrittenOk schema); apply _|reflexivity
    |apply WrtcProfile_rcodes|apply WrtcProfile_rcodes|apply WrtcProfile_eqb|apply WrtcProfile_read|apply WrtcProfile_write].
Qed.
Lemma WrtcProfile_total b : total_reader b read.
Proof. apply (total_class codes); [total_ok|apply WrtcProfile_read]. Qed.
End code.
#[export] Hint Resolve WrtcProfile_codes WrtcProfile_total : report.
End WrtcProfileS.
Export (hints) WrtcProfileS.

Module WrtcPubStreamS.
Import WrtcPubStream.

Definition fd_header : fspec t := mkF (VosdkHeader.t) 1 "header" VosdkHeaderS.K header __set_header.
Definition fd_audio : fspec t := mkF (bool) 2 "audio" KBool audio __set_audio.
Definition fd_video : fspec t := mkF (bool) 3 "video" KBool video __set_video.

Definition schema : list (fspec t) :=
  [fd_header; fd_audio; fd_video].

#[export] Instance WrtcPubStream_schema : SchemaOk schema default.
Proof. schema_ok. Qed.
Lemma WrtcPubStream_eqb v w : eqb v w = schema_eqb schema v w.
Proof. reflexivity. Qed.
Definition K : kind t := KStruct schema schema default eqb.
#[export] Instance WrtcPubStream_kind : KindOk K.
Proof. apply KStruct_ok; [apply _|apply _|apply WrtcPubStream_eqb]. Qed.

Section code.
Context {T : Type} `{TransportOk T}.

Definition codes : list (fcode (T := T) t) := [
  mkFC fd_header VosdkHeader.read VosdkHeader.write;
  mkFC fd_audio readBool_ writeBool;
  mkFC fd_video readBool_ writeBool].
Lemma WrtcPubStream_rcodes : Forall fcode_ok codes.
Proof. codes_ok. Qed.
Lemma WrtcPubStream_read fuel v : read fuel v = gen_read codes fuel v.
Proof. reflexivity. Qed.
Lemma WrtcPubStream_write v : write v = gen_write codes "WrtcPubStream" v.
Proof. reflexivity. Qed.
Lemma WrtcPubStream_codes : ThriftCode.codes K read write.
Proof.
  apply (KStruct_codes schema default codes codes "WrtcPubStream");
    [apply _|change (WrittenOk schema); apply _|reflexivity
    |apply WrtcPubStream_rcodes|apply WrtcPubStream_rcodes|apply WrtcPubStream_eqb|apply WrtcPubStream_read|apply WrtcPubStream_write].
Qed.
Lemma WrtcPubStream_total b : total_reader b read.
Proof. apply (total_class codes); [total_ok|apply WrtcPubStream_read]. Qed.
End code.
#[export] Hint Resolve WrtcPubStream_codes WrtcPubStream_total : report.
End WrtcPubStreamS.
Export (hints) WrtcPubStreamS.

Module WrtcUnpubStreamS.
Import WrtcUnpubStream.

Definition fd_header : fspec t := mkF (VosdkHeader.t) 1 "header" VosdkHeaderS.K header __set_header.

Definition schema : list (fspec t) :=
  [fd_header].

#[export] Instance WrtcUnpubStream_schema : SchemaOk schema default.
Proof. schema_ok. Qed.
Lemma WrtcUnpubStream_eqb v w : eqb v w = schema_eqb schema v w.
Proof. reflexivity. Qed.
Definition K : kind t := KStruct schema schema default eqb.
#[export] Instance WrtcUnpubStream_kind : KindOk K.
Proof. apply KStruct_ok; [apply _|apply _|apply WrtcUnpubStream_eqb]. Qed.

Section code.
Context {T : Type} `{TransportOk T}.

Definition codes : list (fcode (T := T) t) := [
  mkFC fd_header VosdkHeader.read VosdkHeader.write].
Lemma WrtcUnpubStream_rcodes : Forall fcode_ok codes.
Proof. codes_ok. Qed.
Lemma WrtcUnpubStream_read fuel v : read fuel v = gen_read codes fuel v.
Proof. reflexivity. Qed.
Lemma WrtcUnpubStream_write v : write v = gen_write codes "WrtcUnpubStream" v.
Proof. reflexivity. Qed.
Lemma WrtcUnpubStream_codes : ThriftCode.codes K read write.
Proof.
  apply (KStruct_codes schema default codes codes "WrtcUnpubStream");
    [apply _|change (WrittenOk schema); apply _|reflexivity
    |apply WrtcUnpubStream_rcodes|apply WrtcUnpubStream_rcodes|apply WrtcUnpubStream_eqb|apply WrtcUnpubStream_read|apply WrtcUnpubStream_write].
Qed.
Lemma WrtcUnpubStream_total b : total_reader b read.
Proof. apply (total_class codes); [total_ok|apply WrtcUnpubStream_read]. Qed.
End code.
#[export] Hint Resolve WrtcUnpubStream_codes WrtcUnpubStream_total : report.
End WrtcUnpubStreamS.
Export (hints) WrtcUnpubStreamS.

Module WrtcSubStreamS.
Import WrtcSubStream.

Definition fd_header : fspec t := mkF (VosdkHeader.t) 1 "header" VosdkHeaderS.K header __set_header.
Definition fd_peerUid : fspec t := mkF (Z) 2 "peerUid" KI64 peerUid __set_peerUid.

Definition schema : list (fspec t) :=
  [fd_header; fd_peerUid].

#[export] Instance WrtcSubStream_schema : SchemaOk schema default.
Proof. schema_ok. Qed.
Lemma WrtcSubStream_eqb v w : eqb v w = schema_eqb schema v w.
Proof. reflexivity. Qed.
Definition K : kind t := KStruct schema schema default eqb.
#[export] Instance WrtcSubStream_kind : KindOk K.
Proof. apply KStruct_ok; [apply _|apply _|apply WrtcSubStream_eqb]. Qed.

Section code.
Context {T : Type} `{TransportOk T}.

Definition codes : list (fcode (T := T) t) := [
  mkFC fd_header VosdkHeader.read VosdkHeader.write;
  mkFC fd_peerUid readI64_ writeI64].
Lemma WrtcSubStream_rcodes : Forall fcode_ok codes.
Proof. codes_ok. Qed.
Lemma WrtcSubStream_read fuel v : read fuel v = gen_read codes fuel v.
Proof. reflexivity. Qed.
Lemma WrtcSubStream_write v : write v = gen_write codes "WrtcSubStream" v.
Proof. reflexivity. Qed.
Lemma WrtcSubStream_codes : ThriftCode.codes K read write.
Proof.
  apply (KStruct_codes schema default codes codes "WrtcSubStream");
    [apply _|change (WrittenOk schema); apply _|reflexivity
    |apply WrtcSubStream_rcodes|apply WrtcSubStream_rcodes|apply WrtcSubStream_eqb|apply WrtcSubStream_read|apply WrtcSubStream_write].
Qed.
Lemma WrtcSubStream_total b : total_reader b read.
Proof. apply (total_class codes); [total_ok|apply WrtcSubStream_read]. Qed.
End code.
#[export] Hint Resolve WrtcSubStream_codes WrtcSubStream_total : report.
End WrtcSubStreamS.
Export (hints) WrtcSubStreamS.

Module WrtcUnsubStreamS.
Import WrtcUnsubStream.

Definition fd_header : fspec t := mkF (VosdkHeader.t) 1 "header" VosdkHeaderS.K header __set_header.
Definition fd_peerUid : fspec t := mkF (Z) 2 "peerUid" KI64 peerUid __set_peerUid.

Definition schema : list (fspec t) :=
  [fd_header; fd_peerUid].

#[export] Instance WrtcUnsubStream_schema : SchemaOk schema default.
Proof. schema_ok. Qed.
Lemma WrtcUnsubStream_eqb v w : eqb v w = schema_eqb schema v w.
Proof. reflexivity. Qed.
Definition K : kind t := KStruct schema schema default eqb.
#[export] Instance WrtcUnsubStream_kind : KindOk K.
Proof. apply KStruct_ok; [apply _|apply _|apply WrtcUnsubStream_eqb]. Qed.

Section code.
Context {T : Type} `{TransportOk T}.

Definition codes : list (fcode (T := T) t) := [
  mkFC fd_header VosdkHeader.read VosdkHeader.write;
  mkFC fd_peerUid readI64_ writeI64].
Lemma WrtcUnsubStream_rcodes : Forall fcode_ok codes.
Proof. codes_ok. Qed.
Lemma WrtcUnsubStream_read fuel v : read fuel v = gen_read codes fuel v.
Proof. reflexivity. Qed.
Lemma WrtcUnsubStream_write v : write v = gen_write codes "WrtcUnsubStream" v.
Proof. reflexivity. Qed.
Lemma WrtcUnsubStream_codes : ThriftCode.codes K read write.
Proof.
  apply (KStruct_codes schema default codes codes "WrtcUnsubStream");
    [apply _|change (WrittenOk schema); apply _|reflexivity
    |apply WrtcUnsubStream_rcodes|apply WrtcUnsubStream_rcodes|apply WrtcUnsubStream_eqb|apply WrtcUnsubStream_read|apply WrtcUnsubStream_write].
Qed.
Lemma WrtcUnsubStream_total b : total_reader b read.
Proof. apply (total_class codes); [total_ok|apply WrtcUnsubStream_read]. Qed.
End code.
#[export] Hint Resolve WrtcUnsubStream_codes WrtcUnsubStream_total : report.
End WrtcUnsubStreamS.
Export (hints) WrtcUnsubStreamS.

Module WrtcEventsSequenceItemS.
Import WrtcEventsSequenceItem.

Definition fd_n : fspec t := mkF (bytes) 1 "n" KString (λ v, mkField (n v) true) __set_n.
Definition fd_succ : fspec t := mkF (bool) 2 "succ" KBool (λ v, mkField (succ v) true) __set_succ.
Definition fd_lts : fspec t := mkF (Z) 3 "lts" KI64 lts __set_lts.
Definition fd_elps : fspec t := mkF (Z) 4 "elps" KI32 elps __set_elps.
Definition fd_ec : fspec t := mkF (bytes) 5 "ec" KString ec __set_ec.
Definition fd_addl_s1 : fspec t := mkF (bytes) 6 "addl_s1" KString addl_s1 __set_addl_s1.
Definition fd_addl_s2 : fspec t := mkF (bytes) 7 "addl_s2" KString addl_s2 __set_addl_s2.
Definition fd_addl_i1 : fspec t := mkF (Z) 8 "addl_i1" KI64 addl_i1 __set_addl_i1.
Definition fd_addl_i2 : fspec t := mkF (Z) 9 "addl_i2" KI64 addl_i2 __set_addl_i2.
Definition fd_addl_i3 : fspec t := mkF (Z) 10 "addl_i3" KI32 addl_i3 __set_addl_i3.
Definition fd_addl_i4 : fspec t := mkF (Z) 11 "addl_i4" KI32 addl_i4 __set_addl_i4.

Definition schema : list (fspec t) :=
  [fd_n; fd_succ; fd_lts; fd_elps; fd_ec; fd_addl_s1; fd_addl_s2; fd_addl_i1; fd_addl_i2;
   fd_addl_i3; fd_addl_i4].

#[export] Instance WrtcEventsSequenceItem_schema : SchemaOk schema default.
Proof. schema_ok. Qed.
Lemma WrtcEventsSequenceItem_eqb v w : eqb v w = schema_eqb schema v w.
Proof. reflexivity. Qed.
Definition K : kind t := KStruct schema schema default eqb.
#[export] Instance WrtcEventsSequenceItem_kind : KindOk K.
Proof. apply KStruct_ok; [apply _|apply _|apply WrtcEventsSequenceItem_eqb]. Qed.

Section code.
Context {T : Type} `{TransportOk T}.

Definition codes : list (fcode (T := T) t) := [
  mkFC fd_n readString_ writeString;
  mkFC fd_succ readBool_ writeBool;
  mkFC fd_lts readI64_ writeI64;
  mkFC fd_elps readI32_ writeI32;
  mkFC fd_ec readString_ writeString;
  mkFC fd_addl_s1 readString_ writeString;
  mkFC fd_addl_s2 readString_ writeString;
  mkFC fd_addl_i1 readI64_ writeI64;
  mkFC fd_addl_i2 readI64_ writeI64;
  mkFC fd_addl_i3 readI32_ writeI32;
  mkFC fd_addl_i4 readI32_ writeI32].
Lemma WrtcEventsSequenceItem_rcodes : Forall fcode_ok codes.
Proof. codes_ok. Qed.
Lemma WrtcEventsSequenceItem_read fuel v : read fuel v = gen_read codes fuel v.
Proof. reflexivity. Qed.
Lemma WrtcEventsSequenceItem_write v : write v = gen_write codes "WrtcEventsSequenceItem" v.
Proof. reflexivity. Qed.
Lemma WrtcEventsSequenceItem_codes : ThriftCode.codes K read write.
Proof.
  apply (KStruct_codes schema default codes codes "WrtcEventsSequenceItem");
    [apply _|change (WrittenOk schema); apply _|reflexivity
    |apply WrtcEventsSequenceItem_rcodes|apply WrtcEventsSequenceItem_rcodes|apply WrtcEventsSequenceItem_eqb|apply WrtcEventsSequenceItem_read|apply WrtcEventsSequenceItem_write].
Qed.
Lemma WrtcEventsSequenceItem_total b : total_reader b read.
Proof. apply (total_class codes); [total_ok|apply WrtcEventsSequenceItem_read]. Qed.
End code.
#[export] Hint Resolve WrtcEventsSequenceItem_codes WrtcEventsSequenceItem_total : report.
End WrtcEventsSequenceItemS.
Export (hints) WrtcEventsSequenceItemS.

Module WrtcEventsSequenceS.
Import WrtcEventsSequence.

Definition fd_succ : fspec t := mkF (bool) 1 "succ" KBool (λ v, mkField (succ v) true) __set_succ.
Definition fd_lts : fspec t := mkF (Z) 2 "lts" KI64 lts __set_lts.
Definition fd_elps : fspec t := mkF (Z) 3 "elps" KI32 elps __set_elps.
Definition fd_events : fspec t := mkF (list WrtcEventsSequenceItem.t) 4 "events" (KList WrtcEventsSequenceItemS.K) (λ v, mkField (events v) true) __set_events.
Definition fd_appid : fspec t := mkF (bytes) 5 "appid" KString appid __set_appid.
Definition fd_ver : fspec t := mkF (bytes) 6 "ver" KString ver __set_ver.
Definition fd_brwsr : fspec t := mkF (bytes) 7 "brwsr" KString brwsr __set_brwsr.
Definition fd_prev_e : fspec t := mkF (WrtcEventsSequenceItem.t) 8 "prev_e" WrtcEventsSequenceItemS.K prev_e __set_prev_e.

Definition schema : list (fspec t) :=
  [fd_succ; fd_lts; fd_elps; fd_events; fd_appid; fd_ver; fd_brwsr; fd_prev_e].

#[export] Instance WrtcEventsSequence_schema : SchemaOk schema default.
Proof. schema_ok. Qed.
Lemma WrtcEventsSequence_eqb v w : eqb v w = schema_eqb schema v w.
Proof. reflexivity. Qed.
Definition K : kind t := KStruct schema schema default eqb.
#[export] Instance WrtcEventsSequence_kind : KindOk K.
Proof. apply KStruct_ok; [apply _|apply _|apply WrtcEventsSequence_eqb]. Qed.

Section code.
Context {T : Type} `{TransportOk T}.

Definition codes : list (fcode (T := T) t) := [
  mkFC fd_succ readBool_ writeBool;
  mkFC fd_lts readI64_ writeI64;
  mkFC fd_elps readI32_ writeI32;
  mkFC fd_events (read_list_ WrtcEventsSequenceItem.default WrtcEventsSequenceItem.read) (write_list T_STRUCT WrtcEventsSequenceItem.write);
  mkFC fd_appid readString_ writeString;
  mkFC fd_ver readString_ writeString;
  mkFC fd_brwsr readString_ writeString;
  mkFC fd_prev_e WrtcEventsSequenceItem.read WrtcEventsSequenceItem.write].
Lemma WrtcEventsSequence_rcodes : Forall fcode_ok codes.
Proof. codes_ok. Qed.
Lemma WrtcEventsSequence_read fuel v : read fuel v = gen_read codes fuel v.
Proof. reflexivity. Qed.
Lemma WrtcEventsSequence_write v : write v = gen_write codes "WrtcEventsSequence" v.
Proof. reflexivity. Qed.
Lemma WrtcEventsSequence_codes : ThriftCode.codes K read write.
Proof.
  apply (KStruct_codes schema default codes codes "WrtcEventsSequence");
    [apply _|change (WrittenOk schema); apply _|reflexivity
    |apply WrtcEventsSequence_rcodes|apply WrtcEventsSequence_rcodes|apply WrtcEventsSequence_eqb|apply WrtcEventsSequence_read|apply WrtcEventsSequence_write].
Qed.
Lemma WrtcEventsSequence_total : total_reader true read.
Proof. apply (total_class codes); [total_ok|apply WrtcEventsSequence_read]. Qed.
End code.
#[export] Hint Resolve WrtcEventsSequence_codes WrtcEventsSequence_total : report.
End WrtcEventsSequenceS.
Export (hints) WrtcEventsSequenceS.

Module WrtcReceiverReportS.
Import WrtcReceiverReport.

Definition fd_header : fspec t := mkF (VosdkHeader.t) 1 "header" VosdkHeaderS.K header __set_header.
Definition fd_sourceSsrc : fspec t := mkF (Z) 2 "sourceSsrc" KI64 sourceSsrc __set_sourceSsrc.
Definition fd_fractionLost : fspec t := mkF (Z) 3 "fractionLost" KI64 fractionLost __set_fractionLost.
Definition fd_cumulativeLost : fspec t := mkF (Z) 4 "cumulativeLost" KI64 cumulativeLost __set_cumulativeLost.
Definition fd_highestSeqNumber : fspec t := mkF (Z) 5 "highestSeqNumber" KI64 highestSeqNumber __set_highestSeqNumber.
Definition fd_jitter : fspec t := mkF (Z) 6 "jitter" KI64 jitter __set_jitter.
Definition fd_lsr : fspec t := mkF (Z) 7 "lsr" KI64 lsr __set_lsr.
Definition fd_dlsr : fspec t := mkF (Z) 8 "dlsr" KI64 dlsr __set_dlsr.
Definition fd_vid : fspec t := mkF (Z) 9 "vid" KI64 vid __set_vid.

Definition schema : list (fspec t) :=
  [fd_header; fd_sourceSsrc; fd_fractionLost; fd_cumulativeLost; fd_highestSeqNumber; fd_jitter;
   fd_lsr; fd_dlsr; fd_vid].

#[export] Instance WrtcReceiverReport_schema : SchemaOk schema default.
Proof. schema_ok. Qed.
Lemma WrtcReceiverReport_eqb v w : eqb v w = schema_eqb schema v w.
Proof. reflexivity. Qed.
Definition K : kind t := KStruct schema schema default eqb.
#[export] Instance WrtcReceiverReport_kind : KindOk K.
Proof. apply KStruct_ok; [apply _|apply _|apply WrtcReceiverReport_eqb]. Qed.

Section code.
Context {T : Type} `{TransportOk T}.

Definition codes : list (fcode (T := T) t) := [
  mkFC fd_header VosdkHeader.read VosdkHeader.write;
  mkFC fd_sourceSsrc readI64_ writeI64;
  mkFC fd_fractionLost readI64_ writeI64;
  mkFC fd_cumulativeLost readI64_ writeI64;
  mkFC fd_highestSeqNumber readI64_ writeI64;
  mkFC fd_jitter readI64_ writeI64;
  mkFC fd_lsr readI64_ writeI64;
  mkFC fd_dlsr readI64_ writeI64;
  mkFC fd_vid readI64_ writeI64].
Lemma WrtcReceiverReport_rcodes : Forall fcode_ok codes.
Proof. codes_ok. Qed.
Lemma WrtcReceiverReport_read fuel v : read fuel v = gen_read codes fuel v.
Proof. reflexivity. Qed.
Lemma WrtcReceiverReport_write v : write v = gen_write codes "WrtcReceiverReport" v.
Proof. reflexivity. Qed.
Lemma WrtcReceiverReport_codes : ThriftCode.codes K read write.
Proof.
  apply (KStruct_codes schema default codes codes "WrtcReceiverReport");
    [apply _|change (WrittenOk schema); apply _|reflexivity
    |apply WrtcReceiverReport_rcodes|apply WrtcReceiverReport_rcodes|apply WrtcReceiverReport_eqb|apply WrtcReceiverReport_read|apply WrtcReceiverReport_write].
Qed.
Lemma WrtcReceiverReport_total b : total_reader b read.
Proof. apply (total_class codes); [total_ok|apply WrtcReceiverReport_read]. Qed.
End code.
#[export] Hint Resolve WrtcReceiverReport_codes WrtcReceiverReport_total : report.
End WrtcReceiverReportS.
Export (hints) WrtcReceiverReportS.

Module WrtcGateway2BrowserS.
Import WrtcGateway2Browser.

Definition fd_sid : fspec t := mkF (bytes) 1 "sid" KString sid __set_sid.
Definition fd_vid : fspec t := mkF (Z) 2 "vid" KI32 vid __set_vid.
Definition fd_cid : fspec t := mkF (Z) 3 "cid" KI64 cid __set_cid.
Definition fd_uid : fspec t := mkF (Z) 4 "uid" KI64 uid __set_uid.
Definition fd_spkUid : fspec t := mkF (Z) 5 "spkUid" KI64 spkUid __set_spkUid.
Definition fd_delay : fspec t := mkF (Z) 6 "delay" KI16 delay __set_delay.
Definition fd_jitter : fspec t := mkF (Z) 7 "jitter" KI16 jitter __set_jitter.
Definition fd_lost : fspec t := mkF (Z) 8 "lost" KI16 lost __set_lost.

Definition schema : list (fspec t) :=
  [fd_sid; fd_vid; fd_cid; fd_uid; fd_spkUid; fd_delay; fd_jitter; fd_lost].

#[export] Instance WrtcGateway2Browser_schema : SchemaOk schema default.
Proof. schema_ok. Qed.
Lemma WrtcGateway2Browser_eqb v w : eqb v w = schema_eqb schema v w.
Proof. reflexivity. Qed.
Definition K : kind t := KStruct schema schema default eqb.
#[export] Instance WrtcGateway2Browser_kind : KindOk K.
Proof. apply KStruct_ok; [apply _|apply _|apply WrtcGateway2Browser_eqb]. Qed.

Section code.
Context {T : Type} `{TransportOk T}.

Definition codes : list (fcode (T := T) t) := [
  mkFC fd_sid readString_ writeString;
  mkFC fd_vid readI32_ writeI32;
  mkFC fd_cid readI64_ writeI64;
  mkFC fd_uid readI64_ writeI64;
  mkFC fd_spkUid readI64_ writeI64;
  mkFC fd_delay readI16_ writeI16;
  mkFC fd_jitter readI16_ writeI16;
  mkFC fd_lost readI16_ writeI16].
Lemma WrtcGateway2Browser_rcodes : Forall fcode_ok codes.
Proof. codes_ok. Qed.
Lemma WrtcGateway2Browser_read fuel v : read fuel v = gen_read codes fuel v.
Proof. reflexivity. Qed.
Lemma WrtcGateway2Browser_write v : write v = gen_write codes "WrtcGateway2Browser" v.
Proof. reflexivity. Qed.
Lemma WrtcGateway2Browser_codes : ThriftCode.codes K read write.
Proof.
  apply (KStruct_codes schema default codes codes "WrtcGateway2Browser");
    [apply _|change (WrittenOk schema); apply _|reflexivity
    |apply WrtcGateway2Browser_rcodes|apply WrtcGateway2Browser_rcodes|apply WrtcGateway2Browser_eqb|apply WrtcGateway2Browser_read|apply WrtcGateway2Browser_write].
Qed.
Lemma WrtcGateway2Browser_total b : total_reader b read.
Proof. apply (total_class codes); [total_ok|apply WrtcGateway2Browser_read]. Qed.
End code.
#[export] Hint Resolve WrtcGateway2Browser_codes WrtcGateway2Browser_total : report.
End WrtcGateway2BrowserS.
Export (hints) WrtcGateway2BrowserS.

Module WrtcStreamControlS.
Import WrtcStreamControl.

Definition fd_header : fspec t := mkF (VosdkHeader.t) 1 "header" VosdkHeaderS.K header __set_header.
Definition fd_operation : fspec t := mkF (bytes) 2 "operation" KString operation __set_operation.
Definition fd_streamUid : fspec t := mkF (Z) 3 "streamUid" KI64 streamUid __set_streamUid.

Definition schema : list (fspec t) :=
  [fd_header; fd_operation; fd_streamUid].

#[export] Instance WrtcStreamControl_schema : SchemaOk schema default.
Proof. schema_ok. Qed.
Lemma WrtcStreamControl_eqb v w : eqb v w = schema_eqb schema v w.
Proof. reflexivity. Qed.
Definition K : kind t := KStruct schema schema default eqb.
#[export] Instance WrtcStreamControl_kind : KindOk K.
Proof. apply KStruct_ok; [apply _|apply _|apply WrtcStreamControl_eqb]. Qed.

Section code.
Context {T : Type} `{TransportOk T}.

Definition codes : list (fcode (T := T) t) := [
  mkFC fd_header VosdkHeader.read VosdkHeader.write;
  mkFC fd_operation readString_ writeString;
  mkFC fd_streamUid readI64_ writeI64].
Lemma WrtcStreamControl_rcodes : Forall fcode_ok codes.
Proof. codes_ok. Qed.
Lemma WrtcStreamControl_read fuel v : read fuel v = gen_read codes fuel v.
Proof. reflexivity. Qed.
Lemma WrtcStreamControl_write v : write v = gen_write codes "WrtcStreamControl" v.
Proof. reflexivity. Qed.
Lemma WrtcStreamControl_codes : ThriftCode.codes K read write.
Proof.
  apply (KStruct_codes schema default codes codes "WrtcStreamControl");
    [apply _|change (WrittenOk schema); apply _|reflexivity
    |apply WrtcStreamControl_rcodes|apply WrtcStreamControl_rcodes|apply WrtcStreamControl_eqb|apply WrtcStreamControl_read|apply WrtcStreamControl_write].
Qed.
Lemma WrtcStreamControl_total b : total_reader b read.
Proof. apply (total_class codes); [total_ok|apply WrtcStreamControl_read]. Qed.
End code.
#[export] Hint Resolve WrtcStreamControl_codes WrtcStreamControl_total : report.
End WrtcStreamControlS.
Export (hints) WrtcStreamControlS.

Module WrtcConnectProxyTurnWorkerS.
Import WrtcConnectProxyTurnWorker.

Definition fd_header : fspec t := mkF (VosdkHeader.t) 1 "header" VosdkHeaderS.K header __set_header.
Definition fd_clientAddr : fspec t := mkF (bytes) 2 "clientAddr" KString clientAddr __set_clientAddr.
Definition fd_userCount : fspec t := mkF (Z) 3 "userCount" KI64 userCount __set_userCount.
Definition fd_ingress : fspec t := mkF (Z) 4 "ingress" KI64 ingress __set_ingress.
Definition fd_egress : fspec t := mkF (Z) 5 "egress" KI64 egress __set_egress.
Definition fd_extend : fspec t := mkF (bytes) 6 "extend" KString extend __set_extend.

Definition schema : list (fspec t) :=
  [fd_header; fd_clientAddr; fd_userCount; fd_ingress; fd_egress; fd_extend].
Definition wr_ingress : fspec t := mkF (Z) 3 "ingress" KI64 ingress __set_ingress.
Definition wr_egress : fspec t := mkF (Z) 3 "egress" KI64 egress __set_egress.
Definition wr_extend : fspec t := mkF (bytes) 2 "extend" KString extend __set_extend.
(** The numbers that [write] writes. *)
Definition written : list (fspec t) :=
  [fd_header; fd_clientAddr; fd_userCount; wr_ingress; wr_egress; wr_extend].

#[export] Instance WrtcConnectProxyTurnWorker_schema : SchemaOk schema default.
Proof. schema_ok. Qed.
#[export] Instance WrtcConnectProxyTurnWorker_written : WrittenOk written.
Proof. split; [repeat constructor; cbn; lia|repeat (constructor; [apply _|]); constructor]. Qed.
Lemma WrtcConnectProxyTurnWorker_eqb v w : eqb v w = schema_eqb schema v w.
Proof. reflexivity. Qed.
Definition K : kind t := KStruct schema written default eqb.
#[export] Instance WrtcConnectProxyTurnWorker_kind : KindOk K.
Proof. apply KStruct_ok; [apply _|apply _|apply WrtcConnectProxyTurnWorker_eqb]. Qed.

Section code.
Context {T : Type} `{TransportOk T}.

Definition codes : list (fcode (T := T) t) := [
  mkFC fd_header VosdkHeader.read VosdkHeader.write;
  mkFC fd_clientAddr readString_ writeString;
  mkFC fd_userCount readI64_ writeI64;
  mkFC fd_ingress readI64_ writeI64;
  mkFC fd_egress readI64_ writeI64;
  mkFC fd_extend readString_ writeString].
Definition wcodes : list (fcode (T := T) t) := [
  mkFC fd_header VosdkHeader.read VosdkHeader.write;
  mkFC fd_clientAddr readString_ writeString;
  mkFC fd_userCount readI64_ writeI64;
  mkFC wr_ingress readI64_ writeI64;
  mkFC wr_egress readI64_ writeI64;
  mkFC wr_extend readString_ writeString].
Lemma WrtcConnectProxyTurnWorker_rcodes : Forall fcode_ok codes.
Proof. codes_ok. Qed.
Lemma WrtcConnectProxyTurnWorker_wcodes : Forall fcode_ok wcodes.
Proof. codes_ok. Qed.
Lemma WrtcConnectProxyTurnWorker_read fuel v : read fuel v = gen_read codes fuel v.
Proof. reflexivity. Qed.
Lemma WrtcConnectProxyTurnWorker_write v : write v = gen_write wcodes "WrtcConnectProxyTurnWorker" v.
Proof. reflexivity. Qed.
Lemma WrtcConnectProxyTurnWorker_codes : ThriftCode.codes K read write.
Proof.
  apply (KStruct_codes schema default codes wcodes "WrtcConnectProxyTurnWorker");
    [apply _|change (WrittenOk written); apply _|reflexivity
    |apply WrtcConnectProxyTurnWorker_rcodes|apply WrtcConnectProxyTurnWorker_wcodes|apply WrtcConnectProxyTurnWorker_eqb|apply WrtcConnectProxyTurnWorker_read|apply WrtcConnectProxyTurnWorker_write].
Qed.
Lemma WrtcConnectProxyTurnWorker_total b : total_reader b read.
Proof. apply (total_class codes); [total_ok|apply WrtcConnectProxyTurnWorker_read]. Qed.
End code.
#[export] Hint Resolve WrtcConnectProxyTurnWorker_codes WrtcConnectProxyTurnWorker_total : report.
End WrtcConnectProxyTurnWorkerS.
Export (hints) WrtcConnectProxyTurnWorkerS.

Module ReportItemS.
Import ReportItem.

Definition fd_uri : fspec t := mkF (Z) 1 "uri" KI32 (λ v, mkField (uri v) true) __set_uri.
Definition fd_encryptedItem : fspec t := mkF (EncryptedItem.t) 900 "encryptedItem" EncryptedItemS.K encryptedItem __set_encryptedItem.
Definition fd_vosdkCounter : fspec t := mkF (VosdkCounter.t) 1000 "vosdkCounter" VosdkCounterS.K vosdkCounter __set_vosdkCounter.
Definition fd_vosdkSession : fspec t := mkF (VosdkSession.t) 1001 "vosdkSession" VosdkSessionS.K vosdkSession __set_vosdkSession.
Definition fd_vosdkVocs : fspec t := mkF (VosdkVocs.t) 1002 "vosdkVocs" VosdkVocsS.K vosdkVocs __set_vosdkVocs.
Definition fd_vosdkVos : fspec t := mkF (VosdkVos.t) 1003 "vosdkVos" VosdkVosS.K vosdkVos __set_vosdkVos.
Definition fd_vosdkWebQuit : fspec t := mkF (VosdkWebQuit.t) 1029 "vosdkWebQuit" VosdkWebQuitS.K vosdkWebQuit __set_vosdkWebQuit.
Definition fd_wrtcBrowser2Gateway : fspec t := mkF (WrtcBrowser2Gateway.t) 2001 "wrtcBrowser2Gateway" WrtcBrowser2GatewayS.K wrtcBrowser2Gateway __set_wrtcBrowser2Gateway.
Definition fd_wrtcBrowser2GatewayVideo : fspec t := mkF (WrtcBrowser2Gateway.t) 2021 "wrtcBrowser2GatewayVideo" WrtcBrowser2GatewayS.K wrtcBrowser2GatewayVideo __set_wrtcBrowser2GatewayVideo.
Definition fd_wrtcBrowser2BrowserAudio : fspec t := mkF (WrtcBrowser2Browser.t) 2022 "wrtcBrowser2BrowserAudio" WrtcBrowser2BrowserS.K wrtcBrowser2BrowserAudio __set_wrtcBrowser2BrowserAudio.
Definition fd_wrtcBrowser2BrowserVideo : fspec t := mkF (WrtcBrowser2Browser.t) 2023 "wrtcBrowser2BrowserVideo" WrtcBrowser2BrowserS.K wrtcBrowser2BrowserVideo __set_wrtcBrowser2BrowserVideo.
Definition fd_wrtcProfile : fspec t := mkF (WrtcProfile.t) 2002 "wrtcProfile" WrtcProfileS.K wrtcProfile __set_wrtcProfile.
Definition fd_wrtcPubStream : fspec t := mkF (WrtcPubStream.t) 2003 "wrtcPubStream" WrtcPubStreamS.K wrtcPubStream __set_wrtcPubStream.
Definition fd_wrtcUnpubStream : fspec t := mkF (WrtcUnpubStream.t) 2004 "wrtcUnpubStream" WrtcUnpubStreamS.K wrtcUnpubStream __set_wrtcUnpubStream.
Definition fd_wrtcSubStream : fspec t := mkF (WrtcSubStream.t) 2005 "wrtcSubStream" WrtcSubStreamS.K wrtcSubStream __set_wrtcSubStream.
Definition fd_wrtcUnsubStream : fspec t := mkF (WrtcUnsubStream.t) 2006 "wrtcUnsubStream" WrtcUnsubStreamS.K wrtcUnsubStream __set_wrtcUnsubStream.
Definition fd_wrtcEventsSequence : fspec t := mkF (WrtcEventsSequence.t) 2008 "wrtcEventsSequence" WrtcEventsSequenceS.K wrtcEventsSequence __set_wrtcEventsSequence.
Definition fd_wrtcReceiverReport : fspec t := mkF (WrtcReceiverReport.t) 2009 "wrtcReceiverReport" WrtcReceiverReportS.K wrtcReceiverReport __set_wrtcReceiverReport.
Definition fd_wrtcGateway2Browser : fspec t := mkF (WrtcGateway2Browser.t) 2010 "wrtcGateway2Browser" WrtcGateway2BrowserS.K wrtcGateway2Browser __set_wrtcGateway2Browser.
Definition fd_wrtcStreamControl : fspec t := mkF (WrtcStreamControl.t) 2011 "wrtcStreamControl" WrtcStreamControlS.K wrtcStreamControl __set_wrtcStreamControl.
Definition fd_wrtcConnectProxyTurnWorker : fspec t := mkF (WrtcConnectProxyTurnWorker.t) 2026 "wrtcConnectProxyTurnWorker" WrtcConnectProxyTurnWorkerS.K wrtcConnectProxyTurnWorker __set_wrtcConnectProxyTurnWorker.

Definition schema : list (fspec t) :=
  [fd_uri; fd_encryptedItem; fd_vosdkCounter; fd_vosdkSession; fd_vosdkVocs; fd_vosdkVos;
   fd_vosdkWebQuit; fd_wrtcBrowser2Gateway; fd_wrtcBrowser2GatewayVideo;
   fd_wrtcBrowser2BrowserAudio; fd_wrtcBrowser2BrowserVideo; fd_wrtcProfile; fd_wrtcPubStream;
   fd_wrtcUnpubStream; fd_wrtcSubStream; fd_wrtcUnsubStream; fd_wrtcEventsSequence;
   fd_wrtcReceiverReport; fd_wrtcGateway2Browser; fd_wrtcStreamControl;
   fd_wrtcConnectProxyTurnWorker].

#[export] Instance ReportItem_schema : SchemaOk schema default.
Proof. schema_ok. Qed.
Lemma ReportItem_eqb v w : eqb v w = schema_eqb schema v w.
Proof. reflexivity. Qed.
Definition K : kind t := KStruct schema schema default eqb.
#[export] Instance ReportItem_kind : KindOk K.
Proof. apply KStruct_ok; [apply _|apply _|apply ReportItem_eqb]. Qed.

Section code.
Context {T : Type} `{TransportOk T}.

Definition codes : list (fcode (T := T) t) := [
  mkFC fd_uri readI32_ writeI32;
  mkFC fd_encryptedItem EncryptedItem.read EncryptedItem.write;
  mkFC fd_vosdkCounter VosdkCounter.read VosdkCounter.write;
  mkFC fd_vosdkSession VosdkSession.read VosdkSession.write;
  mkFC fd_vosdkVocs VosdkVocs.read VosdkVocs.write;
  mkFC fd_vosdkVos VosdkVos.read VosdkVos.write;
  mkFC fd_vosdkWebQuit VosdkWebQuit.read VosdkWebQuit.write;
  mkFC fd_wrtcBrowser2Gateway WrtcBrowser2Gateway.read WrtcBrowser2Gateway.write;
  mkFC fd_wrtcProfile WrtcProfile.read WrtcProfile.write;
  mkFC fd_wrtcPubStream WrtcPubStream.read WrtcPubStream.write;
  mkFC fd_wrtcUnpubStream WrtcUnpubStream.read WrtcUnpubStream.write;
  mkFC fd_wrtcSubStream WrtcSubStream.read WrtcSubStream.write;
  mkFC fd_wrtcUnsubStream WrtcUnsubStream.read WrtcUnsubStream.write;
  mkFC fd_wrtcEventsSequence WrtcEventsSequence.read WrtcEventsSequence.write;
  mkFC fd_wrtcReceiverReport WrtcReceiverReport.read WrtcReceiverReport.write;
  mkFC fd_wrtcGateway2Browser WrtcGateway2Browser.read WrtcGateway2Browser.write;
  mkFC fd_wrtcStreamControl WrtcStreamControl.read WrtcStreamControl.write;
  mkFC fd_wrtcBrowser2GatewayVideo WrtcBrowser2Gateway.read WrtcBrowser2Gateway.write;
  mkFC fd_wrtcBrowser2BrowserAudio WrtcBrowser2Browser.read WrtcBrowser2Browser.write;
  mkFC fd_wrtcBrowser2BrowserVideo WrtcBrowser2Browser.read WrtcBrowser2Browser.write;
  mkFC fd_wrtcConnectProxyTurnWorker WrtcConnectProxyTurnWorker.read WrtcConnectProxyTurnWorker.write].
Definition wcodes : list (fcode (T := T) t) := [
  mkFC fd_uri readI32_ writeI32;
  mkFC fd_encryptedItem EncryptedItem.read EncryptedItem.write;
  mkFC fd_vosdkCounter VosdkCounter.read VosdkCounter.write;
  mkFC fd_vosdkSession VosdkSession.read VosdkSession.write;
  mkFC fd_vosdkVocs VosdkVocs.read VosdkVocs.write;
  mkFC fd_vosdkVos VosdkVos.read VosdkVos.write;
  mkFC fd_vosdkWebQuit VosdkWebQuit.read VosdkWebQuit.write;
  mkFC fd_wrtcBrowser2Gateway WrtcBrowser2Gateway.read WrtcBrowser2Gateway.write;
  mkFC fd_wrtcBrowser2GatewayVideo WrtcBrowser2Gateway.read WrtcBrowser2Gateway.write;
  mkFC fd_wrtcBrowser2BrowserAudio WrtcBrowser2Browser.read WrtcBrowser2Browser.write;
  mkFC fd_wrtcBrowser2BrowserVideo WrtcBrowser2Browser.read WrtcBrowser2Browser.write;
  mkFC fd_wrtcProfile WrtcProfile.read WrtcProfile.write;
  mkFC fd_wrtcPubStream WrtcPubStream.read WrtcPubStream.write;
  mkFC fd_wrtcUnpubStream WrtcUnpubStream.read WrtcUnpubStream.write;
  mkFC fd_wrtcSubStream WrtcSubStream.read WrtcSubStream.write;
  mkFC fd_wrtcUnsubStream WrtcUnsubStream.read WrtcUnsubStream.write;
  mkFC fd_wrtcEventsSequence WrtcEventsSequence.read WrtcEventsSequence.write;
  mkFC fd_wrtcReceiverReport WrtcReceiverReport.read WrtcReceiverReport.write;
  mkFC fd_wrtcGateway2Browser WrtcGateway2Browser.read WrtcGateway2Browser.write;
  mkFC fd_wrtcStreamControl WrtcStreamControl.read WrtcStreamControl.write;
  mkFC fd_wrtcConnectProxyTurnWorker WrtcConnectProxyTurnWorker.read WrtcConnectProxyTurnWorker.write].
Lemma ReportItem_rcodes : Forall fcode_ok codes.
Proof. codes_ok. Qed.
Lemma ReportItem_wcodes : Forall fcode_ok wcodes.
Proof. codes_ok. Qed.
Lemma ReportItem_order : schema ≡ₚ fc_spec <$> codes.
Proof. unfold schema, codes. cbn. solve_Permutation. Qed.
Lemma ReportItem_read fuel v : read fuel v = gen_read codes fuel v.
Proof. reflexivity. Qed.
Lemma ReportItem_write v : write v = gen_write wcodes "ReportItem" v.
Proof. reflexivity. Qed.
Lemma ReportItem_codes : ThriftCode.codes K read write.
Proof.
  apply (KStruct_codes schema default codes wcodes "ReportItem");
    [apply _|change (WrittenOk schema); apply _|apply ReportItem_order
    |apply ReportItem_rcodes|apply ReportItem_wcodes|apply ReportItem_eqb|apply ReportItem_read|apply ReportItem_write].
Qed.
Lemma ReportItem_total : total_reader true read.
Proof. apply (total_class codes); [total_ok|apply ReportItem_read]. Qed.
End code.
#[export] Hint Resolve ReportItem_codes ReportItem_total : report.
End ReportItemS.
Export (hints) ReportItemS.
