(* ===== verification/Reports.v ===== *)
(** * Reports: the report items that turnserver_main.cc builds and sends

    [SendSessionReport], [SendQuitReport] and [SendConnectReport] fill in a
    [ReportItem], write it with the compact protocol into a memory buffer and send the
    bytes behind a head.  [serialize] is that path from the item to the bytes; it is
    the function of that name that ElbsConnection takes as a parameter. *)

From stdpp Require Import strings.
From S2P Require Import Prelude Bytes Outcome MemoryBuffer CompactProtocol CompactSpec CompactProofs CompactSkip CompactSafe ThriftStruct ThriftStructProofs ThriftCode ThriftSafe ReportTypes ReportSchema WorkerSocket ElbsConnection.

#[local] Open Scope Z_scope.

(** ** Filling in the items *)

(** [enum class ReportItemType] *)
Definition Session : Z := 1001.
Definition WebQuit : Z := 1029.
Definition ConnectProxyTurnWorker : Z := 2026.

Definition session_item (lts : Z) : ReportItem.t :=
  let header :=
    VosdkHeader.__set_cid 12345678
    (VosdkHeader.__set_uid 1
    (VosdkHeader.__set_cname (str "testtesttest")
    (VosdkHeader.__set_lts lts
    (VosdkHeader.__set_sid (str "07EA2A894DDB45AC8695A5CF8DBCC8E4") VosdkHeader.default)))) in
  let evt :=
    VosdkSession.__set_info (str "turnserver test report")
    (VosdkSession.__set_pnq (-1)
    (VosdkSession.__set_did (str "test")
    (VosdkSession.__set_os1 7
    (VosdkSession.__set_net1 1
    (VosdkSession.__set_localIp (str "127.0.0.1")
    (VosdkSession.__set_cheVer (str "turnserver")
    (VosdkSession.__set_ver (str "2.6.0")
    (VosdkSession.__set_vk (str "67466468aed5442c977082bb2a43a1af")
    (VosdkSession.__set_header header VosdkSession.default))))))))) in
  ReportItem.__set_vosdkSession evt (ReportItem.__set_uri Session ReportItem.default).

(** The header that the other two share. *)
Definition machine_header (lts : Z) : VosdkHeader.t :=
  VosdkHeader.__set_cid 2888778408
  (VosdkHeader.__set_uid 124487
  (VosdkHeader.__set_cname (str "machine")
  (VosdkHeader.__set_lts lts
  (VosdkHeader.__set_sid (str "697abf9b17da4d5a8a4df0fe0ea4b531") VosdkHeader.default)))).

Definition quit_item (lts : Z) : ReportItem.t :=
  let evt :=
    VosdkWebQuit.__set_header (VosdkHeader.__set_elapse 1000 (machine_header lts))
    (VosdkWebQuit.__set_ec 0 VosdkWebQuit.default) in
  ReportItem.__set_vosdkWebQuit evt (ReportItem.__set_uri WebQuit ReportItem.default).

Definition connect_item (lts : Z) (clientaddr : bytes) (usercount ingress egress : Z) : ReportItem.t :=
  let evt :=
    WrtcConnectProxyTurnWorker.__set_egress egress
    (WrtcConnectProxyTurnWorker.__set_ingress ingress
    (WrtcConnectProxyTurnWorker.__set_userCount usercount
    (WrtcConnectProxyTurnWorker.__set_clientAddr clientaddr
    (WrtcConnectProxyTurnWorker.__set_header (machine_header lts)
      WrtcConnectProxyTurnWorker.default)))) in
  ReportItem.__set_wrtcConnectProxyTurnWorker evt
    (ReportItem.__set_uri ConnectProxyTurnWorker ReportItem.default).

Definition item_of (r : report) : ReportItem.t :=
  match r with
  | SessionReport lts => session_item lts
  | QuitReport lts => quit_item lts
  | ConnectReport lts clientaddr usercount ingress egress =>
      connect_item lts clientaddr usercount ingress egress
  end.

(** ** Writing them *)

(** [item.write(p) > 0], [available_read()] and [getBuffer], in a new memory buffer. *)
Definition serialize_item (item : ReportItem.t) : outcome bytes :=
  trans ← of_result MemoryBuffer.make;
  '((trans, _), written) ← ReportItem.write item (trans, make_protocol 0 0);
  if (0 <? written) && negb (available_read trans =? 0) then of_result (getBuffer trans)
  else Done [].

Definition serialize (r : report) : bytes :=
  match serialize_item (item_of r) with Done payload => payload | _ => [] end.

(** What the receiver does with the bytes. *)
Definition parse_item (fuel : nat) (payload : bytes) : outcome ReportItem.t :=
  trans ← MemoryBuffer.make_from payload OBSERVE;
  '(_, item) ← ReportItem.read fuel ReportItem.default (trans, make_protocol 0 0);
  Done item.

(** ** One value in and out *)

(** A bound on the length of a value's bytes. *)
Fixpoint room_for (v : tval) : Z :=
  match v with
  | VBool _ | VByte _ => 1
  | VI16 _ | VI32 _ | VI64 _ | VDouble _ => 10
  | VString s => 10 + Z.of_nat (length s)
  | VStruct fs => 1 + foldr (λ f n, 11 + room_for f.2 + n) 0 fs
  | VMap _ _ kvs => 11 + foldr (λ p n, room_for p.1 + room_for p.2 + n) 0 kvs
  | VSet _ l | VList _ l => 11 + foldr (λ x n, room_for x + n) 0 l
  end.

Section value.
Context {T : Type} `{TransportOk T}.
Context {A : Type} (k : kind A) `{!KindOk k}.
Context (rd : nat → A → CompactProtocol.M (T := T) A) (wr : A → CompactProtocol.M (T := T) Z).
Context (Hcodes : codes k rd wr) (Hheight : (k_height k ≤ 64)%nat).
Context (v : A) (Hvalid : k_valid k v).

Abbreviation new := (make_protocol 0 0).

Lemma write_value t l r :
  represents t l r → Z.of_nat (length (enc (k_enc k v))) ≤ r →
  ∃ t' n, wr v (t, new) = Done ((t', new), n) ∧
    represents t' (l ++ enc (k_enc k v)) (r - Z.of_nat (length (enc (k_enc k v)))) ∧
    u32 n = u32 (Z.of_nat (length (enc (k_enc k v)))).
Proof.
  intros Ht Hr. destruct (code_wr k rd wr Hcodes v new Hvalid) as (n & Hp & En).
  { split; [done|]. cbn. unfold DEFAULT_RECURSION_LIMIT. lia. }
  destruct (Hp t l r Ht Hr) as (t' & E & Ht'). by exists t', n.
Qed.

Lemma read_value t rest r fuel :
  represents t (enc (k_enc k v) ++ rest) r → (length (enc (k_enc k v)) < fuel)%nat →
  ∃ t', rd fuel (k_default k) (t, new) = Done ((t', new), k_upd k (k_enc k v) (k_default k)) ∧
    represents t' rest r.
Proof.
  intros Ht Hf.
  destruct (code_rd k rd wr Hcodes (k_enc k v) (k_default k) new fuel) as [_ Hr];
    [by apply k_acceptable|by apply k_wf|apply k_ttype|done|done|].
  exact (Hr t rest r Ht).
Qed.

Lemma read_equal : k_faithful k v → k_eqb k v (k_upd k (k_enc k v) (k_default k)) = true.
Proof. intros Hf. apply k_eqb_spec. by rewrite k_written, k_round. Qed.
End value.

Lemma length_enc_header_le last id ct : - 2 ^ 15 ≤ id < 2 ^ 15 →
  Z.of_nat (length (enc_header last id ct)) ≤ 11.
Proof.
  intros. unfold enc_header. case_match; [cbn; lia|].
  pose proof (length_varint (i32ToZigzag id)). pose proof (i32ToZigzag_bound id).
  rewrite length_cons. lia.
Qed.

Lemma length_enc_collection_le et n : 0 ≤ n < 2 ^ 31 →
  Z.of_nat (length (enc_collection et n)) ≤ 11.
Proof.
  intros. unfold enc_collection. case_match; [cbn; lia|].
  pose proof (length_varint n). rewrite length_cons. lia.
Qed.

Lemma length_enc_list_le l : Forall (λ x, Z.of_nat (length (enc x)) ≤ room_for x) l →
  Z.of_nat (length (enc_list l)) ≤ foldr (λ x n, room_for x + n) 0 l.
Proof.
  unfold enc_list. induction 1 as [|x l Hx _ IH]; [done|]. cbn. rewrite length_app. lia.
Qed.

Lemma Forall_and_impl {A} (P Q R : A → Prop) l :
  Forall P l → Forall Q l → (∀ x, P x → Q x → R x) → Forall R l.
Proof. intros HP HQ HR. induction HP; inversion_clear HQ; constructor; auto. Qed.

Lemma length_enc_le v : wf_val v → Z.of_nat (length (enc v)) ≤ room_for v.
Proof.
  revert v. apply (tval_nested_ind (λ v, wf_val v → Z.of_nat (length (enc v)) ≤ room_for v));
    [intros v|intros fs IH|intros kt vt kvs IH|intros et l IH|intros et l IH].
  - destruct v as [b|z|z|z|z|z|s| | | |]; try exact I; intros Hw; cbn [enc room_for].
    + by destruct b.
    + done.
    + pose proof (length_varint (i32ToZigzag z)). pose proof (i32ToZigzag_bound z). lia.
    + pose proof (length_varint (i32ToZigzag z)). pose proof (i32ToZigzag_bound z). lia.
    + pose proof (length_varint (i64ToZigzag z)). pose proof (i64ToZigzag_bound z). lia.
    + rewrite length_le_bytes. lia.
    + inversion_clear Hw. unfold enc_binary. rewrite length_app.
      pose proof (length_varint (Z.of_nat (length s))). lia.
  - intros Hw. inversion_clear Hw as [| | | | | | |? Hf| | |]. rewrite enc_struct. cbn [room_for].
    generalize 0 at 1. revert IH Hf. induction fs as [|[id x] fs IHfs]; intros IH Hf last; [cbn; lia|].
    apply Forall_cons_1 in IH as [Hx IH]. apply Forall_cons_1 in Hf as [[Hid Hwx] Hf].
    cbn [enc_fields foldr fst snd] in *. rewrite length_app. specialize (IHfs IH Hf id). specialize (Hx Hwx).
    unfold enc_field. rewrite length_app.
    pose proof (length_enc_header_le last id (field_ctype x) Hid). pose proof (enc_body_length x). lia.
  - intros Hw. inversion_clear Hw as [| | | | | | | |? ? ? _ _ Hl Hf| |]. rewrite enc_VMap, length_app.
    cbn [room_for]. enough (Z.of_nat (length (concat (enc_pair <$> kvs))) ≤
      foldr (λ p n, room_for p.1 + room_for p.2 + n) 0 kvs).
    { unfold enc_map. case_match; [cbn; lia|]. rewrite length_app.
      pose proof (length_varint (Z.of_nat (length kvs))). cbn [length]. lia. }
    clear Hl. revert IH Hf. induction kvs as [|[a b] kvs IHk]; intros IH Hf; [done|].
    apply Forall_cons_1 in IH as [[Ha Hb] IH]. apply Forall_cons_1 in Hf as [[[_ Hwa] [_ Hwb]] Hf].
    specialize (IHk IH Hf). specialize (Ha Hwa). specialize (Hb Hwb).
    rewrite fmap_cons. cbn [concat foldr]. rewrite length_app.
    change (enc_pair (a, b)) with (enc a ++ enc b). rewrite length_app. cbn [fst snd] in *. lia.
  - intros Hw. inversion_clear Hw as [| | | | | | | | |? ? _ Hl Hf|]. 
    change (enc (VSet et l)) with (enc (VList et l)). rewrite enc_VList, length_app. cbn [room_for].
    pose proof (length_enc_collection_le et (Z.of_nat (length l))).
    enough (Z.of_nat (length (enc_list l)) ≤ foldr (λ x n, room_for x + n) 0 l) by lia.
    apply length_enc_list_le. eapply Forall_and_impl; [exact IH|exact Hf|]. cbn. tauto.
  - intros Hw. inversion_clear Hw as [| | | | | | | | | |? ? _ Hl Hf].
    rewrite enc_VList, length_app. cbn [room_for].
    pose proof (length_enc_collection_le et (Z.of_nat (length l))).
    enough (Z.of_nat (length (enc_list l)) ≤ foldr (λ x n, room_for x + n) 0 l) by lia.
    apply length_enc_list_le. eapply Forall_and_impl; [exact IH|exact Hf|]. cbn. tauto.
Qed.

(** [write] returns a number of 32 bits. *)
Lemma write_struct_small {T} `{Transport T} name fields s s' n :
  write_struct (T := T) name fields s = Done (s', n) → u32 n = n.
Proof.
  unfold write_struct, mbind, state_bind, mret, state_ret. intros E.
  destruct (incrementRecursionDepth s) as [[s1 []]| |]; try done. cbn [total] in E.
  unfold mbind, state_bind, mret, state_ret in E.
  destruct (writeStructBegin name s1) as [[s2 a]| |]; try done.
  destruct (total _ s2) as [[s3 b]| |]; try done.
  destruct (decrementRecursionDepth s3) as [[s4 []]| |]; try done. injection E as <- <-.
  unfold u32. by rewrite Z.mod_mod.
Qed.

(** ** Items in and out *)

Abbreviation K := ReportItemS.K.

Abbreviation payload_of item := (enc (k_enc K item)).

Lemma item_height : (k_height K ≤ 64)%nat.
Proof. apply Nat.leb_le. vm_compute. reflexivity. Qed.

Lemma payload_positive item : (0 < length (payload_of item))%nat.
Proof.
  change (k_enc K item) with (VStruct (out_fields ReportItemS.schema item)).
  rewrite enc_struct. generalize (out_fields ReportItemS.schema item). intros fs.
  destruct fs as [|[id x] fs]; cbn [enc_fields]; [cbn; lia|]. rewrite length_app.
  unfold enc_field. rewrite length_app. pose proof (length_enc_header 0 id (field_ctype x)). lia.
Qed.

(** What the program sends of a valid item: its bytes, all of them. *)
Lemma serialize_ok item :
  k_valid K item → room_for (k_enc K item) ≤ 2 ^ 31 →
  serialize_item item = Done (payload_of item) ∧ bytes_ok (payload_of item) ∧
  Z.of_nat (length (payload_of item)) ≤ 2 ^ 31.
Proof.
  intros Hv Hr. pose proof (length_enc_le _ (k_wf item Hv)) as Hl.
  pose proof (payload_positive item) as Hpos.
  destruct make_new_holds as (b & Eb & Hb & Er).
  destruct (write_value K ReportItem.read ReportItem.write ReportItemS.ReportItem_codes
    item_height item Hv b [] (room b)) as (b' & n & Ew & [Hb' _] & En);
    [by split|lia|].
  assert (u32 n = n) as En' by exact (write_struct_small _ _ _ _ _ Ew).
  rewrite app_nil_l in Hb'. split; [|split; [apply Hb'|lia]].
  unfold serialize_item. rewrite Eb. cbn [of_result mbind outcome_bind]. rewrite Ew.
  cbn [mbind outcome_bind]. rewrite (holds_available b' _ Hb'), (getBuffer_ok b' _ Hb').
  rewrite <- En', En, u32_small by lia.
  rewrite (proj2 (Z.ltb_lt 0 _)), (proj2 (Z.eqb_neq _ 0)) by lia. done.
Qed.

(** A buffer of bytes that came from somewhere. *)
Lemma make_from_holds payload policy :
  policy ≠ COPY → bytes_ok payload → Z.of_nat (length payload) < 2 ^ 32 →
  ∃ b, make_from payload policy = Done b ∧ holds b payload.
Proof.
  intros Hp Hb Hl. assert (take (Z.to_nat (Z.of_nat (length payload) - 0)) (Some <$> payload) = Some <$> payload).
  { rewrite Z.sub_0_r, Nat2Z.id. apply take_ge. by rewrite length_fmap. }
  destruct policy; [|done|]; (eexists; split; [reflexivity|]);
    split; cbn; rewrite ?length_fmap; auto with lia.
Qed.

Lemma parse_payload item fuel :
  k_valid K item → bytes_ok (payload_of item) → Z.of_nat (length (payload_of item)) ≤ 2 ^ 31 →
  (length (payload_of item) < fuel)%nat →
  parse_item fuel (payload_of item) = Done (k_upd K (k_enc K item) ReportItem.default).
Proof.
  intros Hv Hb Hl Hf. destruct (make_from_holds (payload_of item) OBSERVE) as (b & Eb & Hh);
    [done|done|lia|].
  destruct (read_value K ReportItem.read ReportItem.write ReportItemS.ReportItem_codes item Hv b []
    (room b) fuel) as (b' & E & _); [by rewrite app_nil_r|done|].
  change (k_default K) with ReportItem.default in E.
  unfold parse_item. rewrite Eb. cbn [mbind outcome_bind]. by rewrite E.
Qed.

(** ** The three items *)

Lemma struct_valid {X} (schema : list (fspec X)) default eqb v :
  SchemaOk schema default → valid schema v → k_valid (KStruct schema schema default eqb) v.
Proof. intros Hs Hv. split; [done|]. by apply (struct_acc schema default). Qed.

Lemma struct_faithful {X} (schema : list (fspec X)) default eqb v :
  SchemaOk schema default → faithful schema v → k_faithful (KStruct schema schema default eqb) v.
Proof. intros Hs Hv. split; [|done]. by apply (out_fields_faithful schema default). Qed.

Lemma short_literal s : bool_decide (bytes_ok (str s)) = true →
  (Z.of_nat (length (str s)) <? 2 ^ 31) = true → short_string (str s).
Proof. intros Hb%bool_decide_eq_true Hl%Z.ltb_lt. by split. Qed.

(** Field by field: one that is not set, a number, a string, a struct. *)
Ltac number_ok w v := let z := eval vm_compute in v in change (in_range w z); split; lia.
Ltac field_ok := let E := fresh in intros E; vm_compute in E;
  first [discriminate E|clear E];
  lazymatch goal with
  | |- k_valid (f_kind ?f) ?v =>
      let k := eval unfold f in (f_kind f) in let k := eval cbn in k in
      lazymatch k with
      | KBool => exact I
      | KString => first [assumption|apply short_literal; vm_compute; reflexivity]
      | KI16 => number_ok 15 v
      | KI32 => number_ok 31 v
      | KI64 => number_ok 63 v
      | _ => apply (struct_valid _ _ _ _ _); fields_ok
      end
  | |- k_faithful _ _ => first [exact I|apply (struct_faithful _ _ _ _ _); fields_ok]
  end
with fields_ok := repeat (constructor; [field_ok|]); constructor.

Lemma session_item_ok lts : in_range 63 lts →
  k_valid K (session_item lts) ∧ k_faithful K (session_item lts).
Proof.
  intros [Hl Hu]. split; [apply (struct_valid _ _ _ _ _)|apply (struct_faithful _ _ _ _ _)]; fields_ok.
Qed.

Lemma quit_item_ok lts : in_range 63 lts →
  k_valid K (quit_item lts) ∧ k_faithful K (quit_item lts).
Proof.
  intros [Hl Hu]. split; [apply (struct_valid _ _ _ _ _)|apply (struct_faithful _ _ _ _ _)]; fields_ok.
Qed.

Section connect.
Context (lts usercount ingress egress : Z) (clientaddr : bytes).
Context (Hlts : in_range 63 lts) (Huser : in_range 31 usercount).
Context (Hin : in_range 31 ingress) (Heg : in_range 31 egress).
Context (Haddr : bytes_ok clientaddr ∧ Z.of_nat (length clientaddr) < 2 ^ 30).

Abbreviation item := (connect_item lts clientaddr usercount ingress egress).
Abbreviation evt := (val (ReportItem.wrtcConnectProxyTurnWorker item)).

Lemma machine_header_ok : k_valid VosdkHeaderS.K (machine_header lts).
Proof. destruct Hlts. apply (struct_valid _ _ _ _ _). fields_ok. Qed.

(** All fields but the header can take any value of their type. *)
Lemma connect_acc id x f : known WrtcConnectProxyTurnWorkerS.schema id x = Some f → id ≠ 1 →
  k_acc (f_kind f) x.
Proof.
  intros (Hf & Hid & _)%known_in Hne.
  repeat destruct Hf as [<-|Hf]; try exact I; [|done].
  by destruct Hne; rewrite <- Hid.
Qed.

Lemma connect_evt_ok : k_valid WrtcConnectProxyTurnWorkerS.K evt.
Proof.
  destruct Hlts, Huser, Hin, Heg. split.
  - assert (short_string clientaddr) by (destruct Haddr; split; [done|lia]). fields_ok.
  - cbn [k_enc WrtcConnectProxyTurnWorkerS.K KStruct].
    constructor; [|repeat (constructor; [intros f E; eapply connect_acc; [exact E|discriminate]|]); constructor].
    intros f (Hf & Hid & _)%known_in.
    repeat destruct Hf as [<-|Hf]; try discriminate Hid; [apply machine_header_ok|done].
Qed.

Lemma connect_item_ok : k_valid K item.
Proof.
  apply (struct_valid _ _ _ _ _). pose proof connect_evt_ok.
  constructor; [field_ok|]. do 19 (constructor; [field_ok|]).
  constructor; [|constructor]. intros _. exact connect_evt_ok.
Qed.

Lemma connect_item_room : room_for (k_enc K item) ≤ 2 ^ 31.
Proof.
  destruct Haddr as [_ Hl]. cbv -[Z.of_nat Z.add Z.le length]. cbn [length]. lia.
Qed.
End connect.

(** ** What holds of items *)

(** An item is read back from its bytes by code that may know fewer fields. *)
Lemma of_fields_known {X} (schema : list (fspec X)) fs : ∀ v,
  of_fields schema fs v = of_fields schema (filter (λ p, is_Some (known schema p.1 p.2)) fs) v.
Proof.
  induction fs as [|p fs IH]; intros v; [done|]. rewrite filter_cons.
  change (of_fields schema (p :: fs) v) with (of_fields schema fs (put_field schema v p)).
  case_decide as Hk; [apply IH|]. rewrite <- IH. unfold put_field.
  destruct (known schema p.1 p.2); [by destruct Hk|done].
Qed.

Section more.
Context {T : Type} `{TransportOk T}.
Context {X : Type} (schema : list (fspec X)) (default : X) (eqb : X → X → bool).
Context {Hok : SchemaOk schema default} {Hkind : KindOk (KStruct schema schema default eqb)}.
Context (rd : nat → X → CompactProtocol.M (T := T) X) (wr : X → CompactProtocol.M (T := T) Z).
Context (Hcodes : codes (KStruct schema schema default eqb) rd wr).

Lemma read_more_fields v : k_valid (KStruct schema schema default eqb) v →
  k_faithful (KStruct schema schema default eqb) v → ∀ fs,
  wf_val (VStruct fs) →
  filter (λ p, is_Some (known schema p.1 p.2)) fs = to_fields schema v → ∀ t rest r fuel,
  represents t (enc (VStruct fs) ++ rest) r → (length (enc (VStruct fs)) < fuel)%nat →
  ∃ t' w, rd fuel default (t, make_protocol 0 0) = Done ((t', make_protocol 0 0), w) ∧
    eqb v w = true ∧ represents t' rest r.
Proof.
  intros Hv Hf fs Hw Hfs t rest r fuel Ht Hfuel. pose proof Hf as [Eo _].
  assert (acc_fields schema fs) as Hacc.
  { destruct Hv as [_ Ha]. rewrite Eo, <- Hfs in Ha. unfold acc_fields in *. rewrite Forall_forall in *.
    intros p Hp f Hk. apply (Ha p); [|done]. apply list_elem_of_In, list_elem_of_filter.
    split; [by rewrite Hk|by apply list_elem_of_In]. }
  destruct (code_rd _ _ _ Hcodes (VStruct fs) default (make_protocol 0 0) fuel) as [_ Hr];
    [done|done|done|done|done|].
  destruct (Hr t rest r Ht) as (t' & E & Ht'). exists t', (of_fields schema fs default).
  split; [exact E|]. split; [|done]. rewrite of_fields_known, Hfs.
  apply (k_eqb_spec (k := KStruct schema schema default eqb)). symmetry.
  by apply (k_round (k := KStruct schema schema default eqb)).
Qed.
End more.


(** a writer may know more: fields with other numbers or of other types than
    expected, of any type and anywhere in the item, are passed over, and what is left
    is read as the item it is. *)
Theorem unknown_fields_ignored {T} `{TransportOk T} (v : ReportItem.t) (fs : list (Z * tval))
    (t : T) (rest : bytes) (r : Z) (fuel : nat) :
  k_valid K v → k_faithful K v → wf_val (VStruct fs) →
  filter (λ p, is_Some (known ReportItemS.schema p.1 p.2)) fs = to_fields ReportItemS.schema v →
  represents t (enc (VStruct fs) ++ rest) r → (length (enc (VStruct fs)) < fuel)%nat →
  ∃ t' w, ReportItem.read fuel ReportItem.default (t, make_protocol 0 0) =
      Done ((t', make_protocol 0 0), w) ∧
    ReportItem.eqb v w = true ∧ represents t' rest r.
Proof.
  intros Hv Hf Hw Hfs Ht Hfuel.
  exact (read_more_fields _ _ _ _ _ ReportItemS.ReportItem_codes v Hv Hf fs Hw Hfs t rest r fuel Ht Hfuel).
Qed.
Lemma unknown_fields_ignored_witness :
  let fs := (7, VList T_STRING [VString [1; 2]]) :: to_fields ReportItemS.schema (quit_item 9) ++
    [(1, VBool true); (-3, VStruct [(1, VDouble 4)])] in
  ∃ b t w, make_from (enc (VStruct fs)) OBSERVE = Done b ∧
    ReportItem.read 200 ReportItem.default (b, make_protocol 0 0) = Done ((t, make_protocol 0 0), w) ∧
    ReportItem.eqb (quit_item 9) w = true.
Proof.
  intros fs. destruct (quit_item_ok 9) as [Hv Hf]; [split; lia|].
  destruct (make_from_holds (enc (VStruct fs)) OBSERVE) as (b & Eb & Hb).
  { done. } { apply (bool_decide_unpack _). vm_compute. exact I. } { vm_compute. reflexivity. }
  destruct (unknown_fields_ignored (quit_item 9) fs b [] (room b) 200 Hv Hf) as (t & w & Er & Eq & _).
  - pose proof (k_wf (k := K) _ Hv) as Hw. destruct Hf as [Eo _]. cbn [k_enc K KStruct ReportItemS.K] in Hw.
    rewrite Eo in Hw. inversion_clear Hw as [| | | | | | |? Hw'| | |].
    constructor. constructor; [split; [cbn; lia|]|apply Forall_app_2; [exact Hw'|]].
    + constructor; [cbn; tauto|done|]. constructor; [|constructor].
      split; [done|]. constructor; [repeat constructor; done|done].
    + constructor; [split; [cbn; lia|constructor]|]. constructor; [|constructor].
      split; [cbn; lia|]. constructor. constructor; [|constructor]. split; [cbn; lia|].
      by constructor.
  - vm_compute. reflexivity.
  - rewrite app_nil_r. by split.
  - apply Nat.ltb_lt. vm_compute. reflexivity.
  - exists b, t, w. auto.
Defined.

(** C14: on any bytes at all [read] ends, with fuel for two turns more than there are
    bytes: with a value, and outside all structs again unless the error flag is set, or
    because it uses the length of a list whose header could not be read. *)
Theorem read_any_bytes_ends {T} `{TransportOk T} (t : T) (c : protocol) (l : bytes) (r : Z)
    (fuel : nat) (v : ReportItem.t) :
  represents t l r → (length l + 2 ≤ fuel)%nat →
  (∃ t' c' w l', ReportItem.read fuel v (t, c) = Done ((t', c'), w) ∧ represents t' l' r ∧
    (length l' ≤ length l)%nat ∧ (error_ c' = false → lastField_ c' = lastField_ c)) ∨
  ReportItem.read fuel v (t, c) = Fault UninitRead.
Proof.
  intros Ht Hf. destruct (ReportItemS.ReportItem_total (length l) fuel v Hf t c l r Ht)
    as [(t' & c' & w & l' & E & Ht' & Hl & Hk)|[_ E]]; [lia| |by right].
  left. exists t', c', w, l'. destruct Hk as [_ _ Hk]. auto.
Qed.
Lemma read_any_bytes_ends_witness :
  ∃ b, make_from [27; 10; 255; 255; 255] OBSERVE = Done b ∧
  ((∃ t' c' w l', ReportItem.read 7 ReportItem.default (b, make_protocol 0 0) = Done ((t', c'), w) ∧
     holds t' l' ∧ (length l' ≤ 5)%nat ∧ (error_ c' = false → lastField_ c' = [])) ∨
   ReportItem.read 7 ReportItem.default (b, make_protocol 0 0) = Fault UninitRead).
Proof.
  destruct (make_from_holds [27; 10; 255; 255; 255] OBSERVE) as (b & Eb & Hb);
    [done|apply (bool_decide_unpack _); vm_compute; exact I|done|].
  exists b. split; [exact Eb|].
  destruct (read_any_bytes_ends b (make_protocol 0 0) [27; 10; 255; 255; 255] (room b) 7 ReportItem.default)
    as [(t' & c' & w & l' & E & [Ht' _] & Hl & Hk)|E]; [by split|cbn; lia| |by right].
  left. exists t', c', w, l'. auto.
Defined.

(** ** What holds of the reports *)

Lemma session_room lts : room_for (k_enc K (session_item lts)) ≤ 2000.
Proof. vm_compute. discriminate. Qed.
Lemma quit_room lts : room_for (k_enc K (quit_item lts)) ≤ 2000.
Proof. vm_compute. discriminate. Qed.

Lemma constant_item_ok r lts : r = SessionReport lts ∨ r = QuitReport lts → in_range 63 lts →
  k_valid K (item_of r) ∧ k_faithful K (item_of r) ∧ room_for (k_enc K (item_of r)) ≤ 2000.
Proof.
  intros [->| ->] Hl.
  - destruct (session_item_ok lts Hl). pose proof (session_room lts). auto.
  - destruct (quit_item_ok lts Hl). pose proof (quit_room lts). auto.
Qed.

(** C15: the session report and the quit report are sent whole behind a head that counts
    them, and the bytes behind the head are read back as the item that was filled in. *)
Theorem reports_read_back {S A} `{AsyncTCPSocketBase S A} (socket : S) (r : report) (lts cid now : Z) :
  r = SessionReport lts ∨ r = QuitReport lts → in_range 63 lts →
  let size := Z.of_nat (length (serialize r)) in
  0 < size ∧ size + kHeadSize < 2 ^ 16 ∧
  send_report serialize r cid now socket =
    snd (Send (report_head (size + kHeadSize) 3 0 0 (u32 (Z.quot now 1000)) 161891 cid ++ serialize r) socket) ∧
  ∃ item, parse_item (Datatypes.S (length (serialize r))) (serialize r) = Done item ∧
    ReportItem.eqb (item_of r) item = true.
Proof.
  intros Hr Hl. destruct (constant_item_ok r lts Hr Hl) as (Hv & Hf & Hroom).
  destruct (serialize_ok (item_of r) Hv) as (Es & Hb & _); [lia|].
  pose proof (length_enc_le _ (k_wf _ Hv)) as Hle. pose proof (payload_positive (item_of r)) as Hpos.
  assert (serialize r = payload_of (item_of r)) as E by (unfold serialize; by rewrite Es).
  rewrite E. cbv zeta. unfold kHeadSize. split; [lia|]. split; [lia|]. split.
  - unfold send_report. rewrite E. cbv zeta.
    rewrite (proj2 (Z.ltb_lt 0 _)) by lia. unfold kHeadSize. by rewrite u16_small by lia.
  - eexists. split; [apply parse_payload; [done|done|lia|lia]|]. by apply (read_equal K).
Qed.
Lemma reports_read_back_witness :
  ∃ item, parse_item (Datatypes.S (length (serialize (QuitReport 77)))) (serialize (QuitReport 77)) = Done item ∧
    ReportItem.eqb (quit_item 77) item = true.
Proof.
  destruct (reports_read_back (idle_socket 100) (QuitReport 77) 77 0 0) as (_ & _ & _ & item & E & Eq);
    [by right|split; lia|].
  exists item. split; [exact E|exact Eq].
Defined.

(** What the receiver has of a connect report. *)
Definition received_connect_item (lts : Z) (clientaddr : bytes) (egress : Z) : ReportItem.t :=
  ReportItem.__set_wrtcConnectProxyTurnWorker
    (WrtcConnectProxyTurnWorker.__set_userCount egress
    (WrtcConnectProxyTurnWorker.__set_clientAddr clientaddr
    (WrtcConnectProxyTurnWorker.__set_header (machine_header lts) WrtcConnectProxyTurnWorker.default)))
  (ReportItem.__set_uri ConnectProxyTurnWorker ReportItem.default).

Lemma field_equal {X} (schema : list (fspec X)) f v w :
  schema_eqb schema v w = true → In f schema → field_eqb (k_eqb (f_kind f)) (f_get f v) (f_get f w) = true.
Proof. unfold schema_eqb. rewrite forallb_forall. auto. Qed.

Lemma egress_missing v w :
  isset (WrtcConnectProxyTurnWorker.egress v) = true →
  isset (WrtcConnectProxyTurnWorker.egress w) = false →
  WrtcConnectProxyTurnWorker.eqb v w = false.
Proof.
  intros Hv Hw. apply not_true_is_false. rewrite WrtcConnectProxyTurnWorkerS.WrtcConnectProxyTurnWorker_eqb.
  intros Eq. apply (field_equal _ WrtcConnectProxyTurnWorkerS.fd_egress) in Eq; [|cbn; tauto].
  change (field_eqb Z.eqb (WrtcConnectProxyTurnWorker.egress v) (WrtcConnectProxyTurnWorker.egress w) = true) in Eq.
  unfold field_eqb, isset_eqb in Eq. by rewrite Hv, Hw in Eq.
Qed.

Lemma connect_differs v w :
  isset (ReportItem.wrtcConnectProxyTurnWorker v) = true →
  WrtcConnectProxyTurnWorker.eqb (val (ReportItem.wrtcConnectProxyTurnWorker v))
    (val (ReportItem.wrtcConnectProxyTurnWorker w)) = false →
  ReportItem.eqb v w = false.
Proof.
  intros Hv Hw. apply not_true_is_false. rewrite ReportItemS.ReportItem_eqb.
  intros Eq. apply (field_equal _ ReportItemS.fd_wrtcConnectProxyTurnWorker) in Eq; [|cbn; tauto].
  change (field_eqb WrtcConnectProxyTurnWorker.eqb (ReportItem.wrtcConnectProxyTurnWorker v)
    (ReportItem.wrtcConnectProxyTurnWorker w) = true) in Eq.
  unfold field_eqb, val_eqb in Eq. rewrite Hv, Hw in Eq. by destruct (isset_eqb _ _).
Qed.

Lemma connect_received lts usercount ingress egress clientaddr :
  k_upd K (k_enc K (connect_item lts clientaddr usercount ingress egress)) ReportItem.default =
  received_connect_item lts clientaddr egress.
Proof. vm_compute. reflexivity. Qed.

(** C33: the class of the connect report writes ingress and egress under the number of the
    user count: the receiver takes the egress rate for the user count and has no ingress
    or egress at all. *)
Theorem connect_report_garbled (lts usercount ingress egress : Z) (clientaddr : bytes) :
  in_range 63 lts → in_range 31 usercount → in_range 31 ingress → in_range 31 egress →
  bytes_ok clientaddr ∧ Z.of_nat (length clientaddr) < 2 ^ 30 →
  let payload := serialize (ConnectReport lts clientaddr usercount ingress egress) in
  parse_item (Datatypes.S (length payload)) payload = Done (received_connect_item lts clientaddr egress) ∧
  ReportItem.eqb (connect_item lts clientaddr usercount ingress egress)
    (received_connect_item lts clientaddr egress) = false.
Proof.
  intros Hl Hu Hi He Ha.
  pose proof (connect_item_ok lts usercount ingress egress clientaddr Hl Hu Hi He Ha) as Hv.
  pose proof (connect_item_room lts usercount ingress egress clientaddr Ha) as Hroom.
  destruct (serialize_ok _ Hv Hroom) as (Es & Hb & Hle).
  cbv zeta. unfold serialize. cbn [item_of]. rewrite Es.
  split; [|by apply connect_differs, egress_missing].
  rewrite (parse_payload _ _ Hv Hb Hle) by lia. by rewrite connect_received.
Qed.
Lemma connect_report_garbled_witness :
  let payload := serialize (ConnectReport 5 [49; 46; 50] 7 1000 2000) in
  parse_item (Datatypes.S (length payload)) payload = Done (received_connect_item 5 [49; 46; 50] 2000) ∧
  ReportItem.eqb (connect_item 5 [49; 46; 50] 7 1000 2000) (received_connect_item 5 [49; 46; 50] 2000) = false.
Proof.
  apply (connect_report_garbled 5 7 1000 2000 [49; 46; 50]); [split; lia|split; lia|split; lia|split; lia|].
  split; [repeat constructor; lia|cbn; lia].
Defined.


(** when the header of a list is missing, the number of elements is used although it
    was never written: every list member of the report items. *)
Theorem truncated_list_faults {T} `{TransportOk T} {A} (make : A)
    (read : A → CompactProtocol.M (T := T) A) (t : T) (r : Z) (c : protocol) :
  represents t [] r → read_list make read (t, c) = Fault UninitRead.
Proof.
  intros Ht.
  destruct (safe_readListBegin 0 t c [] r Ht) as (t' & c' & a & l' & n & E & _ & Hn & _ & Ha); [done|].
  unfold read_list. rewrite (bind_done _ _ _ _ _ E). destruct a as [h|]; [|done].
  cbn in Hn. assert (1 ≤ n)%nat by (by apply Ha). lia.
Qed.
Lemma truncated_list_faults_witness :
  ∃ b, make_from [] OBSERVE = Done b ∧
  read_list VosdkCounterItem.default (VosdkCounterItem.read 9) (b, make_protocol 0 0) = Fault UninitRead.
Proof.
  destruct (make_from_holds [] OBSERVE) as (b & Eb & Hb); [done|constructor|done|].
  exists b. split; [exact Eb|].
  apply (truncated_list_faults VosdkCounterItem.default (VosdkCounterItem.read 9) b (room b)). by split.
Defined.

(** both ways in which [readVarint64] gets its bytes, from the buffer that the
    transport lends and one by one, read the number that stands there in base 128, of at
    most ten digits, or set the error flag if there is none. *)
Theorem readVarint64_is_reference {T} `{TransportOk T} (c : protocol) (t : T) (l : bytes) (r : Z) :
  error_ c = false → represents t l r →
  match varint_parse 10 l with
  | Some (v, rest) => ∃ t', readVarint64 (t, c) = Done ((t', c), Some (i64 v)) ∧ represents t' rest r
  | None => ∃ t' l', readVarint64 (t, c) = Done ((t', set_error c), None) ∧
      represents t' l' r ∧ (length l' ≤ length l)%nat
  end.
Proof. apply readVarint64_spec. Qed.
Lemma readVarint64_is_reference_witness :
  ∃ b t', make_from [172; 2; 9] OBSERVE = Done b ∧
  readVarint64 (b, make_protocol 0 0) = Done ((t', make_protocol 0 0), Some 300) ∧ holds t' [9].
Proof.
  destruct (make_from_holds [172; 2; 9] OBSERVE) as (b & Eb & Hb); [done|repeat constructor; lia|done|].
  destruct (readVarint64_is_reference (make_protocol 0 0) b [172; 2; 9] (room b) eq_refl) as (t' & E & Ht & _);
    [by split|].
  exists b, t'. split; [exact Eb|]. split; [exact E|exact Ht].
Defined.
