(* ===== verification/Timer.v ===== *)
(** * Timer: base/timer.h and timer.cpp

    [RepeatedTimer] owns an event of libevent and the callable that the event runs;
    it can be moved, cleared and destroyed.  A [OneShotTimer] is created on the heap
    and deletes itself when it has run.

    Timer objects and callables are numbered; [timers] and [callbacks] hold the ones
    that are alive.  A callable is the list of the operations it performs on timers:
    it may touch the timer that runs it.  The event base is libevent's: a class with
    the effect of its functions on the events that exist ([EventBaseOk]). *)

From stdpp Require Import gmap.
From S2P Require Import Prelude.

(** ** The event base *)

(** What an event calls: [RepeatedTimer::TimerCallback] with the callable,
    [OneShotTimer::TimerCallback] with the timer. *)
Inductive handler := Repeated (callback : nat) | OneShot (timer : nat).

(** [timeval] *)
Record timeval := mkTimeval { tv_sec : Z; tv_usec : Z }.

Class EventBase (B : Type) := {
  event_new : handler → B → option (nat * B);      (* None: a null pointer *)
  evtimer_add : nat → timeval → B → B;
  evtimer_del : nat → B → B;
  event_free : nat → B → B;
}.

(** The events that exist, and when they are due: not at all, or every so often. *)
Class EventBaseOk (B : Type) `{EventBase B} := {
  events : B → gmap nat (handler * option timeval);
  event_new_ok h b e b' : event_new h b = Some (e, b') →
    events b !! e = None ∧ events b' = <[e := (h, None)]> (events b);
  evtimer_add_ok e t b h o : events b !! e = Some (h, o) →
    events (evtimer_add e t b) = <[e := (h, Some t)]> (events b);
  evtimer_del_ok e b h o : events b !! e = Some (h, o) →
    events (evtimer_del e b) = <[e := (h, None)]> (events b);
  event_free_ok e b h o : events b !! e = Some (h, o) →
    events (event_free e b) = delete e (events b);
}.

Section timer.
Context {B : Type} `{EventBaseOk B}.

(** ** State *)

(** The operations; timers are named by number.  [Make] and [MakeChrono] are the
    constructors with [uint32_t] and with [std::chrono::milliseconds], [MoveMake] is
    the move constructor, [MoveAssign] the assignment. *)
Inductive op :=
  | Default (x : nat)
  | Make (x : nat) (interval_ms : Z) (f : list op)
  | MakeChrono (x : nat) (count : Z) (f : list op)
  | MoveMake (x rhs : nat)
  | MoveAssign (x rhs : nat)
  | Clear (x : nat)
  | Destroy (x : nat)
  | MakeOneShotTimer (x : nat) (after_ms : Z) (f : list op).

(** The members of both classes. *)
Record Timer := mkTimer {
  timer_ : option nat;      (* the event *)
  callback_ : option nat;   (* the callable *)
  one_shot : bool;          (* which of the classes *)
}.

Record World := mkWorld {
  base : B;
  timers : gmap nat Timer;
  callbacks : gmap nat (list op);
  next : nat;               (* the next callable's number *)
  runs : list nat;          (* the callables of one-shot timers that were run *)
}.

Definition set_base (b : B) (w : World) : World :=
  mkWorld b (timers w) (callbacks w) (next w) (runs w).
Definition set_timers (m : gmap nat Timer) (w : World) : World :=
  mkWorld (base w) m (callbacks w) (next w) (runs w).
Definition set_callbacks (m : gmap nat (list op)) (n : nat) (w : World) : World :=
  mkWorld (base w) (timers w) m n (runs w).
Definition log (cb : nat) (w : World) : World :=
  mkWorld (base w) (timers w) (callbacks w) (next w) (runs w ++ [cb]).

Definition the_timer (x : nat) (w : World) : result Timer :=
  match timers w !! x with Some t => Ok t | None => Err UseAfterFree end.
Definition put_timer (x : nat) (t : Timer) (w : World) : World :=
  set_timers (<[x := t]> (timers w)) w.

(** A function of libevent on an event that exists. *)
Definition on_event (e : nat) (f : B → B) (w : World) : result World :=
  match events (base w) !! e with
  | Some _ => Ok (set_base (f (base w)) w)
  | None => Err UseAfterFree
  end.

(** ** Operations *)

(** [t.tv_sec] and [t.tv_usec] of an interval. *)
Definition timeval_of (interval_ms : Z) : timeval :=
  mkTimeval (interval_ms / 1000) (interval_ms mod 1000 * 1000).

(** [InternalMakeImpl]: a new callable. *)
Definition make_impl (f : list op) (w : World) : nat * World :=
  (next w, set_callbacks (<[next w := f]> (callbacks w)) (S (next w)) w).

(** [event_new] and [evtimer_add]; a null event is dereferenced. *)
Definition new_event (h : handler) (interval_ms : Z) (w : World) : result (nat * World) :=
  match event_new h (base w) with
  | None => Err NullDeref
  | Some (e, b) =>
      w ← on_event e (evtimer_add e (timeval_of interval_ms)) (set_base b w);
      Ok (e, w)
  end.

(** [RepeatedTimer::CreateTimer] *)
Definition CreateTimer (x cb : nat) (interval_ms : Z) (w : World) : result World :=
  '(e, w) ← new_event (Repeated cb) interval_ms w;
  Ok (put_timer x (mkTimer (Some e) (Some cb) false) w).

(** [RepeatedTimer::RepeatedTimer(loop, interval_ms, f)] *)
Definition RepeatedTimer (x : nat) (interval_ms : Z) (f : list op) (w : World) : result World :=
  let '(cb, w) := make_impl f w in
  CreateTimer x cb interval_ms w.

(** The interval of [std::chrono::milliseconds]. *)
Definition chrono_ms (count : Z) : Z := Z.max 1 (u32 count).

(** Deleting an event: [evtimer_del] and [event_free]. *)
Definition delete_event (e : option nat) (w : World) : result World :=
  match e with
  | Some e =>
      w ← on_event e (evtimer_del e) w;
      on_event e (event_free e) w
  | None => Ok w
  end.

Definition clear (x : nat) (w : World) : result World :=
  t ← the_timer x w;
  w ← delete_event (timer_ t) w;
  Ok (put_timer x (mkTimer None (callback_ t) (one_shot t)) w).

(** The end of a [unique_ptr] to a callable. *)
Definition delete_callback (cb : option nat) (w : World) : World :=
  match cb with
  | Some cb => set_callbacks (delete cb (callbacks w)) (next w) w
  | None => w
  end.

(** [~RepeatedTimer], and [~OneShotTimer], whose members go in reverse order. *)
Definition destroy (x : nat) (w : World) : result World :=
  t ← the_timer x w;
  if one_shot t then
    w ← delete_event (timer_ t) (delete_callback (callback_ t) w);
    Ok (set_timers (delete x (timers w)) w)
  else
    w ← clear x w;
    Ok (set_timers (delete x (timers w)) (delete_callback (callback_ t) w)).

(** [OneShotTimer::OneShotTimer] *)
Definition OneShotTimer (x : nat) (after_ms : Z) (f : list op) (w : World) : result World :=
  let '(cb, w) := make_impl f w in
  '(e, w) ← new_event (OneShot x) after_ms w;
  Ok (put_timer x (mkTimer (Some e) (Some cb) true) w).

(** The two swaps of the move operations. *)
Definition swap_timers (x rhs : nat) (w : World) : result World :=
  t ← the_timer x w;
  r ← the_timer rhs w;
  Ok (put_timer rhs (mkTimer (timer_ t) (callback_ t) (one_shot r))
       (put_timer x (mkTimer (timer_ r) (callback_ r) (one_shot t)) w)).

Definition exec (o : op) (w : World) : result World :=
  match o with
  | Default x => Ok (put_timer x (mkTimer None None false) w)
  | Make x ms f => RepeatedTimer x ms f w
  | MakeChrono x count f => RepeatedTimer x (chrono_ms count) f w
  | MoveMake x rhs => swap_timers x rhs (put_timer x (mkTimer None None false) w)
  | MoveAssign x rhs => swap_timers x rhs w
  | Clear x => clear x w
  | Destroy x => destroy x w
  | MakeOneShotTimer x ms f => OneShotTimer x ms f w
  end.

(** [OnTimer]: the callable runs, and must be alive to go on. *)
Fixpoint call (cb : nat) (f : list op) (w : World) : result World :=
  match f with
  | [] => Ok w
  | o :: f =>
      match callbacks w !! cb with
      | Some _ => w ← exec o w; call cb f w
      | None => Err UseAfterFree
      end
  end.
Definition OnTimer (cb : nat) (w : World) : result World :=
  match callbacks w !! cb with
  | Some f => call cb f w
  | None => Err UseAfterFree
  end.

(** The event loop runs an event that is due. *)
Definition TimerCallback (h : handler) (w : World) : result World :=
  match h with
  | Repeated cb => OnTimer cb w
  | OneShot p =>
      t ← the_timer p w;
      match callback_ t with
      | None => Err NullDeref
      | Some cb =>
          w ← OnTimer cb w;
          w ← destroy p w;
          Ok (log cb w)
      end
  end.

Inductive input := Call (o : op) | Fire (e : nat).

Definition step (i : input) (w : World) : result World :=
  match i with
  | Call o => exec o w
  | Fire e =>
      match events (base w) !! e with
      | Some (h, Some _) => TimerCallback h w
      | _ => Ok w
      end
  end.

Fixpoint run (l : list input) (w : World) : result World :=
  match l with
  | [] => Ok w
  | i :: l => w ← step i w; run l w
  end.

Definition start (b : B) : World := mkWorld b ∅ ∅ 0 [].

(** ** What the callers keep to *)

(** A timer that the program can name: a live [RepeatedTimer]. *)
Definition is_repeated (x : nat) (w : World) : Prop :=
  ∃ t, timers w !! x = Some t ∧ one_shot t = false.

(** Objects are constructed in unused memory, the others exist. *)
Definition enabled (o : op) (w : World) : Prop :=
  match o with
  | Default x | Make x _ _ | MakeChrono x _ _ | MakeOneShotTimer x _ _ => timers w !! x = None
  | MoveMake x rhs => timers w !! x = None ∧ is_repeated rhs w
  | MoveAssign x rhs => is_repeated x w ∧ is_repeated rhs w
  | Clear x | Destroy x => is_repeated x w
  end.

(** The operation does not destroy the callable [cb]. *)
Definition keeps_callback (cb : nat) (o : op) (w : World) : Prop :=
  match o with
  | Destroy x => ∀ t, timers w !! x = Some t → callback_ t ≠ Some cb
  | _ => True
  end.

(** A callable keeps to the rules, and does not destroy itself before it is done. *)
Fixpoint enabled_call (cb : nat) (f : list op) (w : World) : Prop :=
  match f with
  | [] => True
  | o :: f =>
      enabled o w ∧ (f = [] ∨ keeps_callback cb o w) ∧
      ∀ w', exec o w = Ok w' → enabled_call cb f w'
  end.

Definition enabled_input (i : input) (w : World) : Prop :=
  match i with
  | Call o => enabled o w
  | Fire e =>
      match events (base w) !! e with
      | Some (Repeated cb, Some _) => ∀ f, callbacks w !! cb = Some f → enabled_call cb f w
      | Some (OneShot p, Some _) => ∀ t cb f, timers w !! p = Some t → callback_ t = Some cb →
          callbacks w !! cb = Some f → enabled_call cb f w
      | _ => False
      end
  end.

Fixpoint enabled_run (l : list input) (w : World) : Prop :=
  match l with
  | [] => True
  | i :: l => enabled_input i w ∧ ∀ w', step i w = Ok w' → enabled_run l w'
  end.

(** ** The invariant *)

Definition handler_of (x : nat) (t : Timer) (cb : nat) : handler :=
  if one_shot t then OneShot x else Repeated cb.

(** Every callable and every event belongs to one timer, and what an event calls is
    there. *)
Record inv (w : World) : Prop := mkInv {
  inv_one_owner x y t u cb : timers w !! x = Some t → timers w !! y = Some u →
    callback_ t = Some cb → callback_ u = Some cb → x = y;
  inv_callback x t cb : timers w !! x = Some t → callback_ t = Some cb → is_Some (callbacks w !! cb);
  inv_owned cb f : callbacks w !! cb = Some f → ∃ x t, timers w !! x = Some t ∧ callback_ t = Some cb;
  inv_timer x t e : timers w !! x = Some t → timer_ t = Some e →
    ∃ cb iv, callback_ t = Some cb ∧ events (base w) !! e = Some (handler_of x t cb, Some iv);
  inv_event e ho : events (base w) !! e = Some ho → ∃ x t, timers w !! x = Some t ∧ timer_ t = Some e;
  inv_one_shot x t : timers w !! x = Some t → one_shot t = true →
    ∃ e cb, timer_ t = Some e ∧ callback_ t = Some cb;
  inv_next cb f : callbacks w !! cb = Some f → (cb < next w)%nat;
  inv_runs : NoDup (runs w) ∧ ∀ cb, cb ∈ runs w → (cb < next w)%nat ∧ callbacks w !! cb = None;
}.

Lemma the_timer_ok x t w : timers w !! x = Some t → the_timer x w = Ok t.
Proof. unfold the_timer. by intros ->. Qed.

Lemma on_event_ok e f w h o : events (base w) !! e = Some (h, o) →
  on_event e f w = Ok (set_base (f (base w)) w).
Proof. unfold on_event. by intros ->. Qed.

(** Two timers do not share an event. *)
Lemma inv_event_owner w x y t u e : inv w → timers w !! x = Some t → timers w !! y = Some u →
  timer_ t = Some e → timer_ u = Some e → x = y.
Proof.
  intros Hi Hx Hy Ht Hu. destruct (inv_timer w Hi x t e Hx Ht) as (cb & iv & Hc & He).
  destruct (inv_timer w Hi y u e Hy Hu) as (cb' & iv' & Hc' & He'). rewrite He in He'.
  unfold handler_of in He'. destruct (one_shot t), (one_shot u); try done.
  - by injection He' as ->.
  - injection He' as -> _. by eapply inv_one_owner.
Qed.

Lemma fresh_callback w x t : inv w → timers w !! x = Some t → callback_ t ≠ Some (next w).
Proof.
  intros Hi Hx Hc. destruct (inv_callback w Hi x t _ Hx Hc) as [f Hf].
  apply (inv_next w Hi) in Hf. lia.
Qed.

(** A timer object with a new event and a new callable. *)
Lemma inv_new w b x e f os iv :
  inv w → timers w !! x = None → events (base w) !! e = None →
  events b = <[e := (if os : bool then OneShot x else Repeated (next w), Some iv)]> (events (base w)) →
  inv (put_timer x (mkTimer (Some e) (Some (next w)) os) (set_base b (snd (make_impl f w)))).
Proof.
  intros Hi Hx He Hb.
  assert (∀ y t, timers w !! y = Some t → timer_ t ≠ Some e) as Hfresh.
  { intros y t Hy Ht. destruct (inv_timer w Hi y t e Hy Ht) as (? & ? & _ & E). congruence. }
  assert (callbacks w !! next w = None) as Hn.
  { destruct (callbacks w !! next w) as [g|] eqn:E; [|done]. apply (inv_next w Hi) in E. lia. }
  split; cbn.
  - intros y z t u cb Hy Hz Ht Hu. rewrite lookup_insert_Some in Hy, Hz.
    destruct Hy as [[<- <-]|[? Hy]], Hz as [[<- <-]|[? Hz]]; cbn in *; simplify_eq; [done| | |].
    + by destruct (fresh_callback w z u Hi Hz).
    + by destruct (fresh_callback w y t Hi Hy).
    + by eapply (inv_one_owner w Hi).
  - intros y t cb Hy Ht. rewrite lookup_insert_Some in Hy. destruct Hy as [[<- <-]|[? Hy]]; cbn in *.
    + simplify_eq. by rewrite lookup_insert_eq.
    + rewrite lookup_insert_is_Some. destruct (inv_callback w Hi y t cb Hy Ht). destruct (decide (next w = cb)); [by left|right; split; done].
  - intros cb g Hcb. rewrite lookup_insert_Some in Hcb. destruct Hcb as [[<- <-]|[Hne Hcb]].
    + exists x. eexists. by rewrite lookup_insert_eq.
    + destruct (inv_owned w Hi cb g Hcb) as (y & t & Hy & Ht). exists y, t.
      by rewrite lookup_insert_ne by congruence.
  - intros y t e' Hy Ht. rewrite lookup_insert_Some in Hy. rewrite Hb.
    destruct Hy as [[<- <-]|[? Hy]]; cbn in *.
    + simplify_eq. exists (next w), iv. by rewrite lookup_insert_eq.
    + destruct (inv_timer w Hi y t e' Hy Ht) as (cb & iv' & Hc & E). exists cb, iv'.
      rewrite lookup_insert_ne; [done|]. intros <-. by destruct (Hfresh y t Hy).
  - intros e' ho E. rewrite Hb, lookup_insert_Some in E. destruct E as [[<- _]|[Hne E]].
    + exists x. eexists. by rewrite lookup_insert_eq.
    + destruct (inv_event w Hi e' ho E) as (y & t & Hy & Ht). exists y, t.
      by rewrite lookup_insert_ne by congruence.
  - intros y t Hy Ho. rewrite lookup_insert_Some in Hy. destruct Hy as [[<- <-]|[? Hy]]; [by eauto|].
    by apply (inv_one_shot w Hi y).
  - intros cb g Hcb. rewrite lookup_insert_Some in Hcb. destruct Hcb as [[<- _]|[_ Hcb]]; [lia|].
    apply (inv_next w Hi) in Hcb. lia.
  - destruct (inv_runs w Hi) as [Hd Hr]. split; [done|]. intros cb Hin. destruct (Hr cb Hin) as [? ?].
    split; [lia|]. rewrite lookup_insert_ne by lia. done.
Qed.

(** The event of a timer goes, and perhaps the timer and its callable. *)
Lemma delete_event_ok w x t : inv w → timers w !! x = Some t → ∀ cs n,
  ∃ b, delete_event (timer_ t) (set_callbacks cs n w) = Ok (set_base b (set_callbacks cs n w)) ∧
    (∀ e', timer_ t ≠ Some e' → events b !! e' = events (base w) !! e') ∧
    (∀ e', timer_ t = Some e' → events b !! e' = None).
Proof.
  intros Hi Hx cs n. destruct (timer_ t) as [e|] eqn:Et; cbn [delete_event];
    [|exists (base w); repeat split; try done; by destruct w].
  destruct (inv_timer w Hi x t e Hx Et) as (cb & iv & _ & He).
  pose proof (evtimer_del_ok e (base w) _ _ He) as Hd.
  assert (events (evtimer_del e (base w)) !! e = Some (handler_of x t cb, None)) as He'.
  { by rewrite Hd, lookup_insert_eq. }
  unfold on_event. cbn. rewrite He. cbn. rewrite He'. eexists. split; [reflexivity|].
  rewrite (event_free_ok _ _ _ _ He'), Hd. split.
  - intros e' Hne. rewrite lookup_delete_ne, lookup_insert_ne by congruence. done.
  - intros e' [= <-]. by rewrite lookup_delete_eq.
Qed.

Lemma inv_clear w x t b : inv w → timers w !! x = Some t → one_shot t = false →
  (∀ e', timer_ t ≠ Some e' → events b !! e' = events (base w) !! e') →
  (∀ e', timer_ t = Some e' → events b !! e' = None) →
  inv (put_timer x (mkTimer None (callback_ t) false) (set_base b w)).
Proof.
  intros Hi Hx Ho Hother Hgone.
  assert (∀ y u e, timers w !! y = Some u → timer_ u = Some e → x ≠ y → timer_ t ≠ Some e) as Hne.
  { intros y u e Hy Hu Hxy Ht. by destruct Hxy; eapply inv_event_owner. }
  split; cbn.
  - intros y z u v cb Hy Hz Hu Hv. rewrite lookup_insert_Some in Hy, Hz.
    destruct Hy as [[<- <-]|[? Hy]], Hz as [[<- <-]|[? Hz]]; cbn in *; [done| | |];
      by eapply (inv_one_owner w Hi).
  - intros y u cb Hy Hu. rewrite lookup_insert_Some in Hy.
    destruct Hy as [[<- <-]|[? Hy]]; by eapply (inv_callback w Hi).
  - intros cb g Hcb. destruct (inv_owned w Hi cb g Hcb) as (y & u & Hy & Hu).
    destruct (decide (x = y)) as [<-|]; [|exists y, u; by rewrite lookup_insert_ne].
    exists x. eexists. rewrite lookup_insert_eq. split; [done|]. cbn. congruence.
  - intros y u e Hy Hu. rewrite lookup_insert_Some in Hy. destruct Hy as [[<- <-]|[Hxy Hy]]; [done|].
    rewrite Hother by (by eapply Hne). by apply (inv_timer w Hi).
  - intros e ho He. destruct (decide (timer_ t = Some e)) as [Ht|Ht]; [by rewrite Hgone in He|].
    rewrite Hother in He by done. destruct (inv_event w Hi e ho He) as (y & u & Hy & Hu).
    exists y, u. rewrite lookup_insert_ne by congruence. done.
  - intros y u Hy Hu. rewrite lookup_insert_Some in Hy. destruct Hy as [[<- <-]|[Hxy Hy]]; [done|].
    by apply (inv_one_shot w Hi y).
  - apply (inv_next w Hi).
  - apply (inv_runs w Hi).
Qed.

Lemma inv_destroyed w x t b : inv w → timers w !! x = Some t →
  (∀ e', timer_ t ≠ Some e' → events b !! e' = events (base w) !! e') →
  (∀ e', timer_ t = Some e' → events b !! e' = None) →
  inv (set_timers (delete x (timers w)) (set_base b (delete_callback (callback_ t) w))).
Proof.
  intros Hi Hx Hother Hgone.
  assert (∀ y u e, timers w !! y = Some u → timer_ u = Some e → x ≠ y → timer_ t ≠ Some e) as Hne.
  { intros y u e Hy Hu Hxy Ht. by destruct Hxy; eapply inv_event_owner. }
  assert (∀ cb, callbacks (delete_callback (callback_ t) w) !! cb =
    if decide (callback_ t = Some cb) then None else callbacks w !! cb) as Hcbs.
  { intros cb. destruct (callback_ t) as [c|]; cbn; [|done]. destruct (decide (Some c = Some cb)) as [E|E].
    - injection E as ->. by rewrite lookup_delete_eq.
    - rewrite lookup_delete_ne by congruence. done. }
  assert (next (delete_callback (callback_ t) w) = next w) as Hn by (by destruct (callback_ t)).
  assert (runs (delete_callback (callback_ t) w) = runs w) as Hr by (by destruct (callback_ t)).
  split; cbn.
  - intros y z u v cb Hy Hz. apply lookup_delete_Some in Hy as [_ Hy], Hz as [_ Hz].
    by apply (inv_one_owner w Hi).
  - intros y u cb [Hxy Hy]%lookup_delete_Some Hu. rewrite Hcbs. rewrite decide_False; [by eapply (inv_callback w Hi)|].
    intros Ht. by destruct Hxy; eapply (inv_one_owner w Hi).
  - intros cb g Hcb. rewrite Hcbs in Hcb. case_decide as Hne'; [done|].
    destruct (inv_owned w Hi cb g Hcb) as (y & u & Hy & Hu). exists y, u.
    split; [|done]. apply lookup_delete_Some. split; [congruence|done].
  - intros y u e [Hxy Hy]%lookup_delete_Some Hu. rewrite Hother by (by eapply Hne). by apply (inv_timer w Hi).
  - intros e ho He. destruct (decide (timer_ t = Some e)) as [Ht|Ht]; [by rewrite Hgone in He|].
    rewrite Hother in He by done. destruct (inv_event w Hi e ho He) as (y & u & Hy & Hu).
    exists y, u. split; [|done]. apply lookup_delete_Some. split; [congruence|done].
  - intros y u [Hxy Hy]%lookup_delete_Some. by apply (inv_one_shot w Hi y).
  - intros cb g Hcb. rewrite Hcbs in Hcb. case_decide; [done|]. rewrite Hn. by eapply (inv_next w Hi).
  - rewrite Hr, Hn. destruct (inv_runs w Hi) as [Hd Hin]. split; [done|]. intros cb Hcb.
    destruct (Hin cb Hcb). rewrite Hcbs. by case_decide.
Qed.

Lemma inv_default w x : inv w → timers w !! x = None → inv (put_timer x (mkTimer None None false) w).
Proof.
  intros Hi Hx. split; cbn.
  - intros y z u v cb Hy Hz Hu Hv. rewrite lookup_insert_Some in Hy, Hz.
    destruct Hy as [[<- <-]|[? Hy]], Hz as [[<- <-]|[? Hz]]; try done. by eapply (inv_one_owner w Hi).
  - intros y u cb Hy Hu. rewrite lookup_insert_Some in Hy.
    destruct Hy as [[<- <-]|[? Hy]]; [done|by eapply (inv_callback w Hi)].
  - intros cb g Hcb. destruct (inv_owned w Hi cb g Hcb) as (y & u & Hy & Hu).
    exists y, u. rewrite lookup_insert_ne by congruence. done.
  - intros y u e Hy Hu. rewrite lookup_insert_Some in Hy.
    destruct Hy as [[<- <-]|[? Hy]]; [done|by apply (inv_timer w Hi)].
  - intros e ho He. destruct (inv_event w Hi e ho He) as (y & u & Hy & Hu).
    exists y, u. rewrite lookup_insert_ne by congruence. done.
  - intros y u Hy Hu. rewrite lookup_insert_Some in Hy.
    destruct Hy as [[<- <-]|[? Hy]]; [done|by apply (inv_one_shot w Hi y)].
  - apply (inv_next w Hi).
  - apply (inv_runs w Hi).
Qed.

(** Timers that change places. *)
Lemma inv_renamed w m (s : nat → nat) : inv w → (∀ y, s (s y) = y) →
  (∀ y, m !! y = timers w !! s y) →
  (∀ y u, s y ≠ y → m !! y = Some u → one_shot u = false) →
  inv (set_timers m w).
Proof.
  intros Hi Hs Hm Ho.
  assert (∀ y u, timers w !! y = Some u → m !! s y = Some u) as Hm' by (intros y u Hy; by rewrite Hm, Hs).
  split; cbn.
  - intros y z u v cb Hy Hz Hu Hv. rewrite Hm in Hy, Hz.
    rewrite <- (Hs y), <- (Hs z). f_equal. by eapply (inv_one_owner w Hi).
  - intros y u cb Hy Hu. rewrite Hm in Hy. by eapply (inv_callback w Hi).
  - intros cb g Hcb. destruct (inv_owned w Hi cb g Hcb) as (y & u & Hy & Hu). eauto.
  - intros y u e Hy Hu. pose proof (Ho y u) as Hone. rewrite Hm in Hy.
    destruct (inv_timer w Hi _ u e Hy Hu) as (cb & iv & Hc & He).
    exists cb, iv. split; [done|]. unfold handler_of in *.
    destruct (decide (s y = y)) as [E|E]; [by rewrite E in He|]. by rewrite Hone in * by (by rewrite ?Hm).
  - intros e ho He. destruct (inv_event w Hi e ho He) as (y & u & Hy & Hu). eauto.
  - intros y u Hy Hu. rewrite Hm in Hy. by apply (inv_one_shot w Hi (s y)).
  - apply (inv_next w Hi).
  - apply (inv_runs w Hi).
Qed.

Lemma timer_eta t : mkTimer (timer_ t) (callback_ t) (one_shot t) = t.
Proof. by destruct t. Qed.

Lemma swap_timers_ok w x rhs : inv w → is_repeated x w → is_repeated rhs w →
  ∃ m, swap_timers x rhs w = Ok (set_timers m w) ∧ inv (set_timers m w) ∧
    (∀ y, y ≠ x → y ≠ rhs → m !! y = timers w !! y).
Proof.
  intros Hi (t & Hx & Ht) (r & Hr & Hor). unfold swap_timers.
  rewrite (the_timer_ok x t w Hx). cbn. rewrite (the_timer_ok rhs r w Hr). cbn.
  eexists. split; [reflexivity|].
  rewrite Ht, Hor. rewrite <- Ht at 1. rewrite timer_eta. rewrite <- Hor at 1. rewrite timer_eta.
  change (timers (put_timer x r w)) with (<[x := r]> (timers w)). split.
  - apply (inv_renamed w _ (λ y, if decide (y = rhs) then x else if decide (y = x) then rhs else y)).
    + done.
    + intros y. repeat case_decide; congruence.
    + intros y. destruct (decide (y = rhs)) as [->|Hr']; [by rewrite lookup_insert_eq|].
      rewrite lookup_insert_ne by congruence.
      destruct (decide (y = x)) as [->|Hx']; [by rewrite lookup_insert_eq|].
      by rewrite lookup_insert_ne by congruence.
    + intros y u Hne Hy. rewrite !lookup_insert_Some in Hy.
      destruct Hy as [[_ <-]|[H1 [[_ <-]|[H2 _]]]]; [done|done|].
      destruct Hne. by rewrite !decide_False by congruence.
  - intros y H1 H2. rewrite lookup_insert_ne by done. cbn. by rewrite lookup_insert_ne by done.
Qed.

(** ** What operations do *)

Lemma new_event_ok h ms w : is_Some (event_new h (base w)) →
  ∃ e b, new_event h ms w = Ok (e, set_base b w) ∧ events (base w) !! e = None ∧
    events b = <[e := (h, Some (timeval_of ms))]> (events (base w)).
Proof.
  intros [[e b] E]. destruct (event_new_ok h (base w) e b E) as [Hn Hb].
  unfold new_event. rewrite E.
  assert (events (base (set_base b w)) !! e = Some (h, None)) as He by (by cbn; rewrite Hb, lookup_insert_eq).
  rewrite (on_event_ok _ _ _ _ _ He). cbn. eexists _, _. split; [reflexivity|].
  split; [done|]. rewrite (evtimer_add_ok _ _ _ _ _ He). cbn. by rewrite Hb, insert_insert_eq.
Qed.

Section safe.
(** There is memory for events. *)
Context (Hnew : ∀ h b, is_Some (event_new h b)).

(** What an operation leaves alone: one-shot timers, and callables it does not destroy. *)
Record leaves (w w' : World) : Prop := mkLeaves {
  leaves_inv : inv w';
  leaves_runs : runs w' = runs w;
  leaves_next : (next w ≤ next w')%nat;
  leaves_one_shot x t : timers w !! x = Some t → one_shot t = true → timers w' !! x = Some t;
}.

Lemma leaves_new w b x e f (os : bool) iv :
  inv w → timers w !! x = None → events (base w) !! e = None →
  events b = <[e := (if os then OneShot x else Repeated (next w), Some iv)]> (events (base w)) →
  leaves w (put_timer x (mkTimer (Some e) (Some (next w)) os) (set_base b (snd (make_impl f w)))).
Proof.
  intros Hi Hx He Hb. split; [by eapply inv_new|done|cbn; lia|].
  intros y t Hy _. cbn. by rewrite lookup_insert_ne by congruence.
Qed.

Lemma repeated_ok w x ms f : inv w → timers w !! x = None →
  ∃ w', RepeatedTimer x ms f w = Ok w' ∧ leaves w w' ∧
    ∀ cb g, callbacks w !! cb = Some g → callbacks w' !! cb = Some g.
Proof.
  intros Hi Hx. unfold RepeatedTimer, CreateTimer. cbn [make_impl].
  destruct (new_event_ok (Repeated (next w)) ms (snd (make_impl f w)) (Hnew _ _)) as (e & b & E & He & Hb).
  cbn [make_impl snd] in E. rewrite E. cbn. eexists. split; [reflexivity|]. split.
  - by apply (leaves_new w b x e f false (timeval_of ms)).
  - intros cb g Hcb. cbn. rewrite lookup_insert_ne; [done|]. apply (inv_next w Hi) in Hcb. lia.
Qed.

Lemma one_shot_ok w x ms f : inv w → timers w !! x = None →
  ∃ w', OneShotTimer x ms f w = Ok w' ∧ leaves w w' ∧
    ∀ cb g, callbacks w !! cb = Some g → callbacks w' !! cb = Some g.
Proof.
  intros Hi Hx. unfold OneShotTimer. cbn [make_impl].
  destruct (new_event_ok (OneShot x) ms (snd (make_impl f w)) (Hnew _ _)) as (e & b & E & He & Hb).
  cbn [make_impl snd] in E. rewrite E. cbn. eexists. split; [reflexivity|]. split.
  - by apply (leaves_new w b x e f true (timeval_of ms)).
  - intros cb g Hcb. cbn. rewrite lookup_insert_ne; [done|]. apply (inv_next w Hi) in Hcb. lia.
Qed.

Lemma set_callbacks_same w : set_callbacks (callbacks w) (next w) w = w.
Proof. by destruct w. Qed.

Lemma clear_ok w x t : inv w → timers w !! x = Some t → one_shot t = false →
  ∃ b, clear x w = Ok (put_timer x (mkTimer None (callback_ t) false) (set_base b w)) ∧
    (∀ e', timer_ t ≠ Some e' → events b !! e' = events (base w) !! e') ∧
    (∀ e', timer_ t = Some e' → events b !! e' = None).
Proof.
  intros Hi Hx Ho. destruct (delete_event_ok w x t Hi Hx (callbacks w) (next w)) as (b & E & Hb).
  rewrite set_callbacks_same in E. exists b. split; [|done].
  unfold clear. rewrite (the_timer_ok x t w Hx). cbn. rewrite E. cbn. by rewrite Ho.
Qed.

Lemma destroy_ok w x t : inv w → timers w !! x = Some t →
  ∃ w', destroy x w = Ok w' ∧ inv w' ∧ runs w' = runs w ∧ next w' = next w ∧
    timers w' = delete x (timers w) ∧
    (∀ cb, callbacks w' !! cb = if decide (callback_ t = Some cb) then None else callbacks w !! cb) ∧
    ∀ e, timer_ t = Some e → events (base w') !! e = None.
Proof.
  intros Hi Hx. unfold destroy. rewrite (the_timer_ok x t w Hx). cbn.
  assert (∀ cb, callbacks (delete_callback (callback_ t) w) !! cb =
    if decide (callback_ t = Some cb) then None else callbacks w !! cb) as Hcbs.
  { intros cb. destruct (callback_ t) as [c|]; cbn; [|done]. destruct (decide (Some c = Some cb)) as [E|E].
    - injection E as ->. by rewrite lookup_delete_eq.
    - rewrite lookup_delete_ne by congruence. done. }
  destruct (one_shot t) eqn:Ho.
  - destruct (delete_event_ok w x t Hi Hx (callbacks (delete_callback (callback_ t) w)) (next w))
      as (b & E & Hother & Hgone).
    replace (set_callbacks (callbacks (delete_callback (callback_ t) w)) (next w) w)
      with (delete_callback (callback_ t) w) in E by (destruct (callback_ t); by destruct w).
    rewrite E. cbn. eexists. split; [reflexivity|].
    assert (timers (delete_callback (callback_ t) w) = timers w) as Et by (by destruct (callback_ t)).
    rewrite Et. split; [by apply (inv_destroyed w x t b)|].
    split; [by destruct (callback_ t)|]. split; [by destruct (callback_ t)|]. split; [done|].
    split; [exact Hcbs|exact Hgone].
  - destruct (clear_ok w x t Hi Hx Ho) as (b & E & Hother & Hgone). rewrite E. cbn.
    eexists. split; [reflexivity|].
    rewrite delete_insert_eq. pose proof (inv_destroyed w x t b Hi Hx Hother Hgone) as Hd.
    split; [by destruct (callback_ t)|]. split; [by destruct (callback_ t)|].
    split; [by destruct (callback_ t)|]. split; [by destruct (callback_ t)|].
    split; [intros cb; rewrite <- Hcbs; by destruct (callback_ t)|].
    intros e He. specialize (Hgone e He). by destruct (callback_ t).
Qed.

Lemma exec_ok o w : inv w → enabled o w →
  ∃ w', exec o w = Ok w' ∧ leaves w w' ∧
    ∀ cb g, keeps_callback cb o w → callbacks w !! cb = Some g → callbacks w' !! cb = Some g.
Proof.
  intros Hi He. destruct o as [x|x ms f|x count f|x rhs|x rhs|x|x|x ms f]; cbn [enabled exec] in *.
  - eexists. split; [reflexivity|]. split; [|done]. split; [by apply inv_default|done|done|].
    intros y t Hy _. cbn. by rewrite lookup_insert_ne by congruence.
  - destruct (repeated_ok w x ms f Hi He) as (w' & ? & ? & ?). eauto.
  - destruct (repeated_ok w x (chrono_ms count) f Hi He) as (w' & ? & ? & ?). eauto.
  - destruct He as [Hx (r & Hr & Ho)]. set (w1 := put_timer x (mkTimer None None false) w).
    assert (x ≠ rhs) by congruence.
    destruct (swap_timers_ok w1 x rhs) as (m & E & Hm & Hsame); [by apply inv_default| | |].
    { eexists. cbn. by rewrite lookup_insert_eq. }
    { exists r. cbn. by rewrite lookup_insert_ne. }
    exists (set_timers m w1). split; [done|]. split; [|done]. split; [done|done|done|].
    intros y t Hy Ht. cbn. rewrite Hsame; [|congruence|congruence]. cbn.
    by rewrite lookup_insert_ne by congruence.
  - destruct He as [Hx Hr]. destruct (swap_timers_ok w x rhs Hi Hx Hr) as (m & E & Hm & Hsame).
    exists (set_timers m w). split; [done|]. split; [|done]. split; [done|done|done|].
    intros y t Hy Ht. destruct Hx as (? & ? & ?), Hr as (? & ? & ?). cbn. rewrite Hsame; congruence.
  - destruct He as (t & Hx & Ho). destruct (clear_ok w x t Hi Hx Ho) as (b & E & Hother & Hgone).
    eexists. split; [exact E|]. split; [|done]. split; [by apply inv_clear|done|done|].
    intros y u Hy Hu. cbn. rewrite lookup_insert_ne; congruence.
  - destruct He as (t & Hx & Ho).
    destruct (destroy_ok w x t Hi Hx) as (w' & E & Hi' & Hr & Hn & Ht & Hc & _).
    exists w'. split; [done|]. split.
    + split; [done|done|lia|]. intros y u Hy Hu. rewrite Ht, lookup_delete_ne; congruence.
    + intros cb g Hk Hcb. rewrite Hc, decide_False; [done|]. by apply Hk.
  - destruct (one_shot_ok w x ms f Hi He) as (w' & ? & ? & ?). eauto.
Qed.

Lemma leaves_trans w1 w2 w3 : leaves w1 w2 → leaves w2 w3 → leaves w1 w3.
Proof. intros [] []. split; [done|congruence|lia|auto]. Qed.

Lemma call_ok cb f : ∀ w, inv w → is_Some (callbacks w !! cb) → enabled_call cb f w →
  ∃ w', call cb f w = Ok w' ∧ leaves w w'.
Proof.
  induction f as [|o f IH]; intros w Hi [g Hg] He; [exists w; split; [done|by split]|].
  destruct He as (Ho & Hk & Hrest). destruct (exec_ok o w Hi Ho) as (w1 & E & Hl & Hc).
  cbn [call]. rewrite Hg, E. cbn. destruct Hk as [->|Hk].
  - exists w1. by split.
  - destruct (IH w1) as (w2 & E2 & Hl2); [apply Hl|by eauto|by apply Hrest|].
    exists w2. split; [done|]. by eapply leaves_trans.
Qed.

Lemma inv_log w cb : inv w → (cb < next w)%nat → callbacks w !! cb = None → cb ∉ runs w → inv (log cb w).
Proof.
  intros [] Hn Hc Hr. split; try done. cbn. destruct inv_runs0 as [Hd Hin]. split.
  - apply list.NoDup_app. split; [done|]. split; [|apply list.NoDup_singleton].
    intros y Hy ->%list_elem_of_singleton. done.
  - intros y [Hy| ->%list_elem_of_singleton]%elem_of_app; [by apply Hin|done].
Qed.

(** A one-shot timer that fires: its callable runs, and then all of it is gone. *)
Lemma one_shot_fires w x t e cb f : inv w → timers w !! x = Some t → one_shot t = true →
  timer_ t = Some e → callback_ t = Some cb → callbacks w !! cb = Some f → enabled_call cb f w →
  ∃ w1 w', call cb f w = Ok w1 ∧ TimerCallback (OneShot x) w = Ok w' ∧ inv w' ∧
    timers w' = delete x (timers w1) ∧ callbacks w' !! cb = None ∧
    events (base w') !! e = None ∧ runs w' = runs w ++ [cb].
Proof.
  intros Hi Hx Ho Ht Hc Hf He. destruct (call_ok cb f w Hi) as (w1 & E1 & Hl); [by eauto|done|].
  pose proof (leaves_one_shot w w1 Hl x t Hx Ho) as Hx1.
  destruct (destroy_ok w1 x t) as (w' & E' & Hi' & Hr & Hn & Htm & Hcb & Hev); [apply Hl|done|].
  assert (callbacks w' !! cb = None) as Hgone by (by rewrite Hcb, decide_True).
  exists w1, (log cb w'). split; [done|]. split.
  { cbn [TimerCallback]. rewrite (the_timer_ok x t w Hx). cbn. rewrite Hc. unfold OnTimer.
    rewrite Hf, E1. cbn. by rewrite E'. }
  pose proof (inv_next w Hi cb f Hf). pose proof (leaves_next w w1 Hl). split.
  - apply inv_log; [done|lia|done|]. rewrite Hr, (leaves_runs w w1 Hl).
    intros Hin. destruct (inv_runs w Hi) as [_ Hruns]. destruct (Hruns cb Hin). congruence.
  - cbn. rewrite Hr, (leaves_runs w w1 Hl). repeat split; auto.
Qed.

Lemma timer_step_ok i w : inv w → enabled_input i w → ∃ w', step i w = Ok w' ∧ inv w'.
Proof.
  intros Hi He. destruct i as [o|e]; cbn [step enabled_input] in *.
  { destruct (exec_ok o w Hi He) as (w' & ? & [] & _). eauto. }
  destruct (events (base w) !! e) as [[h o]|] eqn:Ev; [|done].
  destruct (inv_event w Hi e _ Ev) as (x & t & Hx & Ht).
  destruct (inv_timer w Hi x t e Hx Ht) as (cb & iv' & Hc & Ev'). rewrite Ev in Ev'.
  injection Ev' as -> ->. destruct (inv_callback w Hi x t cb Hx Hc) as [f Hf].
  unfold handler_of in *. destruct (one_shot t) eqn:Ho.
  - specialize (He t cb f Hx Hc Hf). destruct (one_shot_fires w x t e cb f) as (w1 & w' & _ & E & Hi' & _); eauto.
  - specialize (He f Hf). destruct (call_ok cb f w Hi) as (w1 & E1 & Hl); [by eauto|done|].
    exists w1. cbn [TimerCallback]. unfold OnTimer. rewrite Hf. split; [done|apply Hl].
Qed.

Lemma timer_run_ok l : ∀ w, inv w → enabled_run l w → ∃ w', run l w = Ok w' ∧ inv w'.
Proof.
  induction l as [|i l IH]; intros w Hi He; [by exists w|]. destruct He as [Hin Hrest].
  destruct (timer_step_ok i w Hi Hin) as (w1 & E & Hi1). cbn [run]. rewrite E. cbn.
  apply IH; [done|by apply Hrest].
Qed.
End safe.

Lemma timer_start_inv b : events b = ∅ → inv (start b).
Proof.
  intros Hb. split; cbn; try done. 
  - intros e ho. by rewrite Hb, lookup_empty.
  - split; [constructor|]. intros cb Hcb. by apply not_elem_of_nil in Hcb.
Qed.
End timer.

(** ** What holds of timers *)

Section claims.
Context {B : Type} `{EventBaseOk B}.
Context (Hnew : ∀ h (b : B), is_Some (event_new h b)).


(** a one-shot timer that fires runs its callable, and then the timer, the callable
    and the event are gone: it cannot fire again. *)
Theorem one_shot_fires_once (l : list input) (b : B) (w : World) x t e cb f :
  events b = ∅ → enabled_run l (start b) → run l (start b) = Ok w →
  timers w !! x = Some t → one_shot t = true →
  timer_ t = Some e → callback_ t = Some cb → callbacks w !! cb = Some f → enabled_call cb f w →
  ∃ w1 w', call cb f w = Ok w1 ∧ step (Fire e) w = Ok w' ∧ timers w' = delete x (timers w1) ∧
    callbacks w' !! cb = None ∧ events (base w') !! e = None ∧ runs w' = runs w ++ [cb].
Proof.
  intros Hb Hen E Hx Ho Ht Hc Hf Hcall.
  destruct (timer_run_ok Hnew l (start b) (timer_start_inv b Hb) Hen) as (w0 & E0 & Hi).
  rewrite E in E0. injection E0 as <-.
  destruct (one_shot_fires Hnew w x t e cb f Hi Hx Ho Ht Hc Hf Hcall) as (w1 & w' & E1 & E' & _ & ?).
  exists w1, w'. split; [done|]. split; [|done]. cbn [step].
  destruct (inv_timer w Hi x t e Hx Ht) as (cb' & iv & Hc' & Ev). rewrite Ev.
  unfold handler_of. by rewrite Ho.
Qed.

(** a callable that destroys the timer that runs it, and is not done then, goes on in
    freed memory. *)
Theorem self_destroying_callable_faults (l : list input) (b : B) (w : World) x t e cb o f :
  events b = ∅ → enabled_run l (start b) → run l (start b) = Ok w →
  timers w !! x = Some t → one_shot t = false →
  timer_ t = Some e → callback_ t = Some cb → callbacks w !! cb = Some (Destroy x :: o :: f) →
  step (Fire e) w = Err UseAfterFree.
Proof.
  intros Hb Hen E Hx Ho Ht Hc Hf.
  destruct (timer_run_ok Hnew l (start b) (timer_start_inv b Hb) Hen) as (w0 & E0 & Hi).
  rewrite E in E0. injection E0 as <-.
  destruct (inv_timer w Hi x t e Hx Ht) as (cb' & iv & Hc' & Ev). rewrite Hc in Hc'. injection Hc' as <-.
  cbn [step]. rewrite Ev. unfold handler_of. rewrite Ho. cbn [TimerCallback]. unfold OnTimer.
  rewrite Hf. cbn [call]. rewrite Hf. cbn [exec].
  destruct (destroy_ok w x t Hi Hx) as (w' & E' & _ & _ & _ & _ & Hgone & _). rewrite E'. cbn.
  by rewrite Hgone, decide_True.
Qed.
End claims.

(** the interval of an event is the number of milliseconds to the microsecond; from
    [std::chrono::milliseconds] the number is taken modulo 2^32, so that an interval of
    49.7 days becomes one of a millisecond. *)
Theorem intervals_are_exact (interval_ms count : Z) :
  0 ≤ interval_ms < 2 ^ 32 →
  let t := timeval_of interval_ms in
  tv_sec t * 1000000 + tv_usec t = 1000 * interval_ms ∧ 0 ≤ tv_usec t < 1000000 ∧
  (1 ≤ count < 2 ^ 32 → chrono_ms count = count) ∧
  chrono_ms (2 ^ 32) = 1 ∧ chrono_ms (2 ^ 32 + count mod 2 ^ 32) = Z.max 1 (count mod 2 ^ 32).
Proof.
  intros Hms. cbn. unfold chrono_ms.
  pose proof (Z.div_mod interval_ms 1000). pose proof (Z.mod_pos_bound interval_ms 1000).
  split; [lia|]. split; [lia|]. split; [intros ?; rewrite u32_small; lia|]. split; [done|].
  f_equal. unfold u32. rewrite Z.add_mod_idemp_r by lia.
  replace (2 ^ 32 + count) with (count + 1 * 2 ^ 32) by lia. by apply Z.mod_add.
Qed.
Lemma intervals_are_exact_witness :
  tv_sec (timeval_of 2500) * 1000000 + tv_usec (timeval_of 2500) = 2500000 ∧ chrono_ms (2 ^ 32 + 7) = 7.
Proof.
  destruct (intervals_are_exact 2500 7) as (H1 & _ & _ & _ & H2); [lia|]. split; [exact H1|exact H2].
Defined.

(** *** An event base *)

Record events_base := mkBase { existing : gmap nat (handler * option timeval) }.

#[export] Instance events_base_EventBase : EventBase events_base := {|
  event_new h b :=
    let e := fresh (dom (existing b)) in Some (e, mkBase (<[e := (h, None)]> (existing b)));
  evtimer_add e t b := mkBase (alter (λ p, (fst p, Some t)) e (existing b));
  evtimer_del e b := mkBase (alter (λ p, (fst p, None)) e (existing b));
  event_free e b := mkBase (delete e (existing b));
|}.

Lemma alter_existing {A} (f : A → A) e (m : gmap nat A) x : m !! e = Some x → alter f e m = <[e := f x]> m.
Proof.
  intros He. apply map_eq. intros i. destruct (decide (e = i)) as [<-|].
  - by rewrite lookup_alter_eq, lookup_insert_eq, He.
  - rewrite lookup_alter_ne by done. by rewrite lookup_insert_ne by done.
Qed.

#[export, refine] Instance events_base_EventBaseOk : EventBaseOk events_base := {| events := existing |}.
Proof.
  - intros h b e b' [= <- <-]. split; [|done]. apply not_elem_of_dom, is_fresh.
  - intros e t b h o He. cbn. by rewrite (alter_existing _ _ _ (h, o) He).
  - intros e b h o He. cbn. by rewrite (alter_existing _ _ _ (h, o) He).
  - done.
Defined.

Lemma event_new_succeeds h (b : events_base) : is_Some (event_new h b).
Proof. by eexists. Qed.

(** A repeated timer that makes a one-shot timer and clears itself, and is moved. *)
Definition demo : list input :=
  [Call (Make 0 1500 [MakeOneShotTimer 1 10 [Default 5]; Clear 0]); Fire 0; Fire 1; Call (MoveMake 2 0); Call (Destroy 2);
   Call (Destroy 0); Call (Destroy 5)].

(** Conditions on a concrete world. *)
Ltac concrete := vm_compute; repeat split; eauto.
Ltac next_world := let w := fresh "w" in let E := fresh "E" in
  intros w E; vm_compute in E; injection E as <-.
Ltac call_ok :=
  lazymatch goal with
  | |- enabled_call _ [] _ => exact I
  | |- enabled_call _ (_ :: _) _ => split; [concrete|split; [first [by left|right; exact I]|next_world; call_ok]]
  end.
Ltac fire_ok :=
  unfold enabled_input;
  lazymatch goal with |- match ?x with _ => _ end => let y := eval vm_compute in x in change x with y end;
  cbv beta iota; intros;
  repeat match goal with
    E : _ = Some _ |- _ => vm_compute in E; injection E as <- end;
  call_ok.
Ltac enabled_ok :=
  lazymatch goal with
  | |- enabled_run [] _ => exact I
  | |- enabled_run (Call _ :: _) _ => split; [concrete|next_world; enabled_ok]
  | |- enabled_run (Fire _ :: _) _ => split; [fire_ok|next_world; enabled_ok]
  end.

Lemma demo_timers_enabled : enabled_run demo (start (mkBase ∅)).
Proof. unfold demo. enabled_ok. Qed.


Definition world_after (l : list input) : World :=
  match run l (start (mkBase ∅)) with Ok w => w | Err _ => start (mkBase ∅) end.

Lemma one_shot_fires_once_witness :
  ∃ w1 w', call 0 [Default 7] (world_after [Call (MakeOneShotTimer 0 10 [Default 7])]) = Ok w1 ∧
    step (Fire 0) (world_after [Call (MakeOneShotTimer 0 10 [Default 7])]) = Ok w' ∧
    timers w' = delete 0%nat (timers w1) ∧ runs w' = [0%nat].
Proof.
  destruct (one_shot_fires_once event_new_succeeds [Call (MakeOneShotTimer 0 10 [Default 7])] (mkBase ∅)
    (world_after [Call (MakeOneShotTimer 0 10 [Default 7])]) 0 (mkTimer (Some 0%nat) (Some 0%nat) true) 0 0 [Default 7])
    as (w1 & w' & E1 & E2 & Et & _ & _ & Er).
  - reflexivity.
  - enabled_ok.
  - vm_compute. reflexivity.
  - vm_compute. reflexivity.
  - reflexivity.
  - reflexivity.
  - reflexivity.
  - vm_compute. reflexivity.
  - call_ok.
  - exists w1, w'. split; [exact E1|]. split; [exact E2|]. split; [exact Et|exact Er].
Defined.

Lemma self_destroying_callable_faults_witness :
  step (Fire 0) (world_after [Call (Make 0 5 [Destroy 0; Default 1])]) = Err UseAfterFree.
Proof.
  apply (self_destroying_callable_faults event_new_succeeds [Call (Make 0 5 [Destroy 0; Default 1])] (mkBase ∅) _ 0
    (mkTimer (Some 0%nat) (Some 0%nat) false) 0 0 (Default 1) []).
  - reflexivity.
  - enabled_ok.
  - vm_compute. reflexivity.
  - vm_compute. reflexivity.
  - reflexivity.
  - reflexivity.
  - reflexivity.
  - vm_compute. reflexivity.
Defined.
