(* ===== verification/TcpServer.v ===== *)
(** * TcpServer: network/tcp_server.h and tcp_server.cpp

    The listening socket: created with the object, bound and listened on at most once,
    handing every connection that arrives to a callback as a [TcpConnection].

    The system calls and libevent's listener are a class over the state of the
    process's descriptors, which its other threads share: between two calls of the
    server anything may happen to descriptors that are not the server's. *)

From stdpp Require Import gmap.
From S2P Require Import Prelude Bytes Addresses TcpConnection.

(** ** The system *)

Inductive sockopt := SO_KEEPALIVE | MPTCP_ENABLED | SO_REUSEPORT.

(** The descriptors of a process, each with the open file it stands for, and the
    listeners of libevent, each with its descriptor. *)
Class Sockets (W : Type) := {
  files : W → gmap Z nat;
  listeners : W → gmap nat Z;
  (* the calls that return an int: -1 is a failure *)
  socket : W → Z * W;
  make_nonblocking : Z → W → Z * W;
  setsockopt : Z → sockopt → Z → W → Z * W;
  make_listen_socket_reuseable : Z → W → Z * W;
  bind : Z → sockaddr_in → W → Z * W;
  closesocket : Z → W → Z * W;
  (* None: the call fails, and the address is not written *)
  getsockname : Z → W → option sockaddr_in;
  (* None: a null pointer *)
  evconnlistener_new : Z → Z → W → option nat * W;
  evconnlistener_get_fd : nat → W → Z;
  evconnlistener_free : nat → W → W;
  (* a connection arrives at a listener *)
  accept : nat → W → option (Z * W);
}.

(** A call that changes no descriptor. *)
Definition neutral {W} `{Sockets W} (w w' : W) : Prop :=
  files w' = files w ∧ listeners w' = listeners w.

Class SocketsOk (W : Type) `{Sockets W} : Prop := {
  socket_ok w : let '(fd, w') := socket w in
    (fd = -1 ∧ neutral w w') ∨
    (files w !! fd = None ∧ fd ≠ -1 ∧ (∀ l, listeners w !! l ≠ Some fd) ∧
     listeners w' = listeners w ∧ ∃ f, files w' = <[fd := f]> (files w));
  make_nonblocking_ok fd w : neutral w (make_nonblocking fd w).2;
  setsockopt_ok fd o v w : neutral w (setsockopt fd o v w).2;
  reuseable_ok fd w : neutral w (make_listen_socket_reuseable fd w).2;
  bind_ok fd a w : neutral w (bind fd a w).2;
  closesocket_ok fd w : let w' := (closesocket fd w).2 in
    files w' = delete fd (files w) ∧ listeners w' = listeners w;
  listener_new_ok b fd w : match evconnlistener_new b fd w with
    | (Some l, w') => listeners w !! l = None ∧ files w' = files w ∧
                      listeners w' = <[l := fd]> (listeners w)
    | (None, w') => neutral w w'
    end;
  get_fd_ok l fd w : listeners w !! l = Some fd → evconnlistener_get_fd l w = fd;
  (* LEV_OPT_CLOSE_ON_FREE *)
  listener_free_ok l fd w : listeners w !! l = Some fd →
    files (evconnlistener_free l w) = delete fd (files w) ∧
    listeners (evconnlistener_free l w) = delete l (listeners w);
  accept_ok l w fd w' : accept l w = Some (fd, w') →
    files w !! fd = None ∧ fd ≠ -1 ∧ listeners w' = listeners w ∧
    ∃ f, files w' = <[fd := f]> (files w);
}.

Section server.
Context {W : Type} `{Sockets W}.
(* a bufferevent, the state its connections' callbacks work on, the application's *)
Context {B T S : Type}.
Context (bufferevent_socket_new : Z → B).

(** [TcpServerCallback]: [OnConnectionAccepted]. *)
Definition TcpServerCallback : Type := S → Conn B T → S.

Record TcpServer := mkServer {
  mode_ : bool;                            (* kVerbose *)
  fd_ : Z;
  conn_ : option nat;                      (* the listener *)
  callback_ : option TcpServerCallback;
}.

(** The constructor, which may leave the process with [exit]. *)
Inductive constructed :=
  | Constructed (s : TcpServer)
  | Exited (code : Z).

Definition Create (callback : option TcpServerCallback) (mode : bool) (w : W) : constructed * W :=
  let '(fd, w) := socket w in
  if fd =? -1 then (Exited 1, w)
  else
    let '(r, w) := make_nonblocking fd w in
    if r =? -1 then (Exited 1, w)
    else (Constructed (mkServer mode fd None callback), w).

Definition BindAndListen (s : TcpServer) (port local_address backlog : Z) (w : W) : option nat * W :=
  let sin := mkSockaddrIn AF_INET (htons port) (htonl local_address) in
  let '(r, w) := setsockopt (fd_ s) SO_KEEPALIVE 1 w in
  if r <? 0 then (None, w) else
  let '(r, w) := make_listen_socket_reuseable (fd_ s) w in
  if r <? 0 then (None, w) else
  let '(r, w) := bind (fd_ s) sin w in
  if r <? 0 then (None, w) else
  evconnlistener_new backlog (fd_ s) w.

(** The address of the socket is looked up for the log; without it what is logged is
    an address that nobody wrote. *)
Definition ListenOn (s : TcpServer) (port local_address backlog : Z) (w : W)
    : result (bool * TcpServer * W) :=
  match conn_ s with
  | Some l =>
      match getsockname (evconnlistener_get_fd l w) w with
      | Some _ => Ok (false, s, w)
      | None => Err UninitRead
      end
  | None =>
      let '(l, w) := BindAndListen s port local_address backlog w in
      Ok (bool_decide (is_Some l), mkServer (mode_ s) (fd_ s) l (callback_ s), w)
  end.

Definition RegisterCallback (callback : option TcpServerCallback) (s : TcpServer) : TcpServer :=
  mkServer (mode_ s) (fd_ s) (conn_ s) callback.

Definition EnableMptcp (enable : bool) (s : TcpServer) (w : W) : bool * W :=
  match conn_ s with
  | Some _ => (false, w)
  | None =>
      let '(r, w) := setsockopt (fd_ s) MPTCP_ENABLED (if enable then 1 else 0) w in
      (negb (r =? -1), w)
  end.

Definition EnableReusePort (s : TcpServer) (w : W) : bool * W :=
  match conn_ s with
  | Some _ => (false, w)
  | None =>
      let '(r, w) := setsockopt (fd_ s) SO_REUSEPORT 1 w in
      (negb (r =? -1), w)
  end.

Definition GetListenPort (s : TcpServer) (w : W) : Z :=
  match getsockname (fd_ s) w with
  | None => 0
  | Some sin => ntohs (sin_port sin)
  end.

Definition kSockaddrInSize : Z := 16.

(** [AcceptConnection]; [peer] and [sock] are the addresses that the connection finds. *)
Definition AcceptConnection (listener : nat) (fd : Z) (addr_len : Z) (peer sock : option sockaddr_in)
    (s : TcpServer) (a : S) : result S :=
  _ ← assert_ (bool_decide (conn_ s = Some listener));
  _ ← assert_ (addr_len =? kSockaddrInSize);
  match callback_ s with
  | None => Ok a
  | Some f => Ok (f a (Create_fd (bufferevent_socket_new fd) fd (mode_ s) peer sock))
  end.

(** The destructor, in its two steps. *)
Definition free_listener (s : TcpServer) (w : W) : W :=
  match conn_ s with Some l => evconnlistener_free l w | None => w end.
Definition close_socket (s : TcpServer) (w : W) : W := (closesocket (fd_ s) w).2.
Definition Destroy (s : TcpServer) (w : W) : W := close_socket s (free_listener s w).

(** ** A server at work *)

Record World := mkWorld {
  os : W;
  server : TcpServer;
  app : S;
  handed : list Z;           (* the descriptors given to the callback *)
  dropped : list Z;          (* the ones accepted without one *)
}.

Inductive event :=
  | Listen (port local_address backlog : Z)
  | Register (callback : option TcpServerCallback)
  | Mptcp (enable : bool)
  | ReusePort
  | Incoming (listener : nat) (addr_len : Z) (peer sock : option sockaddr_in)
  | Elsewhere (w' : W).          (* other threads have been at work *)

Definition step (e : event) (w : World) : result World :=
  match e with
  | Listen p a b =>
      '(_, s, o) ← ListenOn (server w) p a b (os w);
      Ok (mkWorld o s (app w) (handed w) (dropped w))
  | Register f => Ok (mkWorld (os w) (RegisterCallback f (server w)) (app w) (handed w) (dropped w))
  | Mptcp b => Ok (mkWorld (EnableMptcp b (server w) (os w)).2 (server w) (app w) (handed w) (dropped w))
  | ReusePort => Ok (mkWorld (EnableReusePort (server w) (os w)).2 (server w) (app w) (handed w) (dropped w))
  | Incoming l len peer sock =>
      match accept l (os w) with
      | None => Ok w
      | Some (fd, o) =>
          a ← AcceptConnection l fd len peer sock (server w) (app w);
          Ok match callback_ (server w) with
             | Some _ => mkWorld o (server w) a (handed w ++ [fd]) (dropped w)
             | None => mkWorld o (server w) a (handed w) (dropped w ++ [fd])
             end
      end
  | Elsewhere o => Ok (mkWorld o (server w) (app w) (handed w) (dropped w))
  end.

Fixpoint run (l : list event) (w : World) : result World :=
  match l with
  | [] => Ok w
  | e :: l => w ← step e w; run l w
  end.

(** What the system and the other threads keep to: a listening socket has a name, a
    listener calls back with addresses of its family, and nobody touches the server's
    socket or the descriptors it dropped. *)
Definition enabled (e : event) (w : World) : Prop :=
  match e with
  | Listen _ _ _ => is_Some (conn_ (server w)) → is_Some (getsockname (fd_ (server w)) (os w))
  | Incoming l len _ _ => listeners (os w) !! l = Some (fd_ (server w)) ∧ len = kSockaddrInSize
  | Elsewhere o =>
      files o !! fd_ (server w) = files (os w) !! fd_ (server w) ∧
      (∀ fd, fd ∈ dropped w → files o !! fd = files (os w) !! fd) ∧
      (∀ l, listeners o !! l = Some (fd_ (server w)) ↔
            listeners (os w) !! l = Some (fd_ (server w)))
  | _ => True
  end.

Fixpoint enabled_run (l : list event) (w : World) : Prop :=
  match l with
  | [] => True
  | e :: l => enabled e w ∧ ∀ w', step e w = Ok w' → enabled_run l w'
  end.

(** ** The server's socket *)

Context `{!SocketsOk W}.

(** The socket is open, what listens on it is the server's listener, and what was
    dropped is open. *)
Record inv (f : nat) (w : World) : Prop := mkInv {
  inv_open : files (os w) !! fd_ (server w) = Some f;
  inv_listener l : listeners (os w) !! l = Some (fd_ (server w)) ↔ conn_ (server w) = Some l;
  inv_dropped fd : fd ∈ dropped w → fd ≠ fd_ (server w) ∧ is_Some (files (os w) !! fd);
}.

Lemma neutral_refl (w : W) : neutral w w.
Proof. done. Qed.
Lemma neutral_trans (w1 w2 w3 : W) : neutral w1 w2 → neutral w2 w3 → neutral w1 w3.
Proof. intros [? ?] [? ?]. split; congruence. Qed.

Ltac neutral_call :=
  match goal with
  | |- context [setsockopt ?fd ?o ?v ?w] =>
      pose proof (setsockopt_ok fd o v w); destruct (setsockopt fd o v w) as [? ?]
  | |- context [make_listen_socket_reuseable ?fd ?w] =>
      pose proof (reuseable_ok fd w); destruct (make_listen_socket_reuseable fd w) as [? ?]
  | |- context [bind ?fd ?a ?w] =>
      pose proof (bind_ok fd a w); destruct (bind fd a w) as [? ?]
  end; cbn [fst snd] in *.

(** Binding fails without a trace in the descriptors, or gives a listener. *)
Lemma BindAndListen_ok s port a b w :
  match BindAndListen s port a b w with
  | (None, w') => neutral w w'
  | (Some l, w') => listeners w !! l = None ∧ files w' = files w ∧
                    listeners w' = <[l := fd_ s]> (listeners w)
  end.
Proof.
  unfold BindAndListen.
  neutral_call. destruct (_ <? 0); [done|]. neutral_call.
  destruct (_ <? 0); [by eapply neutral_trans|]. neutral_call.
  match goal with |- context [evconnlistener_new _ _ ?o] => rename o into w3 end.
  assert (neutral w w3) as [Ef El] by eauto using neutral_trans.
  destruct (_ <? 0); [by split|].
  pose proof (listener_new_ok b (fd_ s) w3) as Hn.
  destruct (evconnlistener_new b (fd_ s) w3) as [[l|] w']; unfold neutral in *; rewrite ?Ef, ?El in Hn; exact Hn.
Qed.

Lemma EnableMptcp_neutral b s w : neutral w (EnableMptcp b s w).2.
Proof. unfold EnableMptcp. case_match; [done|]. by neutral_call. Qed.
Lemma EnableReusePort_neutral s w : neutral w (EnableReusePort s w).2.
Proof. unfold EnableReusePort. case_match; [done|]. by neutral_call. Qed.

Lemma inv_neutral f w o : inv f w → neutral (os w) o →
  inv f (mkWorld o (server w) (app w) (handed w) (dropped w)).
Proof. intros [Ho Hl Hd] [Ef El]. split; cbn; rewrite ?Ef, ?El; auto. Qed.

(** A step goes on, keeps the socket, and a listener once there is one. *)
Lemma server_step_ok f e w : inv f w → enabled e w →
  ∃ w', step e w = Ok w' ∧ inv f w' ∧ fd_ (server w') = fd_ (server w) ∧
    (∀ l, conn_ (server w) = Some l → conn_ (server w') = Some l) ∧
    ∀ fd, fd ∈ dropped w → fd ∈ dropped w'.
Proof.
  intros Hi He. pose proof Hi as [Ho Hl Hd]. destruct e as [p a b|g|b| |l len peer sock|o]; cbn [step enabled] in *.
  - unfold ListenOn. destruct (conn_ (server w)) as [l|] eqn:Ec.
    + rewrite (get_fd_ok l _ _ (proj2 (Hl l) eq_refl)). destruct He as [sin ->]; [done|]. cbn.
      exists (mkWorld (os w) (server w) (app w) (handed w) (dropped w)).
      split; [done|]. split; [by apply inv_neutral|]. cbn. by rewrite Ec.
    + pose proof (BindAndListen_ok (server w) p a b (os w)) as Hb.
      destruct (BindAndListen (server w) p a b (os w)) as [[l|] o]; cbn; eexists (mkWorld _ _ _ _ _);
        (split; [reflexivity|]).
      * destruct Hb as (Hn & Ef & El). split; [|done]. split; cbn; [by rewrite Ef| |by rewrite Ef].
        intros l'. rewrite El, lookup_insert_Some, Hl.
        split; [by intros [[-> _]|[_ ?]]|intros [= ->]; by left].
      * split; [|done]. destruct Hb as [Ef El]. split; cbn; [by rewrite Ef| |by rewrite Ef].
        intros l. by rewrite El, Hl.
  - eexists (mkWorld _ _ _ _ _). split; [reflexivity|]. by split; [split|].
  - eexists (mkWorld _ _ _ _ _). split; [reflexivity|].
    split; [apply inv_neutral; [done|apply EnableMptcp_neutral]|done].
  - eexists (mkWorld _ _ _ _ _). split; [reflexivity|].
    split; [apply inv_neutral; [done|apply EnableReusePort_neutral]|done].
  - destruct He as [El ->]. destruct (accept l (os w)) as [[fd o]|] eqn:Ea; [|by exists w].
    destruct (accept_ok _ _ _ _ Ea) as (Hf & _ & El' & g & Ef).
    assert (fd ≠ fd_ (server w)) as Hfd by (intros ->; by rewrite Ho in Hf).
    unfold AcceptConnection. rewrite (proj1 (Hl l) El), bool_decide_true by done. cbn.
    assert (∀ fd', is_Some (files (os w) !! fd') → is_Some (files o !! fd')) as Hmore.
    { intros fd'. rewrite Ef, lookup_insert_is_Some. intros. destruct (decide (fd = fd')); auto. }
    assert (files o !! fd_ (server w) = Some f) as Ho' by (by rewrite Ef, lookup_insert_ne).
    destruct (callback_ (server w)); eexists (mkWorld _ _ _ _ _); (split; [reflexivity|]);
      (split; [|split; [done|split; [cbn; intros ? <-; by apply Hl|cbn; intros; rewrite ?elem_of_app; auto]]]); split; cbn; try done;
      try (intros ?; by rewrite El'); intros fd'.
    + intros Hin. destruct (Hd fd' Hin). auto.
    + rewrite elem_of_app, list_elem_of_singleton. intros [Hin| ->].
      * destruct (Hd fd' Hin). auto.
      * split; [done|]. rewrite Ef, lookup_insert_eq. eauto.
  - destruct He as (E1 & E2 & E3). eexists (mkWorld _ _ _ _ _). split; [reflexivity|].
    split; [|done]. split; cbn; [by rewrite E1|intros l; by rewrite E3|].
    intros fd Hfd. rewrite (E2 fd Hfd). auto.
Qed.

Lemma server_run_ok f l w : inv f w → enabled_run l w →
  ∃ w', run l w = Ok w' ∧ inv f w' ∧ fd_ (server w') = fd_ (server w) ∧
    (∀ n, conn_ (server w) = Some n → conn_ (server w') = Some n) ∧
    ∀ fd, fd ∈ dropped w → fd ∈ dropped w'.
Proof.
  revert w. induction l as [|e l IH]; intros w Hi; cbn [enabled_run run]; [by eauto 6|].
  intros [He Hl]. destruct (server_step_ok f e w Hi He) as (w1 & E & Hi1 & Ef & Ec & Ed).
  destruct (IH w1 Hi1 (Hl w1 E)) as (w2 & E2 & Hi2 & Ef2 & Ec2 & Ed2).
  exists w2. rewrite E. cbn. split; [done|]. split; [done|]. split; [congruence|]. auto.
Qed.

Lemma enabled_app l1 l2 w : enabled_run (l1 ++ l2) w →
  enabled_run l1 w ∧ ∀ w', run l1 w = Ok w' → enabled_run l2 w'.
Proof.
  revert w. induction l1 as [|e l IH]; intros w; cbn [app enabled_run run].
  - intros Hen. split; [done|]. by intros w' [= <-].
  - intros [He Hl]. split.
    + split; [done|]. intros w' E. by apply IH, Hl.
    + intros w'. destruct (step e w) as [w1|] eqn:E; [|done]. cbn. apply IH. by apply Hl.
Qed.

(** The destructor leaves the other descriptors alone. *)
Lemma destroy_others f w fd : inv f w → fd ≠ fd_ (server w) →
  files (Destroy (server w) (os w)) !! fd = files (os w) !! fd.
Proof.
  intros Hi Hne. unfold Destroy, close_socket, free_listener.
  destruct (closesocket_ok (fd_ (server w))
    match conn_ (server w) with Some l => evconnlistener_free l (os w) | None => os w end) as [-> _].
  rewrite lookup_delete_ne by done. destruct (conn_ (server w)) as [n|] eqn:Ec; [|done].
  apply (inv_listener f w Hi) in Ec. destruct (listener_free_ok _ _ _ Ec) as [-> _].
  by rewrite lookup_delete_ne.
Qed.

(** The constructor's socket is the first file of the server. *)
Lemma create_inv cb mode w s w1 a : Create cb mode w = (Constructed s, w1) →
  ∃ f, inv f (mkWorld w1 s a [] []).
Proof.
  unfold Create. pose proof (socket_ok w) as Hs. destruct (socket w) as [fd o].
  case_match eqn:E; [done|]. pose proof (make_nonblocking_ok fd o) as [Ef El].
  destruct (make_nonblocking fd o) as [r o2]. cbn in Ef, El. case_match; [done|].
  intros Ec. injection Ec as <- <-. destruct Hs as [[-> _]|(Hn & _ & Hl & El' & f & Ef')]; [done|].
  exists f. split; cbn.
  - by rewrite Ef, Ef', lookup_insert_eq.
  - intros l. rewrite El, El'. split; [|done]. intros E2. by destruct (Hl l).
  - by intros ? ?%elem_of_nil.
Qed.

(** C35: a server created with a socket serves any sequence of calls and arrivals without a
    fault: its socket stays its own, a failed [ListenOn] leaves no listener and can be
    repeated, and from the first one that succeeds on the listener is the only one on the
    socket, further calls of [ListenOn], [EnableMptcp] and [EnableReusePort] fail and make
    no difference to the system. *)
Theorem server_runs_safely cb mode (w0 : W) s w1 (a : S) (l1 l2 : list event) :
  Create cb mode w0 = (Constructed s, w1) → enabled_run (l1 ++ l2) (mkWorld w1 s a [] []) →
  ∃ w w', run l1 (mkWorld w1 s a [] []) = Ok w ∧ run l2 w = Ok w' ∧
    fd_ (server w') = fd_ s ∧ is_Some (files (os w') !! fd_ s) ∧
    files (os w') !! fd_ s = files w1 !! fd_ s ∧
    (∀ l, listeners (os w') !! l = Some (fd_ s) ↔ conn_ (server w') = Some l) ∧
    ∀ l, conn_ (server w) = Some l → conn_ (server w') = Some l ∧
      (∀ p ad b r, ListenOn (server w') p ad b (os w') = Ok r → r = (false, server w', os w')) ∧
      (∀ b, EnableMptcp b (server w') (os w') = (false, os w')) ∧
      EnableReusePort (server w') (os w') = (false, os w').
Proof.
  intros Hc Hen. destruct (create_inv cb mode w0 s w1 a Hc) as [f Hi].
  apply enabled_app in Hen as [H1 H2].
  destruct (server_run_ok f l1 _ Hi H1) as (w & E & Hi1 & Ef & _ & _). cbn in Ef.
  destruct (server_run_ok f l2 w Hi1 (H2 w E)) as (w' & E' & [Ho Hl Hd] & Ef' & Hc' & _).
  rewrite Ef in Ef'. rewrite Ef' in Ho, Hl. apply inv_open in Hi. cbn in Hi.
  exists w, w'. rewrite Ho, Hi. do 6 (split; [done|]). intros l Hcl. apply Hc' in Hcl.
  unfold ListenOn, EnableMptcp, EnableReusePort. rewrite Hcl. split; [done|]. split; [|done].
  intros p ad b r. case_match; [by intros [= <-]|done].
Qed.

(** a connection that arrives while no callback is registered is neither handed on nor
    closed: its descriptor stays open for good, whatever happens then, also when the server
    has been destroyed. *)
Theorem unclaimed_connection_leaks cb mode (w0 : W) s w1 (a : S) (l1 l2 : list event) w n len peer sock fd o :
  Create cb mode w0 = (Constructed s, w1) →
  run l1 (mkWorld w1 s a [] []) = Ok w → callback_ (server w) = None → accept n (os w) = Some (fd, o) →
  enabled_run (l1 ++ Incoming n len peer sock :: l2) (mkWorld w1 s a [] []) →
  ∃ w', run (Incoming n len peer sock :: l2) w = Ok w' ∧
    is_Some (files (os w') !! fd) ∧ is_Some (files (Destroy (server w') (os w')) !! fd).
Proof.
  intros Hc E Hcb Ha Hen. destruct (create_inv cb mode w0 s w1 a Hc) as [f Hi].
  apply enabled_app in Hen as [H1 H2]. destruct (server_run_ok f l1 _ Hi H1) as (w2 & E2 & Hi1 & _).
  rewrite E in E2. injection E2 as <-. destruct (H2 w E) as [He Hl2].
  destruct (server_step_ok f _ w Hi1 He) as (w3 & E3 & Hi3 & _).
  destruct (server_run_ok f l2 w3 Hi3 (Hl2 w3 E3)) as (w' & E' & Hi' & _ & _ & Hd).
  exists w'. cbn [run]. rewrite E3. split; [done|].
  assert (fd ∈ dropped w3) as Hin.
  { revert E3. cbn [step]. rewrite Ha, Hcb. unfold AcceptConnection.
    destruct He as [El ->]. rewrite (proj1 (inv_listener f w Hi1 n) El), bool_decide_true, Hcb by done.
    intros [= <-]. cbn. rewrite elem_of_app, list_elem_of_singleton. by right. }
  destruct (inv_dropped f w' Hi' fd (Hd fd Hin)) as [Hne Hs]. split; [done|].
  by rewrite (destroy_others f w' fd Hi' Hne).
Qed.

(** the destructor of a listening server closes its descriptor twice, in the listener
    and by itself: what another thread opened under that number in between is closed.  The
    server that never listened closes its socket once. *)
Theorem listening_server_closes_twice cb mode (w0 : W) s w1 (a : S) (l : list event) w :
  Create cb mode w0 = (Constructed s, w1) → enabled_run l (mkWorld w1 s a [] []) →
  run l (mkWorld w1 s a [] []) = Ok w →
  match conn_ (server w) with
  | Some _ =>
      files (free_listener (server w) (os w)) = delete (fd_ s) (files (os w)) ∧
      ∀ o g, files o !! fd_ s = Some g → files (close_socket (server w) o) = delete (fd_ s) (files o)
  | None =>
      free_listener (server w) (os w) = os w ∧
      files (Destroy (server w) (os w)) = delete (fd_ s) (files (os w))
  end.
Proof.
  intros Hc Hen E. destruct (create_inv cb mode w0 s w1 a Hc) as [f Hi].
  destruct (server_run_ok f l _ Hi Hen) as (w2 & E2 & Hi1 & Ef & _). rewrite E in E2. injection E2 as <-.
  cbn in Ef. unfold Destroy, free_listener, close_socket. rewrite <- Ef. destruct (conn_ (server w)) as [n|] eqn:Ec.
  - split; [|intros; apply closesocket_ok].
    apply listener_free_ok. by apply (inv_listener f w Hi1).
  - split; [done|]. apply closesocket_ok.
Qed.
End server.

(** *** A system *)

(** The lowest descriptor that is free is the next one to be used; binding to port 1 is
    refused; files are numbered. *)
Record system := mkSystem { sys_files : gmap Z nat; sys_listeners : gmap nat Z; sys_next : nat }.

Definition lowest (s : system) : option Z :=
  List.find (λ fd, bool_decide (sys_files s !! fd = None) &&
                   forallb (λ p, negb (p.2 =? fd)) (map_to_list (sys_listeners s)))
    (seqZ 0 (Z.of_nat (S (size (sys_files s))))).
Definition open_next (s : system) : option (Z * system) :=
  fd ← lowest s;
  Some (fd, mkSystem (<[fd := sys_next s]> (sys_files s)) (sys_listeners s) (S (sys_next s))).

#[export] Instance system_Sockets : Sockets system := {|
  files := sys_files;
  listeners := sys_listeners;
  socket s := match open_next s with Some r => r | None => (-1, s) end;
  make_nonblocking _ s := (0, s);
  setsockopt _ _ _ s := (0, s);
  make_listen_socket_reuseable _ s := (0, s);
  bind _ a s := (if sin_port a =? htons 1 then -1 else 0, s);
  closesocket fd s := (0, mkSystem (delete fd (sys_files s)) (sys_listeners s) (sys_next s));
  getsockname _ _ := Some (mkSockaddrIn AF_INET (htons 3478) 0);
  evconnlistener_new _ fd s :=
    match sys_listeners s !! 0%nat with
    | Some _ => (None, s)
    | None => (Some 0%nat, mkSystem (sys_files s) (<[0%nat := fd]> (sys_listeners s)) (sys_next s))
    end;
  evconnlistener_get_fd l s := match sys_listeners s !! l with Some fd => fd | None => -1 end;
  evconnlistener_free l s :=
    match sys_listeners s !! l with
    | Some fd => mkSystem (delete fd (sys_files s)) (delete l (sys_listeners s)) (sys_next s)
    | None => s
    end;
  accept _ := open_next;
|}.

Lemma open_next_ok s fd s' : open_next s = Some (fd, s') →
  sys_files s !! fd = None ∧ fd ≠ -1 ∧ (∀ l, sys_listeners s !! l ≠ Some fd) ∧
  sys_listeners s' = sys_listeners s ∧ ∃ f, sys_files s' = <[fd := f]> (sys_files s).
Proof.
  unfold open_next. destruct (lowest s) as [n|] eqn:El; [|done]. cbn. intros [= -> <-].
  apply List.find_some in El as [Hin Hb]. apply list_elem_of_In, elem_of_seqZ in Hin.
  apply andb_true_iff in Hb as [Hf Hl]. apply bool_decide_eq_true in Hf.
  split; [done|]. split; [lia|]. split; [|split; [done|eauto]].
  intros l E. rewrite forallb_forall in Hl. specialize (Hl (l, fd)). cbn in Hl.
  rewrite Z.eqb_refl in Hl. discriminate Hl. by apply list_elem_of_In, elem_of_map_to_list.
Qed.

#[export] Instance system_SocketsOk : SocketsOk system.
Proof.
  split; try done.
  - intros s. cbn. destruct (open_next s) as [[fd s']|] eqn:E; [|by left].
    right. apply open_next_ok in E. tauto.
  - intros b fd s. cbn. destruct (sys_listeners s !! 0%nat) eqn:E; done.
  - intros l fd s E. cbn in *. by rewrite E.
  - intros l fd s E. cbn in *. by rewrite E.
  - intros l s fd s' E. apply open_next_ok in E. cbn. tauto.
Qed.

(** A server whose callback notes the descriptors it is given. *)
Definition collect : TcpServerCallback (B := Z) (T := unit) (S := list Z) :=
  λ a c, a ++ from_option (λ b, [b]) [] (bev_ c).
Definition system0 : system := mkSystem (<[0 := 100%nat]> (<[1 := 101%nat]> ∅)) ∅ 0.
Definition server0 (cb : option (TcpServerCallback (B := Z) (T := unit) (S := list Z))) : TcpServer :=
  mkServer true 2 None cb.
Definition system1 : system := mkSystem (<[2 := 0%nat]> (sys_files system0)) ∅ 1.
Abbreviation start cb := (mkWorld system1 (server0 cb) [] [] []).
Abbreviation play := (run (W := system) (B := Z) (T := unit) (S := list Z) (λ fd, fd)).

(** Binding to a privileged port fails; the second attempt listens. *)
Definition calls : list (event (W := system) (B := Z) (T := unit) (S := list Z)) :=
  [Mptcp true; Listen 1 0 (-1); Listen 3478 0 (-1)].
Definition arrivals : list (event (W := system) (B := Z) (T := unit) (S := list Z)) :=
  [Incoming 0 16 None None; ReusePort; Incoming 0 16 None None].

Ltac enabled_run_ok :=
  lazymatch goal with
  | |- enabled_run _ [] _ => exact I
  | |- enabled_run _ (_ :: _) _ =>
      split; [solve [exact I | intros _; by eexists | split; reflexivity]|];
      let w := fresh "w" in let E := fresh "E" in
      intros w E; vm_compute in E; injection E as <-; enabled_run_ok
  end.

Lemma server_runs_safely_witness :
  ∃ w w', play calls (start (Some collect)) = Ok w ∧ play arrivals w = Ok w' ∧
    conn_ (server w) = Some 0%nat ∧ app w' = [3; 4] ∧
    ∀ p ad b r, ListenOn (server w') p ad b (os w') = Ok r → r = (false, server w', os w').
Proof.
  destruct (server_runs_safely (λ fd, fd) (Some collect) true system0 (server0 (Some collect)) system1 []
    calls arrivals) as (w & w' & E & E' & _ & _ & _ & _ & H).
  - reflexivity.
  - unfold calls, arrivals. cbn [List.app]. enabled_run_ok.
  - exists w, w'. split; [exact E|]. split; [exact E'|].
    vm_compute in E. injection E as <-. split; [reflexivity|].
    split; [vm_compute in E'; injection E' as <-; reflexivity|].
    apply (H 0%nat). reflexivity.
Defined.

Definition silent_world : World :=
  match play calls (start None) with Ok w => w | Err _ => start None end.
Definition silent_after : system := mkSystem (<[3 := 1%nat]> (sys_files (os silent_world))) (sys_listeners (os silent_world)) 2.

Lemma unclaimed_connection_leaks_witness :
  ∃ w', play [Incoming 0 16 None None] silent_world = Ok w' ∧
    is_Some (files (Destroy (server w') (os w')) !! 3).
Proof.
  destruct (unclaimed_connection_leaks (λ fd, fd) None true system0 (server0 None) system1 []
    calls [] silent_world 0 16 None None 3 silent_after) as (w' & E & _ & H).
  - reflexivity.
  - vm_compute. reflexivity.
  - reflexivity.
  - vm_compute. reflexivity.
  - unfold calls. cbn [List.app]. enabled_run_ok.
  - exists w'. split; [exact E|exact H].
Defined.

(** Another thread opens a file when the listener is gone: it gets the server's number. *)
Definition reopened : system :=
  (socket (free_listener (server silent_world) (os silent_world))).2.
Lemma listening_server_closes_twice_witness :
  files reopened !! 2 = Some 1%nat ∧ files (close_socket (server silent_world) reopened) !! 2 = None.
Proof.
  split; [vm_compute; reflexivity|].
  destruct (listening_server_closes_twice (λ fd, fd) None true system0 (server0 None) system1 []
    calls silent_world) as [_ H].
  - reflexivity.
  - unfold calls. enabled_run_ok.
  - vm_compute. reflexivity.
  - rewrite (H reopened 1%nat); vm_compute; reflexivity.
Defined.
