(* ===== verification/LogFile.v ===== *)
(** * LogFile: the log of turnserver_main.cc

    [gettimestring] and the class [LogFile], which once a day, at midnight, moves a log
    that has grown into an archive: it copies the file, empties it, and has the copy
    compressed.  Streams ([rtc::FileStream]) and the shell ([system]) are a class over
    the contents of the files; a write may store less than it is given. *)

From Stdlib Require Import String.
From stdpp Require Import gmap.
From S2P Require Import Prelude Bytes Double Addresses.

(** ** Text *)

(** [struct tm] *)
Record tm := mkTm {
  tm_year : Z; tm_mon : Z; tm_mday : Z; tm_hour : Z; tm_min : Z; tm_sec : Z }.

(** [%02d] *)
Definition print_02d (n : Z) : bytes := if n <? 0 then print_d n else padded 2 n.

(** [sprintf] into an array of [cap] characters. *)
Definition sprintf (cap : nat) (s : bytes) : result bytes :=
  if (length s <? cap)%nat then Ok s else Err OutOfBounds.

(** [%d-%02d-%02dT%02d:%02d:%02dZ] of a time. *)
Definition print_time (t : tm) : bytes :=
  print_d (tm_year t + 1900) ++ str "-" ++ print_02d (tm_mon t + 1) ++ str "-" ++
  print_02d (tm_mday t) ++ str "T" ++ print_02d (tm_hour t) ++ str ":" ++
  print_02d (tm_min t) ++ str ":" ++ print_02d (tm_sec t) ++ str "Z".

Definition gettimestring (nowtime : tm) : result bytes :=
  timechar ← sprintf 256 (print_time nowtime ++ str ": ");
  Ok (c_str timechar).

(** ** Files *)

Class Files (W : Type) := {
  contents : W → gmap bytes bytes;
  (* FileStream::Open *)
  open_read : bytes → W → bool;
  open_write : bytes → W → option W;
  (* FileStream::Read at a position: None unless SR_SUCCESS *)
  read : bytes → nat → nat → W → option bytes;
  (* FileStream::Write and Flush, at the end of the file *)
  write : bytes → bytes → W → W;
  (* FileStream::GetSize *)
  get_size : bytes → W → option Z;
  system : bytes → W → W;
}.

(** A name that the shell takes as it is. *)
Definition word_char (c : Z) : bool :=
  (45 <=? c) && (c <=? 58) || (65 <=? c) && (c <=? 90) || (c =? 95) || (97 <=? c) && (c <=? 122).
Definition word (p : bytes) : bool := forallb word_char p.

Definition gz (p : bytes) : bytes := p ++ str ".gz".

Class FilesOk (W : Type) `{Files W} (gzip : bytes → bytes) : Prop := {
  open_read_ok p w : open_read p w = true → is_Some (contents w !! p);
  open_write_ok p w w' : open_write p w = Some w' → contents w' = <[p := []]> (contents w);
  read_ok p pos n w c : contents w !! p = Some c →
    read p pos n w = match take n (drop pos c) with [] => None | d => Some d end;
  write_ok p d w c : contents w !! p = Some c →
    ∃ n, contents (write p d w) = <[p := c ++ take n d]> (contents w);
  get_size_ok p w n : get_size p w = Some n → ∃ c, contents w !! p = Some c ∧ n = Z.of_nat (length c);
  truncate_ok p w : word p = true → is_Some (contents w !! p) →
    contents (system (str "cat /dev/null > " ++ p) w) = <[p := []]> (contents w);
  gzip_ok p w c : word p = true → contents w !! p = Some c → contents w !! gz p = None →
    contents (system (str "gzip " ++ p) w) = <[gz p := gzip c]> (delete p (contents w));
  gzip_none p w : word p = true → contents w !! p = None →
    contents (system (str "gzip " ++ p) w) = contents w;
}.

(** Every write stores all of its bytes. *)
Definition writes_all {W} `{Files W} : Prop :=
  ∀ p d w c, contents w !! p = Some c → contents (write p d w) = <[p := c ++ d]> (contents w).

Section log_file.
Context {W : Type} `{Files W}.

(** [LogFile] *)
Record LogFile := mkLogFile { logfile_ : bytes }.

Definition getFileSize (l : LogFile) (w : W) : Z :=
  if open_read (logfile_ l) w then from_option id 0 (get_size (logfile_ l) w) else 0.

Definition kBufferSize : nat := 1024.

(** The loop of [copy_file]; None: out of fuel. *)
Fixpoint copy_loop (fuel : nat) (src dst : bytes) (pos : nat) (w : W) : option W :=
  match fuel with
  | O => None
  | S fuel =>
      match read src pos kBufferSize w with
      | Some d => copy_loop fuel src dst (pos + length d) (write dst d w)
      | None => Some w
      end
  end.

Definition copy_file (fuel : nat) (source_path destination_path : bytes) (w : W) : option W :=
  if open_read source_path w then
    match open_write destination_path w with
    | Some w => copy_loop fuel source_path destination_path 0 w
    | None => Some w
    end
  else Some w.

Definition kMinBackupSize : Z := 1 * 1000 * 1000.

(** None: the copy has not ended; [fuel] bounds its turns. *)
Definition backupLogFile (fuel : nat) (nowtime : tm) (l : LogFile) (w : W) : result (option (bool * W)) :=
  let logsize := getFileSize l w in
  if (logsize <? kMinBackupSize) || negb (tm_hour nowtime =? 0) then Ok (Some (false, w))
  else
    filename ← sprintf 256 (c_str (logfile_ l) ++ str "-" ++ print_time nowtime);
    match copy_file fuel (logfile_ l) (c_str filename) w with
    | None => Ok None
    | Some w =>
        cmd1 ← sprintf 256 (str "cat /dev/null > " ++ c_str (logfile_ l));
        let w := system cmd1 w in
        cmd2 ← sprintf 256 (str "gzip " ++ c_str filename);
        let w := system cmd2 w in
        Ok (Some (true, w))
    end.
End log_file.

(** ** Text that fits *)

Lemma word_app p q : word (p ++ q) = word p && word q.
Proof. apply forallb_app. Qed.

Lemma word_digits l : Forall is_digit l → word l = true.
Proof.
  intros Hl. apply forallb_forall. intros c Hc.
  pose proof (proj1 (Forall_forall _ _) Hl c Hc) as Hd. unfold is_digit in Hd.
  unfold word_char. rewrite (proj2 (Z.leb_le 45 c)), (proj2 (Z.leb_le c 58)) by lia. done.
Qed.

Lemma word_print_d n : word (print_d n) = true.
Proof.
  unfold print_d. rewrite word_app, (word_digits (digits _)) by (apply digits_spec; lia).
  by destruct (n <? 0).
Qed.

Lemma word_print_02d n : word (print_02d n) = true.
Proof.
  unfold print_02d. destruct (Z.ltb_spec n 0); [apply word_print_d|].
  unfold padded. rewrite word_app, (word_digits (digits _)) by (apply digits_spec; lia).
  rewrite word_digits; [done|]. apply Forall_replicate. done.
Qed.

Lemma word_print_time t : word (print_time t) = true.
Proof. unfold print_time. by rewrite !word_app, !word_print_02d, word_print_d. Qed.

Lemma word_nonzero p : word p = true → Forall (λ b, b ≠ 0) p.
Proof.
  induction p as [|c p IH]; [constructor|]. cbn. intros [Hc Hp]%andb_true_iff.
  constructor; [by intros ->|auto].
Qed.

Lemma c_str_word p : word p = true → c_str p = p.
Proof. intros. by apply c_str_id, word_nonzero. Qed.

(** The lengths of the fields. *)
Lemma length_digits_le n k : 0 ≤ n < 10 ^ k → 1 ≤ k → Z.of_nat (length (digits n)) ≤ k.
Proof.
  intros Hn Hk. destruct (digits_spec n) as (_ & _ & _ & Hl & _); [lia|].
  apply Z.nlt_ge. intros Hc.
  assert (10 ^ (k + 1) ≤ 10 ^ Z.of_nat (length (digits n))) by (apply Z.pow_le_mono_r; lia).
  rewrite Z.pow_add_r, Z.pow_1_r in * by lia.
  assert (10 ^ 1 ≤ 10 ^ k) by (apply Z.pow_le_mono_r; lia). lia.
Qed.

Lemma length_print_02d n : 0 ≤ n < 100 → length (print_02d n) = 2%nat.
Proof.
  intros Hn. unfold print_02d. rewrite (proj2 (Z.ltb_ge _ _)) by lia. unfold padded.
  assert (Z.of_nat (length (digits n)) ≤ 2) by (apply length_digits_le; lia).
  rewrite length_app, length_replicate. lia.
Qed.

(** What [gmtime] gives until the year 9999. *)
Record calendar (t : tm) : Prop := mkCalendar {
  cal_year : 0 ≤ tm_year t + 1900 ≤ 9999;
  cal_mon : 0 ≤ tm_mon t < 12;
  cal_mday : 1 ≤ tm_mday t ≤ 31;
  cal_hour : 0 ≤ tm_hour t < 24;
  cal_min : 0 ≤ tm_min t < 60;
  cal_sec : 0 ≤ tm_sec t ≤ 60;
}.

Lemma length_print_time t : calendar t → (length (print_time t) ≤ 20)%nat.
Proof.
  intros [? ? ? ? ? ?]. unfold print_time. rewrite !length_app, !length_print_02d by lia.
  unfold print_d. rewrite (proj2 (Z.ltb_ge _ _)) by lia. cbn [length minus app str].
  assert (Z.of_nat (length (digits (Z.abs (tm_year t + 1900)))) ≤ 4) by (apply length_digits_le; lia). lia.
Qed.

Lemma sprintf_ok cap s : (length s < cap)%nat → sprintf cap s = Ok s.
Proof. intros Hl. unfold sprintf. by rewrite (proj2 (Nat.ltb_lt _ _)). Qed.

(** [gettimestring] fits its array. *)
Lemma gettimestring_ok t : calendar t → gettimestring t = Ok (print_time t ++ str ": ").
Proof.
  intros Ht. pose proof (length_print_time t Ht). unfold gettimestring.
  rewrite sprintf_ok by (rewrite length_app; cbn; lia). cbn. f_equal.
  apply c_str_id, Forall_app. split; [apply word_nonzero, word_print_time|by repeat constructor].
Qed.

(** The name of the archive, and the commands with it. *)
Definition archive (l : LogFile) (t : tm) : bytes := logfile_ l ++ str "-" ++ print_time t.

Section backup.
Context (l : LogFile) (t : tm).
Context (Hw : word (logfile_ l) = true) (Hl : (length (logfile_ l) ≤ 229)%nat) (Ht : calendar t).

Lemma archive_word : word (archive l t) = true.
Proof. unfold archive. by rewrite !word_app, Hw, word_print_time. Qed.

Lemma archive_longer : (length (logfile_ l) < length (archive l t) ≤ 250)%nat.
Proof.
  pose proof (length_print_time t Ht). unfold archive. rewrite !length_app. cbn. lia.
Qed.

Lemma archive_other : archive l t ≠ logfile_ l.
Proof. pose proof archive_longer. intros E. rewrite E in *. lia. Qed.

Lemma gz_other : gz (archive l t) ≠ logfile_ l ∧ gz (archive l t) ≠ archive l t.
Proof.
  pose proof archive_longer as Hal. split; intros E; apply (f_equal length) in E; unfold gz in E;
    rewrite length_app in E; cbn in E; lia.
Qed.
End backup.

(** ** The copy *)

Lemma take_drop_part {A} n (l : list A) : take n l ++ drop (length (take n l)) l = l.
Proof.
  rewrite length_take. destruct (Nat.le_gt_cases n (length l)).
  - rewrite Nat.min_l by done. apply take_drop.
  - rewrite Nat.min_r, take_ge, drop_ge by lia. apply app_nil_r.
Qed.

Section copy.
Context {W : Type} `{FilesOk W gzip}.

(** The copy ends, and has stored some bytes: all of them if the writes did. *)
Lemma copy_loop_ok fuel src dst pos (w : W) c d :
  contents w !! src = Some c → contents w !! dst = Some d → src ≠ dst →
  (pos ≤ length c)%nat → (length c < fuel + pos)%nat →
  ∃ w' d', copy_loop fuel src dst pos w = Some w' ∧ contents w' = <[dst := d']> (contents w) ∧
    (writes_all (W := W) → d' = d ++ drop pos c).
Proof.
  revert pos w d. induction fuel as [|fuel IH]; intros pos w d Hs Hd Hne Hp Hf; [lia|].
  cbn [copy_loop]. rewrite (read_ok src pos kBufferSize w c Hs).
  destruct (take kBufferSize (drop pos c)) as [|x r] eqn:E.
  - exists w, d. split; [done|]. rewrite insert_id by done. split; [done|]. intros _.
    destruct (drop pos c); [by rewrite app_nil_r|done].
  - rewrite <- E. set (part := take kBufferSize (drop pos c)).
    assert (0 < length part ≤ length c - pos)%nat as Hpart.
    { unfold part. rewrite length_take, length_drop. apply (f_equal length) in E.
      rewrite length_take, length_drop in E. cbn [length] in E. lia. }
    destruct (write_ok (gzip := gzip) dst part w d Hd) as [n Hn].
    destruct (IH (pos + length part)%nat (write dst part w) (d ++ take n part)) as (w' & d' & Ew & Ec & Ea);
      [by rewrite Hn, lookup_insert_ne|by rewrite Hn, lookup_insert_eq|done|lia|lia|].
    exists w', d'. split; [done|]. split; [by rewrite Ec, Hn, insert_insert_eq|].
    intros Hall. rewrite (Ea Hall). pose proof (Hall dst part w d Hd) as Hfull. rewrite Hn in Hfull.
    apply (f_equal (.!! dst)) in Hfull. rewrite !lookup_insert_eq in Hfull. injection Hfull as Hfull.
    rewrite Hfull, <- app_assoc. f_equal. rewrite <- drop_drop. unfold part.
    apply take_drop_part.
Qed.
End copy.

(** ** What becomes of the log *)

Section claims.
Context {W : Type} `{FilesOk W gzip}.

(** The outcome of a backup that is due. *)
Lemma backup_due fuel t l (w : W) c :
  word (logfile_ l) = true → (length (logfile_ l) ≤ 229)%nat → calendar t →
  contents w !! logfile_ l = Some c → kMinBackupSize ≤ getFileSize l w → tm_hour t = 0 →
  (length c < fuel)%nat →
  open_read (logfile_ l) w = true ∧
  ∃ w1, copy_file fuel (logfile_ l) (archive l t) w = Some w1 ∧
    backupLogFile fuel t l w = Ok (Some (true,
      system (str "gzip " ++ archive l t) (system (str "cat /dev/null > " ++ logfile_ l) w1))) ∧
    match open_write (archive l t) w with
    | None => w1 = w
    | Some _ => ∃ d, contents w1 = <[archive l t := d]> (contents w) ∧ (writes_all (W := W) → d = c)
    end.
Proof.
  intros Hw Hl Ht Hc Hs Hh Hf.
  pose proof (archive_word l t Hw) as Haw. pose proof (archive_longer l t Hl Ht) as Hal.
  assert (open_read (logfile_ l) w = true) as Hr.
  { revert Hs. unfold getFileSize. destruct (open_read (logfile_ l) w); [done|]. by intros []. }
  split; [done|].
  assert (∃ w1, copy_file fuel (logfile_ l) (archive l t) w = Some w1 ∧
    match open_write (archive l t) w with
    | None => w1 = w
    | Some _ => ∃ d, contents w1 = <[archive l t := d]> (contents w) ∧ (writes_all (W := W) → d = c)
    end) as (w1 & E & Hw1).
  { unfold copy_file. rewrite Hr. destruct (open_write (archive l t) w) as [w0|] eqn:Ew; [|by exists w].
    pose proof (open_write_ok _ _ _ Ew) as Ec.
    destruct (copy_loop_ok fuel (logfile_ l) (archive l t) 0 w0 c []) as (w1 & d & E & Ed & Ha).
    - rewrite Ec, lookup_insert_ne; [done|]. by apply archive_other.
    - by rewrite Ec, lookup_insert_eq.
    - intros E. symmetry in E. revert E. by apply archive_other.
    - lia.
    - lia.
    - exists w1. split; [done|]. exists d. rewrite Ed, Ec, insert_insert_eq. split; [done|].
      intros Hall. by rewrite (Ha Hall). }
  exists w1. split; [done|]. split; [|done].
  unfold backupLogFile. rewrite (proj2 (Z.ltb_ge _ _)) by done. rewrite Hh. cbn [orb negb Z.eqb].
  rewrite (c_str_word (logfile_ l)) by done.
  assert (sprintf 256 (logfile_ l ++ str "-" ++ print_time t) = Ok (archive l t)) as ->
    by (apply (sprintf_ok 256 (archive l t)); lia).
  rewrite bind_ok, (c_str_word (archive l t)), E by done.
  rewrite !sprintf_ok by (rewrite length_app; cbn; lia). done.
Qed.

(** C36: at midnight a log of a megabyte or more is moved: the archive holds the compressed
    log, the log is empty, and no other file has changed, provided that the archive can be
    written and its name is new. *)
Theorem backup_archives_log fuel t l (w w0 : W) c :
  word (logfile_ l) = true → (length (logfile_ l) ≤ 229)%nat → calendar t →
  contents w !! logfile_ l = Some c → kMinBackupSize ≤ getFileSize l w → tm_hour t = 0 →
  (length c < fuel)%nat → writes_all (W := W) → open_write (archive l t) w = Some w0 →
  contents w !! archive l t = None → contents w !! gz (archive l t) = None →
  ∃ w', backupLogFile fuel t l w = Ok (Some (true, w')) ∧
    contents w' = <[gz (archive l t) := gzip c]> (<[logfile_ l := []]> (contents w)).
Proof.
  intros Hw Hl Ht Hc Hs Hh Hf Hall Hopen Hn Hg.
  destruct (backup_due fuel t l w c Hw Hl Ht Hc Hs Hh Hf) as (_ & w1 & _ & E & Hw1).
  rewrite Hopen in Hw1. destruct Hw1 as (d & Ed & Hd).
  rewrite (Hd Hall) in Ed. eexists. split; [exact E|].
  pose proof (archive_other l t Hl Ht). pose proof (gz_other l t Hl Ht) as [? ?].
  assert (is_Some (contents w1 !! logfile_ l)) by (rewrite Ed, lookup_insert_ne; eauto).
  rewrite (gzip_ok (gzip := gzip) (archive l t) _ c); rewrite ?truncate_ok, ?Ed by done.
  - rewrite delete_insert_ne, delete_insert_id by done. done.
  - by apply archive_word.
  - by rewrite lookup_insert_ne, lookup_insert_eq.
  - by rewrite !lookup_insert_ne.
Qed.

(** the log is emptied whether or not it could be copied: when the archive cannot be
    opened, the whole log is lost, and the backup reports success. *)
Theorem failed_backup_loses_log fuel t l (w : W) c :
  word (logfile_ l) = true → (length (logfile_ l) ≤ 229)%nat → calendar t →
  contents w !! logfile_ l = Some c → kMinBackupSize ≤ getFileSize l w → tm_hour t = 0 →
  (length c < fuel)%nat → open_write (archive l t) w = None → contents w !! archive l t = None →
  ∃ w', backupLogFile fuel t l w = Ok (Some (true, w')) ∧
    contents w' = <[logfile_ l := []]> (contents w).
Proof.
  intros Hw Hl Ht Hc Hs Hh Hf Hopen Hn.
  destruct (backup_due fuel t l w c Hw Hl Ht Hc Hs Hh Hf) as (_ & w1 & _ & E & Hw1).
  rewrite Hopen in Hw1. subst w1. eexists. split; [exact E|].
  pose proof (archive_other l t Hl Ht).
  rewrite gzip_none; rewrite ?truncate_ok; eauto using archive_word.
  by rewrite lookup_insert_ne.
Qed.
End claims.

(** *** A disk *)

(** Archives are stored as they are, behind two bytes; a full disk takes no new file. *)
Record disk := mkDisk { entries : gmap bytes bytes; full : bool }.
Definition stored (c : bytes) : bytes := 31 :: 139 :: c.

Definition after (prefix cmd : bytes) : option bytes :=
  if decide (take (length prefix) cmd = prefix) then Some (drop (length prefix) cmd) else None.

Definition shell (cmd : bytes) (d : disk) : disk :=
  match after (str "cat /dev/null > ") cmd, after (str "gzip ") cmd with
  | Some p, _ => mkDisk (<[p := []]> (entries d)) (full d)
  | None, Some p =>
      match entries d !! p with
      | Some c => mkDisk (<[gz p := stored c]> (delete p (entries d))) (full d)
      | None => d
      end
  | None, None => d
  end.

#[export] Instance disk_Files : Files disk := {|
  contents := entries;
  open_read p d := bool_decide (is_Some (entries d !! p));
  open_write p d := if full d then None else Some (mkDisk (<[p := []]> (entries d)) (full d));
  read p pos n d :=
    match take n (drop pos (from_option id [] (entries d !! p))) with [] => None | b => Some b end;
  write p b d := mkDisk (<[p := from_option id [] (entries d !! p) ++ b]> (entries d)) (full d);
  get_size p d := (λ c, Z.of_nat (length c)) <$> entries d !! p;
  system := shell;
|}.

Lemma after_app prefix p : after prefix (prefix ++ p) = Some p.
Proof. unfold after. by rewrite take_app_length, drop_app_length, decide_True. Qed.

Lemma shell_gzip p d : shell (str "gzip " ++ p) d =
  match entries d !! p with
  | Some c => mkDisk (<[gz p := stored c]> (delete p (entries d))) (full d)
  | None => d
  end.
Proof.
  unfold shell. rewrite (after_app (str "gzip ")). destruct (after _ _) eqn:E; [|done].
  exfalso. revert E. unfold after. rewrite decide_False; [done|]. discriminate.
Qed.

#[export] Instance disk_FilesOk : FilesOk disk stored.
Proof.
  split.
  - intros p w. apply bool_decide_eq_true.
  - intros p w w'. cbn. destruct (full w); [done|]. by intros [= <-].
  - intros p pos n w c E. cbn in *. by rewrite E.
  - intros p d w c E. exists (length d). cbn in *. by rewrite E, take_ge.
  - intros p w n. cbn. destruct (entries w !! p) eqn:E; [|done]. cbn. intros [= <-]. eauto.
  - intros p w _ _. change (system (str "cat /dev/null > " ++ p) w) with (shell (str "cat /dev/null > " ++ p) w).
    unfold shell. by rewrite after_app.
  - intros p w c _ E _. change (system (str "gzip " ++ p) w) with (shell (str "gzip " ++ p) w).
    cbn in E. by rewrite shell_gzip, E.
  - intros p w _ E. change (system (str "gzip " ++ p) w) with (shell (str "gzip " ++ p) w).
    cbn in E. by rewrite shell_gzip, E.
Qed.

Lemma disk_writes_all : writes_all (W := disk).
Proof. intros p d w c E. cbn in *. by rewrite E. Qed.

Definition the_log : LogFile := mkLogFile (str "log/turnserver.log").
Definition midnight : tm := mkTm 119 6 14 0 0 3.
Definition big : bytes := replicate (Z.to_nat 1500000) 65.
Definition log_disk (full : bool) : disk := mkDisk {[ logfile_ the_log := big ]} full.

Lemma archive_name : archive the_log midnight = str "log/turnserver.log-2019-07-14T00:00:03Z".
Proof. reflexivity. Qed.

Lemma log_disk_size full : kMinBackupSize ≤ getFileSize the_log (log_disk full).
Proof.
  unfold getFileSize, log_disk. cbn [open_read get_size disk_Files entries].
  rewrite lookup_singleton_eq. cbn [fmap option_fmap option_map from_option].
  unfold big. rewrite length_replicate, Z2Nat.id by lia. done.
Qed.

Lemma log_disk_other full p : p ≠ logfile_ the_log → entries (log_disk full) !! p = None.
Proof. intros. by apply lookup_singleton_ne. Qed.

Lemma midnight_calendar : calendar midnight.
Proof. split; cbn; lia. Qed.

Lemma backup_archives_log_witness :
  ∃ w', backupLogFile (S (length big)) midnight the_log (log_disk false) = Ok (Some (true, w')) ∧
    entries w' !! str "log/turnserver.log-2019-07-14T00:00:03Z.gz" = Some (stored big) ∧
    entries w' !! logfile_ the_log = Some [].
Proof.
  destruct (backup_archives_log (S (length big)) midnight the_log (log_disk false)
    (mkDisk (<[archive the_log midnight := []]> (entries (log_disk false))) false) big)
    as (w' & E & Ec).
  - reflexivity.
  - cbn. lia.
  - apply midnight_calendar.
  - apply lookup_singleton_eq.
  - apply log_disk_size.
  - reflexivity.
  - apply Nat.lt_succ_diag_r.
  - apply disk_writes_all.
  - reflexivity.
  - apply log_disk_other. discriminate.
  - apply log_disk_other. discriminate.
  - exists w'. split; [exact E|]. cbn [contents disk_Files] in Ec. rewrite Ec.
    change (str "log/turnserver.log-2019-07-14T00:00:03Z.gz") with (gz (archive the_log midnight)).
    split; [apply lookup_insert_eq|]. rewrite lookup_insert_ne by discriminate. apply lookup_insert_eq.
Defined.

Lemma failed_backup_loses_log_witness :
  ∃ w', backupLogFile (S (length big)) midnight the_log (log_disk true) = Ok (Some (true, w')) ∧
    entries w' !! logfile_ the_log = Some [].
Proof.
  destruct (failed_backup_loses_log (S (length big)) midnight the_log (log_disk true) big)
    as (w' & E & Ec).
  - reflexivity.
  - cbn. lia.
  - apply midnight_calendar.
  - apply lookup_singleton_eq.
  - apply log_disk_size.
  - reflexivity.
  - apply Nat.lt_succ_diag_r.
  - reflexivity.
  - apply log_disk_other. discriminate.
  - exists w'. split; [exact E|]. cbn [contents disk_Files] in Ec. rewrite Ec. apply lookup_insert_eq.
Defined.
