(* ===== verification/UniLbsWorker.v ===== *)
(** * UniLbsWorker: the class of turnserver_main.cc that registers the server

    [UniLbsWorker] owns the [UniLbsClient] and is its visitor: it makes the client join
    the one LBS whose address the program has, answers for the load of the server with
    the counters of the TURN server, and moves the log when it does so.

    [cricket::TurnServer], [base::SystemInfo] and [inet_aton] are not in the repository
    or are libc's: what they answer is part of the visitor's state or an argument. *)

From Stdlib Require Import String.
From stdpp Require Import gmap.
From S2P Require Import Prelude Bytes Packer Unpacker Protocols Addresses TcpConnection TcpClient.
From S2P Require Import UniLbsConnection UniLbsClient LogFile.

(** [UniLbsClientConstants], [kTurnServerVer] and base/config.h. *)
Definition kLbsAddr : bytes := str "42.81.206.84".
Definition kServiceName : bytes := str "web_cloud_proxy_service".
Definition kTurnServerVer : bytes := str "turnserverVersion1.1.0".
Definition kLbsEdgeServicePort : Z := 3100.

Section worker.
Context {W : Type} `{Files W} `{IterationOrder}.
Context (inet_aton : bytes → option Z).        (* network order *)

(** What the visitor reads and changes: the counters of the TURN server and of the
    process, the time and the files. *)
Record Owner := mkOwner {
  channel_count : Z;
  send_bandwidth : Z;
  recv_bandwidth : Z;
  cpu_usage : Z;
  gmtime : tm;
  files : W;
}.

(** [log_file_.backupLogFile()]; its answer is not looked at. *)
Definition kLog : LogFile := mkLogFile (str "log/turnserver.log").
Definition backup (o : Owner) : result W :=
  r ← backupLogFile (S (length (default [] (contents (files o) !! logfile_ kLog)))) (gmtime o) kLog (files o);
  Ok (from_option snd (files o) r).

(** [OnEdgeServerPerformanceRequired]: users, cpu, rx_kbps, tx_kbps, as [uint32_t]. *)
Definition OnEdgeServerPerformanceRequired (o : Owner) : result (Owner * (Z * Z * Z * Z)) :=
  let user_count := u32 (channel_count o) in
  let cpu_percentage := u32 (cpu_usage o) in
  let tx_kbps := u32 (send_bandwidth o) in
  let rx_kbps := u32 (recv_bandwidth o) in
  w ← backup o;
  Ok (mkOwner (channel_count o) (send_bandwidth o) (recv_bandwidth o) (cpu_usage o) (gmtime o) w,
      (user_count, cpu_percentage, rx_kbps, tx_kbps)).

(** The visitor's functions do not fault ([performance_total]). *)
Definition visitor : Visitor Owner :=
  mkVisitor
    (λ o, match OnEdgeServerPerformanceRequired o with Ok r => r | Err _ => (o, (0, 0, 0, 0)) end)
    (λ o, (o, []))
    (λ o _ _, Ok (o, []))
    (λ o _, o).

(** [UniLbsWorker]; a thread that was started is joinable. *)
Record UniLbsWorker := mkUniLbsWorker {
  port_ : Z;
  network_thread_ : bool;
  test_thread_ : bool;
  vecAddresses : list NewSockAddress4;
  uni_lbs_client_ : option (LbsClient Owner);
}.

Definition make (port : Z) : UniLbsWorker := mkUniLbsWorker port false false [] None.

(** [AddToUniLbs]: [tick] is [TickInMilliSeconds()], [ips] what the empty host name
    resolves to; the answer of the function is 0 in both cases. *)
Definition AddToUniLbs (ts : nat → attempt) (tick now : Z) (ips : list Z) (o : Owner) (w : UniLbsWorker)
    : result (Z * UniLbsWorker) :=
  let service_id := u32 tick in
  let c := UniLbsClient.Create [] kServiceName kLbsEdgeServicePort kTurnServerVer now o in
  match inet_aton kLbsAddr with
  | None => Ok (0, mkUniLbsWorker (port_ w) (network_thread_ w) (test_thread_ w) (vecAddresses w) (Some c))
  | Some ip =>
      let lbs_addr := mkNewSockAddress4 (ntohl ip) (u16 kLbsEdgeServicePort) in
      let addresses := vecAddresses w ++ [lbs_addr] in
      c ← SetServiceInformation visitor ts ips service_id (port_ w) c;
      c ← UpdateLbsAddresses visitor ts addresses c;
      Ok (0, mkUniLbsWorker (port_ w) (network_thread_ w) (test_thread_ w) addresses (Some c))
  end.

Definition Run (ts : nat → attempt) (tick now : Z) (ips : list Z) (o : Owner) (w : UniLbsWorker)
    : result UniLbsWorker :=
  '(_, w) ← AddToUniLbs ts tick now ips o w;
  Ok (mkUniLbsWorker (port_ w) true true (vecAddresses w) (uni_lbs_client_ w)).

(** The members are destroyed in reverse order: the destructor of a joinable
    [std::thread] ends the program. *)
Inductive ended := Destroyed | Terminated.
Definition destroy (w : UniLbsWorker) : ended :=
  if test_thread_ w then Terminated else if network_thread_ w then Terminated else Destroyed.

Definition OnChannelCreated (ch : ChannelInfo) (w : UniLbsWorker) : result UniLbsWorker :=
  match uni_lbs_client_ w with
  | None => Err NullDeref
  | Some c =>
      c ← DoChannelCreate ch c;
      Ok (mkUniLbsWorker (port_ w) (network_thread_ w) (test_thread_ w) (vecAddresses w) (Some c))
  end.
Definition OnChannelDestroyed (ch : ChannelInfo) (w : UniLbsWorker) : result UniLbsWorker :=
  match uni_lbs_client_ w with
  | None => Err NullDeref
  | Some c =>
      c ← DoChannelDestroy ch c;
      Ok (mkUniLbsWorker (port_ w) (network_thread_ w) (test_thread_ w) (vecAddresses w) (Some c))
  end.

(** ** The visitor *)

Context {gzip : bytes → bytes} `{!FilesOk W gzip}.

(** A backup of the log of the program does not fault and ends. *)
Lemma backup_total o : calendar (gmtime o) → ∃ w, backup o = Ok w.
Proof.
  intros Ht. unfold backup.
  destruct ((getFileSize kLog (files o) <? kMinBackupSize) || negb (tm_hour (gmtime o) =? 0)) eqn:E.
  { unfold backupLogFile. rewrite E. by eexists. }
  apply orb_false_iff in E as [E1%Z.ltb_ge E2]. apply negb_false_iff, Z.eqb_eq in E2.
  assert (is_Some (contents (files o) !! logfile_ kLog)) as [c Hc].
  { unfold getFileSize in E1. destruct (open_read (logfile_ kLog) (files o)) eqn:Eo; [|done].
    by apply open_read_ok in Eo. }
  destruct (backup_due (S (length (default [] (contents (files o) !! logfile_ kLog)))) (gmtime o) kLog (files o) c)
    as (_ & w1 & _ & E & _); try done.
  - cbn. lia.
  - rewrite Hc. cbn. lia.
  - rewrite E. by eexists.
Qed.

(** What is reported: the low 32 bits of the counters. *)
Lemma performance_total o : calendar (gmtime o) →
  ∃ o', VisitPerformance visitor o = (o',
    (u32 (channel_count o), u32 (cpu_usage o), u32 (recv_bandwidth o), u32 (send_bandwidth o))) ∧
    OnEdgeServerPerformanceRequired o = Ok (VisitPerformance visitor o).
Proof.
  intros Ht. destruct (backup_total o Ht) as [w E]. cbn. unfold OnEdgeServerPerformanceRequired.
  rewrite E. eexists. split; reflexivity.
Qed.

Lemma visitor_ok cfg : u32_ok (UniLbsConnection.service_id_ cfg) → EventCallbackOk cfg (client_events visitor).
Proof.
  intros Hid. split; try by constructor.
  - by intros v u uri v' ps [= _ <-].
  - intros v. cbn. unfold OnEdgeServerPerformanceRequired.
    destruct (backup v); cbn; split_and!; apply u32_bound || done.
Qed.

(** ** Registration *)

(** Setting the service information is invisible to the invariant. *)
Lemma set_service_inv {V} id port iv t (c : LbsClient V) : client_inv c → client_inv (set_service id port iv t c).
Proof. intros [H1 H2 H3]. by split. Qed.

Lemma create_client_inv host name port ver now (o : Owner) : 0 ≤ now → now + kMaxTimeout < 2 ^ 31 →
  client_inv (UniLbsClient.Create host name port ver now o).
Proof.
  intros H1 H2. split; [split| |]; cbn; try done.
  - intros i. split; [by intros [? ?]|]. intros ([] & ip & E); discriminate E.
  - intros [] ip1 b2 ip2 i E; discriminate E.
Qed.

(** A reload, for a client all of whose connections have its configuration. *)
Lemma reload_alike ts addrs (c : LbsClient Owner) :
  cfg_ok (config c) → client_inv c → Forall (λ a, u32_ok (ip_ a)) addrs →
  (∀ i x, objs c !! i = Some x → fst x = config c) →
  ∃ c', ReloadLbsAddresses visitor ts addrs c = Ok c' ∧ client_inv c' ∧
    (∀ ip, is_Some (connections_ c' !! ip) ↔ ip ∈ ip_ <$> addrs) ∧
    (∀ i x, objs c' !! i = Some x → fst x = config c) ∧ config c' = config c ∧ timer_ c' = timer_ c.
Proof.
  intros Hcfg Hc Ha Hall.
  destruct (reload_in_step visitor c ts addrs (visitor_ok _ (proj1 Hcfg)) Hcfg Hc Ha)
    as (c' & E & Hc' & Hin & Hkept & _ & Hnew & Hobjs).
  exists c'. split; [done|]. split; [done|]. split; [done|]. split.
  - intros i x Hx. destruct (proj1 (Hobjs i)) as [ip Hip]; [eauto|].
    assert (ip ∈ ip_ <$> addrs) as Hl by (apply Hin; eauto).
    destruct (connections_ c !! ip) as [[j|]|] eqn:Ec.
    + destruct (Hkept ip j Ec Hl) as [E1 E2]. rewrite Hip in E1. injection E1 as ->.
      rewrite Hx in E2. unfold present_store in E2. rewrite lookup_fmap in E2.
      destruct (objs c !! j) as [y|] eqn:Ey; [|done]. injection E2 as ->. cbn. by apply (Hall j).
    + by destruct (ci_full c Hc ip).
    + destruct (Hnew ip Ec Hl) as (k & s & E1 & _ & E2 & _). rewrite Hip in E1. injection E1 as ->.
      rewrite Hx in E2. by injection E2 as ->.
  - revert E. unfold ReloadLbsAddresses. destruct (reload_all _ _ _ _) as [r|]; [|done]. cbn [mbind result_bind].
    destruct (destroy_all _ _) as [m|]; [|done]. cbn [mbind result_bind]. by intros [= <-].
Qed.

(** What [AddToUniLbs] does with the client. *)
Lemma AddToUniLbs_ok ts tick now ips o port a :
  0 ≤ now → now + kMaxTimeout < 2 ^ 31 → u16_ok port → Forall u32_ok ips → inet_aton kLbsAddr = Some a →
  ∃ c w, AddToUniLbs ts tick now ips o (make port) = Ok (0, w) ∧ uni_lbs_client_ w = Some c ∧
    client_inv c ∧ timer_ c = None ∧
    (∀ ip, is_Some (connections_ c !! ip) ↔
       if u32 tick =? 0 then ip ∈ match ips with [] => [INADDR_LOOPBACK] | _ => ips end else ip = ntohl a) ∧
    (∀ i x, objs c !! i = Some x → fst x = mkLbsConfig (u32 tick) port kServiceName kTurnServerVer).
Proof.
  intros Hn1 Hn2 Hp Hips Ha. unfold AddToUniLbs. rewrite Ha. cbn [vecAddresses make List.app port_].
  set (c0 := UniLbsClient.Create _ _ _ _ now o).
  set (hosts := match ips with [] => [INADDR_LOOPBACK] | _ => ips end).
  assert (Forall u32_ok hosts) as Hhosts by (unfold hosts; destruct ips; [by repeat constructor|done]).
  set (c1 := set_service (u32 tick) port (reloading_interval_ c0) (timer_ c0) c0).
  assert (client_inv c1) as Hc1 by (by apply set_service_inv, create_client_inv).
  assert (config c1 = mkLbsConfig (u32 tick) port kServiceName kTurnServerVer) as Hcfg.
  { unfold config. cbn. by rewrite u16_small. }
  assert (cfg_ok (config c1)) as Hok.
  { rewrite Hcfg. split; [apply u32_bound|]. split; [done|]. split; split; try done;
      by apply (bool_decide_unpack (bytes_ok _)). }
  destruct (reload_alike ts ((λ ip, mkNewSockAddress4 ip (lbs_port_ c1)) <$> hosts) c1 Hok Hc1)
    as (c2 & E2 & Hc2 & Hin2 & Hall2 & Hcfg2 & _); [by apply Forall_fmap|done|].
  set (c3 := set_service (service_id_ c2) (service_port_ c2) (reloading_interval_ c2) None c2).
  assert (client_inv c3) as Hc3 by (by apply set_service_inv).
  assert (service_id_ c2 = u32 tick) as Hid.
  { change (service_id_ c2) with (UniLbsConnection.service_id_ (config c2)). by rewrite Hcfg2, Hcfg. }
  assert (SetServiceInformation visitor ts ips (u32 tick) port c0 = Ok (set_service (service_id_ c2)
    (service_port_ c2) (reloading_interval_ c2) (Some (u32 (reloading_interval_ c2 * 1000))) c2)) as ->.
  { unfold SetServiceInformation, ReloadLbsHosts. fold c1 hosts. by rewrite E2. }
  rewrite bind_ok.
  assert (∀ l, UpdateLbsAddresses visitor ts l (set_service (service_id_ c2) (service_port_ c2)
    (reloading_interval_ c2) (Some (u32 (reloading_interval_ c2 * 1000))) c2) =
    if u32 tick =? 0 then Ok c3 else ReloadLbsAddresses visitor ts l c3) as ->.
  { intros l. rewrite <- Hid. reflexivity. }
  destruct (u32 tick =? 0).
  - exists c3. eexists. split; [reflexivity|]. split; [done|]. split; [done|]. split; [done|]. split.
    + intros ip. change (connections_ c3) with (connections_ c2). rewrite (Hin2 ip), <- list_fmap_compose. unfold compose. cbn. by rewrite list_fmap_id.
    + rewrite <- Hcfg. exact Hall2.
  - destruct (reload_alike ts [mkNewSockAddress4 (ntohl a) (u16 kLbsEdgeServicePort)] c3)
      as (c4 & E4 & Hc4 & Hin4 & Hall4 & Hcfg4 & Ht4).
    + change (config c3) with (config c2). by rewrite Hcfg2.
    + done.
    + repeat constructor; cbn; apply ntohl_bound.
    + change (config c3) with (config c2). rewrite Hcfg2. exact Hall2.
    + rewrite E4, bind_ok. exists c4. eexists. split; [reflexivity|]. split; [done|]. split; [done|].
      split; [done|]. split.
      * intros ip. rewrite (Hin4 ip). cbn. by rewrite list_elem_of_singleton.
      * rewrite <- Hcfg, <- Hcfg2. exact Hall4.
Qed.

End worker.

#[local] Existing Instance map_order.

(** [inet_aton] of the one address of the program. *)
Definition its_address (s : bytes) : option Z :=
  if decide (s = kLbsAddr) then Some (htonl 0x2a51ce54) else None.
Definition demo_owner : Owner := mkOwner 3 10 20 5 midnight (log_disk false).

