(* ===== verification/TurnServerMain.v ===== *)
(** * TurnServerMain: the functions of turnserver_main.cc

    The external address is read from the output of a program ([GetExternIP]), the key
    of a user from a file of options ([TurnFileAuth]); [main] checks its arguments, binds
    its sockets, finds its process id in the output of another program, and starts the
    objects that [ElbsConnection], [Worker] and [UniLbsWorker] model.

    The answers of libjingle, of the name resolver and of [popen] are arguments. *)

From Stdlib Require Import String.
From stdpp Require Import gmap.
From S2P Require Import Prelude Bytes Double Addresses TcpClient UniLbsClient LogFile UniLbsWorker.

(** ** Streams and strings *)

(** [fgets] with room for [n] characters: a line with its end, or a part of one. *)
Fixpoint fgets (n : nat) (s : bytes) : bytes * bytes :=
  match n, s with
  | O, _ => ([], s)
  | _, [] => ([], [])
  | S n, c :: s =>
      if c =? 10 then ([c], s)
      else let '(l, rest) := fgets n s in (c :: l, rest)
  end.

(** [std::string::find] and [find_last_of] of one character; None: npos. *)
Fixpoint find (pat s : bytes) : option nat :=
  if bool_decide (take (length pat) s = pat) then Some 0%nat
  else match s with [] => None | _ :: s => S <$> find pat s end.
Fixpoint find_last_of (c : Z) (s : bytes) : option nat :=
  match s with
  | [] => None
  | x :: s =>
      match find_last_of c s with
      | Some n => Some (S n)
      | None => if x =? c then Some 0%nat else None
      end
  end.

(** ** GetExternIP *)

(** The body of the loop: None, when the line does not speak of an IP. *)
Definition parse_line (buf : bytes) : option bytes :=
  match find (str "IP") buf with
  | None => None
  | Some pos =>
      let remain := drop (pos + 2) buf in
      match find_last_of 32 remain with
      | None => Some []
      | Some pos =>
          let ipstr := drop (pos + 1) remain in
          match find [10] ipstr with
          | Some pos => Some (take pos ipstr)
          | None => Some ipstr
          end
      end
  end.

(** The loop; None: out of fuel. *)
Fixpoint scan (fuel : nat) (fp : bytes) : option bytes :=
  match fuel with
  | O => None
  | S fuel =>
      match fp with
      | [] => Some []
      | _ =>
          let '(buffer, fp) := fgets 255 fp in
          match parse_line (c_str buffer) with
          | Some extIp => Some extIp
          | None => scan fuel fp
          end
      end
  end.

(** [fp] is what the program prints, None when it cannot be started: the null stream is
    read from. *)
Definition GetExternIP (fp : option bytes) : result (option bytes) :=
  match fp with
  | None => Err NullDeref
  | Some s => Ok (scan (S (length s)) s)
  end.

(** ** TurnFileAuth *)

(** [GetKey]: the options of the file, and libjingle's [hex_decode] with the size of the
    buffer; None: the user is not in the file. *)
Definition GetKey (GetStringValue : bytes → option bytes) (hex_decode : nat → bytes → bytes)
    (username : bytes) : option bytes :=
  hex ← GetStringValue username;
  Some (hex_decode 32%nat hex).

(** [resolve_host]: [gethostbyname]'s list of addresses. *)
Definition resolve_host (gethostbyname : bytes → option (list Z)) (host : bytes) : list Z :=
  match gethostbyname host with None => [] | Some h_addr_list => h_addr_list end.

(** ** main *)

(** [atoi]; of at most nine characters, so that the value is an [int]. *)
Definition is_space (c : Z) : bool := (c =? 32) || (9 <=? c) && (c <=? 13).
Fixpoint skip_space (s : bytes) : bytes :=
  match s with c :: r => if is_space c then skip_space r else s | [] => [] end.
Fixpoint decimal (n : Z) (s : bytes) : Z :=
  match s with c :: s => if (48 <=? c) && (c <=? 57) then decimal (n * 10 + (c - 48)) s else n | [] => n end.
Definition atoi (s : bytes) : Z :=
  match skip_space s with
  | c :: r => if c =? 45 then - decimal 0 r else if c =? 43 then decimal 0 r else decimal 0 (c :: r)
  | [] => 0
  end.

(** The loop over the process ids: the last one stays; None: out of fuel. *)
Fixpoint last_pid (fuel : nat) (pid : Z) (fp : bytes) : option Z :=
  match fuel with
  | O => None
  | S fuel =>
      match fp with
      | [] => Some pid
      | _ => let '(buffer, fp) := fgets 9 fp in last_pid fuel (atoi (c_str buffer)) fp
      end
  end.

(** The command, around the name of the program. *)
Definition ps_command (argv0 : bytes) : bytes :=
  str "ps -ef | grep " ++ argv0 ++ str " | grep -v " ++ [34] ++ str "grep" ++ [34] ++
  str " | grep -v " ++ [34] ++ str ".sh" ++ [34] ++ str " | awk '{print $2}'".

Record Answers := mkAnswers {
  FromString : bytes → option Z;         (* an address: its port *)
  curl : option bytes;                   (* the output of "curl cip.cc" *)
  IPFromString : bytes → bool;
  udp_created : bool;
  tcp_created : bool;
  tcp_bind : Z;
  tcp_listen : Z;
  ps : option bytes;                     (* the output of the command *)
}.

(** What [main] has set up before the threads run. *)
Record Server := mkServer {
  udpport : Z;
  tcpport : Z;
  pid : Z;
  ext_addr : bytes;
  realm : bytes;
  auth_file : bytes;
}.

(** [_Exit(0)], [return], and the end by [std::terminate]. *)
Inductive outcome :=
  | Exited
  | Returned (code : Z)
  | Aborted (s : Server).

Section main.
Context {W : Type} `{Files W} `{IterationOrder}.
Context (inet_aton : bytes → option Z).
Context (a : Answers).

(** From the start of the network loop to the end, when the main thread has been told to
    quit and [turn_worker] is destroyed. *)
Definition serve (ts : nat → attempt) (tick now : Z) (ips : list Z) (o : Owner (W := W)) (s : Server)
    : result outcome :=
  turn_worker ← Run inet_aton ts tick now ips o (make (udpport s));
  match destroy turn_worker with
  | Terminated => Ok (Aborted s)
  | Destroyed => Ok (Returned 0)
  end.

(** None: out of fuel. *)
Definition main (ts : nat → attempt) (tick now : Z) (ips : list Z) (o : Owner (W := W)) (argv : list bytes)
    : result (option outcome) :=
  match argv with
  | argv0 :: argv1 :: rest =>
      if bool_decide (c_str argv1 = str "-v") then Ok (Some Exited)
      else
        match rest with
        | argv2 :: _ :: argv4 :: argv5 :: _ =>
            match FromString a argv1 with
            | None => Ok (Some (Returned 1))
            | Some udpport =>
            match FromString a argv2 with
            | None => Ok (Some (Returned 1))
            | Some tcpport =>
            extaddr ← GetExternIP (curl a);
            match extaddr with
            | None => Ok None
            | Some extaddr_str =>
            if negb (IPFromString a extaddr_str) then Ok (Some (Returned 1))
            else if negb (udp_created a) then Ok (Some (Returned 1))
            else if negb (tcp_created a) then Ok (Some (Returned 1))
            else if negb (tcp_bind a =? 0) then Ok (Some (Returned 1))
            else if negb (tcp_listen a =? 0) then Ok (Some (Returned 1))
            else
              _ ← sprintf 256 (ps_command (c_str argv0));
              match ps a with
              | None => Err NullDeref
              | Some fp =>
                  match last_pid (S (length fp)) 0 fp with
                  | None => Ok None
                  | Some pid =>
                      r ← serve ts tick now ips o
                            (mkServer (u16 udpport) (u16 tcpport) pid extaddr_str (c_str argv4) (c_str argv5));
                      Ok (Some r)
                  end
              end
            end end end
        | _ => Ok (Some (Returned 1))
        end
  | _ => Ok (Some (Returned 1))
  end.
End main.

(** ** Reading lines *)

Lemma fgets_shrinks n c s : (length (fgets (S n) (c :: s)).2 < length (c :: s))%nat.
Proof.
  assert (∀ n s, (length (fgets n s).2 ≤ length s)%nat) as Hle.
  { intros m t. revert m. induction t as [|x t IH]; intros [|m]; cbn; try lia.
    case_match; cbn; [lia|]. specialize (IH m). destruct (fgets m t). cbn in *. lia. }
  cbn. case_match; cbn; [lia|]. specialize (Hle n s). destruct (fgets n s). cbn in *. lia.
Qed.

(** A line that fits is read with its end. *)
Lemma fgets_line n l rest : 10 ∉ l → (length l < n)%nat → fgets n (l ++ 10 :: rest) = (l ++ [10], rest).
Proof.
  revert n. induction l as [|c l IH]; intros [|n] Hl Hn; cbn in Hn; try lia; [done|].
  apply not_elem_of_cons in Hl as [Hc Hl]. cbn. rewrite (proj2 (Z.eqb_neq _ _)) by done.
  rewrite IH by (done || lia). done.
Qed.

(** Both loops end. *)
Lemma scan_ends fuel fp : (length fp < fuel)%nat → is_Some (scan fuel fp).
Proof.
  revert fp. induction fuel as [|fuel IH]; intros fp Hf; [lia|]. cbn [scan].
  destruct fp as [|c s]; [by eexists|]. pose proof (fgets_shrinks 254 c s) as Hs.
  destruct (fgets 255 (c :: s)) as [l r]. cbn in Hs, Hf. case_match; [by eexists|]. apply IH. lia.
Qed.
Lemma last_pid_ends fuel n fp : (length fp < fuel)%nat → is_Some (last_pid fuel n fp).
Proof.
  revert n fp. induction fuel as [|fuel IH]; intros n fp Hf; [lia|]. cbn [last_pid].
  destruct fp as [|c s]; [by eexists|]. pose proof (fgets_shrinks 8 c s) as Hs.
  destruct (fgets 9 (c :: s)) as [l r]. cbn in Hs, Hf. apply IH. lia.
Qed.

Lemma scan_nil fuel : (0 < fuel)%nat → scan fuel [] = Some [].
Proof. by destruct fuel; [lia|]. Qed.

Lemma scan_line fuel l rest : 10 ∉ l → (length l < 255)%nat →
  scan (S fuel) (l ++ 10 :: rest) =
    match parse_line (c_str (l ++ [10])) with Some ip => Some ip | None => scan fuel rest end.
Proof.
  intros Hl Hn. cbn [scan]. rewrite fgets_line by done. by destruct l.
Qed.

Lemma last_pid_line fuel n l rest : 10 ∉ l → (length l < 9)%nat →
  last_pid (S fuel) n (l ++ 10 :: rest) = last_pid fuel (atoi (c_str (l ++ [10]))) rest.
Proof.
  intros Hl Hn. cbn [last_pid]. rewrite fgets_line by done. by destruct l.
Qed.

Lemma find_last_of_app c s t : c ∉ t → find_last_of c (s ++ c :: t) = Some (length s).
Proof.
  intros Ht. induction s as [|x s IH]; cbn.
  - assert (find_last_of c t = None) as ->.
    { induction t as [|x t IH]; [done|]. apply not_elem_of_cons in Ht as [Hx Ht]. cbn.
      rewrite IH by done. by rewrite (proj2 (Z.eqb_neq _ _)). }
    by rewrite Z.eqb_refl.
  - by rewrite IH.
Qed.

Lemma find_here pat t : find pat (pat ++ t) = Some 0%nat.
Proof. destruct (pat ++ t) eqn:E; cbn; rewrite <- E, take_app_length, bool_decide_true; done. Qed.

Lemma find_char c s t : c ∉ s → find [c] (s ++ c :: t) = Some (length s).
Proof.
  induction s as [|x s IH]; intros Hs; cbn.
  - by rewrite take_0, bool_decide_true.
  - apply not_elem_of_cons in Hs as [Hx Hs]. rewrite take_0, bool_decide_false by congruence.
    by rewrite IH.
Qed.

(** Text without the ends of lines and strings. *)
Definition plain (l : bytes) : Prop := (10 ∉ l) ∧ (0 ∉ l).

Lemma c_str_line l : plain l → c_str (l ++ [10]) = l ++ [10].
Proof.
  intros [_ H0]. apply c_str_id, Forall_app. split; [|by repeat constructor].
  induction l as [|x l IH]; [constructor|]. apply not_elem_of_cons in H0 as [Hx H0].
  constructor; [congruence|auto].
Qed.

(** [atoi] reads the digits of a number in front of a line end. *)
Lemma decimal_digits ds n : Forall is_digit ds → decimal n (ds ++ [10]) = number ds n.
Proof.
  intros Hd. revert n. induction Hd as [|d ds Hd _ IH]; intros n; [done|].
  unfold is_digit in Hd. cbn [List.app decimal].
  rewrite (proj2 (Z.leb_le 48 d)), (proj2 (Z.leb_le d 57)) by lia. cbn [andb].
  rewrite IH. reflexivity.
Qed.

Lemma atoi_digits p : 0 ≤ p → atoi (digits p ++ [10]) = p.
Proof.
  intros Hp. destruct (digits_spec p Hp) as (Hd & Hn & Hl & _). unfold atoi.
  destruct (digits p) as [|d ds] eqn:E; [cbn in Hl; lia|].
  pose proof (decimal_digits (d :: ds) 0 Hd) as Hdec. rewrite Hn in Hdec.
  apply Forall_cons_1 in Hd as [Hd _]. unfold is_digit in Hd.
  cbn [List.app skip_space]. unfold is_space.
  rewrite (proj2 (Z.eqb_neq d 32)), (proj2 (Z.leb_gt d 13)), andb_false_r by lia. cbn [orb].
  rewrite (proj2 (Z.eqb_neq d 45)), (proj2 (Z.eqb_neq d 43)) by lia. exact Hdec.
Qed.

Lemma digits_line p : 0 ≤ p → plain (digits p).
Proof.
  intros Hp. destruct (digits_spec p Hp) as (Hd & _).
  split; intros Hin; apply list_elem_of_In in Hin; apply (proj1 (Forall_forall _ _) Hd) in Hin;
    unfold is_digit in Hin; lia.
Qed.

(** Lines, each with its end. *)
Definition lines (ls : list bytes) : bytes := concat ((λ l, l ++ [10]) <$> ls).

Lemma lines_cons l ls rest : lines (l :: ls) ++ rest = l ++ 10 :: lines ls ++ rest.
Proof. unfold lines. cbn. by rewrite <- !app_assoc. Qed.

Lemma last_pid_lines fuel n ls p : 0 ≤ p < 10 ^ 8 → Forall (λ l, plain l ∧ (length l < 9)%nat) ls →
  (S (length ls) < fuel)%nat → last_pid fuel n (lines ls ++ digits p ++ [10]) = Some p.
Proof.
  intros Hp Hls. revert fuel n. induction Hls as [|l ls [Hl Hn] _ IH]; intros fuel n Hf; cbn in Hf.
  - destruct fuel as [|[|fuel]]; [lia|lia|]. pose proof (digits_line p (proj1 Hp)) as Hd. pose proof (proj1 Hd).
    assert (Z.of_nat (length (digits p)) ≤ 8) by (apply length_digits_le; lia).
    change (lines [] ++ digits p ++ [10]) with (digits p ++ 10 :: []).
    rewrite last_pid_line by (done || lia). cbn [last_pid].
    rewrite c_str_line by done. rewrite atoi_digits by lia. done.
  - destruct fuel as [|fuel]; [lia|]. rewrite lines_cons, last_pid_line by (done || apply Hl). apply IH. lia.
Qed.

Lemma scan_lines fuel ls rest :
  Forall (λ l, plain l ∧ (length l < 255)%nat ∧ find (str "IP") (l ++ [10]) = None) ls →
  scan (length ls + fuel) (lines ls ++ rest) = scan fuel rest.
Proof.
  induction 1 as [|l ls (Hl & Hn & Hf) _ IH]; [done|].
  cbn [length Nat.add]. rewrite lines_cons, scan_line by (done || apply Hl). rewrite c_str_line by done.
  unfold parse_line. by rewrite Hf.
Qed.

Lemma length_lines ls : (length ls ≤ length (lines ls))%nat.
Proof. induction ls; cbn; [lia|]. unfold lines in *. rewrite !length_app. cbn. lia. Qed.

(** the external address is what follows the last blank of the first line of the output
    that begins with [IP], when no line before it speaks of one and the lines fit the
    buffer; the loop ends on every output, and a command that cannot be started is read
    from through a null pointer. *)
Theorem extern_ip_found ls b addr rest :
  Forall (λ l, plain l ∧ (length l < 255)%nat ∧ find (str "IP") (l ++ [10]) = None) ls →
  plain b → plain addr → 32 ∉ addr → (length b + length addr < 252)%nat →
  GetExternIP (Some (lines ls ++ str "IP" ++ b ++ 32 :: addr ++ 10 :: rest)) = Ok (Some addr) ∧
  (∀ out, ∃ ip, GetExternIP (Some out) = Ok (Some ip)) ∧ GetExternIP None = Err NullDeref.
Proof.
  intros Hls [Hb10 Hb0] [Ha10 Ha0] Ha32 Hlen. split; [|split; [|done]].
  2: { intros out. unfold GetExternIP. destruct (scan_ends (S (length out)) out) as [ip E]; [lia|]. exists ip. by rewrite E. }
  cbn [GetExternIP]. set (line := str "IP" ++ b ++ 32 :: addr).
  replace (str "IP" ++ b ++ 32 :: addr ++ 10 :: rest) with (line ++ 10 :: rest)
    by (unfold line; by rewrite <- !app_assoc).
  assert (plain line) as Hline by (split; unfold line; cbn; rewrite !not_elem_of_cons, not_elem_of_app, not_elem_of_cons; done).
  pose proof (length_lines ls). rewrite length_app.
  generalize (length (line ++ 10 :: rest)). intros m.
  replace (S (length (lines ls) + m)) with (length ls + S (length (lines ls) - length ls + m))%nat by lia.
  rewrite scan_lines, scan_line by (done || apply Hline || (unfold line; rewrite !length_app; cbn; lia)).
  rewrite c_str_line by done.
  unfold parse_line, line. rewrite <- app_assoc, find_here, <- app_assoc.
  replace (drop (0 + 2) (str "IP" ++ b ++ (32 :: addr) ++ [10])) with (b ++ 32 :: addr ++ [10]) by done.
  rewrite find_last_of_app by (rewrite not_elem_of_app, list_elem_of_singleton; done).
  replace (length b + 1)%nat with (length (b ++ [32])) by (rewrite length_app; cbn; lia).
  change (b ++ 32 :: addr ++ [10]) with (b ++ [32] ++ addr ++ [10]). rewrite app_assoc, drop_app_length.
  rewrite find_char by done. by rewrite take_app_length.
Qed.

(** ** main, when everything it asks for succeeds *)

Section started.
Context {W : Type} `{Files W} `{IterationOrder}.
Context (inet_aton : bytes → option Z) (a : Answers).
Context (ts : nat → attempt) (tick now : Z) (ips : list Z) (o : Owner (W := W)).
Context (argv0 argv1 argv2 argv3 argv4 argv5 : bytes).
Context (u t addr p : Z) (ext : bytes) (ls : list bytes).
Context (Hversion : c_str argv1 ≠ str "-v").
Context (Hudp : FromString a argv1 = Some u) (Htcp : FromString a argv2 = Some t).
Context (Hip : GetExternIP (curl a) = Ok (Some ext)) (Hext : IPFromString a ext = true).
Context (Hu : udp_created a = true) (Ht : tcp_created a = true) (Hb : tcp_bind a = 0) (Hl : tcp_listen a = 0).
Context (Hps : ps a = Some (lines ls ++ digits p ++ [10])) (Hp : 0 ≤ p < 10 ^ 8).
Context (Hls : Forall (λ l, plain l ∧ (length l < 9)%nat) ls).
Context (Hnow : 0 ≤ now) (Hlater : now + kMaxTimeout < 2 ^ 31) (Hips : Forall u32_ok ips).
Context (Haddr : inet_aton kLbsAddr = Some addr).

Definition started : Server := mkServer (u16 u) (u16 t) p ext (c_str argv4) (c_str argv5).

Lemma serve_ends : serve inet_aton ts tick now ips o started = Ok (Aborted started).
Proof.
  unfold serve, Run. cbn [udpport started].
  destruct (AddToUniLbs_ok inet_aton ts tick now ips o (u16 u) addr) as (c & w & -> & _);
    [done|done|apply u16_bound|done|done|reflexivity].
Qed.

Lemma main_reaches_ps :
  main inet_aton a ts tick now ips o [argv0; argv1; argv2; argv3; argv4; argv5] =
  (_ ← sprintf 256 (ps_command (c_str argv0)); Ok (Some (Aborted started))).
Proof.
  unfold main. rewrite bool_decide_false, Hudp, Htcp, Hip by done. cbn [mbind result_bind].
  rewrite Hext, Hu, Ht, Hb, Hl, Hps. cbn [negb Z.eqb].
  rewrite last_pid_lines; [|done|done|rewrite !length_app; pose proof (length_lines ls); cbn; lia].
  fold started. by rewrite serve_ends.
Qed.

Lemma length_ps_command s : length (ps_command s) = (66 + length s)%nat.
Proof. unfold ps_command. rewrite !length_app. cbn. lia. Qed.

(** when its arguments and its sockets are good, the program runs with the ports of its
    addresses and the last process id that the command prints, as long as its name has at
    most 189 characters; and it never ends by returning: its network threads are still
    joinable when [turn_worker] is destroyed. *)
Theorem main_serves : (length (c_str argv0) ≤ 189)%nat →
  main inet_aton a ts tick now ips o [argv0; argv1; argv2; argv3; argv4; argv5] = Ok (Some (Aborted started)).
Proof.
  intros Hn. rewrite main_reaches_ps, sprintf_ok; [done|]. rewrite length_ps_command. lia.
Qed.

(** a name of 190 characters or more is written past the end of the command, after the
    sockets have been bound. *)
Theorem long_program_name_overflows : (189 < length (c_str argv0))%nat →
  main inet_aton a ts tick now ips o [argv0; argv1; argv2; argv3; argv4; argv5] = Err OutOfBounds.
Proof.
  intros Hn. rewrite main_reaches_ps. unfold sprintf. rewrite length_ps_command.
  by rewrite (proj2 (Nat.ltb_ge _ _)) by lia.
Qed.
End started.

#[local] Existing Instance map_order.

(** *** A run *)

Definition cip : bytes := lines [str "# cip.cc"; str "IP : 203.0.113.7"; str "address : somewhere"].
Definition demo_answers : Answers :=
  mkAnswers (λ _, Some 3478) (Some cip) (λ _, true) true true 0 0 (Some (lines [str "77"; str "4242"])).

Lemma plain_check l : bool_decide (10 ∉ l) && bool_decide (0 ∉ l) = true → plain l.
Proof. intros [H1 H2]%andb_true_iff. apply bool_decide_eq_true in H1, H2. by split. Qed.

Lemma extern_ip_found_witness :
  GetExternIP (Some (lines [str "# cip.cc"] ++ str "IP" ++ str " :" ++ 32 :: str "203.0.113.7" ++ 10 :: str "x"))
    = Ok (Some (str "203.0.113.7")).
Proof.
  apply (extern_ip_found [str "# cip.cc"] (str " :") (str "203.0.113.7") (str "x")).
  - constructor; [|constructor]. split; [by apply plain_check|]. split; [cbn; lia|reflexivity].
  - by apply plain_check.
  - by apply plain_check.
  - apply (bool_decide_unpack _). reflexivity.
  - cbn. lia.
Defined.

Lemma main_serves_witness :
  main its_address demo_answers (λ _, try_ok) 123456 1000 [] demo_owner
    [str "./turnserver"; str "10.0.0.1:3478"; str "10.0.0.1:3478"; str "x"; str "realm"; str "auth"] =
  Ok (Some (Aborted (mkServer 3478 3478 4242 (str "203.0.113.7") (str "realm") (str "auth")))).
Proof.
  apply (main_serves its_address demo_answers (λ _, try_ok) 123456 1000 [] demo_owner (str "./turnserver")
    (str "10.0.0.1:3478") (str "10.0.0.1:3478") (str "x") (str "realm") (str "auth") 3478 3478
    (htonl 0x2a51ce54) 4242 (str "203.0.113.7") [str "77"]);
    first [reflexivity | discriminate | unfold kMaxTimeout; lia | by constructor | idtac].
  - constructor; [|constructor]. split; [by apply plain_check|cbn; lia].
  - vm_compute. lia.
Defined.

Definition long_name : bytes := str "/" ++ replicate 190 97.
Lemma long_program_name_overflows_witness :
  main its_address demo_answers (λ _, try_ok) 123456 1000 [] demo_owner
    [long_name; str "10.0.0.1:3478"; str "10.0.0.1:3478"; str "x"; str "realm"; str "auth"] = Err OutOfBounds.
Proof.
  apply (long_program_name_overflows its_address demo_answers (λ _, try_ok) 123456 1000 [] demo_owner long_name
    (str "10.0.0.1:3478") (str "10.0.0.1:3478") (str "x") (str "realm") (str "auth") 3478 3478
    (htonl 0x2a51ce54) 4242 (str "203.0.113.7") [str "77"]);
    first [reflexivity | discriminate | unfold kMaxTimeout; lia | by constructor | idtac].
  - constructor; [|constructor]. split; [by apply plain_check|cbn; lia].
Defined.
