(* ===== verification/Logging.v ===== *)
(** * Logging: the library under logging/

    Which messages are written.  [Syslog] is syslog_log.h, syslog_log.cpp and safe_log.h:
    messages above the enabled level are sampled by a counter.  [Glog] is glog_log.h and
    glog_log.cpp: the flags that [LoggingGuard] sets, the arguments it reads back from
    /proc, and [StringFormat].  logging/log.h chooses one of the two.  What syslog and glog
    do with a message is not the program's. *)

From Stdlib Require Import String.
From S2P Require Import Prelude Bytes.

Module Syslog.

Definition kDebugLog : Z := 7.
Definition kInfoLog : Z := 6.
Definition kNoticeLog : Z := 5.
Definition kWarnLog : Z := 4.
Definition kErrorLog : Z := 3.
Definition kFatalLog : Z := 2.

Record Logger := mkLogger {
  g_enabled_level : Z;
  g_logging_count : Z;         (* uint64_t *)
  g_logging_out_streak : Z;    (* uint32_t *)
}.
Definition kDropInterval : Z := 50000.
Definition initial : Logger := mkLogger kInfoLog 0 2.

Definition EnableDebugLogging (enabled : bool) (g : Logger) : Logger :=
  mkLogger (if enabled then kDebugLog else kInfoLog) (g_logging_count g) (g_logging_out_streak g).
Definition SetLoggingStreak (streak : Z) (g : Logger) : bool * Logger :=
  if kDropInterval <? streak then (false, mkLogger (g_enabled_level g) (g_logging_count g) kDropInterval)
  else (true, mkLogger (g_enabled_level g) (g_logging_count g) streak).
Definition IsLoggingEnabled (level : Z) (g : Logger) : bool * Logger :=
  if level <=? g_enabled_level g then (true, g)
  else
    let count := u64 (g_logging_count g + 1) in
    (count mod kDropInterval <? g_logging_out_streak g,
     mkLogger (g_enabled_level g) count (g_logging_out_streak g)).

(** What is passed to syslog: a level and a text. *)
Abbreviation entry := (Z * bytes)%type.

Definition Log (level : Z) (text : bytes) (g : Logger) : list entry * Logger :=
  let '(enabled, g) := IsLoggingEnabled level g in
  if negb enabled then ([], g) else ([(level, text)], g).

(** The macros; [LOG2] writes the place before the text. *)
Definition place (file : bytes) (line : Z) (digits : Z → bytes) : bytes :=
  file ++ [58] ++ digits line ++ [58; 32].
Definition LOG_IF2 (level : Z) (cond : bool) (text : bytes) (g : Logger) : list entry * Logger :=
  if cond then Log level text g else ([], g).
Definition LOG2 (level : Z) (text : bytes) (g : Logger) : list entry * Logger :=
  let '(enabled, g) := IsLoggingEnabled level g in LOG_IF2 level enabled text g.
(** The counter of the place in the program comes back; N is not 0. *)
Definition LOG_EVERY_N2 (level N : Z) (text : bytes) (count : Z) (g : Logger) : Z * (list entry * Logger) :=
  let count := u32 (count + 1) in
  (count, if count mod N =? 0 then LOG2 level text g else ([], g)).

(** [SafeLogger] collects a text, and its destructor logs it as a C string. *)
Record SafeLogger := mkSafe { severity_ : Z; sout_ : bytes }.
Definition SafeLogger_make (file : bytes) (line : Z) (digits : Z → bytes) (severity : Z) : SafeLogger :=
  mkSafe severity (place file line digits).
Definition SafeLogger_write (text : bytes) (s : SafeLogger) : SafeLogger :=
  mkSafe (severity_ s) (sout_ s ++ text).
Definition SafeLogger_destroy (s : SafeLogger) (g : Logger) : list entry * Logger :=
  Log (severity_ s) (c_str (sout_ s)) g.
Definition SAFE_LOG_IF2 (cond : bool) (level : Z) (file : bytes) (line : Z) (digits : Z → bytes)
    (text : bytes) (g : Logger) : list entry * Logger :=
  if cond then
    let '(enabled, g) := IsLoggingEnabled level g in
    if enabled : bool
    then SafeLogger_destroy (SafeLogger_write text (SafeLogger_make file line digits level)) g
    else ([], g)
  else ([], g).
Definition SAFE_LOG2 := SAFE_LOG_IF2 true.

(** [n] questions, and [n] messages, in a row. *)
Fixpoint ask (n : nat) (level : Z) (g : Logger) : list bool * Logger :=
  match n with
  | O => ([], g)
  | S n =>
      let '(b, g) := IsLoggingEnabled level g in
      let '(bs, g) := ask n level g in (b :: bs, g)
  end.
Fixpoint log_all (level : Z) (texts : list bytes) (g : Logger) : list entry * Logger :=
  match texts with
  | [] => ([], g)
  | t :: texts =>
      let '(es, g) := LOG2 level t g in
      let '(es', g) := log_all level texts g in (es ++ es', g)
  end.

(** ** Sampling *)

(** How many of the [n] numbers from [c] have a residue below [s]. *)
Fixpoint hits (s : Z) (n : nat) (c : Z) : Z :=
  match n with
  | O => 0
  | S n => (if c mod kDropInterval <? s then 1 else 0) + hits s n (c + 1)
  end.

Lemma hits_app s n m c : hits s (n + m) c = hits s n c + hits s m (c + Z.of_nat n).
Proof.
  revert c. induction n as [|n IH]; intros c; cbn [Nat.add hits]; [by rewrite Z.add_0_r|].
  rewrite IH. replace (c + 1 + Z.of_nat n) with (c + Z.of_nat (S n)) by lia. lia.
Qed.

Abbreviation period := (Z.to_nat kDropInterval).

Lemma hits_next s c : hits s period (c + 1) = hits s period c.
Proof.
  pose proof (hits_app s 1 period c) as H1. pose proof (hits_app s period 1 c) as H2.
  replace (1 + period)%nat with (period + 1)%nat in H1 by lia. rewrite H2 in H1. cbn [hits] in H1.
  change (Z.of_nat 1) with 1 in H1. replace (Z.of_nat period) with kDropInterval in H1 by done.
  replace ((c + kDropInterval) mod kDropInterval) with (c mod kDropInterval) in H1; [lia|].
  rewrite <- (Z.mul_1_l kDropInterval) at 2. by rewrite Z.mod_add.
Qed.

Lemma hits_below s n c : 0 ≤ c → c + Z.of_nat n ≤ s → s ≤ kDropInterval → hits s n c = Z.of_nat n.
Proof.
  revert c. induction n as [|n IH]; intros c Hc Hn Hs; cbn [hits]; [done|].
  rewrite Z.mod_small, (proj2 (Z.ltb_lt _ _)), IH by lia. lia.
Qed.
Lemma hits_above s n c : 0 ≤ c → s ≤ c → c + Z.of_nat n ≤ kDropInterval → hits s n c = 0.
Proof.
  revert c. induction n as [|n IH]; intros c Hc Hs Hn; cbn [hits]; [done|].
  rewrite Z.mod_small, (proj2 (Z.ltb_ge _ _)), IH by lia. lia.
Qed.

(** Any period has as many hits as the first. *)
Lemma hits_period s c : 0 ≤ s ≤ kDropInterval → 0 ≤ c → hits s period c = s.
Proof.
  intros Hs. revert c. apply natlike_ind.
  - replace period with (Z.to_nat s + Z.to_nat (kDropInterval - s))%nat by lia.
    rewrite hits_app, hits_below, hits_above; lia.
  - intros c Hc IH. unfold Z.succ. by rewrite hits_next.
Qed.

Lemma ask_hits n level g : g_enabled_level g < level → 0 ≤ g_logging_count g →
  g_logging_count g + Z.of_nat n < 2 ^ 64 →
  Z.of_nat (length (List.filter id (fst (ask n level g)))) =
    hits (g_logging_out_streak g) n (g_logging_count g + 1) ∧
  snd (ask n level g) =
    mkLogger (g_enabled_level g) (g_logging_count g + Z.of_nat n) (g_logging_out_streak g).
Proof.
  intros Hl. revert g Hl. induction n as [|n IH]; intros [e c s] Hl Hc Hn; cbn [g_enabled_level g_logging_count] in *.
  - cbn. by rewrite Z.add_0_r.
  - cbn [ask]. unfold IsLoggingEnabled. cbn [g_enabled_level g_logging_count g_logging_out_streak].
    rewrite (proj2 (Z.leb_gt _ _)), u64_small by lia.
    destruct (IH (mkLogger e (c + 1) s)) as [E1 E2]; cbn [g_enabled_level g_logging_count]; [done|lia|lia|].
    destruct (ask n level (mkLogger e (c + 1) s)) as [bs g'] eqn:Eg. cbn [fst snd] in *.
    cbn [g_enabled_level g_logging_count g_logging_out_streak] in E1, E2. split.
    + cbn [List.filter id hits]. rewrite <- E1. destruct (_ <? s); cbn [length]; lia.
    + rewrite E2. f_equal. lia.
Qed.

(** What [LOG2] does with a message above the enabled level: it is asked about twice. *)
Lemma LOG2_asks_twice level t g : g_enabled_level g < level →
  let c1 := u64 (g_logging_count g + 1) in let c2 := u64 (c1 + 1) in
  let hit c := c mod kDropInterval <? g_logging_out_streak g in
  LOG2 level t g =
  if hit c1 then
    (if hit c2 then [(level, t)] else [], mkLogger (g_enabled_level g) c2 (g_logging_out_streak g))
  else ([], mkLogger (g_enabled_level g) c1 (g_logging_out_streak g)).
Proof.
  intros Hl. destruct g as [e c s]. cbn [g_enabled_level g_logging_count g_logging_out_streak] in *.
  unfold LOG2, LOG_IF2, Log, IsLoggingEnabled.
  cbn [g_enabled_level g_logging_count g_logging_out_streak].
  rewrite (proj2 (Z.leb_gt _ _)) by done.
  destruct (u64 (c + 1) mod kDropInterval <? s); [|done].
  cbn [g_enabled_level g_logging_count g_logging_out_streak].
  rewrite (proj2 (Z.leb_gt _ _)) by done. by destruct (_ <? s).
Qed.

Lemma LOG2_streak_1 level t g : g_enabled_level g < level → g_logging_out_streak g = 1 →
  ∃ c, LOG2 level t g = ([], mkLogger (g_enabled_level g) c 1).
Proof.
  intros Hl Hs. pose proof (LOG2_asks_twice level t g Hl) as E. cbv zeta in E. rewrite Hs in E. rewrite E.
  pose proof (u64_bound (g_logging_count g + 1)) as Hb. set (c1 := u64 (g_logging_count g + 1)) in *.
  destruct (Z.ltb_spec (c1 mod kDropInterval) 1) as [H1|H1]; [|by eexists].
  assert (u64 (c1 + 1) mod kDropInterval = 1) as ->; [|by eexists].
  unfold kDropInterval in *. pose proof (Z.div_mod c1 50000). pose proof (Z.mod_pos_bound c1 50000).
  rewrite u64_small by lia.
  replace (c1 + 1) with (1 + (c1 / 50000) * 50000) by lia. by rewrite Z.mod_add by lia.
Qed.


(** the macro asks about a message, and the function it calls asks again, so the counter
    moves twice for a message: with a streak of 1 no message above the enabled level is ever
    logged, although one in 50000 is promised. *)
Theorem streak_of_one_logs_nothing (level : Z) (texts : list bytes) (g : Logger) :
  g_enabled_level g < level → g_logging_out_streak g = 1 → fst (log_all level texts g) = [].
Proof.
  revert g. induction texts as [|t texts IH]; intros g Hl Hs; [done|]. cbn [log_all].
  destruct (LOG2_streak_1 level t g Hl Hs) as [c ->].
  specialize (IH (mkLogger (g_enabled_level g) c 1) Hl eq_refl).
  destruct (log_all level texts _) as [es g']. cbn in *. by rewrite IH.
Qed.
Lemma streak_of_one_logs_nothing_witness :
  SetLoggingStreak 1 initial = (true, mkLogger kInfoLog 0 1) ∧
  fst (log_all kDebugLog (repeat (str "message") 600) (mkLogger kInfoLog 0 1)) = [].
Proof.
  split; [reflexivity|].
  apply (streak_of_one_logs_nothing kDebugLog (repeat (str "message") 600) (mkLogger kInfoLog 0 1)); done.
Defined.
End Syslog.

Module Glog.

(** The flags of the program and of glog. *)
Record Flags := mkFlags {
  daemon : bool;
  logtostderr : bool;
  alsologtostderr : bool;
  colorlogtostderr : bool;
  stderrthreshold : Z;
  minloglevel : Z;
  logbuflevel : Z;
  verbose : Z;                       (* FLAGS_v *)
  max_log_size : Z;
  stop_logging_if_full_disk : bool;
  log_dir : bytes;
}.
Definition set_daemon (b : bool) (f : Flags) : Flags :=
  mkFlags b (logtostderr f) (alsologtostderr f) (colorlogtostderr f) (stderrthreshold f) (minloglevel f)
    (logbuflevel f) (verbose f) (max_log_size f) (stop_logging_if_full_disk f) (log_dir f).
Definition set_minloglevel (l : Z) (f : Flags) : Flags :=
  mkFlags (daemon f) (logtostderr f) (alsologtostderr f) (colorlogtostderr f) (stderrthreshold f) l
    (logbuflevel f) (verbose f) (max_log_size f) (stop_logging_if_full_disk f) (log_dir f).
Definition set_verbose (l : Z) (f : Flags) : Flags :=
  mkFlags (daemon f) (logtostderr f) (alsologtostderr f) (colorlogtostderr f) (stderrthreshold f) (minloglevel f)
    (logbuflevel f) l (max_log_size f) (stop_logging_if_full_disk f) (log_dir f).

(** [std::getline] up to a delimiter: what is before it, and what is behind it. *)
Fixpoint getline (delim : Z) (s : bytes) : bytes * bytes :=
  match s with
  | [] => ([], [])
  | c :: s => if c =? delim then ([], s) else let '(l, r) := getline delim s in (c :: l, r)
  end.
(** [while (std::getline(ss, item, delim))] stops at the end of the text; fuel: its length. *)
Fixpoint pieces (fuel : nat) (delim : Z) (s : bytes) : list bytes :=
  match fuel, s with
  | S fuel, _ :: _ => let '(l, r) := getline delim s in l :: pieces fuel delim r
  | _, _ => []
  end.

(** The arguments that are read from /proc/<pid>/cmdline. *)
Definition ReadGlobalProcNames (cmdline : bytes) : list bytes :=
  let line := fst (getline 10 cmdline) in pieces (length line) 0 line.

Definition GLOBAL_FLAGS_FILE : bytes := str "/etc/voice/global.flags".
Definition GLOBAL_FLAGS_DIR : bytes := str "/etc/voice/".
Definition FLAG_FILE_SUFFIX : bytes := str ".flags".

Section guard.
(** Which files there are, and what gflags makes of one. *)
Context (exists_file : bytes → bool) (ReadFromFlagsFile : bytes → Flags → Flags).

Definition ReadFlagsFromFile (short_name : bytes) (f : Flags) : Flags :=
  let f := if exists_file GLOBAL_FLAGS_FILE then ReadFromFlagsFile GLOBAL_FLAGS_FILE f else f in
  let special_filename := GLOBAL_FLAGS_DIR ++ short_name ++ FLAG_FILE_SUFFIX in
  if exists_file special_filename then ReadFromFlagsFile special_filename f else f.

Definition default_flags (f : Flags) : Flags :=
  mkFlags (daemon f)
    (negb (daemon f))
    (if daemon f then false else alsologtostderr f)
    (if daemon f then colorlogtostderr f else true)
    (if daemon f then stderrthreshold f else 1)
    1 3 0 3 true (str "/var/log/agora").

(** The constructor; None: no function was given. *)
Definition LoggingGuard (overload : option (Flags → Flags)) (short_name : bytes) (f : Flags) : Flags :=
  let f := ReadFlagsFromFile short_name (default_flags f) in
  match overload with Some g => g f | None => f end.
End guard.

Definition SetGlobalVerboseLevel (lvl : Z) (f : Flags) : Flags := set_verbose lvl f.
Definition EnableDebugLogging (enabled : bool) (f : Flags) : Flags :=
  set_minloglevel (if enabled then 0 else 1) f.

(** [StringFormat]: [text] is what the format and its arguments denote, None if
    [vsnprintf] fails, as it does on a text that is longer than an int.  A turn of the loop
    with a buffer of [size]: *)
Definition vsnprintf (size : Z) (text : option bytes) : Z * bytes :=
  match text with
  | None => (-1, [])
  | Some t => (Z.of_nat (length t), take (Z.to_nat (size - 1)) t)
  end.
Definition next_size (n size : Z) : result Z :=
  if -1 <? n then (if n + 1 <? 2 ^ 31 then Ok (n + 1) else Err SignedOverflow)
  else if size * 2 <? 2 ^ 31 then Ok (size * 2) else Err SignedOverflow.

(** None: out of fuel. *)
Fixpoint format_loop (fuel : nat) (size : Z) (text : option bytes) : option (result bytes) :=
  match fuel with
  | O => None
  | S fuel =>
      let '(n, written) := vsnprintf size text in
      if (-1 <? n) && (n <? size) then Some (Ok (take (Z.to_nat n) written))
      else match next_size n size with
           | Ok size => format_loop fuel size text
           | Err e => Some (Err e)
           end
  end.
Definition StringFormat (fuel : nat) (fmt : bytes) (text : option bytes) : option (result bytes) :=
  format_loop fuel (i32 (Z.of_nat (length fmt) * 2 + 50)) text.

(** ** The loops *)

Lemma getline_at delim l r : Forall (λ c, c ≠ delim) l → getline delim (l ++ delim :: r) = (l, r).
Proof.
  induction 1 as [|c l Hc _ IH]; cbn [getline List.app].
  - by rewrite Z.eqb_refl.
  - by rewrite (proj2 (Z.eqb_neq _ _)), IH by done.
Qed.
Lemma getline_all delim l : Forall (λ c, c ≠ delim) l → getline delim l = (l, []).
Proof.
  induction 1 as [|c l Hc _ IH]; cbn [getline]; [done|]. by rewrite (proj2 (Z.eqb_neq _ _)), IH by done.
Qed.

(** Items that are all ended by the delimiter, and one that is not. *)
Lemma pieces_joined delim items last : Forall (Forall (λ c, c ≠ delim)) items → Forall (λ c, c ≠ delim) last →
  ∀ fuel, (length ((items ≫= λ i, i ++ [delim]) ++ last) ≤ fuel)%nat →
  pieces fuel delim ((items ≫= λ i, i ++ [delim]) ++ last) = items ++ match last with [] => [] | _ => [last] end.
Proof.
  intros Hi Hlast. induction Hi as [|i items Hi _ IH]; intros fuel Hf; cbn [mbind list_bind List.app] in *.
  - destruct last as [|c last]; [by destruct fuel|]. destruct fuel as [|fuel]; [cbn in Hf; lia|].
    cbn [pieces]. rewrite getline_all by done. by destruct fuel.
  - rewrite !length_app in Hf. cbn [length] in Hf. destruct fuel as [|fuel]; [lia|].
    rewrite <- !app_assoc. cbn [List.app].
    destruct (i ++ delim :: (items ≫= λ i, i ++ [delim]) ++ last) as [|c s] eqn:E; [by destruct i|].
    cbn [pieces]. rewrite <- E, getline_at by done. f_equal. apply IH. rewrite length_app. lia.
Qed.

Lemma format_known t size : Z.of_nat (length t) < size →
  ∀ fuel, format_loop (S fuel) size (Some t) = Some (Ok t).
Proof.
  intros Hl fuel. cbn [format_loop vsnprintf]. rewrite (proj2 (Z.ltb_lt _ _)), (proj2 (Z.ltb_lt _ _)) by lia.
  cbn [andb]. by rewrite !take_ge by (rewrite ?length_take; lia).
Qed.

Lemma format_failing size fuel : 0 < size → 2 ^ 31 ≤ size * 2 ^ Z.of_nat fuel →
  format_loop fuel size None = Some (Err SignedOverflow) ∨ fuel = 0%nat.
Proof.
  revert size. induction fuel as [|fuel IH]; intros size Hs Hp; [by right|]. left.
  cbn [format_loop vsnprintf]. change (-1 <? -1) with false. cbn [andb]. unfold next_size.
  change (-1 <? -1) with false. cbv iota. destruct (Z.ltb_spec (size * 2) (2 ^ 31)) as [Hlt|]; [|done].
  destruct (IH (size * 2)) as [E| ->]; [lia| |exact E|cbn in Hp; lia].
  rewrite Nat2Z.inj_succ, Z.pow_succ_r in Hp by lia. lia.
Qed.

(** [/proc/<pid>/cmdline] of a program's arguments. *)
Definition cmdline (args : list bytes) : bytes := args ≫= λ a, a ++ [0].

Lemma cmdline_line args : Forall (Forall (λ c, c ≠ 0 ∧ c ≠ 10)) args → Forall (λ c, c ≠ 10) (cmdline args).
Proof.
  intros Ha. unfold cmdline. apply Forall_bind. eapply Forall_impl; [|exact Ha]. intros a Hw.
  apply Forall_app_2; [|by constructor]. eapply Forall_impl; [|exact Hw]. by intros c [_ ?].
Qed.
Lemma words_items args : Forall (Forall (λ c, c ≠ 0 ∧ c ≠ 10)) args → Forall (Forall (λ c, c ≠ 0)) args.
Proof. intros Ha. eapply Forall_impl; [|exact Ha]. intros a Hw. eapply Forall_impl; [|exact Hw]. by intros c [? _]. Qed.

(** the arguments of the process are read back from /proc, unless one of them has a line
    feed in it: that one ends there, and the ones behind it are lost. *)
Theorem arguments_read_back (args : list bytes) :
  Forall (Forall (λ c, c ≠ 0 ∧ c ≠ 10)) args →
  ReadGlobalProcNames (cmdline args) = args ∧
  ∀ c s t post, Forall (λ c, c ≠ 0 ∧ c ≠ 10) (c :: s) →
    ReadGlobalProcNames (cmdline (args ++ [(c :: s) ++ 10 :: t] ++ post)) = args ++ [c :: s].
Proof.
  intros Ha. pose proof (cmdline_line args Ha) as Hline. pose proof (words_items args Ha) as Hi. split.
  - unfold ReadGlobalProcNames. rewrite getline_all by done. cbn [fst].
    pose proof (pieces_joined 0 args [] Hi ltac:(constructor)) as E. rewrite !app_nil_r in E. by apply E.
  - intros c s t post Hs. unfold ReadGlobalProcNames.
    assert (Forall (λ c, c ≠ 10) (cmdline args ++ c :: s)) as Hl.
    { apply Forall_app_2; [done|]. eapply Forall_impl; [|exact Hs]. by intros x [_ ?]. }
    assert (cmdline (args ++ [(c :: s) ++ 10 :: t] ++ post) =
      (cmdline args ++ c :: s) ++ 10 :: (t ++ [0] ++ cmdline post)) as ->.
    { unfold cmdline. rewrite bind_app, bind_app. cbn [mbind list_bind]. rewrite app_nil_r, <- !app_assoc.
      reflexivity. }
    rewrite getline_at by done. cbn [fst]. apply (pieces_joined 0 args (c :: s) Hi); [|done].
    eapply Forall_impl; [|exact Hs]. by intros x [? _].
Qed.
Lemma arguments_read_back_witness :
  ReadGlobalProcNames (cmdline ([str "turnserver"; str "-d"] ++ [(45 :: str "x") ++ 10 :: str "y"] ++ [str "last"])) =
    [str "turnserver"; str "-d"] ++ [45 :: str "x"].
Proof.
  apply (arguments_read_back [str "turnserver"; str "-d"]); apply (bool_decide_unpack _); vm_compute; reflexivity.
Defined.

(** a text is formatted in at most two turns of the loop, whatever the length of the
    format; a format that [vsnprintf] rejects is tried again and again, until the size
    overflows. *)
Theorem format_takes_two_turns (fmt t : bytes) :
  Z.of_nat (length t) < 2 ^ 31 - 1 → Z.of_nat (length fmt) < 2 ^ 30 - 25 →
  StringFormat 2 fmt (Some t) = Some (Ok t) ∧
  StringFormat 32 fmt None = Some (Err SignedOverflow).
Proof.
  intros Ht Hf. unfold StringFormat. rewrite i32_small by lia. split.
  - destruct (Z.ltb_spec (Z.of_nat (length t)) (Z.of_nat (length fmt) * 2 + 50)) as [Hl|Hl].
    + by apply format_known.
    + cbn [format_loop vsnprintf]. rewrite (proj2 (Z.ltb_ge _ _) Hl), andb_false_r. unfold next_size.
      rewrite (proj2 (Z.ltb_lt _ _)), (proj2 (Z.ltb_lt _ (2 ^ 31))) by lia. cbn [andb].
      rewrite (proj2 (Z.ltb_lt _ (_ + 1))) by lia.
      by rewrite !take_ge by (rewrite ?length_take; lia).
  - destruct (format_failing (Z.of_nat (length fmt) * 2 + 50) 32) as [E|E]; [lia|lia|exact E|done].
Qed.
Lemma format_takes_two_turns_witness :
  StringFormat 2 (str "%s") (Some (repeat 97 (Z.to_nat 1000))) = Some (Ok (repeat 97 (Z.to_nat 1000))).
Proof.
  apply (format_takes_two_turns (str "%s") (repeat 97 (Z.to_nat 1000))); [rewrite repeat_length; lia|vm_compute; reflexivity].
Defined.
End Glog.
