(* ===== verification/Utility.v ===== *)
(** * Utility: base/time_util, base/event_loop, base/string_utility.h, logging/log_args.h

    The clocks, from what the system calls answer; the event loop, over a class of what
    libevent and the signals do; and joining strings and names with their values. *)

From S2P Require Import Prelude Bytes.

Module Clock.

Record timespec := mkTimespec { tv_sec : Z; tv_nsec : Z }.
Record timeval := mkTimeval { sec : Z; usec : Z }.

(** A result of 64 bits. *)
Definition in64 (z : Z) : result Z :=
  if (- 2 ^ 63 <=? z) && (z <? 2 ^ 63) then Ok z else Err SignedOverflow.

(** [clock_gettime] answers, or leaves the zeros it is given. *)
Definition TickInMicroSeconds (clock : option timespec) : result Z :=
  let spec := default (mkTimespec 0 0) clock in
  ms ← in64 (tv_sec spec * 1000);
  us ← in64 (ms * 1000);
  in64 (us + tv_nsec spec ÷ 1000).
Definition TickInMilliSeconds (clock : option timespec) : result Z :=
  us ← TickInMicroSeconds clock; Ok (us ÷ 1000).
Definition TickInSeconds (clock : option timespec) : result Z :=
  ms ← TickInMilliSeconds clock; Ok (i32 (ms ÷ 1000)).

(** The same on the precise clock. *)
Definition HighResolutionTickInMicroSeconds (clock : option timespec) : result Z :=
  let spec := default (mkTimespec 0 0) clock in
  ms ← in64 (tv_sec spec * 1000);
  us ← in64 (ms * 1000);
  in64 (us + tv_nsec spec ÷ 1000).
Definition HighResolutionTickInMilliSeconds (clock : option timespec) : result Z :=
  us ← HighResolutionTickInMicroSeconds clock; Ok (us ÷ 1000).
Definition HighResolutionTickInSeconds (clock : option timespec) : result Z :=
  ms ← HighResolutionTickInMilliSeconds clock; Ok (i32 (ms ÷ 1000)).

Definition TickMicroSeconds := TickInMicroSeconds.
Definition TickMilliSeconds := TickInMilliSeconds.
Definition TickSeconds := TickInSeconds.

(** The factor is unsigned, so the arithmetic is modulo 2^64. *)
Definition NowInMicroSeconds (time : option timeval) : Z :=
  let t := default (mkTimeval 0 0) time in
  i64 (u64 (u64 (u64 (u64 (sec t) * 1000) * 1000) + u64 (usec t))).
Definition NowInMilliSeconds (time : option timeval) : Z := NowInMicroSeconds time ÷ 1000.
Definition NowInSeconds (time : option timeval) : Z := i32 (NowInMilliSeconds time ÷ 1000).

(** ** The readings *)

Definition spec_ok (t : timespec) : Prop := 0 ≤ tv_sec t < 2 ^ 40 ∧ 0 ≤ tv_nsec t < 10 ^ 9.
Definition not_after (t t' : timespec) : Prop :=
  tv_sec t < tv_sec t' ∨ tv_sec t = tv_sec t' ∧ tv_nsec t ≤ tv_nsec t'.

Lemma in64_ok z : - 2 ^ 63 ≤ z < 2 ^ 63 → in64 z = Ok z.
Proof.
  intros Hz. unfold in64. by rewrite (proj2 (Z.leb_le _ _)), (proj2 (Z.ltb_lt _ _)) by lia.
Qed.

Lemma microseconds t : spec_ok t →
  TickInMicroSeconds (Some t) = Ok (tv_sec t * 1000000 + tv_nsec t / 1000).
Proof.
  intros [Hs Hn]. unfold TickInMicroSeconds. cbn [default from_option id].
  pose proof (Z.div_pos (tv_nsec t) 1000). pose proof (Z.div_le_upper_bound (tv_nsec t) 1000 (10 ^ 9)).
  rewrite Z.quot_div_nonneg, in64_ok, bind_ok, in64_ok, bind_ok, in64_ok by lia. f_equal. lia.
Qed.
Lemma milliseconds t : spec_ok t →
  TickInMilliSeconds (Some t) = Ok (tv_sec t * 1000 + tv_nsec t / 1000000).
Proof.
  intros Ht. unfold TickInMilliSeconds. rewrite microseconds, bind_ok by done. destruct Ht as [Hs Hn].
  pose proof (Z.div_pos (tv_nsec t) 1000). f_equal. rewrite Z.quot_div_nonneg by lia.
  replace (tv_sec t * 1000000) with (tv_sec t * 1000 * 1000) by lia.
  rewrite Z.div_add_l, Z.div_div by lia. done.
Qed.
Lemma seconds t : spec_ok t → TickInSeconds (Some t) = Ok (i32 (tv_sec t)).
Proof.
  intros Ht. unfold TickInSeconds. rewrite milliseconds, bind_ok by done. destruct Ht as [Hs Hn].
  pose proof (Z.div_pos (tv_nsec t) 1000000). do 2 f_equal. rewrite Z.quot_div_nonneg by lia.
  rewrite Z.div_add_l, Z.div_div by lia. rewrite (Z.div_small (tv_nsec t)) by lia. lia.
Qed.

(** the ticks of a clock that does not go back do not go back, in micro- and
    milliseconds for 34000 years and in seconds until 2^31 of them have passed; each is the
    time rounded down.  At 2^31 seconds the tick in seconds becomes negative. *)
Theorem ticks_do_not_decrease (t t' : timespec) :
  spec_ok t → spec_ok t' → not_after t t' →
  (∃ us us' ms ms', TickInMicroSeconds (Some t) = Ok us ∧ TickInMicroSeconds (Some t') = Ok us' ∧ us ≤ us' ∧
     TickInMilliSeconds (Some t) = Ok ms ∧ TickInMilliSeconds (Some t') = Ok ms' ∧ ms ≤ ms' ∧ ms = us / 1000) ∧
  (tv_sec t' < 2 ^ 31 → TickInSeconds (Some t) = Ok (tv_sec t) ∧ TickInSeconds (Some t') = Ok (tv_sec t')) ∧
  (tv_sec t' = 2 ^ 31 → TickInSeconds (Some t') = Ok (- 2 ^ 31)).
Proof.
  intros Ht Ht' Hle. split_and!.
  - do 4 eexists. split_and!; [by apply microseconds..| |by apply milliseconds|by apply milliseconds| |].
    + destruct Ht, Ht', Hle as [Hl|[-> Hl]].
      * pose proof (Z.div_pos (tv_nsec t') 1000).
        pose proof (Z.div_lt_upper_bound (tv_nsec t) 1000 1000000). lia.
      * pose proof (Z.div_le_mono (tv_nsec t) (tv_nsec t') 1000). lia.
    + destruct Ht, Ht', Hle as [Hl|[-> Hl]].
      * pose proof (Z.div_pos (tv_nsec t') 1000000).
        pose proof (Z.div_lt_upper_bound (tv_nsec t) 1000000 1000). lia.
      * pose proof (Z.div_le_mono (tv_nsec t) (tv_nsec t') 1000000). lia.
    + replace (tv_sec t * 1000000) with (tv_sec t * 1000 * 1000) by lia.
      by rewrite Z.div_add_l, Z.div_div by lia.
  - intros Hs. rewrite !seconds by done. destruct Ht, Ht', Hle; rewrite !i32_small by lia; done.
  - intros Hs. rewrite seconds, Hs by done. reflexivity.
Qed.
Lemma ticks_do_not_decrease_witness :
  TickInSeconds (Some (mkTimespec (2 ^ 31) 0)) = Ok (- 2 ^ 31) ∧
  ∃ ms ms', TickInMilliSeconds (Some (mkTimespec 5 999999999)) = Ok ms ∧
    TickInMilliSeconds (Some (mkTimespec (2 ^ 31) 0)) = Ok ms' ∧ ms ≤ ms'.
Proof.
  destruct (ticks_do_not_decrease (mkTimespec 5 999999999) (mkTimespec (2 ^ 31) 0))
    as ((us & us' & ms & ms' & _ & _ & _ & E1 & E2 & Hle & _) & _ & Hw).
  - split; cbn; lia.
  - split; cbn; lia.
  - left. cbn. lia.
  - split; [apply Hw; reflexivity|]. exists ms, ms'. split; [exact E1|]. split; [exact E2|exact Hle].
Defined.
End Clock.

Module Loop.

Definition SIGHUP : Z := 1.
Definition SIGPIPE : Z := 13.

(** What libevent and [signal] do to the world.  [fatal]: a fatal message is logged; None:
    the process ends there, as it does with glog. *)
Class LoopSystem (W base : Type) := {
  event_base_new : W → option base * W;
  event_base_free : base → W → W;
  event_base_dispatch : option base → W → Z * W;
  event_base_loopexit : base → W → Z * W;
  signal_ignore : Z → W → bool * W;          (* false: SIG_ERR *)
  event_set_log_callback : W → W;
  event_del : Z → W → W;
  event_free : Z → W → W;
  fatal : W → option W;
}.

Section loop.
Context {W base : Type} `{LoopSystem W base}.

(** The object is its base; null if there is none. *)
Definition EventLoop_make (w : W) : option (option base * W) :=
  let '(event_base_, w) := event_base_new w in
  match event_base_ with
  | None => w ← fatal w; Some (None, w)
  | Some b => Some (Some b, w)
  end.
Definition EventLoop_destroy (event_base_ : option base) (w : W) : W :=
  match event_base_ with Some b => event_base_free b w | None => w end.

Definition Initialize (w : W) : bool * W :=
  let '(ok, w) := signal_ignore SIGHUP w in
  if negb ok then (false, w)
  else
    let '(ok, w) := signal_ignore SIGPIPE w in
    if negb ok then (false, w) else (true, event_set_log_callback w).
Definition Run (event_base_ : option base) (w : W) : Z * W :=
  let '(ok, w) := Initialize w in
  if negb ok then (-1, w) else event_base_dispatch event_base_ w.
Definition Stop (event_base_ : option base) (w : W) : Z * W :=
  match event_base_ with None => (0, w) | Some b => event_base_loopexit b w end.
Definition GetEventBase (event_base_ : option base) : option base := event_base_.

(** [internal::EventDeleter]; None is a null pointer. *)
Definition EventDeleter (p : option Z) (w : W) : W :=
  match p with Some e => event_free e (event_del e w) | None => w end.
End loop.

(** The level at which a message of libevent is logged. *)
Inductive severity := EVENT_LOG_DEBUG | EVENT_LOG_MSG | EVENT_LOG_WARN | EVENT_LOG_ERR | EVENT_LOG_OTHER.
Inductive level := Debug | Info | Warn | Error.
Definition LibEventLog (s : severity) : level :=
  match s with
  | EVENT_LOG_DEBUG => Debug
  | EVENT_LOG_MSG => Info
  | EVENT_LOG_WARN => Warn
  | EVENT_LOG_ERR | EVENT_LOG_OTHER => Error
  end.
End Loop.

Module StringUtility.

(** [operator<<] of a pair. *)
Definition show_pair {A B} (show1 : A → bytes) (show2 : B → bytes) (v : A * B) : bytes :=
  show1 v.1 ++ [58] ++ show2 v.2.

(** The loop: what is written, and what comes before the next element. *)
Definition MakeString_step {A} (f : A → bytes) (delim : bytes) (acc : bytes * bytes) (v : A) : bytes * bytes :=
  let '(oss, s) := acc in (oss ++ s ++ f v, delim).
Definition MakeString {A} (c : list A) (delim : bytes) (f : A → bytes) : bytes :=
  fst (foldl (MakeString_step f delim) ([], []) c).

(** The elements with the separator between them. *)
Fixpoint intercalate (sep : bytes) (l : list bytes) : bytes :=
  match l with
  | [] => []
  | [x] => x
  | x :: l => x ++ sep ++ intercalate sep l
  end.

Lemma MakeString_loop {A} (f : A → bytes) delim l oss :
  fst (foldl (MakeString_step f delim) (oss, delim) l) = oss ++ mjoin ((λ v, delim ++ f v) <$> l).
Proof.
  revert oss. induction l as [|v l IH]; intros oss; cbn; [by rewrite app_nil_r|].
  rewrite IH, <- !app_assoc. done.
Qed.

Lemma MakeString_joins {A} (f : A → bytes) delim c : MakeString c delim f = intercalate delim (f <$> c).
Proof.
  destruct c as [|v c]; [done|]. unfold MakeString. cbn [foldl MakeString_step List.app].
  rewrite MakeString_loop. revert v. induction c as [|v' c IH]; intros v; cbn; [by rewrite app_nil_r|].
  cbn in IH. by rewrite <- IH, <- !app_assoc.
Qed.
End StringUtility.

Module LogArgs.

(** What is streamed for an argument: its text in the program, and its value as a stream
    shows it. *)
Definition LOG_ARG (v : bytes * bytes) : bytes := v.1 ++ [58; 32] ++ v.2.

(** LOG_FOR_EACH_n is the n-th macro of a family; a macro with another number of arguments
    does not expand to an expression. *)
Fixpoint LOG_FOR_EACH_ {A} (n : nat) (Y : A → bytes) (args : list A) : option bytes :=
  match n, args with
  | S O, [X] => Some (Y X)
  | S (S _ as n), X :: args => rest ← LOG_FOR_EACH_ n Y args; Some (Y X ++ [44; 32] ++ rest)
  | _, _ => None
  end.
(** [LOG_GET_FOR_EACH] picks the macro by the number of arguments, from 1 to 9. *)
Definition LOG_FOR_EACH {A} (action : A → bytes) (args : list A) : option bytes :=
  if decide (1 ≤ length args ≤ 9)%nat then LOG_FOR_EACH_ (length args) action args else None.
Definition LOG_ARGS (args : list (bytes * bytes)) : option bytes := LOG_FOR_EACH LOG_ARG args.

Lemma LOG_FOR_EACH_shows {A} (Y : A → bytes) X args :
  LOG_FOR_EACH_ (S (length args)) Y (X :: args) = Some (StringUtility.intercalate [44; 32] (Y <$> X :: args)).
Proof.
  revert X. induction args as [|X' args IH]; intros X; [done|].
  cbn [length LOG_FOR_EACH_]. cbn [length LOG_FOR_EACH_] in IH. by rewrite IH.
Qed.
Lemma LOG_ARGS_shows args : (1 ≤ length args ≤ 9)%nat →
  LOG_ARGS args = Some (StringUtility.intercalate [44; 32] (LOG_ARG <$> args)).
Proof.
  intros Hn. unfold LOG_ARGS, LOG_FOR_EACH. rewrite decide_True by done.
  destruct args as [|X args]; [cbn in Hn; lia|]. apply LOG_FOR_EACH_shows.
Qed.
End LogArgs.
