(* ===== verification/Identifiers.v ===== *)
(** * Identifiers: base/city_hash.h, base/channel_type.h and channel_type.cpp

    The hash of two words that is defined in the header ([Hash128to64]) and the key of a
    channel, a vendor and a name with the hash of both.  [CityHash64] is only declared in
    the repository: it is a parameter. *)

From S2P Require Import Prelude Bytes Codec Structs.

(** ** Hash128to64 *)

Definition kMul : Z := 0x9ddfea08eb382d69.

(** [uint128]: low and high word. *)
Definition Hash128to64 (x : Z * Z) : Z :=
  let '(low, high) := x in
  let a := u64 (Z.lxor low high * kMul) in
  let a := Z.lxor a (Z.shiftr a 47) in
  let b := u64 (Z.lxor high a * kMul) in
  let b := Z.lxor b (Z.shiftr b 47) in
  u64 (b * kMul).

(** ** ChannelType *)

Section channel.
Context (CityHash64 : bytes → Z).

Record ChannelType := mkChannelType {
  vid_ : Z;
  cname_ : bytes;
  hash_val_ : Z;
}.

(** The default constructor, and the ones with a vendor and a name: the name and the
    bytes of the vendor are hashed. *)
Definition ChannelType_default : ChannelType := mkChannelType 0 [] 0.
Definition CalculateHash (vid : Z) (cname : bytes) : Z := CityHash64 (cname ++ le_bytes 4 vid).
Definition ChannelType_make (vid : Z) (cname : bytes) : ChannelType :=
  mkChannelType vid cname (CalculateHash vid cname).

Definition unique_name (c : ChannelType) : Z * bytes := (vid_ c, cname_ c).
Definition ChannelType_of_info (c : Z * bytes) : ChannelType := ChannelType_make (fst c) (snd c).
Definition ChannelHasher (c : ChannelType) : Z := hash_val_ c.

(** [operator==], [operator!=] and [operator<]. *)
Definition ChannelType_eq (a b : ChannelType) : bool :=
  (hash_val_ a =? hash_val_ b) && (vid_ a =? vid_ b) && bool_decide (cname_ a = cname_ b).
Definition ChannelType_ne (a b : ChannelType) : bool := negb (ChannelType_eq a b).
Definition ChannelType_lt (a b : ChannelType) : bool :=
  (hash_val_ a <? hash_val_ b) ||
  ((hash_val_ a =? hash_val_ b) && (vid_ a <? vid_ b)) ||
  ((hash_val_ a =? hash_val_ b) && (vid_ a =? vid_ b) && bytes_ltb (cname_ a) (cname_ b)).
Definition ChannelType_cmp : Cmp ChannelType := mkCmp ChannelType_lt ChannelType_eq.

(** ** Laws *)

#[export] Instance ChannelType_cmp_ok : CmpOk ChannelType_cmp.
Proof.
  set (image := λ c, (hash_val_ c, vid_ c, cname_ c)).
  assert (∀ a b, image a = image b → a = b) as Hinj by (by intros [] [] [= -> -> ->]).
  assert (∀ a b, ChannelType_lt a b = clt (lex (lex Z_cmp Z_cmp) bytes_cmp) (image a) (image b)) as Hl by done.
  assert (∀ a b, ChannelType_eq a b = ceq (lex (lex Z_cmp Z_cmp) bytes_cmp) (image a) (image b)) as He by done.
  split; cbn [clt ceq ChannelType_cmp]; intros *; rewrite ?Hl, ?He.
  - apply clt_irrefl.
  - apply clt_trans.
  - rewrite ceq_eq. split; [apply Hinj|by intros ->].
  - destruct (clt_total (m := lex (lex Z_cmp Z_cmp) bytes_cmp) (image x) (image y)) as [E|?]; [|by right].
    left. by apply Hinj.
Qed.
End channel.

(** ** The hash of two words loses nothing of the low word *)

Lemma kMul_odd x : u64 (u64 (x * kMul) * 0xdc56e6f5090b32d9) = u64 x.
Proof.
  assert ((kMul * 0xdc56e6f5090b32d9) mod 2 ^ 64 = 1) as E by (vm_compute; reflexivity).
  unfold u64. rewrite Z.mul_mod_idemp_l by discriminate. rewrite <- Z.mul_assoc.
  rewrite <- Z.mul_mod_idemp_r, E by discriminate. by rewrite Z.mul_1_r.
Qed.

Lemma lxor_word x y : 0 ≤ x < 2 ^ 64 → 0 ≤ y < 2 ^ 64 → 0 ≤ Z.lxor x y < 2 ^ 64.
Proof.
  intros [Hx0 Hx] [Hy0 Hy]. assert (0 ≤ Z.lxor x y) as H0 by (apply Z.lxor_nonneg; lia).
  split; [done|]. destruct (Z.eq_dec (Z.lxor x y) 0) as [->|Hne]; [done|].
  apply Z.log2_lt_pow2; [lia|]. pose proof (Z.log2_lxor x y Hx0 Hy0) as Hl.
  assert (∀ z, 0 ≤ z < 2 ^ 64 → Z.log2 z < 64) as Hlog.
  { intros z [? ?]. destruct (Z.eq_dec z 0) as [->|]; [done|]. apply Z.log2_lt_pow2; lia. }
  pose proof (Hlog x (conj Hx0 Hx)). pose proof (Hlog y (conj Hy0 Hy)). lia.
Qed.

Definition fold47 (x : Z) : Z := Z.lxor x (Z.shiftr x 47).

Lemma fold47_word x : 0 ≤ x < 2 ^ 64 → 0 ≤ fold47 x < 2 ^ 64.
Proof.
  intros Hx. apply lxor_word; [done|]. rewrite Z.shiftr_div_pow2 by lia.
  split; [apply Z.div_pos; lia|]. apply Z.div_lt_upper_bound; lia.
Qed.

(** Folding twice gives the word back: the bits of the upper half come back to where they
    were. *)
Lemma fold47_twice x : 0 ≤ x < 2 ^ 64 → fold47 (fold47 x) = x.
Proof.
  intros Hx. unfold fold47. rewrite Z.shiftr_lxor, Z.shiftr_shiftr by lia.
  rewrite (Z.shiftr_div_pow2 x (47 + 47)), (Z.div_small x) by lia.
  rewrite Z.lxor_0_r, Z.lxor_assoc, Z.lxor_nilpotent. apply Z.lxor_0_r.
Qed.

Lemma fold47_inj x y : 0 ≤ x < 2 ^ 64 → 0 ≤ y < 2 ^ 64 → fold47 x = fold47 y → x = y.
Proof. intros Hx Hy E. rewrite <- (fold47_twice x Hx), E. by apply fold47_twice. Qed.

Lemma kMul_inj x y : 0 ≤ x < 2 ^ 64 → 0 ≤ y < 2 ^ 64 → u64 (x * kMul) = u64 (y * kMul) → x = y.
Proof.
  intros Hx Hy E. rewrite <- (u64_small x Hx), <- (u64_small y Hy), <- (kMul_odd x), E. apply kMul_odd.
Qed.

Lemma lxor_inj_l x y z : Z.lxor x y = Z.lxor x z → y = z.
Proof.
  intros E. apply (f_equal (Z.lxor x)) in E.
  by rewrite <- !Z.lxor_assoc, Z.lxor_nilpotent, !Z.lxor_0_l in E.
Qed.

Lemma u64_word z : 0 ≤ u64 z < 2 ^ 64.
Proof. by apply Z.mod_pos_bound. Qed.

(** for a given high word, the hash of two words is different for different low words:
    no two addresses that differ in it collide. *)
Theorem Hash128to64_injective low low' high :
  0 ≤ low < 2 ^ 64 → 0 ≤ low' < 2 ^ 64 → 0 ≤ high < 2 ^ 64 →
  Hash128to64 (low, high) = Hash128to64 (low', high) → low = low'.
Proof.
  intros Hl Hl' Hh. unfold Hash128to64.
  fold (fold47 (u64 (Z.lxor low high * kMul))) (fold47 (u64 (Z.lxor low' high * kMul))).
  set (a := fold47 (u64 (Z.lxor low high * kMul))). set (a' := fold47 (u64 (Z.lxor low' high * kMul))).
  fold (fold47 (u64 (Z.lxor high a * kMul))) (fold47 (u64 (Z.lxor high a' * kMul))). intros E.
  assert (0 ≤ a < 2 ^ 64 ∧ 0 ≤ a' < 2 ^ 64) as [Ha Ha'] by (split; apply fold47_word, u64_word).
  apply kMul_inj, fold47_inj, kMul_inj, lxor_inj_l in E; eauto using fold47_word, u64_word, lxor_word.
  apply fold47_inj, kMul_inj in E; eauto using u64_word, lxor_word.
  rewrite !(Z.lxor_comm _ high) in E. by apply lxor_inj_l in E.
Qed.
Lemma Hash128to64_injective_witness : Hash128to64 (1, 7) = Hash128to64 (1, 7) ∧ 1 = 1.
Proof. split; [reflexivity|]. apply (Hash128to64_injective 1 1 7); [lia|lia|lia|reflexivity]. Defined.

(** whatever the hash function, the order of channels is a strict total order with
    which their equality agrees; two channels that were made of a vendor and a name are
    equal exactly when these are; but the default channel differs from the channel of the
    vendor 0 and the empty name, unless its hash happens to be 0. *)
Theorem channels_are_ordered (CityHash64 : bytes → Z) :
  CmpOk ChannelType_cmp ∧
  (∀ vid vid' cname cname',
     ChannelType_eq (ChannelType_make CityHash64 vid cname) (ChannelType_make CityHash64 vid' cname') = true ↔
     vid = vid' ∧ cname = cname') ∧
  ChannelType_eq ChannelType_default (ChannelType_make CityHash64 0 []) = (CityHash64 [0; 0; 0; 0] =? 0).
Proof.
  split; [apply _|]. split.
  - intros vid vid' cname cname'. split.
    + intros E. by apply (ceq_eq (m := ChannelType_cmp)) in E as [= -> -> _].
    + intros [-> ->]. by apply (ceq_eq (m := ChannelType_cmp)).
  - unfold ChannelType_eq. cbn [hash_val_ vid_ cname_ ChannelType_default ChannelType_make].
    rewrite bool_decide_true, Z.eqb_refl, !andb_true_r, Z.eqb_sym by done. reflexivity.
Qed.
