(* ===== verification/Reflection.v ===== *)
(** * Reflection: base/const_utility.h, compile_time_utility.h and reflection.hpp

    What the compiler computes for the declaration macros with reflection: strings as
    pointers into literals ([StringRef]), sequences of indices, the names of the members
    of a struct and the search for one of them, and the counters and attributes built of
    overloads.  A pointer outside its literal is a fault, as it is for the compiler; an
    expansion that no macro exists for is [None]. *)

From Stdlib Require Import String.
From S2P Require Import Prelude Bytes.

(** ** StringRef *)

(** A pointer: the characters of an array, the final 0 of a literal included, and an
    offset. *)
Record pointer := mkPointer { array : bytes; offset : Z }.
Definition deref (p : pointer) : result Z :=
  if offset p <? 0 then Err OutOfBounds
  else match array p !! Z.to_nat (offset p) with Some c => Ok c | None => Err OutOfBounds end.
Definition move (n : Z) (p : pointer) : pointer := mkPointer (array p) (offset p + n).

Fixpoint StringEqual (n : nat) (a b : pointer) : result bool :=
  x ← deref a;
  y ← deref b;
  if (x =? 0) && (y =? 0) && (n =? 0)%nat then Ok true
  else if (x =? 0) || (y =? 0) then Ok false
  else match n with
       | O => Ok true
       | S n => if negb (x =? y) then Ok false else StringEqual n (move 1 a) (move 1 b)
       end.

Definition RequiresInRange (i len : Z) : Z := if len <=? i then len else i.

Record StringRef := mkStringRef { begin_ : pointer; size_ : Z }.

(** From a literal, and from a pointer and a length. *)
Definition literal (s : bytes) : StringRef := mkStringRef (mkPointer (s ++ [0]) 0) (Z.of_nat (length s)).
Definition subscript (i : Z) (s : StringRef) : result Z :=
  deref (move (RequiresInRange i (size_ s)) (begin_ s)).
Definition End (s : StringRef) : pointer := move (size_ s) (begin_ s).
(** The values of [RequiresInRange] are computed and dropped. *)
Definition SubString (pos len : Z) (s : StringRef) : StringRef :=
  mkStringRef (move pos (begin_ s)) (u32 len).

Definition StringRef_eq (a b : StringRef) : result bool :=
  if negb (size_ a =? size_ b) then Ok false
  else StringEqual (Z.to_nat (size_ a)) (begin_ a) (begin_ b).

(** ** Sequences *)

Definition ConcatSequence (s1 s2 : list nat) : list nat := s1 ++ ((λ i, length s1 + i)%nat <$> s2).

(** Halving, down to 0 and 1; None: out of fuel. *)
Fixpoint GenSequence_ (fuel N : nat) : option (list nat) :=
  match N with
  | O => Some []
  | S O => Some [O]
  | _ =>
      match fuel with
      | O => None
      | S fuel =>
          s1 ← GenSequence_ fuel (N / 2);
          s2 ← GenSequence_ fuel (N - N / 2);
          Some (ConcatSequence s1 s2)
      end
  end.
Definition GenSequence (N : nat) : list nat := default [] (GenSequence_ N N).

(** ** The macros *)

Abbreviation token := bytes.

(** [__GET_ARG_COUNT]: the arguments push the numbers behind them to the right, and the
    120th of all is taken. *)
Definition RSEQ_N : list nat := rev (seq 0 120).
Definition ARG_N {A} (l : list A) : option A := l !! 119%nat.
Definition GET_ARG_COUNT (args : list token) : option nat :=
  match ARG_N ((inl <$> args) ++ (inr <$> RSEQ_N)) with
  | Some (inr n) => Some n
  | _ => None          (* an argument, where a number should be *)
  end.

(** [__MAKE_ARG_LIST_n] and [__CONST_STR_n], for n from 1 to 120. *)
Fixpoint MAKE_ARG_LIST {A} (n : nat) (op : token → A) (args : list token) : option (list A) :=
  match n, args with
  | S O, arg :: _ => Some [op arg]
  | S n, arg :: args => l ← MAKE_ARG_LIST n op args; Some (op arg :: l)
  | _, _ => None
  end.
Definition CONST_STR (n : nat) (args : list token) : option (list StringRef) :=
  MAKE_ARG_LIST n literal args.

(** [__SELECT_MEMBER_NAMES_n], for n = 2, 4, ..., 28: every second one of n tokens. *)
Fixpoint SELECT_MEMBER_NAMES_ (pairs : nat) (args : list token) : option (list token) :=
  match pairs, args with
  | S O, _ :: nm :: _ => Some [nm]
  | S k, _ :: nm :: args => l ← SELECT_MEMBER_NAMES_ k args; Some (nm :: l)
  | _, _ => None
  end.
Definition SELECT_MEMBER_NAMES_IMPL (args : list token) : option (list token) :=
  n ← GET_ARG_COUNT args;
  if Nat.even n && (n <=? 28)%nat then SELECT_MEMBER_NAMES_ (n / 2) args else None.

(** [__ARG_N_2_PACKET_N_n] and [__ARG_N_2_PACKABLE_N_n]: the number of members. *)
Definition ARG_N_2_PACKET_N (n : nat) : option nat :=
  if Nat.even n && (2 <=? n)%nat && (n <=? 30)%nat then Some (n / 2 - 1)%nat else None.
Definition ARG_N_2_PACKABLE_N (n : nat) : option nat :=
  if Nat.odd n && (3 <=? n)%nat && (n <=? 29)%nat then Some ((n - 1) / 2)%nat else None.

(** What [__REFLECTION] generates: the name of the struct, the pointers to its members and
    their names. *)
Record reflected := mkReflected {
  Name : StringRef;
  members : list token;       (* apply_impl: &STRUCT_NAME::member *)
  Arr : list StringRef;
}.
Definition REFLECTION (struct_name : token) (names : list token) : option reflected :=
  n ← GET_ARG_COUNT names;
  ptrs ← MAKE_ARG_LIST n id names;
  strs ← CONST_STR n names;
  Some (mkReflected (literal struct_name) ptrs strs).

(** [R_DECLARE_PACKET] and [R_DECLARE_PACKABLE]: the arity of the macro of
    base/packet_helper.h that is used, and the reflection. *)
Definition R_DECLARE_PACKET (args : list token) : option (nat * reflected) :=
  n ← GET_ARG_COUNT args;
  arity ← ARG_N_2_PACKET_N n;
  names ← SELECT_MEMBER_NAMES_IMPL (drop 2 args);
  first ← head args;
  r ← REFLECTION first names;
  Some (arity, r).
Definition R_DECLARE_PACKABLE (args : list token) : option (nat * reflected) :=
  n ← GET_ARG_COUNT args;
  arity ← ARG_N_2_PACKABLE_N n;
  names ← SELECT_MEMBER_NAMES_IMPL (drop 1 args);
  first ← head args;
  r ← REFLECTION first names;
  Some (arity, r).

(** ** Access by index and by name *)

Definition GetMembersCount (r : reflected) : nat := length (members r).
(** [GetName(i)]: no bound is checked. *)
Definition GetName (r : reflected) (i : nat) : result StringRef :=
  match Arr r !! i with Some s => Ok s | None => Err OutOfBounds end.
(** [Get<I>(t)], for a struct given as the values of its members. *)
Definition Get {A} (r : reflected) (i : nat) (t : token → A) : option A := t <$> members r !! i.

Fixpoint GetIdIsSame (r : reflected) (name : StringRef) (ids : list nat) : result Z :=
  match ids with
  | [] => Ok (-1)
  | First :: Rest =>
      s ← GetName r First;
      same ← StringRef_eq name s;
      if same : bool then Ok (Z.of_nat First) else GetIdIsSame r name Rest
  end.
Definition GetId (r : reflected) (name : StringRef) : result Z :=
  GetIdIsSame r name (GenSequence (GetMembersCount r)).

(** ** Counters and attributes *)

(** The overloads of [CounterCrumb] that [COUNTER_INC] has declared: from rank and
    accumulator to the value; without one the accumulator is the value. *)
Abbreviation crumbs := (list (nat * nat * nat)).
Definition CounterCrumb (c : crumbs) (rank acc : nat) : nat :=
  match List.find (λ x, (x.1.1 =? rank)%nat && (x.1.2 =? acc)%nat) c with
  | Some x => x.2
  | None => acc
  end.
Definition ranks : list nat := [128; 64; 32; 16; 8; 4; 2; 1]%nat.
Definition COUNTER_READ (c : crumbs) : nat := foldl (λ acc rank, CounterCrumb c rank acc) O ranks.
Definition COUNTER_INC (c : crumbs) : crumbs :=
  let n := COUNTER_READ c in
  (Nat.ldiff (n + 1) n, Nat.land (n + 1) n, n + 1)%nat :: c.

(** [R_ATTRIBUTE]: the tags of one member, in the overloads of [__attr_storage], and the
    counter that numbers them. *)
Record attributes := mkAttributes { storage : list (nat * StringRef); counter : crumbs }.
Definition no_attributes : attributes := mkAttributes [] [].
Definition R_ATTRIBUTE (tag : token) (a : attributes) : attributes :=
  mkAttributes ((COUNTER_READ (counter a), literal tag) :: storage a) (COUNTER_INC (counter a)).

(** None: no overload for the number. *)
Fixpoint HasAttributeImpl (a : attributes) (name : StringRef) (ids : list nat) : option (result bool) :=
  match ids with
  | [] => Some (Ok false)
  | First :: Rest =>
      x ← List.find (λ x, (x.1 =? First)%nat) (storage a);
      match StringRef_eq x.2 name with
      | Ok true => Some (Ok true)
      | Ok false => HasAttributeImpl a name Rest
      | Err e => Some (Err e)
      end
  end.
Definition HasAttribute (a : attributes) (name : StringRef) : option (result bool) :=
  HasAttributeImpl a name (GenSequence (COUNTER_READ (counter a))).

(** ** Strings *)

Abbreviation text := (Forall (λ c, c ≠ 0)).

Lemma deref_at pre c rest n : n = Z.of_nat (length pre) → deref (mkPointer (pre ++ c :: rest) n) = Ok c.
Proof.
  intros ->. unfold deref. cbn [array offset]. rewrite (proj2 (Z.ltb_ge _ _)) by lia.
  by rewrite Nat2Z.id, list_lookup_middle.
Qed.

(** The comparison of two texts of the same length, and what follows them. *)
Lemma StringEqual_at s t prea preb x y ra rb n m : text s → text t → length s = length t →
  n = Z.of_nat (length prea) → m = Z.of_nat (length preb) →
  StringEqual (length s) (mkPointer (prea ++ s ++ x :: ra) n) (mkPointer (preb ++ t ++ y :: rb) m) =
  Ok (bool_decide (s = t) && ((x =? 0) && (y =? 0) || negb (x =? 0) && negb (y =? 0))).
Proof.
  intros Hs. revert t prea preb n m. induction Hs as [|c s Hc _ IH]; intros t prea preb n m Ht Hl Hn Hm.
  - destruct t; [|done]. cbn [length List.app StringEqual]. rewrite !deref_at by done. cbn.
    by destruct (x =? 0), (y =? 0).
  - destruct t as [|d t]; [done|]. injection Hl as Hl. apply Forall_cons_1 in Ht as [Hd Ht].
    cbn [length List.app StringEqual]. rewrite !deref_at by done. cbn [mbind result_bind].
    rewrite (proj2 (Z.eqb_neq c 0)), (proj2 (Z.eqb_neq d 0)) by done. cbn [andb orb].
    destruct (Z.eqb_spec c d) as [->|Hne]; cbn [negb].
    + unfold move. cbn [array offset].
      change (prea ++ d :: s ++ x :: ra) with (prea ++ [d] ++ s ++ x :: ra).
      change (preb ++ d :: t ++ y :: rb) with (preb ++ [d] ++ t ++ y :: rb).
      rewrite !(app_assoc _ [d]), (IH t) by (done || rewrite length_app; cbn; lia).
      f_equal. f_equal. apply bool_decide_ext. split; [by intros ->|by intros [= ->]].
    + by rewrite bool_decide_false by congruence.
Qed.

(** A 0 before the end of the length is a difference. *)
Lemma StringEqual_zero s pre ra k n : text s → n = Z.of_nat (length pre) →
  StringEqual (length s + S k) (mkPointer (pre ++ s ++ 0 :: ra) n) (mkPointer (pre ++ s ++ 0 :: ra) n) = Ok false.
Proof.
  intros Hs. revert pre n. induction Hs as [|c s Hc _ IH]; intros pre n Hn.
  - cbn [length List.app Nat.add StringEqual]. by rewrite !deref_at.
  - cbn [length List.app Nat.add StringEqual]. rewrite !deref_at by done. cbn [mbind result_bind].
    rewrite (proj2 (Z.eqb_neq c 0)), Z.eqb_refl by done. cbn [andb orb negb]. unfold move. cbn [array offset].
    change (pre ++ c :: s ++ 0 :: ra) with (pre ++ [c] ++ s ++ 0 :: ra).
    rewrite !(app_assoc _ [c]). apply IH. rewrite length_app. cbn. lia.
Qed.

Lemma literals_equal s t : text s → text t → StringRef_eq (literal s) (literal t) = Ok (bool_decide (s = t)).
Proof.
  intros Hs Ht. unfold StringRef_eq, literal. cbn [size_ begin_].
  destruct (Z.eqb_spec (Z.of_nat (length s)) (Z.of_nat (length t))) as [Hl|Hl]; cbn [negb].
  - rewrite Nat2Z.id. pose proof (StringEqual_at s t [] [] 0 0 [] [] 0 0 Hs Ht) as E.
    cbn [List.app] in E. rewrite E by (done || lia). by rewrite andb_true_r.
  - rewrite bool_decide_false; [done|]. by intros ->.
Qed.

(** ** Sequences are what they should be *)

Lemma GenSequence_seq fuel N : (N ≤ fuel)%nat → GenSequence_ fuel N = Some (seq 0 N).
Proof.
  revert N. induction fuel as [|fuel IH]; intros [|[|N]] Hf; try done; [lia|].
  cbn [GenSequence_]. pose proof (Nat.div_mod_eq (S (S N)) 2). pose proof (Nat.mod_upper_bound (S (S N)) 2).
  set (k := (S (S N) / 2)%nat) in *. rewrite (IH k), (IH (S (S N) - k)%nat) by lia.
  cbn [mbind option_bind]. f_equal. unfold ConcatSequence. rewrite length_seq.
  replace (S (S N)) with (k + (S (S N) - k))%nat at 2 by lia.
  rewrite seq_app. f_equal. rewrite fmap_add_seq. f_equal. lia.
Qed.

Lemma GenSequence_ok N : GenSequence N = seq 0 N.
Proof. unfold GenSequence. by rewrite GenSequence_seq. Qed.

(** ** The macros expand *)

Lemma RSEQ_lookup k : (k ≤ 119)%nat → RSEQ_N !! (119 - k)%nat = Some k.
Proof.
  intros Hk. assert (Forall (λ k, RSEQ_N !! (119 - k)%nat = Some k) (seq 0 120)) as H
    by (apply (bool_decide_unpack _); vm_compute; reflexivity).
  apply (proj1 (Forall_forall _ _) H). apply in_seq. lia.
Qed.

Lemma GET_ARG_COUNT_ok args : (length args ≤ 119)%nat → GET_ARG_COUNT args = Some (length args).
Proof.
  intros Hl. unfold GET_ARG_COUNT, ARG_N.
  rewrite lookup_app_r, length_fmap, list_lookup_fmap by (rewrite length_fmap; lia).
  by rewrite RSEQ_lookup.
Qed.

Lemma MAKE_ARG_LIST_ok {A} (op : token → A) args : args ≠ [] →
  MAKE_ARG_LIST (length args) op args = Some (op <$> args).
Proof.
  induction args as [|x args IH]; [done|]. intros _. destruct args as [|y args]; [done|].
  change ((l ← MAKE_ARG_LIST (length (y :: args)) op (y :: args); Some (op x :: l)) =
    Some (op x :: (op <$> y :: args))).
  by rewrite IH.
Qed.

(** Types and names, in turn. *)
Definition declared (ms : list (token * token)) : list token := ms ≫= λ m, [m.1; m.2].

Lemma length_declared ms : length (declared ms) = (2 * length ms)%nat.
Proof. induction ms as [|m ms IH]; [done|]. cbn. fold (declared ms). lia. Qed.

Lemma SELECT_ok ms : ms ≠ [] → SELECT_MEMBER_NAMES_ (length ms) (declared ms) = Some (ms.*2).
Proof.
  induction ms as [|m ms IH]; [done|]. intros _. destruct ms as [|m' ms]; [done|].
  change (declared (m :: m' :: ms)) with (m.1 :: m.2 :: declared (m' :: ms)).
  change ((l ← SELECT_MEMBER_NAMES_ (length (m' :: ms)) (declared (m' :: ms)); Some (m.2 :: l)) =
    Some (m.2 :: (m' :: ms).*2)).
  by rewrite IH.
Qed.

Lemma SELECT_MEMBER_NAMES_ok ms : ms ≠ [] → (length ms ≤ 14)%nat →
  SELECT_MEMBER_NAMES_IMPL (declared ms) = Some (ms.*2).
Proof.
  intros Hne Hl. unfold SELECT_MEMBER_NAMES_IMPL.
  rewrite GET_ARG_COUNT_ok, length_declared by (rewrite length_declared; lia). cbn [mbind option_bind].
  rewrite Nat.even_mul. cbn [Nat.even orb andb]. rewrite (proj2 (Nat.leb_le _ _)) by lia.
  rewrite Nat.mul_comm, Nat.div_mul by lia. by apply SELECT_ok.
Qed.

Lemma REFLECTION_ok name names : names ≠ [] → (length names ≤ 119)%nat →
  REFLECTION name names = Some (mkReflected (literal name) names (literal <$> names)).
Proof.
  intros Hne Hl. unfold REFLECTION, CONST_STR. rewrite GET_ARG_COUNT_ok by done. cbn [mbind option_bind].
  rewrite !MAKE_ARG_LIST_ok by done. cbn [mbind option_bind]. by rewrite list_fmap_id.
Qed.

Lemma R_DECLARE_PACKET_ok name uri ms : ms ≠ [] → (length ms ≤ 14)%nat →
  R_DECLARE_PACKET (name :: uri :: declared ms) =
  Some (length ms, mkReflected (literal name) (ms.*2) (literal <$> ms.*2)).
Proof.
  intros Hne Hl. unfold R_DECLARE_PACKET.
  rewrite GET_ARG_COUNT_ok by (cbn; rewrite length_declared; lia). cbn [mbind option_bind length head].
  change (drop 2 (name :: uri :: declared ms)) with (declared ms).
  rewrite length_declared. unfold ARG_N_2_PACKET_N.
  replace (S (S (2 * length ms))) with (2 * S (length ms))%nat by lia.
  rewrite Nat.even_mul. cbn [Nat.even orb andb].
  assert (0 < length ms)%nat by (destruct ms; [done|cbn; lia]).
  rewrite (proj2 (Nat.leb_le 2 _)), (proj2 (Nat.leb_le _ 30)) by lia.
  rewrite (Nat.mul_comm 2), Nat.div_mul by lia. cbn [mbind option_bind andb].
  rewrite SELECT_MEMBER_NAMES_ok by done. cbn [mbind option_bind].
  rewrite REFLECTION_ok; [cbn; do 2 f_equal; lia|by destruct ms|rewrite length_fmap; lia].
Qed.

(** ** Members are found *)

Lemma find_member_from names name k : Forall text names → text name → ∀ n, (k + n = length names)%nat →
  GetIdIsSame (mkReflected (literal []) names (literal <$> names)) (literal name) (seq k n) =
  Ok match list_find (name =.) (drop k names) with Some (i, _) => Z.of_nat (k + i) | None => -1 end.
Proof.
  intros Hns Hn n. revert k. induction n as [|n IH]; intros k Hk.
  - rewrite drop_ge by lia. done.
  - cbn [seq GetIdIsSame]. unfold GetName. cbn [Arr]. rewrite list_lookup_fmap.
    destruct (names !! k) as [m|] eqn:E; [|apply lookup_ge_None in E; lia].
    assert (text m) as Hm by (by apply (proj1 (Forall_lookup _ _) Hns k)).
    cbn [fmap option_fmap option_map mbind result_bind]. rewrite literals_equal by done.
    rewrite (drop_S names m k E). cbn [list_find mbind result_bind].
    destruct (decide (name = m)) as [->|Hne].
    + rewrite bool_decide_true by done. by rewrite Nat.add_0_r.
    + rewrite bool_decide_false by done. rewrite IH by lia.
      destruct (list_find _ _) as [[i x]|]; [|done]. cbn. f_equal. f_equal. lia.
Qed.

Lemma GetId_ok name names m : Forall text names → text m →
  GetId (mkReflected (literal name) names (literal <$> names)) (literal m) =
  Ok match list_find (m =.) names with Some (i, _) => Z.of_nat i | None => -1 end.
Proof.
  intros Hns Hm. unfold GetId, GetMembersCount. cbn [members]. rewrite GenSequence_ok.
  assert (∀ ids, GetIdIsSame (mkReflected (literal name) names (literal <$> names)) (literal m) ids =
    GetIdIsSame (mkReflected (literal []) names (literal <$> names)) (literal m) ids) as ->.
  { induction ids as [|i ids IH]; [done|]. cbn [GetIdIsSame]. unfold GetName. cbn [Arr].
    destruct (_ !! i); [|done]. cbn. destruct (StringRef_eq _ _) as [[]|]; done. }
  by rewrite (find_member_from names m 0) by done.
Qed.

(** ** Counting *)

Definition counted (k : nat) : crumbs := Nat.iter k COUNTER_INC [].

Fixpoint check_counter (n k : nat) (c : crumbs) : bool :=
  match n with
  | O => true
  | S n => (COUNTER_READ c =? k `min` 255)%nat && check_counter n (S k) (COUNTER_INC c)
  end.

Lemma check_counter_ok n k : check_counter n k (counted k) = true →
  ∀ j, (k ≤ j < k + n)%nat → COUNTER_READ (counted j) = (j `min` 255)%nat.
Proof.
  revert k. induction n as [|n IH]; intros k H j Hj; [lia|].
  cbn [check_counter] in H. apply andb_true_iff in H as [H1 H2].
  destruct (decide (j = k)) as [->|Hne]; [by apply Nat.eqb_eq in H1|].
  apply (IH (S k) H2). lia.
Qed.

Lemma count_ok k : (k ≤ 256)%nat → COUNTER_READ (counted k) = (k `min` 255)%nat.
Proof.
  intros Hk. apply (check_counter_ok 257 0); [vm_compute; reflexivity|lia].
Qed.

(** The attributes of a member that has been given some tags. *)
Definition with_tags (ts : list token) : attributes := foldl (λ a t, R_ATTRIBUTE t a) no_attributes ts.

Lemma with_tags_snoc ts t : with_tags (ts ++ [t]) = R_ATTRIBUTE t (with_tags ts).
Proof. unfold with_tags. by rewrite foldl_snoc. Qed.

Lemma with_tags_storage ts : (length ts ≤ 255)%nat →
  counter (with_tags ts) = counted (length ts) ∧
  ∀ i, List.find (λ x, (x.1 =? i)%nat) (storage (with_tags ts)) = (λ t, (i, literal t)) <$> ts !! i.
Proof.
  induction ts as [|t ts IH] using rev_ind; intros Hl; [done|].
  rewrite length_app in Hl. cbn in Hl. destruct IH as [IHc IHs]; [lia|].
  rewrite with_tags_snoc. unfold R_ATTRIBUTE. cbn [counter storage].
  rewrite length_app, Nat.add_comm, IHc. split; [done|]. intros i. cbn [List.find fst].
  rewrite count_ok by lia. rewrite Nat.min_l by lia.
  destruct (Nat.eqb_spec (length ts) i) as [<-|Hne].
  - by rewrite lookup_app_r, Nat.sub_diag by lia.
  - rewrite IHs. destruct (decide (i < length ts)%nat).
    + by rewrite lookup_app_l.
    + rewrite !lookup_ge_None_2; [done|rewrite length_app; cbn; lia|lia].
Qed.

Lemma HasAttribute_ok ts t : Forall text ts → text t → (length ts ≤ 255)%nat →
  HasAttribute (with_tags ts) (literal t) = Some (Ok (bool_decide (t ∈ ts))).
Proof.
  intros Hts Ht Hl. destruct (with_tags_storage ts Hl) as [Hc Hs].
  unfold HasAttribute. rewrite Hc, count_ok, Nat.min_l, GenSequence_ok by lia.
  assert (∀ n k, (k + n = length ts)%nat → HasAttributeImpl (with_tags ts) (literal t) (seq k n) =
    Some (Ok (bool_decide (t ∈ drop k ts)))) as H by
    (induction n as [|n IH]; intros k Hk;
     [rewrite drop_ge by lia; by rewrite bool_decide_false by apply not_elem_of_nil|];
     cbn [seq HasAttributeImpl]; rewrite Hs;
     destruct (ts !! k) as [s|] eqn:E; [|apply lookup_ge_None in E; lia];
     cbn [fmap option_fmap option_map mbind option_bind snd];
     rewrite literals_equal by (done || by apply (proj1 (Forall_lookup _ _) Hts k));
     rewrite (drop_S ts s k E); destruct (decide (s = t)) as [->|Hne];
     [rewrite !bool_decide_true by (done || by left); done|];
     rewrite (bool_decide_false (s = t)), IH by (done || lia); do 2 f_equal;
     apply bool_decide_ext; rewrite elem_of_cons; split; [by right|by intros [->|?]]).
  by rewrite (H (length ts) 0%nat).
Qed.

(** ** Properties *)

(** the macros with reflection give a packet of up to fourteen members the packing
    macro of that arity, the names of its members in order, and access to each of them by
    its name; a name that is not a member's is not found. *)
Theorem packet_members_reflected (name uri : token) (ms : list (token * token)) :
  ms ≠ [] → (length ms ≤ 14)%nat → Forall text (ms.*2) → NoDup (ms.*2) →
  ∃ r, R_DECLARE_PACKET (name :: uri :: declared ms) = Some (length ms, r) ∧
    (∀ i, (i < length ms)%nat → ∃ m, ms.*2 !! i = Some m ∧ GetName r i = Ok (literal m) ∧
       GetId r (literal m) = Ok (Z.of_nat i) ∧ ∀ A (t : token → A), Get r i t = Some (t m)) ∧
    (∀ m, text m → m ∉ ms.*2 → GetId r (literal m) = Ok (-1)).
Proof.
  intros Hne Hl Ht Hd. eexists. split; [by apply R_DECLARE_PACKET_ok|]. split.
  - intros i Hi. destruct (lookup_lt_is_Some_2 (ms.*2) i) as [m Hm]; [by rewrite length_fmap|].
    exists m. split; [done|]. unfold GetName, Get. cbn [Arr members]. rewrite list_lookup_fmap, Hm.
    split; [done|]. split; [|done]. rewrite GetId_ok by (done || by apply (proj1 (Forall_lookup _ _) Ht i)).
    assert (list_find (m =.) (ms.*2) = Some (i, m)) as ->; [|done].
    apply list_find_Some. split; [done|]. split; [done|]. intros j x Hj Hlt <-.
    pose proof (NoDup_lookup _ _ _ _ Hd Hm Hj). lia.
  - intros m Hm Hin. rewrite GetId_ok by done.
    assert (list_find (m =.) (ms.*2) = None) as ->; [|done].
    apply list_find_None, List.Forall_forall. intros x Hx%list_elem_of_In <-. done.
Qed.

(** a part of a literal is never equal to the literal with its characters, unless it
    reaches to the end: the comparison also looks at what follows.  And a literal with a 0
    in it is not equal to itself. *)
Theorem substrings_never_equal (s : token) (pos len : nat) :
  text s → (pos + len < length s)%nat → Z.of_nat (length s) < 2 ^ 31 →
  StringRef_eq (SubString (Z.of_nat pos) (Z.of_nat len) (literal s)) (literal (take len (drop pos s))) = Ok false ∧
  ∀ t, StringRef_eq (literal (s ++ 0 :: t)) (literal (s ++ 0 :: t)) = Ok false.
Proof.
  intros Hs Hl Hlen. split.
  - unfold StringRef_eq, SubString, literal, move. cbn [size_ begin_ array offset].
    set (part := take len (drop pos s)).
    assert (length part = len) as Hp by (unfold part; rewrite length_take, length_drop; lia).
    rewrite u32_small, Hp, Z.eqb_refl, Nat2Z.id by lia. cbn [negb].
    destruct (s !! (pos + len)%nat) as [c|] eqn:Ec; [|apply lookup_ge_None in Ec; lia].
    assert (s = take pos s ++ part ++ c :: drop (S (pos + len)) s) as E.
    { unfold part. rewrite <- (drop_S s c (pos + len) Ec), <- drop_drop, take_drop. by rewrite take_drop. }
    assert (text part) as Ht by (unfold part; by apply Forall_take, Forall_drop).
    rewrite E at 1. rewrite <- !app_assoc. cbn [List.app]. rewrite <- Hp at 1.
    rewrite (StringEqual_at part part (take pos s) [] c 0 _ [] _ 0); try done.
    + rewrite bool_decide_true by done. cbn [andb].
      rewrite (proj2 (Z.eqb_neq c 0)); [done|]. by apply (proj1 (Forall_lookup _ _) Hs (pos + len)%nat).
    + rewrite length_take. lia.
  - intros t. unfold StringRef_eq, literal. cbn [size_ begin_]. rewrite Z.eqb_refl, Nat2Z.id. cbn [negb].
    rewrite length_app. cbn [length]. rewrite <- app_assoc. cbn [List.app].
    by apply (StringEqual_zero s []).
Qed.

(** a counter counts to 255 and stays there, and up to 255 tags given to a member are
    found, and no other. *)
Theorem attributes_found (k : nat) (ts : list token) (t : token) :
  (k ≤ 256)%nat → (length ts ≤ 255)%nat → Forall text ts → text t →
  COUNTER_READ (Nat.iter k COUNTER_INC []) = (k `min` 255)%nat ∧
  HasAttribute (foldl (λ a t, R_ATTRIBUTE t a) no_attributes ts) (literal t) = Some (Ok (bool_decide (t ∈ ts))).
Proof. intros Hk Hl Hts Ht. split; [by apply count_ok|by apply HasAttribute_ok]. Qed.

Definition demo_members : list (token * token) :=
  [(str "uint32_t", str "vid"); (str "uint32_t", str "cid"); (str "std::string", str "name")].

Lemma packet_members_reflected_witness :
  ∃ r, R_DECLARE_PACKET (str "PChannel" :: str "12" :: declared demo_members) = Some (3%nat, r) ∧
    GetId r (literal (str "uid")) = Ok (-1).
Proof.
  destruct (packet_members_reflected (str "PChannel") (str "12") demo_members) as (r & E & _ & H).
  - discriminate.
  - cbn. lia.
  - apply (bool_decide_unpack _). vm_compute. reflexivity.
  - apply (bool_decide_unpack _). vm_compute. reflexivity.
  - exists r. split; [exact E|]. apply H; apply (bool_decide_unpack _); vm_compute; reflexivity.
Defined.

Lemma substrings_never_equal_witness :
  StringRef_eq (SubString 0 2 (literal (str "abc"))) (literal (str "ab")) = Ok false.
Proof.
  apply (substrings_never_equal (str "abc") 0 2).
  - apply (bool_decide_unpack _). vm_compute. reflexivity.
  - cbn. lia.
  - cbn. lia.
Defined.

Lemma attributes_found_witness :
  HasAttribute (foldl (λ a t, R_ATTRIBUTE t a) no_attributes [str "key"; str "id"]) (literal (str "id")) = Some (Ok true).
Proof.
  destruct (attributes_found 2 [str "key"; str "id"] (str "id")) as [_ H].
  - lia.
  - cbn. lia.
  - apply (bool_decide_unpack _). vm_compute. reflexivity.
  - apply (bool_decide_unpack _). vm_compute. reflexivity.
  - exact H.
Defined.
