(* ===== verification/CompileTime.v ===== *)
(** * CompileTime: the metafunctions of base/compile_time_utility.h beside the sequences

    Lookups in tuples by type, the argument lists numbered in base 5, and the array of
    base/reflection.hpp that grows by one.  What the compiler rejects is None.  Sequences
    themselves are in [Reflection]. *)

From Stdlib Require Import String.
From S2P Require Import Prelude Reflection.
From stdpp Require Import list.

#[local] Open Scope Z_scope.

(** ** Tuples *)

Section tuples.
Context {T : Type} `{EqDecision T}.

(** [_GetIndexOfElementFromTupleImpl]: without a match, the number behind the last. *)
Fixpoint GetIndexOfElementFromTuple (t : T) (N : nat) (Args : list T) : nat :=
  match Args with
  | [] => N
  | U :: Args => if decide (t = U) then N else GetIndexOfElementFromTuple t (S N) Args
  end.

(** [GetElementByType], on a tuple as its types with their values; [std::get] rejects an
    index behind the last. *)
Definition GetElementByType {V : Type} (t : T) (tuple : list (T * V)) : option V :=
  snd <$> tuple !! GetIndexOfElementFromTuple t 0 (fst <$> tuple).

(** [LastElement]: the empty list has no type. *)
Definition LastElement (ts : list T) : option T :=
  match ts with [] => None | _ => ts !! (length ts - 1)%nat end.

End tuples.

(** [AppendArray]: the elements at the indices of the sequence, and the new one. *)
Definition AppendArrayImpl {V} (arr : list V) (val : V) (I : list nat) : option (list V) :=
  l ← mapM (arr !!.) I; Some (l ++ [val]).
Definition AppendArray {V} (arr : list V) (val : V) : option (list V) :=
  AppendArrayImpl arr val (GenSequence (length arr)).

(** ** Argument lists *)

Inductive argument := int64_t | uint64_t | double | string_.

Definition SingleTag (N : Z) : option argument :=
  match N with
  | 1 => Some int64_t
  | 2 => Some uint64_t
  | 3 => Some double
  | 4 => Some string_
  | _ => None
  end.

(** The member templates of [TypeSet]. *)
Definition TypeSet_member (name : string) : option (argument → list argument → list argument) :=
  if String.eqb name "PushFront" then Some cons
  else if String.eqb name "PushBack" then Some (λ U T, T ++ [U])
  else None.

(** [Arguments<Tag>::type], for a member template of this name ([push] in the code). *)
Fixpoint Arguments_ (member : string) (fuel : nat) (Tag : Z) : option (list argument) :=
  if Tag =? 0 then Some []
  else
    match fuel with
    | O => None
    | S fuel =>
        SubArguments ← Arguments_ member fuel (Tag / 5);
        push ← TypeSet_member member;
        t ← SingleTag (Tag mod 5);
        Some (push t SubArguments)
    end.
Definition Arguments (Tag : Z) : option (list argument) := Arguments_ "push" 28 Tag.

(** ** Laws *)

Lemma index_shift {T} `{EqDecision T} (t : T) N Args :
  GetIndexOfElementFromTuple t N Args = (N + GetIndexOfElementFromTuple t 0 Args)%nat.
Proof.
  revert N. induction Args as [|U Args IH]; intros N; cbn; [lia|].
  destruct (decide (t = U)); [lia|]. rewrite (IH (S N)), (IH 1%nat). lia.
Qed.

(** The element found is the first of its type; a type that the tuple lacks is rejected. *)
Lemma GetElementByType_first {T V} `{EqDecision T} (t : T) (tuple : list (T * V)) :
  GetElementByType t tuple = snd ∘ snd <$> list_find (λ x, t = x.1) tuple.
Proof.
  unfold GetElementByType. induction tuple as [|[U v] tuple IH]; [done|].
  rewrite fmap_cons. cbn [GetIndexOfElementFromTuple list_find fst].
  destruct (decide (t = U)); [done|]. rewrite index_shift, Nat.add_1_l, lookup_cons.
  rewrite IH.
  by destruct (list_find _ tuple) as [[i [U' v']]|].
Qed.

Lemma AppendArray_app {V} (arr : list V) val : AppendArray arr val = Some (arr ++ [val]).
Proof.
  unfold AppendArray, AppendArrayImpl, GenSequence. rewrite GenSequence_seq by done. cbn [default id from_option].
  assert (mapM (arr !!.) (seq 0 (length arr)) = Some arr) as ->; [|done].
  apply mapM_Some, Forall2_same_length_lookup_2; [by rewrite length_seq|].
  intros i n v Hn Hv. apply lookup_seq in Hn as [-> _]. done.
Qed.

Lemma LastElement_last {T} (ts : list T) : LastElement ts = last ts.
Proof.
  destruct ts as [|t ts] using rev_ind; [done|]. rewrite last_snoc. unfold LastElement.
  rewrite length_app, Nat.add_sub, lookup_app_r, Nat.sub_diag by done.
  by destruct (ts ++ [t]) eqn:E; [destruct ts|].
Qed.

(** The tag of a list of arguments: a digit in base 5 for each, the last the lowest. *)
Definition tag_of (a : argument) : Z :=
  match a with int64_t => 1 | uint64_t => 2 | double => 3 | string_ => 4 end.
Definition tag (l : list argument) : Z := foldr (λ a n, 5 * n + tag_of a) 0 l.

Lemma tag_nonneg l : 0 ≤ tag l.
Proof.
  induction l as [|a l IH]; [done|]. change (tag (a :: l)) with (5 * tag l + tag_of a).
  destruct a; cbn [tag_of]; lia.
Qed.

(** With the member template that exists, the list that a tag stands for would be read off
    its digits; with the one the code names, every tag but 0 is rejected. *)
Lemma Arguments_with_PushFront l fuel : (length l ≤ fuel)%nat → Arguments_ "PushFront" fuel (tag l) = Some l.
Proof.
  revert fuel. induction l as [|a l IH]; intros fuel Hf; [by destruct fuel|].
  destruct fuel as [|fuel]; [cbn in Hf; lia|]. pose proof (tag_nonneg l).
  cbn [Arguments_]. change (tag (a :: l)) with (5 * tag l + tag_of a).
  assert (0 < tag_of a < 5) by (destruct a; cbn; lia).
  rewrite (proj2 (Z.eqb_neq _ 0)) by lia.
  replace ((5 * tag l + tag_of a) / 5) with (tag l)
    by (rewrite Z.add_comm, Z.mul_comm, Z.div_add, Z.div_small; lia).
  rewrite IH by (cbn in Hf; lia).
  replace ((5 * tag l + tag_of a) mod 5) with (tag_of a)
    by (rewrite Z.add_comm, Z.mul_comm, Z.mod_add, Z.mod_small; lia).
  by destruct a.
Qed.

Lemma Arguments_rejected Tag : Tag ≠ 0 → Arguments Tag = None.
Proof.
  intros HT. unfold Arguments. cbn [Arguments_]. rewrite (proj2 (Z.eqb_neq Tag 0)) by done.
  by destruct (if Tag / 5 =? 0 then _ else _).
Qed.
