(* ===== verification/TypeList.v ===== *)
(** * TypeList: the type computations of base/type_traits.hpp

    The metafunctions on lists of types as functions on lists; a type is a value of [T].
    What a [static_assert] or a missing specialization rejects is [None]. *)

From S2P Require Import Prelude.

(** [Conjunction], [Disjunction], [Negation] on the values of their arguments. *)
Fixpoint Conjunction (l : list bool) : bool :=
  match l with
  | [] => true
  | [c] => c
  | c0 :: rest => if c0 then Conjunction rest else c0
  end.
Fixpoint Disjunction (l : list bool) : bool :=
  match l with
  | [] => false
  | [c] => c
  | c0 :: rest => if c0 then c0 else Disjunction rest
  end.
Definition Negation (b : bool) : bool := negb b.

Section type_list.
Context {T : Type}.

(** [TypeList<Ts...>::Type<I>]; the index must be smaller than the number of types. *)
Fixpoint type_list_idx (i : nat) (ts : list T) : option T :=
  match i, ts with
  | O, t :: _ => Some t
  | S i, _ :: rest => type_list_idx i rest
  | _, [] => None
  end.
Definition Type_ (i : nat) (ts : list T) : option T :=
  if (i <? length ts)%nat then type_list_idx i ts else None.

Definition PushBack (t : T) (ts : list T) : list T := ts ++ [t].
Definition PushFront (t : T) (ts : list T) : list T := t :: ts.
Definition Extend (us ts : list T) : list T := ts ++ us.

(** [Prefix<I>]: specialized for 0 and 1. *)
Fixpoint Prefix (i : nat) (ts : list T) : option (list T) :=
  match i with
  | O => Some []
  | S O => t ← Type_ 0 ts; Some [t]
  | S n => p ← Prefix n ts; t ← Type_ n ts; Some (PushBack t p)
  end.

(** [Suffix<I>]: the index [Size - I] is a [size_t], of which no type has one that wraps. *)
Fixpoint Suffix (i : nat) (ts : list T) : option (list T) :=
  match i with
  | O => Some []
  | S n =>
      if (length ts <? S n)%nat then None
      else s ← Suffix n ts; t ← Type_ (length ts - S n) ts; Some (PushFront t s)
  end.

(** [Index<T>]: the last of the list must be the type if no other is. *)
Fixpoint Index `{EqDecision T} (N : nat) (t : T) (ts : list T) : option nat :=
  match ts with
  | [] => None
  | [first] => if decide (t = first) then Some N else None
  | first :: rest => if decide (t = first) then Some N else Index (S N) t rest
  end.

Definition Contains `{EqDecision T} (t : T) (ts : list T) : bool :=
  Disjunction ((λ u, bool_decide (t = u)) <$> ts).
End type_list.

(** [Transform<Op>] and [FoldExpression<InitValue, Op>], from the end of the list down to
    their specializations for 1 and 0. *)
Fixpoint transform_helper {T U} (i : nat) (Op : T → U) (ts : list T) : option (list U) :=
  match i with
  | O => Some []
  | S O => t ← Type_ 0 ts; Some [Op t]
  | S n => p ← transform_helper n Op ts; t ← Type_ n ts; Some (PushBack (Op t) p)
  end.
Definition Transform {T U} (Op : T → U) (ts : list T) : option (list U) :=
  transform_helper (length ts) Op ts.

Fixpoint fold_expr_helper {T U} (InitValue : U) (Op : U → T → U) (i : nat) (ts : list T) : option U :=
  match i with
  | O => Some InitValue
  | S O => t ← Type_ 0 ts; Some (Op InitValue t)
  | S n => u ← fold_expr_helper InitValue Op n ts; t ← Type_ n ts; Some (Op u t)
  end.
Definition FoldExpression {T U} (InitValue : U) (Op : U → T → U) (ts : list T) : option U :=
  fold_expr_helper InitValue Op (length ts) ts.

(** ** They are what they are called *)

Section laws.
Context {T U : Type}.
Implicit Types ts : list T.

Lemma Type_lookup i ts : Type_ i ts = ts !! i.
Proof.
  unfold Type_. destruct (Nat.ltb_spec i (length ts)) as [Hl|Hl].
  - clear Hl. revert i. induction ts as [|t ts IH]; intros [|i]; cbn; done.
  - symmetry. by apply lookup_ge_None.
Qed.

Lemma Prefix_take i ts : (i ≤ length ts)%nat → Prefix i ts = Some (take i ts).
Proof.
  induction i as [|i IH]; intros Hl; [done|]. cbn [Prefix].
  destruct (lookup_lt_is_Some_2 ts i) as [t Ht]; [lia|]. rewrite (take_S_r _ _ _ Ht).
  destruct i as [|i].
  - by rewrite Type_lookup, Ht.
  - rewrite IH by lia. cbn [mbind option_bind]. by rewrite Type_lookup, Ht.
Qed.

Lemma Suffix_drop i ts : (i ≤ length ts)%nat → Suffix i ts = Some (drop (length ts - i) ts).
Proof.
  induction i as [|i IH]; intros Hl; cbn [Suffix].
  - by rewrite Nat.sub_0_r, drop_all.
  - rewrite (proj2 (Nat.ltb_ge _ _)), IH by lia. cbn [mbind option_bind].
    destruct (lookup_lt_is_Some_2 ts (length ts - S i)) as [t Ht]; [lia|].
    rewrite Type_lookup, Ht, (drop_S _ _ _ Ht). cbn. unfold PushFront. do 2 f_equal. f_equal. lia.
Qed.

Lemma transform_take n (Op : T → U) ts : (n ≤ length ts)%nat →
  transform_helper n Op ts = Some (Op <$> take n ts).
Proof.
  induction n as [|n IH]; intros Hl; [done|]. cbn [transform_helper].
  destruct (lookup_lt_is_Some_2 ts n) as [t Ht]; [lia|].
  rewrite (take_S_r _ _ _ Ht), fmap_app. destruct n as [|n].
  - by rewrite Type_lookup, Ht.
  - rewrite IH by lia. cbn [mbind option_bind]. by rewrite Type_lookup, Ht.
Qed.
Lemma Transform_map (Op : T → U) ts : Transform Op ts = Some (Op <$> ts).
Proof. unfold Transform. by rewrite transform_take, take_ge. Qed.

Lemma fold_take n (z : U) (Op : U → T → U) ts : (n ≤ length ts)%nat →
  fold_expr_helper z Op n ts = Some (foldl Op z (take n ts)).
Proof.
  induction n as [|n IH]; intros Hl; [done|]. cbn [fold_expr_helper].
  destruct (lookup_lt_is_Some_2 ts n) as [t Ht]; [lia|].
  rewrite (take_S_r _ _ _ Ht), foldl_app. destruct n as [|n].
  - by rewrite Type_lookup, Ht.
  - rewrite IH by lia. cbn [mbind option_bind]. by rewrite Type_lookup, Ht.
Qed.
Lemma FoldExpression_foldl (z : U) (Op : U → T → U) ts : FoldExpression z Op ts = Some (foldl Op z ts).
Proof. unfold FoldExpression. by rewrite fold_take, take_ge. Qed.

Lemma Index_find `{EqDecision T} t ts N : Index N t ts = (λ x, (N + x.1)%nat) <$> list_find (t =.) ts.
Proof.
  revert N. induction ts as [|u ts IH]; intros N; [done|]. cbn [Index list_find].
  destruct ts as [|v ts].
  - destruct (decide (t = u)); cbn; [f_equal; lia|done].
  - destruct (decide (t = u)); [cbn; f_equal; lia|]. rewrite IH.
    destruct (list_find _ _) as [[i x]|]; cbn; [f_equal; lia|done].
Qed.

Lemma Disjunction_existsb l : Disjunction l = existsb id l.
Proof. induction l as [|b [|c l] IH]; [done|by cbn; rewrite orb_false_r|]. destruct b; [done|exact IH]. Qed.
Lemma Conjunction_forallb l : Conjunction l = forallb id l.
Proof. induction l as [|b [|c l] IH]; [done|by cbn; rewrite andb_true_r|]. destruct b; [exact IH|done]. Qed.

Lemma Contains_elem `{EqDecision T} t ts : Contains t ts = bool_decide (t ∈ ts).
Proof.
  unfold Contains. rewrite Disjunction_existsb. induction ts as [|u ts IH].
  - symmetry. apply bool_decide_eq_false, not_elem_of_nil.
  - cbn. rewrite IH. unfold id. destruct (decide (t = u)) as [->|Hne].
    + rewrite (bool_decide_true (u = u)) by done. cbn. symmetry. apply bool_decide_eq_true. by left.
    + rewrite (bool_decide_false (t = u)) by done. cbn. apply bool_decide_ext. rewrite elem_of_cons.
      split; [by right|by intros [->|?]].
Qed.
End laws.
