(* ===== verification/MemProxy.v ===== *)
(** * MemProxy: memory/mem_proxy.h

    A view of a buffer as a sequence of plain structs.  [CreatedMemProxy] owns a buffer of
    its own; [BorrowedMemProxy] looks into a [MemSliceSpan], and when a struct lies across
    two of its blocks it first copies the span into a single block.

    A struct is a type of [T] with its size; a pointer is a buffer and an offset in it. *)

From stdpp Require Import gmap.
From S2P Require Import Prelude Bytes Wire MemBuf MemSlice MemSliceSpan TypeList.

Abbreviation ptr := (loc * Z)%type.

Section proxy.
Context {T : Type} (sizeof : T → Z).

(** ** The layout, in the compiler *)

Definition Sum (a b : Z) : Z := a + b.
Definition total (ts : option (list T)) : option Z :=
  ts ← ts; sizes ← Transform sizeof ts; FoldExpression 0 Sum sizes.
Definition FullSize (Ts : list T) : option Z := total (Some Ts).
Definition PrefixSize (N : nat) (Ts : list T) : option Z := total (Prefix N Ts).
Definition SuffixSize (N : nat) (Ts : list T) : option Z := total (Suffix N Ts).

(** ** BorrowedMemProxy *)

(** The constructor: [Full] is [FullSize]. *)
Definition Borrow (Full : Z) (buffer : MemSliceSpan) : HM MemSliceSpan :=
  _ ← lift (assert_ (Full <=? span_GetUsedSize buffer));
  copy_span buffer.

(** [buffer_ = buffer_.ToSingleBlock()]: the temporary takes the old blocks with it. *)
Definition merge (buffer_ : MemSliceSpan) : HM MemSliceSpan :=
  tmp ← ToSingleBlock buffer_;
  '(buffer_, tmp) ← move_assign_span buffer_ tmp;
  _ ← destroy_span tmp;
  mret buffer_.

(** The loop over the blocks; [again] is the recursive call. *)
Fixpoint layer_loop (again : MemSliceSpan → HM (option (option ptr * MemSliceSpan)))
    (i n : nat) (skip_sz sz : Z) (buffer_ : MemSliceSpan) : HM (option (option ptr * MemSliceSpan)) :=
  match n with
  | O => mret (Some (None, buffer_))
  | S n =>
      s ← subscript i buffer_;
      '(l, pos) ← Begin s;
      if GetUsedSize s <? skip_sz then layer_loop again (S i) n (skip_sz - GetUsedSize s) sz buffer_
      else if GetUsedSize s <? skip_sz + sz then
        buffer_ ← merge buffer_;
        again buffer_
      else mret (Some (Some (l, pos + skip_sz), buffer_))
  end.

(** [Layer<N>]: [pre] is the size of the prefix and [sz] of the struct; None inside: a
    null pointer, outside: out of fuel. *)
Fixpoint Layer (fuel : nat) (pre sz : Z) (buffer_ : MemSliceSpan) : HM (option (option ptr * MemSliceSpan)) :=
  match fuel with
  | O => mret None
  | S fuel =>
      if IsSingleBlock buffer_ then
        s ← GetFirstBlock buffer_;
        '(l, pos) ← Begin s;
        mret (Some (Some (l, pos + pre), buffer_))
      else layer_loop (Layer fuel pre sz) 0 (GetBlockCount buffer_) pre sz buffer_
  end.

(** [Layer<N>()] and [Layer<T>()] of a proxy of [Ts]; None: rejected by the compiler. *)
Definition LayerN (N : nat) (Ts : list T) (buffer_ : MemSliceSpan)
    : option (HM (option (option ptr * MemSliceSpan))) :=
  pre ← PrefixSize N Ts;
  t ← Type_ N Ts;
  Some (Layer 2 pre (sizeof t) buffer_).
Definition LayerT `{EqDecision T} (t : T) (Ts : list T) (buffer_ : MemSliceSpan)
    : option (HM (option (option ptr * MemSliceSpan))) :=
  N ← Index 0 t Ts; LayerN N Ts buffer_.

(** ** CreatedMemProxy *)

Definition CreateProxy (Ts : list T) : option (HM loc) :=
  n ← FullSize Ts; Some (alloc (MemBuf.Create n)).
Definition CreatedLayer (N : nat) (Ts : list T) (buffer_ : loc) : option ptr :=
  pre ← PrefixSize N Ts; Some (buffer_, pre).
(** [ToSlice] releases the buffer to a slice of the default size. *)
Definition ToSlice (buffer_ : loc) : HM MemSlice := make (Some buffer_) 65536.
Definition DestroyCreated (buffer_ : option loc) : HM unit := when_some buffer_ release.

(** The layout is the sum of the sizes. *)
Lemma total_sum ts : total (Some ts) = Some (foldl Sum 0 (sizeof <$> ts)).
Proof. unfold total. cbn [mbind option_bind]. rewrite Transform_map. apply FoldExpression_foldl. Qed.

Lemma foldl_sum l z : foldl Sum z l = z + foldr Z.add 0 l.
Proof. revert z. induction l as [|x l IH]; intros z; cbn; [lia|]. rewrite IH. unfold Sum. lia. Qed.

Lemma PrefixSize_ok N Ts : (N ≤ length Ts)%nat →
  PrefixSize N Ts = Some (foldr Z.add 0 (sizeof <$> take N Ts)).
Proof. intros Hl. unfold PrefixSize. by rewrite Prefix_take, total_sum, foldl_sum. Qed.
End proxy.

(** ** The merge *)

Lemma HM_bind_ok {A B} (m : HM A) (f : A → HM B) h a h' r :
  m h = Ok (a, h') → f a h' = r → (m ≫= f) h = r.
Proof. intros E <-. by apply HM_ok. Qed.

(** A new slice on a buffer shows its beginning. *)
Lemma make_at h l b size : h !! l = Some b →
  make (Some l) size h = Ok (mkMemSlice (Some l) 0 (Z.min size (MemBuf.capacity_ b)), <[l := MemBuf.AddRef b]> h).
Proof.
  intros Hb. unfold make, Initialize, add_ref, buf_capacity, load, store, mbind, HM_bind. rewrite Hb.
  cbv beta iota delta [mret HM_ret]. rewrite !lookup_insert_eq. reflexivity.
Qed.

(** Giving up the references of some slices. *)
Lemma reset_blocks_ok h r f pre mid post :
  heap_ok h r f → (∀ l, refs mid l ≤ f l < 2 ^ 31) →
  ∃ h', reset_blocks (length pre) (length mid) (pre ++ mid ++ post) h =
      Ok (pre ++ replicate (length mid) null_slice ++ post, h') ∧
    heap_ok h' r (λ l, f l - refs mid l) ∧ shrinks h h'.
Proof.
  revert h f pre. induction mid as [|s mid IH]; intros h f pre Hh Hf.
  - exists h. split; [done|]. split; [|done]. eapply heap_ok_ext; [|done]. intros l. cbn. lia.
  - cbn [length reset_blocks]. assert ((pre ++ (s :: mid) ++ post) !! length pre = Some s) as Hs.
    { rewrite lookup_app_r, Nat.sub_diag by done. done. }
    rewrite (HM_ok _ _ _ _ _ (block_lookup _ _ _ h Hs)).
    destruct (drop_ref_ok h r f s Hh) as (h1 & E1 & Hh1 & Hs1).
    { intros l. specialize (Hf l). cbn in Hf. pose proof (refs_bound mid l). lia. }
    destruct (IH h1 (λ l, f l - holds_ref s l) (pre ++ [null_slice]) Hh1) as (h2 & E2 & Hh2 & Hs2).
    { intros l. specialize (Hf l). cbn in Hf. pose proof (holds_ref_bound s l). lia. }
    exists h2. split; [|split; [|by etransitivity]].
    + unfold MemSlice.Reset. unfold mbind at 1, HM_bind at 1. rewrite (HM_ok _ _ _ _ _ E1).
      cbn [Initialize mret HM_ret].
      assert (put (length pre) null_slice (pre ++ (s :: mid) ++ post) h1 =
        Ok ((pre ++ [null_slice]) ++ mid ++ post, h1)) as Ep.
      { rewrite put_lookup by (rewrite length_app; cbn; lia).
        rewrite insert_app_r_alt, Nat.sub_diag by done. by rewrite <- app_assoc. }
      rewrite (HM_ok _ _ _ _ _ Ep). rewrite length_app, Nat.add_comm in E2. cbn in E2. rewrite E2.
      by rewrite <- app_assoc.
    + eapply heap_ok_ext; [|exact Hh2]. intros l. cbn. lia.
Qed.

Lemma destroy_null_blocks n h : destroy_blocks (replicate n null_slice) h = Ok (tt, h).
Proof.
  induction n as [|n IH]; [done|]. cbn [replicate destroy_blocks].
  by rewrite (HM_ok _ _ _ _ _ IH).
Qed.

(** Copying the blocks of a span to a buffer of its own. *)
Lemma CloneSpannedMem_ok h self ws : spells h self ws → (length ws < kMaxBlocks)%nat →
  CloneSpannedMem self h =
  Ok (fresh_loc h, <[fresh_loc h := mkMemBuf 0 (size_ self) (concat ws)]> h).
Proof.
  intros (Hc & _ & Hs & _ & used & Hb & Hw) Hn. unfold CloneSpannedMem, some_room.
  rewrite Hc, (proj2 (Nat.ltb_lt _ _) Hn), (HM_ok _ _ h tt h) by done.
  pose proof (gather_ok h used ws Hw [] (replicate (kMaxBlocks - length ws) null_slice)) as Hg.
  cbn [length List.app] in Hg. rewrite Hb. rewrite (HM_ok _ _ _ _ _ Hg).
  cbn [MemBuf.Create MemBuf.mem MemBuf.capacity_]. rewrite write_at_ok by (rewrite length_replicate; lia).
  rewrite (HM_ok _ _ _ _ _ (lift_ok _ h)). unfold alloc. do 3 f_equal. f_equal.
  unfold splice. cbn [take List.app Nat.add]. rewrite drop_ge by (rewrite length_replicate; lia).
  by rewrite app_nil_r.
Qed.

Lemma refs_nulls n l : refs (replicate n null_slice) l = 0.
Proof. induction n as [|n IH]; [done|]. cbn. unfold holds_ref at 1. by rewrite IH. Qed.

(** The single block is on a new buffer that holds what the span spelled. *)
Lemma ToSingleBlock_ok h r f self ws :
  heap_ok h r f → spells h self ws → (1 < length ws < kMaxBlocks)%nat →
  (∀ l, f l < 2 ^ 31 - 1) → size_ self ≤ 65536 →
  ∃ l h' b, h !! l = None ∧
    ToSingleBlock self h = Ok (one_block (size_ self) (mkMemSlice (Some l) 0 (size_ self)), h') ∧
    h' !! l = Some b ∧ MemBuf.mem b = concat ws ∧ MemBuf.capacity_ b = size_ self ∧
    heap_ok h' r (λ k, f k + holds_ref (mkMemSlice (Some l) 0 (size_ self)) k) ∧
    (∀ k, k ≠ l → h' !! k = h !! k).
Proof.
  intros Hh Hsp Hn Hf Hsize. pose proof Hsp as (Hc & _ & Hs & _).
  set (n := size_ self) in *. set (l := fresh_loc h). pose proof (fresh_loc_fresh h) as Hl. fold l in Hl.
  set (b := mkMemBuf 0 n (concat ws)).
  assert (MemBuf.wf b) as Hwf by (split; cbn; lia).
  destruct (alloc_ok h r f b Hh Hwf eq_refl) as (l1 & h1 & Ea & Hb1 & _ & _ & Hh1 & Hkeep).
  unfold alloc in Ea. fold l in Ea. injection Ea as <- <-. set (h1 := <[l := b]> h) in *.
  pose proof (make_at h1 l b 65536 Hb1) as Em. cbn [MemBuf.capacity_ b] in Em.
  rewrite Z.min_r in Em by lia.
  destruct (make_ok h1 ({[l]} ∪ r) f (Some l) 65536 Hh1) as (s & h2 & Em' & _ & Hh2 & _);
    [right; apply elem_of_union; left; by apply elem_of_singleton|intros k; apply Hf|lia|].
  rewrite Em in Em'. injection Em' as <- <-. exists l, (<[l := MemBuf.AddRef b]> h1), (MemBuf.AddRef b).
  split; [done|]. split.
  { unfold ToSingleBlock, some_room. rewrite Hc, (proj2 (Nat.ltb_lt _ kMaxBlocks)), (HM_ok _ _ h tt h) by (done || lia).
    rewrite (proj2 (Nat.leb_gt _ 1)) by lia.
    rewrite (HM_ok _ _ _ _ _ (CloneSpannedMem_ok h self ws Hsp (proj2 Hn))). fold l n b h1.
    unfold of_buffer, buf_capacity, load, mbind, HM_bind. rewrite Hb1. cbv beta iota delta [mret HM_ret].
    by rewrite Em. }
  split; [apply lookup_insert_eq|]. split; [done|]. split; [done|]. split.
  - assert (take_raw (Some l) ({[l]} ∪ r) = r) as <-; [|done].
    assert (l ∉ r) as Hlr.
    { intros Hin. destruct Hh as (_ & _ & H3). destruct (H3 l (or_intror Hin)) as [? E]. congruence. }
    cbn. apply set_eq. intros k. rewrite elem_of_difference, elem_of_union, elem_of_singleton.
    split; [by intros [[->|?] ?]|]. intros Hk. split; [by right|]. by intros ->.
  - intros k Hk. unfold h1. by rewrite !lookup_insert_ne.
Qed.

(** Assigning a single block drops the old ones. *)
Lemma take_over h r f u0 used k n s :
  heap_ok h r f → (∀ l, refs (u0 :: used) l ≤ f l < 2 ^ 31) → (S (length used) + k = kMaxBlocks)%nat →
  let self := mkSpan n (S (length used)) (u0 :: used ++ replicate k null_slice) in
  ∃ h', ('(buffer_, tmp) ← move_assign_span self (one_block n s);
         _ ← destroy_span tmp; mret buffer_) h = Ok (one_block n s, h') ∧
    heap_ok h' r (λ l, f l - refs (u0 :: used) l) ∧ shrinks h h'.
Proof.
  intros Hh Hf Hk self.
  destruct (reset_blocks_ok h r f [s] used (replicate k null_slice) Hh) as (h1 & E1 & Hh1 & Hs1).
  { intros l. specialize (Hf l). cbn in Hf. pose proof (holds_ref_bound u0 l). lia. }
  destruct (drop_ref_ok h1 r (λ l, f l - refs used l) u0 Hh1) as (h2 & E2 & Hh2 & Hs2).
  { intros l. specialize (Hf l). cbn in Hf. pose proof (refs_bound used l). lia. }
  exists h2. split; [|split; [|by etransitivity]].
  - assert (move_assign_span self (one_block n s) h =
      Ok ((one_block n s, mkSpan 0 0 (u0 :: replicate (kMaxBlocks - 1) null_slice)), h1)) as Em.
    { unfold move_assign_span. rewrite (HM_ok _ _ h tt h) by done.
      assert (swap_blocks 0 1 (blocks self) (blocks (one_block n s)) h =
        Ok ((s :: used ++ replicate k null_slice, u0 :: replicate (kMaxBlocks - 1) null_slice), h)) as Es by done.
      cbn [one_block block_count_ self]. rewrite (HM_ok _ _ _ _ _ Es).
      rewrite Nat.sub_succ, Nat.sub_0_r. cbn [length List.app] in E1. rewrite (HM_ok _ _ _ _ _ E1).
      rewrite <- replicate_add. assert (length used + k = kMaxBlocks - 1)%nat as -> by lia. done. }
    rewrite (HM_ok _ _ _ _ _ Em).
    assert (destroy_span (mkSpan 0 0 (u0 :: replicate (kMaxBlocks - 1) null_slice)) h1 = Ok (tt, h2)) as Ed.
    { unfold destroy_span. cbn [blocks destroy_blocks].
      rewrite (HM_ok _ _ _ _ _ (destroy_null_blocks (kMaxBlocks - 1) h1)). exact E2. }
    by rewrite (HM_ok _ _ _ _ _ Ed).
  - eapply heap_ok_ext; [|exact Hh2]. intros l. cbn. lia.
Qed.

(** The merged span: one block that holds what the span spelled; the references to the old
    blocks are gone. *)
Lemma merge_ok h r f self ws :
  heap_ok h r f → spells h self ws → (1 < length ws < kMaxBlocks)%nat →
  (∀ l, refs (blocks self) l ≤ f l < 2 ^ 31 - 1) → size_ self ≤ 65536 →
  ∃ l h' b f', h !! l = None ∧
    merge self h = Ok (one_block (size_ self) (mkMemSlice (Some l) 0 (size_ self)), h') ∧
    h' !! l = Some b ∧ MemBuf.mem b = concat ws ∧ MemBuf.capacity_ b = size_ self ∧
    heap_ok h' r f' ∧ f' l = 1 ∧ (∀ k, k ≠ l → f' k = f k - refs (blocks self) k).
Proof.
  intros Hh Hsp Hn Hf Hsize.
  destruct (ToSingleBlock_ok h r f self ws Hh Hsp Hn (λ l, proj2 (Hf l)) Hsize)
    as (l & h1 & b1 & Hl & Et & Hb1 & Hm1 & Hc1 & Hh1 & Hkeep).
  pose proof Hsp as (Hc & _ & Hs & _ & used & Hb & Hw).
  destruct used as [|u0 used]; [apply Forall2_length in Hw; cbn in Hw; lia|].
  assert (length ws = S (length used)) as Hlen by (apply Forall2_length in Hw; cbn in Hw; lia).
  set (s := mkMemSlice (Some l) 0 (size_ self)) in *.
  assert (∀ k, refs (blocks self) k = refs (u0 :: used) k) as Hrefs.
  { intros k. rewrite Hb, refs_app, refs_nulls. lia. }
  destruct (take_over h1 r _ u0 used (kMaxBlocks - length ws) (size_ self) s Hh1) as (h2 & E2 & Hh2 & Hs2).
  { intros k. specialize (Hf k). rewrite <- Hrefs. pose proof (holds_ref_bound s k). lia. }
  { unfold kMaxBlocks in *. lia. }
  assert (f l = 0 ∧ refs (blocks self) l = 0) as [Hfl Hrl].
  { destruct Hh as (H1 & _ & H3). assert (¬ 0 < f l) as Hn0.
    { intros Hp. destruct (H3 l (or_introl Hp)) as [? E]. congruence. }
    specialize (H1 l). specialize (Hf l). pose proof (refs_bound (blocks self) l). lia. }
  assert (∀ k, holds_ref s k = if decide (k = l) then 1 else 0) as Hholds.
  { intros k. unfold holds_ref. cbn. repeat case_decide; congruence. }
  assert (is_Some (h2 !! l)) as [b2 Hb2].
  { apply Hh2. left. rewrite <- Hrefs, Hrl, Hfl, Hholds, decide_True by done. lia. }
  destruct (Hs2 l b2 Hb2) as (b1' & E1 & Hcap & Hmem). rewrite Hb1 in E1. injection E1 as <-.
  exists l, h2, b2, (λ k, f k + holds_ref s k - refs (blocks self) k). split; [done|]. split.
  { unfold merge. rewrite (HM_ok _ _ _ _ _ Et).
    assert (self = mkSpan (size_ self) (S (length used)) (u0 :: used ++ replicate (kMaxBlocks - length ws) null_slice)) as Eself.
    { destruct self. cbn in *. congruence. }
    rewrite Eself at 1. exact E2. }
  split; [done|]. split; [congruence|]. split; [congruence|]. split.
  - eapply heap_ok_ext; [|exact Hh2]. intros k. cbn beta. by rewrite Hrefs.
  - split; [rewrite Hholds, decide_True by done; lia|]. intros k Hk. rewrite Hholds, decide_False by done. lia.
Qed.

(** ** Where a struct is *)

(** [sz] bytes from [pos] of a buffer. *)
Definition bytes_at (h : heap) (l : loc) (pos sz : Z) : option (list cell) :=
  b ← h !! l; Some (take (Z.to_nat sz) (drop (Z.to_nat pos) (MemBuf.mem b))).
Definition part (pre sz : Z) (w : list cell) : list cell := take (Z.to_nat sz) (drop (Z.to_nat pre) w).

Lemma block_part h s w pre sz : block_ok h s w → 0 ≤ pre → 0 ≤ sz → pre + sz ≤ Z.of_nat (length w) →
  ∃ l, Begin s h = Ok ((l, begin_offset_ s), h) ∧ GetUsedSize s = Z.of_nat (length w) ∧ buffer_ s = Some l ∧
    bytes_at h l (begin_offset_ s + pre) sz = Some (part pre sz w).
Proof.
  intros Hb Hp Hs Hl. destruct (block_ok_window h s w Hb) as [_ Hu].
  destruct Hb as (l & b & Hbuf & Hh & _ & Hw & _ & E). unfold window_ok in Hw. rewrite Hbuf in Hw.
  specialize (Hw b Hh). exists l. split; [unfold Begin, non_null; by rewrite Hbuf|]. split; [done|]. split; [done|].
  unfold bytes_at, part. rewrite Hh. cbn. f_equal. rewrite E, Hu, Nat2Z.id.
  replace (Z.to_nat (begin_offset_ s + pre)) with (Z.to_nat (begin_offset_ s) + Z.to_nat pre)%nat by lia.
  rewrite <- drop_drop, skipn_firstn_comm, take_take. f_equal. lia.
Qed.

Lemma block_begin h s w : block_ok h s w →
  ∃ l, Begin s h = Ok ((l, begin_offset_ s), h) ∧ buffer_ s = Some l.
Proof.
  intros (l & b & Hbuf & _). exists l. split; [unfold Begin, non_null; by rewrite Hbuf|done].
Qed.

Lemma part_skip pre sz w rest : Z.of_nat (length w) ≤ pre → part pre sz (w ++ rest) = part (pre - Z.of_nat (length w)) sz rest.
Proof.
  intros Hl. unfold part. rewrite drop_app_ge by lia. do 3 f_equal. lia.
Qed.
Lemma part_inside pre sz w rest : 0 ≤ pre → 0 ≤ sz → pre + sz ≤ Z.of_nat (length w) →
  part pre sz (w ++ rest) = part pre sz w.
Proof.
  intros Hp Hs Hl. unfold part. rewrite drop_app_le, take_app_le; [done|rewrite length_drop; lia|lia].
Qed.

Lemma subscript_ok h self i s : (i < block_count_ self)%nat → blocks self !! i = Some s → subscript i self h = Ok (s, h).
Proof.
  intros Hi Hs. unfold subscript. rewrite (proj2 (Nat.ltb_lt _ _) Hi), (HM_ok _ _ h tt h) by done.
  by apply block_lookup.
Qed.

(** A turn of the loop at a block that shows [w]. *)
Lemma layer_step again h self i n s w l pre sz :
  (i < block_count_ self)%nat → blocks self !! i = Some s → block_ok h s w → buffer_ s = Some l →
  layer_loop again i (S n) pre sz self h =
  if Z.of_nat (length w) <? pre then layer_loop again (S i) n (pre - Z.of_nat (length w)) sz self h
  else if Z.of_nat (length w) <? pre + sz then (self' ← merge self; again self') h
  else Ok (Some (Some (l, begin_offset_ s + pre), self), h).
Proof.
  intros Hi Hbi Hs Hbuf. destruct (block_ok_window h s w Hs) as [_ Hsize].
  destruct (block_begin h s w Hs) as (l' & Eb & Hbuf'). rewrite Hbuf in Hbuf'. injection Hbuf' as <-.
  cbn [layer_loop]. rewrite (HM_ok _ _ _ _ _ (subscript_ok h self i s Hi Hbi)).
  rewrite (HM_ok _ _ _ _ _ Eb), Hsize. by repeat case_match.
Qed.

(** The loop finds the struct in a block, or merges. *)
Lemma layer_loop_ok again h self ws pre sz used rest : spells h self ws → 0 ≤ pre → 0 < sz →
  ∀ i, Forall2 (block_ok h) used rest → (i + length rest = length ws)%nat →
    take (length rest) (drop i (blocks self)) = used → pre + sz ≤ Z.of_nat (length (concat rest)) →
  (∃ l pos, layer_loop again i (length rest) pre sz self h = Ok (Some (Some (l, pos), self), h) ∧
     (∃ s, s ∈ used ∧ buffer_ s = Some l) ∧ bytes_at h l pos sz = Some (part pre sz (concat rest))) ∨
  layer_loop again i (length rest) pre sz self h = (self' ← merge self; again self') h.
Proof.
  intros Hsp Hpre Hsz i Hw. revert i pre Hpre. induction Hw as [|s w used rest Hs Hw IH]; intros i pre Hpre Hi Hu Hl.
  - cbn in Hl. lia.
  - cbn [length] in *. destruct (drop i (blocks self)) as [|s0 tl] eqn:Ed; [done|]. cbn [take] in Hu. injection Hu as -> Hu.
    assert (blocks self !! i = Some s) as Hbi by (rewrite <- (Nat.add_0_r i), <- lookup_drop, Ed; done).
    assert (drop (S i) (blocks self) = tl) as Ed' by (rewrite <- Nat.add_1_r, <- drop_drop, Ed; done).
    destruct (block_begin h s w Hs) as (l & Eb & Hbuf).
    rewrite (layer_step again h self i (length rest) s w l pre sz) by (done || (rewrite (proj1 Hsp); lia)).
    cbn [concat] in *. rewrite length_app in Hl.
    destruct (Z.ltb_spec (Z.of_nat (length w)) pre) as [Hlt|Hge].
    + rewrite part_skip by lia.
      destruct (IH (S i) (pre - Z.of_nat (length w))) as [(l' & pos & E & (s' & Hin & Hs') & Ep)|E]; [lia|lia|by rewrite Ed'|lia|..].
      * left. exists l', pos. split; [done|]. split; [|done]. exists s'. split; [by right|done].
      * by right.
    + destruct (Z.ltb_spec (Z.of_nat (length w)) (pre + sz)); [by right|]. left.
      destruct (block_part h s w pre sz Hs) as (l' & _ & _ & Hbuf' & Ep); [lia..|].
      rewrite Hbuf in Hbuf'. injection Hbuf' as <-.
      exists l, (begin_offset_ s + pre). split; [done|]. split; [exists s; split; [by left|done]|].
      by rewrite part_inside by lia.
Qed.

Lemma sum_prefix {T} (sizeof : T → Z) Ts N t : Ts !! N = Some t → Forall (λ t, 0 < sizeof t) Ts →
  0 ≤ foldr Z.add 0 (sizeof <$> take N Ts) ∧ 0 < sizeof t ∧
  foldr Z.add 0 (sizeof <$> take N Ts) + sizeof t ≤ foldr Z.add 0 (sizeof <$> Ts).
Proof.
  revert N. induction Ts as [|u Ts IH]; intros N Ht Hpos; [done|].
  assert (∀ l, Forall (λ t, 0 < sizeof t) l → 0 ≤ foldr Z.add 0 (sizeof <$> l)) as Hsum.
  { intros l. induction 1; cbn; lia. }
  apply Forall_cons_1 in Hpos as [Hu Hpos]. destruct N as [|N]; cbn in *.
  - injection Ht as ->. specialize (Hsum Ts Hpos). lia.
  - destruct (IH N Ht Hpos) as (? & ? & ?). lia.
Qed.

(** One pass over the blocks, when the struct is inside one of them or after the merge. *)
Lemma layer_single h self w pre sz fuel : spells h self [w] → 0 ≤ pre → 0 ≤ sz →
  pre + sz ≤ Z.of_nat (length w) →
  ∃ l pos, Layer (S fuel) pre sz self h = Ok (Some (Some (l, pos), self), h) ∧
    bytes_at h l pos sz = Some (part pre sz w) ∧ buffer_ <$> blocks self !! 0%nat = Some (Some l).
Proof.
  intros (Hc & _ & _ & _ & used & Hb & Hw) Hp Hs Hl. cbn in Hc.
  apply Forall2_cons_inv_r in Hw as (s & used' & Hsw & Hn & ->). apply Forall2_nil_inv_r in Hn as ->.
  destruct (block_part h s w pre sz Hsw) as (l & Eb & _ & Hbuf & Ep); [lia..|].
  exists l, (begin_offset_ s + pre). split; [|split; [done|by rewrite Hb; cbn; rewrite Hbuf]]. cbn [Layer]. unfold IsSingleBlock. rewrite Hc. cbn [Nat.eqb].
  assert (GetFirstBlock self h = Ok (s, h)) as Ef.
  { unfold GetFirstBlock. rewrite Hc, (HM_ok _ _ h tt h) by done. by apply block_lookup; rewrite Hb. }
  by rewrite (HM_ok _ _ _ _ _ Ef), (HM_ok _ _ _ _ _ Eb).
Qed.

(** A single block on a buffer of its own. *)
Lemma one_block_spells h l b n w : h !! l = Some b → MemBuf.mem b = w → MemBuf.capacity_ b = n →
  MemBuf.wf b → n = Z.of_nat (length w) → n < 2 ^ 31 →
  spells h (one_block n (mkMemSlice (Some l) 0 n)) [w].
Proof.
  intros Hb Hm Hcap Hwf Hn Hlt. unfold spells. cbn [one_block block_count_ size_ blocks length concat].
  rewrite app_nil_r. split; [done|]. split; [unfold kMaxBlocks; lia|]. split; [done|]. split; [lia|].
  exists [mkMemSlice (Some l) 0 n]. split; [done|]. constructor; [|done].
  exists l, b. split; [done|]. split; [done|]. split; [done|]. split.
  { unfold window_ok. cbn. intros b' Hb'. rewrite Hb in Hb'. injection Hb' as <-. lia. }
  split; [lia|]. unfold GetUsedSize. cbn [begin_offset_ end_offset_ Z.to_nat drop]. rewrite Z.sub_0_r, Hm.
  change (drop (Z.to_nat 0) w) with w. rewrite u32_small, take_ge by lia. done.
Qed.

(** *** An example: four buffers of two bytes, and a span of two of them *)

Definition demo_count (l : loc) : Z := if (l <=? 4)%positive then 1 else 0.

Lemma demo_heap_ok : heap_ok demo_heap ∅ demo_count.
Proof.
  assert (∀ l : loc, (l = 1 ∨ l = 2 ∨ l = 3 ∨ l = 4)%positive ∨ demo_heap !! l = None ∧ demo_count l = 0) as Hcase.
  { intros l. unfold demo_count. destruct (Pos.leb_spec l 4); [lia|]. right. split; [|done].
    apply not_elem_of_list_to_map. intros Hin. vm_compute in Hin. repeat (apply elem_of_cons in Hin as [->|Hin]; [done|]).
    by apply elem_of_nil in Hin. }
  split_and!.
  - intros l. unfold demo_count. by case_match.
  - intros l b Hb. destruct (Hcase l) as [[->|[->|[->| ->]]]|[E _]]; [..|congruence];
      vm_compute in Hb; injection Hb as <-; done.
  - intros l [Hl|Hl]; [|by apply elem_of_empty in Hl].
    destruct (Hcase l) as [[->|[->|[->| ->]]]|[_ E]]; [by eexists..|lia].
Qed.

Lemma demo_refs n l : (n ≤ 4)%nat → refs (blocks (demo_span n)) l ≤ demo_count l < 2 ^ 31 - 1.
Proof.
  intros Hn. destruct (Pos.leb_spec l 4); unfold demo_count.
  - rewrite (proj2 (Pos.leb_le _ _)) by done.
    assert (l = 1 ∨ l = 2 ∨ l = 3 ∨ l = 4)%positive as [->|[->|[->| ->]]] by lia;
      do 5 (destruct n as [|n]; [by vm_compute|]); lia.
  - rewrite (proj2 (Pos.leb_gt _ _)) by done. cbn [demo_span blocks]. rewrite refs_app, refs_nulls.
    assert (∀ ss, (∀ s, s ∈ ss → ∃ i, (i < 4)%nat ∧ s = demo_slice i) → refs ss l = 0) as ->; [|lia|].
    + induction ss as [|s ss IH]; intros Hss; [done|]. cbn. rewrite IH by (intros; apply Hss; by right).
      destruct (Hss s ltac:(by left)) as (i & Hi & ->). unfold holds_ref. rewrite decide_False; [done|].
      intros E. injection E as E. lia.
    + intros s (i & -> & Hi%elem_of_seq)%list_elem_of_fmap. exists i. split; [lia|done].
Qed.

(** [Layer<N>] of a span of one to three blocks returns, after at most one recursive call,
    a pointer to the bytes of the [N]-th struct: [sizeof] bytes after the prefix, in the
    sequence the blocks spell, wherever the blocks are cut.  Either nothing changed, or the
    span is now one block, on a new buffer, that spells the same bytes; in both cases every
    buffer's count stays the number of its references. *)
Theorem layer_reads_the_struct {T} (sizeof : T → Z) h r f self ws Ts N t full :
  heap_ok h r f → spells h self ws → (0 < length ws < kMaxBlocks)%nat → size_ self ≤ 65536 →
  (∀ l, refs (blocks self) l ≤ f l < 2 ^ 31 - 1) →
  Forall (λ t, 0 < sizeof t) Ts → Ts !! N = Some t →
  FullSize sizeof Ts = Some full → full ≤ size_ self →
  ∃ run l pos self' h' f' ws',
    LayerN sizeof N Ts self = Some run ∧ run h = Ok (Some (Some (l, pos), self'), h') ∧
    bytes_at h' l pos (sizeof t) =
      Some (part (foldr Z.add 0 (sizeof <$> take N Ts)) (sizeof t) (concat ws)) ∧
    heap_ok h' r f' ∧ spells h' self' ws' ∧ concat ws' = concat ws ∧
    (h' = h ∧ self' = self ∨ h !! l = None ∧ block_count_ self' = 1%nat).
Proof.
  intros Hh Hsp Hn Hsize Hf Hpos Ht Hfull Hle.
  assert (N < length Ts)%nat as HN by (by apply lookup_lt_Some in Ht).
  destruct (sum_prefix sizeof Ts N t Ht Hpos) as (Hp & Hs & Htot).
  unfold FullSize in Hfull. rewrite total_sum, foldl_sum in Hfull. injection Hfull as Hfull.
  unfold LayerN. rewrite PrefixSize_ok by lia. cbn [mbind option_bind]. rewrite Type_lookup, Ht.
  cbn [option_bind]. set (pre := foldr Z.add 0 (sizeof <$> take N Ts)) in *.
  pose proof Hsp as (Hc & _ & Hs' & _ & used & Hb & Hw).
  destruct (decide (length ws = 1%nat)) as [H1|H1].
  { destruct ws as [|w [|? ?]]; [done| |done]. cbn [concat] in *. rewrite app_nil_r in *.
    destruct (layer_single h self w pre (sizeof t) 1 Hsp) as (l & pos & E & Ep & _); [lia..|].
    eexists _, l, pos, self, h, f, [w]. split_and!; [done|exact E|done|done|done|by cbn; rewrite app_nil_r|by left]. }
  assert (Layer 2 pre (sizeof t) self h =
    layer_loop (Layer 1 pre (sizeof t)) 0 (length ws) pre (sizeof t) self h) as El.
  { cbn [Layer]. unfold IsSingleBlock, GetBlockCount. rewrite Hc, (proj2 (Nat.eqb_neq _ _) H1). done. }
  destruct (layer_loop_ok (Layer 1 pre (sizeof t)) h self ws pre (sizeof t) used ws Hsp Hp Hs 0 Hw)
    as [(l & pos & E & _ & Ep)|E].
  { done. }
  { rewrite Hb. assert (length used = length ws) as <- by (apply Forall2_length in Hw; done). by rewrite drop_0, take_app_length. }
  { lia. }
  - eexists _, l, pos, self, h, f, ws. split_and!; [done|by rewrite El|done|done|done|done|by left].
  - destruct (merge_ok h r f self ws Hh Hsp) as (l & h' & b & f' & Hl & Em & Hb' & Hm & Hcap & Hh' & _); [lia|done|done|].
    assert (spells h' (one_block (size_ self) (mkMemSlice (Some l) 0 (size_ self))) [concat ws]) as Hsp'.
    { eapply one_block_spells; [exact Hb'|done|done| |done|lia]. destruct Hh' as (_ & H2 & _). by destruct (H2 l b Hb'). }
    destruct (layer_single h' _ (concat ws) pre (sizeof t) 0 Hsp') as (l' & pos & E' & Ep & El'); [lia..|].
    cbn in El'. injection El' as <-.
    eexists _, l, pos, _, h', f', [concat ws].
    split_and!; [done| |done|done|done|by cbn; rewrite app_nil_r|by right].
    rewrite El, E, (HM_ok _ _ _ _ _ Em). exact E'.
Qed.

(** Three structs of 1, 2 and 1 bytes over two blocks of two bytes: the second crosses. *)
Lemma layer_reads_the_struct_witness :
  ∃ run l pos self' h' f' ws',
    LayerN Z.of_nat 1 [1; 2; 1]%nat (demo_span 2) = Some run ∧
    run demo_heap = Ok (Some (Some (l, pos), self'), h') ∧
    bytes_at h' l pos 2 = Some [Some 7; Some 1] ∧
    heap_ok h' ∅ f' ∧ spells h' self' ws' ∧ concat ws' = [Some 0; Some 7; Some 1; Some 7] ∧
    (h' = demo_heap ∧ self' = demo_span 2 ∨ demo_heap !! l = None ∧ block_count_ self' = 1%nat).
Proof.
  apply (layer_reads_the_struct Z.of_nat demo_heap ∅ demo_count (demo_span 2) _ [1; 2; 1]%nat 1 2%nat 4
    demo_heap_ok (demo_spells 2 ltac:(lia))); [cbn; unfold kMaxBlocks; lia|done| |..].
  - intros l. apply (demo_refs 2 l). lia.
  - by repeat constructor.
  - done.
  - done.
  - done.
Defined.

(** A pointer that [Layer] returned does not survive the next call: when a later struct
    lies across the first two blocks, reading it merges the span, and the merge frees the
    buffer an earlier pointer looks into if only the span held it. *)
Theorem earlier_layer_dangles {T} (sizeof : T → Z) h r f self w0 w1 ws s0 l0 Ts N0 N t0 t full pre :
  heap_ok h r f → spells h self (w0 :: w1 :: ws) → (length ws < kMaxBlocks - 2)%nat → size_ self ≤ 65536 →
  (∀ l, refs (blocks self) l ≤ f l < 2 ^ 31 - 1) →
  blocks self !! 0%nat = Some s0 → buffer_ s0 = Some l0 → f l0 = refs (blocks self) l0 →
  Forall (λ t, 0 < sizeof t) Ts → (N0 < N)%nat → Ts !! N0 = Some t0 → Ts !! N = Some t →
  FullSize sizeof Ts = Some full → full ≤ size_ self →
  PrefixSize sizeof N Ts = Some pre → pre ≤ Z.of_nat (length w0) < pre + sizeof t →
  ∃ run0 run pos0 p self' h',
    LayerN sizeof N0 Ts self = Some run0 ∧ run0 h = Ok (Some (Some (l0, pos0), self), h) ∧
    bytes_at h l0 pos0 (sizeof t0) = Some (part (foldr Z.add 0 (sizeof <$> take N0 Ts)) (sizeof t0) w0) ∧
    LayerN sizeof N Ts self = Some run ∧ run h = Ok (Some (Some p, self'), h') ∧
    h' !! l0 = None.
Proof.
  intros Hh Hsp Hn Hsize Hf Hs0 Hl0 Hown Hpos HN Ht0 Ht Hfull Hle Hpre Hcross.
  assert (N < length Ts)%nat as HN' by (by apply lookup_lt_Some in Ht).
  destruct (sum_prefix sizeof Ts N t Ht Hpos) as (Hp & Hs & Htot).
  assert (take N Ts !! N0 = Some t0) as Ht0' by (rewrite lookup_take_lt by lia; done).
  destruct (sum_prefix sizeof (take N Ts) N0 t0 Ht0' (Forall_take _ _ _ Hpos)) as (Hp0 & Hs0' & Htot0).
  rewrite take_take, Nat.min_l in Hp0, Htot0 by lia.
  unfold FullSize in Hfull. rewrite total_sum, foldl_sum in Hfull. injection Hfull as Hfull.
  rewrite PrefixSize_ok in Hpre by lia. injection Hpre as Hpre.
  unfold LayerN. rewrite !PrefixSize_ok by lia. cbn [mbind option_bind]. rewrite !Type_lookup, Ht0, Ht.
  cbn [option_bind]. rewrite Hpre in *. set (pre0 := foldr Z.add 0 (sizeof <$> take N0 Ts)) in *.
  pose proof Hsp as (Hc & _ & Hs' & _ & used & Hb & Hw).
  apply Forall2_cons_inv_r in Hw as (s & used' & Hsw & Hw & ->).
  assert (s = s0) as -> by (rewrite Hb in Hs0; cbn in Hs0; congruence).
  assert (∀ pre sz, Layer 2 pre sz self h = layer_loop (Layer 1 pre sz) 0 (S (S (length ws))) pre sz self h) as El.
  { intros. cbn [Layer]. unfold IsSingleBlock, GetBlockCount. by rewrite Hc. }
  destruct (merge_ok h r f self _ Hh Hsp) as (l & h' & b & f' & Hl & Em & Hb' & Hm & Hcap & Hh' & Hfl & Hf');
    [cbn; unfold kMaxBlocks in *; lia|done|done|].
  assert (l ≠ l0) as Hll. { intros ->. destruct Hsw as (? & ? & ? & ? & _). congruence. }
  assert (spells h' (one_block (size_ self) (mkMemSlice (Some l) 0 (size_ self))) [concat (w0 :: w1 :: ws)]) as Hsp'.
  { eapply one_block_spells; [exact Hb'|done|done| |done|lia]. destruct Hh' as (_ & H2 & _). by destruct (H2 l b Hb'). }
  destruct (layer_single h' _ _ pre (sizeof t) 0 Hsp') as (l' & pos & E' & _); [lia..|].
  eexists _, _, _, (l', pos), _, h'. split; [done|]. split.
  { rewrite El, (layer_step _ h self 0 _ s0 w0 l0) by (done || (rewrite Hc; cbn; lia)).
    rewrite (proj2 (Z.ltb_ge _ _)), (proj2 (Z.ltb_ge _ _)) by lia. done. }
  split.
  { destruct (block_part h s0 w0 pre0 (sizeof t0) Hsw) as (l'' & _ & _ & Hbuf & Ep); [lia..|]. congruence. }
  split; [done|]. split.
  { rewrite El, (layer_step _ h self 0 _ s0 w0 l0) by (done || (rewrite Hc; cbn; lia)).
    rewrite (proj2 (Z.ltb_ge _ _)), (proj2 (Z.ltb_lt _ _)) by lia. rewrite (HM_ok _ _ _ _ _ Em). exact E'. }
  assert (0 < f l0) as Hpos0.
  { rewrite Hown, Hb. cbn [refs List.app]. rewrite holds_ref_some by done.
    match goal with |- 0 < 1 + refs ?l ?k => pose proof (refs_bound l k) end. lia. }
  destruct (h' !! l0) as [b0|] eqn:E0; [|done]. destruct Hh' as (_ & H2 & _), Hh as (_ & H1 & H3).
  destruct (H2 l0 b0 E0) as (_ & _ & Hr'). destruct (H3 l0 (or_introl Hpos0)) as [b1 E1].
  destruct (H1 l0 b1 E1) as (_ & _ & Hr). specialize (Hf' l0). rewrite Hf' in Hr' by done.
  assert (l0 ∈ r) as Hin%Hr by (apply Hr'; lia). lia.
Qed.

Lemma earlier_layer_dangles_witness :
  ∃ run0 run pos0 p self' h',
    LayerN Z.of_nat 0 [1; 2; 1]%nat (demo_span 2) = Some run0 ∧
    run0 demo_heap = Ok (Some (Some (1%positive, pos0), demo_span 2), demo_heap) ∧
    bytes_at demo_heap 1%positive pos0 1 = Some [Some 0] ∧
    LayerN Z.of_nat 1 [1; 2; 1]%nat (demo_span 2) = Some run ∧
    run demo_heap = Ok (Some (Some p, self'), h') ∧ h' !! 1%positive = None.
Proof.
  apply (earlier_layer_dangles Z.of_nat demo_heap ∅ demo_count (demo_span 2) (demo_bytes 0) (demo_bytes 1) []
    (demo_slice 0) 1%positive [1; 2; 1]%nat 0 1 1%nat 2%nat 4 1 demo_heap_ok (demo_spells 2 ltac:(lia)));
    [cbn; unfold kMaxBlocks; lia|done| |done|done|done|by repeat constructor|lia|done|done|done|done|done|cbn; lia].
  intros l. apply (demo_refs 2 l). lia.
Defined.
